(* ===== verification/_CoqProject ===== *)
-Q . S2P
Prelude.v
Bitmap.v
Lists.v
Hash.v
Machine.v
Mips.v
Interrupt.v
Disk.v
FileHdr.v
OpenFile.v
PBitmap.v
Directory.v
FileSys.v
HostFS.v
AddrSpace.v
Isolation.v
Threads.v
Synch.v
Kernel.v
Spaces.v
Coff2noff.v
UserPrograms.v
Stacks.v
SelfTests.v
System.v
Console.v
Network.v
Process.v
SysCall.v
UserMemory.v
Nachos.v
UserSpaces.v
Safety.v
Protection.v
Halting.v
Boot.v
