(* ===== verification/Prelude.v ===== *)
(** * NachOS 4.0 (CS333 project): a verification library

    The program is the NachOS 4.0 teaching kernel of [src/NachOS-4.0/code]: a
    simulated MIPS machine with its devices, and on it a kernel with threads,
    synchronisation, two file systems, address spaces, processes and system
    calls.  Beside it are [src/NachOS-4.0/coff2noff], which converts
    compiled user programs, and the examples of [src/NachOS-4.0/c++example].  This
    library translates the code into executable definitions and proves what the
    parts promise one another.

    ** The parts

    A result is [res A]: a value, or the [fault] that stops the program (a failed
    [ASSERT], undefined behaviour, the end of the simulation).  [int] is [Z] kept
    in range by [s32] (and [u32] for [unsigned]); arrays are lists read and
    written by [arr_get] and [arr_set], which fault out of range.  Objects the
    code shares through pointers live in explicit heaps.

    - [Prelude]: results, machine integers, arrays, bounded loops, tactics.
    - [Bitmap] ([lib/bitmap]), [Lists] ([lib/list]), [Hash] ([lib/hash]): the
      library.  The interfaces [BitAllocator] and [ListOps]/[ListLaws] are what
      file headers, address spaces, hash tables and the scheduler rely on.
    - [Machine] ([machine/machine], [machine/translate]) and [Mips]
      ([machine/mipssim]): registers, memory, translation, traps, instructions.
      The kernel is the interface [Kernel]/[KernelLaws].
    - [Interrupt] ([machine/interrupt], [stats], [timer], [threads/alarm]): the
      clock and the pending interrupts, over the interface [Devices].
    - [Disk] ([machine/disk]), [FileHdr], [OpenFile], [PBitmap], [Directory],
      [FileSys] ([filesys/]): the file system on the simulated disk.  The disk of
      sectors is the interface [SectorDisk].
    - [HostFS] ([filesys/filesys.h], [filesys/openfile.h] with [FILESYS_STUB],
      [lib/sysdep]): the file system the kernel is built with, over the host's
      files; the other end of a TCP connection is the interface [TCP].
    - [AddrSpace] ([userprog/addrspace]): page tables, loading, execution.
    - [Threads] ([threads/thread], [scheduler], [synch], [synchlist]): a
      small-step machine.  A kernel stack is a list of calls ([instr]); [exec] is
      one call, [step] runs the current thread's next call.  What client code and
      interrupt handlers do is the interface [Client]/[ClientLaws].
    - [Synch]: the invariants of that machine; [Kernel]: every step keeps them.
    - [SelfTests] ([lib/libtest], [threads/kernel.cc]): the self test, a client.
    - [System]: the kernel's data: process table, control blocks, named
      semaphores, console, network, file system; and the points where its
      functions are cut by calls of the thread machine.  [Console]
      ([machine/console], [userprog/synchconsole]), [Network] ([machine/network],
      [network/post], [filesys/synchdisk]), [Process] ([threads/pcb], [ptable],
      [sem], [stable]) and [SysCall] ([userprog/exception], [ksyscall]): the
      operations on them.  A function that may sleep is cut there, its parts end
      in [_].  [UserMemory]: the strings that [SysCall] passes to and from a
      user's address space.
    - [Nachos] ([threads/kernel], [main], [Machine::Run]): all of them as one
      [Client] of the thread machine, started by a command line.
    - [Safety]: the pieces of that client keep the rules of [Kernel].
      [Isolation] (what runs on the machine reaches the frames of its space only),
      [Spaces] (spaces in the thread machine), [UserSpaces] (the client's pieces
      keep to them) and [Protection] (so does the kernel [main] starts): the
      separation of processes.  [Halting]: what every operation of the kernel
      keeps of the file table, and the end of the machine.
    - [Boot]: a terminal, a network and two executables; runs of the whole
      kernel in that world, and the states the theorems are applied to.
    - [Coff2noff] ([coff2noff/coff2noff.c], [coff.h], [noff.h]): the converter,
      a process on the host's files of [HostFS].
    - [UserPrograms] ([test/sort.c], [test/matmult.c]) and [Stacks]
      ([c++example/templatestack], [stack], [list], [inheritstack]): programs
      that need no kernel.

    ** What the theorems show

    - Data structures: the bit operations refine a list of booleans, the linked
      lists a sequence without duplicates, the hash table a finite map (with
      [ReHash]), the directory a map from names to sectors.
    - Machine: [Translate] reports exactly the exceptions the tables demand and
      user code reaches no other frame; the instructions compute what the MIPS
      manual defines, but for the logical right shifts of negative operands, which
      the code shifts arithmetically; loads and branches take effect after the
      next instruction; any number of instructions keeps the machine well formed,
      and only the division of [INT_MIN] by -1 traps the host.
    - Interrupts: exactly the interrupts due fire, in order, and the clock's
      accounts balance.
    - Files: the disk refines an array of sectors; reads and writes of a file
      move exactly the bytes asked for; [Create], [Open] and [Remove] act on the
      named file only (a file too long for its header overruns it); a formatted
      disk boots to what was left on it.
    - Address spaces: [Load] puts segments and arguments where they belong and
      changes nothing else; a new space gets only free frames.
    - Threads: each step keeps every thread in exactly one place, no wakeup is
      lost, a ready thread runs after those before it, [V] wakes the thread that
      has waited longest.
    - The whole system: whatever the command line, the host and the users'
      programs, the kernel that [main] starts keeps every invariant of the thread
      machine and stops only for the listed causes ([system_stays_good]); no step
      of a process reaches the registers or the memory of another
      ([processes_isolated]) and a context switch gives both back unchanged
      ([context_switch_transparent]).  [Interrupt::Halt] runs [Kernel::~Kernel]
      ([Network.delete_Kernel]): before an [Exec] it can end the process, and
      after one it never does, since the file table keeps a slot whose file is
      deleted ([Exec_dooms_halt]).
    - Messages: a letter sent over a network that loses nothing arrives whole in
      the mailbox it names ([mail_arrives]).
    - System calls: what [System2User] stores [User2System] reads back across
      pages, and [User2System] reads exactly the characters the address space
      shows, into its array, whatever the user passes.
    - User programs: the converter writes what the object file holds or leaves no
      file ([coff2noff_exact], [main_leaves_no_partial_file]; an input with a
      section of negative size overruns its buffer), and [Load] puts the program
      where it was linked for, if it has no read-only data
      ([converted_program_loads]: [Load] takes the address of the read-only
      segment for its size); [sort.c] sorts; the two stacks are stacks.

    Each property carries its number in its comment; a witness theorem applies it
    to a concrete state.

    ** Bounds and fuel

    Loops of the code with a bound known in advance are [for_range] and
    [for_return] over it.  The others take fuel that a theorem shows is enough:
    the loop that fires interrupts runs once more than there are interrupts
    pending ([CheckIfDue_fires_due]), the product takes 32 rounds
    ([Mult_exact]), aligning an address takes as many rounds as the alignment
    ([Load_exact]), the self test 1500 steps ([ThreadSelfTest_completes]).
    [Mips.Run] takes a number of rounds because the code's loop never ends; the
    theorem holds for every number.
    The runs of [Boot] take at most 1000 steps of the thread machine, each up to
    a call of its own; [Machine::Run] there is cut after every instruction.  The
    tests of [Stacks] take one turn more than there are elements.

    ** Not modelled

    - Pure terminal output and debugging: [DEBUG], [Print], [DumpState],
      [PrintPending], the interactive [Debugger] of [machine/mipssim.cc], the
      names of objects that are only printed.
    - [threads/switch.S] and [switch.h], the assembly that changes stacks: the
      list of calls on a stack takes its place.
    - The host: what the calls of [lib/sysdep.cc] do outside the process (the
      terminal, the sockets, random numbers) is the interface [Outside] of
      [System]; its signals, delays and protected memory are left out.
    - [filesys/filetable.h] is commented out.
    - The other programs of [code/test] and [src/sockets]: they are their system
      calls, and several read through pointers they never set.  The cross
      compiler's files under [src/usr] are not part of the program. *)

From Stdlib Require Export ZArith Lia Bool.
From stdpp Require Export base option list gmap strings.


#[export] Set Warnings "-clear-no-such-hyp".

Declare Scope nachos_scope.
Delimit Scope nachos_scope with nachos.
Open Scope Z_scope.
Open Scope nachos_scope.

#[global] Arguments Nat.div : simpl never.
#[global] Arguments Nat.modulo : simpl never.
#[global] Arguments Z.mul : simpl never.
#[global] Arguments Z.add : simpl never.
#[global] Arguments Z.sub : simpl never.
#[global] Arguments Z.of_nat : simpl never.
#[global] Arguments Z.to_nat : simpl never.

(** ** Results of C++ code *)

(** Why an execution stops without returning.  [AssertFailed] is the [ASSERT]
    macro of [lib/debug.h] calling [Abort()]; the others are undefined
    behaviour of C++ that the code runs into (or, for [ArithTrap], the trap the
    x86 host raises).  [Halted] is the orderly end of the whole simulation
    ([Interrupt::Halt], which never returns).  [OutOfFuel] is not behaviour of
    the code: the theorems show that the fuel given to each loop is enough. *)
Inductive fault : Set :=
| AssertFailed
| OutOfBounds
| NullPointer
| UseAfterFree
| Uninitialised
| ArithTrap
| Halted
| OutOfFuel.

#[global] Instance fault_eq_dec : EqDecision fault.
Proof. solve_decision. Defined.

Inductive res (A : Type) : Type :=
| Ok (a : A)
| Fault (f : fault).
Arguments Ok {A} a.
Arguments Fault {A} f.

Definition rbind {A B} (m : res A) (f : A -> res B) : res B :=
  match m with Ok a => f a | Fault e => Fault e end.

(** Sequencing of fallible code, in the layout of the source. *)
Notation "x ← y ; z" := (rbind y (fun x => z)) : nachos_scope.
Notation "' x ← y ; z" := (rbind y (fun x => z)) : nachos_scope.
Notation "x ;; z" := (rbind x (fun _ => z)) : nachos_scope.

(** [lib/debug.h]: [ASSERT(condition)]. *)
Definition ASSERT (c : bool) : res () := if c then Ok () else Fault AssertFailed.

Section res_lemmas.
Context {A B : Type}.

Lemma bind_Ok (a : A) (f : A -> res B) : rbind (Ok a) f = f a.
Proof. reflexivity. Qed.

Lemma bind_Ok_inv (m : res A) (f : A -> res B) b :
  rbind m f = Ok b -> exists a, m = Ok a /\ f a = Ok b.
Proof. destruct m as [a|e]; [eauto | discriminate]. Qed.

Lemma ASSERT_true (c : bool) (f : () -> res A) : c = true -> rbind (ASSERT c) f = f ().
Proof. by intros ->. Qed.

Lemma ASSERT_false (c : bool) (f : () -> res A) :
  c = false -> rbind (ASSERT c) f = Fault AssertFailed.
Proof. by intros ->. Qed.

Lemma ASSERT_inv (c : bool) (f : () -> res A) b :
  rbind (ASSERT c) f = Ok b -> c = true /\ f () = Ok b.
Proof. destruct c; [done | discriminate]. Qed.
End res_lemmas.

(** ** Machine integers *)

(** The host is 32-bit x86 (the Makefile compiles with [-m32]): [int] is a
    32-bit two's complement integer, held as its value; [unsigned int] is a
    value below 2^32.  [s32]/[u32] are the conversions. *)
Definition u32 (z : Z) : Z := z mod 2 ^ 32.
Definition s32 (z : Z) : Z := (z + 2 ^ 31) mod 2 ^ 32 - 2 ^ 31.

Definition is_s32 (z : Z) : Prop := - 2 ^ 31 <= z < 2 ^ 31.
Definition is_u32 (z : Z) : Prop := 0 <= z < 2 ^ 32.

(** [lib/utility.h] *)
Definition divRoundDown (n s : Z) : Z := Z.quot n s.
Definition divRoundUp (n s : Z) : Z :=
  Z.quot n s + (if Z.rem n s >? 0 then 1 else 0).

Lemma u32_range z : is_u32 (u32 z).
Proof. unfold is_u32, u32. apply Z.mod_pos_bound. lia. Qed.

Lemma s32_range z : is_s32 (s32 z).
Proof. unfold is_s32, s32. pose proof (Z.mod_pos_bound (z + 2 ^ 31) (2 ^ 32)). lia. Qed.

Lemma u32_id z : is_u32 z -> u32 z = z.
Proof. intros. by apply Z.mod_small. Qed.

Lemma s32_id z : is_s32 z -> s32 z = z.
Proof. unfold is_s32, s32. intros. rewrite Z.mod_small; lia. Qed.

Lemma u32_s32 z : u32 (s32 z) = u32 z.
Proof.
  unfold u32, s32. rewrite Zminus_mod_idemp_l. f_equal. lia.
Qed.

Lemma s32_u32 z : s32 (u32 z) = s32 z.
Proof. unfold u32, s32. by rewrite Zplus_mod_idemp_l. Qed.

Lemma s32_idemp z : s32 (s32 z) = s32 z.
Proof. apply s32_id, s32_range. Qed.

Lemma u32_idemp z : u32 (u32 z) = u32 z.
Proof. apply u32_id, u32_range. Qed.

Lemma s32_inj_u32 a b : u32 a = u32 b -> s32 a = s32 b.
Proof. intros H. by rewrite <- (s32_u32 a), <- (s32_u32 b), H. Qed.

Lemma u32_testbit z i : 0 <= i < 32 -> Z.testbit (u32 z) i = Z.testbit z i.
Proof. intros. apply Z.mod_pow2_bits_low. lia. Qed.

Lemma u32_testbit_high z i : 32 <= i -> Z.testbit (u32 z) i = false.
Proof. intros. apply Z.mod_pow2_bits_high. lia. Qed.

Lemma s32_testbit z i : 0 <= i < 32 -> Z.testbit (s32 z) i = Z.testbit z i.
Proof. intros. by rewrite <- u32_testbit, u32_s32, u32_testbit. Qed.

Lemma divRoundUp_pos n s : 0 <= n -> 0 < s -> divRoundUp n s = (n + s - 1) / s.
Proof.
  intros Hn Hs. unfold divRoundUp.
  rewrite Z.quot_div_nonneg, Z.rem_mod_nonneg by lia.
  pose proof (Z.div_mod n s ltac:(lia)) as E.
  pose proof (Z.mod_pos_bound n s Hs) as B.
  destruct (n mod s >? 0) eqn:G.
  - apply (Z.div_unique_pos _ _ _ (n mod s - 1)); lia.
  - rewrite Z.add_0_r. apply (Z.div_unique_pos _ _ _ (s - 1)); lia.
Qed.

Lemma divRoundUp_spec n s :
  0 <= n -> 0 < s -> n <= divRoundUp n s * s < n + s.
Proof.
  intros. rewrite divRoundUp_pos by done.
  pose proof (Z.div_mod (n + s - 1) s ltac:(lia)).
  pose proof (Z.mod_pos_bound (n + s - 1) s). lia.
Qed.

(** ** Arrays *)

(** A C array or a [new T[n]] object is a list; an access outside it is
    undefined behaviour ([OutOfBounds]). *)
Definition zlen {A} (l : list A) : Z := Z.of_nat (length l).

Definition arr_get {A} (l : list A) (i : Z) : res A :=
  if 0 <=? i then
    match l !! Z.to_nat i with Some x => Ok x | None => Fault OutOfBounds end
  else Fault OutOfBounds.

Definition arr_set {A} (l : list A) (i : Z) (x : A) : res (list A) :=
  if (0 <=? i) && (i <? zlen l) then Ok (<[Z.to_nat i := x]> l)
  else Fault OutOfBounds.

Section arrays.
Context {A : Type}.
Implicit Types l : list A.

Lemma zlen_nonneg l : 0 <= zlen l.
Proof. unfold zlen. lia. Qed.

Lemma zlen_insert l i x : zlen (<[i := x]> l) = zlen l.
Proof. unfold zlen. by rewrite length_insert. Qed.

Lemma zlen_app l k : zlen (l ++ k) = zlen l + zlen k.
Proof. unfold zlen. rewrite length_app. lia. Qed.

Lemma arr_get_Some l i x : 0 <= i -> l !! Z.to_nat i = Some x -> arr_get l i = Ok x.
Proof. intros Hi Hx. unfold arr_get. rewrite (proj2 (Z.leb_le 0 i) Hi). by rewrite Hx. Qed.

Lemma arr_get_inv l i x : arr_get l i = Ok x -> 0 <= i < zlen l /\ l !! Z.to_nat i = Some x.
Proof.
  unfold arr_get, zlen. destruct (Z.leb_spec 0 i); [|done].
  destruct (l !! Z.to_nat i) as [y|] eqn:E; [|done]. intros [= ->].
  apply lookup_lt_Some in E as ?. split; [lia | done].
Qed.

Lemma arr_get_lt l i : 0 <= i < zlen l -> exists x, l !! Z.to_nat i = Some x /\ arr_get l i = Ok x.
Proof.
  unfold zlen. intros. destruct (lookup_lt_is_Some_2 l (Z.to_nat i)) as [x Hx]; [lia|].
  exists x. split; [done|]. apply arr_get_Some; [lia|done].
Qed.

Lemma arr_get_out l i : ~ (0 <= i < zlen l) -> arr_get l i = Fault OutOfBounds.
Proof.
  unfold arr_get, zlen. intros. destruct (Z.leb_spec 0 i); [|done].
  by rewrite lookup_ge_None_2 by lia.
Qed.

Lemma arr_set_lt l i x : 0 <= i < zlen l -> arr_set l i x = Ok (<[Z.to_nat i := x]> l).
Proof.
  intros. unfold arr_set.
  by rewrite (proj2 (Z.leb_le 0 i)), (proj2 (Z.ltb_lt i (zlen l))) by lia.
Qed.

Lemma arr_set_out l i x : ~ (0 <= i < zlen l) -> arr_set l i x = Fault OutOfBounds.
Proof.
  intros. unfold arr_set.
  destruct (Z.leb_spec 0 i), (Z.ltb_spec i (zlen l)); try done; lia.
Qed.

Lemma arr_set_inv l i x l' :
  arr_set l i x = Ok l' -> 0 <= i < zlen l /\ l' = <[Z.to_nat i := x]> l.
Proof.
  unfold arr_set. destruct (Z.leb_spec 0 i), (Z.ltb_spec i (zlen l)); try done.
  intros [= <-]. split; [lia|done].
Qed.

Lemma arr_get_insert_eq l i x : 0 <= i < zlen l -> arr_get (<[Z.to_nat i := x]> l) i = Ok x.
Proof.
  unfold zlen. intros. apply arr_get_Some; [lia|]. apply list_lookup_insert_eq. lia.
Qed.

Lemma arr_get_insert_ne l i j x :
  0 <= i -> 0 <= j -> i <> j -> arr_get (<[Z.to_nat i := x]> l) j = arr_get l j.
Proof.
  intros. unfold arr_get. destruct (0 <=? j); [|done].
  by rewrite list_lookup_insert_ne by lia.
Qed.
End arrays.

(** ** Bytes *)

(** Memory, sectors and files are lists of bytes, each a value below 256; the
    host and the simulated machine are little-endian. *)
Definition is_byte (b : Z) : Prop := 0 <= b < 256.

Fixpoint le_combine (bs : list Z) : Z :=
  match bs with
  | [] => 0
  | b :: bs => b + 256 * le_combine bs
  end.

Fixpoint le_split (n : nat) (v : Z) : list Z :=
  match n with
  | O => []
  | S n => v mod 256 :: le_split n (v / 256)
  end.

(** [n] bytes of [l] from offset [off], and their replacement (a [memcpy]). *)
Definition slice {A} (off n : nat) (l : list A) : list A := take n (drop off l).
Definition splice {A} (off : nat) (new l : list A) : list A :=
  take off l ++ new ++ drop (off + length new) l.

Lemma length_le_split n v : length (le_split n v) = n.
Proof. revert v. induction n as [|n IH]; intros v; simpl; [done|]. by rewrite IH. Qed.

Lemma le_split_bytes n v : Forall is_byte (le_split n v).
Proof.
  revert v. induction n as [|n IH]; intros v; simpl; constructor; [|apply IH].
  apply Z.mod_pos_bound. lia.
Qed.

Lemma pow256_S n : 256 ^ Z.of_nat (S n) = 256 * 256 ^ Z.of_nat n.
Proof. rewrite Nat2Z.inj_succ. apply Z.pow_succ_r. lia. Qed.

Lemma le_combine_split n v : le_combine (le_split n v) = v mod 256 ^ Z.of_nat n.
Proof.
  revert v. induction n as [|n IH]; intros v; cbn [le_split le_combine].
  - by rewrite Z.mod_1_r.
  - rewrite IH, pow256_S, Z.rem_mul_r; lia.
Qed.

Lemma le_combine_range bs : Forall is_byte bs -> 0 <= le_combine bs < 256 ^ zlen bs.
Proof.
  unfold zlen. induction 1 as [|b bs Hb Hbs IH]; cbn [le_combine length]; [lia|].
  rewrite pow256_S. unfold is_byte in Hb. nia.
Qed.

Lemma le_split_combine bs : Forall is_byte bs -> le_split (length bs) (le_combine bs) = bs.
Proof.
  induction 1 as [|b bs Hb Hbs IH]; cbn [le_combine le_split length]; [done|].
  unfold is_byte in Hb. f_equal.
  - rewrite Z.mul_comm, Z.mod_add by lia. apply Z.mod_small. lia.
  - rewrite Z.mul_comm, Z.div_add, Z.div_small by lia. exact IH.
Qed.

Lemma le_combine_app bs cs :
  le_combine (bs ++ cs) = le_combine bs + 256 ^ zlen bs * le_combine cs.
Proof.
  unfold zlen. induction bs as [|b bs IH]; cbn [app le_combine length].
  - rewrite Z.pow_0_r. lia.
  - rewrite IH, pow256_S. lia.
Qed.

Section slices.
Context {A : Type}.
Implicit Types l new : list A.

Lemma length_slice off n l : (off + n <= length l)%nat -> length (slice off n l) = n.
Proof. intros. unfold slice. rewrite length_take, length_drop. lia. Qed.

Lemma length_splice off new l :
  (off + length new <= length l)%nat -> length (splice off new l) = length l.
Proof.
  intros. unfold splice. rewrite !length_app, length_take, length_drop. lia.
Qed.

Lemma slice_splice off new l :
  (off + length new <= length l)%nat -> slice off (length new) (splice off new l) = new.
Proof.
  intros. unfold slice, splice.
  rewrite drop_app_length' by (rewrite length_take; lia). apply take_app_length.
Qed.

Lemma splice_slice off n l : (off + n <= length l)%nat -> splice off (slice off n l) l = l.
Proof.
  intros. unfold splice. rewrite length_slice by done. unfold slice.
  rewrite <- drop_drop, take_drop. apply take_drop.
Qed.

Lemma lookup_splice_out off new l i :
  (off + length new <= length l)%nat -> (i < off \/ off + length new <= i)%nat ->
  splice off new l !! i = l !! i.
Proof.
  intros Hl Hi. unfold splice. destruct (decide (i < off)%nat) as [Hlt|Hge].
  - rewrite lookup_app_l by (rewrite length_take; lia). by apply lookup_take_lt.
  - rewrite lookup_app_r, length_take by (rewrite length_take; lia).
    rewrite lookup_app_r by lia. rewrite lookup_drop. f_equal. lia.
Qed.

Lemma lookup_slice off n l i : (i < n)%nat -> slice off n l !! i = l !! (off + i)%nat.
Proof. intros. unfold slice. rewrite lookup_take_lt by done. apply lookup_drop. Qed.

Lemma slice_splice_out off new l o n :
  (off + length new <= length l)%nat -> (o + n <= off \/ off + length new <= o)%nat ->
  slice o n (splice off new l) = slice o n l.
Proof.
  intros Hl Ho. apply list_eq. intros i. destruct (decide (i < n)%nat).
  - rewrite !lookup_slice by done. apply lookup_splice_out; lia.
  - unfold slice. by rewrite !lookup_take_ge by lia.
Qed.

Lemma Forall_slice (P : A -> Prop) off n l : Forall P l -> Forall P (slice off n l).
Proof. intros. by apply Forall_take, Forall_drop. Qed.

Lemma Forall_splice (P : A -> Prop) off new l :
  Forall P new -> Forall P l -> Forall P (splice off new l).
Proof. intros. apply Forall_app; split; [by apply Forall_take|]. apply Forall_app; split; [done|]. by apply Forall_drop. Qed.
End slices.

Section more_slices.
Context {A : Type}.
Implicit Types l new : list A.

Lemma slice_add off a b l : slice off (a + b) l = slice off a l ++ slice (off + a) b l.
Proof.
  unfold slice. rewrite <- drop_drop. rewrite <- (take_drop a (take (a + b) (drop off l))).
  f_equal; [rewrite take_take; f_equal; lia|]. symmetry. apply take_drop_commute.
Qed.

Lemma slice_all l : slice 0 (length l) l = l.
Proof. unfold slice. by rewrite drop_0, firstn_all. Qed.

Lemma slice_slice off n off' n' l : (off' + n' <= n)%nat ->
  slice off' n' (slice off n l) = slice (off + off') n' l.
Proof.
  intros Hn. apply list_eq. intros i. destruct (decide (i < n')%nat).
  - rewrite !lookup_slice by lia. f_equal. lia.
  - unfold slice. by rewrite !lookup_take_ge by lia.
Qed.

Lemma slice_take off n k l : (off + n <= k)%nat -> slice off n (take k l) = slice off n l.
Proof.
  intros Hk. apply list_eq. intros i. destruct (decide (i < n)%nat).
  - rewrite !lookup_slice by done. rewrite lookup_take_lt by lia. done.
  - unfold slice. by rewrite !lookup_take_ge by lia.
Qed.

Lemma lookup_splice_in off new l i : (off <= length l)%nat -> (off <= i < off + length new)%nat ->
  splice off new l !! i = new !! (i - off)%nat.
Proof.
  intros Hl Hi. unfold splice. rewrite lookup_app_r by (rewrite length_take; lia).
  rewrite length_take, lookup_app_l by lia. f_equal. lia.
Qed.

Lemma take_splice_end off new l : (off + length new <= length l)%nat ->
  take (off + length new) (splice off new l) = take off l ++ new.
Proof.
  intros Hl. unfold splice. rewrite app_assoc.
  rewrite take_app_le by (rewrite length_app, length_take; lia).
  rewrite take_ge by (rewrite length_app, length_take; lia). done.
Qed.

Lemma splice_splice_next off a b l : (off + length a + length b <= length l)%nat ->
  splice (off + length a) b (splice off a l) = splice off (a ++ b) l.
Proof.
  intros Hl. unfold splice at 1. rewrite take_splice_end by lia.
  unfold splice. rewrite length_app. rewrite app_assoc.
  replace (drop _ (take off l ++ a ++ drop (off + length a) l)) with
    (drop (off + (length a + length b)) l); [by rewrite <- !app_assoc|].
  rewrite app_assoc, drop_app_ge by (rewrite length_app, length_take; lia).
  rewrite length_app, length_take, drop_drop. f_equal. lia.
Qed.
End more_slices.

(** ** Chunks *)

(** A list of [n * k] elements as [n] chunks of [k], and back with [mjoin]. *)
Definition chunks {A} (k n : nat) (l : list A) : list (list A) :=
  (fun i => slice (k * i) k l) <$> seq 0 n.

Section chunks.
Context {A : Type}.
Implicit Types (l new : list A) (ls : list (list A)).

Lemma length_mjoin_chunks k ls : Forall (fun l => length l = k) ls ->
  length (mjoin ls) = (k * length ls)%nat.
Proof.
  induction 1 as [|l ls Hl Hls IH]; simpl; [lia|]. rewrite length_app, IH, Hl. lia.
Qed.

Lemma drop_mjoin k i ls : Forall (fun l => length l = k) ls ->
  drop (k * i) (mjoin ls) = mjoin (drop i ls).
Proof.
  intros Hk. revert i. induction Hk as [|l ls Hl Hk IH]; intros i; [change (mjoin []) with (@nil A); by rewrite !drop_nil|].
  destruct i as [|i]; [by rewrite Nat.mul_0_r|]. simpl.
  replace (k * S i)%nat with (length l + k * i)%nat by lia.
  by rewrite drop_app_add, IH.
Qed.

Lemma take_mjoin k i ls : Forall (fun l => length l = k) ls ->
  take (k * i) (mjoin ls) = mjoin (take i ls).
Proof.
  intros Hk. revert i. induction Hk as [|l ls Hl Hk IH]; intros i; [change (mjoin []) with (@nil A); by rewrite !take_nil|].
  destruct i as [|i]; [by rewrite Nat.mul_0_r|]. simpl.
  replace (k * S i)%nat with (length l + k * i)%nat by lia.
  by rewrite take_app_add, IH.
Qed.

Lemma slice_mjoin k i ls l : Forall (fun l => length l = k) ls -> ls !! i = Some l ->
  slice (k * i) k (mjoin ls) = l.
Proof.
  intros Hk Hl. unfold slice. rewrite drop_mjoin by done. rewrite (drop_S _ l) by done. simpl.
  rewrite Forall_lookup in Hk. specialize (Hk i l Hl). rewrite <- Hk. apply take_app_length.
Qed.

Lemma splice_mjoin k i ls new : Forall (fun l => length l = k) ls -> (i < length ls)%nat ->
  length new = k -> splice (k * i) new (mjoin ls) = mjoin (<[i := new]> ls).
Proof.
  intros Hk Hi Hn. unfold splice. rewrite Hn.
  replace (k * i + k)%nat with (k * S i)%nat by lia.
  rewrite take_mjoin, drop_mjoin by done.
  rewrite insert_take_drop by done. by rewrite join_app.
Qed.

Lemma length_chunks k n l : length (chunks k n l) = n.
Proof. unfold chunks. by rewrite length_fmap, length_seq. Qed.

Lemma chunks_lookup k n l i : (i < n)%nat -> chunks k n l !! i = Some (slice (k * i) k l).
Proof. intros. unfold chunks. by rewrite list_lookup_fmap, lookup_seq_lt. Qed.

Lemma chunks_size k n l : length l = (k * n)%nat -> Forall (fun c => length c = k) (chunks k n l).
Proof.
  intros Hl. apply Forall_lookup. intros i c Hc.
  assert (Hi : (i < n)%nat) by (apply lookup_lt_Some in Hc; by rewrite length_chunks in Hc).
  rewrite chunks_lookup in Hc by done. injection Hc as <-. apply length_slice. nia.
Qed.

Lemma chunks_S k n l : chunks k (S n) l = take k l :: chunks k n (drop k l).
Proof.
  unfold chunks. cbn [seq fmap list_fmap]. rewrite Nat.mul_0_r. f_equal.
  rewrite <- seq_shift, <- list_fmap_compose. apply list_fmap_ext. intros i x Hx. simpl.
  unfold slice. rewrite drop_drop. f_equal. f_equal. lia.
Qed.

Lemma mjoin_chunks k n l : length l = (k * n)%nat -> mjoin (chunks k n l) = l.
Proof.
  revert l. induction n as [|n IH]; intros l Hl.
  - destruct l; [done|]. simpl in Hl. lia.
  - rewrite chunks_S. simpl. rewrite IH by (rewrite length_drop; lia). apply take_drop.
Qed.

Lemma chunks_mjoin k ls : Forall (fun l => length l = k) ls -> chunks k (length ls) (mjoin ls) = ls.
Proof.
  intros Hk. apply list_eq. intros i. destruct (decide (i < length ls)%nat) as [Hi|Hi].
  - rewrite chunks_lookup by done. destruct (lookup_lt_is_Some_2 ls i Hi) as [l Hl].
    by rewrite Hl, (slice_mjoin k i ls l).
  - rewrite !lookup_ge_None_2; [done|lia|rewrite length_chunks; lia].
Qed.
End chunks.

(** ** Loops *)

(** [for (k = i; k < i + n; k++) s = f(k, s)]: no early exit. *)
Fixpoint for_range {S} (n : nat) (i : Z) (f : Z -> S -> res S) (s : S) : res S :=
  match n with
  | O => Ok s
  | Datatypes.S n' => s' ← f i s; for_range n' (i + 1) f s'
  end.

(** The same loop with a body that may return from the function: [inr r] is
    [return r], [inl s] goes on. *)
Fixpoint for_return {S R} (n : nat) (i : Z) (f : Z -> S -> res (S + R)) (s : S) : res (S + R) :=
  match n with
  | O => Ok (inl s)
  | Datatypes.S n' =>
      r ← f i s;
      match r with inl s' => for_return n' (i + 1) f s' | inr v => Ok (inr v) end
  end.

(** An unbounded loop, run for at most [fuel] iterations. *)
Fixpoint loop {S R} (fuel : nat) (f : S -> res (S + R)) (s : S) : res R :=
  match fuel with
  | O => Fault OutOfFuel
  | Datatypes.S n =>
      r ← f s;
      match r with inl s' => loop n f s' | inr v => Ok v end
  end.

Lemma for_range_rule {S} (P : Z -> S -> Prop) n i f (s : S) :
  P i s ->
  (forall j t, i <= j < i + Z.of_nat n -> P j t -> exists t', f j t = Ok t' /\ P (j + 1) t') ->
  exists s', for_range n i f s = Ok s' /\ P (i + Z.of_nat n) s'.
Proof.
  revert i s. induction n as [|n IH]; intros i s HP Hstep.
  - exists s. split; [done|]. by rewrite Z.add_0_r.
  - destruct (Hstep i s ltac:(lia) HP) as (t & Ht & HPt).
    destruct (IH (i + 1) t HPt) as (s' & Hs' & HPs').
    { intros j u Hj. apply Hstep. lia. }
    exists s'. simpl. rewrite Ht. split; [done|].
    by replace (i + Z.of_nat (Datatypes.S n)) with (i + 1 + Z.of_nat n) by lia.
Qed.

(** A loop whose body faults at some index, the earlier ones keeping [P]. *)
Lemma for_range_fault {S} (P : Z -> S -> Prop) n i f (s : S) j e :
  P i s -> i <= j < i + Z.of_nat n ->
  (forall k t, i <= k < j -> P k t -> exists t', f k t = Ok t' /\ P (k + 1) t') ->
  (forall t, P j t -> f j t = Fault e) ->
  for_range n i f s = Fault e.
Proof.
  revert i s. induction n as [|n IH]; intros i s HP Hj Hstep He; [lia|]. simpl.
  destruct (decide (i = j)) as [->|Hne]; [by rewrite He|].
  destruct (Hstep i s ltac:(lia) HP) as (t & -> & Ht). simpl. apply IH; [done|lia| |done].
  intros k u Hk. apply Hstep. lia.
Qed.

Lemma for_range_inv {S} (P : Z -> S -> Prop) n i f (s s' : S) :
  for_range n i f s = Ok s' -> P i s ->
  (forall j t t', i <= j < i + Z.of_nat n -> P j t -> f j t = Ok t' -> P (j + 1) t') ->
  P (i + Z.of_nat n) s'.
Proof.
  revert i s. induction n as [|n IH]; intros i s Hrun HP Hstep.
  - simpl in Hrun. injection Hrun as ->. by rewrite Z.add_0_r.
  - simpl in Hrun. apply bind_Ok_inv in Hrun as (t & Ht & Hrun).
    replace (i + Z.of_nat (Datatypes.S n)) with (i + 1 + Z.of_nat n) by lia.
    apply (IH (i + 1) t Hrun).
    + apply (Hstep i s t); [lia|done|done].
    + intros j u u' Hj. apply Hstep. lia.
Qed.

Lemma for_range_ext {S} n i (f g : Z -> S -> res S) s :
  (forall j t, i <= j < i + Z.of_nat n -> f j t = g j t) ->
  for_range n i f s = for_range n i g s.
Proof.
  revert i s. induction n as [|n IH]; intros i s H; [done|]. simpl.
  rewrite H by lia. destruct (g i s); [|done]. simpl. apply IH.
  intros. apply H. lia.
Qed.

(** A [for_return] loop either runs to its end, keeping [P], or returns at the
    first index where the body does, with [Q]. *)
Lemma for_return_rule {S R} (P : Z -> S -> Prop) (Q : R -> Prop) n i
    (f : Z -> S -> res (S + R)) (s : S) :
  P i s ->
  (forall j t, i <= j < i + Z.of_nat n -> P j t ->
     (exists t', f j t = Ok (inl t') /\ P (j + 1) t') \/
     (exists v, f j t = Ok (inr v) /\ Q v)) ->
  (exists s', for_return n i f s = Ok (inl s') /\ P (i + Z.of_nat n) s') \/
  (exists v, for_return n i f s = Ok (inr v) /\ Q v).
Proof.
  revert i s. induction n as [|n IH]; intros i s HP Hstep.
  - left. exists s. split; [done|]. by rewrite Z.add_0_r.
  - simpl. destruct (Hstep i s ltac:(lia) HP) as [(t & Ht & HPt)|(v & Hv & HQ)].
    + rewrite Ht. simpl.
      destruct (IH (i + 1) t HPt) as [(s' & Hs' & HPs')|(v & Hv & HQ)].
      { intros j u Hj. apply Hstep. lia. }
      * left. exists s'. split; [done|].
        by replace (i + Z.of_nat (Datatypes.S n)) with (i + 1 + Z.of_nat n) by lia.
      * right. eauto.
    + right. exists v. by rewrite Hv.
Qed.

(** Total correctness of [loop]: an invariant and a measure that decreases. *)
Lemma loop_rule {S R} (P : S -> Prop) (Q : R -> Prop) (m : S -> nat)
    (f : S -> res (S + R)) fuel (s : S) :
  P s -> (m s < fuel)%nat ->
  (forall t, P t ->
     (exists t', f t = Ok (inl t') /\ P t' /\ (m t' < m t)%nat) \/
     (exists v, f t = Ok (inr v) /\ Q v)) ->
  exists v, loop fuel f s = Ok v /\ Q v.
Proof.
  revert s. induction fuel as [|n IH]; intros s HP Hm Hstep; [lia|].
  simpl. destruct (Hstep s HP) as [(t & Ht & HPt & Hlt)|(v & Hv & HQ)].
  - rewrite Ht. simpl. apply IH; [done|lia|done].
  - exists v. by rewrite Hv.
Qed.

(** What a loop that ends has kept. *)
Lemma loop_inv {S R} (P : S -> Prop) (Q : R -> Prop) (f : S -> res (S + R)) fuel (s : S) v :
  P s -> (forall t r, P t -> f t = Ok r -> match r with inl t' => P t' | inr v => Q v end) ->
  loop fuel f s = Ok v -> Q v.
Proof.
  intros HP Hf. revert s HP. induction fuel as [|n IH]; intros s HP; simpl; [done|].
  destruct (f s) as [r|] eqn:E; simpl; [|done]. pose proof (Hf s r HP E) as Hr.
  destruct r as [t'|v']; [by apply IH|]. by intros [= <-].
Qed.

(** What a computation that ends leaves. *)
Definition post {A} (r : res A) (Q : A -> Prop) : Prop :=
  match r with Ok x => Q x | Fault _ => True end.

Section post.
Context {A B : Type}.

Lemma post_intro (r : res A) (Q : A -> Prop) : (forall x, r = Ok x -> Q x) -> post r Q.
Proof. destruct r; simpl; auto. Qed.

Lemma post_elim (r : res A) (Q : A -> Prop) x : post r Q -> r = Ok x -> Q x.
Proof. by intros H ->. Qed.

Lemma post_mono (r : res A) (P Q : A -> Prop) : post r P -> (forall x, P x -> Q x) -> post r Q.
Proof. destruct r; simpl; auto. Qed.

Lemma post_bind (r : res B) (f : B -> res A) (Q : A -> Prop) :
  post r (fun x => post (f x) Q) -> post (rbind r f) Q.
Proof. by destruct r. Qed.

(** After a step that keeps [P]. *)
Lemma post_bind_mono (P : B -> Prop) (r : res B) (f : B -> res A) (Q : A -> Prop) :
  post r P -> (forall x, P x -> post (f x) Q) -> post (rbind r f) Q.
Proof. intros Hr Hf. destruct r; simpl in *; auto. Qed.

Lemma post_any (r : res B) (f : B -> res A) (Q : A -> Prop) :
  (forall x, r = Ok x -> post (f x) Q) -> post (rbind r f) Q.
Proof. intros Hf. destruct r; simpl; auto. Qed.
End post.

Lemma post_for_range {S} (P : S -> Prop) n i f (s : S) :
  P s -> (forall j t, P t -> post (f j t) P) -> post (for_range n i f s) P.
Proof.
  revert i s. induction n as [|n IH]; intros i s HP Hf; [done|]. simpl.
  eapply post_bind_mono; [by apply Hf|]. intros t Ht. by apply IH.
Qed.

Lemma post_for_return_range {S R} (P : S -> Prop) (Q : R -> Prop) n i (f : Z -> S -> res (S + R)) (s : S) :
  P s -> (forall j t, i <= j < i + Z.of_nat n -> P t -> post (f j t) (fun r => match r with inl t => P t | inr v => Q v end)) ->
  post (for_return n i f s) (fun r => match r with inl t => P t | inr v => Q v end).
Proof.
  revert i s. induction n as [|n IH]; intros i s HP Hf; [done|]. simpl.
  eapply post_bind_mono; [apply Hf; [lia|done]|]. intros [t|v] Ht; [|done].
  apply IH; [done|]. intros j u Hj. apply Hf. lia.
Qed.
Lemma post_for_return {S R} (P : S -> Prop) (Q : R -> Prop) n i (f : Z -> S -> res (S + R)) (s : S) :
  P s -> (forall j t, P t -> post (f j t) (fun r => match r with inl t => P t | inr v => Q v end)) ->
  post (for_return n i f s) (fun r => match r with inl t => P t | inr v => Q v end).
Proof. intros HP Hf. by apply post_for_return_range; auto. Qed.

(** A run of a definition, one step at a time: each step by the lemma about it
    that [find] finds, tests and matches by cases. *)
Ltac run_with find :=
  match goal with
  | |- post (rbind (Ok _) _) _ => rewrite bind_Ok
  | |- post (rbind (Fault _) _) _ => exact I
  | |- post (rbind (rbind _ _) _) _ => apply post_bind
  | |- post (rbind (match _ with _ => _ end) _) _ => apply post_bind
  | |- post (rbind _ _) _ =>
      first [ eapply post_bind_mono; [solve [find]|];
              let x := fresh in intros x ?; repeat match goal with y : (_ * _)%type |- _ => destruct y end
            | apply post_any; let x := fresh in intros x ?;
              repeat match goal with y : (_ * _)%type |- _ => destruct y end ]
  | |- post (Fault _) _ => exact I
  | |- post (Ok _) _ => simpl
  | |- match (if ?b then _ else _) with _ => _ end => destruct b
  | |- post (if ?b then _ else _) _ => destruct b
  | |- post (match ?x with _ => _ end) _ => destruct x
  | |- post _ _ =>
      first [ eapply post_mono; [solve [find]|] | apply post_intro ];
      let x := fresh in intros x ?; repeat match goal with y : (_ * _)%type |- _ => destruct y end
  end; cbn beta iota zeta in *.

(** Two loop shapes the code uses all over, as list functions: a pass over an
    array is a fold, a search that returns at the first match is [list_find]. *)
Lemma for_range_fold_gen {A S} (l : list A) (k : nat) (f : Z -> S -> res S) (g : S -> A -> S) s :
  (forall (j : nat) x t, l !! j = Some x -> f (Z.of_nat j) t = Ok (g t x)) ->
  for_range (length l - k) (Z.of_nat k) f s = Ok (foldl g s (drop k l)).
Proof.
  intros Hf. remember (length l - k)%nat as n eqn:Hn. revert k s Hn.
  induction n as [|n IH]; intros k s Hn.
  - by rewrite drop_ge by lia.
  - destruct (lookup_lt_is_Some_2 l k ltac:(lia)) as [x Hx].
    rewrite (drop_S _ x) by done. simpl. rewrite (Hf _ _ _ Hx). simpl.
    rewrite <- (IH (Datatypes.S k)) by lia. by rewrite Nat2Z.inj_succ.
Qed.

Lemma for_range_fold {A S} (l : list A) n (f : Z -> S -> res S) (g : S -> A -> S) s :
  n = length l ->
  (forall (j : nat) x t, l !! j = Some x -> f (Z.of_nat j) t = Ok (g t x)) ->
  for_range n 0 f s = Ok (foldl g s l).
Proof.
  intros -> Hf. pose proof (for_range_fold_gen l 0 f g s Hf) as H.
  by rewrite Nat.sub_0_r in H.
Qed.

Definition find_index {A} (p : A -> bool) (l : list A) : option nat :=
  fst <$> list_find (fun x => p x = true) l.

Lemma find_index_cons {A} (p : A -> bool) x l :
  find_index p (x :: l) = if p x then Some 0%nat else Datatypes.S <$> find_index p l.
Proof.
  unfold find_index. simpl. destruct (p x).
  - by rewrite decide_True.
  - rewrite decide_False by done. by destruct (list_find _ l) as [[? ?]|].
Qed.

Lemma find_index_Some {A} (p : A -> bool) l i :
  find_index p l = Some i <->
  exists x, l !! i = Some x /\ p x = true /\
            forall j y, l !! j = Some y -> (j < i)%nat -> p y = false.
Proof.
  unfold find_index. rewrite fmap_Some. split.
  - intros ([j x] & Hf & ->). apply list_find_Some in Hf as (? & ? & Hlt).
    exists x. repeat split; try done. intros k y Hk Hlt'.
    apply not_true_is_false. by apply (Hlt k y).
  - intros (x & Hx & Hp & Hlt). exists (i, x). split; [|done].
    apply list_find_Some. repeat split; try done. intros k y Hk Hki Hy.
    rewrite (Hlt k y Hk Hki) in Hy. done.
Qed.

Lemma find_index_None {A} (p : A -> bool) l :
  find_index p l = None <-> forall i x, l !! i = Some x -> p x = false.
Proof.
  unfold find_index. rewrite fmap_None, list_find_None, Forall_lookup.
  split; intros H i x Hx; specialize (H i x Hx); by destruct (p x).
Qed.

Lemma find_index_lt {A} (p : A -> bool) l i : find_index p l = Some i -> (i < length l)%nat.
Proof. intros (x & Hx & _)%find_index_Some. by apply lookup_lt_Some in Hx. Qed.

Lemma for_return_find_gen {A S R} (p : A -> bool) (l : list A) (k : nat)
    (f : Z -> S -> res (S + R)) (g : Z -> res (S + R)) s :
  (forall (j : nat) x, l !! j = Some x ->
     f (Z.of_nat j) s = if p x then g (Z.of_nat j) else Ok (inl s)) ->
  (forall z t, g z <> Ok (inl t)) ->
  for_return (length l - k) (Z.of_nat k) f s =
    match find_index p (drop k l) with
    | Some i => g (Z.of_nat (k + i))
    | None => Ok (inl s)
    end.
Proof.
  intros Hf Hg. remember (length l - k)%nat as n eqn:Hn. revert k Hn.
  induction n as [|n IH]; intros k Hn.
  - by rewrite drop_ge by lia.
  - destruct (lookup_lt_is_Some_2 l k ltac:(lia)) as [x Hx].
    rewrite (drop_S _ x), find_index_cons by done. simpl. rewrite (Hf _ _ Hx).
    destruct (p x).
    + rewrite Nat.add_0_r. specialize (Hg (Z.of_nat k)).
      destruct (g (Z.of_nat k)) as [[t|r]|e]; try done. by destruct (Hg t).
    + simpl. replace (Z.of_nat k + 1) with (Z.of_nat (Datatypes.S k)) by lia.
      rewrite (IH (Datatypes.S k)) by lia.
      destruct (find_index p (drop (Datatypes.S k) l)); simpl; [f_equal; lia | done].
Qed.

Lemma for_return_find {A S R} (p : A -> bool) (l : list A) n
    (f : Z -> S -> res (S + R)) (g : Z -> res (S + R)) s :
  n = length l ->
  (forall (j : nat) x, l !! j = Some x ->
     f (Z.of_nat j) s = if p x then g (Z.of_nat j) else Ok (inl s)) ->
  (forall z t, g z <> Ok (inl t)) ->
  for_return n 0 f s =
    match find_index p l with
    | Some i => g (Z.of_nat i)
    | None => Ok (inl s)
    end.
Proof.
  intros -> Hf Hg. pose proof (for_return_find_gen p l 0 f g s Hf Hg) as H.
  by rewrite Nat.sub_0_r in H.
Qed.

(** ** Automation *)

Create HintDb nachos.
#[export] Hint Resolve u32_range s32_range zlen_nonneg : nachos.
Create Rewrite HintDb nachos_rw.
#[export] Hint Rewrite @bind_Ok u32_s32 s32_u32 s32_idemp u32_idemp @zlen_insert @zlen_app : nachos_rw.

(** Turns boolean comparisons of the code into the propositions they decide. *)
Ltac bool_to_prop :=
  repeat match goal with
  | H : (_ && _) = true |- _ => apply andb_prop in H as [? ?]
  | H : (_ || _) = false |- _ => apply orb_false_iff in H as [? ?]
  | H : negb _ = true |- _ => apply negb_true_iff in H
  | H : negb _ = false |- _ => apply negb_false_iff in H
  | H : (_ <? _) = true |- _ => apply Z.ltb_lt in H
  | H : (_ <? _) = false |- _ => apply Z.ltb_ge in H
  | H : (_ <=? _) = true |- _ => apply Z.leb_le in H
  | H : (_ <=? _) = false |- _ => apply Z.leb_gt in H
  | H : (_ =? _) = true |- _ => apply Z.eqb_eq in H
  | H : (_ =? _) = false |- _ => apply Z.eqb_neq in H
  | H : bool_decide _ = true |- _ => apply bool_decide_eq_true_1 in H
  | H : bool_decide _ = false |- _ => apply bool_decide_eq_false_1 in H
  end.

(** Inverts a run of a monadic definition, one bind at a time. *)
Ltac inv_res :=
  repeat match goal with
  | H : Ok _ = Ok _ |- _ => injection H; clear H; intros; subst
  | H : Fault _ = Ok _ |- _ => discriminate H
  | H : Ok _ = Fault _ |- _ => discriminate H
  | H : rbind (ASSERT _) _ = Ok _ |- _ => apply ASSERT_inv in H as [? H]; cbv beta in H
  | H : rbind _ _ = Ok _ |- _ =>
      let a := fresh "a" in let Ha := fresh "Ha" in
      apply bind_Ok_inv in H as (a & Ha & H); cbv beta in H
  end.

(** [lia] with the quotients and remainders by constants. *)
Ltac zlia := Z.to_euclidean_division_equations; lia.
