(* ===== verification/Bitmap.v ===== *)
(** Bitmaps ([lib/bitmap.h], [lib/bitmap.cc]): an array of 32-bit words, each
    bit set, cleared and tested with C shifts and masks.  The module [Bitmap]
    holds the code; [BitAllocator] is the interface its clients (file headers,
    address spaces, process and semaphore tables) are verified against, where a
    bitmap is the list of its bits; the instance at the end of the file shows
    that the code implements it. *)

From S2P Require Import Prelude.

(** ** The interface: a bitmap is a list of booleans *)

Class BitAllocator (B : Type) := {
  ba_Mark : B -> Z -> res B;
  ba_Clear : B -> Z -> res B;
  ba_Test : B -> Z -> res bool;
  ba_FindAndSet : B -> res (Z * B);
  ba_NumClear : B -> res Z;
}.

(** The first clear bit, and the number of clear bits, of a list of bits. *)
Definition first_clear (l : list bool) : option nat := find_index negb l.

Definition count_clear (l : list bool) : Z :=
  Z.of_nat (length (filter (fun x => x = false) l)).

Class BitAllocatorLaws (B : Type) `{BitAllocator B} := {
  ba_rep : B -> list bool -> Prop;
  ba_Mark_in b l i : ba_rep b l -> 0 <= i < zlen l ->
    exists b', ba_Mark b i = Ok b' /\ ba_rep b' (<[Z.to_nat i := true]> l);
  ba_Mark_out b l i : ba_rep b l -> ~ (0 <= i < zlen l) ->
    ba_Mark b i = Fault AssertFailed;
  ba_Clear_in b l i : ba_rep b l -> 0 <= i < zlen l ->
    exists b', ba_Clear b i = Ok b' /\ ba_rep b' (<[Z.to_nat i := false]> l);
  ba_Clear_out b l i : ba_rep b l -> ~ (0 <= i < zlen l) ->
    ba_Clear b i = Fault AssertFailed;
  ba_Test_in b l i x : ba_rep b l -> 0 <= i -> l !! Z.to_nat i = Some x ->
    ba_Test b i = Ok x;
  ba_Test_out b l i : ba_rep b l -> ~ (0 <= i < zlen l) ->
    ba_Test b i = Fault AssertFailed;
  ba_FindAndSet_law b l : ba_rep b l ->
    match first_clear l with
    | Some i => exists b', ba_FindAndSet b = Ok (Z.of_nat i, b') /\
                           ba_rep b' (<[i := true]> l)
    | None => ba_FindAndSet b = Ok (-1, b)
    end;
  ba_NumClear_law b l : ba_rep b l -> ba_NumClear b = Ok (count_clear l);
}.

(** ** The code *)

Module Bitmap.

Definition BitsInByte : Z := 8.
Definition BitsInWord : Z := 4 * BitsInByte.

Record Bitmap := mkBitmap {
  numBits : Z;
  numWords : Z;
  map : list Z;
}.

Definition set_map (b : Bitmap) (m : list Z) : Bitmap :=
  {| numBits := numBits b; numWords := numWords b; map := m |}.

(** [1 << k], an [int]. *)
Definition one_shl (k : Z) : Z := s32 (Z.shiftl 1 k).

Definition in_range (b : Bitmap) (which : Z) : bool :=
  (which >=? 0) && (which <? numBits b).

Definition Test (b : Bitmap) (which : Z) : res bool :=
  ASSERT (in_range b which) ;;
  w ← arr_get (map b) (Z.quot which BitsInWord);
  Ok (negb (Z.land w (u32 (one_shl (Z.rem which BitsInWord))) =? 0)).

Definition Mark (b : Bitmap) (which : Z) : res Bitmap :=
  ASSERT (in_range b which) ;;
  w ← arr_get (map b) (Z.quot which BitsInWord);
  m ← arr_set (map b) (Z.quot which BitsInWord)
        (u32 (Z.lor w (u32 (one_shl (Z.rem which BitsInWord)))));
  let b' := set_map b m in
  t ← Test b' which;
  ASSERT t ;;
  Ok b'.

Definition Clear (b : Bitmap) (which : Z) : res Bitmap :=
  ASSERT (in_range b which) ;;
  w ← arr_get (map b) (Z.quot which BitsInWord);
  m ← arr_set (map b) (Z.quot which BitsInWord)
        (u32 (Z.land w (u32 (Z.lnot (one_shl (Z.rem which BitsInWord))))));
  let b' := set_map b m in
  t ← Test b' which;
  ASSERT (negb t) ;;
  Ok b'.

(** The constructor.  [new unsigned int[numWords]] is an array of indeterminate
    contents: [junk i] is what word [i] holds before the first loop. *)
Definition new_Bitmap (junk : nat -> Z) (numItems : Z) : res Bitmap :=
  ASSERT (numItems >? 0) ;;
  let nw := divRoundUp numItems BitsInWord in
  m ← for_range (Z.to_nat nw) 0 (fun i m => arr_set m i 0)
        (junk <$> seq 0 (Z.to_nat nw));
  for_range (Z.to_nat numItems) 0 (fun i b => Clear b i)
    {| numBits := numItems; numWords := nw; map := m |}.

Definition FindAndSet (b : Bitmap) : res (Z * Bitmap) :=
  r ← for_return (Z.to_nat (numBits b)) 0
        (fun i (b : Bitmap) =>
           t ← Test b i;
           if negb t then b' ← Mark b i; Ok (inr (i, b')) else Ok (inl b)) b;
  match r with
  | inr (i, b') => Ok (i, b')
  | inl b' => Ok (-1, b')
  end.

Definition NumClear (b : Bitmap) : res Z :=
  for_range (Z.to_nat (numBits b)) 0
    (fun i (count : Z) => t ← Test b i; Ok (if negb t then count + 1 else count)) 0.

(** The numbers [Print] writes, in order. *)
Definition Print (b : Bitmap) : res (list Z) :=
  for_range (Z.to_nat (numBits b)) 0
    (fun i (out : list Z) => t ← Test b i; Ok (if t then out ++ [i] else out)) [].

Definition SelfTest (b : Bitmap) : res Bitmap :=
  ASSERT (numBits b >=? BitsInWord) ;;
  n ← NumClear b;
  ASSERT (n =? numBits b) ;;
  '(i, b) ← FindAndSet b;
  ASSERT (i =? 0) ;;
  b ← Mark b 31;
  t0 ← Test b 0;
  t31 ← Test b 31;
  ASSERT (t0 && t31) ;;
  '(i, b) ← FindAndSet b;
  ASSERT (i =? 1) ;;
  b ← Clear b 0;
  b ← Clear b 1;
  b ← Clear b 31;
  b ← for_range (Z.to_nat (numBits b)) 0 (fun i b => Mark b i) b;
  '(i, b) ← FindAndSet b;
  ASSERT (i =? -1) ;;
  for_range (Z.to_nat (numBits b)) 0 (fun i b => Clear b i) b.

#[global] Instance Bitmap_BitAllocator : BitAllocator Bitmap := {
  ba_Mark := Mark; ba_Clear := Clear; ba_Test := Test;
  ba_FindAndSet := FindAndSet; ba_NumClear := NumClear;
}.

(** ** Well-formed bitmaps and their bits *)

Definition wf (b : Bitmap) : Prop :=
  0 < numBits b /\ numWords b = divRoundUp (numBits b) BitsInWord /\
  zlen (map b) = numWords b /\ Forall is_u32 (map b).

(** Bit [i] as the code addresses it. *)
Definition bit (b : Bitmap) (i : nat) : bool :=
  match map b !! (i / 32)%nat with
  | Some w => Z.testbit w (Z.of_nat (i mod 32))
  | None => false
  end.

Definition bits (b : Bitmap) : list bool := bit b <$> seq 0 (Z.to_nat (numBits b)).

Definition rep (b : Bitmap) (l : list bool) : Prop := wf b /\ bits b = l.

(** *** Words *)

Lemma u32_one_shl k : 0 <= k < 32 -> u32 (one_shl k) = 2 ^ k.
Proof.
  intros. unfold one_shl. rewrite u32_s32, Z.shiftl_1_l. apply u32_id.
  split; [lia|]. apply Z.pow_lt_mono_r; lia.
Qed.

Lemma test_word w k :
  0 <= k < 32 -> negb (Z.land w (u32 (one_shl k)) =? 0) = Z.testbit w k.
Proof.
  intros. rewrite u32_one_shl by done.
  assert (Hl : Z.land w (2 ^ k) = if Z.testbit w k then 2 ^ k else 0).
  { apply Z.bits_inj'. intros j Hj. rewrite Z.land_spec, Z.pow2_bits_eqb by lia.
    destruct (Z.eqb_spec k j) as [->|Hne].
    - rewrite andb_true_r. destruct (Z.testbit w j); [|by rewrite Z.bits_0].
      by rewrite Z.pow2_bits_true by lia.
    - rewrite andb_false_r. destruct (Z.testbit w k); [|by rewrite Z.bits_0].
      by rewrite Z.pow2_bits_false by lia. }
  rewrite Hl. destruct (Z.testbit w k); [|done].
  by destruct (Z.eqb_spec (2 ^ k) 0); [lia|].
Qed.

Lemma mark_word w k j :
  0 <= k < 32 -> 0 <= j < 32 ->
  Z.testbit (u32 (Z.lor w (u32 (one_shl k)))) j = if j =? k then true else Z.testbit w j.
Proof.
  intros. rewrite u32_testbit, Z.lor_spec, u32_one_shl, Z.pow2_bits_eqb, (Z.eqb_sym k j) by lia.
  destruct (j =? k); [apply orb_true_r | apply orb_false_r].
Qed.

Lemma clear_word w k j :
  0 <= k < 32 -> 0 <= j < 32 ->
  Z.testbit (u32 (Z.land w (u32 (Z.lnot (one_shl k))))) j = if j =? k then false else Z.testbit w j.
Proof.
  intros. rewrite u32_testbit, Z.land_spec, u32_testbit, Z.lnot_spec by lia.
  unfold one_shl. rewrite s32_testbit, Z.shiftl_1_l, Z.pow2_bits_eqb, (Z.eqb_sym k j) by lia.
  destruct (j =? k); [apply andb_false_r | apply andb_true_r].
Qed.

(** *** Single-bit operations *)

Lemma quot_word i : Z.quot (Z.of_nat i) BitsInWord = Z.of_nat (i / 32).
Proof.
  change BitsInWord with (Z.of_nat 32). rewrite Z.quot_div_nonneg by lia.
  by rewrite Nat2Z.inj_div.
Qed.

Lemma rem_word i : Z.rem (Z.of_nat i) BitsInWord = Z.of_nat (i mod 32).
Proof.
  change BitsInWord with (Z.of_nat 32). rewrite Z.rem_mod_nonneg by lia.
  by rewrite Nat2Z.inj_mod.
Qed.

Lemma mod_word i : 0 <= Z.of_nat (i mod 32) < 32.
Proof. pose proof (Nat.mod_upper_bound i 32). lia. Qed.

Lemma in_range_nat b i : Z.of_nat i < numBits b -> in_range b (Z.of_nat i) = true.
Proof. unfold in_range. intros. apply andb_true_intro. split; lia. Qed.

Lemma word_index b i :
  wf b -> Z.of_nat i < numBits b -> 0 <= Z.of_nat (i / 32) < zlen (map b).
Proof.
  intros (Hpos & Hw & Hlen & _) Hi. rewrite Hlen, Hw.
  pose proof (divRoundUp_spec (numBits b) BitsInWord). unfold BitsInWord, BitsInByte in *.
  pose proof (Nat.div_mod_eq i 32). pose proof (Nat.mod_upper_bound i 32). lia.
Qed.

Lemma word_get b i :
  wf b -> Z.of_nat i < numBits b ->
  exists w, map b !! (i / 32)%nat = Some w /\ arr_get (map b) (Z.of_nat (i / 32)) = Ok w.
Proof.
  intros Hwf Hi. destruct (arr_get_lt (map b) (Z.of_nat (i / 32))) as (w & Hw & Hg).
  - by apply word_index.
  - rewrite Nat2Z.id in Hw. eauto.
Qed.

Lemma Test_ok b i :
  wf b -> Z.of_nat i < numBits b -> Test b (Z.of_nat i) = Ok (bit b i).
Proof.
  intros Hwf Hi. destruct (word_get b i Hwf Hi) as (w & Hw & Hg).
  unfold Test. rewrite in_range_nat by done. simpl. rewrite quot_word, rem_word, Hg. simpl.
  rewrite test_word by apply mod_word. unfold bit. by rewrite Hw.
Qed.

(** Replacing the word of bit [i]: what the shared part of [Mark] and [Clear]
    does to the bits. *)
Definition with_word (b : Bitmap) (i : nat) (v : Z) : Bitmap :=
  set_map b (<[(i / 32)%nat := v]> (map b)).

Lemma same_bit i j :
  (j / 32 = i / 32)%nat -> (Z.of_nat (j mod 32) =? Z.of_nat (i mod 32)) = bool_decide (j = i).
Proof.
  intros Hq. pose proof (Nat.div_mod_eq i 32). pose proof (Nat.div_mod_eq j 32).
  case_bool_decide as Hd.
  - subst. apply Z.eqb_refl.
  - apply Z.eqb_neq. intros E. apply Hd. lia.
Qed.

Lemma with_word_spec b i w v x :
  wf b -> Z.of_nat i < numBits b -> map b !! (i / 32)%nat = Some w -> is_u32 v ->
  (forall j, 0 <= j < 32 ->
     Z.testbit v j = if j =? Z.of_nat (i mod 32) then x else Z.testbit w j) ->
  wf (with_word b i v) /\
  forall j, bit (with_word b i v) j = if bool_decide (j = i) then x else bit b j.
Proof.
  intros Hwf Hi Hw Hv Hbits. split.
  - destruct Hwf as (? & ? & ? & ?). unfold with_word, wf. simpl. rewrite zlen_insert.
    repeat split; try done. by apply Forall_insert.
  - intros j. unfold bit, with_word. simpl. destruct (decide (j / 32 = i / 32)%nat) as [Hd|Hd].
    + rewrite Hd, list_lookup_insert_eq, Hbits, (same_bit _ _ Hd), Hw; [done|apply mod_word|].
      pose proof (word_index b i Hwf Hi). unfold zlen in *. lia.
    + rewrite list_lookup_insert_ne, bool_decide_eq_false_2; [done| |done]. by intros ->.
Qed.

(** [Mark] and [Clear] set one bit and leave the others. *)
Lemma Mark_ok b i :
  wf b -> Z.of_nat i < numBits b ->
  exists b', Mark b (Z.of_nat i) = Ok b' /\ wf b' /\ numBits b' = numBits b /\
    forall j, bit b' j = if bool_decide (j = i) then true else bit b j.
Proof.
  intros Hwf Hi. destruct (word_get b i Hwf Hi) as (w & Hw & Hg).
  destruct (with_word_spec b i w (u32 (Z.lor w (u32 (one_shl (Z.of_nat (i mod 32))))))
    true Hwf Hi Hw (u32_range _)) as [Hwf' Hbits].
  { intros j Hj. by apply mark_word; [apply mod_word|]. }
  eexists. split; [|done].
  unfold Mark. rewrite in_range_nat by done. simpl. rewrite quot_word, rem_word, Hg. simpl.
  rewrite arr_set_lt by by apply word_index. rewrite Nat2Z.id. simpl.
  rewrite Test_ok by done. by rewrite Hbits, bool_decide_eq_true_2 by done.
Qed.

Lemma Clear_ok b i :
  wf b -> Z.of_nat i < numBits b ->
  exists b', Clear b (Z.of_nat i) = Ok b' /\ wf b' /\ numBits b' = numBits b /\
    forall j, bit b' j = if bool_decide (j = i) then false else bit b j.
Proof.
  intros Hwf Hi. destruct (word_get b i Hwf Hi) as (w & Hw & Hg).
  destruct (with_word_spec b i w (u32 (Z.land w (u32 (Z.lnot (one_shl (Z.of_nat (i mod 32)))))))
    false Hwf Hi Hw (u32_range _)) as [Hwf' Hbits].
  { intros j Hj. by apply clear_word; [apply mod_word|]. }
  eexists. split; [|done].
  unfold Clear. rewrite in_range_nat by done. simpl. rewrite quot_word, rem_word, Hg. simpl.
  rewrite arr_set_lt by by apply word_index. rewrite Nat2Z.id. simpl.
  rewrite Test_ok by done. by rewrite Hbits, bool_decide_eq_true_2 by done.
Qed.

(** *** Refinement of the list of bits *)

Lemma Bitmap_rep_length b l : rep b l -> zlen l = numBits b.
Proof.
  intros [(Hpos & _) <-]. unfold bits, zlen. rewrite length_fmap, length_seq. lia.
Qed.

Lemma rep_lookup b l i : rep b l -> (i < length l)%nat -> l !! i = Some (bit b i).
Proof.
  intros Hr Hi. pose proof (Bitmap_rep_length b l Hr) as Hl. destruct Hr as [Hwf <-].
  unfold bits, zlen in *. rewrite length_fmap, length_seq in *.
  rewrite list_lookup_fmap, lookup_seq_lt by lia. done.
Qed.

Lemma Bitmap_rep_intro b l :
  wf b -> zlen l = numBits b -> (forall i x, l !! i = Some x -> bit b i = x) -> rep b l.
Proof.
  intros Hwf Hl Hx. split; [done|]. unfold bits, zlen in *.
  apply list_eq. intros i. rewrite list_lookup_fmap.
  destruct (decide (i < length l)%nat) as [Hi|Hi].
  - rewrite lookup_seq_lt by lia. destruct (lookup_lt_is_Some_2 l i Hi) as [x Hxi].
    simpl. by rewrite Hxi, (Hx _ _ Hxi).
  - rewrite lookup_seq_ge by lia. by rewrite lookup_ge_None_2 by lia.
Qed.

Lemma rep_update b l i x b' :
  rep b l -> 0 <= i < zlen l -> wf b' -> numBits b' = numBits b ->
  (forall j, bit b' j = if bool_decide (j = Z.to_nat i) then x else bit b j) ->
  rep b' (<[Z.to_nat i := x]> l).
Proof.
  intros Hr Hi Hwf Hn Hb.
  apply Bitmap_rep_intro; [done|by rewrite zlen_insert, Hn; apply Bitmap_rep_length|].
  intros j y Hy. rewrite Hb. apply list_lookup_insert_Some in Hy as [(<- & <- & _)|[Hne Hy]].
  - by rewrite bool_decide_eq_true_2.
  - rewrite bool_decide_eq_false_2 by done.
    pose proof (rep_lookup b l j Hr (lookup_lt_Some _ _ _ Hy)). congruence.
Qed.

Lemma Mark_in b l i : rep b l -> 0 <= i < zlen l ->
  exists b', Mark b i = Ok b' /\ rep b' (<[Z.to_nat i := true]> l).
Proof.
  intros Hr Hi. pose proof (Bitmap_rep_length b l Hr) as Hl.
  destruct (Mark_ok b (Z.to_nat i)) as (b' & Hm & Hwf & Hn & Hb); [apply Hr|lia|].
  rewrite Z2Nat.id in Hm by lia. eauto using rep_update.
Qed.

Lemma Clear_in b l i : rep b l -> 0 <= i < zlen l ->
  exists b', Clear b i = Ok b' /\ rep b' (<[Z.to_nat i := false]> l).
Proof.
  intros Hr Hi. pose proof (Bitmap_rep_length b l Hr) as Hl.
  destruct (Clear_ok b (Z.to_nat i)) as (b' & Hm & Hwf & Hn & Hb); [apply Hr|lia|].
  rewrite Z2Nat.id in Hm by lia. eauto using rep_update.
Qed.

Lemma Test_in b l i x : rep b l -> 0 <= i -> l !! Z.to_nat i = Some x -> Test b i = Ok x.
Proof.
  intros Hr Hi Hx. pose proof (Bitmap_rep_length b l Hr). unfold zlen in *.
  apply lookup_lt_Some in Hx as Hlt. rewrite (rep_lookup b l _ Hr Hlt) in Hx.
  injection Hx as <-. rewrite <- (Z2Nat.id i Hi) at 1. apply Test_ok; [apply Hr|lia].
Qed.

Lemma in_range_false b l i : rep b l -> ~ (0 <= i < zlen l) -> in_range b i = false.
Proof.
  intros Hr Hi. rewrite (Bitmap_rep_length _ _ Hr) in Hi. unfold in_range.
  destruct (Z.geb_spec i 0), (Z.ltb_spec i (numBits b)); try done; lia.
Qed.

Lemma Mark_out b l i : rep b l -> ~ (0 <= i < zlen l) -> Mark b i = Fault AssertFailed.
Proof. intros Hr Hi. unfold Mark. by rewrite (in_range_false _ _ _ Hr Hi). Qed.

Lemma Clear_out b l i : rep b l -> ~ (0 <= i < zlen l) -> Clear b i = Fault AssertFailed.
Proof. intros Hr Hi. unfold Clear. by rewrite (in_range_false _ _ _ Hr Hi). Qed.

Lemma Test_out b l i : rep b l -> ~ (0 <= i < zlen l) -> Test b i = Fault AssertFailed.
Proof. intros Hr Hi. unfold Test. by rewrite (in_range_false _ _ _ Hr Hi). Qed.

(** *** Searching and counting *)

Lemma FindAndSet_law b l : rep b l ->
  match first_clear l with
  | Some i => exists b', FindAndSet b = Ok (Z.of_nat i, b') /\ rep b' (<[i := true]> l)
  | None => FindAndSet b = Ok (-1, b)
  end.
Proof.
  intros Hr. pose proof (Bitmap_rep_length b l Hr) as Hl. unfold FindAndSet.
  rewrite (for_return_find negb l _ _ (fun i => b' ← Mark b i; Ok (inr (i, b')))).
  - unfold first_clear. destruct (find_index negb l) as [i|] eqn:E; [|done].
    apply find_index_lt in E. destruct (Mark_in b l (Z.of_nat i) Hr) as (b' & Hm & Hr').
    { unfold zlen. lia. }
    rewrite Nat2Z.id in Hr'. exists b'. by rewrite Hm.
  - unfold zlen in Hl. lia.
  - intros j x Hx. rewrite (Test_in b l _ x Hr) by (try lia; by rewrite Nat2Z.id).
    by destruct x.
  - intros z t. by destruct (Mark b z).
Qed.

Lemma NumClear_law b l : rep b l -> NumClear b = Ok (count_clear l).
Proof.
  intros Hr. pose proof (Bitmap_rep_length b l Hr) as Hl. unfold NumClear.
  rewrite (for_range_fold l _ _ (fun c x => if negb x then c + 1 else c)).
  - f_equal. unfold count_clear.
    assert (H : forall c, foldl (fun c x => if negb x then c + 1 else c) c l
                     = c + Z.of_nat (length (filter (fun x => x = false) l))).
    { clear. induction l as [|x l IH]; intros c; [simpl; lia|].
      cbn [foldl]. rewrite IH, filter_cons. destruct x; simpl; lia. }
    by rewrite H.
  - unfold zlen in Hl. lia.
  - intros j x c Hx. rewrite (Test_in b l _ x Hr) by (try lia; by rewrite Nat2Z.id). done.
Qed.

#[global] Instance Bitmap_laws : BitAllocatorLaws Bitmap := {
  ba_rep := rep;
  ba_Mark_in := Mark_in; ba_Mark_out := Mark_out;
  ba_Clear_in := Clear_in; ba_Clear_out := Clear_out;
  ba_Test_in := Test_in; ba_Test_out := Test_out;
  ba_FindAndSet_law := FindAndSet_law; ba_NumClear_law := NumClear_law;
}.

(** *** Passes over the whole bitmap *)

(** A loop that sets every bit to [x] makes the bitmap constant. *)
Lemma fill_rep (op : Bitmap -> Z -> res Bitmap) (x : bool) b l :
  (forall b l i, rep b l -> 0 <= i < zlen l ->
     exists b', op b i = Ok b' /\ rep b' (<[Z.to_nat i := x]> l)) ->
  rep b l ->
  exists b', for_range (length l) 0 (fun i b => op b i) b = Ok b' /\
             rep b' (replicate (length l) x).
Proof.
  intros Hop Hr.
  destruct (for_range_rule
    (fun i b => exists k, rep b k /\ length k = length l /\
                forall j, (Z.of_nat j < i) -> (j < length l)%nat -> k !! j = Some x)
    (length l) 0 (fun i b => op b i) b) as (b' & Hrun & k & Hk & Hlen & Hall).
  - exists l. repeat split; try apply Hr. intros j ?. lia.
  - intros i t Hi (k & Hk & Hlen & Hall).
    destruct (Hop t k i Hk) as (t' & Ht & Hr'); [unfold zlen; lia|].
    exists t'. split; [done|]. exists (<[Z.to_nat i := x]> k).
    rewrite length_insert. repeat split; try done; try apply Hr'.
    intros j Hj Hjl. destruct (decide (j = Z.to_nat i)) as [->|Hne].
    + apply list_lookup_insert_eq. lia.
    + rewrite list_lookup_insert_ne by done. apply Hall; lia.
  - exists b'. split; [done|]. replace (replicate (length l) x) with k; [done|].
    apply list_eq_same_length with (length l); [by rewrite length_replicate|done|].
    intros i y z Hi Hy Hz. rewrite Hall in Hy by lia.
    apply lookup_replicate in Hz as [-> _]. congruence.
Qed.

Lemma new_Bitmap_words junk nw :
  for_range nw 0 (fun i m => arr_set m i 0) (junk <$> seq 0 nw) = Ok (replicate nw 0).
Proof.
  destruct (for_range_rule
    (fun i m => length m = nw /\ forall j, Z.of_nat j < i -> (j < nw)%nat -> m !! j = Some 0)
    nw 0 (fun i m => arr_set m i 0) (junk <$> seq 0 nw)) as (m & -> & Hlen & Hall).
  - split; [by rewrite length_fmap, length_seq|]. intros j ?. lia.
  - intros i m Hi [Hlen Hall]. exists (<[Z.to_nat i := 0]> m).
    rewrite arr_set_lt by (unfold zlen; lia). rewrite length_insert. repeat split; try done.
    intros j Hj Hjl. destruct (decide (j = Z.to_nat i)) as [->|Hne].
    + apply list_lookup_insert_eq. lia.
    + rewrite list_lookup_insert_ne by done. apply Hall; lia.
  - f_equal. apply list_eq_same_length with nw; [by rewrite length_replicate|done|].
    intros i y z Hi Hy Hz. rewrite Hall in Hy by lia.
    apply lookup_replicate in Hz as [-> _]. congruence.
Qed.

Lemma new_Bitmap_ok junk numItems :
  0 < numItems ->
  exists b, new_Bitmap junk numItems = Ok b /\ rep b (replicate (Z.to_nat numItems) false).
Proof.
  intros Hn. unfold new_Bitmap. rewrite (proj2 (Z.gtb_lt _ _)) by lia. cbn [ASSERT rbind].
  rewrite new_Bitmap_words. cbn [rbind].
  set (b0 := {| numBits := _ |}).
  pose proof (divRoundUp_spec numItems BitsInWord) as Hd. unfold BitsInWord, BitsInByte in Hd.
  assert (Hr : rep b0 (replicate (Z.to_nat numItems) false)).
  { apply Bitmap_rep_intro.
    - repeat split; simpl; try done.
      + unfold zlen. rewrite length_replicate. unfold BitsInWord, BitsInByte. lia.
      + apply Forall_replicate. split; lia.
    - unfold zlen. rewrite length_replicate. simpl. lia.
    - intros i x [-> _]%lookup_replicate. unfold bit. simpl.
      destruct (replicate _ 0 !! _) eqn:E; [|done].
      apply lookup_replicate in E as [-> _]. apply Z.bits_0. }
  destruct (fill_rep Clear false b0 _ Clear_in Hr) as (b & Hb & Hrep).
  rewrite length_replicate in Hb, Hrep. eauto.
Qed.

Lemma count_clear_replicate n : count_clear (replicate n false) = Z.of_nat n.
Proof.
  unfold count_clear. induction n as [|n IH]; [done|]. simpl replicate.
  rewrite filter_cons_True by done. simpl length. lia.
Qed.

Lemma count_clear_set l i :
  l !! i = Some false -> count_clear (<[i := true]> l) = count_clear l - 1.
Proof.
  unfold count_clear. revert i. induction l as [|x l IH]; intros [|i] Hi; try done; simpl in Hi.
  - injection Hi as ->. change (<[0%nat := true]> (false :: l)) with (true :: l).
    rewrite !filter_cons. simpl. lia.
  - change (<[S i := true]> (x :: l)) with (x :: <[i := true]> l).
    rewrite !filter_cons. specialize (IH _ Hi). destruct x; simpl in *; lia.
Qed.

Lemma count_clear_none l : (forall j x, l !! j = Some x -> x = true) -> count_clear l = 0.
Proof.
  unfold count_clear. induction l as [|x l IH]; intros Hall; [done|].
  rewrite filter_cons, decide_False by by rewrite (Hall 0%nat x).
  apply IH. intros j. apply (Hall (S j)).
Qed.

Lemma first_clear_replicate_true n : first_clear (replicate n true) = None.
Proof. apply find_index_None. by intros i x [-> _]%lookup_replicate. Qed.

Lemma FindAndSet_at b l i :
  rep b l -> l !! i = Some false -> (forall j, (j < i)%nat -> l !! j = Some true) ->
  exists b', FindAndSet b = Ok (Z.of_nat i, b') /\ rep b' (<[i := true]> l).
Proof.
  intros Hr Hi Hlt. pose proof (FindAndSet_law b l Hr) as Hf.
  assert (E : first_clear l = Some i); [|by rewrite E in Hf].
  apply find_index_Some. exists false. repeat split; try done.
  intros j y Hy Hj. rewrite (Hlt j Hj) in Hy. by injection Hy as <-.
Qed.

(** The run of [SelfTest] on an empty bitmap. *)
Lemma Bitmap_SelfTest_ok b n :
  (32 <= n)%nat -> rep b (replicate n false) ->
  exists b', SelfTest b = Ok b' /\ rep b' (replicate n false).
Proof.
  intros Hn Hr. set (l0 := replicate n false) in *.
  assert (Hlen : length l0 = n) by apply length_replicate.
  assert (H0 : forall j, (j < n)%nat -> l0 !! j = Some false)
    by (intros; by apply lookup_replicate_2).
  assert (Hnum : forall b l, rep b l -> length l = n -> numBits b = Z.of_nat n)
    by (intros c l Hc Hl; rewrite <- (Bitmap_rep_length c l Hc); unfold zlen; by rewrite Hl).
  unfold SelfTest. rewrite (Hnum _ _ Hr Hlen).
  rewrite ASSERT_true by (unfold BitsInWord, BitsInByte; lia).
  rewrite (NumClear_law _ _ Hr). cbn [rbind].
  rewrite ASSERT_true by (unfold l0; rewrite count_clear_replicate; apply Z.eqb_refl).
  destruct (FindAndSet_at b l0 0 Hr) as (b1 & -> & Hr1); [by apply H0; lia|lia|].
  cbn [rbind]. rewrite ASSERT_true by done.
  destruct (Mark_in b1 _ 31 Hr1) as (b2 & -> & Hr2); [unfold zlen; rewrite length_insert; lia|].
  cbn [rbind]. change (Z.to_nat 31) with 31%nat in Hr2.
  rewrite (Test_in b2 _ 0 true Hr2), (Test_in b2 _ 31 true Hr2) by
    (try lia; change (Z.to_nat 0) with 0%nat; change (Z.to_nat 31) with 31%nat;
     rewrite ?list_lookup_insert_ne, ?list_lookup_insert_eq by (rewrite ?length_insert; lia); done).
  cbn [rbind andb]. rewrite ASSERT_true by done.
  destruct (FindAndSet_at b2 _ 1 Hr2) as (b3 & -> & Hr3).
  { rewrite !list_lookup_insert_ne by lia. apply H0. lia. }
  { intros j Hj. replace j with 0%nat by lia.
    by rewrite list_lookup_insert_ne, list_lookup_insert_eq by (rewrite ?length_insert; lia). }
  cbn [rbind]. rewrite ASSERT_true by done.
  destruct (Clear_in b3 _ 0 Hr3) as (b4 & -> & Hr4); [unfold zlen; rewrite !length_insert; lia|].
  cbn [rbind]. change (Z.to_nat 0) with 0%nat in Hr4.
  destruct (Clear_in b4 _ 1 Hr4) as (b5 & -> & Hr5); [unfold zlen; rewrite !length_insert; lia|].
  cbn [rbind]. change (Z.to_nat 1) with 1%nat in Hr5.
  destruct (Clear_in b5 _ 31 Hr5) as (b6 & -> & Hr6); [unfold zlen; rewrite !length_insert; lia|].
  cbn [rbind]. change (Z.to_nat 31) with 31%nat in Hr6.
  match type of Hr6 with rep _ ?l => set (l6 := l) in * end.
  assert (Hl6 : length l6 = n) by (unfold l6; by rewrite !length_insert).
  rewrite (Hnum _ _ Hr6 Hl6), Nat2Z.id.
  destruct (fill_rep Mark true b6 l6 Mark_in Hr6) as (b7 & Hb7 & Hr7). rewrite Hl6 in Hb7, Hr7.
  rewrite Hb7. cbn [rbind].
  pose proof (FindAndSet_law b7 _ Hr7) as Hf. rewrite first_clear_replicate_true in Hf.
  rewrite Hf. cbn [rbind]. rewrite ASSERT_true by done.
  rewrite (Hnum _ _ Hr7 ltac:(apply length_replicate)), Nat2Z.id.
  destruct (fill_rep Clear false b7 _ Clear_in Hr7) as (b8 & Hb8 & Hr8).
  rewrite length_replicate in Hb8, Hr8. eauto.
Qed.

Lemma example_rep :
  rep {| numBits := 40; numWords := 2; map := [5; 128] |}
      (bits {| numBits := 40; numWords := 2; map := [5; 128] |}).
Proof.
  split; [|reflexivity]. repeat split; try done. repeat constructor; vm_compute; try done.
Qed.

(** *** Properties *)

(** [Mark], [Clear] and [Test] on the array of words are the update and
    the lookup of one element of the list of bits when the index is in range,
    and fail their assertion, changing nothing, when it is not. *)
Theorem ops_refine_bits b l (Hrep : rep b l) (i : Z) :
  if decide (0 <= i < zlen l)
  then (exists b', Mark b i = Ok b' /\ rep b' (<[Z.to_nat i := true]> l)) /\
       (exists b', Clear b i = Ok b' /\ rep b' (<[Z.to_nat i := false]> l)) /\
       (exists x, l !! Z.to_nat i = Some x /\ Test b i = Ok x)
  else Mark b i = Fault AssertFailed /\ Clear b i = Fault AssertFailed /\
       Test b i = Fault AssertFailed.
Proof.
  case_decide as Hi.
  - split; [by apply Mark_in|]. split; [by apply Clear_in|].
    destruct (arr_get_lt l i Hi) as (x & Hx & _). exists x. split; [done|].
    apply (Test_in b l); [done|lia|done].
  - repeat split; [by apply (Mark_out b l)|by apply (Clear_out b l)|by apply (Test_out b l)].
Qed.

(** C26.  [FindAndSet] allocates the lowest clear bit: it returns it, sets it,
    leaves every other bit as it was, and [NumClear] drops by exactly one; it
    returns -1 and changes nothing precisely when no bit is clear. *)
Theorem FindAndSet_allocates_lowest b l (Hrep : rep b l) :
  (exists i b', FindAndSet b = Ok (Z.of_nat i, b') /\ l !! i = Some false /\
     (forall j, (j < i)%nat -> l !! j = Some true) /\
     rep b' (<[i := true]> l) /\
     exists n, NumClear b = Ok n /\ NumClear b' = Ok (n - 1)) \/
  ((forall j x, l !! j = Some x -> x = true) /\ FindAndSet b = Ok (-1, b) /\ NumClear b = Ok 0).
Proof.
  pose proof (FindAndSet_law b l Hrep) as Hf. unfold first_clear in Hf.
  destruct (find_index negb l) as [i|] eqn:E.
  - destruct Hf as (b' & Hf & Hrep'). left. exists i, b'.
    apply find_index_Some in E as (x & Hx & Hc & Hlt). destruct x; [done|].
    repeat split; try done; try apply Hrep'.
    + intros j Hj. destruct (lookup_lt_is_Some_2 l j) as [y Hy].
      { apply lookup_lt_Some in Hx. lia. }
      specialize (Hlt j y Hy Hj). by destruct y.
    + exists (count_clear l). rewrite (NumClear_law b l) by done.
      by rewrite (NumClear_law b' _ Hrep'), count_clear_set.
  - right. assert (Hall : forall j x, l !! j = Some x -> x = true).
    { intros j x Hx. rewrite find_index_None in E. specialize (E j x Hx). by destruct x. }
    repeat split; try done. rewrite (NumClear_law b l), count_clear_none; done.
Qed.

(** [SelfTest] runs to its end on every freshly constructed bitmap of at
    least one word, whatever the fresh memory held: no assertion of it can fail,
    and it leaves the bitmap empty again. *)
Theorem Bitmap_SelfTest_passes junk n (Hn : BitsInWord <= n) :
  exists b b', new_Bitmap junk n = Ok b /\ SelfTest b = Ok b' /\
    rep b' (replicate (Z.to_nat n) false).
Proof.
  unfold BitsInWord, BitsInByte in Hn.
  destruct (new_Bitmap_ok junk n) as (b & Hb & Hr); [lia|].
  destruct (Bitmap_SelfTest_ok b (Z.to_nat n) ltac:(lia) Hr) as (b' & Hs & Hr'). eauto.
Qed.

Lemma ops_refine_bits_witness :
  rep {| numBits := 40; numWords := 2; map := [5; 128] |}
      (bits {| numBits := 40; numWords := 2; map := [5; 128] |}) /\
  if decide (0 <= 39 < 40)
  then (exists b', Mark {| numBits := 40; numWords := 2; map := [5; 128] |} 39 = Ok b' /\
          rep b' (<[39%nat := true]> (bits {| numBits := 40; numWords := 2; map := [5; 128] |}))) /\
       (exists b', Clear {| numBits := 40; numWords := 2; map := [5; 128] |} 39 = Ok b' /\
          rep b' (<[39%nat := false]> (bits {| numBits := 40; numWords := 2; map := [5; 128] |}))) /\
       (exists x, bits {| numBits := 40; numWords := 2; map := [5; 128] |} !! 39%nat = Some x /\
          Test {| numBits := 40; numWords := 2; map := [5; 128] |} 39 = Ok x)
  else False.
Proof.
  split.
  - apply example_rep.
  - exact (ops_refine_bits _ _ example_rep 39).
Defined.

Lemma FindAndSet_allocates_lowest_witness :
  exists b', FindAndSet {| numBits := 40; numWords := 2; map := [5; 128] |} = Ok (1, b').
Proof.
  destruct (FindAndSet_allocates_lowest _ _ example_rep) as [(i & b' & Hf & Hi & Hlt & _)|[Hall _]].
  - exists b'. rewrite Hf. f_equal. f_equal.
    destruct i as [|[|i]]; [vm_compute in Hi; discriminate|reflexivity|].
    specialize (Hlt 1%nat ltac:(lia)). vm_compute in Hlt. discriminate.
  - specialize (Hall 1%nat false eq_refl). discriminate.
Defined.

Lemma Bitmap_SelfTest_passes_witness :
  exists b b', new_Bitmap (fun i => 77 + Z.of_nat i) 40 = Ok b /\ SelfTest b = Ok b' /\
    rep b' (replicate 40 false).
Proof. apply (Bitmap_SelfTest_passes (fun i => 77 + Z.of_nat i) 40). vm_compute. discriminate. Defined.

End Bitmap.
