(* ===== verification/Lists.v ===== *)
(** Linked lists ([lib/list.h], [lib/list.cc]): [List<T>], [SortedList<T>] and
    [ListIterator<T>] with their nodes on a heap.  A node is a [ListElement]
    reached through pointers; a list object holds [first], [last] and
    [numInList] and owns its nodes, so the heap of nodes is kept per list.  The
    interface [ListOps]/[ListLaws] gives clients the list of items; the
    instance shows the pointer code implements it. *)

From Stdlib Require Import Sorted.
From S2P Require Import Prelude.

(** ** The interface: a [List<T>] is a finite sequence without duplicates *)

Class ListOps (L T : Type) := {
  lo_new : L;
  lo_Append : L -> T -> res L;
  lo_Prepend : L -> T -> res L;
  lo_RemoveFront : L -> res (T * L);
  lo_Remove : L -> T -> res L;
  lo_IsInList : L -> T -> res bool;
  lo_NumInList : L -> Z;
  lo_IsEmpty : L -> bool;
  lo_Apply : forall {S}, L -> (T -> S -> res S) -> S -> res S;
  lo_SanityCheck : L -> res ();
  lo_Front : L -> res T;
  (* [ListIterator<T>] *)
  lo_iter : Type;
  lo_begin : L -> lo_iter;
  lo_IsDone : lo_iter -> bool;
  lo_Item : L -> lo_iter -> res T;
  lo_Next : L -> lo_iter -> res lo_iter;
}.

(** Running [f] over the items in order. *)
Fixpoint apply_all {T S} (f : T -> S -> res S) (xs : list T) (s : S) : res S :=
  match xs with
  | [] => Ok s
  | x :: xs => s' ← f x s; apply_all f xs s'
  end.

Class ListLaws (L T : Type) `{EqDecision T} `{ListOps L T} := {
  lo_rep : L -> list T -> Prop;
  lo_new_rep : lo_rep lo_new [];
  lo_Append_law L xs x : lo_rep L xs ->
    if decide (x ∈ xs) then lo_Append L x = Fault AssertFailed
    else exists L', lo_Append L x = Ok L' /\ lo_rep L' (xs ++ [x]);
  lo_Prepend_law L xs x : lo_rep L xs ->
    if decide (x ∈ xs) then lo_Prepend L x = Fault AssertFailed
    else exists L', lo_Prepend L x = Ok L' /\ lo_rep L' (x :: xs);
  lo_RemoveFront_law L xs : lo_rep L xs ->
    match xs with
    | [] => lo_RemoveFront L = Fault AssertFailed
    | x :: ys => exists L', lo_RemoveFront L = Ok (x, L') /\ lo_rep L' ys
    end;
  lo_Remove_law L xs ys x zs : lo_rep L xs -> NoDup xs -> xs = ys ++ x :: zs ->
    exists L', lo_Remove L x = Ok L' /\ lo_rep L' (ys ++ zs);
  lo_IsInList_law L xs x : lo_rep L xs -> lo_IsInList L x = Ok (bool_decide (x ∈ xs));
  lo_NumInList_law L xs : lo_rep L xs -> lo_NumInList L = zlen xs;
  lo_IsEmpty_law L xs : lo_rep L xs -> lo_IsEmpty L = bool_decide (xs = []);
  lo_Apply_law {S} L xs (f : T -> S -> res S) s : lo_rep L xs ->
    lo_Apply L f s = apply_all f xs s;
  lo_SanityCheck_law L xs : lo_rep L xs -> lo_SanityCheck L = Ok ();
  lo_Front_law L x xs : lo_rep L (x :: xs) -> lo_Front L = Ok x;
  lo_at : L -> lo_iter -> list T -> Prop;
  lo_begin_law L xs : lo_rep L xs -> lo_at L (lo_begin L) xs;
  lo_IsDone_law L it xs : lo_at L it xs -> lo_IsDone it = bool_decide (xs = []);
  lo_step_law L it x xs : lo_at L it (x :: xs) ->
    lo_Item L it = Ok x /\ exists it', lo_Next L it = Ok it' /\ lo_at L it' xs;
}.

(** [for (iter(L); !iter->IsDone(); iter->Next()) body(iter->Item())], with a
    body that may return. *)
Section iteration.
Context {L T : Type} `{ListLaws L T} {S R : Type}.

Definition for_iter (l : L) (body : T -> S -> res (S + R)) (s : S) : res (S + R) :=
  loop (Datatypes.S (Z.to_nat (lo_NumInList l))) (fun '(it, s) =>
    if lo_IsDone it then Ok (inr (inl s))
    else
      x ← lo_Item l it;
      r ← body x s;
      match r with
      | inl s' => it' ← lo_Next l it; Ok (inl (it', s'))
      | inr v => Ok (inr (inr v))
      end) (lo_begin l, s).

(** The same over a sequence. *)
Fixpoint for_each (xs : list T) (body : T -> S -> res (S + R)) (s : S) : res (S + R) :=
  match xs with
  | [] => Ok (inl s)
  | x :: xs =>
      r ← body x s;
      match r with inl s' => for_each xs body s' | inr v => Ok (inr v) end
  end.

Lemma for_iter_law l xs body s : lo_rep l xs -> for_iter l body s = for_each xs body s.
Proof.
  intros Hr. unfold for_iter. rewrite (lo_NumInList_law _ _ Hr). unfold zlen.
  rewrite Nat2Z.id. pose proof (lo_begin_law _ _ Hr) as Hat. revert Hat.
  generalize (lo_begin l) as it. clear Hr. revert s.
  induction xs as [|x xs IH]; intros s it Hat; cbn [length loop];
    rewrite (lo_IsDone_law _ _ _ Hat).
  - by rewrite bool_decide_eq_true_2.
  - rewrite bool_decide_eq_false_2 by done.
    destruct (lo_step_law _ _ _ _ Hat) as (-> & it' & Hn & Hat'). cbn [rbind for_each].
    destruct (body x s) as [[s'|v]|e]; cbn [rbind]; [|done..].
    rewrite Hn. cbn [rbind]. by apply IH.
Qed.

Lemma for_each_inl xs body (g : T -> S -> S) s :
  (forall x t, x ∈ xs -> body x t = Ok (inl (g x t))) ->
  for_each xs body s = Ok (inl (foldl (fun t x => g x t) s xs)).
Proof.
  revert s. induction xs as [|x xs IH]; intros s Hb; [done|]. cbn [for_each foldl].
  rewrite Hb by (by left). cbn [rbind]. apply IH. intros. apply Hb. by right.
Qed.
End iteration.

(** ** The code *)

Module Lists.

(** Addresses of nodes; a null pointer is [None]. *)
Definition loc : Type := positive.

Record ListElement (T : Type) := mkElement {
  next : option loc;
  item : T;
}.
Arguments mkElement {T} next item.
Arguments next {T} l.
Arguments item {T} l.

Record List (T : Type) := mkList {
  first : option loc;
  last : option loc;
  numInList : Z;
  nodes : gmap loc (ListElement T);
}.
Arguments mkList {T} first last numInList nodes.
Arguments first {T} l.
Arguments last {T} l.
Arguments numInList {T} l.
Arguments nodes {T} l.

Section code.
Context {T : Type} `{EqDecision T}.
Implicit Types (L : List T) (p : option loc) (x : T) (xs : list T).

(** Reading the node a pointer points to. *)
Definition deref L p : res (loc * ListElement T) :=
  match p with
  | None => Fault NullPointer
  | Some l =>
      match nodes L !! l with
      | Some e => Ok (l, e)
      | None => Fault UseAfterFree
      end
  end.

(** The constructor of [ListElement]: a node not yet linked. *)
Definition new_ListElement L x : loc * List T :=
  let l := fresh (dom (nodes L)) in
  (l, mkList (first L) (last L) (numInList L) (<[l := mkElement None x]> (nodes L))).

Definition set_next L (l : loc) p : List T :=
  mkList (first L) (last L) (numInList L)
    (alter (fun e => mkElement p (item e)) l (nodes L)).
Definition set_first L p : List T := mkList p (last L) (numInList L) (nodes L).
Definition set_last L p : List T := mkList (first L) p (numInList L) (nodes L).
Definition add_num L (d : Z) : List T :=
  mkList (first L) (last L) (numInList L + d) (nodes L).
Definition delete_node L (l : loc) : List T :=
  mkList (first L) (last L) (numInList L) (delete l (nodes L)).

Definition new_List : List T := mkList None None 0 ∅.

Definition IsEmpty L : bool := numInList L =? 0.
Definition NumInList L : Z := numInList L.

(** A walk along [next] from [p], bounded by the number of nodes. *)
Definition fuel L : nat := S (size (nodes L)).

Definition IsInList L x : res bool :=
  loop (fuel L) (fun ptr =>
    match ptr with
    | None => Ok (inr false)
    | Some _ =>
        '(_, e) ← deref L ptr;
        if decide (x = item e) then Ok (inr true) else Ok (inl (next e))
    end) (first L).

Definition Append L x : res (List T) :=
  let '(element, L) := new_ListElement L x in
  found ← IsInList L x;
  ASSERT (negb found) ;;
  L ← (if IsEmpty L then Ok (set_last (set_first L (Some element)) (Some element))
       else '(l, _) ← deref L (last L);
            Ok (set_last (set_next L l (Some element)) (Some element)));
  let L := add_num L 1 in
  found ← IsInList L x;
  ASSERT found ;;
  Ok L.

Definition Prepend L x : res (List T) :=
  let '(element, L) := new_ListElement L x in
  found ← IsInList L x;
  ASSERT (negb found) ;;
  let L := if IsEmpty L then set_last (set_first L (Some element)) (Some element)
           else set_first (set_next L element (first L)) (Some element) in
  let L := add_num L 1 in
  found ← IsInList L x;
  ASSERT found ;;
  Ok L.

Definition Front L : res T := '(_, e) ← deref L (first L); Ok (item e).

Definition RemoveFront L : res (T * List T) :=
  ASSERT (negb (IsEmpty L)) ;;
  '(l, e) ← deref L (first L);
  let L := if decide (first L = last L) then set_last (set_first L None) None
           else set_first L (next e) in
  Ok (item e, delete_node (add_num L (-1)) l).

(** The loop of [Remove]: looks for [x] from [ptr], with [prev] behind it, and
    unlinks the node it finds; [None] when the list ends first. *)
Definition unlink L (prev : loc) (l : loc) : res (List T) :=
  '(_, e) ← deref L (Some l);
  let L := set_next L prev (next e) in
  let L := if decide (next e = None) then set_last L (Some prev) else L in
  Ok (add_num (delete_node L l) (-1)).

Definition Remove_loop L x : loc * option loc -> res (option (List T)) :=
  loop (fuel L) (fun '(prev, ptr) =>
    match ptr with
    | None => Ok (inr None)
    | Some l =>
        '(_, e) ← deref L (Some l);
        if decide (x = item e)
        then L' ← unlink L prev l; Ok (inr (Some L'))
        else Ok (inl (l, next e))
    end).

Definition Remove L x : res (List T) :=
  found ← IsInList L x;
  ASSERT found ;;
  '(l, e) ← deref L (first L);
  L ← (if decide (x = item e)
       then '(removed, L) ← RemoveFront L;
            ASSERT (bool_decide (x = removed)) ;;
            Ok L
       else r ← Remove_loop L x (l, next e);
            ASSERT (bool_decide (r <> None)) ;;
            match r with Some L => Ok L | None => Fault NullPointer end);
  found ← IsInList L x;
  ASSERT (negb found) ;;
  Ok L.

Definition Apply {S} L (f : T -> S -> res S) (s : S) : res S :=
  loop (fuel L) (fun '(ptr, s) =>
    match ptr with
    | None => Ok (inr s)
    | Some _ => '(_, e) ← deref L ptr; s' ← f (item e) s; Ok (inl (next e, s'))
    end) (first L, s).

Definition SanityCheck L : res () :=
  match first L with
  | None => ASSERT ((numInList L =? 0) && bool_decide (last L = None))
  | Some _ =>
      if decide (first L = last L) then
        '(_, e) ← deref L (last L);
        ASSERT ((numInList L =? 1) && bool_decide (next e = None))
      else
        numFound ← loop (S (Z.to_nat (numInList L))) (fun '(numFound, ptr) =>
          if decide (ptr = last L) then Ok (inr numFound)
          else
            ASSERT (numFound + 1 <=? numInList L) ;;
            '(_, e) ← deref L ptr;
            Ok (inl (numFound + 1, next e))) (1, first L);
        ASSERT (numFound =? numInList L) ;;
        '(_, e) ← deref L (last L);
        ASSERT (bool_decide (next e = None))
  end.

(** [ListIterator<T>]: the pointer [current]. *)
Definition new_ListIterator L : option loc := first L.
Definition IsDone (current : option loc) : bool := bool_decide (current = None).
Definition Item L (current : option loc) : res T :=
  ASSERT (negb (IsDone current)) ;;
  '(_, e) ← deref L current; Ok (item e).
Definition Next L (current : option loc) : res (option loc) :=
  '(_, e) ← deref L current; Ok (next e).

(** [SortedList<T>]: a list ordered by the function pointer [compare], which is
    negative when its first argument comes before the second. *)
Section sorted_code.
Context (compare : T -> T -> Z).

Definition Insert_loop L (element : loc) x : loc -> res (option (List T)) :=
  loop (fuel L) (fun ptr =>
    '(_, e) ← deref L (Some ptr);
    match next e with
    | None => Ok (inr None)
    | Some n =>
        '(_, en) ← deref L (Some n);
        if compare x (item en) <? 0
        then Ok (inr (Some (add_num (set_next (set_next L element (Some n)) ptr (Some element)) 1)))
        else Ok (inl n)
    end).

Definition Insert L x : res (List T) :=
  let '(element, L) := new_ListElement L x in
  found ← IsInList L x;
  ASSERT (negb found) ;;
  r ← (if IsEmpty L
       then Ok (inl (set_last (set_first L (Some element)) (Some element)))
       else '(l, e) ← deref L (first L);
            if compare x (item e) <? 0
            then Ok (inl (set_first (set_next L element (first L)) (Some element)))
            else r ← Insert_loop L element x l;
                 match r with
                 | Some L' => Ok (inr L')
                 | None =>
                     '(t, _) ← deref L (last L);
                     Ok (inl (set_last (set_next L t (Some element)) (Some element)))
                 end);
  match r with
  | inr L' => Ok L'
  | inl L =>
      let L := add_num L 1 in
      found ← IsInList L x;
      ASSERT found ;;
      Ok L
  end.

Definition SortedSanityCheck L : res () :=
  SanityCheck L ;;
  if decide (first L = last L) then Ok ()
  else
    '(_, e) ← deref L (first L);
    loop (fuel L) (fun '(prev, ptr) =>
      match ptr with
      | None => Ok (inr ())
      | Some _ =>
          '(_, e) ← deref L ptr;
          ASSERT (compare prev (item e) <=? 0) ;;
          Ok (inl (item e, next e))
      end) (item e, next e).

End sorted_code.

(** [List::SelfTest] on the [numEntries] first entries of [p].  The iterator is
    made before anything is on the list; its loop body is never to be reached. *)
Definition SelfTest L (p : list T) (numEntries : Z) : res (List T) :=
  let iterator := new_ListIterator L in
  SanityCheck L ;;
  ASSERT (IsEmpty L && bool_decide (first L = None)) ;;
  ASSERT (IsDone iterator) ;;
  L ← for_range (Z.to_nat numEntries) 0 (fun i L =>
        x ← arr_get p i;
        L ← Append L x;
        found ← IsInList L x; ASSERT found ;;
        ASSERT (negb (IsEmpty L)) ;;
        Ok L) L;
  SanityCheck L ;;
  L ← for_range (Z.to_nat numEntries) 0 (fun i L =>
        x ← arr_get p i;
        L ← Remove L x;
        found ← IsInList L x; ASSERT (negb found) ;;
        Ok L) L;
  ASSERT (IsEmpty L) ;;
  SanityCheck L ;;
  Ok L.

(** [SortedList::SelfTest]; [junk] is what the new array [q] holds. *)
Definition SortedSelfTest (compare : T -> T -> Z) (junk : T) L (p : list T) (numEntries : Z)
    : res (List T) :=
  let q := replicate (Z.to_nat numEntries) junk in
  L ← SelfTest L p numEntries;
  L ← for_range (Z.to_nat numEntries) 0 (fun i L =>
        x ← arr_get p i;
        L ← Insert compare L x;
        found ← IsInList L x; ASSERT found ;;
        Ok L) L;
  SortedSanityCheck compare L ;;
  '(L, q) ← for_range (Z.to_nat numEntries) 0 (fun i '(L, q) =>
        '(x, L) ← RemoveFront L;
        q ← arr_set q i x;
        qi ← arr_get q i;
        found ← IsInList L qi; ASSERT (negb found) ;;
        Ok (L, q)) (L, q);
  ASSERT (IsEmpty L) ;;
  _ ← for_range (Z.to_nat (numEntries - 1)) 0 (fun i u =>
        a ← arr_get q i;
        b ← arr_get q (i + 1);
        ASSERT (compare a b <=? 0)) ();
  SortedSanityCheck compare L ;;
  Ok L.

(** *** Chains of nodes *)

(** [lseg n p ps q]: following [next] from [p] visits exactly the nodes [ps]
    (address and item) and arrives at [q]. *)
Fixpoint lseg (n : gmap loc (ListElement T)) p (ps : list (loc * T)) (q : option loc) : Prop :=
  match ps with
  | [] => p = q
  | (l, x) :: ps => p = Some l /\ exists m, n !! l = Some (mkElement m x) /\ lseg n m ps q
  end.

Definition last_loc (p : option loc) (ps : list (loc * T)) : option loc :=
  foldl (fun _ lx => Some lx.1) p ps.

Definition rep L (xs : list T) : Prop :=
  exists ps, xs = ps.*2 /\ NoDup ps.*1 /\ lseg (nodes L) (first L) ps None /\
    last L = last_loc None ps /\ numInList L = zlen ps /\ dom (nodes L) = list_to_set ps.*1.

Lemma lseg_app n p ps qs r :
  lseg n p (ps ++ qs) r <-> exists q, lseg n p ps q /\ lseg n q qs r.
Proof.
  revert p. induction ps as [|[l x] ps IH]; intros p; simpl.
  - split; [eauto|]. by intros (q & -> & ?).
  - split.
    + intros (-> & m & Hm & (q & ? & ?)%IH). eauto 10.
    + intros (q & (-> & m & Hm & Hp) & Hq). split; [done|]. exists m. split; [done|].
      apply IH. eauto.
Qed.

Lemma lseg_frame n n' p ps q :
  (forall l, l ∈ ps.*1 -> n' !! l = n !! l) -> lseg n p ps q -> lseg n' p ps q.
Proof.
  revert p. induction ps as [|[l x] ps IH]; intros p Hf; simpl; [done|].
  intros (-> & m & Hm & Hs). split; [done|]. exists m.
  rewrite Hf by (simpl; left). split; [done|]. apply IH; [|done].
  intros l' Hl'. apply Hf. simpl. by right.
Qed.

Lemma last_loc_app p ps l x : last_loc p (ps ++ [(l, x)]) = Some l.
Proof. unfold last_loc. by rewrite foldl_app. Qed.

Lemma last_loc_app_gen p ps qs : last_loc p (ps ++ qs) = last_loc (last_loc p ps) qs.
Proof. apply foldl_app. Qed.

Lemma last_loc_snoc ps : ps <> [] -> exists qs l x, ps = qs ++ [(l, x)] /\ forall p, last_loc p ps = Some l.
Proof.
  destruct ps as [|[l x] qs] using rev_ind; [done|]. intros _.
  exists qs, l, x. split; [done|]. intros. apply last_loc_app.
Qed.

Lemma last_loc_cons p l x ps : last_loc p ((l, x) :: ps) = last_loc (Some l) ps.
Proof. done. Qed.

Lemma rep_length L xs : rep L xs -> zlen xs = numInList L.
Proof. intros (ps & -> & _ & _ & _ & -> & _). unfold zlen. by rewrite length_fmap. Qed.

Lemma rep_size L (ps : list (loc * T)) :
  NoDup ps.*1 -> dom (nodes L) = list_to_set ps.*1 -> fuel L = S (length ps).
Proof.
  intros Hnd Hd. unfold fuel. rewrite <- size_dom, Hd, size_list_to_set by done.
  by rewrite length_fmap.
Qed.

Lemma deref_lseg L p l x ps q :
  lseg (nodes L) p ((l, x) :: ps) q ->
  exists m, p = Some l /\ deref L p = Ok (l, mkElement m x) /\ lseg (nodes L) m ps q.
Proof. simpl. intros (-> & m & Hm & Hs). exists m. simpl. by rewrite Hm. Qed.

Lemma last_entry L p ps l x :
  lseg (nodes L) p (ps ++ [(l, x)]) None -> nodes L !! l = Some (mkElement None x).
Proof. intros (q & _ & Hq)%lseg_app. simpl in Hq. by destruct Hq as (_ & m & Hm & ->). Qed.

Lemma lseg_in_dom n p ps q l : lseg n p ps q -> l ∈ ps.*1 -> l ∈ dom n.
Proof.
  revert p. induction ps as [|[k x] ps IH]; intros p; simpl; [by intros _ ?%not_elem_of_nil|].
  intros (_ & m & Hm & Hs) [->|Hl]%elem_of_cons; [by apply elem_of_dom_2 in Hm|eauto].
Qed.

Lemma lseg_fuel L p ps q : NoDup ps.*1 -> lseg (nodes L) p ps q -> (length ps < fuel L)%nat.
Proof.
  intros Hnd Hs. unfold fuel. rewrite <- size_dom, <- (length_fmap fst ps).
  rewrite <- (size_list_to_set (C := gset loc)) by done.
  apply Nat.lt_succ_r, subseteq_size. intros l Hl%elem_of_list_to_set. by eapply lseg_in_dom.
Qed.

Lemma rep_intro L ps :
  NoDup ps.*1 -> lseg (nodes L) (first L) ps None -> last L = last_loc None ps ->
  numInList L = zlen ps -> dom (nodes L) = list_to_set ps.*1 -> rep L ps.*2.
Proof. intros. exists ps. done. Qed.

(** *** Searching *)

Lemma IsInList_walk L x p ps k :
  lseg (nodes L) p ps None -> (length ps < k)%nat ->
  loop k (fun ptr =>
    match ptr with
    | None => Ok (inr false)
    | Some _ =>
        '(_, e) ← deref L ptr;
        if decide (x = item e) then Ok (inr true) else Ok (inl (next e))
    end) p = Ok (bool_decide (x ∈ ps.*2)).
Proof.
  revert p k. induction ps as [|[l y] ps IH]; intros p [|k] Hs Hk; simpl in Hk; try lia.
  - simpl in Hs. subst p. cbn [loop rbind].
    rewrite bool_decide_eq_false_2; [done|apply not_elem_of_nil].
  - apply deref_lseg in Hs as (m & -> & Hd & Hs). cbn [loop]. rewrite Hd. cbn [rbind item next].
    rewrite fmap_cons. cbn [snd]. destruct (decide (x = y)) as [->|Hxy]; cbn [rbind].
    + rewrite bool_decide_eq_true_2; [done|by left].
    + rewrite (IH m k Hs) by lia. f_equal. apply bool_decide_ext.
      rewrite elem_of_cons. naive_solver.
Qed.

Lemma IsInList_lseg L x ps :
  NoDup ps.*1 -> lseg (nodes L) (first L) ps None ->
  IsInList L x = Ok (bool_decide (x ∈ ps.*2)).
Proof. intros Hnd Hs. apply IsInList_walk; [done|]. by eapply lseg_fuel. Qed.

Lemma IsInList_law L xs x : rep L xs -> IsInList L x = Ok (bool_decide (x ∈ xs)).
Proof. intros (ps & -> & Hnd & Hs & _). by apply IsInList_lseg. Qed.

Lemma IsEmpty_law L xs : rep L xs -> IsEmpty L = bool_decide (xs = []).
Proof.
  intros Hr. unfold IsEmpty. rewrite <- (rep_length L xs Hr).
  destruct xs; [done|]. by rewrite bool_decide_eq_false_2.
Qed.

(** *** Insertion *)

(** Linking a fresh node in front of the node that follows [prev], the pointer
    manipulation all the insertions share. *)
Lemma fresh_notin L ps : lseg (nodes L) (first L) ps None -> fresh (dom (nodes L)) ∉ ps.*1.
Proof.
  intros Hs Hl. eapply (is_fresh (dom (nodes L))). eapply lseg_in_dom; eauto.
Qed.

(** Linking the fresh node [(l, x)] between [a] and [b]: what stays true whatever
    the position. *)
Lemma insert_shape L a b (l : loc) x e :
  NoDup (a ++ b).*1 -> l ∉ (a ++ b).*1 -> dom (nodes L) = list_to_set (a ++ b).*1 ->
  NoDup (a ++ (l, x) :: b).*1 /\
  dom (<[l := e]> (nodes L)) = (list_to_set (a ++ (l, x) :: b).*1 : gset loc) /\
  zlen (a ++ (l, x) :: b) = zlen (a ++ b) + 1.
Proof.
  intros Hnd Hl Hd.
  assert (Hp : (a ++ (l, x) :: b).*1 ≡ₚ l :: (a ++ b).*1).
  { rewrite !fmap_app, fmap_cons. by rewrite Permutation_middle. }
  repeat split.
  - rewrite Hp. by apply NoDup_cons.
  - rewrite dom_insert_L, Hd, Hp. done.
  - unfold zlen. rewrite !length_app. simpl. lia.
Qed.

Lemma lseg_link_front L ps (l : loc) x :
  l ∉ ps.*1 -> lseg (nodes L) (first L) ps None ->
  lseg (<[l := mkElement (first L) x]> (nodes L)) (Some l) ((l, x) :: ps) None.
Proof.
  intros Hl Hs. split; [done|]. exists (first L). rewrite lookup_insert_eq.
  split; [done|]. eapply lseg_frame, Hs. intros k Hk. apply lookup_insert_ne. by intros ->.
Qed.

Lemma lseg_link_after L a (t : loc) y b (l : loc) x q p :
  NoDup (a ++ (t, y) :: b).*1 -> l ∉ (a ++ (t, y) :: b).*1 ->
  lseg (nodes L) p (a ++ (t, y) :: b) None -> lseg (nodes L) q b None ->
  lseg (alter (fun e => mkElement (Some l) (item e)) t (<[l := mkElement q x]> (nodes L)))
       p (a ++ (t, y) :: (l, x) :: b) None.
Proof.
  rewrite fmap_app, fmap_cons. simpl.
  intros (_ & Hd & [Htb _]%NoDup_cons)%NoDup_app Hl (u & Hu & Hq)%lseg_app Hb.
  assert (Htl : t <> l) by (intros ->; apply Hl; set_solver).
  assert (Hfr : forall ps p' q', (forall k, k ∈ ps.*1 -> k <> t /\ k <> l) ->
    lseg (nodes L) p' ps q' ->
    lseg (alter (fun e => mkElement (Some l) (item e)) t (<[l := mkElement q x]> (nodes L))) p' ps q').
  { intros ps p' q' Hps. apply lseg_frame. intros k [Hkt Hkl]%Hps.
    by rewrite lookup_alter_ne, lookup_insert_ne by done. }
  apply lseg_app. exists u. split.
  - apply Hfr; [|done]. intros k Hk. split; intros ->; [|set_solver].
    apply (Hd _ Hk). by left.
  - destruct Hq as (-> & v & Hv & _). split; [done|]. exists (Some l). split.
    { by rewrite lookup_alter_eq, lookup_insert_ne, Hv. }
    split; [done|]. exists q. rewrite lookup_alter_ne, lookup_insert_eq by done.
    split; [done|]. apply Hfr; [|done]. intros k Hk. split; intros ->; [done|set_solver].
Qed.

(** The end of every insertion: count the node and check it is there. *)
Lemma finish_insert L x ps :
  NoDup ps.*1 -> lseg (nodes L) (first L) ps None -> last L = last_loc None ps ->
  numInList L + 1 = zlen ps -> dom (nodes L) = list_to_set ps.*1 -> x ∈ ps.*2 ->
  exists L', (found ← IsInList (add_num L 1) x; ASSERT found ;; Ok (add_num L 1)) = Ok L' /\
             rep L' ps.*2.
Proof.
  intros Hnd Hs Hlast Hnum Hdom Hx. exists (add_num L 1).
  rewrite (IsInList_lseg (add_num L 1) x ps) by done.
  rewrite bool_decide_eq_true_2 by done. split; [done|]. by apply rep_intro.
Qed.

Lemma start_insert L ps x (l : loc) :
  NoDup ps.*1 -> lseg (nodes L) (first L) ps None -> l ∉ ps.*1 ->
  IsInList (mkList (first L) (last L) (numInList L) (<[l := mkElement None x]> (nodes L))) x
    = Ok (bool_decide (x ∈ ps.*2)).
Proof.
  intros Hnd Hs Hl. apply IsInList_lseg; [done|]. simpl.
  eapply lseg_frame, Hs. intros k Hk. apply lookup_insert_ne. by intros ->.
Qed.

Lemma alter_fresh (n : gmap loc (ListElement T)) (l : loc) x p q :
  alter (fun e => mkElement q (item e)) l (<[l := mkElement p x]> n) = <[l := mkElement q x]> n.
Proof.
  apply map_eq. intros k. destruct (decide (l = k)) as [<-|Hne].
  - by rewrite lookup_alter_eq, !lookup_insert_eq.
  - by rewrite lookup_alter_ne, !lookup_insert_ne.
Qed.

Lemma fmap_insert_mid (a b : list (loc * T)) (l : loc) x :
  (a ++ (l, x) :: b).*2 = a.*2 ++ x :: b.*2.
Proof. by rewrite fmap_app, fmap_cons. Qed.

Lemma Append_law L xs x : rep L xs ->
  if decide (x ∈ xs) then Append L x = Fault AssertFailed
  else exists L', Append L x = Ok L' /\ rep L' (xs ++ [x]).
Proof.
  intros (ps & -> & Hnd & Hs & Hlast & Hnum & Hdom).
  pose proof (fresh_notin L ps Hs) as Hfr. unfold Append, new_ListElement.
  set (l := fresh (dom (nodes L))) in *.
  rewrite (start_insert L ps x l Hnd Hs Hfr). cbn [rbind].
  case_decide as Hin; [by rewrite bool_decide_eq_true_2|].
  rewrite bool_decide_eq_false_2 by done. cbn [ASSERT negb rbind].
  destruct (insert_shape L ps [] l x (mkElement None x)) as (Hnd' & Hdom' & Hlen);
    rewrite ?app_nil_r in *; [done..|].
  change [x] with (x :: ([] : list (loc * T)).*2). rewrite <- (fmap_insert_mid ps [] l x).
  unfold IsEmpty. cbn [numInList]. rewrite Hnum.
  destruct (decide (ps = [])) as [->|Hne].
  - apply finish_insert; try done.
    + simpl. split; [done|]. exists None. by rewrite lookup_insert_eq.
    + by left.
  - destruct (last_loc_snoc ps Hne) as (qs & t & y & -> & Hll).
    rewrite (proj2 (Z.eqb_neq _ _)) by (rewrite zlen_app; unfold zlen; simpl; lia).
    cbn [last]. rewrite Hlast, Hll. cbn [deref nodes].
    assert (Ht : t <> l) by (intros ->; apply Hfr; rewrite fmap_app; set_solver).
    rewrite lookup_insert_ne, (last_entry L _ _ _ _ Hs) by done. cbn [rbind].
    rewrite <- app_assoc in *. apply finish_insert; try done.
    + by apply (lseg_link_after L qs t y [] l x None).
    + by rewrite last_loc_app_gen.
    + simpl. by rewrite dom_alter_L.
    + rewrite !fmap_app. set_solver.
Qed.

Lemma Prepend_law L xs x : rep L xs ->
  if decide (x ∈ xs) then Prepend L x = Fault AssertFailed
  else exists L', Prepend L x = Ok L' /\ rep L' (x :: xs).
Proof.
  intros (ps & -> & Hnd & Hs & Hlast & Hnum & Hdom).
  pose proof (fresh_notin L ps Hs) as Hfr. unfold Prepend, new_ListElement.
  set (l := fresh (dom (nodes L))) in *.
  rewrite (start_insert L ps x l Hnd Hs Hfr). cbn [rbind].
  case_decide as Hin; [by rewrite bool_decide_eq_true_2|].
  rewrite bool_decide_eq_false_2 by done. cbn [ASSERT negb rbind].
  destruct (insert_shape L [] ps l x (mkElement None x) Hnd Hfr Hdom) as (Hnd' & Hdom' & Hlen).
  change (x :: ps.*2) with ((l, x) :: ps).*2. unfold IsEmpty. cbn [numInList]. rewrite Hnum.
  destruct (decide (ps = [])) as [->|Hne].
  - apply finish_insert; try done.
    + simpl. split; [done|]. exists None. by rewrite lookup_insert_eq.
    + by left.
  - destruct (last_loc_snoc ps Hne) as (qs & t & y & Hps & Hll).
    rewrite (proj2 (Z.eqb_neq _ _)) by (rewrite Hps, zlen_app; unfold zlen; simpl; lia).
    apply finish_insert; try done.
    + simpl. rewrite alter_fresh. by apply lseg_link_front.
    + rewrite last_loc_cons, Hll. simpl. by rewrite Hlast, Hll.
    + simpl. by rewrite dom_alter_L.
    + by left.
Qed.

(** *** Removal *)

Lemma lseg_null n p ps : lseg n p ps None -> p = None <-> ps = [].
Proof. destruct ps as [|[l x] ps]; simpl; [done|]. intros (-> & _). done. Qed.

Lemma rep_cons_inv L xs x : rep L (x :: xs) ->
  exists l m ps, xs = ps.*2 /\ first L = Some l /\ nodes L !! l = Some (mkElement m x) /\
    lseg (nodes L) m ps None /\ NoDup ((l, x) :: ps).*1 /\
    last L = last_loc (Some l) ps /\ numInList L = zlen ps + 1 /\
    dom (nodes L) = list_to_set ((l, x) :: ps).*1.
Proof.
  intros (ps & Hxs & Hnd & Hs & Hlast & Hnum & Hdom).
  destruct ps as [|[l y] ps]; [done|]. rewrite fmap_cons in Hxs. injection Hxs as -> ->.
  destruct Hs as (Hf & m & Hm & Hs). exists l, m, ps. repeat split; try done.
  rewrite Hnum. unfold zlen. simpl. lia.
Qed.

Lemma RemoveFront_law L xs : rep L xs ->
  match xs with
  | [] => RemoveFront L = Fault AssertFailed
  | x :: ys => exists L', RemoveFront L = Ok (x, L') /\ rep L' ys
  end.
Proof.
  intros Hr. unfold RemoveFront. rewrite (IsEmpty_law _ _ Hr).
  destruct xs as [|x ys]; [done|]. rewrite bool_decide_eq_false_2 by done.
  destruct (rep_cons_inv _ _ _ Hr) as (l & m & ps & -> & Hf & Hm & Hs & Hnd & Hlast & Hnum & Hdom).
  cbn [negb ASSERT rbind]. rewrite Hf. cbn [deref]. rewrite Hm. cbn [rbind item next].
  eexists. split; [reflexivity|].
  rewrite fmap_cons in Hnd. apply NoDup_cons in Hnd as [Hl Hnd]. cbn [fst] in Hl.
  assert (Hs' : lseg (delete l (nodes L)) m ps None).
  { eapply lseg_frame, Hs. intros k Hk. apply lookup_delete_ne. by intros ->. }
  assert (Hdom' : dom (delete l (nodes L)) = (list_to_set ps.*1 : gset loc)).
  { rewrite dom_delete_L, Hdom, fmap_cons. simpl. set_solver. }
  rewrite Hlast. destruct (decide (ps = [])) as [->|Hne].
  - rewrite decide_True by done. apply (rep_intro _ []); try done. simpl. by rewrite Hnum.
  - destruct (last_loc_snoc ps Hne) as (qs & t & y & -> & Hll).
    rewrite decide_False by (rewrite Hll; intros [= ->]; apply Hl; rewrite fmap_app; set_solver).
    apply rep_intro; try done; simpl.
    + by rewrite Hlast, !Hll.
    + rewrite Hnum. lia.
Qed.

Definition prev_loc (prev : loc) (ps : list (loc * T)) : loc := foldl (fun _ lx => lx.1) prev ps.

Lemma Remove_walk L x a (l : loc) b prev ptr k :
  lseg (nodes L) ptr (a ++ (l, x) :: b) None -> x ∉ a.*2 ->
  (length (a ++ (l, x) :: b) < k)%nat ->
  loop k (fun '(prev, ptr) =>
    match ptr with
    | None => Ok (inr None)
    | Some l =>
        '(_, e) ← deref L (Some l);
        if decide (x = item e)
        then L' ← unlink L prev l; Ok (inr (Some L'))
        else Ok (inl (l, next e))
    end) (prev, ptr) = (L' ← unlink L (prev_loc prev a) l; Ok (Some L')).
Proof.
  revert prev ptr k. induction a as [|[t y] a IH]; intros prev ptr [|k] Hs Hx Hk; try (simpl in Hk; lia).
  - apply deref_lseg in Hs as (m & -> & Hd & _). cbn [loop]. rewrite Hd. cbn [rbind item].
    rewrite decide_True by done. simpl. by destruct (unlink L prev l).
  - rewrite <- app_comm_cons in Hs. apply deref_lseg in Hs as (m & -> & Hd & Hs).
    cbn [loop]. rewrite Hd. cbn [rbind item next]. rewrite fmap_cons in Hx.
    rewrite decide_False by (intros ->; apply Hx; by left). cbn [rbind].
    apply IH; [done| |simpl in Hk; lia]. intros Hin. apply Hx. by right.
Qed.

Lemma lseg_unlink n p a (pv : loc) z (l : loc) x b m :
  NoDup (a ++ (pv, z) :: (l, x) :: b).*1 -> lseg n p (a ++ (pv, z) :: (l, x) :: b) None ->
  n !! l = Some (mkElement m x) ->
  lseg (delete l (alter (fun e => mkElement m (item e)) pv n)) p (a ++ (pv, z) :: b) None /\
  lseg n m b None.
Proof.
  rewrite fmap_app, !fmap_cons. simpl.
  intros (_ & Hd & [Hpv [Hl _]%NoDup_cons]%NoDup_cons)%NoDup_app (u & Hu & Hq)%lseg_app Hm.
  destruct Hq as (-> & v & Hv & -> & m' & Hm' & Hb).
  rewrite Hm in Hm'. injection Hm' as <-. split; [|done].
  assert (Hfr : forall ps p' q', (forall k, k ∈ ps.*1 -> k <> pv /\ k <> l) ->
    lseg n p' ps q' -> lseg (delete l (alter (fun e => mkElement m (item e)) pv n)) p' ps q').
  { intros ps p' q' Hps. apply lseg_frame. intros k [Hkp Hkl]%Hps.
    by rewrite lookup_delete_ne, lookup_alter_ne by done. }
  assert (Hlp : l <> pv) by (intros ->; apply Hpv; by left).
  apply lseg_app. exists (Some pv). split.
  - apply Hfr; [|done]. intros k Hk. split; intros ->; apply (Hd _ Hk); [by left|].
    right. by left.
  - split; [done|]. exists m. rewrite lookup_delete_ne, lookup_alter_eq, Hv by done.
    split; [done|]. apply Hfr; [|done]. intros k Hk.
    split; intros ->; [|done]. apply Hpv. by right.
Qed.

Lemma unlink_rep L a (pv : loc) z (l : loc) x b :
  NoDup (a ++ (pv, z) :: (l, x) :: b).*1 ->
  lseg (nodes L) (first L) (a ++ (pv, z) :: (l, x) :: b) None ->
  last L = last_loc None (a ++ (pv, z) :: (l, x) :: b) ->
  numInList L = zlen (a ++ (pv, z) :: (l, x) :: b) ->
  dom (nodes L) = list_to_set (a ++ (pv, z) :: (l, x) :: b).*1 ->
  exists L', unlink L pv l = Ok L' /\ rep L' (a ++ (pv, z) :: b).*2.
Proof.
  intros Hnd Hs Hlast Hnum Hdom.
  assert (exists m, nodes L !! l = Some (mkElement m x)) as [m Hm].
  { apply lseg_app in Hs as (u & _ & -> & v & _ & -> & m & Hm & _). eauto. }
  destruct (lseg_unlink _ _ a pv z l x b m Hnd Hs Hm) as [Hs' Hb].
  assert (Hp : (a ++ (pv, z) :: (l, x) :: b).*1 ≡ₚ l :: (a ++ (pv, z) :: b).*1).
  { rewrite !fmap_app, !fmap_cons. cbn [fst].
    rewrite (cons_middle pv _ (l :: _)), app_assoc, <- Permutation_middle, <- app_assoc. done. }
  rewrite Hp in Hnd. apply NoDup_cons in Hnd as [Hl Hnd].
  unfold unlink. cbn [deref]. rewrite Hm. cbn [rbind next].
  eexists. split; [reflexivity|].
  apply rep_intro; try done; case_decide as Hmn.
  - done.
  - done.
  - apply (lseg_null _ _ _ Hb) in Hmn as ->. simpl. by rewrite last_loc_app.
  - transitivity (last L); [done|]. rewrite Hlast, !last_loc_app_gen, !last_loc_cons.
    destruct (last_loc_snoc b) as (qs & t & y & -> & Hll); [|by rewrite !Hll].
    by rewrite <- (lseg_null _ _ _ Hb).
  - simpl. rewrite Hnum. unfold zlen. rewrite !length_app. simpl. lia.
  - simpl. rewrite Hnum. unfold zlen. rewrite !length_app. simpl. lia.
  - simpl. rewrite dom_delete_L, dom_alter_L, Hdom, Hp. simpl. set_solver.
  - simpl. rewrite dom_delete_L, dom_alter_L, Hdom, Hp. simpl. set_solver.
Qed.

Lemma fmap_split_mid (ps : list (loc * T)) ys x zs :
  ps.*2 = ys ++ x :: zs ->
  exists a l b, ps = a ++ (l, x) :: b /\ a.*2 = ys /\ b.*2 = zs.
Proof.
  intros (a & c & -> & Hc & ->)%fmap_app_inv.
  destruct c as [|[l y] b]; [done|]. rewrite fmap_cons in Hc. injection Hc as -> ->.
  by exists a, l, b.
Qed.

Lemma prev_loc_app (t : loc) a (l : loc) x : prev_loc t (a ++ [(l, x)]) = l.
Proof. unfold prev_loc. by rewrite foldl_app. Qed.

Lemma Remove_law L xs ys x zs : rep L xs -> NoDup xs -> xs = ys ++ x :: zs ->
  exists L', Remove L x = Ok L' /\ rep L' (ys ++ zs).
Proof.
  intros Hr Hndx ->.
  assert (Hx : x ∉ ys ++ zs).
  { rewrite <- Permutation_middle in Hndx. by apply NoDup_cons in Hndx as [? _]. }
  unfold Remove. rewrite (IsInList_law _ _ _ Hr), bool_decide_eq_true_2 by set_solver.
  cbn [ASSERT rbind].
  assert (Hfin : forall L', rep L' (ys ++ zs) ->
    exists L'', (found ← IsInList L' x; ASSERT (negb found) ;; Ok L') = Ok L'' /\
                rep L'' (ys ++ zs)).
  { intros L' Hr'. exists L'. by rewrite (IsInList_law _ _ _ Hr'), bool_decide_eq_false_2. }
  destruct Hr as (ps & Hps & Hnd & Hs & Hlast & Hnum & Hdom).
  destruct (fmap_split_mid ps ys x zs (eq_sym Hps)) as (a & l & b & -> & <- & <-). clear Hps.
  destruct a as [|[t y] a].
  - destruct (deref_lseg _ _ _ _ _ _ Hs) as (m & _ & Hd & _). rewrite Hd. cbn [rbind item].
    rewrite decide_True by done.
    assert (Hr : rep L (x :: b.*2)) by (by apply (rep_intro L ((l, x) :: b))).
    destruct (RemoveFront_law _ _ Hr) as (L' & -> & Hr'). cbn [rbind].
    rewrite bool_decide_eq_true_2 by done. cbn [ASSERT rbind]. by apply Hfin.
  - destruct (deref_lseg L (first L) t y (a ++ (l, x) :: b) None Hs) as (m & Hf & Hd & Hs').
    rewrite Hd. cbn [rbind item next].
    rewrite decide_False by (intros ->; apply Hx; rewrite fmap_cons; by left).
    unfold Remove_loop. rewrite (Remove_walk L x a l b t m (fuel L)); [|done| |].
    + assert (exists c (pv : loc) z, (t, y) :: a = c ++ [(pv, z)] /\ prev_loc t a = pv)
        as (c & pv & z & Hc & ->).
      { destruct a as [|[pv z] c] using rev_ind; [by exists [], t, y|].
        exists ((t, y) :: c), pv, z. split; [done|]. apply prev_loc_app. }
      rewrite Hc, <- app_assoc in Hnd, Hs, Hlast, Hnum, Hdom.
      destruct (unlink_rep L c pv z l x b Hnd Hs Hlast Hnum Hdom) as (L' & -> & Hr').
      cbn [rbind]. rewrite bool_decide_eq_true_2 by done. cbn [ASSERT rbind]. apply Hfin.
      by rewrite Hc, <- fmap_app, <- app_assoc.
    + intros Hin. apply Hx. rewrite fmap_cons. apply elem_of_app. left. by right.
    + eapply Nat.lt_trans; [|by apply (lseg_fuel L _ _ _ Hnd Hs)]. simpl. lia.
Qed.

(** *** Passes *)

Lemma Apply_law {S} L xs (f : T -> S -> res S) s : rep L xs -> Apply L f s = apply_all f xs s.
Proof.
  intros (ps & -> & Hnd & Hs & _). unfold Apply.
  pose proof (lseg_fuel L _ _ _ Hnd Hs) as Hk. revert Hs Hk. clear Hnd.
  generalize (first L) as p. generalize (fuel L) as k. revert s.
  induction ps as [|[l x] ps IH]; intros s [|k] p Hs Hk; try (simpl in Hk; lia).
  - simpl in Hs. by subst.
  - apply deref_lseg in Hs as (m & -> & Hd & Hs). cbn [loop]. rewrite Hd.
    cbn [rbind item next]. rewrite fmap_cons. cbn [snd apply_all].
    destruct (f x s) as [s'|e]; [|done]. cbn [rbind]. apply IH; [done|]. simpl in Hk. lia.
Qed.

Lemma SanityCheck_walk L a (t : loc) y n p k :
  NoDup (a ++ [(t, y)]).*1 -> lseg (nodes L) p (a ++ [(t, y)]) None -> last L = Some t ->
  n + zlen a <= numInList L -> (length a < k)%nat ->
  loop k (fun '(numFound, ptr) =>
    if decide (ptr = last L) then Ok (inr numFound)
    else
      ASSERT (numFound + 1 <=? numInList L) ;;
      '(_, e) ← deref L ptr;
      Ok (inl (numFound + 1, next e))) (n, p) = Ok (n + zlen a).
Proof.
  revert n p k. induction a as [|[l x] a IH]; intros n p [|k] Hnd Hs Hlast Hn Hk;
    try (simpl in Hk; lia).
  - destruct Hs as (-> & _). cbn [loop]. rewrite decide_True by done. simpl.
    by rewrite Z.add_0_r.
  - rewrite <- app_comm_cons in Hs, Hnd. rewrite fmap_cons in Hnd.
    apply NoDup_cons in Hnd as [Hl Hnd]. cbn [fst] in Hl.
    apply deref_lseg in Hs as (m & -> & Hd & Hs). cbn [loop]. rewrite Hlast.
    rewrite decide_False by (intros [= ->]; apply Hl; rewrite fmap_app; set_solver).
    assert (Hz : zlen ((l, x) :: a) = zlen a + 1) by (unfold zlen; simpl; lia).
    rewrite ASSERT_true by (apply Z.leb_le; pose proof (zlen_nonneg a); lia).
    rewrite Hd. cbn [rbind next]. rewrite <- Hlast, (IH (n + 1) m k); try done.
    + f_equal. lia.
    + lia.
    + simpl in Hk. lia.
Qed.

Lemma SanityCheck_law L xs : rep L xs -> SanityCheck L = Ok ().
Proof.
  intros (ps & -> & Hnd & Hs & Hlast & Hnum & Hdom). unfold SanityCheck.
  destruct (decide (ps = [])) as [->|Hne].
  { simpl in Hs. rewrite Hs, Hlast, Hnum. done. }
  destruct (last_loc_snoc ps Hne) as (a & t & y & -> & Hll). rewrite Hll in Hlast.
  destruct (first L) as [l|] eqn:Hf.
  2: { apply lseg_null in Hs. by destruct Hs as [Hs%(fun h => h eq_refl) _]; destruct a. }
  rewrite Hlast. cbn [deref]. rewrite (last_entry L _ _ _ _ Hs). cbn [rbind].
  destruct a as [|[l' x] a].
  - destruct Hs as ([= ->] & _). rewrite decide_True by done. by rewrite Hnum.
  - rewrite decide_False.
    2: { destruct Hs as ([= ->] & _). intros [= ->].
         rewrite <- app_comm_cons, fmap_cons in Hnd. apply NoDup_cons in Hnd as [Hn _].
         apply Hn. rewrite fmap_app. set_solver. }
    assert (Hn : numInList L = zlen ((l', x) :: a) + 1) by (rewrite Hnum, zlen_app; done).
    rewrite <- Hlast, (SanityCheck_walk L ((l', x) :: a) t y 1 (Some l)), Hn; try done.
    + cbn [rbind]. rewrite ASSERT_true; [done|]. apply Z.eqb_eq. lia.
    + lia.
    + rewrite ?Hn. unfold zlen. lia.
Qed.

(** *** Sorted insertion *)

Section sorted.
Context (compare : T -> T -> Z).

(** Insertion before the first item that [x] comes before. *)
Fixpoint insert_sorted x (ys : list T) : list T :=
  match ys with
  | [] => [x]
  | y :: ys' => if compare x y <? 0 then x :: y :: ys' else y :: insert_sorted x ys'
  end.

(** The items [x] does not come before, up to the first one it does. *)
Fixpoint skip_le x (ps : list (loc * T)) : list (loc * T) * list (loc * T) :=
  match ps with
  | [] => ([], [])
  | (l, y) :: ps' =>
      if compare x y <? 0 then ([], ps)
      else let '(a, b) := skip_le x ps' in ((l, y) :: a, b)
  end.

Lemma skip_le_spec x ps a b : skip_le x ps = (a, b) ->
  ps = a ++ b /\ insert_sorted x ps.*2 = a.*2 ++ x :: b.*2.
Proof.
  revert a b. induction ps as [|[l y] ps IH]; intros a b; rewrite ?fmap_cons;
    cbn [skip_le insert_sorted snd].
  - by intros [= <- <-].
  - destruct (compare x y <? 0) eqn:E.
    + intros [= <- <-]. done.
    + destruct (skip_le x ps) as [a' b'] eqn:Es. intros [= <- <-].
      destruct (IH a' b' eq_refl) as [Hps IH2]. split; [by rewrite Hps|].
      rewrite !fmap_cons. cbn [snd]. by rewrite IH2.
Qed.

Lemma Insert_walk L (el : loc) x t y ps k :
  lseg (nodes L) (Some t) ((t, y) :: ps) None -> (length ps < k)%nat ->
  loop k (fun ptr =>
    '(_, e) ← deref L (Some ptr);
    match next e with
    | None => Ok (inr None)
    | Some n =>
        '(_, en) ← deref L (Some n);
        if compare x (item en) <? 0
        then Ok (inr (Some (add_num (set_next (set_next L el (Some n)) ptr (Some el)) 1)))
        else Ok (inl n)
    end) t =
  Ok (match skip_le x ps with
      | (_, []) => None
      | (a, (n, _) :: _) =>
          Some (add_num (set_next (set_next L el (Some n)) (prev_loc t a) (Some el)) 1)
      end).
Proof.
  revert t y k. induction ps as [|[n z] ps IH]; intros t y [|k] Hs Hk; try (simpl in Hk; lia).
  - apply deref_lseg in Hs as (m & _ & Hd & Hs). simpl in Hs. subst m.
    cbn [loop]. by rewrite Hd.
  - apply deref_lseg in Hs as (m & _ & Hd & Hs). pose proof Hs as Hs2.
    apply deref_lseg in Hs2 as (m2 & -> & Hd2 & _).
    cbn [loop]. rewrite Hd. cbn [rbind next]. rewrite Hd2. cbn [rbind item].
    cbn [skip_le]. destruct (compare x z <? 0) eqn:E; [done|].
    cbn [rbind]. rewrite (IH n z k Hs) by (simpl in Hk; lia).
    by destruct (skip_le x ps) as [a [|[n' z'] b]].
Qed.

Lemma Insert_empty L (l : loc) x :
  nodes L = ∅ -> first L = None -> last L = None -> numInList L = 0 ->
  let L1 := mkList (first L) (last L) (numInList L) (<[l := mkElement None x]> (nodes L)) in
  exists L', (found ← IsInList (add_num (set_last (set_first L1 (Some l)) (Some l)) 1) x;
              ASSERT found ;;
              Ok (add_num (set_last (set_first L1 (Some l)) (Some l)) 1)) = Ok L' /\
             rep L' [x].
Proof.
  intros Hn Hf Hl Hnum L1. apply (finish_insert _ x [(l, x)]); try done.
  - apply NoDup_singleton.
  - simpl. split; [done|]. exists None. by rewrite lookup_insert_eq.
  - simpl. by rewrite Hnum.
  - simpl. rewrite dom_insert_L, Hn. set_solver.
  - by left.
Qed.

(** Insertion after the first node, the two ways out of the loop. *)
Lemma Insert_after L (l : loc) x c (pv : loc) z b L1 :
  NoDup (c ++ (pv, z) :: b).*1 -> lseg (nodes L) (first L) (c ++ (pv, z) :: b) None ->
  last L = last_loc None (c ++ (pv, z) :: b) -> numInList L = zlen (c ++ (pv, z) :: b) ->
  dom (nodes L) = list_to_set (c ++ (pv, z) :: b).*1 -> l ∉ (c ++ (pv, z) :: b).*1 ->
  L1 = mkList (first L) (last L) (numInList L) (<[l := mkElement None x]> (nodes L)) ->
  match b with
  | [] => exists L', rep L' (c ++ (pv, z) :: (l, x) :: b).*2 /\
      ('(t, _) ← deref L1 (last L1);
       let L2 := add_num (set_last (set_next L1 t (Some l)) (Some l)) 1 in
       found ← IsInList L2 x; ASSERT found ;; Ok L2) = Ok L'
  | (n, _) :: _ =>
      rep (add_num (set_next (set_next L1 l (Some n)) pv (Some l)) 1)
          (c ++ (pv, z) :: (l, x) :: b).*2
  end.
Proof.
  intros Hnd Hs Hlast Hnum Hdom Hfr ->.
  pose proof (insert_shape L (c ++ [(pv, z)]) b l x (mkElement None x)) as Hsh.
  rewrite <- !app_assoc in Hsh. destruct (Hsh Hnd Hfr Hdom) as (Hnd' & Hdom' & Hlen).
  cbn [app] in *. clear Hsh.
  destruct b as [|[n w] b].
  - cbn [last]. rewrite Hlast, last_loc_app. cbn [deref nodes].
    assert (Hp : pv <> l) by (intros ->; apply Hfr; rewrite fmap_app; set_solver).
    rewrite lookup_insert_ne, (last_entry L _ _ _ _ Hs) by done. cbn [rbind].
    edestruct (finish_insert (set_last (set_next (mkList (first L) (Some pv) (numInList L)
      (<[l:=mkElement None x]> (nodes L))) pv (Some l)) (Some l)) x (c ++ [(pv, z); (l, x)]))
      as (L' & HL' & Hr); try done.
    + by apply (lseg_link_after L c pv z [] l x None).
    + simpl. by rewrite !last_loc_app_gen.
    + simpl. by rewrite Hnum, Hlen.
    + simpl. by rewrite dom_alter_L.
    + rewrite fmap_app. set_solver.
    + exists L'. done.
  - assert (Hb : lseg (nodes L) (Some n) ((n, w) :: b) None).
    { destruct (proj1 (lseg_app _ _ _ _ _) Hs) as (u & _ & _ & v & _ & Hb).
      destruct Hb as [-> Hb]. by split. }
    apply rep_intro; try done.
    + simpl nodes. rewrite alter_fresh. by apply lseg_link_after.
    + simpl. rewrite Hlast. by rewrite !last_loc_app_gen.
    + simpl. by rewrite Hnum, Hlen.
    + simpl. by rewrite !dom_alter_L.
Qed.

Lemma snoc_prev (t : loc) y a :
  exists c (pv : loc) z, (t, y) :: a = c ++ [(pv, z)] /\ prev_loc t a = pv.
Proof.
  destruct a as [|[pv z] c] using rev_ind; [by exists [], t, y|].
  exists ((t, y) :: c), pv, z. split; [done|]. apply prev_loc_app.
Qed.

Lemma Insert_law L xs x : rep L xs ->
  if decide (x ∈ xs) then Insert compare L x = Fault AssertFailed
  else exists L', Insert compare L x = Ok L' /\ rep L' (insert_sorted x xs).
Proof.
  intros (ps & -> & Hnd & Hs & Hlast & Hnum & Hdom).
  pose proof (fresh_notin L ps Hs) as Hfr. unfold Insert, new_ListElement.
  set (l := fresh (dom (nodes L))) in *.
  rewrite (start_insert L ps x l Hnd Hs Hfr). cbn [rbind].
  case_decide as Hin; [by rewrite bool_decide_eq_true_2|].
  rewrite bool_decide_eq_false_2 by done. cbn [ASSERT negb rbind].
  set (L1 := mkList _ _ _ _).
  assert (Hs1 : lseg (nodes L1) (first L1) ps None).
  { eapply lseg_frame, Hs. intros k Hk. apply lookup_insert_ne. by intros ->. }
  unfold IsEmpty. change (numInList L1) with (numInList L). rewrite Hnum.
  destruct ps as [|[t y] ps].
  { apply Insert_empty; [by apply dom_empty_inv_L|done..]. }
  rewrite (proj2 (Z.eqb_neq _ _)) by (unfold zlen; simpl; lia).
  destruct (deref_lseg _ _ _ _ _ _ Hs1) as (m & Hf & Hd & Hs2). rewrite Hd. cbn [rbind item].
  rewrite fmap_cons. cbn [snd insert_sorted]. destruct (compare x y <? 0) eqn:E.
  { destruct (insert_shape L [] _ l x (mkElement None x) Hnd Hfr Hdom) as (Hnd' & Hdom' & Hlen).
    cbn [rbind]. apply (finish_insert _ x ((l, x) :: (t, y) :: ps)); try done.
    - simpl nodes. rewrite alter_fresh. by apply lseg_link_front.
    - change (numInList L + 1 = zlen ([] ++ (l, x) :: (t, y) :: ps)). by rewrite Hlen, Hnum.
    - transitivity (dom (nodes L1)); [by apply dom_alter_L | done].
    - by left. }
  destruct (skip_le x ps) as [a b] eqn:Esk. destruct (skip_le_spec x ps a b Esk) as [-> ->].
  unfold Insert_loop. rewrite Hf in Hs1.
  rewrite (Insert_walk L1 l x t y (a ++ b)), Esk; [|done|].
  2: { pose proof (lseg_fuel L1 _ _ _ Hnd Hs1). simpl in *. lia. }
  rewrite app_comm_cons in Hnd, Hs, Hdom, Hnum, Hlast, Hfr.
  destruct (snoc_prev t y a) as (c & pv & z & Hc & ->).
  change (y :: a.*2 ++ x :: b.*2) with (((t, y) :: a).*2 ++ x :: b.*2).
  rewrite <- (fmap_insert_mid ((t, y) :: a) b l x).
  rewrite Hc, <- app_assoc in *. cbn [app] in *.
  pose proof (Insert_after L l x c pv z b L1 Hnd Hs Hlast Hnum Hdom Hfr eq_refl) as Ha.
  destruct b as [|[n w] b]; cbn [rbind]; [|by eauto].
  destruct Ha as (L' & Hr & Ha). exists L'. split; [|done].
  by destruct (deref L1 (last L1)) as [[? ?]|].
Qed.

Lemma insert_sorted_perm x ys : insert_sorted x ys ≡ₚ x :: ys.
Proof.
  induction ys as [|y ys IH]; simpl; [done|]. destruct (compare x y <? 0); [done|].
  rewrite IH. apply Permutation_swap.
Qed.

(** The order [SanityCheck] of a sorted list asserts: between neighbours. *)
Definition in_order : list T -> Prop := Sorted (fun a b => compare a b <= 0).

(** What [compare] must satisfy for that: of two items one does not come after
    the other. *)
Definition total : Prop := forall a b, 0 <= compare a b -> compare b a <= 0.

Lemma insert_sorted_in_order x ys : total -> in_order ys -> in_order (insert_sorted x ys).
Proof.
  intros Ht Hys. induction Hys as [|y ys Hys IH Hy]; simpl; [by repeat constructor|].
  destruct (Z.ltb_spec (compare x y) 0) as [E|E].
  - constructor; [by constructor|]. constructor. lia.
  - constructor; [done|]. destruct ys as [|z ys]; simpl.
    + constructor. by apply Ht.
    + inversion Hy. destruct (compare x z <? 0); constructor; [by apply Ht|done].
Qed.

Lemma SortedSanityCheck_walk L y p ps k :
  lseg (nodes L) p ps None -> (length ps < k)%nat -> in_order (y :: ps.*2) ->
  loop k (fun '(prev, ptr) =>
    match ptr with
    | None => Ok (inr ())
    | Some _ =>
        '(_, e) ← deref L ptr;
        ASSERT (compare prev (item e) <=? 0) ;;
        Ok (inl (item e, next e))
    end) (y, p) = Ok ().
Proof.
  revert y p k. induction ps as [|[l x] ps IH]; intros y p [|k] Hs Hk Ho;
    try (simpl in Hk; lia).
  - simpl in Hs. by subst.
  - apply deref_lseg in Hs as (m & -> & Hd & Hs). cbn [loop]. rewrite Hd. cbn [rbind item next].
    rewrite fmap_cons in Ho. inversion Ho as [|? ? Ho' Hy]; subst. inversion Hy; subst.
    rewrite ASSERT_true by (by apply Z.leb_le). cbn [rbind]. apply IH; [done| |done].
    simpl in Hk. lia.
Qed.

Lemma SortedSanityCheck_law L xs : rep L xs -> in_order xs -> SortedSanityCheck compare L = Ok ().
Proof.
  intros Hr Ho. unfold SortedSanityCheck. rewrite (SanityCheck_law _ _ Hr). cbn [rbind].
  case_decide as Hfl; [done|]. destruct xs as [|x xs].
  - destruct Hr as (ps & Hp & _ & Hs & Hl & _). symmetry in Hp. apply fmap_nil_inv in Hp as ->.
    simpl in Hs, Hl. congruence.
  - destruct (rep_cons_inv _ _ _ Hr) as (l & m & ps & -> & Hf & Hm & Hs & Hnd & _).
    rewrite Hf. cbn [deref]. rewrite Hm. cbn [rbind item next].
    apply (SortedSanityCheck_walk L x m ps (fuel L)); [done| |done].
    rewrite fmap_cons in Hnd. apply NoDup_cons in Hnd as [_ Hnd]. by eapply lseg_fuel.
Qed.
End sorted.

(** *** The instance, and the self tests *)

Lemma new_List_rep : rep new_List [].
Proof.
  exists []. repeat split; try done; constructor.
Qed.

Lemma NumInList_law L xs : rep L xs -> NumInList L = zlen xs.
Proof. intros Hr. symmetry. by apply rep_length. Qed.

Lemma Front_law L x xs : rep L (x :: xs) -> Front L = Ok x.
Proof.
  intros (l & m & ps & _ & Hf & Hm & _)%rep_cons_inv. unfold Front. rewrite Hf. cbn [deref].
  by rewrite Hm.
Qed.

(** An iterator that has the items [xs] before it. *)
Definition iter_at L p (xs : list T) : Prop := exists ps, xs = ps.*2 /\ lseg (nodes L) p ps None.

Lemma begin_law L xs : rep L xs -> iter_at L (new_ListIterator L) xs.
Proof. intros (ps & -> & _ & Hs & _). by exists ps. Qed.

Lemma IsDone_law L p xs : iter_at L p xs -> IsDone p = bool_decide (xs = []).
Proof.
  intros (ps & -> & Hs). apply bool_decide_ext. rewrite (lseg_null _ _ _ Hs).
  destruct ps; by rewrite ?fmap_cons.
Qed.

Lemma step_law L p x xs : iter_at L p (x :: xs) ->
  Item L p = Ok x /\ exists p', Next L p = Ok p' /\ iter_at L p' xs.
Proof.
  intros (ps & Hp & Hs). destruct ps as [|[l y] ps]; [done|]. rewrite fmap_cons in Hp.
  injection Hp as -> ->. apply deref_lseg in Hs as (m & -> & Hd & Hs).
  unfold Item, Next, IsDone. rewrite bool_decide_eq_false_2 by done. cbn [negb ASSERT rbind].
  rewrite Hd. cbn [rbind]. split; [done|]. exists m. split; [done|]. by exists ps.
Qed.

Lemma take_snoc (p : list T) i x : p !! i = Some x -> take (S i) p = take i p ++ [x].
Proof. intros H. by rewrite (take_S_r _ _ _ H). Qed.

Lemma NoDup_take_notin (p : list T) i x : NoDup p -> p !! i = Some x -> x ∉ take i p.
Proof.
  intros Hnd Hx. rewrite <- (take_drop_middle p i x Hx) in Hnd.
  apply NoDup_app in Hnd as (_ & Hd & _). intros Hin. apply (Hd x Hin). by left.
Qed.

Lemma rep_nil_first L : rep L [] -> first L = None.
Proof.
  intros (ps & Hp & _ & Hs & _). symmetry in Hp. by apply fmap_nil_inv in Hp as ->.
Qed.

Lemma SelfTest_ok L (p : list T) : rep L [] -> NoDup p ->
  exists L', SelfTest L p (zlen p) = Ok L' /\ rep L' [].
Proof.
  intros Hr Hnd. unfold SelfTest, new_ListIterator, IsDone.
  rewrite (SanityCheck_law _ _ Hr), (IsEmpty_law _ _ Hr), (rep_nil_first _ Hr).
  rewrite !bool_decide_eq_true_2 by done. cbn [rbind ASSERT andb].
  unfold zlen. rewrite Nat2Z.id.
  edestruct (for_range_rule (fun i L => 0 <= i /\ rep L (take (Z.to_nat i) p)) (length p) 0)
    as (L1 & -> & _ & Hr1).
  { split; [lia|exact Hr]. }
  { intros j L0 Hj (_ & Hr0). destruct (arr_get_lt p j) as (x & Hx & ->); [unfold zlen; lia|].
    pose proof (Append_law L0 _ x Hr0) as Ha.
    rewrite decide_False in Ha by (by apply NoDup_take_notin).
    destruct Ha as (L2 & Ha & Hr2). cbn [rbind]. rewrite Ha. cbn [rbind].
    rewrite (IsInList_law _ _ _ Hr2), bool_decide_eq_true_2 by set_solver. cbn [rbind ASSERT].
    rewrite (IsEmpty_law _ _ Hr2), bool_decide_eq_false_2 by (by destruct (take _ p)).
    exists L2. split; [done|]. split; [lia|].
    by rewrite Z2Nat.inj_add, Nat.add_1_r, (take_snoc _ _ _ Hx) by lia. }
  replace (Z.to_nat (0 + Z.of_nat (length p))) with (length p) in Hr1 by lia.
  rewrite firstn_all in Hr1. cbn [rbind]. rewrite (SanityCheck_law _ _ Hr1). cbn [rbind].
  edestruct (for_range_rule (fun i L => 0 <= i /\ rep L (drop (Z.to_nat i) p)) (length p) 0)
    as (L2 & -> & _ & Hr2).
  { split; [lia|exact Hr1]. }
  { intros j L0 Hj (_ & Hr0). destruct (arr_get_lt p j) as (x & Hx & ->); [unfold zlen; lia|].
    rewrite (drop_S _ _ _ Hx) in Hr0.
    rewrite <- (take_drop (Z.to_nat j) p), (drop_S _ _ _ Hx) in Hnd.
    apply NoDup_app in Hnd as (_ & _ & Hnd).
    destruct (Remove_law L0 _ [] x _ Hr0 Hnd eq_refl) as (L2 & Hrm & Hr2).
    cbn [rbind]. rewrite Hrm. cbn [rbind]. apply NoDup_cons in Hnd as [Hx' _].
    rewrite (IsInList_law _ _ _ Hr2), bool_decide_eq_false_2 by done.
    exists L2. split; [done|]. split; [lia|].
    by rewrite Z2Nat.inj_add, Nat.add_1_r by lia. }
  replace (Z.to_nat (0 + Z.of_nat (length p))) with (length p) in Hr2 by lia.
  rewrite drop_all in Hr2. cbn [rbind].
  rewrite (IsEmpty_law _ _ Hr2), bool_decide_eq_true_2, (SanityCheck_law _ _ Hr2) by done.
  by exists L2.
Qed.

Section sorted_test.
Context (compare : T -> T -> Z).

Lemma insert_all_ok (p : list T) n L : total compare -> NoDup p -> rep L [] -> n = length p ->
  exists L' xs, for_range n 0 (fun i L =>
        x ← arr_get p i;
        L ← Insert compare L x;
        found ← IsInList L x; ASSERT found ;;
        Ok L) L = Ok L' /\ rep L' xs /\ in_order compare xs /\ xs ≡ₚ p.
Proof.
  intros Ht Hnd Hr ->.
  edestruct (for_range_rule (fun i L => 0 <= i /\ exists xs, rep L xs /\
    in_order compare xs /\ xs ≡ₚ take (Z.to_nat i) p) (length p) 0)
    as (L1 & -> & _ & xs & Hr1 & Ho1 & Hp1).
  { split; [lia|]. exists []. repeat split; [exact Hr|constructor|done]. }
  { intros j L0 Hj (_ & xs & Hr0 & Ho & Hp).
    destruct (arr_get_lt p j) as (x & Hx & ->); [unfold zlen; lia|].
    pose proof (Insert_law compare L0 _ x Hr0) as Ha.
    rewrite decide_False in Ha by (rewrite Hp; by apply NoDup_take_notin).
    destruct Ha as (L2 & Ha & Hr2). cbn [rbind]. rewrite Ha. cbn [rbind].
    pose proof (insert_sorted_perm compare x xs) as Hp2.
    rewrite (IsInList_law _ _ _ Hr2), bool_decide_eq_true_2 by (rewrite Hp2; by left).
    exists L2. split; [done|]. split; [lia|]. eexists. split; [done|].
    split; [by apply insert_sorted_in_order|].
    rewrite Hp2, Z2Nat.inj_add, Nat.add_1_r, (take_snoc _ _ _ Hx), Hp by lia.
    apply Permutation_cons_append. }
  replace (Z.to_nat (0 + Z.of_nat (length p))) with (length p) in Hp1 by lia.
  rewrite firstn_all in Hp1. by exists L1, xs.
Qed.

Lemma remove_all_ok xs n q L : rep L xs -> NoDup xs -> n = length xs -> length q = length xs ->
  exists L', for_range n 0 (fun i '(L, q) =>
        '(x, L) ← RemoveFront L;
        q ← arr_set q i x;
        qi ← arr_get q i;
        found ← IsInList L qi; ASSERT (negb found) ;;
        Ok (L, q)) (L, q) = Ok (L', xs) /\ rep L' [].
Proof.
  intros Hr Hnd -> Hq.
  edestruct (for_range_rule (fun i '(L, q) => 0 <= i /\ rep L (drop (Z.to_nat i) xs) /\
    length q = length xs /\ take (Z.to_nat i) q = take (Z.to_nat i) xs) (length xs) 0)
    as ([L1 q1] & -> & _ & Hr1 & Hlen & Hp1).
  { split; [lia|]. repeat split; [exact Hr|exact Hq]. }
  { intros j [L0 q0] Hj (_ & Hr0 & Hlen & Hp).
    destruct (arr_get_lt xs j) as (x & Hx & _); [unfold zlen; lia|].
    rewrite (drop_S _ _ _ Hx) in Hr0.
    destruct (RemoveFront_law _ _ Hr0) as (L2 & -> & Hr2). cbn [rbind].
    rewrite arr_set_lt by (unfold zlen; lia). cbn [rbind].
    rewrite arr_get_insert_eq by (unfold zlen; lia). cbn [rbind].
    rewrite <- (take_drop (Z.to_nat j) xs), (drop_S _ _ _ Hx) in Hnd.
    apply NoDup_app in Hnd as (_ & _ & [Hx' _]%NoDup_cons).
    rewrite (IsInList_law _ _ _ Hr2), bool_decide_eq_false_2 by done.
    eexists. split; [done|]. rewrite Z2Nat.inj_add, Nat.add_1_r by lia.
    split; [lia|]. split; [done|]. rewrite length_insert. split; [done|].
    rewrite !(take_S_r _ _ x), take_insert_ge, Hp;
      rewrite ?list_lookup_insert_eq by lia; done || lia. }
  replace (Z.to_nat (0 + Z.of_nat (length xs))) with (length xs) in Hr1, Hp1 by lia.
  rewrite drop_all in Hr1. rewrite firstn_all, <- Hlen, firstn_all in Hp1. subst q1.
  by exists L1.
Qed.

Lemma in_order_lookup xs i a b : in_order compare xs -> xs !! i = Some a ->
  xs !! S i = Some b -> compare a b <= 0.
Proof.
  intros Ho. revert i. induction Ho as [|x xs Ho IH Hx]; intros [|i] Ha Hb; try done.
  - destruct xs as [|y xs]; [done|]. inversion Hx. simpl in *. by simplify_eq.
  - by apply (IH i).
Qed.

Lemma order_check_ok q : in_order compare q ->
  for_range (Z.to_nat (zlen q - 1)) 0 (fun i u =>
        a ← arr_get q i;
        b ← arr_get q (i + 1);
        ASSERT (compare a b <=? 0)) () = Ok ().
Proof.
  intros Ho. edestruct (for_range_rule (fun _ (_ : ()) => True) (Z.to_nat (zlen q - 1)) 0)
    as ([] & H & _); [done| |exact H].
  intros j t Hj _. destruct (arr_get_lt q j) as (a & Ha & ->); [lia|].
  destruct (arr_get_lt q (j + 1)) as (b & Hb & ->); [lia|]. cbn [rbind].
  rewrite Z2Nat.inj_add, Nat.add_1_r in Hb by lia.
  rewrite (proj2 (Z.leb_le _ _)); [by exists ()|]. by eapply in_order_lookup.
Qed.

Lemma SortedSelfTest_ok junk L (p : list T) : total compare -> rep L [] -> NoDup p ->
  exists L', SortedSelfTest compare junk L p (zlen p) = Ok L' /\ rep L' [].
Proof.
  intros Ht Hr Hnd. unfold SortedSelfTest.
  destruct (SelfTest_ok L p Hr Hnd) as (L1 & -> & Hr1). cbn [rbind].
  destruct (insert_all_ok p (Z.to_nat (zlen p)) L1 Ht Hnd Hr1) as (L2 & xs & -> & Hr2 & Ho & Hp).
  { unfold zlen. lia. }
  assert (Hlen : length p = length xs) by (by rewrite Hp).
  cbn [rbind]. rewrite (SortedSanityCheck_law _ _ _ Hr2 Ho). cbn [rbind].
  destruct (remove_all_ok xs (Z.to_nat (zlen p)) (replicate (Z.to_nat (zlen p)) junk) L2 Hr2)
    as (L3 & -> & Hr3).
  { by rewrite Hp. }
  { unfold zlen. lia. }
  { rewrite length_replicate. unfold zlen. lia. }
  cbn [rbind]. rewrite (IsEmpty_law _ _ Hr3), bool_decide_eq_true_2 by done. cbn [rbind ASSERT].
  replace (zlen p) with (zlen xs) by (unfold zlen; lia).
  rewrite (order_check_ok xs Ho). cbn [rbind].
  rewrite (SortedSanityCheck_law compare _ _ Hr3) by constructor. by exists L3.
Qed.
End sorted_test.
End code.

#[global] Instance list_ops T `{EqDecision T} : ListOps (List T) T := {
  lo_new := new_List; lo_Append := Append; lo_Prepend := Prepend;
  lo_RemoveFront := RemoveFront; lo_Remove := Remove; lo_IsInList := IsInList;
  lo_NumInList := NumInList; lo_IsEmpty := IsEmpty; lo_Apply := @Apply T;
  lo_SanityCheck := SanityCheck; lo_Front := Front;
  lo_iter := option loc; lo_begin := new_ListIterator; lo_IsDone := IsDone;
  lo_Item := Item; lo_Next := Next;
}.

#[global] Program Instance list_laws T `{EqDecision T} : ListLaws (List T) T := {
  lo_rep := rep;
  lo_new_rep := new_List_rep; lo_Append_law := Append_law; lo_Prepend_law := Prepend_law;
  lo_RemoveFront_law := RemoveFront_law; lo_Remove_law := Remove_law;
  lo_IsInList_law := IsInList_law; lo_NumInList_law := NumInList_law;
  lo_IsEmpty_law := IsEmpty_law; lo_Apply_law S L xs f s := Apply_law L xs f s;
  lo_SanityCheck_law := SanityCheck_law; lo_Front_law := Front_law;
  lo_at := iter_at; lo_begin_law := begin_law; lo_IsDone_law := IsDone_law;
  lo_step_law := step_law;
}.

(** ** Properties *)

(** C27. On a list whose nodes hold the sequence [xs], the pointer code of
    [Append], [Prepend], [RemoveFront] and [Remove] computes a list holding the
    sequence the operation is named for; it stops at an assertion exactly when
    the item is already there (or the list is empty), and no run dereferences a
    null or freed pointer. *)
Theorem list_refines_sequence {T} `{EqDecision T} (L : List T) (xs : list T)
    (Hrep : rep L xs) (x : T) :
  (if decide (x ∈ xs) then Append L x = Fault AssertFailed
   else exists L', Append L x = Ok L' /\ rep L' (xs ++ [x])) /\
  (if decide (x ∈ xs) then Prepend L x = Fault AssertFailed
   else exists L', Prepend L x = Ok L' /\ rep L' (x :: xs)) /\
  match xs with
  | [] => RemoveFront L = Fault AssertFailed
  | y :: ys => exists L', RemoveFront L = Ok (y, L') /\ rep L' ys
  end /\
  (NoDup xs ->
   if decide (x ∈ xs)
   then exists L' ys zs, Remove L x = Ok L' /\ xs = ys ++ x :: zs /\ rep L' (ys ++ zs)
   else Remove L x = Fault AssertFailed).
Proof.
  split; [by apply Append_law|]. split; [by apply Prepend_law|].
  split; [by apply RemoveFront_law|]. intros Hnd. case_decide as Hx.
  - apply list_elem_of_split in Hx as (ys & zs & ->).
    destruct (Remove_law L _ ys x zs Hrep Hnd eq_refl) as (L' & ? & ?). by exists L', ys, zs.
  - unfold Remove. by rewrite (IsInList_law _ _ _ Hrep), bool_decide_eq_false_2.
Qed.

(** [Insert] on a list in order puts a new item in so that the list is
    still in order, holds exactly the old items and the new one, and passes
    [SortedList::SanityCheck]; it fails its assertion on an item already there. *)
Theorem Insert_keeps_order {T} `{EqDecision T} (compare : T -> T -> Z) (L : List T)
    (xs : list T) (Hrep : rep L xs) (Htotal : total compare) (Hord : in_order compare xs) x :
  if decide (x ∈ xs) then Insert compare L x = Fault AssertFailed
  else exists L' ys, Insert compare L x = Ok L' /\ rep L' ys /\ ys ≡ₚ x :: xs /\
         in_order compare ys /\ SortedSanityCheck compare L' = Ok ().
Proof.
  pose proof (Insert_law compare L xs x Hrep) as HI. case_decide; [done|].
  destruct HI as (L' & HI & Hr). exists L', (insert_sorted compare x xs).
  pose proof (insert_sorted_in_order compare x xs Htotal Hord) as Ho.
  repeat split; try done; [apply insert_sorted_perm|by eapply SortedSanityCheck_law].
Qed.

(** [SortedList::SelfTest] (which runs [List::SelfTest] first) on an empty
    list and an array of distinct items never fails an assertion, and leaves
    the list empty, for every [compare] under which of two items one is not
    after the other. *)
Theorem SelfTests_pass {T} `{EqDecision T} (compare : T -> T -> Z) junk (L : List T)
    (p : list T) (Hrep : rep L []) (Htotal : total compare) (Hnd : NoDup p) :
  exists L', SortedSelfTest compare junk L p (zlen p) = Ok L' /\ rep L' [].
Proof. by apply SortedSelfTest_ok. Qed.

(** *** Witnesses: the lists of [LibSelfTest], of ints compared by difference. *)

Definition IntCompare (x y : Z) : Z := if x <? y then -1 else if x =? y then 0 else 1.

Lemma IntCompare_total : total IntCompare.
Proof.
  intros a b. unfold IntCompare.
  destruct (Z.ltb_spec a b), (Z.eqb_spec a b), (Z.ltb_spec b a), (Z.eqb_spec b a); lia.
Qed.

Lemma list_refines_sequence_witness :
  exists L', Append (T := Z) new_List 9 = Ok L' /\ rep L' ([] ++ [9]).
Proof.
  destruct (list_refines_sequence (T := Z) new_List [] new_List_rep 9) as [H _].
  rewrite decide_False in H by apply not_elem_of_nil. exact H.
Defined.

Lemma Insert_keeps_order_witness :
  exists L' ys, Insert IntCompare new_List 9 = Ok L' /\ rep L' ys /\ ys ≡ₚ [9] /\
    in_order IntCompare ys /\ SortedSanityCheck IntCompare L' = Ok ().
Proof.
  pose proof (Insert_keeps_order IntCompare new_List [] new_List_rep IntCompare_total
    ltac:(constructor) 9) as H.
  rewrite decide_False in H by apply not_elem_of_nil. exact H.
Defined.

Lemma SelfTests_pass_witness :
  exists L', SortedSelfTest IntCompare 0 new_List [9; 5; 7] 3 = Ok L' /\ rep L' [].
Proof.
  apply (SelfTests_pass IntCompare 0 new_List [9; 5; 7] new_List_rep IntCompare_total).
  by apply (bool_decide_unpack _).
Defined.

(** The code at concrete inputs. *)
Example SelfTest_run :
  SortedSelfTest IntCompare 0 new_List [9; 5; 7] 3 = Ok (mkList None None 0 ∅).
Proof. vm_compute. reflexivity. Qed.
End Lists.
