(* ===== verification/Hash.v ===== *)
(** Hash tables ([lib/hash.h], [lib/hash.cc]): an array of [List<T>] buckets
    that grows by [ReHash].  The buckets are used through the interface
    [ListOps]/[ListLaws] only.  The refinement shows the table is a finite map
    from keys to items. *)

From S2P Require Import Prelude Lists.

Module Hash.

Definition InitialBuckets : Z := 4.
Definition ResizeRatio : Z := 3.
Definition IncreaseSizeBy : Z := 4.

(** The array of buckets, its length and the number of items. *)
Record HashTable (L : Type) := mkTable {
  buckets : list L;
  numBuckets : Z;
  numItems : Z;
}.
Arguments mkTable {L} buckets numBuckets numItems.
Arguments buckets {L} h.
Arguments numBuckets {L} h.
Arguments numItems {L} h.

(** ** The code *)

Section code.
Context {L T : Type} `{ListLaws L T} {K : Type} `{EqDecision K}.
(** The functions given to the constructor, and the null value of [T]. *)
Context (getKey : T -> K) (hash : K -> Z) (NULL : T).
Implicit Types (t : HashTable L) (x : T) (k : K) (bss : list (list T)) (xs : list T).

Definition set_buckets t bs : HashTable L := mkTable bs (numBuckets t) (numItems t).
Definition set_numItems t n : HashTable L := mkTable (buckets t) (numBuckets t) n.

Definition InitBuckets t (sz : Z) : HashTable L :=
  mkTable (replicate (Z.to_nat sz) lo_new) sz (numItems t).

Definition new_HashTable : HashTable L := InitBuckets (mkTable [] 0 0) InitialBuckets.

(** [unsigned % int]: the divisor is converted to [unsigned], the result to [int]. *)
Definition HashValue t k : res Z :=
  if u32 (numBuckets t) =? 0 then Fault ArithTrap
  else
    let result := s32 (u32 (hash k) mod u32 (numBuckets t)) in
    ASSERT ((0 <=? result) && (result <? numBuckets t)) ;;
    Ok result.

(** Whether the item was found, and the item ([NULL] when it was not). *)
Definition FindInBucket t (bucket : Z) k : res (bool * T) :=
  b ← arr_get (buckets t) bucket;
  r ← for_iter b (fun x (_ : ()) =>
        if decide (k = getKey x) then Ok (inr x) else Ok (inl ())) ();
  match r with
  | inr x => Ok (true, x)
  | inl _ => Ok (false, NULL)
  end.

Definition Find t k : res (bool * T) :=
  bucket ← HashValue t k;
  FindInBucket t bucket k.

Definition IsInTable t k : res bool := r ← Find t k; Ok (fst r).

Definition IsEmpty t : bool := numItems t =? 0.

Definition SanityCheck t : res () :=
  numFound ← for_range (Z.to_nat (numBuckets t)) 0 (fun i numFound =>
    b ← arr_get (buckets t) i;
    lo_SanityCheck b ;;
    let numFound := s32 (numFound + lo_NumInList b) in
    _ ← for_iter (R := ()) b (fun x (_ : ()) =>
          h ← HashValue t (getKey x);
          ASSERT (i =? h) ;;
          Ok (inl ())) ();
    Ok numFound) 0;
  ASSERT (numItems t =? numFound).

(** [while (!oldTable[i]->IsEmpty()) ...] of [ReHash]. *)
Definition move_bucket (i : Z) (n : nat) : list L * HashTable L -> res (list L * HashTable L) :=
  loop n (fun '(oldTable, t) =>
    b ← arr_get oldTable i;
    if lo_IsEmpty b then Ok (inr (oldTable, t))
    else
      '(item, b) ← lo_RemoveFront b;
      oldTable ← arr_set oldTable i b;
      h ← HashValue t (getKey item);
      dst ← arr_get (buckets t) h;
      dst ← lo_Append dst item;
      bs ← arr_set (buckets t) h dst;
      Ok (inl (oldTable, set_buckets t bs))).

Definition ReHash t : res (HashTable L) :=
  let oldTable := buckets t in
  let oldSize := numBuckets t in
  SanityCheck t ;;
  let t := InitBuckets t (s32 (numBuckets t * IncreaseSizeBy)) in
  '(_, t) ← for_range (Z.to_nat oldSize) 0 (fun i '(oldTable, t) =>
      b ← arr_get oldTable i;
      move_bucket i (S (Z.to_nat (lo_NumInList b))) (oldTable, t)) (oldTable, t);
  SanityCheck t ;;
  Ok t.

Definition Insert t x : res (HashTable L) :=
  let key := getKey x in
  found ← IsInTable t key;
  ASSERT (negb found) ;;
  t ← (if numBuckets t =? 0 then Fault ArithTrap
       else if ResizeRatio <=? Z.quot (numItems t) (numBuckets t) then ReHash t else Ok t);
  h ← HashValue t key;
  b ← arr_get (buckets t) h;
  b ← lo_Append b x;
  bs ← arr_set (buckets t) h b;
  let t := mkTable bs (numBuckets t) (s32 (numItems t + 1)) in
  found ← IsInTable t key;
  ASSERT found ;;
  Ok t.

Definition Remove t k : res (T * HashTable L) :=
  bucket ← HashValue t k;
  '(found, item) ← FindInBucket t bucket k;
  ASSERT found ;;
  b ← arr_get (buckets t) bucket;
  b ← lo_Remove b item;
  bs ← arr_set (buckets t) bucket b;
  let t := mkTable bs (numBuckets t) (s32 (numItems t - 1)) in
  found ← IsInTable t k;
  ASSERT (negb found) ;;
  Ok (item, t).

Definition Apply {S} t (func : T -> S -> res S) (s : S) : res S :=
  for_range (Z.to_nat (numBuckets t)) 0 (fun bucket s =>
    b ← arr_get (buckets t) bucket; lo_Apply b func s) s.

Definition FindNextFullBucket t (bucket : Z) : res Z :=
  r ← for_return (Z.to_nat (numBuckets t - bucket)) bucket (fun i (_ : ()) =>
        b ← arr_get (buckets t) i;
        if negb (lo_IsEmpty b) then Ok (inr i) else Ok (inl ())) ();
  match r with
  | inr i => Ok i
  | inl _ => Ok (Z.max bucket (numBuckets t))
  end.

(** [HashIterator]: the bucket and the iterator in it ([None] for [NULL]). *)
Record HashIterator := mkIter { bucket : Z; bucketIter : option lo_iter }.

Definition iter_in t (bucket : Z) : res HashIterator :=
  if bucket <? numBuckets t then
    b ← arr_get (buckets t) bucket; Ok (mkIter bucket (Some (lo_begin b)))
  else Ok (mkIter bucket None).

Definition new_HashIterator t : res HashIterator :=
  b ← FindNextFullBucket t 0; iter_in t b.

Definition IsDone t (it : HashIterator) : bool := bucket it =? numBuckets t.

Definition Item t (it : HashIterator) : res T :=
  ASSERT (negb (IsDone t it)) ;;
  match bucketIter it with
  | None => Fault NullPointer
  | Some i => b ← arr_get (buckets t) (bucket it); lo_Item b i
  end.

Definition Next t (it : HashIterator) : res HashIterator :=
  match bucketIter it with
  | None => Fault NullPointer
  | Some i =>
      b ← arr_get (buckets t) (bucket it);
      i ← lo_Next b i;
      if lo_IsDone i then n ← FindNextFullBucket t (bucket it + 1); iter_in t n
      else Ok (mkIter (bucket it) (Some i))
  end.

(** [~HashTable] fails its assertion on a table that is not empty. *)
Definition delete_HashTable t : res () := ASSERT (IsEmpty t).

Definition SelfTest t (p : list T) (numEntries : Z) : res (HashTable L) :=
  iterator ← new_HashIterator t;
  SanityCheck t ;;
  ASSERT (IsEmpty t) ;;
  ASSERT (IsDone t iterator) ;;
  t ← for_range (Z.to_nat numEntries) 0 (fun i t =>
        x ← arr_get p i;
        t ← Insert t x;
        found ← IsInTable t (getKey x);
        ASSERT found ;;
        ASSERT (negb (IsEmpty t)) ;;
        Ok t) t;
  t ← for_range (Z.to_nat numEntries) 0 (fun i t =>
        x ← arr_get p i;
        '(y, t) ← Remove t (getKey x);
        ASSERT (bool_decide (y = x)) ;;
        Ok t) t;
  ASSERT (IsEmpty t) ;;
  SanityCheck t ;;
  Ok t.

(** ** Representation *)

Definition slot (n : Z) k : Z := u32 (hash k) mod n.

(** The bucket lists hold [bss], and every item is in the bucket it hashes to. *)
Definition brep (bs : list L) (n : Z) (bss : list (list T)) : Prop :=
  Forall2 lo_rep bs bss /\ zlen bss = n /\ 0 < n < 2 ^ 31 /\
  forall i b x, bss !! i = Some b -> x ∈ b -> slot n (getKey x) = Z.of_nat i.

(** The table holds the items [xs], in some order. *)
Definition holds t (xs : list T) : Prop :=
  exists bss, brep (buckets t) (numBuckets t) bss /\ concat bss ≡ₚ xs /\
              NoDup (getKey <$> xs).

Lemma slot_range n k : 0 < n -> 0 <= slot n k < n.
Proof. intros. by apply Z.mod_pos_bound. Qed.

Lemma HashValue_ok bs n m k : 0 < n < 2 ^ 31 -> HashValue (mkTable bs n m) k = Ok (slot n k).
Proof.
  intros Hn. unfold HashValue. cbn [numBuckets].
  pose proof (slot_range n k ltac:(lia)) as Hs. unfold slot in *.
  rewrite (u32_id n) by (unfold is_u32; lia). rewrite (proj2 (Z.eqb_neq _ _)) by lia.
  rewrite s32_id by (unfold is_s32; lia). rewrite ASSERT_true; [done|].
  apply andb_true_intro. lia.
Qed.

Lemma HashValue_brep t bss k : brep (buckets t) (numBuckets t) bss ->
  HashValue t k = Ok (slot (numBuckets t) k).
Proof. destruct t. intros (_ & _ & ? & _). by apply HashValue_ok. Qed.

Lemma concat_split bss i b : bss !! i = Some b ->
  exists rest, forall b', concat (<[i := b']> bss) ≡ₚ b' ++ rest.
Proof.
  intros Hi. exists (concat (take i bss) ++ concat (drop (S i) bss)). intros b'.
  apply lookup_lt_Some in Hi. rewrite insert_take_drop by done.
  rewrite concat_app. simpl. by rewrite Permutation_app_swap_app.
Qed.

Lemma concat_bucket bss i b : bss !! i = Some b ->
  exists rest, concat bss ≡ₚ b ++ rest /\
    forall b', concat (<[i := b']> bss) ≡ₚ b' ++ rest.
Proof.
  intros Hi. destruct (concat_split bss i b Hi) as [rest Hrest]. exists rest.
  split; [|done]. by rewrite <- (Hrest b), (list_insert_id _ _ _ Hi).
Qed.

Lemma bucket_at bs n bss k : brep bs n bss ->
  exists l b, arr_get bs (slot n k) = Ok l /\ bs !! Z.to_nat (slot n k) = Some l /\
    bss !! Z.to_nat (slot n k) = Some b /\ lo_rep l b.
Proof.
  intros (HF & Hn & Hpos & _). pose proof (slot_range n k ltac:(lia)) as Hs.
  destruct (lookup_lt_is_Some_2 bss (Z.to_nat (slot n k))) as [b Hb]; [unfold zlen in *; lia|].
  destruct (Forall2_lookup_r _ _ _ _ _ HF Hb) as (l & Hl & Hr).
  exists l, b. split; [|done]. apply arr_get_Some; [lia|done].
Qed.

Lemma in_concat_slot bs n bss x b : brep bs n bss -> x ∈ concat bss ->
  bss !! Z.to_nat (slot n (getKey x)) = Some b -> x ∈ b.
Proof.
  intros (_ & _ & Hpos & Hh) Hx Hb. apply list_elem_of_In in Hx.
  apply in_concat in Hx as (c & Hc & Hx). apply list_elem_of_In in Hc, Hx.
  apply list_elem_of_lookup in Hc as [i Hc]. pose proof (Hh i c x Hc Hx) as Hi.
  rewrite Hi, Nat2Z.id in Hb. by simplify_eq.
Qed.

(** Replacing one bucket by one that still hashes there. *)
Lemma brep_insert bs n bss k l b :
  brep bs n bss -> lo_rep l b -> (forall x, x ∈ b -> slot n (getKey x) = slot n k) ->
  brep (<[Z.to_nat (slot n k) := l]> bs) n (<[Z.to_nat (slot n k) := b]> bss).
Proof.
  intros (HF & Hn & Hpos & Hh) Hr Hb. pose proof (slot_range n k ltac:(lia)).
  repeat split; try lia.
  - by apply Forall2_insert.
  - by rewrite zlen_insert.
  - intros i c x Hc Hx. apply list_lookup_insert_Some in Hc as [(<- & <- & _)|[_ Hc]].
    + rewrite (Hb x Hx). lia.
    + by eapply Hh.
Qed.

Lemma arr_set_bucket bs n bss k l : brep bs n bss ->
  arr_set bs (slot n k) l = Ok (<[Z.to_nat (slot n k) := l]> bs).
Proof.
  intros (HF & Hn & Hpos & _). pose proof (slot_range n k ltac:(lia)).
  apply arr_set_lt. apply Forall2_length in HF. unfold zlen in *. lia.
Qed.

(** ** Lookup *)

(** The item with key [k] among [xs]. *)
Definition item_of k (xs : list T) : option T := snd <$> list_find (fun x => k = getKey x) xs.

Lemma item_of_Some k xs x : NoDup (getKey <$> xs) ->
  item_of k xs = Some x <-> x ∈ xs /\ getKey x = k.
Proof.
  intros Hnd. unfold item_of. rewrite fmap_Some. split.
  - intros ([i y] & Hf & ->). apply list_find_Some in Hf as (Hi & -> & _).
    split; [|done]. by eapply list_elem_of_lookup_2.
  - intros [Hx Hk]. destruct (list_find_elem_of (fun x => k = getKey x) xs x Hx (eq_sym Hk))
      as [[i y] Hf]. exists (i, y). split; [done|].
    apply list_find_Some in Hf as (Hi & Hky & _). cbn [snd].
    apply list_elem_of_lookup in Hx as [j Hj].
    assert (i = j) as ->.
    { eapply (NoDup_lookup _ _ _ k Hnd); rewrite list_lookup_fmap;
        [rewrite Hi|rewrite Hj]; simpl; by f_equal. }
    congruence.
Qed.

Lemma item_of_None k xs : item_of k xs = None <-> k ∉ getKey <$> xs.
Proof.
  unfold item_of. rewrite fmap_None, list_find_None, Forall_forall, list_elem_of_fmap.
  split; [|intros Hk x Hx ->; apply Hk; eauto]. intros Hk (x & Hx & Hin). by apply (Hk x).
Qed.

Lemma item_of_perm k xs ys : xs ≡ₚ ys -> NoDup (getKey <$> xs) ->
  item_of k xs = item_of k ys.
Proof.
  intros Hp Hnd. apply option_eq. intros x. rewrite !item_of_Some; [by rewrite Hp| |done].
  by rewrite <- Hp.
Qed.

Lemma FindInBucket_each k xs :
  for_each xs (fun x (_ : ()) =>
    if decide (k = getKey x) then Ok (inr x) else Ok (inl ())) () =
  Ok (match item_of k xs with Some x => inr x | None => inl () end).
Proof.
  unfold item_of. induction xs as [|x xs IH]; [done|]. cbn [for_each list_find].
  case_decide as Hk; [done|]. cbn [rbind]. rewrite IH.
  by destruct (list_find _ xs) as [[i y]|].
Qed.

Lemma FindInBucket_ok t bss k : brep (buckets t) (numBuckets t) bss ->
  NoDup (getKey <$> concat bss) ->
  FindInBucket t (slot (numBuckets t) k) k =
    Ok (match item_of k (concat bss) with Some x => (true, x) | None => (false, NULL) end).
Proof.
  intros Hb Hnd. unfold FindInBucket.
  destruct (bucket_at _ _ _ k Hb) as (l & b & -> & _ & Hbl & Hr). cbn [rbind].
  rewrite (for_iter_law _ _ _ _ Hr), FindInBucket_each. cbn [rbind].
  destruct (concat_bucket _ _ _ Hbl) as (rest & Hp & _).
  assert (Hndb : NoDup (getKey <$> b)).
  { rewrite Hp, fmap_app in Hnd. by apply NoDup_app in Hnd as (? & _). }
  replace (item_of k b) with (item_of k (concat bss)); [by destruct (item_of k (concat bss))|].
  apply option_eq. intros x. rewrite !item_of_Some by done.
  split; intros [Hx Hk]; (split; [|done]).
  - subst k. by eapply in_concat_slot.
  - rewrite Hp. apply elem_of_app. by left.
Qed.

Lemma holds_inv t xs : holds t xs ->
  exists bss, brep (buckets t) (numBuckets t) bss /\ concat bss ≡ₚ xs /\
    NoDup (getKey <$> xs) /\ NoDup (getKey <$> concat bss).
Proof. intros (bss & ? & Hp & ?). exists bss. by rewrite Hp. Qed.

Lemma Find_ok t xs k : holds t xs ->
  Find t k = Ok (match item_of k xs with Some x => (true, x) | None => (false, NULL) end).
Proof.
  intros (bss & Hb & Hp & Hnd & Hnd')%holds_inv. unfold Find.
  rewrite (HashValue_brep _ _ _ Hb). cbn [rbind]. rewrite (FindInBucket_ok _ _ _ Hb Hnd').
  by rewrite (item_of_perm k _ _ Hp Hnd').
Qed.

Lemma IsInTable_ok t xs k : holds t xs ->
  IsInTable t k = Ok (bool_decide (k ∈ getKey <$> xs)).
Proof.
  intros Hh. unfold IsInTable. rewrite (Find_ok t xs k Hh). cbn [rbind].
  destruct (item_of k xs) as [x|] eqn:E; cbn [fst].
  - rewrite bool_decide_eq_true_2; [done|]. destruct Hh as (_ & _ & _ & Hnd).
    apply item_of_Some in E as [Hx <-]; [|done]. by apply list_elem_of_fmap_2.
  - rewrite bool_decide_eq_false_2; [done|]. by apply item_of_None.
Qed.

(** ** Growing the table *)

Lemma fmap_NoDup_items (xs : list T) : NoDup (getKey <$> xs) -> NoDup xs.
Proof. apply NoDup_fmap_1. Qed.

Lemma zlen_concat_take bss i : zlen (concat (take i bss)) <= zlen (concat bss).
Proof.
  rewrite <- (take_drop i bss) at 2. rewrite concat_app, zlen_app.
  pose proof (zlen_nonneg (concat (drop i bss))). lia.
Qed.

Lemma concat_take_S bss i b : bss !! i = Some b ->
  concat (take (S i) bss) = concat (take i bss) ++ b.
Proof. intros Hb. rewrite (take_S_r _ _ _ Hb), concat_app. simpl. by rewrite app_nil_r. Qed.

(** The bucket with index [j]: its list and its contents. *)
Lemma brep_lookup bs n bss j : brep bs n bss -> 0 <= j < n ->
  exists l b, arr_get bs j = Ok l /\ bss !! Z.to_nat j = Some b /\ lo_rep l b /\
    forall x, x ∈ b -> slot n (getKey x) = j.
Proof.
  intros (HF & Hn & Hpos & Hh) Hj.
  destruct (lookup_lt_is_Some_2 bss (Z.to_nat j)) as [b Hb]; [unfold zlen in *; lia|].
  destruct (Forall2_lookup_r _ _ _ _ _ HF Hb) as (l & Hl & Hr).
  exists l, b. split; [apply arr_get_Some; [lia|done]|]. split; [done|]. split; [done|].
  intros x Hx. rewrite (Hh _ _ _ Hb Hx). lia.
Qed.

Lemma SanityCheck_ok t bss : brep (buckets t) (numBuckets t) bss ->
  numItems t = zlen (concat bss) -> zlen (concat bss) < 2 ^ 31 -> SanityCheck t = Ok ().
Proof.
  intros Hb Hnum Hlt. unfold SanityCheck.
  edestruct (for_range_rule (fun i nf => 0 <= i /\ nf = zlen (concat (take (Z.to_nat i) bss)))
    (Z.to_nat (numBuckets t)) 0) as (nf & -> & _ & ->).
  { done. }
  { intros j nf Hj (_ & ->). destruct (brep_lookup _ _ _ j Hb) as (l & b & -> & Hbj & Hr & Hh); [lia|].
    cbn [rbind]. rewrite (lo_SanityCheck_law _ _ Hr). cbn [rbind].
    rewrite (for_iter_law _ _ _ _ Hr), (for_each_inl _ _ (fun _ _ => ())).
    2: { intros x [] Hx. rewrite (HashValue_brep _ _ _ Hb), (Hh x Hx). cbn [rbind].
         by rewrite ASSERT_true by apply Z.eqb_refl. }
    cbn [rbind]. eexists. split; [done|]. split; [lia|].
    rewrite (lo_NumInList_law _ _ Hr), Z2Nat.inj_add, Nat.add_1_r by lia.
    rewrite (concat_take_S _ _ _ Hbj), zlen_app. apply s32_id.
    pose proof (zlen_concat_take bss (S (Z.to_nat j))) as Hle.
    rewrite (concat_take_S _ _ _ Hbj), zlen_app in Hle.
    pose proof (zlen_nonneg b). pose proof (zlen_nonneg (concat (take (Z.to_nat j) bss))).
    unfold is_s32. lia. }
  cbn [rbind]. unfold ASSERT. rewrite (proj2 (Z.eqb_eq _ _)); [done|]. rewrite Hnum.
  destruct Hb as (_ & Hn & _). f_equal. f_equal. symmetry. apply take_ge. unfold zlen in *. lia.
Qed.

(** Appending to the bucket an item hashes to. *)
Lemma Append_bucket bs n bss x : brep bs n bss -> x ∉ concat bss ->
  exists l l' bss', arr_get bs (slot n (getKey x)) = Ok l /\ lo_Append l x = Ok l' /\
    arr_set bs (slot n (getKey x)) l' = Ok (<[Z.to_nat (slot n (getKey x)) := l']> bs) /\
    brep (<[Z.to_nat (slot n (getKey x)) := l']> bs) n bss' /\ concat bss' ≡ₚ x :: concat bss.
Proof.
  intros Hb Hx. destruct (bucket_at _ _ _ (getKey x) Hb) as (l & b & Hl & _ & Hbl & Hr).
  destruct (concat_bucket _ _ _ Hbl) as (rest & Hp & Hp').
  pose proof (lo_Append_law l b x Hr) as Ha.
  rewrite decide_False in Ha by (intros Hin; apply Hx; rewrite Hp; apply elem_of_app; by left).
  destruct Ha as (l' & Ha & Hr'). exists l, l', (<[Z.to_nat (slot n (getKey x)) := b ++ [x]]> bss).
  split; [done|]. split; [done|]. split; [by eapply arr_set_bucket|]. split.
  - apply brep_insert; [done..|]. intros y [Hy|Hy]%elem_of_app; [|by apply list_elem_of_singleton in Hy as ->].
    destruct Hb as (_ & _ & Hpos & Hh). rewrite (Hh _ _ y Hbl Hy).
    pose proof (slot_range n (getKey x) ltac:(lia)). lia.
  - by rewrite (Hp' (b ++ [x])), Hp, <- Permutation_cons_append.
Qed.

(** One bucket of the old table is emptied into the new table. *)
Lemma move_bucket_ok i xs n ot t bss l :
  0 <= i -> ot !! Z.to_nat i = Some l -> lo_rep l xs -> (length xs < n)%nat ->
  brep (buckets t) (numBuckets t) bss -> NoDup (concat bss ++ xs) ->
  exists ot' t' bss', move_bucket i n (ot, t) = Ok (ot', t') /\
    numBuckets t' = numBuckets t /\ numItems t' = numItems t /\
    brep (buckets t') (numBuckets t) bss' /\ concat bss' ≡ₚ concat bss ++ xs /\
    forall j, j <> Z.to_nat i -> ot' !! j = ot !! j.
Proof.
  intros Hi. revert n ot t bss l.
  induction xs as [|x xs IH]; intros [|n] ot t bss l Hl Hr Hn Hb Hnd; try (simpl in Hn; lia);
    unfold move_bucket; cbn [loop]; rewrite (arr_get_Some _ _ l) by done; cbn [rbind];
    rewrite (lo_IsEmpty_law _ _ Hr).
  - rewrite bool_decide_eq_true_2 by done. exists ot, t, bss. by rewrite app_nil_r.
  - rewrite bool_decide_eq_false_2 by done.
    destruct (lo_RemoveFront_law _ _ Hr) as (l' & -> & Hr'). cbn [rbind].
    rewrite arr_set_lt by (apply lookup_lt_Some in Hl; unfold zlen; lia). cbn [rbind].
    rewrite (HashValue_brep _ _ _ Hb). cbn [rbind].
    assert (Hx : x ∉ concat bss).
    { apply NoDup_app in Hnd as (_ & Hd & _). intros Hin. apply (Hd _ Hin). by left. }
    destruct (Append_bucket _ _ _ x Hb Hx) as (d & d' & bss1 & -> & Ha & Hset & Hb1 & Hp1).
    cbn [rbind]. rewrite Ha. cbn [rbind]. rewrite Hset. cbn [rbind].
    set (bs' := <[_ := d']> (buckets t)) in *.
    destruct (IH n (<[Z.to_nat i := l']> ot) (set_buckets t bs') bss1 l')
      as (ot' & t' & bss' & Hm & Hn' & Hi' & Hb' & Hp' & Hot); try done.
    + apply list_lookup_insert_eq. by eapply lookup_lt_Some.
    + simpl in Hn. lia.
    + rewrite Hp1. by rewrite (Permutation_middle (concat bss) xs x).
    + exists ot', t', bss'. split_and!; try done.
      * rewrite Hp', Hp1. by rewrite (Permutation_middle (concat bss) xs x).
      * intros j Hj. rewrite Hot by done. by apply list_lookup_insert_ne.
Qed.

Lemma InitBuckets_brep t sz : 0 < sz < 2 ^ 31 ->
  brep (buckets (InitBuckets t sz)) sz (replicate (Z.to_nat sz) []).
Proof.
  intros Hsz. unfold InitBuckets. cbn [buckets]. repeat split; try lia.
  - apply Forall2_replicate. apply lo_new_rep.
  - unfold zlen. rewrite length_replicate. lia.
  - intros i b x Hb Hx. apply lookup_replicate in Hb as [-> _].
    by apply not_elem_of_nil in Hx.
Qed.

Lemma concat_replicate_nil n : concat (replicate n ([] : list T)) = [].
Proof. by induction n. Qed.

Lemma new_HashTable_holds : holds new_HashTable [] /\ numItems new_HashTable = 0.
Proof.
  split; [|done]. exists (replicate 4 []). split; [by apply (InitBuckets_brep (mkTable [] 0 0))|].
  split; [done|constructor].
Qed.

Lemma ReHash_ok t xs : holds t xs -> numItems t = zlen xs -> zlen xs < 2 ^ 31 ->
  numBuckets t * IncreaseSizeBy < 2 ^ 31 ->
  exists t', ReHash t = Ok t' /\ holds t' xs /\ numItems t' = numItems t /\
             numBuckets t' = numBuckets t * IncreaseSizeBy.
Proof.
  intros (bss & Hb & Hp & Hnd & Hnd')%holds_inv Hnum Hlt Hgrow. unfold ReHash.
  pose proof Hb as (HF & Hn & Hpos & _). unfold IncreaseSizeBy in *.
  assert (Hz : zlen (concat bss) = zlen xs) by (unfold zlen; by rewrite Hp).
  rewrite (SanityCheck_ok t bss Hb) by lia. cbn [rbind].
  rewrite (s32_id (numBuckets t * 4)) by (unfold is_s32; lia). set (n' := numBuckets t * 4) in *.
  edestruct (for_range_rule (fun i '((ot, t') : list L * HashTable L) => 0 <= i /\ numBuckets t' = n' /\
      numItems t' = numItems t /\ (forall j, (Z.to_nat i <= j)%nat -> ot !! j = buckets t !! j) /\
      exists bss', brep (buckets t') n' bss' /\ concat bss' ≡ₚ concat (take (Z.to_nat i) bss))
    (Z.to_nat (numBuckets t)) 0) as ([ot t'] & -> & _ & Hn' & Hi' & _ & bss' & Hb' & Hp').
  - split_and!; try done. exists (replicate (Z.to_nat n') []).
    split; [apply InitBuckets_brep; lia|]. by rewrite concat_replicate_nil.
  - intros j [ot t'] Hj (_ & Hn' & Hi' & Hot & bss' & Hb' & Hp').
    destruct (lookup_lt_is_Some_2 bss (Z.to_nat j)) as [b Hbj]; [unfold zlen in *; lia|].
    destruct (Forall2_lookup_r _ _ _ _ _ HF Hbj) as (l & Hl & Hr).
    rewrite <- (Hot (Z.to_nat j)) in Hl by lia.
    rewrite (arr_get_Some ot j l (proj1 Hj) Hl). cbn [rbind].
    rewrite (lo_NumInList_law _ _ Hr). rewrite <- Hn' in Hb'.
    destruct (move_bucket_ok j b (S (Z.to_nat (zlen b))) ot t' bss' l)
      as (ot2 & t2 & bss2 & -> & Hn2 & Hi2 & Hb2 & Hp2 & Hot2); try done; try lia.
    { unfold zlen. lia. }
    { rewrite Hp', <- (concat_take_S _ _ _ Hbj). apply fmap_NoDup_items in Hnd'.
      rewrite <- (take_drop (S (Z.to_nat j)) bss), concat_app in Hnd'.
      by apply NoDup_app in Hnd' as (? & _). }
    eexists. split; [done|]. rewrite Z2Nat.inj_add, Nat.add_1_r by lia.
    split; [lia|]. split; [congruence|]. split; [congruence|]. split.
    + intros k Hk. rewrite Hot2 by lia. apply Hot. lia.
    + exists bss2. rewrite Hn' in Hb2. split; [done|].
      by rewrite Hp2, Hp', (concat_take_S _ _ _ Hbj).
  - rewrite take_ge in Hp' by (unfold zlen in *; lia). rewrite <- Hn' in Hb'.
    cbn [rbind]. assert (Hz' : zlen (concat bss') = zlen xs) by (unfold zlen; by rewrite Hp', Hp).
    rewrite (SanityCheck_ok t' bss' Hb') by lia. cbn [rbind]. exists t'.
    split; [done|]. split; [|done]. exists bss'. by rewrite Hp'.
Qed.

(** ** Insert and Remove *)

(** The table is a map: the items by key, and no arithmetic overflow in sight. *)
Definition Rep t (xs : list T) : Prop := holds t xs /\ numItems t = zlen xs.

Lemma Insert_fresh t xs x : holds t xs -> numItems t = zlen xs ->
  getKey x ∉ getKey <$> xs -> zlen xs + 1 < 2 ^ 31 ->
  exists t', (h ← HashValue t (getKey x);
     b ← arr_get (buckets t) h;
     b ← lo_Append b x;
     bs ← arr_set (buckets t) h b;
     let t := mkTable bs (numBuckets t) (s32 (numItems t + 1)) in
     found ← IsInTable t (getKey x);
     ASSERT found ;;
     Ok t) = Ok t' /\ Rep t' (x :: xs).
Proof.
  intros (bss & Hb & Hp & Hnd & Hnd')%holds_inv Hnum Hk Hlt.
  rewrite (HashValue_brep _ _ _ Hb). cbn [rbind].
  assert (Hx : x ∉ concat bss) by (rewrite Hp; intros Hin; apply Hk; by apply list_elem_of_fmap_2).
  destruct (Append_bucket _ _ _ x Hb Hx) as (d & d' & bss1 & -> & Ha & Hset & Hb1 & Hp1).
  cbn [rbind]. rewrite Ha. cbn [rbind]. rewrite Hset. cbn [rbind].
  pose proof (zlen_nonneg xs). rewrite s32_id by (unfold is_s32; lia). set (t' := mkTable _ _ _).
  assert (Hh : holds t' (x :: xs)).
  { exists bss1. split; [done|]. split; [by rewrite Hp1, Hp|]. rewrite fmap_cons. by apply NoDup_cons. }
  rewrite (IsInTable_ok t' (x :: xs)) by done.
  rewrite bool_decide_eq_true_2 by (rewrite fmap_cons; by left). cbn [rbind ASSERT].
  exists t'. split; [done|]. split; [done|]. unfold t'. cbn [numItems]. rewrite Hnum.
  unfold zlen. simpl. lia.
Qed.

Lemma Insert_ok t xs x : Rep t xs -> zlen xs < 2 ^ 30 ->
  if decide (getKey x ∈ getKey <$> xs) then Insert t x = Fault AssertFailed
  else exists t', Insert t x = Ok t' /\ Rep t' (x :: xs).
Proof.
  intros [Hh Hnum] Hlt. unfold Insert. rewrite (IsInTable_ok t xs _ Hh). cbn [rbind].
  case_decide as Hk; [by rewrite bool_decide_eq_true_2|].
  rewrite bool_decide_eq_false_2 by done. cbn [negb ASSERT rbind].
  pose proof Hh as (bss & (_ & _ & Hpos & _) & _).
  rewrite (proj2 (Z.eqb_neq _ _)) by lia.
  pose proof (zlen_nonneg xs).
  destruct (Z.leb_spec ResizeRatio (Z.quot (numItems t) (numBuckets t))) as [Hge|_].
  - unfold ResizeRatio in Hge. rewrite Z.quot_div_nonneg in Hge by lia.
    assert (numBuckets t * 3 <= numItems t).
    { etransitivity; [by apply Z.mul_le_mono_nonneg_l; [lia|exact Hge]|].
      apply Z.mul_div_le. lia. }
    destruct (ReHash_ok t xs Hh Hnum) as (t' & -> & Hh' & Hnum' & _);
      [lia|unfold IncreaseSizeBy; lia|]. cbn [rbind].
    apply Insert_fresh; [done|congruence|done|lia].
  - cbn [rbind]. by apply Insert_fresh; [..|lia].
Qed.

Lemma Remove_ok t xs k : Rep t xs -> zlen xs < 2 ^ 31 ->
  match item_of k xs with
  | None => Remove t k = Fault AssertFailed
  | Some x => exists t' ys, Remove t k = Ok (x, t') /\ Rep t' ys /\ xs ≡ₚ x :: ys
  end.
Proof.
  intros [Hh Hnum] Hlt. pose proof Hh as (bss & Hb & Hp & Hnd & Hnd')%holds_inv.
  unfold Remove. rewrite (HashValue_brep _ _ _ Hb). cbn [rbind].
  rewrite (FindInBucket_ok _ _ _ Hb Hnd'), (item_of_perm k _ _ Hp Hnd').
  destruct (item_of k xs) as [x|] eqn:E; cbn [rbind ASSERT]; [|done].
  apply item_of_Some in E as [Hx Hk]; [|done].
  destruct (bucket_at _ _ _ k Hb) as (l & b & -> & _ & Hbl & Hr). cbn [rbind].
  assert (Hxb : x ∈ b) by (subst k; eapply in_concat_slot; [done|by rewrite Hp|done]).
  destruct (concat_bucket _ _ _ Hbl) as (rest & Hpc & Hpi).
  assert (Hndc : NoDup (concat bss)) by (by apply fmap_NoDup_items).
  apply list_elem_of_split in Hxb as (ys & zs & ->).
  destruct (lo_Remove_law l _ ys x zs Hr) as (l' & -> & Hr'); [|done|].
  { rewrite Hpc in Hndc. by apply NoDup_app in Hndc as (? & _). }
  cbn [rbind]. rewrite (arr_set_bucket _ _ _ _ _ Hb). cbn [rbind].
  pose proof (zlen_nonneg xs). rewrite s32_id by (unfold is_s32; lia). set (t' := mkTable _ _ _).
  assert (Hpx : xs ≡ₚ x :: ((ys ++ zs) ++ rest)).
  { rewrite <- Hp, Hpc, <- Permutation_middle. done. }
  assert (Hnd2 : (getKey x ∉ getKey <$> (ys ++ zs) ++ rest) /\
                 NoDup (getKey <$> (ys ++ zs) ++ rest)).
  { rewrite Hpx, fmap_cons in Hnd. by apply NoDup_cons in Hnd. }
  assert (Hh' : holds t' ((ys ++ zs) ++ rest)).
  { exists (<[Z.to_nat (slot (numBuckets t) k) := ys ++ zs]> bss). split; [|split; [apply Hpi|apply Hnd2]].
    apply brep_insert; [done..|]. intros y Hy. pose proof Hb as (_ & _ & Hpos & Hs).
    pose proof (slot_range (numBuckets t) k ltac:(lia)). rewrite (Hs _ _ y Hbl); [lia|set_solver]. }
  rewrite (IsInTable_ok t' _ _ Hh'). rewrite bool_decide_eq_false_2 by (subst k; apply Hnd2).
  cbn [rbind negb ASSERT]. exists t', ((ys ++ zs) ++ rest). split; [done|]. split; [|done].
  split; [done|]. unfold t'. cbn [numItems]. rewrite Hnum. unfold zlen. rewrite Hpx. simpl. lia.
Qed.

(** ** Traversals *)

Lemma foldl_apply_all {S} (f : T -> S -> res S) xs ys s :
  apply_all f (xs ++ ys) s = (s' ← apply_all f xs s; apply_all f ys s').
Proof.
  revert s. induction xs as [|x xs IH]; intros s; [done|]. cbn [app apply_all].
  destruct (f x s); [|done]. cbn [rbind]. apply IH.
Qed.

Lemma Apply_from {S} bs n bss (f : T -> S -> res S) (k m : nat) s : brep bs n bss ->
  (k + m = Z.to_nat n)%nat ->
  for_range m (Z.of_nat k) (fun bucket s =>
    b ← arr_get bs bucket; lo_Apply b f s) s = apply_all f (concat (drop k bss)) s.
Proof.
  intros Hb. revert k s. induction m as [|m IH]; intros k s Hk.
  - pose proof Hb as (_ & Hn & _). by rewrite drop_ge by (unfold zlen in *; lia).
  - destruct (brep_lookup _ _ _ (Z.of_nat k) Hb) as (l & b & Hl & Hbl & Hr & _); [lia|].
    rewrite Nat2Z.id in Hbl. rewrite (drop_S _ _ _ Hbl). cbn [concat for_range].
    rewrite Hl, foldl_apply_all. cbn [rbind]. rewrite (lo_Apply_law _ _ f s Hr).
    destruct (apply_all f b s) as [s'|]; [|done]. cbn [rbind].
    rewrite <- IH by lia. by rewrite Nat2Z.inj_succ.
Qed.

Lemma Apply_ok {S} t xs (f : T -> S -> res S) s : holds t xs ->
  exists ys, ys ≡ₚ xs /\ Apply t f s = apply_all f ys s.
Proof.
  intros (bss & Hb & Hp & _). exists (concat bss). split; [done|].
  by apply (Apply_from _ _ bss f 0 (Z.to_nat (numBuckets t)) s Hb).
Qed.

(** Buckets from [j] on up to the next full one are empty. *)
Lemma FindNextFullBucket_ok t bss j : brep (buckets t) (numBuckets t) bss ->
  0 <= j <= numBuckets t ->
  exists j', FindNextFullBucket t j = Ok j' /\ j <= j' <= numBuckets t /\
    concat (drop (Z.to_nat j) bss) = concat (drop (Z.to_nat j') bss) /\
    (j' < numBuckets t -> forall b, bss !! Z.to_nat j' = Some b -> b <> []).
Proof.
  intros Hb Hj. unfold FindNextFullBucket.
  destruct (for_return_rule
    (fun i (_ : ()) => concat (drop (Z.to_nat j) bss) = concat (drop (Z.to_nat i) bss))
    (fun j' => j <= j' < numBuckets t /\
       concat (drop (Z.to_nat j) bss) = concat (drop (Z.to_nat j') bss) /\
       forall b, bss !! Z.to_nat j' = Some b -> b <> [])
    (Z.to_nat (numBuckets t - j)) j (fun i (_ : ()) =>
        b ← arr_get (buckets t) i;
        if negb (lo_IsEmpty b) then Ok (inr i) else Ok (inl ())) ())
    as [([] & -> & HP)|(v & -> & Hv & HQ & Hne)].
  - done.
  - intros i [] Hi HP. destruct (brep_lookup _ _ _ i Hb) as (l & b & -> & Hbl & Hr & _); [lia|].
    cbn [rbind]. rewrite (lo_IsEmpty_law _ _ Hr). case_bool_decide as Hbn; cbn [negb].
    + left. exists (). split; [done|]. rewrite HP, (drop_S _ _ _ Hbl), Hbn.
      by rewrite Z2Nat.inj_add, Nat.add_1_r by lia.
    + right. exists i. split; [done|]. split_and!; try done; try lia. intros b' Hb'.
      by simplify_eq.
  - exists (Z.max j (numBuckets t)). split; [done|]. split; [lia|].
    replace (Z.max j (numBuckets t)) with (j + Z.of_nat (Z.to_nat (numBuckets t - j))) by lia.
    split; [done|lia].
  - exists v. split; [done|]. split; [lia|]. split; [done|]. intros _. exact Hne.
Qed.

(** An iterator with the items [ys] before it. *)
Definition it_at t bss (it : HashIterator) (ys : list T) : Prop :=
  match bucketIter it with
  | None => bucket it = numBuckets t /\ ys = []
  | Some i => 0 <= bucket it < numBuckets t /\
      exists l x b, arr_get (buckets t) (bucket it) = Ok l /\ lo_at l i (x :: b) /\
        ys = (x :: b) ++ concat (drop (S (Z.to_nat (bucket it))) bss)
  end.

Lemma iter_in_ok t bss j : brep (buckets t) (numBuckets t) bss -> 0 <= j <= numBuckets t ->
  exists it, (n ← FindNextFullBucket t j; iter_in t n) = Ok it /\
    it_at t bss it (concat (drop (Z.to_nat j) bss)).
Proof.
  intros Hb Hj. destruct (FindNextFullBucket_ok t bss j Hb Hj) as (j' & -> & Hj' & -> & Hne).
  cbn [rbind]. unfold iter_in. destruct (Z.ltb_spec j' (numBuckets t)) as [Hlt|Hge].
  - destruct (brep_lookup _ _ _ j' Hb) as (l & b & Hl & Hbl & Hr & _); [lia|]. rewrite Hl.
    cbn [rbind]. eexists. split; [done|]. unfold it_at. cbn [bucketIter bucket].
    split; [lia|]. destruct b as [|x b]; [by specialize (Hne Hlt _ Hbl)|].
    exists l, x, b. split; [done|]. split; [by apply lo_begin_law|]. by rewrite (drop_S _ _ _ Hbl).
  - eexists. split; [done|]. unfold it_at. cbn [bucketIter bucket]. split; [lia|].
    destruct Hb as (_ & Hn & _). by rewrite drop_ge by (unfold zlen in *; lia).
Qed.

Lemma IsDone_ok t bss it ys : it_at t bss it ys -> IsDone t it = bool_decide (ys = []).
Proof.
  unfold it_at, IsDone. destruct (bucketIter it).
  - intros (? & ? & ? & ? & _ & _ & ->). rewrite bool_decide_eq_false_2 by done. lia.
  - intros [-> ->]. rewrite bool_decide_eq_true_2 by done. apply Z.eqb_refl.
Qed.

Lemma Next_ok t bss it x ys : brep (buckets t) (numBuckets t) bss -> it_at t bss it (x :: ys) ->
  Item t it = Ok x /\ exists it', Next t it = Ok it' /\ it_at t bss it' ys.
Proof.
  intros Hb Hat. pose proof (IsDone_ok t bss it _ Hat) as Hd.
  unfold Item, Next. rewrite Hd, bool_decide_eq_false_2 by done. unfold it_at in Hat.
  destruct (bucketIter it) as [i|]; [|by destruct Hat].
  destruct Hat as (Hj & l & y & b & Hl & Hat & [= <- ->]). cbn [negb ASSERT rbind]. rewrite Hl.
  cbn [rbind]. destruct (lo_step_law _ _ _ _ Hat) as (-> & i' & -> & Hat'). split; [done|].
  cbn [rbind]. rewrite (lo_IsDone_law _ _ _ Hat'). destruct b as [|z b].
  - rewrite bool_decide_eq_true_2 by done.
    destruct (iter_in_ok t bss (bucket it + 1) Hb) as (it' & Hit & Hat2); [lia|].
    rewrite Z2Nat.inj_add, Nat.add_1_r in Hat2 by lia. by exists it'.
  - rewrite bool_decide_eq_false_2 by done. eexists. split; [done|].
    split; [done|]. by exists l, z, b.
Qed.

(** The loop the header shows for clients: [for (; !iter->IsDone(); iter->Next())
    ... iter->Item()], collecting the items; [n] bounds its iterations. *)
Definition collect t (n : nat) : res (list T) :=
  it ← new_HashIterator t;
  loop n (fun '(it, acc) =>
    if IsDone t it then Ok (inr acc)
    else x ← Item t it; it ← Next t it; Ok (inl (it, acc ++ [x]))) (it, []).

Lemma collect_walk t bss it ys acc n : brep (buckets t) (numBuckets t) bss ->
  it_at t bss it ys -> (length ys < n)%nat ->
  loop n (fun '(it, acc) =>
    if IsDone t it then Ok (inr acc)
    else x ← Item t it; it ← Next t it; Ok (inl (it, acc ++ [x]))) (it, acc) = Ok (acc ++ ys).
Proof.
  intros Hb. revert n it acc.
  induction ys as [|y ys IH]; intros [|n] it acc Hat Hn; try (simpl in Hn; lia); cbn [loop];
    rewrite (IsDone_ok _ _ _ _ Hat).
  - rewrite bool_decide_eq_true_2 by done. by rewrite app_nil_r.
  - rewrite bool_decide_eq_false_2 by done.
    destruct (Next_ok t bss it y ys Hb Hat) as (-> & it' & Hn' & Hat'). cbn [rbind].
    rewrite Hn'. cbn [rbind]. rewrite (IH n it' _ Hat') by (simpl in Hn; lia).
    by rewrite <- app_assoc.
Qed.

Lemma collect_ok t xs n : holds t xs -> (length xs < n)%nat ->
  exists ys, collect t n = Ok ys /\ ys ≡ₚ xs.
Proof.
  intros (bss & Hb & Hp & _) Hn. exists (concat bss). split; [|done]. rewrite <- Hp in Hn.
  unfold collect, new_HashIterator. pose proof Hb as (_ & _ & Hpos & _).
  destruct (iter_in_ok t bss 0 Hb) as (it & -> & Hat); [lia|]. cbn [rbind].
  by apply (collect_walk t bss it (concat bss) [] n).
Qed.

(** ** The self test *)

Lemma holds_perm t xs ys : xs ≡ₚ ys -> holds t xs -> holds t ys.
Proof.
  intros Hp (bss & Hb & Hc & Hnd). exists bss. rewrite <- Hp. by rewrite Hc.
Qed.

Lemma Rep_perm t xs ys : xs ≡ₚ ys -> Rep t xs -> Rep t ys.
Proof.
  intros Hp [Hh Hn]. split; [by apply (holds_perm t xs)|]. rewrite Hn. unfold zlen. by rewrite Hp.
Qed.

Lemma IsEmpty_ok t xs : Rep t xs -> IsEmpty t = bool_decide (xs = []).
Proof. intros [_ Hn]. unfold IsEmpty. rewrite Hn. by destruct xs. Qed.

Lemma Rep_SanityCheck t xs : Rep t xs -> zlen xs < 2 ^ 31 -> SanityCheck t = Ok ().
Proof.
  intros [(bss & Hb & Hp & _) Hn] Hlt.
  assert (zlen (concat bss) = zlen xs) by (unfold zlen; by rewrite Hp).
  apply (SanityCheck_ok t bss); [done|lia..].
Qed.

Lemma keys_split (p : list T) j x : NoDup (getKey <$> p) -> p !! j = Some x ->
  (getKey x ∉ getKey <$> take j p) /\ (getKey x ∉ getKey <$> drop (S j) p) /\
  NoDup (getKey <$> drop j p).
Proof.
  intros Hnd Hx. rewrite <- (take_drop j p), (drop_S _ _ _ Hx) in Hnd.
  rewrite (drop_S _ _ _ Hx). rewrite fmap_app, fmap_cons in Hnd.
  apply NoDup_app in Hnd as (_ & Hd & Hnd). rewrite fmap_cons. split; [|split; [|done]].
  - intros Hin. apply (Hd _ Hin). by left.
  - by apply NoDup_cons in Hnd as [? _].
Qed.

Lemma insert_test_ok t (p : list T) : Rep t [] -> NoDup (getKey <$> p) -> zlen p < 2 ^ 30 ->
  exists t', for_range (length p) 0 (fun i t =>
        x ← arr_get p i;
        t ← Insert t x;
        found ← IsInTable t (getKey x);
        ASSERT found ;;
        ASSERT (negb (IsEmpty t)) ;;
        Ok t) t = Ok t' /\ Rep t' p.
Proof.
  intros Hr Hnd Hlt.
  edestruct (for_range_rule (fun i t => 0 <= i /\ Rep t (take (Z.to_nat i) p)) (length p) 0)
    as (t1 & -> & _ & Hr1).
  { split; [lia|exact Hr]. }
  2: { replace (Z.to_nat (0 + Z.of_nat (length p))) with (length p) in Hr1 by lia.
       rewrite firstn_all in Hr1. by exists t1. }
  intros j t0 Hj (_ & Hr0). destruct (arr_get_lt p j) as (x & Hx & ->); [unfold zlen; lia|].
  destruct (keys_split p _ x Hnd Hx) as (Hk & _ & _).
  pose proof (Insert_ok t0 _ x Hr0) as Ha. rewrite decide_False in Ha by done.
  destruct Ha as (t2 & Ha & Hr2).
  { unfold zlen in *. rewrite length_take. lia. }
  cbn [rbind]. rewrite Ha. cbn [rbind]. destruct Hr2 as [Hh2 Hn2].
  rewrite (IsInTable_ok t2 _ _ Hh2), bool_decide_eq_true_2 by (rewrite fmap_cons; by left).
  cbn [rbind ASSERT]. rewrite (IsEmpty_ok t2 _ (conj Hh2 Hn2)), bool_decide_eq_false_2 by done.
  exists t2. split; [done|]. split; [lia|]. rewrite Z2Nat.inj_add, Nat.add_1_r by lia.
  rewrite (take_S_r _ _ _ Hx). eapply Rep_perm; [|by split]. apply Permutation_cons_append.
Qed.

Lemma remove_test_ok t (p : list T) : Rep t p -> zlen p < 2 ^ 31 ->
  exists t', for_range (length p) 0 (fun i t =>
        x ← arr_get p i;
        '(y, t) ← Remove t (getKey x);
        ASSERT (bool_decide (y = x)) ;;
        Ok t) t = Ok t' /\ Rep t' [].
Proof.
  intros Hr Hlt. pose proof Hr as [(_ & _ & _ & Hnd) _].
  edestruct (for_range_rule (fun i t => 0 <= i /\ Rep t (drop (Z.to_nat i) p)) (length p) 0)
    as (t1 & -> & _ & Hr1).
  { split; [lia|exact Hr]. }
  2: { replace (Z.to_nat (0 + Z.of_nat (length p))) with (length p) in Hr1 by lia.
       rewrite drop_all in Hr1. by exists t1. }
  intros j t0 Hj (_ & Hr0). destruct (arr_get_lt p j) as (x & Hx & ->); [unfold zlen; lia|].
  destruct (keys_split p _ x Hnd Hx) as (_ & _ & Hndj).
  pose proof (Remove_ok t0 _ (getKey x) Hr0) as Hrm.
  assert (Hio : item_of (getKey x) (drop (Z.to_nat j) p) = Some x).
  { apply item_of_Some; [done|]. rewrite (drop_S _ _ _ Hx). split; [by left|done]. }
  rewrite Hio in Hrm. destruct Hrm as (t2 & ys & Hrm & Hr2 & Hp).
  { unfold zlen in *. rewrite length_drop. lia. }
  cbn [rbind]. rewrite Hrm. cbn [rbind]. rewrite bool_decide_eq_true_2 by done.
  exists t2. split; [done|]. split; [lia|]. rewrite Z2Nat.inj_add, Nat.add_1_r by lia.
  eapply Rep_perm, Hr2. rewrite (drop_S _ _ _ Hx) in Hp. by apply Permutation_cons_inv in Hp.
Qed.

Lemma Hash_SelfTest_ok t (p : list T) : Rep t [] -> NoDup (getKey <$> p) -> zlen p < 2 ^ 30 ->
  exists t', SelfTest t p (zlen p) = Ok t' /\ Rep t' [].
Proof.
  intros Hr Hnd Hlt. unfold SelfTest, new_HashIterator.
  pose proof Hr as [(bss & Hb & Hp & _) _]. pose proof Hb as (_ & _ & Hpos & _).
  destruct (iter_in_ok t bss 0 Hb) as (it & -> & Hat); [lia|]. cbn [rbind].
  rewrite drop_0 in Hat. apply Permutation_nil_r in Hp. rewrite Hp in Hat.
  rewrite (Rep_SanityCheck _ _ Hr), (IsEmpty_ok _ _ Hr), (IsDone_ok _ _ _ _ Hat) by done.
  cbn [bool_decide rbind ASSERT]. unfold zlen at 1 2. rewrite Nat2Z.id.
  destruct (insert_test_ok t p Hr Hnd Hlt) as (t1 & -> & Hr1). cbn [rbind].
  destruct (remove_test_ok t1 p Hr1) as (t2 & -> & Hr2); [lia|]. cbn [rbind].
  rewrite (IsEmpty_ok _ _ Hr2), (Rep_SanityCheck _ _ Hr2) by done. by exists t2.
Qed.

(** ** The table as a finite map *)

Section as_map.
Context `{Countable K}.

Definition as_map (xs : list T) : gmap K T := list_to_map ((fun x => (getKey x, x)) <$> xs).

(** The table represents the map [M]. *)
Definition rep_map t (M : gmap K T) : Prop := exists xs, Rep t xs /\ M = as_map xs.

Lemma as_map_cons x xs : as_map (x :: xs) = <[getKey x := x]> (as_map xs).
Proof. done. Qed.

Lemma as_map_lookup xs k : as_map xs !! k = item_of k xs.
Proof.
  induction xs as [|x xs IH]; [done|]. rewrite as_map_cons. unfold item_of in *.
  cbn [list_find]. case_decide as Hk.
  - subst k. by rewrite lookup_insert_eq.
  - rewrite lookup_insert_ne, IH by congruence. by destruct (list_find _ xs) as [[? ?]|].
Qed.

Lemma as_map_keys xs k : k ∈ getKey <$> xs <-> is_Some (as_map xs !! k).
Proof.
  rewrite as_map_lookup, <- not_eq_None_Some, item_of_None.
  split; [by intros Hk Hn|]. intros Hk. by destruct (decide (k ∈ getKey <$> xs)).
Qed.

Lemma as_map_size xs : NoDup (getKey <$> xs) -> Z.of_nat (size (as_map xs)) = zlen xs.
Proof.
  induction xs as [|x xs IH]; intros Hnd; [done|].
  rewrite fmap_cons in Hnd. apply NoDup_cons in Hnd as [Hx Hnd].
  rewrite as_map_cons, map_size_insert_None.
  - unfold zlen in *. specialize (IH Hnd). simpl length. lia.
  - apply eq_None_not_Some. by rewrite <- as_map_keys.
Qed.

Lemma as_map_remove xs x ys : NoDup (getKey <$> xs) -> xs ≡ₚ x :: ys ->
  as_map ys = delete (getKey x) (as_map xs).
Proof.
  intros Hnd Hp. apply map_eq. intros k. rewrite as_map_lookup.
  pose proof Hnd as Hnd'. rewrite Hp, fmap_cons in Hnd'. apply NoDup_cons in Hnd' as [Hx Hndy].
  destruct (decide (k = getKey x)) as [->|Hk].
  - rewrite lookup_delete_eq. by apply item_of_None.
  - rewrite lookup_delete_ne, as_map_lookup by congruence.
    rewrite (item_of_perm k _ _ Hp Hnd). unfold item_of. cbn [list_find].
    rewrite decide_False by done. by destruct (list_find _ ys) as [[? ?]|].
Qed.

Lemma rep_map_inv t M : rep_map t M -> exists xs, Rep t xs /\ M = as_map xs /\
  NoDup (getKey <$> xs) /\ Z.of_nat (size M) = zlen xs.
Proof.
  intros (xs & Hr & ->). exists xs. pose proof Hr as [(_ & _ & _ & Hnd) _].
  split_and!; try done. by apply as_map_size.
Qed.

Lemma rep_map_new : rep_map new_HashTable ∅.
Proof. exists []. split; [|done]. destruct new_HashTable_holds. by split. Qed.
End as_map.
End code.

(** ** Properties *)

Section properties.
Context {L T : Type} `{ListLaws L T} {K : Type} `{Countable K}.
Context (getKey : T -> K) (hash : K -> Z) (NULL : T).

(** C28. Whatever the hash function, the table refines a finite map from keys to
    items: [Find] looks the key up, [Insert] adds an item under a new key (and
    asserts the key is new), through [ReHash] when the table has to grow, and
    [Remove] deletes the key and returns its item (and asserts it is there). *)
Theorem HashTable_refines_map (t : HashTable L) (M : gmap K T)
    (Hrep : rep_map getKey hash t M) (Hsize : Z.of_nat (size M) < 2 ^ 30) (x : T) (k : K) :
  Find getKey hash NULL t k =
    Ok (match M !! k with Some y => (true, y) | None => (false, NULL) end) /\
  match M !! getKey x with
  | Some _ => Insert getKey hash NULL t x = Fault AssertFailed
  | None => exists t', Insert getKey hash NULL t x = Ok t' /\
              rep_map getKey hash t' (<[getKey x := x]> M)
  end /\
  match M !! k with
  | None => Remove getKey hash NULL t k = Fault AssertFailed
  | Some y => exists t', Remove getKey hash NULL t k = Ok (y, t') /\
                rep_map getKey hash t' (delete k M)
  end.
Proof.
  apply rep_map_inv in Hrep as (xs & Hr & -> & Hnd & Hsz). rewrite Hsz in Hsize.
  split; [|split].
  - rewrite as_map_lookup. destruct Hr. by apply Find_ok.
  - pose proof (Insert_ok getKey hash NULL t xs x Hr Hsize) as HI.
    destruct (as_map getKey xs !! getKey x) eqn:E.
    + rewrite decide_True in HI by (rewrite as_map_keys, E; eauto). done.
    + assert (Hn : ~ (getKey x ∈ getKey <$> xs)).
      { rewrite as_map_keys, E. by intros [? ?]. }
      rewrite decide_False in HI by done.
      destruct HI as (t' & ? & ?). exists t'. split; [done|]. by exists (x :: xs).
  - pose proof (Remove_ok getKey hash NULL t xs k Hr ltac:(lia)) as HR.
    rewrite as_map_lookup. destruct (item_of getKey k xs) as [y|] eqn:E; [|done].
    destruct HR as (t' & ys & ? & ? & Hp). exists t'. split; [done|]. exists ys.
    split; [done|]. apply item_of_Some in E as [_ <-]; [|done].
    by rewrite (as_map_remove getKey xs y ys).
Qed.

(** Stepping a [HashIterator] from its construction until [IsDone] yields
    every item of the table exactly once, in the order of the buckets [Apply]
    goes through; [Apply] runs its function over the same sequence. *)
Theorem HashIterator_visits_all {S} (t : HashTable L) (xs : list T)
    (Hrep : Rep getKey hash t xs) (f : T -> S -> res S) (s : S) :
  (exists ys, collect t (Datatypes.S (length xs)) = Ok ys /\ ys ≡ₚ xs) /\
  (exists ys, Apply t f s = apply_all f ys s /\ ys ≡ₚ xs).
Proof.
  destruct Hrep as [Hh _]. split.
  - by apply (collect_ok getKey hash t xs); [|lia].
  - destruct (Apply_ok getKey hash t xs f s Hh) as (ys & ? & ?). by exists ys.
Qed.

(** [SelfTest] on a new table and any array of items with distinct keys runs
    without a failed assertion and leaves the table empty and legal. *)
Theorem Hash_SelfTest_passes (p : list T) (Hnd : NoDup (getKey <$> p)) (Hlen : zlen p < 2 ^ 30) :
  exists t, SelfTest getKey hash NULL new_HashTable p (zlen p) = Ok t /\
    rep_map getKey hash t ∅ /\ delete_HashTable t = Ok ().
Proof.
  destruct (new_HashTable_holds getKey hash) as [Hh Hn].
  destruct (Hash_SelfTest_ok getKey hash NULL new_HashTable p (conj Hh Hn) Hnd Hlen) as (t & ? & Hr).
  exists t. split; [done|]. split; [by exists []|]. unfold delete_HashTable.
  by rewrite (IsEmpty_ok getKey hash t [] Hr).
Qed.
End properties.

(** *** Witnesses, with the hash function of [lib/libtest.cc] *)

Definition HashInt (key : Z) : Z := u32 key.

Lemma HashTable_refines_map_witness :
  Find (L := Lists.List Z) id HashInt 0 new_HashTable 5 = Ok (false, 0) /\
  exists t', Insert (L := Lists.List Z) id HashInt 0 new_HashTable 9 = Ok t' /\
    rep_map id HashInt t' {[9 := 9]}.
Proof.
  destruct (HashTable_refines_map (L := Lists.List Z) id HashInt 0 new_HashTable ∅
    (rep_map_new id HashInt) ltac:(by vm_compute) 9 5) as (H1 & H2 & _).
  split; [exact H1|exact H2].
Defined.

Lemma HashIterator_visits_all_witness :
  exists ys, collect (L := Lists.List Z) new_HashTable 1 = Ok ys /\ ys ≡ₚ [].
Proof.
  apply (HashIterator_visits_all (L := Lists.List Z) id HashInt new_HashTable []
    (new_HashTable_holds id HashInt) (fun _ (_ : ()) => Ok ()) ()).
Defined.

Lemma Hash_SelfTest_passes_witness :
  exists t, SelfTest (L := Lists.List Z) id HashInt 0 new_HashTable
      [0; 1; 2; 3; 4; 5; 6; 7; 8; 9; 10; 11; 12; 13; 14] 15 = Ok t /\
    rep_map id HashInt t ∅ /\ delete_HashTable t = Ok ().
Proof.
  apply (Hash_SelfTest_passes (L := Lists.List Z) id HashInt 0
    [0; 1; 2; 3; 4; 5; 6; 7; 8; 9; 10; 11; 12; 13; 14]); [|by vm_compute].
  by apply (bool_decide_unpack _).
Defined.

(** Thirteen items do make the table grow. *)
Example ReHash_run :
  (t ← for_range 13 0 (fun i t => Insert (L := Lists.List Z) id HashInt 0 t i) new_HashTable;
   Ok (numBuckets t, numItems t)) = Ok (16, 13).
Proof. vm_compute. reflexivity. Qed.
End Hash.
