(* ===== verification/Machine.v ===== *)
(** The simulated machine ([machine/machine.h], [machine/machine.cc],
    [machine/translate.h], [machine/translate.cc]): registers, main memory,
    address translation and traps.  The kernel is what a trap or a timer tick
    calls, the interface [Kernel]. *)

From S2P Require Import Prelude Bitmap.

Module Machine.

Definition PageSize : Z := 128.
Definition NumPhysPages : Z := 128.
Definition MemorySize : Z := NumPhysPages * PageSize.
Definition TLBSize : Z := 4.

Inductive ExceptionType : Set :=
| NoException
| SyscallException
| PageFaultException
| ReadOnlyException
| BusErrorException
| AddressErrorException
| OverflowException
| IllegalInstrException.

Definition StackReg : Z := 29.
Definition RetAddrReg : Z := 31.
Definition NumGPRegs : Z := 32.
Definition HiReg : Z := 32.
Definition LoReg : Z := 33.
Definition PCReg : Z := 34.
Definition NextPCReg : Z := 35.
Definition PrevPCReg : Z := 36.
Definition LoadReg : Z := 37.
Definition LoadValueReg : Z := 38.
Definition BadVAddrReg : Z := 39.
Definition NumTotalRegs : Z := 40.

(** [machine/translate.h] *)
Record TranslationEntry := mkEntry {
  virtualPage : Z;
  physicalPage : Z;
  valid : bool;
  readOnly : bool;
  use : bool;
  dirty : bool;
}.

(** A null [tlb] or [pageTable] is [None].  The registers are [int]s, the memory
    a list of bytes. *)
Record Machine := mkMachine {
  mainMemory : list Z;
  pageTableMap : Bitmap.Bitmap;
  tlb : option (list TranslationEntry);
  pageTable : option (list TranslationEntry);
  pageTableSize : Z;
  registers : list Z;
  singleStep : bool;
  runUntilTime : Z;
}.

Definition set_registers (m : Machine) rs : Machine :=
  mkMachine (mainMemory m) (pageTableMap m) (tlb m) (pageTable m) (pageTableSize m) rs
    (singleStep m) (runUntilTime m).
Definition set_memory (m : Machine) mem : Machine :=
  mkMachine mem (pageTableMap m) (tlb m) (pageTable m) (pageTableSize m) (registers m)
    (singleStep m) (runUntilTime m).
Definition set_tables (m : Machine) t p : Machine :=
  mkMachine (mainMemory m) (pageTableMap m) t p (pageTableSize m) (registers m)
    (singleStep m) (runUntilTime m).

(** The kernel as the machine sees it, with its state [K]: the status of
    [kernel->interrupt], the trap entry point ([userprog/exception.cc]) and the
    clock ([Interrupt::OneTick], [kernel->stats->totalTicks]).  Handler and
    clock may change the machine (a system call, a context switch). *)
Inductive MachineStatus : Set := IdleMode | SystemMode | UserMode.

Class Kernel (K : Type) := {
  setStatus : MachineStatus -> K -> K;
  ExceptionHandler : ExceptionType -> Machine -> K -> res (Machine * K);
  OneTick : Machine -> K -> res (Machine * K);
  totalTicks : K -> Z;
}.

(** ** Registers and memory *)

Definition reg (m : Machine) (r : Z) : res Z := arr_get (registers m) r.
Definition set_reg (m : Machine) (r v : Z) : res Machine :=
  rs ← arr_set (registers m) r v; Ok (set_registers m rs).

Definition ReadRegister (m : Machine) (num : Z) : res Z :=
  ASSERT ((0 <=? num) && (num <? NumTotalRegs)) ;;
  reg m num.

Definition WriteRegister (m : Machine) (num value : Z) : res Machine :=
  ASSERT ((0 <=? num) && (num <? NumTotalRegs)) ;;
  set_reg m num value.

(** Reading and writing [n] consecutive bytes through a pointer into
    [mainMemory], least significant first. *)
Definition mem_read (mem : list Z) (a n : Z) : res Z :=
  if (0 <=? a) && (a + n <=? zlen mem)
  then Ok (le_combine (slice (Z.to_nat a) (Z.to_nat n) mem)) else Fault OutOfBounds.

Definition mem_write (mem : list Z) (a n v : Z) : res (list Z) :=
  if (0 <=? a) && (a + n <=? zlen mem)
  then Ok (splice (Z.to_nat a) (le_split (Z.to_nat n) v) mem) else Fault OutOfBounds.

(** The conversions are the identity on a little-endian host. *)
Definition WordToHost (word : Z) : Z := word.
Definition ShortToHost (shortword : Z) : Z := shortword.
Definition WordToMachine (word : Z) : Z := WordToHost word.
Definition ShortToMachine (shortword : Z) : Z := ShortToHost shortword.

(** The bytes of the union read as an [unsigned int]. *)
Definition CheckEndian : res () :=
  w ← mem_read [1; 2; 3; 4] 0 4;
  ASSERT (w =? 0x04030201).

(** [junk] is the array [map] of the new bitmap before it is cleared and
    [time0] the uninitialised [runUntilTime]. *)
Definition new_Machine (junk : nat -> Z) (time0 : Z) (debug : bool) : res Machine :=
  map ← Bitmap.new_Bitmap junk NumPhysPages;
  CheckEndian ;;
  Ok (mkMachine (replicate (Z.to_nat MemorySize) 0) map None None 0
        (replicate (Z.to_nat NumTotalRegs) 0) debug time0).

(** [Machine::DelayedLoad] *)
Definition DelayedLoad (m : Machine) (nextReg nextValue : Z) : res Machine :=
  r ← reg m LoadReg;
  v ← reg m LoadValueReg;
  m ← set_reg m r v;
  m ← set_reg m LoadReg nextReg;
  m ← set_reg m LoadValueReg nextValue;
  set_reg m 0 0.

(** ** Translation *)

(** The table the entry comes from, and its index there. *)
Inductive Table : Set := InTLB | InPageTable.

Definition mark_used (writing : bool) (e : TranslationEntry) : TranslationEntry :=
  mkEntry (virtualPage e) (physicalPage e) (valid e) (readOnly e) true (writing || dirty e).

(** The first entry of the TLB for the page, [None] when there is none. *)
Definition tlb_lookup (t : list TranslationEntry) (vpn : Z) : res (option (TranslationEntry * Z)) :=
  r ← for_return (Z.to_nat TLBSize) 0 (fun i (_ : ()) =>
        e ← arr_get t i;
        if valid e && (virtualPage e =? s32 vpn) then Ok (inr (e, i)) else Ok (inl ())) ();
  match r with inr ei => Ok (Some ei) | inl _ => Ok None end.

(** The middle of [Translate]: the entry for page [vpn], or the exception. *)
Definition find_entry (m : Machine) (vpn : Z)
    : res (ExceptionType + (Table * TranslationEntry * Z)) :=
  match tlb m with
  | None =>
      if pageTableSize m <=? vpn then Ok (inl AddressErrorException)
      else
        match pageTable m with
        | None => Fault NullPointer
        | Some pt =>
            e ← arr_get pt vpn;
            if negb (valid e) then Ok (inl PageFaultException)
            else Ok (inr (InPageTable, e, vpn))
        end
  | Some t =>
      r ← tlb_lookup t vpn;
      match r with
      | Some (e, i) => Ok (inr (InTLB, e, i))
      | None => Ok (inl PageFaultException)
      end
  end.

Definition set_entry (m : Machine) (t : Table) (i : Z) (e : TranslationEntry) : Machine :=
  let set := fmap (M := option) (insert (Z.to_nat i) e) in
  match t with
  | InTLB => set_tables m (set (tlb m)) (pageTable m)
  | InPageTable => set_tables m (tlb m) (set (pageTable m))
  end.

(** The physical address, or the exception. *)
Definition Translate (m : Machine) (virtAddr size : Z) (writing : bool)
    : res ((ExceptionType + Z) * Machine) :=
  if ((size =? 4) && negb (Z.land virtAddr 3 =? 0)) || ((size =? 2) && negb (Z.land virtAddr 1 =? 0))
  then Ok (inl AddressErrorException, m)
  else
    ASSERT (bool_decide (tlb m = None) || bool_decide (pageTable m = None)) ;;
    ASSERT (bool_decide (tlb m <> None) || bool_decide (pageTable m <> None)) ;;
    let vpn := u32 virtAddr / PageSize in
    let offset := u32 virtAddr mod PageSize in
    r ← find_entry m vpn;
    match r with
    | inl exn => Ok (inl exn, m)
    | inr (t, entry, i) =>
        if readOnly entry && writing then Ok (inl ReadOnlyException, m)
        else
          let pageFrame := u32 (physicalPage entry) in
          if NumPhysPages <=? pageFrame then Ok (inl BusErrorException, m)
          else
            let m := set_entry m t i (mark_used writing entry) in
            let physAddr := s32 (pageFrame * PageSize + offset) in
            ASSERT ((0 <=? physAddr) && (physAddr + size <=? MemorySize)) ;;
            Ok (inr physAddr, m)
    end.

(** ** Traps and memory access *)

Section with_kernel.
Context {K : Type} `{Kernel K}.
Implicit Types (m : Machine) (k : K).

Definition RaiseException (which : ExceptionType) (badVAddr : Z) m k : res (Machine * K) :=
  m ← set_reg m BadVAddrReg badVAddr;
  m ← DelayedLoad m 0 0;
  let k := setStatus SystemMode k in
  '(m, k) ← ExceptionHandler which m k;
  Ok (m, setStatus UserMode k).

(** The value read, [None] when [ReadMem] returns false.  A [char] is signed. *)
Definition ReadMem (addr size : Z) m k : res (option Z * Machine * K) :=
  '(r, m) ← Translate m addr size false;
  match r with
  | inl exn => '(m, k) ← RaiseException exn addr m k; Ok (None, m, k)
  | inr physicalAddress =>
      if size =? 1 then
        data ← mem_read (mainMemory m) physicalAddress 1;
        Ok (Some (if data <? 128 then data else data - 256), m, k)
      else if size =? 2 then
        data ← mem_read (mainMemory m) physicalAddress 2;
        Ok (Some (ShortToHost data), m, k)
      else if size =? 4 then
        data ← mem_read (mainMemory m) physicalAddress 4;
        Ok (Some (s32 (WordToHost data)), m, k)
      else Fault AssertFailed
  end.

Definition WriteMem (addr size value : Z) m k : res (bool * Machine * K) :=
  '(r, m) ← Translate m addr size true;
  match r with
  | inl exn => '(m, k) ← RaiseException exn addr m k; Ok (false, m, k)
  | inr physicalAddress =>
      if size =? 1 then
        mem ← mem_write (mainMemory m) physicalAddress 1 (Z.land value 0xff);
        Ok (true, set_memory m mem, k)
      else if size =? 2 then
        mem ← mem_write (mainMemory m) physicalAddress 2 (ShortToMachine (Z.land value 0xffff));
        Ok (true, set_memory m mem, k)
      else if size =? 4 then
        mem ← mem_write (mainMemory m) physicalAddress 4 (WordToMachine (u32 value));
        Ok (true, set_memory m mem, k)
      else Fault AssertFailed
  end.
End with_kernel.

(** ** Well-formed machines *)

(** Forty [int] registers, register 0 zero and the delayed load aimed at a
    general register; a full memory of bytes. *)
Definition wf_regs (rs : list Z) : Prop :=
  length rs = Z.to_nat NumTotalRegs /\ Forall is_s32 rs /\ rs !! 0%nat = Some 0 /\
  exists r, rs !! Z.to_nat LoadReg = Some r /\ 0 <= r < NumGPRegs.

Definition wf_mem (mem : list Z) : Prop := zlen mem = MemorySize /\ Forall is_byte mem.

(** The machine runs with a linear page table, as it is built. *)
Definition wf_tables (m : Machine) : Prop :=
  tlb m = None /\ exists pt, pageTable m = Some pt /\ 0 <= pageTableSize m <= zlen pt /\
  Forall (fun e => is_s32 (physicalPage e)) pt.

Definition wf (m : Machine) : Prop := wf_regs (registers m) /\ wf_mem (mainMemory m).

Lemma wf_regs_load rs r : wf_regs rs -> rs !! Z.to_nat LoadReg = Some r -> 0 <= r < NumGPRegs.
Proof. intros (_ & _ & _ & r' & Hr' & ?) Hr. by simplify_eq. Qed.

Lemma reg_ok m r : wf_regs (registers m) -> 0 <= r < NumTotalRegs ->
  exists v, reg m r = Ok v /\ registers m !! Z.to_nat r = Some v /\ is_s32 v.
Proof.
  intros (Hlen & Hs & _) Hr. unfold reg.
  destruct (arr_get_lt (registers m) r) as (v & Hv & ->).
  { unfold zlen, NumTotalRegs in *. lia. }
  exists v. split; [done|]. split; [done|]. by eapply Forall_lookup_1.
Qed.

Lemma set_reg_ok m r v : length (registers m) = Z.to_nat NumTotalRegs -> 0 <= r < NumTotalRegs ->
  set_reg m r v = Ok (set_registers m (<[Z.to_nat r := v]> (registers m))).
Proof.
  intros Hlen Hr. unfold set_reg. rewrite arr_set_lt; [done|].
  unfold zlen, NumTotalRegs in *. lia.
Qed.

(** Writing an [int] to a register that is neither register 0 nor [LoadReg]. *)
Lemma wf_regs_insert rs r v : wf_regs rs -> is_s32 v -> 0 < r < NumTotalRegs -> r <> LoadReg ->
  wf_regs (<[Z.to_nat r := v]> rs).
Proof.
  intros (Hlen & Hs & H0 & l & Hl & Hlr) Hv Hr Hne. unfold wf_regs, LoadReg in *.
  rewrite length_insert. split; [done|]. split; [by apply Forall_insert|].
  split; [rewrite list_lookup_insert_ne by lia; done|].
  exists l. by rewrite list_lookup_insert_ne by lia.
Qed.

(** The registers after [DelayedLoad]. *)
Definition delayed_load (rs : list Z) (nextReg nextValue : Z) : list Z :=
  let r := rs !!! Z.to_nat LoadReg in
  let v := rs !!! Z.to_nat LoadValueReg in
  <[0%nat := 0]> (<[Z.to_nat LoadValueReg := nextValue]>
    (<[Z.to_nat LoadReg := nextReg]> (<[Z.to_nat r := v]> rs))).

(** [DelayedLoad] only needs the target of the pending load to be a register. *)
Lemma DelayedLoad_eq m nextReg nextValue :
  length (registers m) = Z.to_nat NumTotalRegs ->
  (exists r, registers m !! Z.to_nat LoadReg = Some r /\ 0 <= r < NumGPRegs) ->
  DelayedLoad m nextReg nextValue = Ok (set_registers m (delayed_load (registers m) nextReg nextValue)).
Proof.
  intros Hlen (r & Hr & Hrange). unfold DelayedLoad, delayed_load, reg.
  rewrite (arr_get_Some _ LoadReg r) by done. cbn [rbind].
  destruct (lookup_lt_is_Some_2 (registers m) (Z.to_nat LoadValueReg)) as [v Hv].
  { rewrite Hlen. unfold LoadValueReg, NumTotalRegs. lia. }
  rewrite (arr_get_Some _ LoadValueReg v) by done. cbn [rbind].
  rewrite (list_lookup_total_correct _ _ _ Hr), (list_lookup_total_correct _ _ _ Hv).
  unfold NumGPRegs, NumTotalRegs, LoadReg, LoadValueReg in *.
  repeat (rewrite set_reg_ok; cbn [rbind set_registers registers];
    [|rewrite ?length_insert; done|unfold NumTotalRegs; lia]).
  done.
Qed.

Lemma delayed_load_wf rs nextReg nextValue :
  length rs = Z.to_nat NumTotalRegs -> Forall is_s32 rs -> 0 <= nextReg < NumGPRegs ->
  is_s32 nextValue -> wf_regs (delayed_load rs nextReg nextValue).
Proof.
  intros Hlen Hs Hn Hv. unfold delayed_load, wf_regs.
  unfold NumGPRegs, NumTotalRegs, LoadReg, LoadValueReg in *.
  rewrite !length_insert. split; [done|].
  assert (is_s32 0) by (unfold is_s32; lia).
  assert (is_s32 nextReg) by (unfold is_s32; lia).
  assert (is_s32 (rs !!! Z.to_nat 38)).
  { destruct (lookup_lt_is_Some_2 rs (Z.to_nat 38)) as [v Hv']; [lia|].
    rewrite (list_lookup_total_correct _ _ _ Hv'). by eapply Forall_lookup_1. }
  split; [by repeat apply Forall_insert|]. split.
  - apply list_lookup_insert_eq. rewrite !length_insert. lia.
  - exists nextReg. split; [|done]. rewrite !list_lookup_insert_ne by lia.
    apply list_lookup_insert_eq. rewrite length_insert. lia.
Qed.

Lemma DelayedLoad_ok m nextReg nextValue : wf m -> 0 <= nextReg < NumGPRegs -> is_s32 nextValue ->
  exists rs, DelayedLoad m nextReg nextValue = Ok (set_registers m rs) /\ wf_regs rs /\
    rs = delayed_load (registers m) nextReg nextValue.
Proof.
  intros [(Hlen & Hs & H0 & Hl) _] Hn Hv. exists (delayed_load (registers m) nextReg nextValue).
  split; [by apply DelayedLoad_eq|]. split; [by apply delayed_load_wf|done].
Qed.

(** ** Translation *)

(** The page table entry of virtual page [vpn]. *)
Definition pte (m : Machine) (vpn : Z) : option TranslationEntry :=
  match pageTable m with
  | Some pt => if vpn <? pageTableSize m then pt !! Z.to_nat vpn else None
  | None => None
  end.

(** The exception an access must cause, from the address and the page table
    alone. *)
Definition access_error (m : Machine) (virtAddr size : Z) (writing : bool) : option ExceptionType :=
  if negb (u32 virtAddr mod size =? 0) then Some AddressErrorException
  else
    match pte m (u32 virtAddr / PageSize) with
    | None => Some AddressErrorException
    | Some e =>
        if negb (valid e) then Some PageFaultException
        else if readOnly e && writing then Some ReadOnlyException
        else if (0 <=? physicalPage e) && (physicalPage e <? NumPhysPages) then None
        else Some BusErrorException
    end.

(** The physical address of a virtual one, by the page table. *)
Definition phys_addr (m : Machine) (virtAddr : Z) : option Z :=
  (fun e => physicalPage e * PageSize + u32 virtAddr mod PageSize)
    <$> pte m (u32 virtAddr / PageSize).

Definition mark_page (m : Machine) (virtAddr : Z) (writing : bool) : Machine :=
  match pte m (u32 virtAddr / PageSize) with
  | Some e => set_entry m InPageTable (u32 virtAddr / PageSize) (mark_used writing e)
  | None => m
  end.

Definition access_size (size : Z) : Prop := size = 1 \/ size = 2 \/ size = 4.

Lemma misaligned virtAddr size : access_size size ->
  ((size =? 4) && negb (Z.land virtAddr 3 =? 0)) || ((size =? 2) && negb (Z.land virtAddr 1 =? 0))
  = negb (u32 virtAddr mod size =? 0).
Proof.
  intros Hs. change 3 with (Z.ones 2). change 1 with (Z.ones 1) at 1.
  rewrite !Z.land_ones by lia. unfold u32.
  destruct Hs as [-> | [-> | ->]]; cbn [Z.eqb andb orb Pos.eqb].
  - by rewrite Z.mod_1_r.
  - f_equal. f_equal. zlia.
  - rewrite orb_false_r. f_equal. f_equal. zlia.
Qed.

Lemma aligned_in_page a size : access_size size -> a mod size = 0 -> a mod PageSize + size <= PageSize.
Proof. unfold PageSize. intros [-> | [-> | ->]] Ha; zlia. Qed.

Lemma find_entry_ok m vpn : wf_tables m -> 0 <= vpn ->
  find_entry m vpn = Ok (match pte m vpn with
    | None => inl AddressErrorException
    | Some e => if negb (valid e) then inl PageFaultException else inr (InPageTable, e, vpn)
    end).
Proof.
  intros (Ht & pt & Hpt & Hsz & _) Hv. unfold find_entry, pte. rewrite Ht, Hpt.
  destruct (Z.leb_spec (pageTableSize m) vpn), (Z.ltb_spec vpn (pageTableSize m)); try lia; [done|].
  destruct (arr_get_lt pt vpn) as (e & -> & ->); [lia|]. cbn [rbind]. by destruct (valid e).
Qed.

Lemma pte_phys m vpn e : wf_tables m -> pte m vpn = Some e -> is_s32 (physicalPage e).
Proof.
  intros (_ & pt & Hpt & _ & Hs) He. unfold pte in He. rewrite Hpt in He.
  destruct (vpn <? pageTableSize m); [|done]. exact (Forall_lookup_1 _ _ _ _ Hs He).
Qed.

Lemma frame_ok f : is_s32 f ->
  (NumPhysPages <=? u32 f) = negb ((0 <=? f) && (f <? NumPhysPages)).
Proof.
  unfold is_s32, NumPhysPages. intros Hf. destruct (Z.leb_spec 0 f) as [H0|H0]; cbn [andb].
  - rewrite u32_id by (unfold is_u32; lia). lia.
  - unfold u32. rewrite <- (Z_mod_plus_full f 1), Z.mod_small by lia. cbn [negb]. lia.
Qed.

Lemma Translate_eq m virtAddr size writing : wf_tables m -> access_size size ->
  Translate m virtAddr size writing =
    Ok (match access_error m virtAddr size writing with
        | Some exn => (inl exn, m)
        | None => (inr (default 0 (phys_addr m virtAddr)), mark_page m virtAddr writing)
        end).
Proof.
  intros Hm Hs. pose proof Hm as (Ht & pt & Hpt & _). unfold Translate, access_error.
  rewrite misaligned by done. destruct (negb _) eqn:Hal; [done|].
  rewrite Ht, Hpt, !bool_decide_eq_true_2 by done. rewrite ?orb_true_r. cbn [orb ASSERT rbind].
  pose proof (u32_range virtAddr) as Hu.
  rewrite find_entry_ok by (done || (unfold is_u32, PageSize in *; zlia)). cbn [rbind].
  unfold mark_page, phys_addr.
  destruct (pte m (u32 virtAddr / PageSize)) as [e|] eqn:He; [|done].
  destruct (valid e); [|done]. cbn [negb]. destruct (readOnly e && writing); [done|].
  rewrite (frame_ok _ (pte_phys _ _ _ Hm He)).
  destruct ((0 <=? physicalPage e) && (physicalPage e <? NumPhysPages)) eqn:Hf; cbn [negb]; [|done].
  bool_to_prop. unfold NumPhysPages in *. rewrite (u32_id (physicalPage e)) by (unfold is_u32; lia).
  pose proof (aligned_in_page (u32 virtAddr) size Hs ltac:(lia)) as Hin.
  assert (0 <= u32 virtAddr mod PageSize < PageSize) by (apply Z.mod_pos_bound; unfold PageSize; lia).
  unfold PageSize in *. rewrite s32_id by (unfold is_s32; lia).
  rewrite ASSERT_true; [done|]. unfold MemorySize, NumPhysPages, PageSize.
  destruct Hs as [-> | [-> | ->]]; lia.
Qed.

Lemma phys_addr_range m virtAddr size writing : access_size size ->
  access_error m virtAddr size writing = None ->
  exists e, pte m (u32 virtAddr / PageSize) = Some e /\ valid e = true /\
    readOnly e && writing = false /\
    phys_addr m virtAddr = Some (physicalPage e * PageSize + u32 virtAddr mod PageSize) /\
    0 <= physicalPage e < NumPhysPages /\
    u32 virtAddr mod PageSize + size <= PageSize /\ u32 virtAddr mod size = 0.
Proof.
  unfold access_error, phys_addr. intros Hs Herr.
  destruct (negb _) eqn:Hal; [done|]. bool_to_prop.
  destruct (pte m (u32 virtAddr / PageSize)) as [e|]; [|done]. exists e.
  destruct (valid e); [|done]. cbn [negb] in Herr. destruct (readOnly e && writing); [done|].
  destruct ((0 <=? physicalPage e) && (physicalPage e <? NumPhysPages)) eqn:Hf; [|done].
  bool_to_prop. split_and!; try done. by apply aligned_in_page.
Qed.

(** What translation depends on; the use and dirty bits are not part of it. *)
Definition same_map (m m' : Machine) : Prop :=
  forall vpn, (fun e => (physicalPage e, valid e, readOnly e)) <$> pte m vpn =
              (fun e => (physicalPage e, valid e, readOnly e)) <$> pte m' vpn.

Lemma same_map_access m m' virtAddr size writing : same_map m m' ->
  access_error m virtAddr size writing = access_error m' virtAddr size writing /\
  phys_addr m virtAddr = phys_addr m' virtAddr.
Proof.
  intros Hs. specialize (Hs (u32 virtAddr / PageSize)). unfold access_error, phys_addr.
  destruct (pte m _) as [e|], (pte m' _) as [e'|]; try done.
  cbn [fmap option_fmap option_map] in *. injection Hs as -> -> ->. done.
Qed.

Lemma mark_page_map m virtAddr writing : wf_tables m -> same_map m (mark_page m virtAddr writing).
Proof.
  intros (_ & pt & Hpt & Hsz & _) vpn. unfold mark_page.
  destruct (pte m (u32 virtAddr / PageSize)) as [e|] eqn:He; [|done].
  unfold pte in *. cbn [pageTable pageTableSize set_entry set_tables]. rewrite Hpt in *.
  cbn [fmap option_fmap option_map]. destruct (Z.ltb_spec vpn (pageTableSize m)); [|done].
  destruct (Z.ltb_spec (u32 virtAddr / PageSize) (pageTableSize m)); [|done].
  destruct (decide (Z.to_nat (u32 virtAddr / PageSize) = Z.to_nat vpn)) as [Heq|Hne].
  - rewrite <- Heq, He, list_lookup_insert_eq; [done|]. by eapply lookup_lt_Some.
  - by rewrite list_lookup_insert_ne.
Qed.

Lemma mark_page_frame m virtAddr writing :
  registers (mark_page m virtAddr writing) = registers m /\
  mainMemory (mark_page m virtAddr writing) = mainMemory m /\
  tlb (mark_page m virtAddr writing) = tlb m /\
  pageTableSize (mark_page m virtAddr writing) = pageTableSize m /\
  singleStep (mark_page m virtAddr writing) = singleStep m.
Proof. unfold mark_page. by destruct (pte m _). Qed.

Lemma mark_page_tables m virtAddr writing : wf_tables m -> wf_tables (mark_page m virtAddr writing).
Proof.
  intros (Ht & pt & Hpt & Hsz & Hp). unfold mark_page.
  destruct (pte m _) as [e|] eqn:He; [|by split; eauto]. split; [done|].
  cbn [pageTable pageTableSize set_entry set_tables]. rewrite Hpt. cbn [fmap option_fmap option_map].
  eexists. split; [done|]. rewrite zlen_insert. split; [done|].
  apply Forall_insert; [done|]. apply (pte_phys m (u32 virtAddr / PageSize) e); [|done].
  split; [done|]. by exists pt.
Qed.

(** ** Loads and stores *)

Lemma le_split_mod n v : le_split n (v mod 256 ^ Z.of_nat n) = le_split n v.
Proof.
  rewrite <- le_combine_split.
  pose proof (le_split_combine (le_split n v) (le_split_bytes n v)) as E.
  by rewrite length_le_split in E.
Qed.

(** The value [ReadMem] makes of the bytes it reads: bytes are signed, halfwords
    unsigned. *)
Definition extend (size v : Z) : Z :=
  if size =? 1 then (if v mod 2 ^ 8 <? 128 then v mod 2 ^ 8 else v mod 2 ^ 8 - 256)
  else if size =? 2 then v mod 2 ^ 16
  else s32 v.

Section access.
Context {K : Type} `{Kernel K}.
Implicit Types (m : Machine) (k : K).

Lemma ReadMem_eq m k virtAddr size : wf_mem (mainMemory m) -> wf_tables m -> is_s32 virtAddr ->
  access_size size ->
  ReadMem virtAddr size m k =
    match access_error m virtAddr size false with
    | Some exn => '(m, k) ← RaiseException exn virtAddr m k; Ok (None, m, k)
    | None =>
        let pa := default 0 (phys_addr m virtAddr) in
        Ok (Some (extend size (le_combine (slice (Z.to_nat pa) (Z.to_nat size) (mainMemory m)))),
            mark_page m virtAddr false, k)
    end.
Proof.
  intros [Hlen Hb] Ht Hva Hs. unfold ReadMem. rewrite Translate_eq by done.
  destruct (access_error m virtAddr size false) eqn:Herr; [done|].
  destruct (phys_addr_range _ _ _ _ Hs Herr) as (e & _ & _ & _ & -> & Hf & Hoff & _).
  cbn [rbind from_option id]. destruct (mark_page_frame m virtAddr false) as (_ & -> & _).
  pose proof (Z.mod_pos_bound (u32 virtAddr) PageSize ltac:(done)) as Hmod.
  set (pa := physicalPage e * PageSize + u32 virtAddr mod PageSize) in *.
  assert (Hpa : 0 <= pa /\ pa + size <= zlen (mainMemory m)).
  { rewrite Hlen. unfold MemorySize, NumPhysPages, PageSize in *.
    destruct Hs as [-> | [-> | ->]]; lia. }
  pose proof (le_combine_range _ (Forall_slice is_byte (Z.to_nat pa) (Z.to_nat size) _ Hb)) as Hr.
  unfold zlen in Hr. rewrite length_slice in Hr by (unfold zlen, access_size in *; lia).
  unfold mem_read, extend, WordToHost, ShortToHost.
  destruct Hs as [-> | [-> | ->]]; cbn [Z.eqb Pos.eqb];
    rewrite (proj2 (Z.leb_le 0 pa)), (proj2 (Z.leb_le (pa + _) _)) by lia; cbn [andb rbind].
  - change (Z.of_nat (Z.to_nat 1)) with 1 in Hr. by rewrite Z.mod_small by lia.
  - change (Z.of_nat (Z.to_nat 2)) with 2 in Hr. by rewrite Z.mod_small by lia.
  - done.
Qed.

(** The machine after a store that succeeds. *)
Definition store m (virtAddr size value : Z) : Machine :=
  set_memory (mark_page m virtAddr true)
    (splice (Z.to_nat (default 0 (phys_addr m virtAddr))) (le_split (Z.to_nat size) value)
       (mainMemory m)).

Lemma WriteMem_eq m k virtAddr size value : wf_mem (mainMemory m) -> wf_tables m ->
  is_s32 virtAddr -> access_size size ->
  WriteMem virtAddr size value m k =
    match access_error m virtAddr size true with
    | Some exn => '(m, k) ← RaiseException exn virtAddr m k; Ok (false, m, k)
    | None => Ok (true, store m virtAddr size value, k)
    end.
Proof.
  intros [Hlen Hb] Ht Hva Hs. unfold WriteMem, store. rewrite Translate_eq by done.
  destruct (access_error m virtAddr size true) eqn:Herr; [done|].
  destruct (phys_addr_range _ _ _ _ Hs Herr) as (e & _ & _ & _ & -> & Hf & Hoff & _).
  cbn [rbind from_option id]. destruct (mark_page_frame m virtAddr true) as (_ & -> & _).
  pose proof (Z.mod_pos_bound (u32 virtAddr) PageSize ltac:(done)) as Hmod.
  set (pa := physicalPage e * PageSize + u32 virtAddr mod PageSize) in *.
  assert (Hpa : 0 <= pa /\ pa + size <= zlen (mainMemory m)).
  { rewrite Hlen. unfold MemorySize, NumPhysPages, PageSize in *.
    destruct Hs as [-> | [-> | ->]]; lia. }
  unfold mem_write, WordToMachine, WordToHost, ShortToMachine, ShortToHost, u32.
  destruct Hs as [-> | [-> | ->]]; cbn [Z.eqb Pos.eqb];
    rewrite (proj2 (Z.leb_le 0 pa)), (proj2 (Z.leb_le (pa + _) _)) by lia; cbn [andb rbind].
  - change 0xff with (Z.ones 8). rewrite Z.land_ones by lia. by rewrite <- (le_split_mod _ value).
  - change 0xffff with (Z.ones 16). rewrite Z.land_ones by lia. by rewrite <- (le_split_mod _ value).
  - by rewrite <- (le_split_mod _ value).
Qed.

Lemma store_bounds m virtAddr size : wf_mem (mainMemory m) -> access_size size ->
  access_error m virtAddr size true = None ->
  (Z.to_nat (default 0%Z (phys_addr m virtAddr)) + Z.to_nat size <= length (mainMemory m))%nat.
Proof.
  intros [Hlen _] Hs Herr.
  destruct (phys_addr_range _ _ _ _ Hs Herr) as (e & _ & _ & _ & -> & Hf & Hoff & _).
  pose proof (Z.mod_pos_bound (u32 virtAddr) PageSize ltac:(done)) as Hmod.
  cbn [from_option id]. unfold zlen, MemorySize, NumPhysPages, PageSize in *.
  destruct Hs as [-> | [-> | ->]]; lia.
Qed.

Lemma store_wf m virtAddr size value : wf_mem (mainMemory m) -> access_size size ->
  access_error m virtAddr size true = None -> wf_mem (mainMemory (store m virtAddr size value)).
Proof.
  intros Hm Hs Herr. pose proof (store_bounds _ _ _ Hm Hs Herr) as Hin. destruct Hm as [Hlen Hb].
  split; cbn [mainMemory store set_memory].
  - unfold zlen in *. rewrite length_splice; [done|]. by rewrite length_le_split.
  - apply Forall_splice; [apply le_split_bytes|done].
Qed.

Lemma store_tables m virtAddr size value : wf_tables m ->
  wf_tables (store m virtAddr size value) /\ same_map m (store m virtAddr size value).
Proof.
  intros Ht. split.
  - by apply (mark_page_tables m virtAddr true).
  - by apply (mark_page_map m virtAddr true).
Qed.
End access.

(** ** The kernel seen from the machine *)

(** What the machine is owed by the kernel: an invariant of its own, and that
    handler and clock return a well-formed machine if they return. *)
Definition good (m : Machine) : Prop := wf m /\ wf_tables m.

Class KernelLaws (K : Type) `{Kernel K} := {
  k_inv : K -> Prop;
  setStatus_inv s k : k_inv k -> k_inv (setStatus s k);
  ExceptionHandler_inv which m k m' k' : good m -> k_inv k ->
    ExceptionHandler which m k = Ok (m', k') -> good m' /\ k_inv k';
  OneTick_inv m k m' k' : good m -> k_inv k ->
    OneTick m k = Ok (m', k') -> good m' /\ k_inv k';
}.

Section laws.
Context {K : Type} `{KernelLaws K}.
Implicit Types (m : Machine) (k : K).

(** The execution stopped inside the kernel. *)
Definition kernel_fault (f : fault) : Prop :=
  (exists which m k, ExceptionHandler which m k = Fault f) \/ (exists m k, OneTick m k = Fault f).

Definition inv m k : Prop := good m /\ k_inv k.

Lemma good_registers m rs : good m -> wf_regs rs -> good (set_registers m rs).
Proof. by intros [[_ ?] ?]. Qed.

Lemma RaiseException_ok which badVAddr m k : inv m k -> is_s32 badVAddr ->
  match RaiseException which badVAddr m k with
  | Ok (m', k') => inv m' k'
  | Fault f => kernel_fault f
  end.
Proof.
  intros [[Hwf Ht] Hk] Hv. pose proof Hwf as [Hr Hm]. unfold RaiseException.
  rewrite set_reg_ok by (apply Hr || done). cbn [rbind].
  assert (Hr' : wf_regs (<[Z.to_nat BadVAddrReg := badVAddr]> (registers m))).
  { by apply wf_regs_insert. }
  destruct (DelayedLoad_ok (set_registers m (<[Z.to_nat BadVAddrReg := badVAddr]> (registers m))) 0 0)
    as (rs & -> & Hrs & _); [by split|done|unfold is_s32; lia|]. cbn [rbind].
  destruct (ExceptionHandler _ _ _) as [[m' k']|f] eqn:E; cbn [rbind].
  - apply ExceptionHandler_inv in E as [Hg Hk']; [|split; [by split|done]|by apply setStatus_inv].
    split; [done|by apply setStatus_inv].
  - left. eauto.
Qed.

(** The values [ReadMem] gives are [int]s. *)
Lemma extend_s32 size v : access_size size -> is_s32 (extend size v).
Proof.
  intros [-> | [-> | ->]]; unfold extend; cbn [Z.eqb Pos.eqb].
  - unfold is_s32. destruct (Z.ltb_spec (v mod 2 ^ 8) 128); zlia.
  - unfold is_s32. zlia.
  - apply s32_range.
Qed.

Lemma ReadMem_ok m k virtAddr size : inv m k -> is_s32 virtAddr -> access_size size ->
  match ReadMem virtAddr size m k with
  | Ok (None, m', k') => inv m' k'
  | Ok (Some v, m', k') => inv m' k' /\ registers m' = registers m /\ is_s32 v
  | Fault f => kernel_fault f
  end.
Proof.
  intros Hinv Hva Hs. pose proof Hinv as [[[Hr Hm] Ht] Hk]. rewrite ReadMem_eq by done.
  destruct (access_error m virtAddr size false) as [exn|] eqn:Herr.
  - pose proof (RaiseException_ok exn virtAddr m k Hinv Hva) as HR.
    by destruct (RaiseException exn virtAddr m k) as [[m' k']|f].
  - destruct (mark_page_frame m virtAddr false) as (Hregs & Hmem & _).
    split; [|split; [done|by apply extend_s32]].
    split; [|done]. split; [|by apply mark_page_tables]. split; [by rewrite Hregs|by rewrite Hmem].
Qed.

Lemma WriteMem_ok m k virtAddr size value : inv m k -> is_s32 virtAddr -> access_size size ->
  match WriteMem virtAddr size value m k with
  | Ok (false, m', k') => inv m' k'
  | Ok (true, m', k') => inv m' k' /\ registers m' = registers m
  | Fault f => kernel_fault f
  end.
Proof.
  intros Hinv Hva Hs. pose proof Hinv as [[[Hr Hm] Ht] Hk]. rewrite WriteMem_eq by done.
  destruct (access_error m virtAddr size true) as [exn|] eqn:Herr.
  - pose proof (RaiseException_ok exn virtAddr m k Hinv Hva) as HR.
    by destruct (RaiseException exn virtAddr m k) as [[m' k']|f].
  - destruct (mark_page_frame m virtAddr true) as (Hregs & _).
    split; [|done]. split; [|done]. split; [|by apply store_tables].
    split; [by cbn; rewrite Hregs|by apply store_wf].
Qed.
End laws.

(** ** Properties *)

Section properties.
Context {K : Type} `{Kernel K}.

(** C23. [Translate] never fails its assertions and never reads outside the page
    table.  It reports an exception exactly when the access is misaligned or
    beyond the table, the page is invalid, read-only and written, or mapped
    outside physical memory (in this order of precedence); otherwise the
    physical address has the same page offset, lies with the whole access in
    the frame of the page's entry, and only the use and dirty bits change. *)
Theorem Translate_exact (m : Machine) (virtAddr size : Z) (writing : bool)
    (Hwf : wf_tables m) (Hva : is_s32 virtAddr) (Hsize : access_size size) :
  match access_error m virtAddr size writing with
  | Some exn => Translate m virtAddr size writing = Ok (inl exn, m)
  | None => exists e pa, pte m (u32 virtAddr / PageSize) = Some e /\
      valid e = true /\ (writing = true -> readOnly e = false) /\
      Translate m virtAddr size writing =
        Ok (inr pa, set_entry m InPageTable (u32 virtAddr / PageSize) (mark_used writing e)) /\
      pa / PageSize = physicalPage e /\ (pa + size - 1) / PageSize = physicalPage e /\
      pa mod PageSize = u32 virtAddr mod PageSize /\ 0 <= pa /\ pa + size <= MemorySize
  end.
Proof.
  rewrite Translate_eq by done.
  destruct (access_error m virtAddr size writing) eqn:Herr; [done|].
  destruct (phys_addr_range _ _ _ _ Hsize Herr) as (e & He & Hv & Hro & Hpa & Hf & Hoff & _).
  exists e, (physicalPage e * PageSize + u32 virtAddr mod PageSize).
  rewrite Hpa. unfold mark_page. rewrite He. split_and!; try done.
  { by intros ->; destruct (readOnly e). }
  all: pose proof (Z.mod_pos_bound (u32 virtAddr) PageSize ltac:(done)) as Hmod;
    unfold MemorySize, NumPhysPages in *; generalize dependent (u32 virtAddr mod PageSize);
    unfold PageSize; intros; destruct Hsize as [-> | [-> | ->]]; zlia.
Qed.

(** C35. A store and a load of the same size and address: when the page table
    lets the store through, the load returns the stored value (a byte
    sign-extended, a halfword zero-extended), the memory is as the store left
    it, and the kernel is not entered. *)
Theorem ReadMem_after_WriteMem (m : Machine) (k : K) (virtAddr size value : Z)
    (Hmem : wf_mem (mainMemory m)) (Hwf : wf_tables m) (Hva : is_s32 virtAddr)
    (Hsize : access_size size) (Hok : access_error m virtAddr size true = None) :
  exists m1 m2, WriteMem virtAddr size value m k = Ok (true, m1, k) /\
    ReadMem virtAddr size m1 k = Ok (Some (extend size value), m2, k) /\
    mainMemory m2 = mainMemory m1 /\ registers m2 = registers m.
Proof.
  exists (store m virtAddr size value), (mark_page (store m virtAddr size value) virtAddr false).
  rewrite WriteMem_eq, Hok by done. split; [done|].
  destruct (store_tables m virtAddr size value Hwf) as [Ht' Hmap].
  pose proof (store_wf m virtAddr size value Hmem Hsize Hok) as Hmem'.
  rewrite ReadMem_eq by done.
  destruct (same_map_access _ _ virtAddr size false Hmap) as [<- <-].
  assert (access_error m virtAddr size false = None) as ->.
  { unfold access_error in *. destruct (negb _); [done|]. destruct (pte m _) as [e|]; [|done].
    destruct (valid e), (readOnly e); done. }
  destruct (mark_page_frame (store m virtAddr size value) virtAddr false) as (-> & -> & _).
  split_and!; try done.
  2: { apply (mark_page_frame m virtAddr true). }
  cbn [mainMemory store set_memory].
  replace (Z.to_nat size) with (length (le_split (Z.to_nat size) value)) at 1
    by apply length_le_split.
  rewrite slice_splice by (rewrite length_le_split; by apply store_bounds).
  rewrite le_combine_split. do 4 f_equal. unfold extend.
  destruct Hsize as [-> | [-> | ->]]; cbn [Z.eqb Pos.eqb].
  - change (256 ^ Z.of_nat (Z.to_nat 1)) with (2 ^ 8). by rewrite Z.mod_mod by lia.
  - change (256 ^ Z.of_nat (Z.to_nat 2)) with (2 ^ 16). by rewrite Z.mod_mod by lia.
  - change (256 ^ Z.of_nat (Z.to_nat 4)) with (2 ^ 32). apply s32_u32.
Qed.

(** Isolation: a store that succeeds changes only bytes of the frame of a
    valid, writable page of the current page table, at the offset addressed;
    registers and translation are as before. *)
Theorem WriteMem_isolated (m m' : Machine) (k k' : K) (virtAddr size value : Z)
    (Hmem : wf_mem (mainMemory m)) (Hwf : wf_tables m) (Hva : is_s32 virtAddr)
    (Hsize : access_size size) (Hok : access_error m virtAddr size true = None)
    (Hrun : WriteMem virtAddr size value m k = Ok (true, m', k')) :
  registers m' = registers m /\ same_map m m' /\ k' = k /\
  exists e, pte m (u32 virtAddr / PageSize) = Some e /\ valid e = true /\ readOnly e = false /\
  forall i, mainMemory m' !! i <> mainMemory m !! i ->
    Z.of_nat i / PageSize = physicalPage e /\
    u32 virtAddr mod PageSize <= Z.of_nat i mod PageSize < u32 virtAddr mod PageSize + size.
Proof.
  rewrite WriteMem_eq, Hok in Hrun by done. injection Hrun as <- <-.
  split; [apply (mark_page_frame m virtAddr true)|].
  split; [by apply store_tables|]. split; [done|].
  pose proof (store_bounds _ _ _ Hmem Hsize Hok) as Hin.
  destruct (phys_addr_range _ _ _ _ Hsize Hok) as (e & He & Hv & Hro & Hpa & Hf & Hoff & _).
  exists e. split; [done|]. split; [done|]. split; [by destruct (readOnly e)|].
  intros i Hi. rewrite Hpa in Hin. cbn [from_option id] in Hin.
  destruct (decide (Z.of_nat i < physicalPage e * PageSize + u32 virtAddr mod PageSize \/
    physicalPage e * PageSize + u32 virtAddr mod PageSize + size <= Z.of_nat i)) as [Hout|Hin2].
  - destruct Hi. cbn [mainMemory store set_memory]. rewrite Hpa. cbn [from_option id].
    pose proof (Z.mod_pos_bound (u32 virtAddr) PageSize ltac:(done)).
    apply lookup_splice_out; rewrite length_le_split; [done|].
    unfold PageSize in *. destruct Hsize as [-> | [-> | ->]]; lia.
  - pose proof (Z.mod_pos_bound (u32 virtAddr) PageSize ltac:(done)) as Hmod.
    generalize dependent (u32 virtAddr mod PageSize). unfold PageSize. intros.
    destruct Hsize as [-> | [-> | ->]]; zlia.
Qed.
End properties.

(** A new machine is well-formed and has no address space yet. *)
Lemma new_Machine_wf junk time0 debug : exists m, new_Machine junk time0 debug = Ok m /\ wf m /\
  pageTable m = None /\ tlb m = None.
Proof.
  unfold new_Machine. destruct (Bitmap.new_Bitmap_ok junk NumPhysPages ltac:(done)) as (b & -> & _).
  cbn [rbind]. change CheckEndian with (Ok () : res ()). cbn [rbind].
  eexists. split; [done|]. split; [|done]. split; split; cbn [registers mainMemory].
  - apply length_replicate.
  - split; [apply Forall_replicate; unfold is_s32; lia|]. split; [done|]. exists 0. done.
  - unfold zlen. rewrite length_replicate. by apply Z2Nat.id.
  - apply Forall_replicate. unfold is_byte. lia.
Qed.

(** *** Witnesses: a machine with one writable page in frame 5 *)

Definition example_entry : TranslationEntry := mkEntry 0 5 true false false false.

Definition example_machine : Machine :=
  mkMachine (replicate (Z.to_nat MemorySize) 0) (Bitmap.mkBitmap 128 4 [0; 0; 0; 0])
    None (Some [example_entry]) 1 (replicate 40 0) false 0.

(** A kernel that does nothing, and counts ticks. *)
Definition idle_kernel : Kernel Z := {|
  setStatus _ k := k;
  ExceptionHandler _ m k := Ok (m, k);
  OneTick m k := Ok (m, k + 1);
  totalTicks k := k;
|}.

Lemma example_mem : wf_mem (mainMemory example_machine).
Proof.
  split.
  { unfold zlen. cbn [mainMemory example_machine]. rewrite length_replicate. by apply Z2Nat.id. }
  apply Forall_replicate. unfold is_byte. lia.
Qed.

Lemma example_tables : wf_tables example_machine.
Proof.
  split; [done|]. exists [example_entry]. split; [done|]. split; [unfold zlen; simpl; lia|].
  repeat constructor; unfold is_s32; simpl; lia.
Qed.

Lemma Translate_exact_witness :
  access_error example_machine 4 4 true = None /\
  exists e pa, pte example_machine 0 = Some e /\ valid e = true /\
    (true = true -> readOnly e = false) /\
    Translate example_machine 4 4 true =
      Ok (inr pa, set_entry example_machine InPageTable 0 (mark_used true e)) /\
    pa / PageSize = physicalPage e /\ (pa + 4 - 1) / PageSize = physicalPage e /\
    pa mod PageSize = 4 /\ 0 <= pa /\ pa + 4 <= MemorySize.
Proof.
  split; [reflexivity|].
  exact (Translate_exact example_machine 4 4 true example_tables ltac:(unfold is_s32; lia)
    ltac:(unfold access_size; lia)).
Defined.

Lemma ReadMem_after_WriteMem_witness :
  exists m1 m2, WriteMem (H := idle_kernel) 4 4 (-77) example_machine 0 = Ok (true, m1, 0) /\
    ReadMem (H := idle_kernel) 4 4 m1 0 = Ok (Some (-77), m2, 0) /\
    mainMemory m2 = mainMemory m1 /\ registers m2 = registers example_machine.
Proof.
  exact (ReadMem_after_WriteMem (H := idle_kernel) example_machine 0 4 4 (-77) example_mem
    example_tables ltac:(unfold is_s32; lia) ltac:(unfold access_size; lia) ltac:(reflexivity)).
Defined.

Lemma WriteMem_isolated_witness :
  exists m', WriteMem (H := idle_kernel) 4 4 (-77) example_machine 0 = Ok (true, m', 0) /\
    registers m' = registers example_machine.
Proof.
  eexists. split; [reflexivity|].
  exact (proj1 (WriteMem_isolated (H := idle_kernel) example_machine _ 0 0 4 4 (-77) example_mem
    example_tables ltac:(unfold is_s32; lia) ltac:(unfold access_size; lia) ltac:(reflexivity)
    ltac:(reflexivity))).
Defined.
End Machine.
