(* ===== verification/Mips.v ===== *)
(** The MIPS simulator ([machine/mipssim.h], [machine/mipssim.cc]), built with
    [SIM_FIX]: decoding, multiplication and the execution of one instruction,
    with its branch and load delay slots.

    The [switch] of [Machine::OneInstruction] is one function per group of
    cases here.  A case either returns early (a trap) or falls out of the
    switch with the next program counter and the delayed load it starts.
    [int] arithmetic is the host's: it wraps around at 32 bits. *)

From S2P Require Import Prelude Bitmap Machine.
Import Machine.

Module Mips.

(** ** Operation codes *)

Inductive OpCode : Set :=
| OP_ADD | OP_ADDI | OP_ADDIU | OP_ADDU | OP_AND | OP_ANDI | OP_BEQ | OP_BGEZ
| OP_BGEZAL | OP_BGTZ | OP_BLEZ | OP_BLTZ | OP_BLTZAL | OP_BNE
| OP_DIV | OP_DIVU | OP_J | OP_JAL | OP_JALR | OP_JR | OP_LB | OP_LBU | OP_LH
| OP_LHU | OP_LUI | OP_LW | OP_LWL | OP_LWR
| OP_MFHI | OP_MFLO | OP_MTHI | OP_MTLO | OP_MULT | OP_MULTU | OP_NOR | OP_OR
| OP_ORI | OP_RFE | OP_SB | OP_SH | OP_SLL | OP_SLLV | OP_SLT | OP_SLTI
| OP_SLTIU | OP_SLTU | OP_SRA | OP_SRAV | OP_SRL | OP_SRLV | OP_SUB | OP_SUBU
| OP_SW | OP_SWL | OP_SWR | OP_XOR | OP_XORI | OP_SYSCALL | OP_UNIMP | OP_RES
| SPECIAL | BCOND.

#[global] Instance OpCode_eq_dec : EqDecision OpCode.
Proof. solve_decision. Defined.

Inductive Format : Set := IFMT | JFMT | RFMT.

Definition IndexToAddr (x : Z) : Z := s32 (Z.shiftl x 2).
Definition SIGN_BIT : Z := 0x80000000.
Definition R31 : Z := 31.

(** Bits 31 to 26 of the instruction select an entry. *)
Definition opTable : list (OpCode * Format) := [
  (SPECIAL, RFMT); (BCOND, IFMT); (OP_J, JFMT); (OP_JAL, JFMT);
  (OP_BEQ, IFMT); (OP_BNE, IFMT); (OP_BLEZ, IFMT); (OP_BGTZ, IFMT);
  (OP_ADDI, IFMT); (OP_ADDIU, IFMT); (OP_SLTI, IFMT); (OP_SLTIU, IFMT);
  (OP_ANDI, IFMT); (OP_ORI, IFMT); (OP_XORI, IFMT); (OP_LUI, IFMT);
  (OP_UNIMP, IFMT); (OP_UNIMP, IFMT); (OP_UNIMP, IFMT); (OP_UNIMP, IFMT);
  (OP_RES, IFMT); (OP_RES, IFMT); (OP_RES, IFMT); (OP_RES, IFMT);
  (OP_RES, IFMT); (OP_RES, IFMT); (OP_RES, IFMT); (OP_RES, IFMT);
  (OP_RES, IFMT); (OP_RES, IFMT); (OP_RES, IFMT); (OP_RES, IFMT);
  (OP_LB, IFMT); (OP_LH, IFMT); (OP_LWL, IFMT); (OP_LW, IFMT);
  (OP_LBU, IFMT); (OP_LHU, IFMT); (OP_LWR, IFMT); (OP_RES, IFMT);
  (OP_SB, IFMT); (OP_SH, IFMT); (OP_SWL, IFMT); (OP_SW, IFMT);
  (OP_RES, IFMT); (OP_RES, IFMT); (OP_SWR, IFMT); (OP_RES, IFMT);
  (OP_UNIMP, IFMT); (OP_UNIMP, IFMT); (OP_UNIMP, IFMT); (OP_UNIMP, IFMT);
  (OP_RES, IFMT); (OP_RES, IFMT); (OP_RES, IFMT); (OP_RES, IFMT);
  (OP_UNIMP, IFMT); (OP_UNIMP, IFMT); (OP_UNIMP, IFMT); (OP_UNIMP, IFMT);
  (OP_RES, IFMT); (OP_RES, IFMT); (OP_RES, IFMT); (OP_RES, IFMT)].

(** The "funct" field of [SPECIAL] instructions. *)
Definition specialTable : list OpCode := [
  OP_SLL; OP_RES; OP_SRL; OP_SRA; OP_SLLV; OP_RES; OP_SRLV; OP_SRAV;
  OP_JR; OP_JALR; OP_RES; OP_RES; OP_SYSCALL; OP_UNIMP; OP_RES; OP_RES;
  OP_MFHI; OP_MTHI; OP_MFLO; OP_MTLO; OP_RES; OP_RES; OP_RES; OP_RES;
  OP_MULT; OP_MULTU; OP_DIV; OP_DIVU; OP_RES; OP_RES; OP_RES; OP_RES;
  OP_ADD; OP_ADDU; OP_SUB; OP_SUBU; OP_AND; OP_OR; OP_XOR; OP_NOR;
  OP_RES; OP_RES; OP_SLT; OP_SLTU; OP_RES; OP_RES; OP_RES; OP_RES;
  OP_RES; OP_RES; OP_RES; OP_RES; OP_RES; OP_RES; OP_RES; OP_RES;
  OP_RES; OP_RES; OP_RES; OP_RES; OP_RES; OP_RES; OP_RES; OP_RES].

(** ** Decoding *)

Record Instruction := mkInstruction {
  value : Z;
  opCode : OpCode;
  rs : Z;
  rt : Z;
  rd : Z;
  extra : Z;
}.

Definition Decode (value : Z) : res Instruction :=
  let rs := Z.land (Z.shiftr value 21) 0x1f in
  let rt := Z.land (Z.shiftr value 16) 0x1f in
  let rd := Z.land (Z.shiftr value 11) 0x1f in
  '(opCode, format) ← arr_get opTable (Z.land (Z.shiftr value 26) 0x3f);
  let extra :=
    match format with
    | IFMT =>
        let extra := Z.land value 0xffff in
        if negb (Z.land extra 0x8000 =? 0) then s32 (Z.lor extra 0xffff0000) else extra
    | RFMT => Z.land (Z.shiftr value 6) 0x1f
    | JFMT => Z.land value 0x3ffffff
    end in
  opCode ← match opCode with
           | SPECIAL => arr_get specialTable (Z.land value 0x3f)
           | BCOND =>
               let i := Z.land value 0x1f0000 in
               Ok (if i =? 0 then OP_BLTZ
                   else if i =? 0x10000 then OP_BGEZ
                   else if i =? 0x100000 then OP_BLTZAL
                   else if i =? 0x110000 then OP_BGEZAL
                   else OP_UNIMP)
           | _ => Ok opCode
           end;
  Ok (mkInstruction value opCode rs rt rd extra).

(** ** Multiplication *)

(** The state of the loop: [a], [bLo], [bHi], [lo], [hi]. *)
Definition mult_step (st : Z * Z * Z * Z * Z) : res ((Z * Z * Z * Z * Z) + (Z * Z)) :=
  let '(a, bLo, bHi, lo, hi) := st in
  let '(lo, hi) :=
    if negb (Z.land a 1 =? 0) then
      let lo := u32 (lo + bLo) in
      let hi := if lo <? bLo then u32 (hi + 1) else hi in
      (lo, u32 (hi + bHi))
    else (lo, hi) in
  if negb (Z.land a 1 =? 0) && (Z.land (u32 a) 0xfffffffe =? 0) then Ok (inr (lo, hi))
  else
    let bHi := u32 (Z.shiftl bHi 1) in
    let bHi := if negb (Z.land bLo 0x80000000 =? 0) then Z.lor bHi 1 else bHi in
    Ok (inl (Z.shiftr a 1, u32 (Z.shiftl bLo 1), bHi, lo, hi)).

(** [*hiPtr] and [*loPtr]. *)
Definition Mult (a b : Z) (signedArith : bool) : res (Z * Z) :=
  if (a =? 0) || (b =? 0) then Ok (0, 0)
  else
    let '(negative, a) :=
      if signedArith && (a <? 0) then (true, s32 (- a)) else (false, a) in
    let '(negative, b) :=
      if signedArith && (b <? 0) then (negb negative, s32 (- b)) else (negative, b) in
    r ← for_return 32 0 (fun _ st => mult_step st) (a, u32 b, 0, 0, 0);
    let '(lo, hi) :=
      match r with inl (_, _, _, lo, hi) => (lo, hi) | inr lohi => lohi end in
    let '(lo, hi) :=
      if negative then
        let hi := u32 (Z.lnot hi) in
        let lo := u32 (Z.lnot lo) in
        let lo := u32 (lo + 1) in
        (lo, if lo =? 0 then u32 (hi + 1) else hi)
      else (lo, hi) in
    Ok (s32 hi, s32 lo).

(** ** Execution *)

Section with_kernel.
Context {K : Type} `{Kernel K}.
Implicit Types (m : Machine) (k : K) (i : Instruction) (pcAfter : Z).

(** How a case of the switch ends: [Return] is the C++ [return] after a trap,
    [Break m k pcAfter nextLoadReg nextLoadValue] falls out of the switch. *)
Inductive Case : Type :=
| Return (m : Machine) (k : K)
| Break (m : Machine) (k : K) (pcAfter nextLoadReg nextLoadValue : Z).

Definition trap (which : ExceptionType) (badVAddr : Z) m k : res Case :=
  '(m, k) ← RaiseException which badVAddr m k; Ok (Return m k).

(** [registers[r] = v; break;] *)
Definition assign pcAfter m k (r v : Z) : res Case :=
  m ← set_reg m r v;
  Ok (Break m k pcAfter 0 0).

(** The cases from [OP_ADD] to [OP_ANDI]. *)
Definition exec_add i pcAfter m k : res Case :=
  a ← reg m (rs i);
  b ← reg m (rt i);
  match opCode i with
  | OP_ADD =>
      let sum := s32 (a + b) in
      if (Z.land (Z.lxor a b) SIGN_BIT =? 0) && negb (Z.land (Z.lxor a sum) SIGN_BIT =? 0)
      then trap OverflowException 0 m k
      else assign pcAfter m k (rd i) sum
  | OP_ADDI =>
      let sum := s32 (a + extra i) in
      if (Z.land (Z.lxor a (extra i)) SIGN_BIT =? 0) &&
         negb (Z.land (Z.lxor (extra i) sum) SIGN_BIT =? 0)
      then trap OverflowException 0 m k
      else assign pcAfter m k (rt i) sum
  | OP_ADDIU => assign pcAfter m k (rt i) (s32 (a + extra i))
  | OP_ADDU => assign pcAfter m k (rd i) (s32 (a + b))
  | OP_AND => assign pcAfter m k (rd i) (Z.land a b)
  | OP_ANDI => assign pcAfter m k (rt i) (Z.land a (Z.land (extra i) 0xffff))
  | _ => Fault AssertFailed
  end.

(** [OP_NOR], [OP_OR], [OP_ORI]. *)
Definition exec_or i pcAfter m k : res Case :=
  a ← reg m (rs i);
  b ← reg m (rt i);
  match opCode i with
  | OP_NOR => assign pcAfter m k (rd i) (Z.lnot (Z.lor a b))
  | OP_OR => assign pcAfter m k (rd i) (Z.lor a b)
  | OP_ORI => assign pcAfter m k (rt i) (Z.lor a (Z.land (extra i) 0xffff))
  | _ => Fault AssertFailed
  end.

(** The cases from [OP_SLL] to [OP_SRLV]: shifts and comparisons. *)
Definition exec_shift i pcAfter m k : res Case :=
  a ← reg m (rs i);
  b ← reg m (rt i);
  match opCode i with
  | OP_SLL => assign pcAfter m k (rd i) (s32 (Z.shiftl b (extra i)))
  | OP_SLLV => assign pcAfter m k (rd i) (s32 (Z.shiftl b (Z.land a 0x1f)))
  | OP_SLT => assign pcAfter m k (rd i) (if a <? b then 1 else 0)
  | OP_SLTI => assign pcAfter m k (rt i) (if a <? extra i then 1 else 0)
  | OP_SLTIU =>
      let urs := u32 a in
      let imm := u32 (extra i) in
      assign pcAfter m k (rt i) (if urs <? imm then 1 else 0)
  | OP_SLTU =>
      let urs := u32 a in
      let urt := u32 b in
      assign pcAfter m k (rd i) (if urs <? urt then 1 else 0)
  | OP_SRA => assign pcAfter m k (rd i) (Z.shiftr b (extra i))
  | OP_SRAV => assign pcAfter m k (rd i) (Z.shiftr b (Z.land a 0x1f))
  | OP_SRL =>
      let tmp := b in
      let tmp := Z.shiftr tmp (extra i) in
      assign pcAfter m k (rd i) tmp
  | OP_SRLV =>
      let tmp := b in
      let tmp := Z.shiftr tmp (Z.land a 0x1f) in
      assign pcAfter m k (rd i) tmp
  | _ => Fault AssertFailed
  end.

(** [OP_XOR], [OP_XORI]. *)
Definition exec_xor i pcAfter m k : res Case :=
  a ← reg m (rs i);
  b ← reg m (rt i);
  match opCode i with
  | OP_XOR => assign pcAfter m k (rd i) (Z.lxor a b)
  | OP_XORI => assign pcAfter m k (rt i) (Z.lxor a (Z.land (extra i) 0xffff))
  | _ => Fault AssertFailed
  end.

(** Writing the two words of a product, or quotient and remainder. *)
Definition set_hilo pcAfter m k (hi lo : Z) : res Case :=
  m ← set_reg m LoReg lo;
  m ← set_reg m HiReg hi;
  Ok (Break m k pcAfter 0 0).

(** Division.  The quotient that does not fit an [int] traps the host. *)
Definition exec_div i pcAfter m k : res Case :=
  a ← reg m (rs i);
  b ← reg m (rt i);
  match opCode i with
  | OP_DIV =>
      if b =? 0 then set_hilo pcAfter m k 0 0
      else if (a =? - 2 ^ 31) && (b =? -1) then Fault ArithTrap
      else set_hilo pcAfter m k (Z.rem a b) (Z.quot a b)
  | OP_DIVU =>
      let urs := u32 a in
      let urt := u32 b in
      if urt =? 0 then set_hilo pcAfter m k 0 0
      else set_hilo pcAfter m k (s32 (urs mod urt)) (s32 (urs / urt))
  | _ => Fault AssertFailed
  end.

(** The cases from [OP_MFHI] to [OP_MULTU]. *)
Definition exec_hilo i pcAfter m k : res Case :=
  a ← reg m (rs i);
  b ← reg m (rt i);
  match opCode i with
  | OP_MFHI => v ← reg m HiReg; assign pcAfter m k (rd i) v
  | OP_MFLO => v ← reg m LoReg; assign pcAfter m k (rd i) v
  | OP_MTHI => assign pcAfter m k HiReg a
  | OP_MTLO => assign pcAfter m k LoReg a
  | OP_MULT => '(hi, lo) ← Mult a b true; set_hilo pcAfter m k hi lo
  | OP_MULTU => '(hi, lo) ← Mult a b false; set_hilo pcAfter m k hi lo
  | _ => Fault AssertFailed
  end.

(** Branches and jumps.  The "and link" forms write register 31 (or [rd])
    before they read [rs]. *)
Definition branch (taken : bool) i pcAfter m k : res Case :=
  npc ← reg m NextPCReg;
  Ok (Break m k (if taken then s32 (npc + IndexToAddr (extra i)) else pcAfter) 0 0).

Definition link (r : Z) m : res Machine :=
  npc ← reg m NextPCReg; set_reg m r (s32 (npc + 4)).

Definition exec_branch i pcAfter m k : res Case :=
  match opCode i with
  | OP_BEQ => a ← reg m (rs i); b ← reg m (rt i); branch (a =? b) i pcAfter m k
  | OP_BNE => a ← reg m (rs i); b ← reg m (rt i); branch (negb (a =? b)) i pcAfter m k
  | OP_BGEZAL => m ← link R31 m; a ← reg m (rs i); branch (Z.land a SIGN_BIT =? 0) i pcAfter m k
  | OP_BGEZ => a ← reg m (rs i); branch (Z.land a SIGN_BIT =? 0) i pcAfter m k
  | OP_BGTZ => a ← reg m (rs i); branch (0 <? a) i pcAfter m k
  | OP_BLEZ => a ← reg m (rs i); branch (a <=? 0) i pcAfter m k
  | OP_BLTZAL => m ← link R31 m; a ← reg m (rs i); branch (negb (Z.land a SIGN_BIT =? 0)) i pcAfter m k
  | OP_BLTZ => a ← reg m (rs i); branch (negb (Z.land a SIGN_BIT =? 0)) i pcAfter m k
  | _ => Fault AssertFailed
  end.

Definition jump_index i pcAfter m k : res Case :=
  Ok (Break m k (s32 (Z.lor (Z.land pcAfter 0xf0000000) (IndexToAddr (extra i)))) 0 0).

Definition exec_jump i pcAfter m k : res Case :=
  match opCode i with
  | OP_JAL => m ← link R31 m; jump_index i pcAfter m k
  | OP_J => jump_index i pcAfter m k
  | OP_JALR => m ← link (rd i) m; a ← reg m (rs i); Ok (Break m k a 0 0)
  | OP_JR => a ← reg m (rs i); Ok (Break m k a 0 0)
  | _ => Fault AssertFailed
  end.

(** The cases from [OP_LB] to [OP_LW].  A loaded value reaches its register one
    instruction later. *)
Definition load_to i (value : Z) pcAfter m k : res Case :=
  Ok (Break m k pcAfter (rt i) value).

Definition exec_load i pcAfter m k : res Case :=
  a ← reg m (rs i);
  let tmp := s32 (a + extra i) in
  match opCode i with
  | OP_LB | OP_LBU =>
      '(r, m, k) ← ReadMem tmp 1 m k;
      match r with
      | None => Ok (Return m k)
      | Some value =>
          load_to i (if negb (Z.land value 0x80 =? 0) && bool_decide (opCode i = OP_LB)
                     then s32 (Z.lor value 0xffffff00) else Z.land value 0xff) pcAfter m k
      end
  | OP_LH | OP_LHU =>
      if negb (Z.land tmp 1 =? 0) then trap AddressErrorException tmp m k
      else
        '(r, m, k) ← ReadMem tmp 2 m k;
        match r with
        | None => Ok (Return m k)
        | Some value =>
            load_to i (if negb (Z.land value 0x8000 =? 0) && bool_decide (opCode i = OP_LH)
                       then s32 (Z.lor value 0xffff0000) else Z.land value 0xffff) pcAfter m k
        end
  | OP_LUI => assign pcAfter m k (rt i) (s32 (Z.shiftl (extra i) 16))
  | OP_LW =>
      if negb (Z.land tmp 3 =? 0) then trap AddressErrorException tmp m k
      else
        '(r, m, k) ← ReadMem tmp 4 m k;
        match r with
        | None => Ok (Return m k)
        | Some value => load_to i value pcAfter m k
        end
  | _ => Fault AssertFailed
  end.

(** The second switch of [OP_LWL] and of [OP_LWR], on [3 - byte]. *)
Definition lwl_merge (byte value nextLoadValue : Z) : Z :=
  if 3 - byte =? 0 then value
  else if 3 - byte =? 1 then s32 (Z.lor (Z.land nextLoadValue 0xff) (s32 (Z.shiftl value 8)))
  else if 3 - byte =? 2 then s32 (Z.lor (Z.land nextLoadValue 0xffff) (s32 (Z.shiftl value 16)))
  else if 3 - byte =? 3 then s32 (Z.lor (Z.land nextLoadValue 0xffffff) (s32 (Z.shiftl value 24)))
  else nextLoadValue.

Definition lwr_merge (byte value nextLoadValue : Z) : Z :=
  if 3 - byte =? 0 then
    s32 (Z.lor (Z.land nextLoadValue 0xffffff00) (Z.land (Z.shiftr value 24) 0xff))
  else if 3 - byte =? 1 then
    s32 (Z.lor (Z.land nextLoadValue 0xffff0000) (Z.land (Z.shiftr value 16) 0xffff))
  else if 3 - byte =? 2 then
    s32 (Z.lor (Z.land nextLoadValue 0xff000000) (Z.land (Z.shiftr value 8) 0xffffff))
  else if 3 - byte =? 3 then value
  else nextLoadValue.

Definition exec_load_unaligned i pcAfter m k : res Case :=
  a ← reg m (rs i);
  let tmp := s32 (a + extra i) in
  let byte := Z.land tmp 3 in
  '(r, m, k) ← ReadMem (s32 (tmp - byte)) 4 m k;
  match r with
  | None => Ok (Return m k)
  | Some value =>
      l ← reg m LoadReg;
      nextLoadValue ← (if l =? rt i then reg m LoadValueReg else reg m (rt i));
      match opCode i with
      | OP_LWL => load_to i (lwl_merge byte value nextLoadValue) pcAfter m k
      | OP_LWR => load_to i (lwr_merge byte value nextLoadValue) pcAfter m k
      | _ => Fault AssertFailed
      end
  end.

(** Stores. *)
Definition stored pcAfter (r : bool * Machine * K) : res Case :=
  let '(ok, m, k) := r in
  if ok then Ok (Break m k pcAfter 0 0) else Ok (Return m k).

Definition exec_store i pcAfter m k : res Case :=
  a ← reg m (rs i);
  b ← reg m (rt i);
  let addr := s32 (u32 (a + extra i)) in
  match opCode i with
  | OP_SB => r ← WriteMem addr 1 b m k; stored pcAfter r
  | OP_SH => r ← WriteMem addr 2 b m k; stored pcAfter r
  | _ => Fault AssertFailed
  end.

(** [OP_SUB], [OP_SUBU], [OP_SW]. *)
Definition exec_sub i pcAfter m k : res Case :=
  a ← reg m (rs i);
  b ← reg m (rt i);
  match opCode i with
  | OP_SUB =>
      let diff := s32 (a - b) in
      if negb (Z.land (Z.lxor a b) SIGN_BIT =? 0) && negb (Z.land (Z.lxor a diff) SIGN_BIT =? 0)
      then trap OverflowException 0 m k
      else assign pcAfter m k (rd i) diff
  | OP_SUBU => assign pcAfter m k (rd i) (s32 (a - b))
  | OP_SW => r ← WriteMem (s32 (u32 (a + extra i))) 4 b m k; stored pcAfter r
  | _ => Fault AssertFailed
  end.

(** The second switch of [OP_SWL] and of [OP_SWR]; [r] is the register stored. *)
Definition swl_merge (byte value r : Z) : Z :=
  if 3 - byte =? 0 then r
  else if 3 - byte =? 1 then
    s32 (Z.lor (Z.land value 0xff000000) (Z.land (Z.shiftr r 8) 0xffffff))
  else if 3 - byte =? 2 then
    s32 (Z.lor (Z.land value 0xffff0000) (Z.land (Z.shiftr r 16) 0xffff))
  else if 3 - byte =? 3 then
    s32 (Z.lor (Z.land value 0xffffff00) (Z.land (Z.shiftr r 24) 0xff))
  else value.

Definition swr_merge (byte value r : Z) : Z :=
  if 3 - byte =? 0 then s32 (Z.lor (Z.land value 0xffffff) (s32 (Z.shiftl r 24)))
  else if 3 - byte =? 1 then s32 (Z.lor (Z.land value 0xffff) (s32 (Z.shiftl r 16)))
  else if 3 - byte =? 2 then s32 (Z.lor (Z.land value 0xff) (s32 (Z.shiftl r 8)))
  else if 3 - byte =? 3 then r
  else value.

Definition exec_store_unaligned i pcAfter m k : res Case :=
  a ← reg m (rs i);
  let tmp := s32 (a + extra i) in
  let byte := Z.land tmp 3 in
  '(r, m, k) ← ReadMem (s32 (tmp - byte)) 4 m k;
  match r with
  | None => Ok (Return m k)
  | Some value =>
      b ← reg m (rt i);
      match opCode i with
      | OP_SWL => r ← WriteMem (s32 (tmp - byte)) 4 (swl_merge byte value b) m k; stored pcAfter r
      | OP_SWR => r ← WriteMem (s32 (tmp - byte)) 4 (swr_merge byte value b) m k; stored pcAfter r
      | _ => Fault AssertFailed
      end
  end.

(** The switch. *)
Definition exec i pcAfter m k : res Case :=
  match opCode i with
  | OP_ADD | OP_ADDI | OP_ADDIU | OP_ADDU | OP_AND | OP_ANDI => exec_add i pcAfter m k
  | OP_BEQ | OP_BGEZ | OP_BGEZAL | OP_BGTZ | OP_BLEZ | OP_BLTZ | OP_BLTZAL | OP_BNE =>
      exec_branch i pcAfter m k
  | OP_DIV | OP_DIVU => exec_div i pcAfter m k
  | OP_J | OP_JAL | OP_JALR | OP_JR => exec_jump i pcAfter m k
  | OP_LB | OP_LBU | OP_LH | OP_LHU | OP_LUI | OP_LW => exec_load i pcAfter m k
  | OP_LWL | OP_LWR => exec_load_unaligned i pcAfter m k
  | OP_MFHI | OP_MFLO | OP_MTHI | OP_MTLO | OP_MULT | OP_MULTU => exec_hilo i pcAfter m k
  | OP_NOR | OP_OR | OP_ORI => exec_or i pcAfter m k
  | OP_SB | OP_SH => exec_store i pcAfter m k
  | OP_SLL | OP_SLLV | OP_SLT | OP_SLTI | OP_SLTIU | OP_SLTU | OP_SRA | OP_SRAV | OP_SRL
  | OP_SRLV => exec_shift i pcAfter m k
  | OP_SUB | OP_SUBU | OP_SW => exec_sub i pcAfter m k
  | OP_SWL | OP_SWR => exec_store_unaligned i pcAfter m k
  | OP_SYSCALL => trap SyscallException 0 m k
  | OP_XOR | OP_XORI => exec_xor i pcAfter m k
  | OP_RES | OP_UNIMP => trap IllegalInstrException 0 m k
  | OP_RFE | SPECIAL | BCOND => Fault AssertFailed
  end.

(** After the switch: the delayed load, then the program counters. *)
Definition finish m (pcAfter nextLoadReg nextLoadValue : Z) : res Machine :=
  m ← DelayedLoad m nextLoadReg nextLoadValue;
  pc ← reg m PCReg;
  m ← set_reg m PrevPCReg pc;
  npc ← reg m NextPCReg;
  m ← set_reg m PCReg npc;
  set_reg m NextPCReg pcAfter.

Definition OneInstruction m k : res (Machine * K) :=
  pc ← reg m PCReg;
  '(raw, m, k) ← ReadMem pc 4 m k;
  match raw with
  | None => Ok (m, k)
  | Some raw =>
      instr ← Decode (u32 raw);
      npc ← reg m NextPCReg;
      let pcAfter := s32 (npc + 4) in
      c ← exec instr pcAfter m k;
      match c with
      | Return m k => Ok (m, k)
      | Break m k pcAfter nextLoadReg nextLoadValue =>
          m ← finish m pcAfter nextLoadReg nextLoadValue; Ok (m, k)
      end
  end.

(** [n] rounds of the loop of [Machine::Run], which never returns, after
    [setStatus(UserMode)].  [Debugger] is the person at the terminal. *)
Section run.
Context (Debugger : Machine -> K -> res (Machine * K)).

Fixpoint run_rounds (n : nat) m k : res (Machine * K) :=
  match n with
  | O => Ok (m, k)
  | S n =>
      '(m, k) ← OneInstruction m k;
      '(m, k) ← OneTick m k;
      '(m, k) ← (if singleStep m && (runUntilTime m <=? totalTicks k) then Debugger m k
                 else Ok (m, k));
      run_rounds n m k
  end.

Definition Run (n : nat) m k : res (Machine * K) := run_rounds n m (setStatus UserMode k).
End run.
End with_kernel.

(** ** Words and bits *)

Lemma s32_testbit_high a i : is_s32 a -> 31 <= i -> Z.testbit a i = (a <? 0).
Proof.
  unfold is_s32. intros Ha Hi. destruct (Z.ltb_spec a 0) as [Hneg|Hpos].
  - rewrite <- (Z.lnot_involutive a). rewrite Z.lnot_spec by lia.
    rewrite Z.bits_above_log2; [done| |].
    + unfold Z.lnot. lia.
    + destruct (Z.eq_dec (Z.lnot a) 0) as [->|Hnz]; [simpl; lia|].
      unfold Z.lnot in *. apply Z.log2_lt_pow2; [lia|].
      apply (Z.lt_le_trans _ (2 ^ 31)); [lia|]. apply Z.pow_le_mono_r; lia.
  - destruct (Z.eq_dec a 0) as [->|Hnz]; [apply Z.bits_0|].
    apply Z.bits_above_log2; [lia|]. apply Z.log2_lt_pow2; [lia|].
    apply (Z.lt_le_trans _ (2 ^ 31)); [lia|]. apply Z.pow_le_mono_r; lia.
Qed.

(** An integer whose bits from 31 on are all the same is an [int]. *)
Lemma is_s32_bits a : (forall i, 31 <= i -> Z.testbit a i = Z.testbit a 31) -> is_s32 a.
Proof.
  intros Hb. unfold is_s32.
  assert (Hq : Z.shiftr a 31 = 0 \/ Z.shiftr a 31 = -1).
  { destruct (Z.testbit a 31) eqn:E; [right|left]; apply Z.bits_inj'; intros n Hn;
      rewrite Z.shiftr_spec by done; rewrite Hb by lia;
      [by rewrite Z.bits_m1|by rewrite Z.bits_0]. }
  rewrite Z.shiftr_div_pow2 in Hq by lia. zlia.
Qed.

Lemma s32_bits_eq a b : is_s32 a -> is_s32 b ->
  (forall i, 0 <= i < 32 -> Z.testbit a i = Z.testbit b i) -> a = b.
Proof.
  intros Ha Hb H. apply Z.bits_inj'. intros n Hn.
  destruct (decide (n < 32)) as [Hlt|Hge]; [by apply H|].
  rewrite (s32_testbit_high a n), (s32_testbit_high b n) by (done || lia).
  rewrite <- (s32_testbit_high a 31), <- (s32_testbit_high b 31) by (done || lia).
  apply H. lia.
Qed.

Lemma land_s32 a b : is_s32 a -> is_s32 b -> is_s32 (Z.land a b).
Proof.
  intros. apply is_s32_bits. intros i Hi. rewrite !Z.land_spec.
  by rewrite (s32_testbit_high a i), (s32_testbit_high b i), (s32_testbit_high a 31),
    (s32_testbit_high b 31).
Qed.

Lemma lor_s32 a b : is_s32 a -> is_s32 b -> is_s32 (Z.lor a b).
Proof.
  intros. apply is_s32_bits. intros i Hi. rewrite !Z.lor_spec.
  by rewrite (s32_testbit_high a i), (s32_testbit_high b i), (s32_testbit_high a 31),
    (s32_testbit_high b 31).
Qed.

Lemma lxor_s32 a b : is_s32 a -> is_s32 b -> is_s32 (Z.lxor a b).
Proof.
  intros. apply is_s32_bits. intros i Hi. rewrite !Z.lxor_spec.
  by rewrite (s32_testbit_high a i), (s32_testbit_high b i), (s32_testbit_high a 31),
    (s32_testbit_high b 31).
Qed.

Lemma lnot_s32 a : is_s32 a -> is_s32 (Z.lnot a).
Proof. unfold is_s32, Z.lnot. lia. Qed.

Lemma shiftr_s32 a n : is_s32 a -> 0 <= n -> is_s32 (Z.shiftr a n).
Proof.
  intros Ha Hn. apply is_s32_bits. intros i Hi. rewrite !Z.shiftr_spec by lia.
  rewrite (s32_testbit_high a (i + n)), (s32_testbit_high a (31 + n)); done || lia.
Qed.

(** Testing one bit with a mask. *)
Lemma land_pow2_eqb a n : 0 <= n -> (Z.land a (2 ^ n) =? 0) = negb (Z.testbit a n).
Proof.
  intros Hn. destruct (Z.testbit a n) eqn:E; cbn [negb].
  - apply Z.eqb_neq. intros H0. apply (f_equal (fun x => Z.testbit x n)) in H0.
    rewrite Z.land_spec, Z.pow2_bits_true, E, Z.bits_0 in H0 by done. done.
  - apply Z.eqb_eq. apply Z.bits_inj'. intros i Hi. rewrite Z.land_spec, Z.bits_0.
    destruct (decide (i = n)) as [->|Hne]; [by rewrite E|].
    rewrite Z.pow2_bits_false by lia. by rewrite andb_false_r.
Qed.

Lemma sign_bit a : is_s32 a -> (Z.land a SIGN_BIT =? 0) = negb (a <? 0).
Proof.
  intros Ha. change SIGN_BIT with (2 ^ 31). rewrite land_pow2_eqb by lia.
  by rewrite s32_testbit_high by (done || lia).
Qed.

Lemma sign_bit_xor a b : is_s32 a -> is_s32 b ->
  (Z.land (Z.lxor a b) SIGN_BIT =? 0) = Bool.eqb (a <? 0) (b <? 0).
Proof.
  intros Ha Hb. change SIGN_BIT with (2 ^ 31). rewrite land_pow2_eqb by lia.
  rewrite Z.lxor_spec, !s32_testbit_high by (done || lia).
  by destruct (a <? 0), (b <? 0).
Qed.

Lemma top_bit x : is_u32 x -> (Z.land x 0x80000000 =? 0) = (x <? 2 ^ 31).
Proof.
  unfold is_u32. intros Hx. change 0x80000000 with (2 ^ 31). rewrite land_pow2_eqb by lia.
  rewrite Z.testbit_eqb by lia.
  destruct (Z.eqb_spec ((x / 2 ^ 31) mod 2) 1), (Z.ltb_spec x (2 ^ 31)); try done; zlia.
Qed.

Lemma land_bit0 x : (Z.land x 1 =? 0) = (x mod 2 =? 0).
Proof. change 1 with (Z.ones 1). by rewrite Z.land_ones by lia. Qed.

Lemma high_bits x : is_u32 x -> (Z.land x 0xfffffffe =? 0) = (x <? 2).
Proof.
  intros Hx. assert (Z.land x 0xfffffffe = 2 * (x / 2)) as ->.
  { transitivity (Z.shiftl (Z.shiftr x 1) 1).
    2: { rewrite Z.shiftl_mul_pow2, Z.shiftr_div_pow2 by lia. change (2 ^ 1) with 2. lia. }
    apply Z.bits_inj'. intros n Hn. rewrite Z.land_spec, Z.shiftl_spec by lia.
    destruct (decide (n = 0)) as [->|Hn0]; [by rewrite andb_false_r|].
    rewrite Z.shiftr_spec by lia. replace (n - 1 + 1) with n by lia.
    destruct (decide (n < 32)).
    - change 0xfffffffe with (Z.shiftl (Z.ones 31) 1). rewrite Z.shiftl_spec by lia.
      rewrite Z.ones_spec_low by lia. apply andb_true_r.
    - assert (Z.testbit x n = false) as ->; [|done].
      rewrite <- (u32_id x Hx). apply u32_testbit_high. lia. }
  unfold is_u32 in Hx. destruct (Z.ltb_spec x 2); [apply Z.eqb_eq|apply Z.eqb_neq]; zlia.
Qed.

Lemma lor_one x : x mod 2 = 0 -> Z.lor x 1 = x + 1.
Proof.
  intros Hx. rewrite Z.add_nocarry_lxor; [symmetry; apply Z.lxor_lor|];
    change 1 with (Z.ones 1); by rewrite Z.land_ones by lia.
Qed.

(** ** Multiplication is exact *)

Lemma add64 hi lo bHi bLo : is_u32 hi -> is_u32 lo -> is_u32 bHi -> is_u32 bLo ->
  let lo' := u32 (lo + bLo) in
  let hi' := u32 ((if lo' <? bLo then u32 (hi + 1) else hi) + bHi) in
  hi' * 2 ^ 32 + lo' = (hi * 2 ^ 32 + lo + (bHi * 2 ^ 32 + bLo)) mod 2 ^ 64.
Proof.
  intros Hh Hl Hb Hc lo' hi'. unfold hi', lo', u32, is_u32 in *.
  destruct (Z.ltb_spec ((lo + bLo) mod 2 ^ 32) bLo); zlia.
Qed.

Lemma shl64 bHi bLo : is_u32 bHi -> is_u32 bLo ->
  let bHi' := u32 (Z.shiftl bHi 1) in
  let bHi'' := if negb (Z.land bLo 0x80000000 =? 0) then Z.lor bHi' 1 else bHi' in
  is_u32 bHi'' /\
  bHi'' * 2 ^ 32 + u32 (Z.shiftl bLo 1) = (2 * (bHi * 2 ^ 32 + bLo)) mod 2 ^ 64.
Proof.
  intros Hh Hl bHi' bHi''.
  assert (Heven : bHi' mod 2 = 0).
  { unfold bHi', u32. rewrite Z.shiftl_mul_pow2 by lia. zlia. }
  unfold bHi''. rewrite top_bit by done. rewrite lor_one by done. unfold bHi', u32, is_u32 in *.
  rewrite !Z.shiftl_mul_pow2 by lia. destruct (Z.ltb_spec bLo (2 ^ 31)); cbn [negb]; zlia.
Qed.

(** After [j] steps: [a] is shifted, [bHi:bLo] is [B] times [2^j], and [hi:lo]
    is [B] times the low [j] bits of [a]. *)
Definition mult_inv (a B j : Z) (st : Z * Z * Z * Z * Z) : Prop :=
  let '(aj, bLo, bHi, lo, hi) := st in
  aj = a / 2 ^ j /\ is_u32 bLo /\ is_u32 bHi /\ is_u32 lo /\ is_u32 hi /\
  bHi * 2 ^ 32 + bLo = (B * 2 ^ j) mod 2 ^ 64 /\
  hi * 2 ^ 32 + lo = (B * (a mod 2 ^ j)) mod 2 ^ 64.

Definition mult_done (a B : Z) (lohi : Z * Z) : Prop :=
  is_u32 lohi.1 /\ is_u32 lohi.2 /\
  lohi.2 * 2 ^ 32 + lohi.1 = (B * u32 a) mod 2 ^ 64.

Lemma low_bits_S a j : 0 <= j -> a mod 2 ^ (j + 1) = a mod 2 ^ j + 2 ^ j * ((a / 2 ^ j) mod 2).
Proof. intros. rewrite Z.pow_add_r by lia. change (2 ^ 1) with 2. apply Z.rem_mul_r; lia. Qed.

(** The remaining bits are a single one: this was the last. *)
Lemma last_bit a j : is_s32 a -> 0 <= j < 32 -> (a / 2 ^ j) mod 2 = 1 -> u32 (a / 2 ^ j) < 2 ->
  a mod 2 ^ (j + 1) = u32 a.
Proof.
  intros Ha Hj Hbit Hlast.
  assert (is_s32 (a / 2 ^ j)).
  { rewrite <- Z.shiftr_div_pow2 by lia. apply shiftr_s32; [done|lia]. }
  assert (a / 2 ^ j = 1) as H1 by (unfold is_s32, u32 in *; zlia).
  pose proof (Z.div_mod a (2 ^ j) ltac:(lia)) as E. rewrite H1 in E.
  pose proof (Z.mod_pos_bound a (2 ^ j) ltac:(lia)).
  assert (0 < 2 ^ j) by lia. rewrite u32_id by (unfold is_u32, is_s32 in *; lia).
  rewrite low_bits_S, H1 by lia. change (1 mod 2) with 1. lia.
Qed.

Lemma mult_step_ok a B j st : is_s32 a -> 0 <= j < 32 -> mult_inv a B j st ->
  (exists st', mult_step st = Ok (inl st') /\ mult_inv a B (j + 1) st') \/
  (exists r, mult_step st = Ok (inr r) /\ mult_done a B r).
Proof.
  destruct st as [[[[aj bLo] bHi] lo] hi].
  intros Ha Hj (-> & HbLo & HbHi & Hlo & Hhi & Hb & Hr). unfold mult_step.
  rewrite land_bit0, high_bits by apply u32_range.
  destruct (shl64 bHi bLo HbHi HbLo) as [Hrange Hshl].
  assert (Hshl' : (2 * (bHi * 2 ^ 32 + bLo)) mod 2 ^ 64 = (B * 2 ^ (j + 1)) mod 2 ^ 64).
  { rewrite Hb, Zmult_mod_idemp_r, Z.pow_add_r by lia. f_equal. lia. }
  rewrite Hshl' in Hshl. clear Hshl'.
  assert (Hpow : a / 2 ^ (j + 1) = Z.shiftr (a / 2 ^ j) 1).
  { rewrite Z.shiftr_div_pow2, Z.div_div, <- Z.pow_add_r by lia. done. }
  destruct (Z.eqb_spec ((a / 2 ^ j) mod 2) 0) as [H0|H1]; cbn [negb andb].
  - left. eexists. split; [done|]. unfold mult_inv. rewrite Hpow, low_bits_S, H0 by lia.
    split_and!; try done; try apply u32_range. rewrite Hr. f_equal. lia.
  - assert (Hbit : (a / 2 ^ j) mod 2 = 1) by zlia.
    pose proof (add64 hi lo bHi bLo Hhi Hlo HbHi HbLo) as Hadd. cbv zeta in Hadd.
    rewrite Hr, Hb, <- Zplus_mod, <- Z.mul_add_distr_l in Hadd.
    replace (a mod 2 ^ j + 2 ^ j) with (a mod 2 ^ (j + 1)) in Hadd
      by (rewrite low_bits_S, Hbit by lia; lia).
    destruct (Z.ltb_spec (u32 (a / 2 ^ j)) 2) as [Hlast|Hmore]; cbn [andb].
    + right. eexists. split; [done|]. split; [apply u32_range|]. split; [apply u32_range|].
      cbn [fst snd]. by rewrite Hadd, last_bit.
    + left. eexists. split; [done|]. unfold mult_inv. rewrite Hpow.
      split_and!; try done; apply u32_range.
Qed.

Lemma mult_loop a B : is_s32 a -> is_u32 B ->
  exists r, for_return 32 0 (fun _ st => mult_step st) (a, B, 0, 0, 0) = Ok r /\
    mult_done a B (match r with inl (_, _, _, lo, hi) => (lo, hi) | inr lohi => lohi end).
Proof.
  intros Ha HB.
  destruct (for_return_rule (mult_inv a B) (mult_done a B) 32 0 (fun _ st => mult_step st)
    (a, B, 0, 0, 0)) as [(st & -> & Hst)|(r & -> & Hr)].
  - unfold mult_inv, is_u32 in *. rewrite Z.pow_0_r, Z.div_1_r, Z.mod_1_r.
    split_and!; try lia; zlia.
  - intros j st Hj Hst. apply mult_step_ok; [done|lia|done].
  - exists (inl st). split; [done|]. destruct st as [[[[aj bLo] bHi] lo] hi].
    destruct Hst as (_ & _ & _ & ? & ? & _ & ?). done.
  - by exists (inr r).
Qed.

Lemma neg64 hi lo P : is_u32 hi -> is_u32 lo -> hi * 2 ^ 32 + lo = P mod 2 ^ 64 ->
  let lo' := u32 (u32 (Z.lnot lo) + 1) in
  (if lo' =? 0 then u32 (u32 (Z.lnot hi) + 1) else u32 (Z.lnot hi)) * 2 ^ 32 + lo'
    = (- P) mod 2 ^ 64.
Proof.
  intros Hh Hl HP lo'. unfold lo', is_u32, u32, Z.lnot in *. clear lo'.
  destruct (Z.eqb_spec (((Z.pred (- lo)) mod 2 ^ 32 + 1) mod 2 ^ 32) 0); zlia.
Qed.

Lemma u32_opp a : is_s32 a -> a < 0 -> is_s32 (s32 (- a)) /\ u32 (s32 (- a)) = - a.
Proof.
  unfold is_s32. intros Ha Hn. split; [apply s32_range|]. rewrite u32_s32. apply u32_id.
  unfold is_u32. lia.
Qed.

(** The product from factors and a sign, the last part of [Mult]. *)
Lemma mult_sign a b A B (negative : bool) P : is_s32 a -> u32 a = A -> u32 b = B ->
  P = (if negative then - (B * A) else B * A) ->
  exists hi lo,
    (r ← for_return 32 0 (fun _ st => mult_step st) (a, u32 b, 0, 0, 0);
     let '(lo, hi) :=
       match r with inl (_, _, _, lo, hi) => (lo, hi) | inr lohi => lohi end in
     let '(lo, hi) :=
       if negative then
         let hi := u32 (Z.lnot hi) in
         let lo := u32 (Z.lnot lo) in
         let lo := u32 (lo + 1) in
         (lo, if lo =? 0 then u32 (hi + 1) else hi)
       else (lo, hi) in
     Ok (s32 hi, s32 lo)) = Ok (hi, lo) /\ is_s32 hi /\ is_s32 lo /\
    u32 hi * 2 ^ 32 + u32 lo = P mod 2 ^ 64.
Proof.
  intros Ha <- <- ->. destruct (mult_loop a (u32 b) Ha (u32_range b)) as (r & -> & Hr).
  cbn [rbind]. destruct (match r with inl _ => _ | inr _ => _ end) as [lo hi].
  destruct Hr as (Hlo & Hhi & Hp). cbn [fst snd] in *. destruct negative.
  - pose proof (neg64 hi lo _ Hhi Hlo Hp) as Hn. cbv zeta in Hn.
    eexists _, _. split; [done|]. split; [apply s32_range|]. split; [apply s32_range|].
    rewrite !u32_s32, <- Hn, (u32_idemp (u32 (Z.lnot lo) + 1)). f_equal. f_equal.
    by destruct (_ =? 0); rewrite u32_idemp.
  - eexists _, _. split; [done|]. split; [apply s32_range|]. split; [apply s32_range|].
    rewrite !u32_s32, (u32_id hi), (u32_id lo) by done. exact Hp.
Qed.

Lemma Mult_ok a b (signedArith : bool) : is_s32 a -> is_s32 b ->
  exists hi lo, Mult a b signedArith = Ok (hi, lo) /\ is_s32 hi /\ is_s32 lo /\
    u32 hi * 2 ^ 32 + u32 lo = (if signedArith then a * b else u32 a * u32 b) mod 2 ^ 64.
Proof.
  intros Ha Hb. unfold Mult.
  destruct ((a =? 0) || (b =? 0)) eqn:E0.
  { exists 0, 0. split; [done|]. split; [by apply s32_range with (z := 0)|].
    split; [by apply s32_range with (z := 0)|].
    assert ((if signedArith then a * b else u32 a * u32 b) = 0) as ->; [|done].
    apply orb_prop in E0 as [E0|E0]; apply Z.eqb_eq in E0 as ->; destruct signedArith;
      rewrite ?(u32_id 0) by done; lia. }
  assert (Hpos : forall x, is_s32 x -> 0 <= x -> u32 x = x).
  { intros x Hx H0. apply u32_id. unfold is_s32, is_u32 in *. lia. }
  destruct signedArith; cbn [andb].
  2: { apply (mult_sign a b (u32 a) (u32 b) false); [done..|]. lia. }
  destruct (Z.ltb_spec a 0), (Z.ltb_spec b 0); cbn [andb negb].
  - destruct (u32_opp a), (u32_opp b); try done.
    apply (mult_sign _ _ (- a) (- b) false); [done..|lia].
  - destruct (u32_opp a); try done.
    apply (mult_sign _ _ (- a) b true); [done|done|by apply Hpos|lia].
  - destruct (u32_opp b); try done.
    apply (mult_sign _ _ a (- b) true); [done|by apply Hpos|done|lia].
  - apply (mult_sign _ _ a b false); [done|by apply Hpos|by apply Hpos|lia].
Qed.

(** ** Decoding *)

Lemma field v n w : 0 <= n -> 0 <= w -> Z.land (Z.shiftr v n) (Z.ones w) = (v / 2 ^ n) mod 2 ^ w.
Proof. intros. by rewrite Z.land_ones, Z.shiftr_div_pow2. Qed.

Lemma field_cond v : Z.land v 0x1f0000 = 2 ^ 16 * ((v / 2 ^ 16) mod 32).
Proof.
  change 32 with (2 ^ 5). rewrite (Z.mul_comm (2 ^ 16)), <- (field v 16 5), <- Z.shiftl_mul_pow2 by lia.
  apply Z.bits_inj'. intros n Hn. rewrite Z.shiftl_spec by lia.
  change 0x1f0000 with (Z.shiftl (Z.ones 5) 16). rewrite !Z.land_spec, Z.shiftl_spec by lia.
  destruct (decide (n < 16)) as [Hlt|Hge].
  - rewrite !(Z.testbit_neg_r _ (n - 16)) by lia. by rewrite !andb_false_r.
  - rewrite Z.shiftr_spec by lia. by replace (n - 16 + 16) with n by lia.
Qed.

Lemma sext16 x : 0 <= x < 2 ^ 16 ->
  (if negb (Z.land x 0x8000 =? 0) then s32 (Z.lor x 0xffff0000) else x) =
  if x <? 2 ^ 15 then x else x - 2 ^ 16.
Proof.
  intros Hx. change 0x8000 with (2 ^ 15). rewrite land_pow2_eqb, negb_involutive by lia.
  rewrite Z.testbit_eqb by lia. destruct (Z.ltb_spec x (2 ^ 15)) as [Hlt|Hge].
  - rewrite (proj2 (Z.eqb_neq _ _)); [done|]. zlia.
  - rewrite (proj2 (Z.eqb_eq _ _)) by zlia.
    replace (Z.lor x 0xffff0000) with (x + 0xffff0000); [unfold s32; zlia|].
    rewrite Z.add_nocarry_lxor; [apply Z.lxor_lor|]; change 0xffff0000 with (Z.shiftl (Z.ones 16) 16);
      apply Z.bits_inj'; intros n Hn; rewrite Z.land_spec, Z.shiftl_spec, Z.bits_0 by lia;
      (destruct (decide (n < 16)); [rewrite (Z.testbit_neg_r _ (n - 16)) by lia; apply andb_false_r|]);
      rewrite (Z.bits_above_log2 x n); [done|lia| |done|lia|];
      destruct (Z.eq_dec x 0) as [->|]; try (simpl; lia);
      apply (Z.lt_le_trans _ 16); try lia; apply Z.log2_lt_pow2; lia.
Qed.

(** The immediate operand by instruction format. *)
Definition immediate (format : Format) (v : Z) : Z :=
  match format with
  | IFMT => if v mod 2 ^ 16 <? 2 ^ 15 then v mod 2 ^ 16 else v mod 2 ^ 16 - 2 ^ 16
  | RFMT => (v / 2 ^ 6) mod 2 ^ 5
  | JFMT => v mod 2 ^ 26
  end.

(** [Decode] with the fields as quotients and remainders. *)
Lemma Decode_eq v :
  Decode v =
    ('(opCode, format) ← arr_get opTable ((v / 2 ^ 26) mod 2 ^ 6);
     opCode ← match opCode with
              | SPECIAL => arr_get specialTable (v mod 2 ^ 6)
              | BCOND =>
                  let c := (v / 2 ^ 16) mod 32 in
                  Ok (if c =? 0 then OP_BLTZ else if c =? 1 then OP_BGEZ
                      else if c =? 16 then OP_BLTZAL else if c =? 17 then OP_BGEZAL else OP_UNIMP)
              | _ => Ok opCode
              end;
     Ok (mkInstruction v opCode ((v / 2 ^ 21) mod 2 ^ 5) ((v / 2 ^ 16) mod 2 ^ 5)
           ((v / 2 ^ 11) mod 2 ^ 5) (immediate format v))).
Proof.
  unfold Decode. change 0x1f with (Z.ones 5). change 0x3f with (Z.ones 6).
  change 0xffff with (Z.ones 16). change 0x3ffffff with (Z.ones 26).
  rewrite !field by lia. rewrite !Z.land_ones by lia.
  destruct (arr_get opTable _) as [[op fmt]|]; [|done]. cbn [rbind].
  rewrite field_cond, sext16 by (apply Z.mod_pos_bound; lia).
  assert (He : forall c x, (2 ^ 16 * x =? 2 ^ 16 * c) = (x =? c)).
  { intros c x. destruct (Z.eqb_spec (2 ^ 16 * x) (2 ^ 16 * c)), (Z.eqb_spec x c); lia. }
  change 0x10000 with (2 ^ 16 * 1). change 0x100000 with (2 ^ 16 * 16).
  change 0x110000 with (2 ^ 16 * 17).
  pose proof (He 0 ((v / 2 ^ 16) mod 32)) as H0. rewrite Z.mul_0_r in H0.
  rewrite H0, !He. by destruct fmt.
Qed.

(** Operations a decoded instruction never has. *)
Definition decodable (op : OpCode) : bool :=
  match op with OP_RFE | SPECIAL | BCOND => false | _ => true end.

(** Shifts by a constant, whose amount is below 32. *)
Definition const_shift (op : OpCode) : bool :=
  match op with OP_SLL | OP_SRA | OP_SRL => true | _ => false end.

Lemma opTable_ok x : 0 <= x < 64 -> exists op fmt, arr_get opTable x = Ok (op, fmt) /\
  op <> OP_RFE /\ const_shift op = false /\ (op = SPECIAL -> fmt = RFMT).
Proof.
  intros Hx. destruct (arr_get_lt opTable x) as ([op fmt] & Hl & ->); [done|].
  exists op, fmt. split; [done|]. apply list_elem_of_lookup_2 in Hl.
  assert (Hf : Forall (fun e => e.1 <> OP_RFE /\ const_shift e.1 = false /\
    (e.1 = SPECIAL -> e.2 = RFMT)) opTable) by (by repeat constructor).
  rewrite Forall_forall in Hf. by apply (Hf _ Hl).
Qed.

Lemma specialTable_ok x : 0 <= x < 64 -> exists op, arr_get specialTable x = Ok op /\ decodable op = true.
Proof.
  intros Hx. destruct (arr_get_lt specialTable x) as (op & Hl & ->); [done|].
  exists op. split; [done|]. apply list_elem_of_lookup_2 in Hl.
  assert (Hf : Forall (fun e => decodable e = true) specialTable) by (by repeat constructor).
  rewrite Forall_forall in Hf. by apply (Hf _ Hl).
Qed.

(** What [exec] needs of an instruction. *)
Definition wf_instr (i : Instruction) : Prop :=
  0 <= rs i < 32 /\ 0 <= rt i < 32 /\ 0 <= rd i < 32 /\ is_s32 (extra i) /\ decodable (opCode i) = true /\
  (const_shift (opCode i) = true -> 0 <= extra i < 32).

Lemma Decode_ok v : exists i, Decode v = Ok i /\ value i = v /\ wf_instr i.
Proof.
  rewrite Decode_eq.
  destruct (opTable_ok ((v / 2 ^ 26) mod 2 ^ 6)) as (op & fmt & -> & Hop & Hsh & Hsp);
    [apply Z.mod_pos_bound; lia|]. cbn [rbind].
  assert (Himm : is_s32 (immediate fmt v)).
  { unfold is_s32. destruct fmt; cbn [immediate]; try zlia.
    destruct (Z.ltb_spec (v mod 2 ^ 16) (2 ^ 15)); zlia. }
  assert (Hreg : forall x, 0 <= x mod 2 ^ 5 < 32) by (intros; apply Z.mod_pos_bound; lia).
  destruct (specialTable_ok (v mod 2 ^ 6)) as (sop & Hs & Hdec); [apply Z.mod_pos_bound; lia|].
  destruct op; try done; rewrite ?Hs; eexists; (split; [done|]); (split; [done|]);
    unfold wf_instr; cbn [rs rt rd extra opCode]; split_and!; try apply Hreg; try done;
    try (repeat case_match; done).
  intros _. rewrite Hsp by done. apply Hreg.
Qed.

(** *** An assembler, from the encodings of the MIPS manual *)

Inductive Encoding : Set :=
| EncR (funct : Z)
| EncI (opcode : Z)
| EncB (cond : Z)
| EncJ (opcode : Z).

Definition encoding (op : OpCode) : option Encoding :=
  match op with
  | OP_SLL => Some (EncR 0) | OP_SRL => Some (EncR 2) | OP_SRA => Some (EncR 3)
  | OP_SLLV => Some (EncR 4) | OP_SRLV => Some (EncR 6) | OP_SRAV => Some (EncR 7)
  | OP_JR => Some (EncR 8) | OP_JALR => Some (EncR 9) | OP_SYSCALL => Some (EncR 12)
  | OP_MFHI => Some (EncR 16) | OP_MTHI => Some (EncR 17) | OP_MFLO => Some (EncR 18)
  | OP_MTLO => Some (EncR 19) | OP_MULT => Some (EncR 24) | OP_MULTU => Some (EncR 25)
  | OP_DIV => Some (EncR 26) | OP_DIVU => Some (EncR 27) | OP_ADD => Some (EncR 32)
  | OP_ADDU => Some (EncR 33) | OP_SUB => Some (EncR 34) | OP_SUBU => Some (EncR 35)
  | OP_AND => Some (EncR 36) | OP_OR => Some (EncR 37) | OP_XOR => Some (EncR 38)
  | OP_NOR => Some (EncR 39) | OP_SLT => Some (EncR 42) | OP_SLTU => Some (EncR 43)
  | OP_BLTZ => Some (EncB 0) | OP_BGEZ => Some (EncB 1) | OP_BLTZAL => Some (EncB 16)
  | OP_BGEZAL => Some (EncB 17)
  | OP_J => Some (EncJ 2) | OP_JAL => Some (EncJ 3)
  | OP_BEQ => Some (EncI 4) | OP_BNE => Some (EncI 5) | OP_BLEZ => Some (EncI 6)
  | OP_BGTZ => Some (EncI 7) | OP_ADDI => Some (EncI 8) | OP_ADDIU => Some (EncI 9)
  | OP_SLTI => Some (EncI 10) | OP_SLTIU => Some (EncI 11) | OP_ANDI => Some (EncI 12)
  | OP_ORI => Some (EncI 13) | OP_XORI => Some (EncI 14) | OP_LUI => Some (EncI 15)
  | OP_LB => Some (EncI 32) | OP_LH => Some (EncI 33) | OP_LWL => Some (EncI 34)
  | OP_LW => Some (EncI 35) | OP_LBU => Some (EncI 36) | OP_LHU => Some (EncI 37)
  | OP_LWR => Some (EncI 38) | OP_SB => Some (EncI 40) | OP_SH => Some (EncI 41)
  | OP_SWL => Some (EncI 42) | OP_SW => Some (EncI 43) | OP_SWR => Some (EncI 46)
  | OP_RFE | OP_UNIMP | OP_RES | SPECIAL | BCOND => None
  end.

(** The machine word; [imm] is the shift amount, the immediate or the target. *)
Definition assemble (e : Encoding) (rs rt rd imm : Z) : Z :=
  match e with
  | EncR funct => rs * 2 ^ 21 + rt * 2 ^ 16 + rd * 2 ^ 11 + imm * 2 ^ 6 + funct
  | EncI opcode => opcode * 2 ^ 26 + rs * 2 ^ 21 + rt * 2 ^ 16 + imm mod 2 ^ 16
  | EncB cond => 2 ^ 26 + rs * 2 ^ 21 + cond * 2 ^ 16 + imm mod 2 ^ 16
  | EncJ opcode => opcode * 2 ^ 26 + imm
  end.

Definition imm_ok (e : Encoding) (imm : Z) : Prop :=
  match e with
  | EncR _ => 0 <= imm < 32
  | EncI _ | EncB _ => - 2 ^ 15 <= imm < 2 ^ 15
  | EncJ _ => 0 <= imm < 2 ^ 26
  end.

(** The operands the instruction has are those it was assembled from. *)
Definition operands_are (e : Encoding) (i : Instruction) (rs0 rt0 rd0 imm : Z) : Prop :=
  extra i = imm /\
  match e with
  | EncR _ => rs i = rs0 /\ rt i = rt0 /\ rd i = rd0
  | EncI _ => rs i = rs0 /\ rt i = rt0
  | EncB _ => rs i = rs0
  | EncJ _ => True
  end.

Lemma sext16_mod imm : - 2 ^ 15 <= imm < 2 ^ 15 ->
  (if imm mod 2 ^ 16 <? 2 ^ 15 then imm mod 2 ^ 16 else imm mod 2 ^ 16 - 2 ^ 16) = imm.
Proof. intros. destruct (Z.ltb_spec (imm mod 2 ^ 16) (2 ^ 15)); zlia. Qed.

Lemma Decode_R op funct rs rt rd sh : arr_get specialTable funct = Ok op ->
  0 <= rs < 32 -> 0 <= rt < 32 -> 0 <= rd < 32 -> 0 <= sh < 32 -> 0 <= funct < 64 ->
  Decode (assemble (EncR funct) rs rt rd sh) =
    Ok (mkInstruction (assemble (EncR funct) rs rt rd sh) op rs rt rd sh).
Proof.
  intros Hop Hrs Hrt Hrd Hsh Hf. rewrite Decode_eq. cbn [assemble].
  set (v := rs * 2 ^ 21 + rt * 2 ^ 16 + rd * 2 ^ 11 + sh * 2 ^ 6 + funct).
  replace ((v / 2 ^ 26) mod 2 ^ 6) with 0 by (unfold v; zlia).
  replace (v mod 2 ^ 6) with funct by (unfold v; zlia).
  change (arr_get opTable 0) with (Ok (SPECIAL, RFMT)). cbn [rbind]. rewrite Hop.
  cbn [rbind immediate]. f_equal. f_equal; unfold v; zlia.
Qed.

Lemma Decode_I op opcode rs rt imm : arr_get opTable opcode = Ok (op, IFMT) ->
  op <> SPECIAL -> op <> BCOND ->
  0 <= rs < 32 -> 0 <= rt < 32 -> - 2 ^ 15 <= imm < 2 ^ 15 -> 0 <= opcode < 64 ->
  exists rd, Decode (assemble (EncI opcode) rs rt 0 imm) =
    Ok (mkInstruction (assemble (EncI opcode) rs rt 0 imm) op rs rt rd imm).
Proof.
  intros Hop Hn1 Hn2 Hrs Hrt Himm Ho. rewrite Decode_eq. cbn [assemble].
  set (v := opcode * 2 ^ 26 + rs * 2 ^ 21 + rt * 2 ^ 16 + imm mod 2 ^ 16).
  exists ((v / 2 ^ 11) mod 2 ^ 5).
  replace ((v / 2 ^ 26) mod 2 ^ 6) with opcode by (unfold v; zlia). rewrite Hop. cbn [rbind].
  replace ((v / 2 ^ 21) mod 2 ^ 5) with rs by (unfold v; zlia).
  replace ((v / 2 ^ 16) mod 2 ^ 5) with rt by (unfold v; zlia).
  assert (immediate IFMT v = imm) as ->; [|by destruct op].
  unfold immediate. replace (v mod 2 ^ 16) with (imm mod 2 ^ 16) by (unfold v; zlia).
  by apply sext16_mod.
Qed.

Lemma Decode_B op cond rs imm :
  op = (if cond =? 0 then OP_BLTZ else if cond =? 1 then OP_BGEZ
        else if cond =? 16 then OP_BLTZAL else if cond =? 17 then OP_BGEZAL else OP_UNIMP) ->
  0 <= rs < 32 -> - 2 ^ 15 <= imm < 2 ^ 15 -> 0 <= cond < 32 ->
  exists rt rd, Decode (assemble (EncB cond) rs 0 0 imm) =
    Ok (mkInstruction (assemble (EncB cond) rs 0 0 imm) op rs rt rd imm).
Proof.
  intros -> Hrs Himm Ho. rewrite Decode_eq. cbn [assemble].
  set (v := 2 ^ 26 + rs * 2 ^ 21 + cond * 2 ^ 16 + imm mod 2 ^ 16).
  exists ((v / 2 ^ 16) mod 2 ^ 5), ((v / 2 ^ 11) mod 2 ^ 5).
  replace ((v / 2 ^ 26) mod 2 ^ 6) with 1 by (unfold v; zlia).
  change (arr_get opTable 1) with (Ok (BCOND, IFMT)). cbn [rbind].
  replace ((v / 2 ^ 21) mod 2 ^ 5) with rs by (unfold v; zlia).
  replace ((v / 2 ^ 16) mod 32) with cond by (unfold v; zlia).
  assert (immediate IFMT v = imm) as ->; [|done].
  unfold immediate. replace (v mod 2 ^ 16) with (imm mod 2 ^ 16) by (unfold v; zlia).
  by apply sext16_mod.
Qed.

Lemma Decode_J op opcode imm : arr_get opTable opcode = Ok (op, JFMT) ->
  op <> SPECIAL -> op <> BCOND -> 0 <= imm < 2 ^ 26 -> 0 <= opcode < 64 ->
  exists rs rt rd, Decode (assemble (EncJ opcode) 0 0 0 imm) =
    Ok (mkInstruction (assemble (EncJ opcode) 0 0 0 imm) op rs rt rd imm).
Proof.
  intros Hop Hn1 Hn2 Himm Ho. rewrite Decode_eq. cbn [assemble].
  set (v := opcode * 2 ^ 26 + imm).
  exists ((v / 2 ^ 21) mod 2 ^ 5), ((v / 2 ^ 16) mod 2 ^ 5), ((v / 2 ^ 11) mod 2 ^ 5).
  replace ((v / 2 ^ 26) mod 2 ^ 6) with opcode by (unfold v; zlia). rewrite Hop. cbn [rbind].
  assert (immediate JFMT v = imm) as ->; [unfold immediate, v; zlia|by destruct op].
Qed.

Lemma Decode_assemble op e rs0 rt0 rd0 imm : encoding op = Some e ->
  0 <= rs0 < 32 -> 0 <= rt0 < 32 -> 0 <= rd0 < 32 -> imm_ok e imm ->
  exists i, Decode (assemble e rs0 rt0 rd0 imm) = Ok i /\ opCode i = op /\
    operands_are e i rs0 rt0 rd0 imm.
Proof.
  intros He Hrs Hrt Hrd Himm. destruct e as [funct|opcode|cond|opcode]; cbn [imm_ok] in Himm.
  - rewrite (Decode_R op) by (done || (destruct op; try discriminate He; injection He as <-; done || lia)).
    eexists. split; [done|]. done.
  - destruct (Decode_I op opcode rs0 rt0 imm) as (rd & Hd); try done;
      try (destruct op; try discriminate He; injection He as <-; done || lia).
    eexists. split; [exact Hd|]. done.
  - destruct (Decode_B op cond rs0 imm) as (rt & rd & Hd); try done;
      try (destruct op; try discriminate He; injection He as <-; done || lia).
    eexists. split; [exact Hd|]. done.
  - destruct (Decode_J op opcode imm) as (rs & rt & rd & Hd); try done;
      try (destruct op; try discriminate He; injection He as <-; done || lia).
    eexists. split; [exact Hd|]. done.
Qed.

(** ** What the arithmetic instructions mean *)

(** The MIPS manual's definition of the instructions that compute a register
    from registers and an immediate: on unbounded integers for addition and
    subtraction (with the overflow trap when the result is not a 32-bit
    integer), on 32-bit words for the bit operations and shifts. *)
Inductive AluResult : Type :=
| Value (r v : Z)
| Overflow.

Definition checked (r v : Z) : AluResult :=
  if (- 2 ^ 31 <=? v) && (v <? 2 ^ 31) then Value r v else Overflow.

Definition alu (i : Instruction) (a b : Z) : option AluResult :=
  let word (r w : Z) := Some (Value r (s32 w)) in
  let imm := extra i mod 2 ^ 16 in
  match opCode i with
  | OP_ADD => Some (checked (rd i) (a + b))
  | OP_ADDI => Some (checked (rt i) (a + extra i))
  | OP_SUB => Some (checked (rd i) (a - b))
  | OP_ADDU => word (rd i) (u32 a + u32 b)
  | OP_ADDIU => word (rt i) (u32 a + u32 (extra i))
  | OP_SUBU => word (rd i) (u32 a - u32 b)
  | OP_AND => word (rd i) (Z.land (u32 a) (u32 b))
  | OP_ANDI => word (rt i) (Z.land (u32 a) imm)
  | OP_OR => word (rd i) (Z.lor (u32 a) (u32 b))
  | OP_ORI => word (rt i) (Z.lor (u32 a) imm)
  | OP_XOR => word (rd i) (Z.lxor (u32 a) (u32 b))
  | OP_XORI => word (rt i) (Z.lxor (u32 a) imm)
  | OP_NOR => word (rd i) (2 ^ 32 - 1 - Z.lor (u32 a) (u32 b))
  | OP_LUI => word (rt i) (2 ^ 16 * imm)
  | OP_SLL => word (rd i) (2 ^ extra i * u32 b)
  | OP_SLLV => word (rd i) (2 ^ (u32 a mod 32) * u32 b)
  | OP_SRL => word (rd i) (u32 b / 2 ^ extra i)
  | OP_SRLV => word (rd i) (u32 b / 2 ^ (u32 a mod 32))
  | OP_SRA => Some (Value (rd i) (b / 2 ^ extra i))
  | OP_SRAV => Some (Value (rd i) (b / 2 ^ (u32 a mod 32)))
  | OP_SLT => Some (Value (rd i) (if a <? b then 1 else 0))
  | OP_SLTI => Some (Value (rt i) (if a <? extra i then 1 else 0))
  | OP_SLTU => Some (Value (rd i) (if u32 a <? u32 b then 1 else 0))
  | OP_SLTIU => Some (Value (rt i) (if u32 a <? u32 (extra i) then 1 else 0))
  | _ => None
  end.

(** The right shifts of words, which the simulator does on an [int]: they agree
    when the operand is not negative or is not moved. *)
Definition logical_shift_ok (i : Instruction) (a b : Z) : Prop :=
  match opCode i with
  | OP_SRL => 0 <= b \/ extra i = 0
  | OP_SRLV => 0 <= b \/ a mod 32 = 0
  | _ => True
  end.

Definition logical_right_shift (i : Instruction) : bool :=
  match opCode i with OP_SRL | OP_SRLV => true | _ => false end.

(** How far a shift instruction shifts; [a] is the value of register [rs]. *)
Definition shift_amount (i : Instruction) (a : Z) : Z :=
  match opCode i with OP_SLL | OP_SRL | OP_SRA => extra i | _ => u32 a mod 32 end.

Lemma logical_shift_cases i a b :
  logical_right_shift i && (b <? 0) && negb (shift_amount i a =? 0) = false ->
  logical_shift_ok i a b.
Proof.
  unfold logical_right_shift, logical_shift_ok, shift_amount.
  destruct (opCode i); try done; cbn [andb]; destruct (Z.ltb_spec b 0); try (by left);
    cbn [andb]; intros Hn%negb_false_iff%Z.eqb_eq; right; [done|].
  unfold u32 in Hn. zlia.
Qed.

Lemma s32_cong x y : x mod 2 ^ 32 = y mod 2 ^ 32 -> s32 x = s32 y.
Proof. intros H. by apply s32_inj_u32. Qed.

Lemma word_eq w v : is_s32 v -> w mod 2 ^ 32 = v mod 2 ^ 32 -> s32 w = v.
Proof. intros Hv H. rewrite <- (s32_id v Hv). by apply s32_cong. Qed.

(** A bit operation on words is the bit operation on the [int]s. *)
Lemma word_bits w v : is_s32 v ->
  (forall n, 0 <= n < 32 -> Z.testbit w n = Z.testbit v n) -> s32 w = v.
Proof.
  intros Hv Hb. apply s32_bits_eq; [apply s32_range|done|]. intros n Hn.
  rewrite s32_testbit by done. by apply Hb.
Qed.

Lemma imm_land x : Z.land x 0xffff = x mod 2 ^ 16.
Proof. change 0xffff with (Z.ones 16). apply Z.land_ones. lia. Qed.

Lemma imm_s32 x : is_s32 (x mod 2 ^ 16).
Proof. unfold is_s32. zlia. Qed.

Lemma amount a : Z.land a 0x1f = u32 a mod 32.
Proof. change 0x1f with (Z.ones 5). rewrite Z.land_ones by lia. unfold u32. zlia. Qed.

Lemma amount_range a : 0 <= u32 a mod 32 < 32.
Proof. apply Z.mod_pos_bound. lia. Qed.

Lemma shiftl_word b n : 0 <= n -> s32 (2 ^ n * u32 b) = s32 (Z.shiftl b n).
Proof.
  intros Hn. apply s32_cong. rewrite Z.shiftl_mul_pow2 by done. unfold u32.
  rewrite Zmult_mod_idemp_r. f_equal. lia.
Qed.

Lemma shiftr_word b n : is_s32 b -> 0 <= n -> 0 <= b \/ n = 0 -> s32 (u32 b / 2 ^ n) = Z.shiftr b n.
Proof.
  intros Hb Hn Hor. rewrite Z.shiftr_div_pow2 by done. destruct Hor as [H0| ->].
  - rewrite u32_id by (unfold is_s32, is_u32 in *; lia). apply s32_id.
    rewrite <- Z.shiftr_div_pow2 by done. by apply shiftr_s32.
  - rewrite Z.pow_0_r, !Z.div_1_r, s32_u32. by apply s32_id.
Qed.

(** The overflow tests on signs are range tests. *)
Lemma add_overflow a b : is_s32 a -> is_s32 b ->
  (Z.land (Z.lxor a b) SIGN_BIT =? 0) && negb (Z.land (Z.lxor a (s32 (a + b))) SIGN_BIT =? 0)
  = negb ((- 2 ^ 31 <=? a + b) && (a + b <? 2 ^ 31)).
Proof.
  intros Ha Hb. rewrite !sign_bit_xor by (done || apply s32_range).
  unfold is_s32, s32 in *.
  destruct (Z.ltb_spec a 0), (Z.ltb_spec b 0),
    (Z.ltb_spec ((a + b + 2 ^ 31) mod 2 ^ 32 - 2 ^ 31) 0),
    (Z.leb_spec (- 2 ^ 31) (a + b)), (Z.ltb_spec (a + b) (2 ^ 31)); try done; zlia.
Qed.

Lemma sub_overflow a b : is_s32 a -> is_s32 b ->
  negb (Z.land (Z.lxor a b) SIGN_BIT =? 0) && negb (Z.land (Z.lxor a (s32 (a - b))) SIGN_BIT =? 0)
  = negb ((- 2 ^ 31 <=? a - b) && (a - b <? 2 ^ 31)).
Proof.
  intros Ha Hb. rewrite !sign_bit_xor by (done || apply s32_range).
  unfold is_s32, s32 in *.
  destruct (Z.ltb_spec a 0), (Z.ltb_spec b 0),
    (Z.ltb_spec ((a - b + 2 ^ 31) mod 2 ^ 32 - 2 ^ 31) 0),
    (Z.leb_spec (- 2 ^ 31) (a - b)), (Z.ltb_spec (a - b) (2 ^ 31)); try done; zlia.
Qed.

Section exec_alu.
Context {K : Type} `{Kernel K}.
Implicit Types (m : Machine) (k : K) (i : Instruction).

(** What the switch does with a result. *)
Definition alu_case pcAfter m k (r : AluResult) : res Case :=
  match r with
  | Value r v => assign pcAfter m k r v
  | Overflow => trap OverflowException 0 m k
  end.

Lemma checked_case pcAfter m k r v :
  (if negb ((- 2 ^ 31 <=? v) && (v <? 2 ^ 31)) then trap OverflowException 0 m k
   else assign pcAfter m k r (s32 v)) = alu_case pcAfter m k (checked r v).
Proof.
  unfold checked. destruct ((- 2 ^ 31 <=? v) && (v <? 2 ^ 31)) eqn:E; cbn [negb alu_case]; [|done].
  bool_to_prop. by rewrite s32_id.
Qed.

Ltac word_op :=
  cbn [alu_case]; f_equal; symmetry; apply word_bits;
  [by auto using land_s32, lor_s32, lxor_s32, imm_s32
  |intros; rewrite ?Z.land_spec, ?Z.lor_spec, ?Z.lxor_spec, ?u32_testbit by done; done].

Lemma exec_alu i pcAfter m k a b r : wf_instr i ->
  reg m (rs i) = Ok a -> reg m (rt i) = Ok b -> is_s32 a -> is_s32 b ->
  logical_shift_ok i a b -> alu i a b = Some r ->
  exec i pcAfter m k = alu_case pcAfter m k r.
Proof.
  intros (_ & _ & _ & Hx & _ & Hsh) Ha Hb Has Hbs Hl Hr.
  unfold exec, exec_add, exec_or, exec_shift, exec_sub, exec_xor, exec_load, alu,
    logical_shift_ok in *. rewrite Ha, Hb.
  destruct (opCode i); try discriminate Hr; injection Hr as <-; cbn [rbind const_shift] in *.
  - rewrite add_overflow by done. apply checked_case.
  - rewrite (Z.lxor_comm a), Z.add_comm, add_overflow by done. apply checked_case.
  - cbn [alu_case]. f_equal. apply s32_cong. unfold u32. by rewrite <- Zplus_mod.
  - cbn [alu_case]. f_equal. apply s32_cong. unfold u32. by rewrite <- Zplus_mod.
  - word_op.
  - rewrite imm_land. word_op.
  - cbn [alu_case]. f_equal. apply s32_cong. rewrite Z.shiftl_mul_pow2 by lia. zlia.
  - cbn [alu_case]. f_equal. symmetry. apply word_eq; [by auto using lnot_s32, lor_s32|].
    rewrite <- (s32_id (Z.lor a b)) by (by apply lor_s32).
    replace (Z.lor (u32 a) (u32 b)) with (u32 (s32 (Z.lor a b))).
    + generalize (Z.lor a b). unfold u32, Z.lnot, s32. intros. zlia.
    + rewrite u32_s32. apply Z.bits_inj'. intros n Hn. rewrite Z.lor_spec.
      destruct (decide (n < 32)); [by rewrite !u32_testbit, Z.lor_spec by lia|].
      by rewrite !u32_testbit_high by lia.
  - word_op.
  - rewrite imm_land. word_op.
  - cbn [alu_case]. f_equal. symmetry. apply shiftl_word. by apply Hsh.
  - cbn [alu_case]. rewrite amount. f_equal. symmetry. apply shiftl_word. apply amount_range.
  - done.
  - done.
  - done.
  - done.
  - cbn [alu_case]. f_equal. apply Z.shiftr_div_pow2. by apply Hsh.
  - cbn [alu_case]. rewrite amount. f_equal. apply Z.shiftr_div_pow2. apply amount_range.
  - cbn [alu_case]. f_equal. symmetry. apply shiftr_word; [done|by apply Hsh|done].
  - cbn [alu_case]. rewrite amount. f_equal. symmetry.
    apply shiftr_word; [done|apply amount_range|]. unfold u32. destruct Hl; [by left|right; zlia].
  - rewrite sub_overflow by done. apply checked_case.
  - cbn [alu_case]. f_equal. apply s32_cong. unfold u32. by rewrite <- Zminus_mod.
  - word_op.
  - rewrite imm_land. word_op.
Qed.

(** The right shift of a negative word fills with ones: not the logical shift. *)
Lemma exec_srl i pcAfter m k a b r : wf_instr i ->
  reg m (rs i) = Ok a -> reg m (rt i) = Ok b -> is_s32 b -> alu i a b = Some r ->
  logical_right_shift i = true -> b < 0 -> shift_amount i a <> 0 ->
  exec i pcAfter m k = assign pcAfter m k (rd i) (b / 2 ^ shift_amount i a) /\
  r <> Value (rd i) (b / 2 ^ shift_amount i a).
Proof.
  intros (_ & _ & _ & _ & _ & Hsh) Ha Hb Hbs Hr Hl Hneg Hn.
  unfold exec, exec_shift, alu, logical_right_shift, shift_amount, const_shift in *. rewrite Ha, Hb.
  assert (Hlt : forall n, 0 <= n < 32 -> n <> 0 -> s32 (u32 b / 2 ^ n) <> b / 2 ^ n).
  { intros n Hn32 Hn0. assert (b / 2 ^ n < 0) by (apply Z.div_lt_upper_bound; lia).
    assert (u32 b / 2 ^ n < 2 ^ 31); [|assert (0 <= u32 b / 2 ^ n)].
    - apply Z.div_lt_upper_bound; [lia|]. assert (2 <= 2 ^ n) by (change 2 with (2 ^ 1) at 1; apply Z.pow_le_mono_r; lia).
      pose proof (u32_range b) as Hu. unfold is_u32 in Hu. nia.
    - apply Z.div_pos; [apply u32_range|lia].
    - rewrite s32_id by (unfold is_s32; lia). lia. }
  destruct (opCode i); try discriminate Hl; injection Hr as <-; cbn [rbind].
  - rewrite Z.shiftr_div_pow2 by (by apply Hsh). split; [done|]. intros [= E]. by apply (Hlt (extra i)); [apply Hsh| |].
  - rewrite amount, Z.shiftr_div_pow2 by apply amount_range. split; [done|].
    intros [= E]. by apply (Hlt (u32 a mod 32)); [apply amount_range| |].
Qed.
End exec_alu.

(** ** Instructions keep the machine well-formed *)

(** Indices of general registers. *)
Ltac gpr := unfold NumTotalRegs, NumGPRegs, LoadReg, LoReg, HiReg, NextPCReg, R31 in *; lia.

Section exec_safe.
Context {K : Type} `{KernelLaws K}.
Implicit Types (m : Machine) (k : K) (i : Instruction).

(** Within an instruction register 0 may have been written. *)
Definition pre_regs (rs : list Z) : Prop :=
  length rs = Z.to_nat NumTotalRegs /\ Forall is_s32 rs /\
  exists r, rs !! Z.to_nat LoadReg = Some r /\ 0 <= r < NumGPRegs.

Definition pre m k : Prop :=
  pre_regs (registers m) /\ wf_mem (mainMemory m) /\ wf_tables m /\ k_inv k.

Lemma inv_pre m k : inv m k -> pre m k.
Proof. intros [[[(Hl & Hs & _ & Hr) Hm] Ht] Hk]. by split. Qed.

(** The quotient that does not fit an [int]. *)
Definition div_trap i m : Prop :=
  opCode i = OP_DIV /\ reg m (rs i) = Ok (- 2 ^ 31) /\ reg m (rt i) = Ok (-1).

(** The registers an instruction only changes at its end: the program counters
    and the delayed load. *)
Definition frame m m' : Prop := forall q, LoReg < q -> reg m' q = reg m q.

(** A case of the switch ends well: in the kernel with the invariant, or out of
    the switch with [int]s in the registers; only the division traps. *)
Definition case_ok i m (c : res Case) : Prop :=
  match c with
  | Ok (Return m' k') => inv m' k'
  | Ok (Break m' k' pcAfter r v) => pre m' k' /\ is_s32 pcAfter /\ 0 <= r < NumGPRegs /\ is_s32 v /\
                                   frame m m'
  | Fault f => kernel_fault f \/ (f = ArithTrap /\ div_trap i m)
  end.

Lemma s32_0 : is_s32 0.
Proof. unfold is_s32. lia. Qed.

Lemma s32_bool (c : bool) : is_s32 (if c then 1 else 0).
Proof. unfold is_s32. destruct c; lia. Qed.

Lemma pre_reg m k r : pre m k -> 0 <= r < NumTotalRegs ->
  exists v, reg m r = Ok v /\ is_s32 v.
Proof.
  intros [(Hlen & Hs & _) _] Hr. unfold reg.
  destruct (arr_get_lt (registers m) r) as (v & Hv & ->).
  { unfold zlen, NumTotalRegs in *. lia. }
  exists v. split; [done|]. by eapply Forall_lookup_1.
Qed.

Lemma pre_set m k r v : pre m k -> 0 <= r < NumTotalRegs -> r <> LoadReg -> is_s32 v ->
  exists m', set_reg m r v = Ok m' /\ pre m' k /\
    forall q, 0 <= q -> q <> r -> reg m' q = reg m q.
Proof.
  intros [(Hlen & Hs & l & Hl & Hlr) (Hm & Ht & Hk)] Hr Hne Hv.
  rewrite set_reg_ok by done. eexists. split; [done|]. split.
  - split; [|done]. unfold pre_regs. cbn [registers set_registers]. rewrite length_insert.
    split; [done|]. split; [by apply Forall_insert|]. exists l.
    unfold LoadReg in *. by rewrite list_lookup_insert_ne by lia.
  - intros q Hq Hqr. unfold reg. cbn [registers set_registers]. apply arr_get_insert_ne; lia.
Qed.

Lemma trap_ok i which badVAddr m0 m k : inv m k -> is_s32 badVAddr ->
  case_ok i m0 (trap which badVAddr m k).
Proof.
  intros Hi Hv. unfold trap. pose proof (RaiseException_ok which badVAddr m k Hi Hv) as HR.
  destruct (RaiseException which badVAddr m k) as [[m' k']|f]; [done|by left].
Qed.

Lemma assign_ok i pcAfter m k r v : pre m k -> is_s32 pcAfter ->
  0 <= r <= LoReg -> is_s32 v -> case_ok i m (assign pcAfter m k r v).
Proof.
  intros Hp Hpc Hr Hv. unfold assign, LoReg in *.
  destruct (pre_set m k r v Hp) as (m' & -> & Hp' & Hf);
    [unfold NumTotalRegs; lia|unfold LoadReg; lia|done|].
  split; [done|]. split; [done|]. split; [done|]. split; [apply s32_0|].
  intros q Hq. apply Hf; unfold LoReg in Hq; lia.
Qed.

(** The operands of an instruction. *)
Lemma operands i m k : wf_instr i -> inv m k ->
  exists a b, reg m (rs i) = Ok a /\ reg m (rt i) = Ok b /\ is_s32 a /\ is_s32 b.
Proof.
  intros (Hrs & Hrt & _) Hi%inv_pre.
  destruct (pre_reg m k (rs i) Hi) as (a & ? & ?); [unfold NumTotalRegs; lia|].
  destruct (pre_reg m k (rt i) Hi) as (b & ? & ?); [unfold NumTotalRegs; lia|].
  by exists a, b.
Qed.


Lemma exec_logic_ok i pcAfter m k : wf_instr i -> inv m k -> is_s32 pcAfter ->
  (exists r a b, alu i a b = Some r) -> case_ok i m (exec i pcAfter m k).
Proof.
  intros Hwf Hi Hpc (r & a' & b' & Hr).
  pose proof (operands i m k Hwf Hi) as (a & b & Ha & Hb & Has & Hbs).
  pose proof (inv_pre m k Hi) as Hp. pose proof Hwf as (Hrs & Hrt & Hrd & Hx & _ & Hsh).
  unfold exec, exec_add, exec_or, exec_shift, exec_sub, exec_xor, exec_load, alu in *.
  rewrite Ha, Hb.
  destruct (opCode i); try discriminate Hr; cbn [rbind const_shift] in *;
    try (destruct (_ && _); [apply trap_ok; [done|apply s32_0]|]);
    (apply assign_ok; [done|done|gpr|]);
    auto using land_s32, lor_s32, lxor_s32, imm_s32, s32_range, lnot_s32, s32_bool;
    rewrite ?imm_land, ?amount; auto using land_s32, lor_s32, lxor_s32, imm_s32;
    (apply shiftr_s32; [done|]; first [apply amount_range | by apply Hsh]).
Qed.

Lemma quot_s32 a b : is_s32 a -> is_s32 b -> b <> 0 -> ~ (a = - 2 ^ 31 /\ b = -1) ->
  is_s32 (Z.quot a b) /\ is_s32 (Z.rem a b).
Proof.
  unfold is_s32. intros Ha Hb Hb0 Hne. split.
  - assert (Z.abs (Z.quot a b) <= Z.abs a).
    { rewrite <- Z.quot_abs by done. apply Z.quot_le_upper_bound; nia. }
    destruct (Z.eq_dec (Z.abs (Z.quot a b)) (2 ^ 31)) as [He|]; [|lia].
    assert (a = - 2 ^ 31) by lia. subst a.
    assert (Z.abs b = 1 \/ 2 <= Z.abs b) as [Hb1|Hb2] by lia.
    + assert (b = 1) by lia. subst b. vm_compute. split; congruence.
    + rewrite <- Z.quot_abs in He by done.
      assert (Z.quot (Z.abs (- 2 ^ 31)) (Z.abs b) <= 2 ^ 30); [|lia].
      apply Z.quot_le_upper_bound; nia.
  - pose proof (Z.rem_bound_abs a b Hb0). lia.
Qed.

Lemma exec_muldiv_ok i pcAfter m k : wf_instr i -> inv m k -> is_s32 pcAfter ->
  match opCode i with
  | OP_MULT | OP_MULTU | OP_DIV | OP_DIVU | OP_MFHI | OP_MFLO | OP_MTHI | OP_MTLO => True
  | _ => False
  end -> case_ok i m (exec i pcAfter m k).
Proof.
  intros Hwf Hi Hpc Hop.
  pose proof (operands i m k Hwf Hi) as (a & b & Ha & Hb & Has & Hbs).
  pose proof (inv_pre m k Hi) as Hp. pose proof Hwf as (Hrs & Hrt & Hrd & Hx & _ & Hsh).
  destruct (pre_reg m k HiReg Hp) as (h & Hh & Hhs); [done|].
  destruct (pre_reg m k LoReg Hp) as (l & Hlo & Hls); [done|].
  unfold exec, exec_div, exec_hilo. rewrite Ha, Hb. cbn [rbind].
  assert (Hhilo : forall hi lo, is_s32 hi -> is_s32 lo ->
    case_ok i m (set_hilo pcAfter m k hi lo)).
  { intros hi lo Hhi Hlo'. unfold set_hilo.
    destruct (pre_set m k LoReg lo Hp ltac:(done) ltac:(done) Hlo') as (m1 & -> & Hp1 & Hf1).
    cbn [rbind]. destruct (pre_set m1 k HiReg hi Hp1 ltac:(done) ltac:(done) Hhi) as (m2 & -> & Hp2 & Hf2).
    split; [done|]. split; [done|]. split; [done|]. split; [apply s32_0|].
    intros q Hq. by rewrite Hf2, Hf1 by gpr. }
  destruct (opCode i) eqn:E; try done.
  - destruct (Z.eqb_spec b 0) as [Hb0|Hb0]; [apply Hhilo; apply s32_0|].
    destruct ((a =? - 2 ^ 31) && (b =? -1)) eqn:Et.
    + bool_to_prop. subst. by right.
    + apply andb_false_iff in Et. rewrite !Z.eqb_neq in Et.
      destruct (quot_s32 a b Has Hbs Hb0 ltac:(lia)). by apply Hhilo.
  - destruct (u32 b =? 0); apply Hhilo; apply s32_0 || apply s32_range.
  - rewrite Hh. apply assign_ok; [done|done|gpr|done].
  - rewrite Hlo. apply assign_ok; [done|done|gpr|done].
  - by apply assign_ok.
  - by apply assign_ok.
  - destruct (Mult_ok a b true Has Hbs) as (hi & lo & -> & ? & ? & _). cbn [rbind]. by apply Hhilo.
  - destruct (Mult_ok a b false Has Hbs) as (hi & lo & -> & ? & ? & _). cbn [rbind]. by apply Hhilo.
Qed.

(** *** Control transfer *)

Lemma link_ok m k r : pre m k -> 0 <= r < NumGPRegs ->
  exists m', link r m = Ok m' /\ pre m' k /\ frame m m'.
Proof.
  intros Hp Hr. unfold link. destruct (pre_reg m k NextPCReg Hp) as (n & -> & Hn); [done|].
  cbn [rbind]. destruct (pre_set m k r (s32 (n + 4)) Hp) as (m' & -> & Hp' & Hf);
    [gpr|gpr|apply s32_range|]. exists m'. split; [done|]. split; [done|].
  intros q Hq. apply Hf; gpr.
Qed.

Lemma branch_ok i m0 taken pcAfter m k : pre m k -> frame m0 m -> is_s32 pcAfter ->
  case_ok i m0 (branch taken i pcAfter m k).
Proof.
  intros Hp Hf Hpc. unfold branch. destruct (pre_reg m k NextPCReg Hp) as (n & -> & Hn); [done|].
  split; [done|]. split; [destruct taken; [apply s32_range|done]|]. split; [done|].
  by split; [apply s32_0|].
Qed.

Lemma exec_branch_ok i pcAfter m k : wf_instr i -> inv m k -> is_s32 pcAfter ->
  match opCode i with
  | OP_BEQ | OP_BGEZ | OP_BGEZAL | OP_BGTZ | OP_BLEZ | OP_BLTZ | OP_BLTZAL | OP_BNE => True
  | _ => False
  end -> case_ok i m (exec_branch i pcAfter m k).
Proof.
  intros Hwf Hi Hpc Hop.
  pose proof (operands i m k Hwf Hi) as (a & b & Ha & Hb & Has & Hbs).
  pose proof (inv_pre m k Hi) as Hp. pose proof Hwf as (Hrs & Hrt & _).
  unfold exec_branch. rewrite Ha, Hb.
  destruct (link_ok m k R31 Hp ltac:(done)) as (m' & Hl & Hp' & Hf).
  destruct (pre_reg m' k (rs i) Hp') as (a' & Ha' & _); [gpr|].
  destruct (opCode i); try done; cbn [rbind]; try by apply branch_ok.
  - rewrite Hl. cbn [rbind]. rewrite Ha'. by apply branch_ok.
  - rewrite Hl. cbn [rbind]. rewrite Ha'. by apply branch_ok.
Qed.

Lemma exec_jump_ok i pcAfter m k : wf_instr i -> inv m k -> is_s32 pcAfter ->
  match opCode i with OP_J | OP_JAL | OP_JALR | OP_JR => True | _ => False end ->
  case_ok i m (exec_jump i pcAfter m k).
Proof.
  intros Hwf Hi Hpc Hop. pose proof (inv_pre m k Hi) as Hp. pose proof Hwf as (Hrs & Hrt & Hrd & _).
  unfold exec_jump, jump_index. destruct (opCode i); try done.
  - split; [done|]. split; [apply s32_range|]. split; [done|]. by split; [apply s32_0|].
  - destruct (link_ok m k R31 Hp ltac:(done)) as (m' & -> & Hp' & Hf).
    split; [done|]. split; [apply s32_range|]. split; [done|]. by split; [apply s32_0|].
  - destruct (link_ok m k (rd i) Hp ltac:(gpr)) as (m' & -> & Hp' & Hf). cbn [rbind].
    destruct (pre_reg m' k (rs i) Hp') as (a & -> & Ha); [gpr|].
    split; [done|]. split; [done|]. split; [done|]. by split; [apply s32_0|].
  - destruct (pre_reg m k (rs i) Hp) as (a & -> & Ha); [gpr|].
    split; [done|]. split; [done|]. split; [done|]. by split; [apply s32_0|].
Qed.

(** *** Memory instructions *)

Lemma load_to_ok i m0 v pcAfter m k : wf_instr i -> inv m k -> frame m0 m -> is_s32 v -> is_s32 pcAfter ->
  case_ok i m0 (load_to i v pcAfter m k).
Proof.
  intros (_ & Hrt & _) Hi%inv_pre Hf Hv Hpc. split; [done|]. split; [done|]. by split; [gpr|].
Qed.

Lemma frame_same m m' : registers m' = registers m -> frame m m'.
Proof. intros Hr q _. unfold reg. by rewrite Hr. Qed.

(** A load whose value [f] computes from the one read. *)
Lemma read_ok i m0 addr size (f : Z -> Machine -> K -> res Case) m k :
  inv m k -> is_s32 addr -> access_size size ->
  (forall v m' k', inv m' k' -> registers m' = registers m -> is_s32 v -> case_ok i m0 (f v m' k')) ->
  case_ok i m0 ('(r, m, k) ← ReadMem addr size m k;
                match r with None => Ok (Return m k) | Some v => f v m k end).
Proof.
  intros Hi Ha Hs Hf. pose proof (ReadMem_ok m k addr size Hi Ha Hs) as HR.
  destruct (ReadMem addr size m k) as [[[[v|] m'] k']|e]; cbn [rbind]; [|done|by left].
  destruct HR as (? & ? & ?). by apply Hf.
Qed.

Lemma write_ok i m0 pcAfter addr size v m k :
  inv m k -> registers m = registers m0 -> is_s32 addr -> access_size size -> is_s32 pcAfter ->
  case_ok i m0 (r ← WriteMem addr size v m k; stored pcAfter r).
Proof.
  intros Hi Hregs Ha Hs Hpc. pose proof (WriteMem_ok m k addr size v Hi Ha Hs) as HW.
  destruct (WriteMem addr size v m k) as [[[[] m'] k']|e]; cbn [rbind stored]; [|done|by left].
  destruct HW as [Hi' Hr]. split; [by apply inv_pre|]. split; [done|]. split; [done|].
  split; [apply s32_0|]. apply frame_same. congruence.
Qed.

Lemma small_s32 x n : 0 <= n <= 31 -> is_s32 (x mod 2 ^ n).
Proof.
  intros Hn. pose proof (Z.mod_pos_bound x (2 ^ n) ltac:(lia)).
  assert (2 ^ n <= 2 ^ 31) by (apply Z.pow_le_mono_r; lia). unfold is_s32. lia.
Qed.

Lemma land_ff_s32 x : is_s32 (Z.land x 0xff).
Proof. change 0xff with (Z.ones 8). rewrite Z.land_ones by lia. by apply small_s32. Qed.

Lemma land_ffff_s32 x : is_s32 (Z.land x 0xffff).
Proof. rewrite imm_land. by apply small_s32. Qed.

Lemma exec_load_ok i pcAfter m k : wf_instr i -> inv m k -> is_s32 pcAfter ->
  match opCode i with OP_LB | OP_LBU | OP_LH | OP_LHU | OP_LW => True | _ => False end ->
  case_ok i m (exec_load i pcAfter m k).
Proof.
  intros Hwf Hi Hpc Hop. pose proof (operands i m k Hwf Hi) as (a & b & Ha & Hb & Has & Hbs).
  unfold exec_load. rewrite Ha. cbn [rbind].
  destruct (opCode i); try done;
    try (destruct (negb (Z.land (s32 (a + extra i)) _ =? 0)); [by apply trap_ok; [|apply s32_range]|]);
    (apply read_ok; [done|apply s32_range|unfold access_size; lia|]); intros v m' k' Hi' Hregs Hv;
    (apply load_to_ok; [done|done|by apply frame_same| |done]); try done;
    (destruct (_ && _); [apply s32_range|apply land_ff_s32 || apply land_ffff_s32]).
Qed.

Lemma merge_s32 byte v x : is_s32 v -> is_s32 x ->
  is_s32 (lwl_merge byte v x) /\ is_s32 (lwr_merge byte v x) /\
  is_s32 (swl_merge byte v x) /\ is_s32 (swr_merge byte v x).
Proof.
  intros. unfold lwl_merge, lwr_merge, swl_merge, swr_merge.
  split_and!; repeat case_match; auto using s32_range.
Qed.

Lemma unaligned_ok i pcAfter m k : wf_instr i -> inv m k -> is_s32 pcAfter ->
  match opCode i with OP_LWL | OP_LWR => True | _ => False end ->
  case_ok i m (exec_load_unaligned i pcAfter m k).
Proof.
  intros Hwf Hi Hpc Hop. pose proof (operands i m k Hwf Hi) as (a & b & Ha & Hb & Has & Hbs).
  unfold exec_load_unaligned. rewrite Ha. cbn [rbind].
  apply read_ok; [done|apply s32_range|unfold access_size; lia|].
  intros v m' k' Hi' Hregs Hv. pose proof (inv_pre _ _ Hi') as Hp.
  pose proof Hwf as (Hrs & Hrt & _).
  destruct (pre_reg m' k' LoadReg Hp) as (l & -> & _); [done|].
  destruct (pre_reg m' k' LoadValueReg Hp) as (x & Hx & Hxs); [done|].
  destruct (pre_reg m' k' (rt i) Hp) as (y & Hy & Hys); [gpr|]. cbn [rbind].
  set (nv := if l =? rt i then reg m' LoadValueReg else reg m' (rt i)).
  assert (exists n, nv = Ok n /\ is_s32 n) as (n & -> & Hn).
  { unfold nv. rewrite Hx, Hy. destruct (l =? rt i); eauto. }
  cbn [rbind]. destruct (merge_s32 (Z.land (s32 (a + extra i)) 3) v n Hv Hn) as (? & ? & _).
  destruct (opCode i); try done; apply load_to_ok; try done; by apply frame_same.
Qed.

Lemma exec_store_ok i pcAfter m k : wf_instr i -> inv m k -> is_s32 pcAfter ->
  match opCode i with OP_SB | OP_SH | OP_SW => True | _ => False end ->
  case_ok i m (exec i pcAfter m k).
Proof.
  intros Hwf Hi Hpc Hop. pose proof (operands i m k Hwf Hi) as (a & b & Ha & Hb & Has & Hbs).
  unfold exec, exec_store, exec_sub. rewrite Ha, Hb. cbn [rbind].
  destruct (opCode i); try done;
    (apply write_ok; [done|done|apply s32_range|unfold access_size; lia|done]).
Qed.

Lemma store_unaligned_ok i pcAfter m k : wf_instr i -> inv m k -> is_s32 pcAfter ->
  match opCode i with OP_SWL | OP_SWR => True | _ => False end ->
  case_ok i m (exec_store_unaligned i pcAfter m k).
Proof.
  intros Hwf Hi Hpc Hop. pose proof (operands i m k Hwf Hi) as (a & b & Ha & Hb & Has & Hbs).
  unfold exec_store_unaligned. rewrite Ha. cbn [rbind].
  apply read_ok; [done|apply s32_range|unfold access_size; lia|].
  intros v m' k' Hi' Hregs Hv. unfold reg. rewrite Hregs. fold (reg m (rt i)). rewrite Hb.
  cbn [rbind].
  destruct (opCode i); try done;
    (apply write_ok; [done|done|apply s32_range|unfold access_size; lia|done]).
Qed.

Lemma exec_ok i pcAfter m k : wf_instr i -> inv m k -> is_s32 pcAfter ->
  case_ok i m (exec i pcAfter m k).
Proof.
  intros Hwf Hi Hpc. destruct (alu i 0 0) as [r|] eqn:Ealu.
  { apply exec_logic_ok; eauto. }
  pose proof Hwf as (_ & _ & _ & _ & Hdec & _). unfold alu in Ealu.
  pose proof (exec_muldiv_ok i pcAfter m k Hwf Hi Hpc) as H1.
  pose proof (exec_branch_ok i pcAfter m k Hwf Hi Hpc) as H2.
  pose proof (exec_jump_ok i pcAfter m k Hwf Hi Hpc) as H3.
  pose proof (exec_load_ok i pcAfter m k Hwf Hi Hpc) as H4.
  pose proof (unaligned_ok i pcAfter m k Hwf Hi Hpc) as H5.
  pose proof (exec_store_ok i pcAfter m k Hwf Hi Hpc) as H6.
  pose proof (store_unaligned_ok i pcAfter m k Hwf Hi Hpc) as H7.
  unfold exec in *. destruct (opCode i); try discriminate; auto;
    apply trap_ok; done || apply s32_0.
Qed.

(** *** The whole instruction *)

Lemma finish_ok m k pcAfter r v : pre m k -> is_s32 pcAfter -> 0 <= r < NumGPRegs -> is_s32 v ->
  exists m', finish m pcAfter r v = Ok m' /\ inv m' k.
Proof.
  intros ((Hlen & Hs & Hl) & Hm & Ht & Hk) Hpc Hr Hv. unfold finish.
  rewrite DelayedLoad_eq by done. cbn [rbind].
  set (m1 := set_registers m _).
  assert (Hi1 : inv m1 k).
  { split; [|done]. split; [|done]. split; [|done]. by apply delayed_load_wf. }
  assert (Hset : forall m' r' v', inv m' k -> 0 < r' < NumTotalRegs -> r' <> LoadReg -> is_s32 v' ->
    exists m'', set_reg m' r' v' = Ok m'' /\ inv m'' k).
  { intros m' r' v' [[[Hw Hm'] Ht'] Hk'] Hr' Hne Hv'. rewrite set_reg_ok by (apply Hw || lia).
    eexists. split; [done|]. split; [|done]. split; [|done]. split; [|done]. by apply wf_regs_insert. }
  destruct (pre_reg m1 k PCReg (inv_pre _ _ Hi1)) as (pc & -> & Hpcs); [done|]. cbn [rbind].
  destruct (Hset m1 PrevPCReg pc Hi1 ltac:(done) ltac:(done) Hpcs) as (m2 & -> & Hi2). cbn [rbind].
  destruct (pre_reg m2 k NextPCReg (inv_pre _ _ Hi2)) as (npc & -> & Hn); [done|]. cbn [rbind].
  destruct (Hset m2 PCReg npc Hi2 ltac:(done) ltac:(done) Hn) as (m3 & -> & Hi3). cbn [rbind].
  destruct (Hset m3 NextPCReg pcAfter Hi3 ltac:(done) ltac:(done) Hpc) as (m4 & -> & Hi4).
  by exists m4.
Qed.

(** The instruction at the program counter is the division that traps. *)
Definition div_traps m k : Prop :=
  exists pc raw m1 k1 i, reg m PCReg = Ok pc /\ ReadMem pc 4 m k = Ok (Some raw, m1, k1) /\
    Decode (u32 raw) = Ok i /\ div_trap i m1.

Lemma OneInstruction_ok m k : inv m k ->
  match OneInstruction m k with
  | Ok (m', k') => inv m' k'
  | Fault f => kernel_fault f \/ (f = ArithTrap /\ div_traps m k)
  end.
Proof.
  intros Hi. unfold OneInstruction, div_traps.
  destruct (pre_reg m k PCReg (inv_pre _ _ Hi)) as (pc & Hpcr & Hpc); [done|]. rewrite Hpcr. cbn [rbind].
  pose proof (ReadMem_ok m k pc 4 Hi Hpc ltac:(unfold access_size; lia)) as HR.
  destruct (ReadMem pc 4 m k) as [[[[raw|] m1] k1]|f] eqn:ER; cbn [rbind]; [|done|by left].
  destruct HR as (Hi1 & _ & _). destruct (Decode_ok (u32 raw)) as (i & HDec & _ & Hwf). rewrite HDec. cbn [rbind].
  destruct (pre_reg m1 k1 NextPCReg (inv_pre _ _ Hi1)) as (n & -> & Hn); [done|]. cbn [rbind].
  pose proof (exec_ok i (s32 (n + 4)) m1 k1 Hwf Hi1 (s32_range _)) as HE.
  destruct (exec i (s32 (n + 4)) m1 k1) as [[m2 k2|m2 k2 pcA r v]|f]; cbn [rbind case_ok] in *.
  - done.
  - destruct HE as (Hp & Hpc2 & Hr & Hv & _).
    destruct (finish_ok m2 k2 pcA r v Hp Hpc2 Hr Hv) as (m3 & -> & Hi3). done.
  - destruct HE as [?|[-> ?]]; [by left|right]. split; [done|]. by exists pc, raw, m1, k1, i.
Qed.
End exec_safe.
(** ** Unaligned words *)

(** Two aligned words side by side, the one at the lower address first. *)
Definition wide (w0 w1 : Z) : Z := Z.lor (u32 w0) (Z.shiftl (u32 w1) 32).

Lemma wide_bits w0 w1 i : 0 <= i < 64 ->
  Z.testbit (wide w0 w1) i = if i <? 32 then Z.testbit w0 i else Z.testbit w1 (i - 32).
Proof.
  intros Hi. unfold wide. rewrite Z.lor_spec, Z.shiftl_spec by lia.
  destruct (Z.ltb_spec i 32).
  - rewrite (Z.testbit_neg_r _ (i - 32)) by lia. rewrite u32_testbit by lia. apply orb_false_r.
  - rewrite u32_testbit_high by lia. by rewrite u32_testbit by lia.
Qed.

Lemma mask_lo k n : 0 <= k -> 0 <= n -> Z.testbit (2 ^ k - 1) n = (n <? k).
Proof.
  intros Hk Hn. rewrite Z.sub_1_r, <- Z.ones_equiv. by apply Z.testbit_ones_nonneg.
Qed.

Lemma mask_hi k n : 0 <= k <= 32 -> 0 <= n < 32 -> Z.testbit (2 ^ 32 - 2 ^ k) n = (k <=? n).
Proof.
  intros Hk Hn. replace (2 ^ 32 - 2 ^ k) with (Z.shiftl (2 ^ (32 - k) - 1) k).
  2: { rewrite Z.shiftl_mul_pow2, Z.mul_sub_distr_r, <- Z.pow_add_r by lia.
       replace (32 - k + k) with 32 by lia. lia. }
  rewrite Z.shiftl_spec by lia. destruct (Z.leb_spec k n).
  - rewrite mask_lo by lia. lia.
  - by apply Z.testbit_neg_r; lia.
Qed.

(** Bit [n] of a word built by masks and shifts. *)
Ltac word_bit :=
  rewrite ?s32_testbit, ?Z.lor_spec, ?Z.land_spec, ?Z.shiftr_spec by lia;
  rewrite ?s32_testbit, ?Z.shiftl_spec by lia;
  change 0xff with (2 ^ 8 - 1); change 0xffff with (2 ^ 16 - 1); change 0xffffff with (2 ^ 24 - 1);
  change 0xffffff00 with (2 ^ 32 - 2 ^ 8); change 0xffff0000 with (2 ^ 32 - 2 ^ 16);
  change 0xff000000 with (2 ^ 32 - 2 ^ 24);
  rewrite ?mask_lo, ?mask_hi by lia;
  repeat match goal with
  | |- context [?a <? ?b] => destruct (Z.ltb_spec a b); try lia
  | |- context [?a <=? ?b] => destruct (Z.leb_spec a b); try lia
  end;
  rewrite ?andb_true_r, ?andb_false_r, ?orb_false_r, ?orb_false_l;
  repeat match goal with
  | |- context [Z.testbit ?a ?i] => rewrite (Z.testbit_neg_r a i) by lia
  end;
  rewrite ?orb_false_r, ?orb_false_l; try done; try (f_equal; lia).

(** Decides the comparisons of constants. *)
Ltac closed_if :=
  repeat match goal with
  | |- context [?a =? ?b] =>
      let v := eval vm_compute in (a =? b) in
      match v with true => idtac | false => idtac end; change (a =? b) with v
  end; cbv iota.

Lemma byte_cases b : 0 <= b < 4 -> b = 0 \/ b = 1 \/ b = 2 \/ b = 3.
Proof. lia. Qed.

Lemma lwr_lwl b w0 w1 x i : 0 <= b < 4 -> 0 <= i < 32 ->
  Z.testbit (lwr_merge b w0 (lwl_merge ((b + 3) mod 4) w1 x)) i
    = Z.testbit (wide w0 w1) (i + 8 * b).
Proof.
  intros Hb Hi. rewrite wide_bits by lia.
  destruct (byte_cases b Hb) as [-> | [-> | [-> | ->]]];
    unfold lwr_merge, lwl_merge; closed_if; word_bit; word_bit.
Qed.

Lemma lwl_lwr b w0 w1 x i : 0 <= b < 4 -> 0 <= i < 32 -> (b = 0 -> w1 = w0) ->
  Z.testbit (lwl_merge ((b + 3) mod 4) w1 (lwr_merge b w0 x)) i
    = Z.testbit (wide w0 w1) (i + 8 * b).
Proof.
  intros Hb Hi Hw. rewrite wide_bits by lia.
  destruct (byte_cases b Hb) as [-> | [-> | [-> | ->]]]; unfold lwr_merge, lwl_merge; closed_if; word_bit; word_bit.
Qed.

Lemma swr_swl b v0 v1 r i : 0 <= b < 4 -> b <> 0 -> 0 <= i < 64 ->
  Z.testbit (wide (swr_merge b v0 r) (swl_merge ((b + 3) mod 4) v1 r)) i =
    if (8 * b <=? i) && (i <? 8 * b + 32) then Z.testbit r (i - 8 * b)
    else Z.testbit (wide v0 v1) i.
Proof.
  intros Hb Hb0 Hi. rewrite !wide_bits by lia.
  destruct (byte_cases b Hb) as [-> | [-> | [-> | ->]]]; [done| | | ];
    unfold swr_merge, swl_merge; closed_if; word_bit; word_bit.
Qed.


(** ** Delay slots *)

Section delay.
Context {K : Type} `{KernelLaws K}.
Implicit Types (m : Machine) (k : K) (i : Instruction).

(** The instruction at the program counter of [m] is [i] and falls out of the
    switch in [mb], [kb], with the next counter and the delayed load. *)
Definition commits m k i (mb : Machine) (kb : K) (pcAfter r v : Z) : Prop :=
  exists pc raw m0 k0 npc, reg m PCReg = Ok pc /\ ReadMem pc 4 m k = Ok (Some raw, m0, k0) /\
    Decode (u32 raw) = Ok i /\ reg m0 NextPCReg = Ok npc /\
    exec i (s32 (npc + 4)) m0 k0 = Ok (Break mb kb pcAfter r v).

Lemma commits_frame m k i mb kb pcAfter r v : inv m k -> commits m k i mb kb pcAfter r v ->
  pre mb kb /\ is_s32 pcAfter /\ 0 <= r < NumGPRegs /\ is_s32 v /\ frame m mb.
Proof.
  intros Hi (pc & raw & m0 & k0 & npc & Hpc & HR & HD & Hn & HE).
  destruct (pre_reg m k PCReg (inv_pre _ _ Hi)) as (pc' & Hpc' & Hpcs); [done|].
  rewrite Hpc in Hpc'. injection Hpc' as <-.
  pose proof (ReadMem_ok m k pc 4 Hi Hpcs ltac:(unfold access_size; lia)) as HRo.
  rewrite HR in HRo. destruct HRo as (Hi0 & Hregs & _).
  destruct (Decode_ok (u32 raw)) as (i' & HD' & _ & Hwf). rewrite HD in HD'. injection HD' as <-.
  pose proof (exec_ok i _ m0 k0 Hwf Hi0 (s32_range (npc + 4))) as Hc. rewrite HE in Hc.
  destruct Hc as (? & ? & ? & ? & Hf). split_and!; try done; try lia.
  intros q Hq. rewrite (Hf q Hq). unfold reg. by rewrite Hregs.
Qed.

Lemma reg_insert m (rs : list Z) r v q : 0 <= q -> 0 <= r -> r <> q ->
  reg (set_registers m (<[Z.to_nat r := v]> rs)) q = reg (set_registers m rs) q.
Proof. intros. unfold reg. cbn [registers set_registers]. by apply arr_get_insert_ne. Qed.

Lemma reg_insert_eq m (rs : list Z) r v : 0 <= r < zlen rs ->
  reg (set_registers m (<[Z.to_nat r := v]> rs)) r = Ok v.
Proof. intros. unfold reg. cbn [registers set_registers]. by apply arr_get_insert_eq. Qed.

(** The registers after the end of an instruction. *)
Lemma finish_regs m k pcAfter r v pc npc l lv : pre m k -> is_s32 pcAfter -> 0 <= r < NumGPRegs ->
  is_s32 v -> reg m PCReg = Ok pc -> reg m NextPCReg = Ok npc -> reg m LoadReg = Ok l ->
  reg m LoadValueReg = Ok lv ->
  exists m', finish m pcAfter r v = Ok m' /\ inv m' k /\
    reg m' PCReg = Ok npc /\ reg m' NextPCReg = Ok pcAfter /\ reg m' PrevPCReg = Ok pc /\
    reg m' LoadReg = Ok r /\ reg m' LoadValueReg = Ok v /\
    forall q, 0 < q < NumGPRegs -> reg m' q = if q =? l then Ok lv else reg m q.
Proof.
  intros Hp Hpcs Hr Hv Hpc Hnpc Hl Hlv.
  destruct (finish_ok m k pcAfter r v Hp Hpcs Hr Hv) as (m' & Hf & Hi). exists m'.
  split; [done|]. split; [done|].
  destruct Hp as ((Hlen & _ & l' & Hl' & Hlr) & _).
  assert (l' = l) as ->.
  { unfold reg in Hl. rewrite (arr_get_Some _ LoadReg l') in Hl by done. congruence. }
  unfold finish in Hf. rewrite DelayedLoad_eq in Hf by eauto. cbn [rbind] in Hf.
  assert (Hd : delayed_load (registers m) r v =
    <[Z.to_nat 0 := 0]> (<[Z.to_nat LoadValueReg := v]> (<[Z.to_nat LoadReg := r]>
      (<[Z.to_nat l := lv]> (registers m))))).
  { unfold delayed_load. rewrite (list_lookup_total_correct _ _ _ Hl').
    apply arr_get_inv in Hlv as [_ Hlv]. by rewrite (list_lookup_total_correct _ _ _ Hlv). }
  rewrite Hd in Hf. clear Hd. unfold NumTotalRegs, NumGPRegs in *.
  assert (Hid : forall q, reg (set_registers m (registers m)) q = reg m q) by done.
  rewrite !reg_insert, Hid, Hpc in Hf by (unfold PCReg, LoadReg, LoadValueReg; lia).
  cbn [rbind] in Hf. rewrite set_reg_ok in Hf by (cbn; rewrite ?length_insert; done).
  cbn [rbind registers set_registers] in Hf.
  change (set_registers (set_registers m ?a) ?b) with (set_registers m b) in Hf.
  rewrite !reg_insert, Hid, Hnpc in Hf
    by (unfold NextPCReg, PrevPCReg, LoadReg, LoadValueReg; lia).
  cbn [rbind] in Hf. rewrite set_reg_ok in Hf by (cbn; rewrite ?length_insert; done).
  cbn [rbind registers set_registers] in Hf. rewrite set_reg_ok in Hf by (cbn; rewrite ?length_insert; done).
  injection Hf as <-. cbn [registers set_registers].
  change (set_registers (set_registers ?a ?b) ?c) with (set_registers a c).
  assert (Hz : forall rs : list Z, length rs = 40%nat -> zlen rs = 40) by (unfold zlen; lia).
  assert (Hlen' : length (registers m) = 40%nat) by lia.
  split_and!.
  6: { intros q Hq. rewrite !reg_insert by (unfold NextPCReg, PCReg, PrevPCReg, LoadReg, LoadValueReg; lia).
       destruct (Z.eqb_spec q l) as [->|Hne].
       - apply reg_insert_eq. rewrite Hz by done. lia.
       - by rewrite reg_insert by lia. }
  all: unfold NextPCReg, PCReg, PrevPCReg, LoadReg, LoadValueReg in *;
    rewrite ?reg_insert by lia; apply reg_insert_eq; rewrite Hz by (rewrite ?length_insert; done); lia.
Qed.
(** What an instruction that commits leaves in the registers. *)
Lemma commits_step m k i mb kb pcAfter r v l lv : inv m k -> commits m k i mb kb pcAfter r v ->
  reg m LoadReg = Ok l -> reg m LoadValueReg = Ok lv ->
  exists m', OneInstruction m k = Ok (m', kb) /\ inv m' kb /\
    reg m' PCReg = reg m NextPCReg /\ reg m' NextPCReg = Ok pcAfter /\
    reg m' PrevPCReg = reg m PCReg /\
    reg m' LoadReg = Ok r /\ reg m' LoadValueReg = Ok v /\ reg m' 0 = Ok 0 /\
    forall q, 0 < q < NumGPRegs -> reg m' q = if q =? l then Ok lv else reg mb q.
Proof.
  intros Hinv Hcom Hl Hlv.
  destruct (commits_frame _ _ _ _ _ _ _ _ Hinv Hcom) as (Hp & Hpcs & Hr & Hv & Hf).
  destruct (pre_reg m k PCReg (inv_pre _ _ Hinv)) as (pc & Hpc & _); [done|].
  destruct (pre_reg m k NextPCReg (inv_pre _ _ Hinv)) as (npc & Hnpc & _); [done|].
  destruct (finish_regs mb kb pcAfter r v pc npc l lv Hp Hpcs Hr Hv)
    as (m' & Hfin & Hi' & H1 & H2 & H3 & H4 & H5 & H6); [by rewrite Hf..|].
  exists m'. split_and!; try done; try congruence.
  - destruct Hcom as (pc' & raw & m0 & k0 & npc' & Hpc' & HR & HD & Hn & HE).
    unfold OneInstruction. rewrite Hpc'. cbn [rbind]. rewrite HR. cbn [rbind]. rewrite HD.
    cbn [rbind]. rewrite Hn. cbn [rbind]. rewrite HE. cbn [rbind]. by rewrite Hfin.
  - unfold reg. apply arr_get_Some; [done|]. apply Hi'.
Qed.

(** The loads of one register from an aligned address. *)
Definition load_size (op : OpCode) : option Z :=
  match op with
  | OP_LB | OP_LBU => Some 1
  | OP_LH | OP_LHU => Some 2
  | OP_LW => Some 4
  | _ => None
  end.

(** The value a load gives its register, from the one read from memory: a byte
    or half word, extended by its sign or by zeros, or the word. *)
Definition loaded (op : OpCode) (v : Z) : Z :=
  match op with
  | OP_LB => (v + 2 ^ 7) mod 2 ^ 8 - 2 ^ 7
  | OP_LBU => v mod 2 ^ 8
  | OP_LH => (v + 2 ^ 15) mod 2 ^ 16 - 2 ^ 15
  | OP_LHU => v mod 2 ^ 16
  | _ => v
  end.

(** Extending the sign by hand, as [OP_LB] and [OP_LH] do. *)
Lemma sign_extend v n : 0 < n < 32 ->
  (if negb (Z.land v (2 ^ (n - 1)) =? 0) then s32 (Z.lor v (2 ^ 32 - 2 ^ n)) else Z.land v (2 ^ n - 1))
  = (v + 2 ^ (n - 1)) mod 2 ^ n - 2 ^ (n - 1).
Proof.
  intros Hn. rewrite land_pow2_eqb, negb_involutive by lia.
  assert (Hp : 2 ^ n = 2 * 2 ^ (n - 1)) by (rewrite <- Z.pow_succ_r by lia; f_equal; lia).
  assert (0 < 2 ^ (n - 1)) by lia.
  replace (Z.land v (2 ^ n - 1)) with (v mod 2 ^ n)
    by (rewrite Z.sub_1_r, <- Z.ones_equiv; symmetry; apply Z.land_ones; lia).
  assert (Hlt : 2 ^ n <= 2 ^ 31) by (apply Z.pow_le_mono_r; lia).
  pose proof (Z.mod_pos_bound v (2 ^ n) ltac:(lia)) as Hm.
  assert (Hbit : Z.testbit v (n - 1) = (2 ^ (n - 1) <=? v mod 2 ^ n)).
  { rewrite <- (Z.mod_pow2_bits_low v n (n - 1)) by lia. rewrite Z.testbit_eqb by lia.
    destruct (Z.leb_spec (2 ^ (n - 1)) (v mod 2 ^ n)).
    - replace (v mod 2 ^ n / 2 ^ (n - 1)) with 1; [done|].
      apply Z.div_unique with (r := v mod 2 ^ n - 2 ^ (n - 1)); lia.
    - by rewrite Z.div_small by lia. }
  rewrite Hbit, <- Zplus_mod_idemp_l. set (w := v mod 2 ^ n) in *.
  destruct (Z.leb_spec (2 ^ (n - 1)) w).
  - rewrite <- (Z_mod_plus_full _ (-1)), (Z.mod_small (w + 2 ^ (n - 1) + _)) by lia.
    transitivity (w - 2 ^ n); [|lia].
    apply word_bits; [unfold is_s32; lia|]. intros q Hq. rewrite Z.lor_spec, mask_hi by lia.
    destruct (Z.leb_spec n q).
    + rewrite orb_true_r. symmetry. replace q with (q - n + n) by lia.
      rewrite <- Z.div_pow2_bits by lia. replace ((w - 2 ^ n) / 2 ^ n) with (-1); [apply Z.bits_m1; lia|].
      apply Z.div_unique with (r := w); lia.
    + rewrite orb_false_r. rewrite <- (Z.mod_pow2_bits_low v n q), <- (Z.mod_pow2_bits_low (w - _) n q) by lia.
      f_equal. unfold w. rewrite Zminus_mod, Zmod_mod, Z_mod_same_full, Z.sub_0_r. by rewrite Zmod_mod.
  - rewrite Z.mod_small by lia. lia.
Qed.

Lemma exec_load_spec i pcAfter m k size a raw m1 k1 : load_size (opCode i) = Some size ->
  reg m (rs i) = Ok a -> s32 (a + extra i) mod size = 0 ->
  ReadMem (s32 (a + extra i)) size m k = Ok (Some raw, m1, k1) ->
  exec i pcAfter m k = Ok (Break m1 k1 pcAfter (rt i) (loaded (opCode i) raw)).
Proof.
  intros Hop Ha Hal HR. unfold exec, exec_load. rewrite Ha. cbn [rbind].
  pose proof (sign_extend raw 8 ltac:(lia)) as H8. pose proof (sign_extend raw 16 ltac:(lia)) as H16.
  assert (Hmask : forall n, 0 <= n -> Z.land raw (Z.ones n) = raw mod 2 ^ n)
    by (intros; by apply Z.land_ones).
  assert (Hmis : forall n, 0 <= n -> s32 (a + extra i) mod 2 ^ n = 0 ->
    Z.land (s32 (a + extra i)) (Z.ones n) = 0) by (intros; by rewrite Z.land_ones).
  pose proof (Hmask 8 ltac:(lia)) as Hm8. pose proof (Hmask 16 ltac:(lia)) as Hm16.
  destruct (opCode i); try discriminate Hop; injection Hop as <-; unfold load_to, loaded.
  3, 4: rewrite (Hmis 1 ltac:(lia) Hal : Z.land _ 1 = 0).
  5: rewrite (Hmis 2 ltac:(lia) Hal : Z.land _ 3 = 0).
  all: cbn [Z.eqb negb]; rewrite HR; cbn [rbind].
  all: match goal with |- context [bool_decide ?P] =>
         let v := eval vm_compute in (bool_decide P) in change (bool_decide P) with v
       | _ => idtac end; rewrite ?andb_true_r, ?andb_false_r.
  - do 2 f_equal. exact H8.
  - do 2 f_equal. exact Hm8.
  - do 2 f_equal. exact H16.
  - do 2 f_equal. exact Hm16.
  - done.
Qed.

(** Where a branch or jump goes, given the address [npc] of its delay slot and
    the two registers it reads. *)
Definition branch_target (i : Instruction) (npc a b : Z) : option Z :=
  let to (taken : bool) := Some (s32 (npc + (if taken then IndexToAddr (extra i) else 4))) in
  match opCode i with
  | OP_BEQ => to (a =? b)
  | OP_BNE => to (negb (a =? b))
  | OP_BGEZ | OP_BGEZAL => to (0 <=? a)
  | OP_BGTZ => to (0 <? a)
  | OP_BLEZ => to (a <=? 0)
  | OP_BLTZ | OP_BLTZAL => to (a <? 0)
  | OP_J | OP_JAL => Some (s32 (Z.lor (Z.land (s32 (npc + 4)) 0xf0000000) (IndexToAddr (extra i))))
  | OP_JR | OP_JALR => Some a
  | _ => None
  end.

(** The register that gets the return address. *)
Definition link_register (i : Instruction) : option Z :=
  match opCode i with
  | OP_BGEZAL | OP_BLTZAL | OP_JAL => Some R31
  | OP_JALR => Some (rd i)
  | _ => None
  end.

Definition linked (i : Instruction) (npc q v : Z) : Z :=
  if bool_decide (link_register i = Some q) then s32 (npc + 4) else v.

Lemma link_spec m k r npc : inv m k -> 0 <= r < NumGPRegs -> reg m NextPCReg = Ok npc ->
  exists m', link r m = Ok m' /\ pre m' k /\ reg m' NextPCReg = Ok npc /\
    forall q v, 0 <= q < NumGPRegs -> reg m q = Ok v ->
      reg m' q = Ok (if q =? r then s32 (npc + 4) else v).
Proof.
  intros Hi Hr Hn. unfold link. rewrite Hn. cbn [rbind]. rewrite set_reg_ok by (gpr || apply Hi).
  eexists. split; [done|]. split; [|split].
  - destruct (pre_set m k r (s32 (npc + 4)) (inv_pre _ _ Hi)) as (m' & E & Hp & _); [gpr|gpr|apply s32_range|].
    rewrite set_reg_ok in E by (gpr || apply Hi). by injection E as <-.
  - rewrite reg_insert by gpr. done.
  - intros q v Hq Hv. destruct (Z.eqb_spec q r) as [->|Hne].
    + apply reg_insert_eq. destruct Hi as [[[[Hlen _] _] _] _]. unfold zlen. gpr.
    + rewrite reg_insert by gpr. done.
Qed.

Lemma linked_none i npc q v : link_register i = None -> linked i npc q v = v.
Proof. intros E. unfold linked. by rewrite E. Qed.

Lemma linked_some i npc r q v : link_register i = Some r ->
  linked i npc q v = if q =? r then s32 (npc + 4) else v.
Proof.
  intros E. unfold linked. rewrite E. destruct (Z.eqb_spec q r) as [->|Hne].
  - by rewrite bool_decide_eq_true_2.
  - by rewrite bool_decide_eq_false_2 by congruence.
Qed.

Lemma linked_s32 i npc q v : is_s32 v -> is_s32 (linked i npc q v).
Proof. intros. unfold linked. case_match; [apply s32_range|done]. Qed.

(** The case of a branch or jump, after its link. *)
Lemma exec_branch_linked i m m' k npc a b t :
  match link_register i with Some r => link r m = Ok m' | None => m' = m end ->
  reg m' NextPCReg = Ok npc -> reg m' (rs i) = Ok a -> reg m' (rt i) = Ok b -> is_s32 a ->
  branch_target i npc a b = Some t ->
  exec i (s32 (npc + 4)) m k = Ok (Break m' k t 0 0).
Proof.
  intros Hl Hn Ha Hb Has Ht. pose proof (sign_bit a Has) as Hs.
  unfold exec, exec_branch, exec_jump, jump_index, branch, link_register, branch_target in *.
  assert (Hs' : (0 <=? a) = negb (a <? 0)) by lia.
  destruct (opCode i); try discriminate Ht; injection Ht as <-;
    try (rewrite Hl; cbn [rbind]); try subst m'; rewrite ?Ha, ?Hb; cbn [rbind]; rewrite ?Hn; cbn [rbind];
    rewrite ?Hs, ?Hs', ?negb_involutive; try done; by repeat case_match.
Qed.

Lemma exec_branch_spec i m k npc a b t : wf_instr i -> inv m k -> reg m NextPCReg = Ok npc ->
  reg m (rs i) = Ok a -> reg m (rt i) = Ok b -> is_s32 a -> is_s32 npc ->
  branch_target i npc (linked i npc (rs i) a) b = Some t ->
  exists mb, exec i (s32 (npc + 4)) m k = Ok (Break mb k t 0 0) /\
    forall q v, 0 <= q < NumGPRegs -> reg m q = Ok v -> reg mb q = Ok (linked i npc q v).
Proof.
  intros Hwf Hi Hn Ha Hb Has Hns Ht. pose proof Hwf as (Hrs & Hrt & Hrd & _).
  destruct (link_register i) as [r|] eqn:El.
  - assert (Hr : 0 <= r < NumGPRegs).
    { unfold link_register in El. destruct (opCode i); try discriminate El; injection El as <-; gpr. }
    destruct (link_spec m k r npc Hi Hr Hn) as (m' & Hl & _ & Hn' & Hq). exists m'. split.
    + eapply (exec_branch_linked i m m' k npc (linked i npc (rs i) a));
        [by rewrite El|exact Hn'| | |by apply linked_s32|].
      * rewrite (linked_some i npc r) by done. apply Hq; [gpr|done].
      * apply Hq; [gpr|exact Hb].
      * rewrite <- Ht. rewrite !(linked_some i npc r) by done.
        unfold branch_target, link_register in *. by destruct (opCode i); try discriminate El.
    + intros q v Hq' Hv. rewrite (linked_some i npc r) by done. by apply Hq.
  - exists m. rewrite linked_none in Ht by done. split.
    + eapply exec_branch_linked; [by rewrite El|done|done|done|done|done].
    + intros q v _ Hv. by rewrite linked_none.
Qed.


(** The instruction at the program counter is [i], fetched in [m0], [k0]. *)
Definition fetched m k i (m0 : Machine) (k0 : K) : Prop :=
  exists pc raw, reg m PCReg = Ok pc /\ ReadMem pc 4 m k = Ok (Some raw, m0, k0) /\ Decode (u32 raw) = Ok i.

Lemma fetched_inv m k i m0 k0 : inv m k -> fetched m k i m0 k0 ->
  inv m0 k0 /\ registers m0 = registers m /\ wf_instr i.
Proof.
  intros Hi (pc & raw & Hpc & HR & HD).
  destruct (pre_reg m k PCReg (inv_pre _ _ Hi)) as (pc' & Hpc' & Hpcs); [done|].
  rewrite Hpc in Hpc'. injection Hpc' as <-.
  pose proof (ReadMem_ok m k pc 4 Hi Hpcs ltac:(unfold access_size; lia)) as HRo.
  rewrite HR in HRo. destruct HRo as (Hi0 & Hregs & _).
  destruct (Decode_ok (u32 raw)) as (i' & HD' & _ & Hwf). rewrite HD in HD'. by injection HD' as <-.
Qed.

Lemma fetched_commits m k i m0 k0 npc mb kb pcAfter r v : fetched m k i m0 k0 ->
  registers m0 = registers m -> reg m NextPCReg = Ok npc ->
  exec i (s32 (npc + 4)) m0 k0 = Ok (Break mb kb pcAfter r v) -> commits m k i mb kb pcAfter r v.
Proof.
  intros (pc & raw & Hpc & HR & HD) Hregs Hn HE. exists pc, raw, m0, k0, npc.
  split_and!; try done. unfold reg. by rewrite Hregs.
Qed.
End delay.

(** ** Properties *)

(** [Mult] computes the full 64-bit product: the high and low words it
    returns are those of [a * b], signed or of the operands as unsigned words,
    for all operands (the most negative one too). *)
Theorem Mult_exact (a b : Z) (signedArith : bool) (Ha : is_s32 a) (Hb : is_s32 b) :
  exists hi lo, Mult a b signedArith = Ok (hi, lo) /\ is_s32 hi /\ is_s32 lo /\
    u32 hi * 2 ^ 32 + u32 lo = (if signedArith then a * b else u32 a * u32 b) mod 2 ^ 64.
Proof. by apply Mult_ok. Qed.

(** C36. Decoding inverts the MIPS encodings: a word assembled from an operation
    the simulator supports, register numbers and an immediate, shift amount or
    jump target decodes to that operation and those operands, the immediate
    sign-extended. *)
Theorem Decode_inverts_assemble (op : OpCode) (e : Encoding) (rs0 rt0 rd0 imm : Z)
    (Henc : encoding op = Some e) (Hrs : 0 <= rs0 < 32) (Hrt : 0 <= rt0 < 32)
    (Hrd : 0 <= rd0 < 32) (Himm : imm_ok e imm) :
  exists i, Decode (assemble e rs0 rt0 rd0 imm) = Ok i /\ opCode i = op /\
    operands_are e i rs0 rt0 rd0 imm.
Proof. by apply Decode_assemble. Qed.

(** C25. Every arithmetic, logical, shift and comparison instruction computes
    what the MIPS manual defines, and traps exactly on signed overflow, except
    the logical right shifts [SRL] and [SRLV] of a negative operand by a nonzero
    amount: there the simulator shifts an [int], the register gets the
    arithmetic shift, and that is never the manual's result. *)
Theorem alu_instructions_exact {K : Type} `{Kernel K} (i : Instruction) (pcAfter : Z)
    (m : Machine) (k : K) (a b : Z) (r : AluResult) (Hwf : wf_instr i)
    (Ha : reg m (rs i) = Ok a) (Hb : reg m (rt i) = Ok b) (Has : is_s32 a) (Hbs : is_s32 b)
    (Hspec : alu i a b = Some r) :
  let ends_with r :=
    exec i pcAfter m k =
      match r with
      | Value r v => m' ← set_reg m r v; Ok (Break m' k pcAfter 0 0)
      | Overflow => '(m', k') ← RaiseException OverflowException 0 m k; Ok (Return m' k')
      end in
  let sra := Value (rd i) (b / 2 ^ shift_amount i a) in
  if logical_right_shift i && (b <? 0) && negb (shift_amount i a =? 0)
  then ends_with sra /\ r <> sra
  else ends_with r.
Proof.
  intros ends_with sra. destruct (_ && _) eqn:E.
  - bool_to_prop. by apply exec_srl.
  - apply logical_shift_cases in E. unfold ends_with.
    rewrite (exec_alu i pcAfter m k a b r) by done. by destruct r.
Qed.

(** [LWL] at [a + 3] and [LWR] at [a], in either order, load the unaligned
    word at [a] whatever the register held, and [SWL] and [SWR] store it,
    leaving the other bytes of the two aligned words alone ([b] is [a mod 4];
    the aligned words are [w0], [w1] and [v0], [v1]). *)
Theorem unaligned_pair (b w0 w1 v0 v1 x r i : Z) (Hb : 0 <= b < 4)
    (Hw : b = 0 -> w1 = w0) (Hr : is_s32 r) :
  (0 <= i < 32 ->
    Z.testbit (lwr_merge b w0 (lwl_merge ((b + 3) mod 4) w1 x)) i
      = Z.testbit (wide w0 w1) (i + 8 * b) /\
    Z.testbit (lwl_merge ((b + 3) mod 4) w1 (lwr_merge b w0 x)) i
      = Z.testbit (wide w0 w1) (i + 8 * b)) /\
  (b = 0 -> swr_merge b v0 r = r /\ swl_merge ((b + 3) mod 4) v0 r = r) /\
  (b <> 0 -> 0 <= i < 64 ->
    Z.testbit (wide (swr_merge b v0 r) (swl_merge ((b + 3) mod 4) v1 r)) i =
      if (8 * b <=? i) && (i <? 8 * b + 32) then Z.testbit r (i - 8 * b)
      else Z.testbit (wide v0 v1) i).
Proof.
  split; [|split].
  - intros Hi. split; [by apply lwr_lwl|by apply lwl_lwr].
  - by intros ->.
  - intros. by apply swr_swl.
Qed.

(** C33. Load delay: a load ([LB], [LBU], [LH], [LHU], [LW]) from an aligned
    address that can be read does not change its register itself: the
    instruction after it still sees the old value of every general register
    (but for the load that was pending before).  When that instruction commits
    the register [rt] holds the value read, extended as the operation says,
    whatever the instruction did to it; the other registers are those the
    instruction left. *)
Theorem load_delayed {K : Type} `{KernelLaws K} (m : Machine) (k : K) (i : Instruction)
    (m0 : Machine) (k0 : K) (size a raw : Z) (m1 : Machine) (k1 : K) (l lv : Z) (Hinv : inv m k)
    (Hfetch : fetched m k i m0 k0) (Hop : load_size (opCode i) = Some size)
    (Ha : reg m (rs i) = Ok a) (Haligned : s32 (a + extra i) mod size = 0)
    (Hread : ReadMem (s32 (a + extra i)) size m0 k0 = Ok (Some raw, m1, k1))
    (Hl : reg m LoadReg = Ok l) (Hlv : reg m LoadValueReg = Ok lv) :
  exists m', OneInstruction m k = Ok (m', k1) /\ inv m' k1 /\ reg m' PCReg = reg m NextPCReg /\
    (forall q, 0 < q < NumGPRegs -> reg m' q = if q =? l then Ok lv else reg m q) /\
    forall j mb kb pcAfter r v, commits m' k1 j mb kb pcAfter r v ->
      exists m'', OneInstruction m' k1 = Ok (m'', kb) /\ inv m'' kb /\
        forall q, 0 < q < NumGPRegs ->
          reg m'' q = if q =? rt i then Ok (loaded (opCode i) raw) else reg mb q.
Proof.
  destruct (fetched_inv _ _ _ _ _ Hinv Hfetch) as (Hi0 & Hregs & Hwf).
  destruct (pre_reg m k NextPCReg (inv_pre _ _ Hinv)) as (npc & Hnpc & _); [done|].
  assert (Hsz : access_size size) by (unfold load_size in Hop; unfold access_size; destruct (opCode i); simplify_eq; auto).
  pose proof (ReadMem_ok m0 k0 _ size Hi0 (s32_range (a + extra i)) Hsz) as HRo. rewrite Hread in HRo.
  destruct HRo as (_ & Hregs1 & _).
  assert (Ha0 : reg m0 (rs i) = Ok a) by (unfold reg; by rewrite Hregs).
  pose proof (exec_load_spec i (s32 (npc + 4)) m0 k0 size a raw m1 k1 Hop Ha0 Haligned Hread) as HE.
  pose proof (fetched_commits _ _ _ _ _ _ _ _ _ _ _ Hfetch Hregs Hnpc HE) as Hcom.
  destruct (commits_step _ _ _ _ _ _ _ _ _ _ Hinv Hcom Hl Hlv)
    as (m' & Hone & Hi' & Hpc & _ & _ & Hl' & Hlv' & _ & Hq).
  exists m'. split_and!; try done.
  - intros q Hq'. rewrite (Hq q Hq'). case_match; [done|]. unfold reg. by rewrite Hregs1, Hregs.
  - intros j mb kb pcAfter r v Hcom2.
    destruct (commits_step _ _ _ _ _ _ _ _ _ _ Hi' Hcom2 Hl' Hlv')
      as (m'' & Hone2 & Hi2 & _ & _ & _ & _ & _ & _ & Hq2). by exists m''.
Qed.

(** C37. Branch delay: a branch or jump does not change where the next
    instruction is fetched, that is the delay slot at the old [NextPCReg] [npc];
    when the delay slot commits, execution goes on at the target: the offset
    from the delay slot if the branch is taken and past the slot if not, the
    index within the 256 MB region, or the register, for every opcode with its
    own condition.  The forms that link leave [npc + 4] in their register
    (before they read [rs], as the simulator does), and no other general
    register changes (but for the load that was pending). *)
Theorem branch_delayed {K : Type} `{KernelLaws K} (m : Machine) (k : K) (i : Instruction)
    (m0 : Machine) (k0 : K) (npc a b target l lv : Z) (Hinv : inv m k)
    (Hfetch : fetched m k i m0 k0) (Hnpc : reg m NextPCReg = Ok npc)
    (Ha : reg m (rs i) = Ok a) (Hb : reg m (rt i) = Ok b)
    (Htarget : branch_target i npc (linked i npc (rs i) a) b = Some target)
    (Hl : reg m LoadReg = Ok l) (Hlv : reg m LoadValueReg = Ok lv) :
  exists m', OneInstruction m k = Ok (m', k0) /\ inv m' k0 /\
    reg m' PCReg = Ok npc /\ reg m' NextPCReg = Ok target /\
    (forall q v, 0 < q < NumGPRegs -> reg m q = Ok v ->
       reg m' q = Ok (if q =? l then lv else linked i npc q v)) /\
    forall j mb kb pcAfter r v, commits m' k0 j mb kb pcAfter r v ->
      exists m'', OneInstruction m' k0 = Ok (m'', kb) /\ inv m'' kb /\ reg m'' PCReg = Ok target.
Proof.
  destruct (fetched_inv _ _ _ _ _ Hinv Hfetch) as (Hi0 & Hregs & Hwf).
  assert (Hsame : forall q, reg m0 q = reg m q) by (intros; unfold reg; by rewrite Hregs).
  destruct (operands i m k Hwf Hinv) as (a' & b' & Ha' & _ & Has & _).
  assert (a' = a) as -> by congruence.
  destruct (pre_reg m k NextPCReg (inv_pre _ _ Hinv)) as (npc' & Hnpc' & Hns); [done|].
  assert (npc' = npc) as -> by congruence.
  destruct (exec_branch_spec i m0 k0 npc a b target Hwf Hi0) as (mb & HE & Hmb);
    [by rewrite ?Hsame..|done|done|done|].
  pose proof (fetched_commits _ _ _ _ _ _ _ _ _ _ _ Hfetch Hregs Hnpc HE) as Hcom.
  destruct (commits_step _ _ _ _ _ _ _ _ _ _ Hinv Hcom Hl Hlv)
    as (m' & Hone & Hi' & Hpc & Hnp & _ & Hl' & Hlv' & _ & Hq).
  exists m'. split_and!; try done; [congruence| |].
  - intros q v Hq' Hv. rewrite (Hq q Hq'). case_match; [done|].
    apply Hmb; [lia|]. by rewrite Hsame.
  - intros j mb2 kb pcAfter r v Hcom2.
    destruct (commits_step _ _ _ _ _ _ _ _ _ _ Hi' Hcom2 Hl' Hlv')
      as (m'' & Hone2 & Hi2 & Hpc2 & _). exists m''. split_and!; try done. congruence.
Qed.

(** C7. User programs cannot break the simulator: however many instructions run,
    the machine stays well-formed (forty [int] registers, register 0 zero, the
    delayed load aimed at a general register, a full memory of bytes, an intact
    page table).  A fault has one of three causes, found in the state the run
    has reached: the kernel, entered by an instruction or by the tick after it,
    the debugger, or the host's trap, and that trap only when the instruction at
    the program counter of that very state is a [DIV] of the most negative
    number by -1 (a division by zero does not trap). *)
Theorem Run_keeps_machine {K : Type} `{KernelLaws K} (Debugger : Machine -> K -> res (Machine * K))
    (HD : forall m k m' k', inv m k -> Debugger m k = Ok (m', k') -> inv m' k')
    (n : nat) (m : Machine) (k : K) (Hinv : inv m k) :
  match Run Debugger n m k with
  | Ok (m', k') => inv m' k'
  | Fault f => exists j m1 k1, (j < n)%nat /\ Run Debugger j m k = Ok (m1, k1) /\
      match OneInstruction m1 k1 with
      | Fault g => g = f /\ (kernel_fault f \/ (f = ArithTrap /\ div_traps m1 k1))
      | Ok (m2, k2) =>
          match OneTick m2 k2 with
          | Fault g => g = f
          | Ok (m3, k3) => Debugger m3 k3 = Fault f
          end
      end
  end.
Proof.
  unfold Run. assert (Hs : inv m (setStatus UserMode k)).
  { destruct Hinv. split; [done|by apply setStatus_inv]. }
  revert Hs. clear Hinv. generalize (setStatus UserMode k) as k1. clear k. revert m.
  induction n as [|n IH]; intros m k Hi; [done|]. cbn [run_rounds].
  pose proof (OneInstruction_ok m k Hi) as HO.
  destruct (OneInstruction m k) as [[m1 k1]|f] eqn:EO; cbn [rbind].
  2: { exists 0%nat, m, k. rewrite EO. by split; [lia|]. }
  destruct (OneTick m1 k1) as [[m2 k2]|f] eqn:ET; cbn [rbind].
  2: { exists 0%nat, m, k. rewrite EO, ET. by split; [lia|]. }
  destruct (OneTick_inv _ _ _ _ (proj1 HO) (proj2 HO) ET) as [Hg2 Hk2].
  destruct (if singleStep m2 && _ then _ else _) as [[m3 k3]|f] eqn:ED; cbn [rbind].
  2: { exists 0%nat, m, k. rewrite EO, ET. split; [lia|]. split; [done|]. by destruct (_ && _). }
  assert (Hi3 : inv m3 k3).
  { destruct (_ && _); [|by injection ED as <- <-]. by eapply HD; [|exact ED]. }
  specialize (IH m3 k3 Hi3). destruct (run_rounds Debugger n m3 k3) as [[m' k']|f]; [done|].
  destruct IH as (j & m' & k' & Hj & Hrun & Hf). exists (S j), m', k'. split; [lia|].
  split; [|done]. cbn [run_rounds]. rewrite EO. cbn [rbind]. rewrite ET. cbn [rbind].
  rewrite ED. by cbn [rbind].
Qed.

(** *** Witnesses *)

(** A user program of two instructions, [ADDI r1, r0, -5] and [SB r1, 64(r0)], in
    the page of the example machine, and the kernel that only counts. *)
Definition example_program : Machine :=
  mkMachine
    (splice 640 (le_split 4 (assemble (EncI 8) 0 1 0 (-5)) ++ le_split 4 (assemble (EncI 40) 0 1 0 64))
       (mainMemory example_machine))
    (pageTableMap example_machine) None (Some [example_entry]) 1
    (<[Z.to_nat NextPCReg := 4]> (registers example_machine)) false 0.

#[local] Instance idle_laws : @KernelLaws Z idle_kernel.
Proof.
  apply (Build_KernelLaws Z idle_kernel (fun _ => True)).
  - done.
  - intros which m k m' k' Hg _ [= <- <-]. done.
  - intros m k m' k' Hg _ [= <- <-]. done.
Defined.

Lemma example_program_inv : inv (H0 := idle_laws) example_program 0.
Proof.
  split; [|done]. split; [split; split|].
  - done.
  - split; [|split; [done|by exists 0]].
    apply Forall_insert; [apply Forall_replicate|]; unfold is_s32; lia.
  - unfold zlen. cbn [mainMemory example_program]. rewrite length_splice.
    + apply example_mem.
    + pose proof (proj1 example_mem) as Hl. unfold zlen, MemorySize, NumPhysPages, PageSize in Hl.
      rewrite length_app, !length_le_split. lia.
  - apply Forall_splice; [|apply example_mem]. apply Forall_app. split; apply le_split_bytes.
  - apply example_tables.
Qed.

Lemma Mult_exact_witness :
  exists hi lo, Mult (- 2 ^ 31) (-3) true = Ok (hi, lo) /\ is_s32 hi /\ is_s32 lo /\
    u32 hi * 2 ^ 32 + u32 lo = (- 2 ^ 31 * -3) mod 2 ^ 64.
Proof. apply (Mult_exact (- 2 ^ 31) (-3) true); unfold is_s32; lia. Defined.

Lemma Decode_inverts_assemble_witness :
  exists i, Decode 0x2001fffb = Ok i /\ opCode i = OP_ADDI /\ extra i = -5 /\ rs i = 0 /\ rt i = 1.
Proof.
  destruct (Decode_inverts_assemble OP_ADDI (EncI 8) 0 1 0 (-5)) as (i & Hd & Ho & Hx & Hr & Ht);
    [reflexivity|lia..|cbn [imm_ok]; lia|].
  exists i. split; [exact Hd|]. split; [exact Ho|]. split; [exact Hx|]. split; [exact Hr|exact Ht].
Defined.

Lemma alu_instructions_exact_witness :
  let i := mkInstruction 0 OP_ADD 1 2 3 0 in
  let m := set_registers example_machine (<[1%nat := 2 ^ 31 - 1]> (<[2%nat := 1]> (replicate 40 0))) in
  let j := mkInstruction 0 OP_SRL 0 1 2 4 in
  let m2 := set_registers example_machine (<[1%nat := -16]> (replicate 40 0)) in
  exec (H := idle_kernel) i 8 m 0 =
    ('(m', k') ← RaiseException (H := idle_kernel) OverflowException 0 m 0; Ok (Return m' k')) /\
  exec (H := idle_kernel) j 8 m2 0 = (m' ← set_reg m2 2 (-1); Ok (Break m' 0 8 0 0)) /\
  alu j 0 (-16) = Some (Value 2 0x0fffffff).
Proof.
  split; [|split; [|reflexivity]].
  - exact (alu_instructions_exact (H := idle_kernel) (mkInstruction 0 OP_ADD 1 2 3 0) 8
      (set_registers example_machine (<[1%nat := 2 ^ 31 - 1]> (<[2%nat := 1]> (replicate 40 0)))) 0
      (2 ^ 31 - 1) 1 Overflow
      ltac:(unfold wf_instr, is_s32; cbn; split_and!; done || lia)
      ltac:(reflexivity) ltac:(reflexivity) ltac:(unfold is_s32; lia) ltac:(unfold is_s32; lia)
      ltac:(reflexivity)).
  - exact (proj1 (alu_instructions_exact (H := idle_kernel) (mkInstruction 0 OP_SRL 0 1 2 4) 8
      (set_registers example_machine (<[1%nat := -16]> (replicate 40 0))) 0 0 (-16)
      (Value 2 0x0fffffff)
      ltac:(unfold wf_instr, is_s32; cbn; split_and!; done || lia)
      ltac:(reflexivity) ltac:(reflexivity) ltac:(unfold is_s32; lia) ltac:(unfold is_s32; lia)
      ltac:(reflexivity))).
Defined.

Lemma unaligned_pair_witness :
  Z.testbit (lwr_merge 1 0x44332211 (lwl_merge 0 0x00665588 (-1))) 31 = Z.testbit 0x88443322 31.
Proof.
  exact (proj1 (proj1 (unaligned_pair 1 0x44332211 0x00665588 0 0 (-1) 0 31
    ltac:(lia) ltac:(lia) ltac:(unfold is_s32; lia)) ltac:(lia))).
Defined.

(** The machine about to run the two instructions [i1] and [i2]. *)
Definition two_instructions (i1 i2 : Z) : Machine :=
  mkMachine (splice 640 (le_split 4 i1 ++ le_split 4 i2) (mainMemory example_machine))
    (pageTableMap example_machine) None (Some [example_entry]) 1
    (<[Z.to_nat NextPCReg := 4]> (registers example_machine)) false 0.

Lemma two_instructions_inv i1 i2 : inv (H0 := idle_laws) (two_instructions i1 i2) 0.
Proof.
  split; [|done]. split; [split; split|].
  - done.
  - split; [|split; [done|by exists 0]].
    apply Forall_insert; [apply Forall_replicate|]; unfold is_s32; lia.
  - unfold zlen. cbn [mainMemory two_instructions]. rewrite length_splice.
    + apply example_mem.
    + pose proof (proj1 example_mem) as Hl. unfold zlen, MemorySize, NumPhysPages, PageSize in Hl.
      rewrite length_app, !length_le_split. lia.
  - apply Forall_splice; [|apply example_mem]. apply Forall_app. split; apply le_split_bytes.
  - apply example_tables.
Qed.

(** [LB r1, 3(r0)] reads the last byte of its own code, 0x80; [ADDI r2, r1, 1]
    after it still sees 0 in [r1], which then holds -128. *)
Definition load_program : Machine :=
  two_instructions (assemble (EncI 32) 0 1 0 3) (assemble (EncI 8) 1 2 0 1).

Definition machine_after (size : Z) (addr : Z) (m : Machine) : Machine :=
  match ReadMem (H := idle_kernel) addr size m 0 with Ok (_, m', _) => m' | Fault _ => m end.

Lemma load_delayed_witness :
  exists m1 m2, OneInstruction (H := idle_kernel) load_program 0 = Ok (m1, 0) /\ reg m1 1 = Ok 0 /\
    OneInstruction (H := idle_kernel) m1 0 = Ok (m2, 0) /\ reg m2 1 = Ok (-128) /\ reg m2 2 = Ok 1.
Proof.
  edestruct (load_delayed (H0 := idle_laws) load_program 0 (mkInstruction 0x80010003 OP_LB 0 1 0 3)
    (machine_after 4 0 load_program) 0 1 0 (-128) (machine_after 1 3 (machine_after 4 0 load_program)) 0
    0 0 (two_instructions_inv _ _)) as (m' & Hone & Hi' & Hpc & Hq & Hnext).
  - eexists 0, _. split; [reflexivity|]. split; [vm_compute; reflexivity|]. vm_compute. reflexivity.
  - reflexivity.
  - reflexivity.
  - reflexivity.
  - vm_compute. reflexivity.
  - reflexivity.
  - reflexivity.
  - exists m'. edestruct Hnext as (m'' & Hone2 & _ & Hq2); [|exists m''; split_and!].
    + vm_compute in Hone. injection Hone as <-. eexists 4, _, _, 0, 8.
      split; [reflexivity|]. split; [vm_compute; reflexivity|].
      split; [vm_compute; reflexivity|]. split; [vm_compute; reflexivity|]. vm_compute. reflexivity.
    + exact Hone.
    + rewrite Hq by (unfold NumGPRegs; lia). reflexivity.
    + exact Hone2.
    + rewrite Hq2 by (unfold NumGPRegs; lia). reflexivity.
    + rewrite Hq2 by (unfold NumGPRegs; lia). reflexivity.
Defined.

(** [BGEZAL r0, -4] at address 0, with [ADDI r2, r31, 1] in its delay slot,
    which sees the link. *)
Definition branch_program : Machine :=
  two_instructions (assemble (EncB 17) 0 0 0 (-4)) (assemble (EncI 8) 31 2 0 1).

Lemma branch_delayed_witness :
  exists m1 m2, OneInstruction (H := idle_kernel) branch_program 0 = Ok (m1, 0) /\
    reg m1 PCReg = Ok 4 /\ reg m1 31 = Ok 8 /\
    OneInstruction (H := idle_kernel) m1 0 = Ok (m2, 0) /\ reg m2 PCReg = Ok (-12).
Proof.
  edestruct (branch_delayed (H0 := idle_laws) branch_program 0
    (mkInstruction 0x0411fffc OP_BGEZAL 0 17 31 (-4))
    (machine_after 4 0 branch_program) 0 4 0 0 (-12) 0 0 (two_instructions_inv _ _))
    as (m' & Hone & Hi' & Hpc & Hnpc & Hq & Hnext).
  - eexists 0, _. split; [reflexivity|]. split; [vm_compute; reflexivity|]. vm_compute. reflexivity.
  - reflexivity.
  - reflexivity.
  - reflexivity.
  - vm_compute. reflexivity.
  - reflexivity.
  - reflexivity.
  - exists m'. edestruct Hnext as (m'' & Hone2 & _ & Hpc2); [|exists m''; split_and!].
    + vm_compute in Hone. injection Hone as <-. eexists 4, _, _, 0, (-12).
      split; [reflexivity|]. split; [vm_compute; reflexivity|].
      split; [vm_compute; reflexivity|]. split; [vm_compute; reflexivity|]. vm_compute. reflexivity.
    + exact Hone.
    + exact Hpc.
    + rewrite (Hq 31 0) by (unfold NumGPRegs; lia || reflexivity). reflexivity.
    + exact Hone2.
    + exact Hpc2.
Defined.

(** The machine about to run [DIV r1, r2] with the two operands that trap, and
    with a divisor of zero. *)
Definition division_program (divisor : Z) : Machine :=
  mkMachine
    (splice 640 (le_split 4 (assemble (EncR 26) 1 2 0 0)) (mainMemory example_machine))
    (pageTableMap example_machine) None (Some [example_entry]) 1
    (<[Z.to_nat NextPCReg := 4]> (<[1%nat := - 2 ^ 31]> (<[2%nat := divisor]>
      (registers example_machine)))) false 0.

Lemma division_program_inv divisor : is_s32 divisor ->
  inv (H0 := idle_laws) (division_program divisor) 0.
Proof.
  intros Hd. split; [|done]. split; [split; split|].
  - done.
  - split; [|split; [done|by exists 0]].
    repeat (apply Forall_insert; [|unfold is_s32 in *; lia]).
    apply Forall_replicate. unfold is_s32. lia.
  - unfold zlen. cbn [mainMemory division_program]. rewrite length_splice.
    + apply example_mem.
    + pose proof (proj1 example_mem) as Hl. unfold zlen, MemorySize, NumPhysPages, PageSize in Hl.
      rewrite length_le_split. lia.
  - apply Forall_splice; [|apply example_mem]. apply le_split_bytes.
  - apply example_tables.
Qed.

Lemma Run_keeps_machine_witness :
  match Run (H := idle_kernel) (fun m k => Ok (m, k)) 2 example_program 0 with
  | Ok (m', k') => inv (H0 := idle_laws) m' k'
  | Fault f => False
  end /\ Run (H := idle_kernel) (fun m k => Ok (m, k)) 1 (division_program (-1)) 0 = Fault ArithTrap /\
  div_traps (H := idle_kernel) (division_program (-1)) 0.
Proof.
  split; [|split].
  - pose proof (Run_keeps_machine (H0 := idle_laws) (fun (m : Machine) (k : Z) => Ok (m, k))
      ltac:(intros m k m' k' Hi [= <- <-]; exact Hi) 2 example_program 0 example_program_inv) as HR.
    revert HR. destruct (Run _ 2 example_program 0) as [[m' k']|f] eqn:E; [intros HR; exact HR|].
    vm_compute in E. discriminate E.
  - vm_compute. reflexivity.
  - pose proof (Run_keeps_machine (H0 := idle_laws) (fun (m : Machine) (k : Z) => Ok (m, k))
      ltac:(intros m k m' k' Hi [= <- <-]; exact Hi) 1 (division_program (-1)) 0
      (division_program_inv (-1) ltac:(unfold is_s32; lia))) as HR.
    assert (Run (H := idle_kernel) (fun m k => Ok (m, k)) 1 (division_program (-1)) 0 = Fault ArithTrap)
      as E by (vm_compute; reflexivity).
    rewrite E in HR. destruct HR as (j & m1 & k1 & Hj & Hrun & Hf).
    assert (j = 0%nat) as -> by lia. injection Hrun as <- <-.
    assert (OneInstruction (H := idle_kernel) (division_program (-1)) 0 = Fault ArithTrap) as EO
      by (vm_compute; reflexivity).
    rewrite EO in Hf. destruct Hf as [_ [[(which & m & k & Hk)|(m & k & Hk)]|[_ Hd]]];
      [discriminate Hk|discriminate Hk|exact Hd].
Defined.

(** A division by zero gives zero, it does not trap. *)
Example division_by_zero :
  ('(m, k) ← Run (H := idle_kernel) (fun m k => Ok (m, k)) 1 (division_program 0) 0;
   hi ← reg m HiReg; lo ← reg m LoReg; Ok (hi, lo)) = Ok (0, 0).
Proof. vm_compute. reflexivity. Qed.

(** Running the two instructions stores the byte. *)
Example run_program :
  ('(m, k) ← Run (H := idle_kernel) (fun m k => Ok (m, k)) 2 example_program 0;
   b ← arr_get (mainMemory m) (640 + 64); Ok (b, k)) = Ok (251, 2).
Proof. vm_compute. reflexivity. Qed.
End Mips.
