(* ===== verification/Interrupt.v ===== *)
(** Simulated time and interrupts ([machine/stats.h], [machine/stats.cc],
    [machine/interrupt.h], [machine/interrupt.cc], [machine/timer.h],
    [machine/timer.cc], [threads/alarm.h], [threads/alarm.cc]): the clock, the
    sorted list of pending interrupts and the loop that fires those due.  The
    devices' handlers and the thread switch are the interface [Devices]. *)

From Stdlib Require Import Sorted.
From S2P Require Import Prelude Bitmap Lists Machine.

(** ** Statistics *)

Module Stats.

Definition UserTick : Z := 1.
Definition SystemTick : Z := 10.
Definition RotationTime : Z := 500.
Definition SeekTime : Z := 500.
Definition ConsoleTime : Z := 100.
Definition NetworkTime : Z := 100.
Definition TimerTicks : Z := 100.

Record Statistics := mkStatistics {
  totalTicks : Z;
  idleTicks : Z;
  systemTicks : Z;
  userTicks : Z;
  numDiskReads : Z;
  numDiskWrites : Z;
  numConsoleCharsRead : Z;
  numConsoleCharsWritten : Z;
  numPageFaults : Z;
  numPacketsSent : Z;
  numPacketsRecvd : Z;
}.

Definition new_Statistics : Statistics := mkStatistics 0 0 0 0 0 0 0 0 0 0 0.

(** The updates of the clock; the other counters are kept. *)
Definition set_ticks (s : Statistics) (total idle system user : Z) : Statistics :=
  mkStatistics total idle system user (numDiskReads s) (numDiskWrites s)
    (numConsoleCharsRead s) (numConsoleCharsWritten s) (numPageFaults s)
    (numPacketsSent s) (numPacketsRecvd s).
Definition system_tick (s : Statistics) : Statistics :=
  set_ticks s (s32 (totalTicks s + SystemTick)) (idleTicks s) (s32 (systemTicks s + SystemTick))
    (userTicks s).
Definition user_tick (s : Statistics) : Statistics :=
  set_ticks s (s32 (totalTicks s + UserTick)) (idleTicks s) (systemTicks s)
    (s32 (userTicks s + UserTick)).
(** [stats->idleTicks += (when - stats->totalTicks); stats->totalTicks = when;] *)
Definition idle_until (s : Statistics) (when : Z) : Statistics :=
  set_ticks s when (s32 (idleTicks s + s32 (when - totalTicks s))) (systemTicks s) (userTicks s).

Definition disk_read (s : Statistics) : Statistics :=
  mkStatistics (totalTicks s) (idleTicks s) (systemTicks s) (userTicks s)
    (s32 (numDiskReads s + 1)) (numDiskWrites s) (numConsoleCharsRead s)
    (numConsoleCharsWritten s) (numPageFaults s) (numPacketsSent s) (numPacketsRecvd s).
Definition disk_write (s : Statistics) : Statistics :=
  mkStatistics (totalTicks s) (idleTicks s) (systemTicks s) (userTicks s)
    (numDiskReads s) (s32 (numDiskWrites s + 1)) (numConsoleCharsRead s)
    (numConsoleCharsWritten s) (numPageFaults s) (numPacketsSent s) (numPacketsRecvd s).

(** The time is accounted for. *)
Definition balanced (s : Statistics) : Prop :=
  totalTicks s = idleTicks s + systemTicks s + userTicks s /\
  0 <= idleTicks s /\ 0 <= systemTicks s /\ 0 <= userTicks s.

End Stats.
Import Stats.

(** ** Interrupts *)

Module Interrupt.

Inductive IntStatus : Set := IntOff | IntOn.
Inductive IntType : Set :=
| TimerInt | DiskInt | ConsoleWriteInt | ConsoleReadInt | NetworkSendInt | NetworkRecvInt.

#[global] Instance IntStatus_eq_dec : EqDecision IntStatus.
Proof. solve_decision. Defined.
#[global] Instance IntType_eq_dec : EqDecision IntType.
Proof. solve_decision. Defined.
#[global] Instance MachineStatus_eq_dec : EqDecision Machine.MachineStatus.
Proof. solve_decision. Defined.

(** A [PendingInterrupt] object; [addr] is its address, which is what the list
    of pointers compares.  [C] names the objects with a [CallBack]. *)
Record PendingInterrupt (C : Type) := mkPending {
  addr : positive;
  callOnInterrupt : C;
  when : Z;
  type : IntType;
}.
Arguments mkPending {C} addr callOnInterrupt when type.
Arguments addr {C} p.
Arguments callOnInterrupt {C} p.
Arguments when {C} p.
Arguments type {C} p.

#[global] Instance Pending_eq_dec C `{EqDecision C} : EqDecision (PendingInterrupt C).
Proof. solve_decision. Defined.

Definition PendingCompare {C} (x y : PendingInterrupt C) : Z :=
  if when x <? when y then -1 else if when y <? when x then 1 else 0.

(** The [Interrupt] object; [alloc] is where [new] finds the next object. *)
Record Interrupt (C : Type) := mkInterrupt {
  level : IntStatus;
  pending : Lists.List (PendingInterrupt C);
  inHandler : bool;
  yieldOnReturn : bool;
  status : Machine.MachineStatus;
  alloc : positive;
}.
Arguments mkInterrupt {C} level pending inHandler yieldOnReturn status alloc.
Arguments level {C} i.
Arguments pending {C} i.
Arguments inHandler {C} i.
Arguments yieldOnReturn {C} i.
Arguments status {C} i.
Arguments alloc {C} i.

(** The simulation: interrupts, statistics, the machine and the rest [W] of the
    system (devices, threads). *)
Record Sim (C W : Type) := mkSim {
  interrupt : Interrupt C;
  stats : Statistics;
  machine : option Machine.Machine;
  rest : W;
}.
Arguments mkSim {C W} interrupt stats machine rest.
Arguments interrupt {C W} s.
Arguments stats {C W} s.
Arguments machine {C W} s.
Arguments rest {C W} s.

(** What an interrupt calls: the handler of an object, and the yield of the
    current thread; and the destructor of the kernel, which does not return: it
    ends the process, or faults on the way. *)
Class Devices (C W : Type) := {
  CallBack : C -> Sim C W -> res (Sim C W);
  Yield : Sim C W -> res (Sim C W);
  delete_kernel : Sim C W -> fault;
}.

Section code.
Context {C W : Type} `{EqDecision C} `{Devices C W}.
Implicit Types (i : Interrupt C) (s : Sim C W) (c : C).

Definition new_Interrupt : Interrupt C :=
  mkInterrupt IntOff Lists.new_List false false Machine.SystemMode 1.

Definition with_interrupt s i : Sim C W := mkSim i (stats s) (machine s) (rest s).
Definition with_stats s st : Sim C W := mkSim (interrupt s) st (machine s) (rest s).

Definition set_level i l : Interrupt C :=
  mkInterrupt l (pending i) (inHandler i) (yieldOnReturn i) (status i) (alloc i).
Definition set_pending i p : Interrupt C :=
  mkInterrupt (level i) p (inHandler i) (yieldOnReturn i) (status i) (alloc i).
Definition set_inHandler i b : Interrupt C :=
  mkInterrupt (level i) (pending i) b (yieldOnReturn i) (status i) (alloc i).
Definition set_yield i b : Interrupt C :=
  mkInterrupt (level i) (pending i) (inHandler i) b (status i) (alloc i).
Definition set_status i st : Interrupt C :=
  mkInterrupt (level i) (pending i) (inHandler i) (yieldOnReturn i) st (alloc i).

Definition on_interrupt (f : Interrupt C -> Interrupt C) s : Sim C W :=
  with_interrupt s (f (interrupt s)).

Definition ChangeLevel (old now : IntStatus) s : Sim C W :=
  on_interrupt (fun i => set_level i now) s.

Definition getLevel s : IntStatus := level (interrupt s).
Definition getStatus s : Machine.MachineStatus := status (interrupt s).
Definition setStatus (st : Machine.MachineStatus) s : Sim C W :=
  on_interrupt (fun i => set_status i st) s.

Definition YieldOnReturn s : res (Sim C W) :=
  ASSERT (inHandler (interrupt s)) ;;
  Ok (on_interrupt (fun i => set_yield i true) s).

(** The object is made before the assertion on [fromNow]. *)
Definition Schedule c (fromNow : Z) (t : IntType) s : res (Sim C W) :=
  let i := interrupt s in
  let at_ := s32 (totalTicks (stats s) + fromNow) in
  let toOccur := mkPending (alloc i) c at_ t in
  let i := mkInterrupt (level i) (pending i) (inHandler i) (yieldOnReturn i) (status i)
             (Pos.succ (alloc i)) in
  ASSERT (0 <? fromNow) ;;
  p ← Lists.Insert PendingCompare (pending i) toOccur;
  Ok (with_interrupt s (set_pending i p)).

(** The body of the loop of [CheckIfDue], and whether it goes round again. *)
Definition fire s : res (bool * Sim C W) :=
  '(next, p) ← Lists.RemoveFront (pending (interrupt s));
  s ← CallBack (callOnInterrupt next) (on_interrupt (fun i => set_pending i p) s);
  again ← (if Lists.IsEmpty (pending (interrupt s)) then Ok false
           else f ← Lists.Front (pending (interrupt s));
                Ok (when f <=? totalTicks (stats s)));
  Ok (again, s).

Definition fire_loop (n : nat) : Sim C W -> res (Sim C W) :=
  loop n (fun s => '(again, s) ← fire s; Ok (if again then inl s else inr s)).

Definition CheckIfDue (advanceClock : bool) s : res (bool * Sim C W) :=
  ASSERT (bool_decide (level (interrupt s) = IntOff)) ;;
  if Lists.IsEmpty (pending (interrupt s)) then Ok (false, s)
  else
    next ← Lists.Front (pending (interrupt s));
    if (totalTicks (stats s) <? when next) && negb advanceClock then Ok (false, s)
    else
      let s := if totalTicks (stats s) <? when next
               then with_stats s (idle_until (stats s) (when next)) else s in
      s ← match machine s with
          | Some m => m ← Machine.DelayedLoad m 0 0;
                      Ok (mkSim (interrupt s) (stats s) (Some m) (rest s))
          | None => Ok s
          end;
      let s := on_interrupt (fun i => set_inHandler i true) s in
      s ← fire_loop (S (Z.to_nat (Lists.NumInList (pending (interrupt s))))) s;
      Ok (true, on_interrupt (fun i => set_inHandler i false) s).

(** [OneTick] up to the yield: the clock, and the interrupts that are due. *)
Definition tick s : res (Sim C W) :=
  let s := with_stats s (if decide (status (interrupt s) = Machine.SystemMode)
                         then system_tick (stats s) else user_tick (stats s)) in
  let s := ChangeLevel IntOn IntOff s in
  '(_, s) ← CheckIfDue false s;
  Ok (ChangeLevel IntOff IntOn s).

Definition OneTick s : res (Sim C W) :=
  let oldStatus := status (interrupt s) in
  s ← tick s;
  if yieldOnReturn (interrupt s) then
    let s := on_interrupt (fun i => set_status (set_yield i false) Machine.SystemMode) s in
    s ← Yield s;
    Ok (on_interrupt (fun i => set_status i oldStatus) s)
  else Ok s.

Definition SetLevel (now : IntStatus) s : res (IntStatus * Sim C W) :=
  let old := level (interrupt s) in
  ASSERT (bool_decide (now = IntOff) || negb (inHandler (interrupt s))) ;;
  let s := ChangeLevel old now s in
  if decide (now = IntOn /\ old = IntOff) then s ← OneTick s; Ok (old, s) else Ok (old, s).

Definition Enable s : res (Sim C W) := '(_, s) ← SetLevel IntOn s; Ok s.

(** [Halt] deletes the kernel, which does not return. *)
Definition Halt (destructor : Sim C W -> fault) s : res (Sim C W) := Fault (destructor s).

Definition Idle s : res (Sim C W) :=
  let s := on_interrupt (fun i => set_status i Machine.IdleMode) s in
  '(due, s) ← CheckIfDue true s;
  if (due : bool) then Ok (on_interrupt (fun i => set_status i Machine.SystemMode) s)
  else Halt delete_kernel s.

(** *** [Timer] and [Alarm] *)

(** The fields of a [Timer] other than whom it calls. *)
Record Timer := mkTimer { randomize : bool; disable : bool }.

(** [random] is what [RandomNumber()] returns; [self] the timer itself. *)
Definition SetInterrupt (t : Timer) (self : C) (random : Z) s : res (Sim C W) :=
  if negb (disable t) then
    let delay := if randomize t then 1 + Z.rem random (TimerTicks * 2) else TimerTicks in
    Schedule self delay TimerInt s
  else Ok s.

Definition new_Timer (doRandom : bool) (self : C) (random : Z) s : res (Timer * Sim C W) :=
  let t := mkTimer doRandom false in
  s ← SetInterrupt t self random s; Ok (t, s).

(** [callPeriodically] is the [CallBack] of the object the timer serves; it may
    disable the timer, whose fields are read again afterwards. *)
Definition Timer_CallBack (getTimer : Sim C W -> Timer) (self : C) (random : Z)
    (callPeriodically : Sim C W -> res (Sim C W)) s : res (Sim C W) :=
  s ← callPeriodically s;
  SetInterrupt (getTimer s) self random s.

Definition Disable (t : Timer) : Timer := mkTimer (randomize t) true.

(** [Alarm::CallBack]: a time slice ends, unless the machine is idle. *)
Definition Alarm_CallBack s : res (Sim C W) :=
  if decide (getStatus s <> Machine.IdleMode) then YieldOnReturn s else Ok s.
End code.

(** ** The pending list *)

Section theory.
Context {C W : Type} `{EqDecision C} `{Devices C W}.
Implicit Types (i : Interrupt C) (s : Sim C W) (c : C) (xs : list (PendingInterrupt C)).

(** The pending interrupts, in order of time; their addresses are below the next. *)
Definition Rep s xs : Prop :=
  Lists.rep (pending (interrupt s)) xs /\ Lists.in_order PendingCompare xs /\
  Forall (fun p => addr p < alloc (interrupt s))%positive xs.

(** Those due at a time. *)
Definition due (now : Z) xs : list (PendingInterrupt C) := filter (fun p => when p <= now) xs.

Lemma PendingCompare_total : Lists.total (@PendingCompare C).
Proof.
  intros a b. unfold PendingCompare.
  destruct (Z.ltb_spec (when a) (when b)), (Z.ltb_spec (when b) (when a)); lia.
Qed.

Lemma PendingCompare_le (a b : PendingInterrupt C) : PendingCompare a b <= 0 <-> when a <= when b.
Proof.
  unfold PendingCompare.
  destruct (Z.ltb_spec (when a) (when b)), (Z.ltb_spec (when b) (when a)); lia.
Qed.

Lemma in_order_cons x xs : Lists.in_order PendingCompare (x :: xs) ->
  Lists.in_order PendingCompare xs /\ Forall (fun y => when x <= when y) xs.
Proof.
  intros Ho. split; [by inversion Ho|].
  apply Sorted_StronglySorted in Ho.
  - inversion Ho as [|? ? _ Hall]. eapply Forall_impl; [exact Hall|].
    intros y Hy. by apply PendingCompare_le.
  - intros a b d. rewrite !PendingCompare_le. lia.
Qed.

Lemma due_none now xs : Forall (fun p => now < when p) xs -> due now xs = [].
Proof.
  intros Hall. unfold due. induction Hall as [|x xs Hx Hall IH]; [done|].
  rewrite filter_cons_False by lia. exact IH.
Qed.

Lemma due_front now x xs : Lists.in_order PendingCompare (x :: xs) ->
  due now (x :: xs) = if when x <=? now then x :: due now xs else [].
Proof.
  intros [_ Hall]%in_order_cons. destruct (Z.leb_spec (when x) now) as [Hle|Hgt].
  - unfold due. by rewrite filter_cons_True.
  - apply due_none. constructor; [done|]. eapply Forall_impl; [exact Hall|]. simpl. lia.
Qed.

Lemma due_nil_all now xs : due now xs = [] -> Forall (fun p => now < when p) xs.
Proof.
  intros Hd. apply Forall_forall. intros x Hx.
  destruct (decide (when x <= now)) as [Hle|]; [|lia].
  assert (x ∈ due now xs) as Hin by (apply list_elem_of_filter; done).
  rewrite Hd in Hin. by apply not_elem_of_nil in Hin.
Qed.

Lemma insert_due now x xs : now < when x ->
  due now (Lists.insert_sorted PendingCompare x xs) = due now xs.
Proof.
  intros Hx. unfold due. induction xs as [|y xs IH]; cbn [Lists.insert_sorted].
  - by rewrite filter_cons_False by lia.
  - destruct (PendingCompare x y <? 0); [by rewrite filter_cons_False by lia|].
    rewrite !filter_cons. by rewrite IH.
Qed.

Lemma Schedule_frame c n ty s s' : Schedule c n ty s = Ok s' ->
  rest s' = rest s /\ level (interrupt s') = level (interrupt s) /\
  inHandler (interrupt s') = inHandler (interrupt s).
Proof.
  intros E. unfold Schedule in E. apply ASSERT_inv in E as [_ E].
  apply bind_Ok_inv in E as (p & _ & E). by injection E as <-.
Qed.

(** [Schedule] puts a later interrupt on the list, and nothing else. *)
Lemma Schedule_ok c fromNow t s xs : Rep s xs -> 0 < fromNow ->
  totalTicks (stats s) + fromNow < 2 ^ 31 -> - 2 ^ 31 <= totalTicks (stats s) ->
  exists s' p, Schedule c fromNow t s = Ok s' /\ callOnInterrupt p = c /\
    when p = totalTicks (stats s) + fromNow /\ type p = t /\
    Rep s' (Lists.insert_sorted PendingCompare p xs) /\
    stats s' = stats s /\ machine s' = machine s /\ rest s' = rest s /\
    level (interrupt s') = level (interrupt s) /\ status (interrupt s') = status (interrupt s) /\
    inHandler (interrupt s') = inHandler (interrupt s) /\
    yieldOnReturn (interrupt s') = yieldOnReturn (interrupt s).
Proof.
  intros (Hr & Ho & Ha) Hf Hov Hlo. unfold Schedule. rewrite ASSERT_true by lia.
  rewrite s32_id by (unfold is_s32; lia). cbn [pending].
  set (p := mkPending _ _ _ _).
  pose proof (Lists.Insert_law PendingCompare _ _ p Hr) as HI.
  rewrite decide_False in HI.
  2: { intros Hin. rewrite Forall_forall in Ha. specialize (Ha p Hin).
       unfold p in Ha. cbn [addr] in Ha. lia. }
  destruct HI as (l & HI & Hr'). exists (with_interrupt s (set_pending
    (mkInterrupt (level (interrupt s)) (pending (interrupt s)) (inHandler (interrupt s))
       (yieldOnReturn (interrupt s)) (status (interrupt s)) (Pos.succ (alloc (interrupt s)))) l)), p.
  rewrite HI. split; [done|]. split; [done|]. split; [done|]. split; [done|].
  split; [|done]. split; [done|]. split.
  - apply Lists.insert_sorted_in_order; [apply PendingCompare_total|done].
  - rewrite Lists.insert_sorted_perm. constructor; [unfold p; cbn; lia|].
    eapply Forall_impl; [exact Ha|]. cbn. lia.
Qed.

Definition same_clock (st st' : Statistics) : Prop :=
  totalTicks st' = totalTicks st /\ idleTicks st' = idleTicks st /\
  systemTicks st' = systemTicks st /\ userTicks st' = userTicks st.
End theory.

(** The times for which nothing overflows: [when] is an [int]. *)
Definition in_time (t : Z) : Prop := 0 <= t < 2 ^ 30.

(** What a handler may do to the pending list and the clock: schedule later
    interrupts (see [Schedule_ok], [insert_due]), with interrupts off and the
    clock standing still. *)
Class DevicesLaws (C W : Type) `{EqDecision C} `{Devices C W} := {
  CallBack_law (c : C) (s s' : Sim C W) xs : Rep s xs -> level (interrupt s) = IntOff ->
    in_time (totalTicks (stats s)) -> CallBack c s = Ok s' ->
    exists xs', Rep s' xs' /\ due (totalTicks (stats s)) xs' = due (totalTicks (stats s)) xs /\
      same_clock (stats s) (stats s') /\ level (interrupt s') = IntOff;
}.

Section firing.
Context {C W : Type} `{DevicesLaws C W}.
Implicit Types (s : Sim C W) (xs : list (PendingInterrupt C)).

(** The handlers of [ps] are called, in this order, each after its interrupt is
    taken off the list. *)
Inductive fires : list (PendingInterrupt C) -> Sim C W -> Sim C W -> Prop :=
| fires_nil s : fires [] s s
| fires_cons p l ps s s1 s2 :
    Lists.RemoveFront (pending (interrupt s)) = Ok (p, l) ->
    CallBack (callOnInterrupt p) (on_interrupt (fun i => set_pending i l) s) = Ok s1 ->
    fires ps s1 s2 -> fires (p :: ps) s s2.

Definition handler_fault (f : fault) : Prop := exists c (s : Sim C W), CallBack c s = Fault f.

Lemma same_clock_trans st1 st2 st3 : same_clock st1 st2 -> same_clock st2 st3 -> same_clock st1 st3.
Proof. unfold same_clock. intros (?&?&?&?) (?&?&?&?). repeat split; congruence. Qed.

Lemma fire_ok s x xs : Rep s (x :: xs) -> level (interrupt s) = IntOff ->
  in_time (totalTicks (stats s)) ->
  match fire s with
  | Fault f => handler_fault f
  | Ok (again, s') => exists xs', Rep s' xs' /\ fires [x] s s' /\
      level (interrupt s') = IntOff /\ same_clock (stats s) (stats s') /\
      due (totalTicks (stats s)) xs' = due (totalTicks (stats s)) xs /\
      again = negb (bool_decide (due (totalTicks (stats s)) xs' = []))
  end.
Proof.
  intros (Hr & Ho & Ha) Hlev Hin. unfold fire.
  destruct (Lists.RemoveFront_law _ _ Hr) as (l & Hrf & Hr'). rewrite Hrf. cbn [rbind].
  destruct (CallBack _ _) as [s1|f] eqn:EC; cbn [rbind]; [|by do 2 eexists].
  assert (HR : Rep (on_interrupt (fun i => set_pending i l) s) xs).
  { split; [done|]. split; [by apply in_order_cons in Ho as [? _]|]. by inversion Ha. }
  destruct (CallBack_law _ _ _ _ HR Hlev Hin EC) as (xs' & HR' & Hd & Hc & Hl').
  cbn [stats on_interrupt with_interrupt] in Hd, Hc. pose proof HR' as (Hr1 & Ho1 & _).
  rewrite (Lists.IsEmpty_law _ _ Hr1).
  assert (Hf : fires [x] s s1) by (econstructor; [done..|constructor]).
  destruct xs' as [|y ys].
  - rewrite bool_decide_eq_true_2 by done. cbn [rbind]. exists []. by split_and!.
  - rewrite bool_decide_eq_false_2 by done. rewrite (Lists.Front_law _ _ _ Hr1). cbn [rbind].
    exists (y :: ys). split_and!; try done. rewrite (due_front _ _ _ Ho1).
    destruct Hc as (-> & _). by destruct (when y <=? totalTicks (stats s)).
Qed.

Lemma fires_app ps qs s s1 s2 : fires ps s s1 -> fires qs s1 s2 -> fires (ps ++ qs) s s2.
Proof.
  intros Hp Hq. induction Hp as [s|p l ps s s' s'' Hrf HC Hp IH]; [done|].
  simpl. econstructor; [done..|]. by apply IH.
Qed.

Lemma fire_loop_ok n s x xs : Rep s (x :: xs) -> level (interrupt s) = IntOff ->
  in_time (totalTicks (stats s)) ->
  when x <= totalTicks (stats s) -> (length (due (totalTicks (stats s)) (x :: xs)) <= n)%nat ->
  match fire_loop n s with
  | Fault f => handler_fault f
  | Ok s' => exists xs', Rep s' xs' /\ fires (due (totalTicks (stats s)) (x :: xs)) s s' /\
      level (interrupt s') = IntOff /\ same_clock (stats s) (stats s') /\
      Forall (fun p => totalTicks (stats s) < when p) xs'
  end.
Proof.
  revert s x xs. induction n as [|n IH]; intros s x xs HR Hlev Hin Hx Hn.
  { pose proof HR as (_ & Ho & _). rewrite (due_front _ _ _ Ho), (proj2 (Z.leb_le _ _) Hx) in Hn.
    simpl in Hn. lia. }
  pose proof HR as (_ & Ho & _). rewrite (due_front _ _ _ Ho), (proj2 (Z.leb_le _ _) Hx) in *.
  unfold fire_loop. cbn [loop]. pose proof (fire_ok s x xs HR Hlev Hin) as Hf.
  destruct (fire s) as [[again s1]|f]; cbn [rbind]; [|done].
  destruct Hf as (xs1 & HR1 & Hfi & Hl1 & Hc1 & Hd1 & ->). pose proof Hc1 as (Ht1 & _).
  case_bool_decide as Hd; cbn [negb rbind].
  - rewrite Hd in Hd1. rewrite <- Hd1. exists xs1. split_and!; try done. by apply due_nil_all.
  - destruct xs1 as [|y ys]; [done|]. pose proof HR1 as (_ & Ho1 & _).
    assert (Hy : when y <= totalTicks (stats s1)).
    { rewrite (due_front _ _ _ Ho1) in Hd. destruct (Z.leb_spec (when y) (totalTicks (stats s))); [|done].
      lia. }
    specialize (IH s1 y ys HR1 Hl1). rewrite Ht1 in IH, Hy. specialize (IH Hin Hy). rewrite Hd1 in IH. simpl in Hn.
    specialize (IH ltac:(lia)). unfold fire_loop in IH.
    destruct (loop n _ s1) as [s2|f]; [|done].
    destruct IH as (xs2 & HR2 & Hf2 & Hl2 & Hc2 & Hall). exists xs2. split_and!; try done.
    + apply (fires_app [x] _ s s1 s2); done.
    + by eapply same_clock_trans.
Qed.

(** The fuel of [CheckIfDue] is enough: handlers only add interrupts that are
    not due, so no more than the pending ones fire. *)
Lemma fire_all_ok s x xs : Rep s (x :: xs) -> level (interrupt s) = IntOff ->
  in_time (totalTicks (stats s)) ->
  when x <= totalTicks (stats s) ->
  match fire_loop (S (Z.to_nat (Lists.NumInList (pending (interrupt s))))) s with
  | Fault f => handler_fault f
  | Ok s' => exists xs', Rep s' xs' /\ fires (due (totalTicks (stats s)) (x :: xs)) s s' /\
      level (interrupt s') = IntOff /\ same_clock (stats s) (stats s') /\
      Forall (fun p => totalTicks (stats s) < when p) xs'
  end.
Proof.
  intros HR Hl Hin Hx. apply fire_loop_ok; [done..|]. pose proof HR as (Hr & _).
  rewrite (Lists.NumInList_law _ _ Hr). unfold zlen, due.
  pose proof (length_filter (fun p => when p <= totalTicks (stats s)) (x :: xs)). lia.
Qed.
End firing.

(** ** Clock and interrupts of a tick *)

Section ticks.
Context {C W : Type} `{DevicesLaws C W}.
Implicit Types (s : Sim C W) (xs : list (PendingInterrupt C)).

Definition machine_ok s : Prop :=
  match machine s with Some m => Machine.wf m | None => True end.

(** The time at which [CheckIfDue] fires: now, or the first pending interrupt. *)
Definition fire_time (advanceClock : bool) s xs : Z :=
  match xs with
  | x :: _ => if advanceClock then Z.max (totalTicks (stats s)) (when x) else totalTicks (stats s)
  | [] => totalTicks (stats s)
  end.

Lemma machine_step s : machine_ok s ->
  exists m', match machine s with
     | Some m => m ← Machine.DelayedLoad m 0 0;
                 Ok (mkSim (interrupt s) (stats s) (Some m) (rest s))
     | None => Ok s
     end = Ok (mkSim (interrupt s) (stats s) m' (rest s)).
Proof.
  unfold machine_ok. destruct s as [i st [m|] w]; cbn [machine].
  - intros Hm. destruct (Machine.DelayedLoad_ok m 0 0 Hm) as (rs & -> & _);
      [done|unfold is_s32; lia|]. cbn [rbind]. by eexists.
  - intros _. by exists None.
Qed.

(** The clock when the handlers are called. *)
Lemma advance_ok advanceClock s x xs :
  (totalTicks (stats s) <? when x) && negb advanceClock = false ->
  let s1 := if totalTicks (stats s) <? when x
            then with_stats s (idle_until (stats s) (when x)) else s in
  let now := fire_time advanceClock s (x :: xs) in
  totalTicks (stats s1) = now /\ when x <= now /\
  systemTicks (stats s1) = systemTicks (stats s) /\ userTicks (stats s1) = userTicks (stats s) /\
  idleTicks (stats s1) = (if now =? totalTicks (stats s) then idleTicks (stats s)
    else s32 (idleTicks (stats s) + s32 (now - totalTicks (stats s)))).
Proof.
  intros E s1 now. unfold now, fire_time, s1.
  destruct (Z.ltb_spec (totalTicks (stats s)) (when x)) as [Hlt|Hge].
  - destruct advanceClock; [|done]. rewrite Z.max_r by lia.
    rewrite (proj2 (Z.eqb_neq _ _)) by lia. cbn. split_and!; done || lia.
  - replace (if advanceClock then _ else _) with (totalTicks (stats s))
      by (destruct advanceClock; lia). rewrite Z.eqb_refl. done.
Qed.

Lemma CheckIfDue_ok advanceClock s xs : Rep s xs -> machine_ok s ->
  level (interrupt s) = IntOff -> in_time (fire_time advanceClock s xs) ->
  match CheckIfDue advanceClock s with
  | Fault f => handler_fault f
  | Ok (b, s') =>
      let now := fire_time advanceClock s xs in
      b = negb (bool_decide (due now xs = [])) /\
      exists xs', Rep s' xs' /\ Forall (fun p => now < when p) xs' /\
      level (interrupt s') = IntOff /\ totalTicks (stats s') = now /\
      systemTicks (stats s') = systemTicks (stats s) /\
      userTicks (stats s') = userTicks (stats s) /\
      idleTicks (stats s') = (if now =? totalTicks (stats s) then idleTicks (stats s)
        else s32 (idleTicks (stats s) + s32 (now - totalTicks (stats s)))) /\
      (b = false -> s' = s) /\
      (b = true -> inHandler (interrupt s') = false /\ exists s0 s1, fires (due now xs) s0 s1 /\
         rest s0 = rest s /\ totalTicks (stats s0) = now /\
         s' = on_interrupt (fun i => set_inHandler i false) s1)
  end.
Proof.
  intros HR Hm Hlev Hin. pose proof HR as (Hr & Ho & Ha). unfold CheckIfDue.
  rewrite bool_decide_eq_true_2 by done. cbn [ASSERT rbind].
  rewrite (Lists.IsEmpty_law _ _ Hr). destruct xs as [|x xs].
  { rewrite bool_decide_eq_true_2 by done. cbv zeta. split; [done|]. exists [].
    rewrite Z.eqb_refl. split_and!; done. }
  rewrite bool_decide_eq_false_2, (Lists.Front_law _ _ _ Hr) by done. cbn [rbind].
  destruct ((totalTicks (stats s) <? when x) && negb advanceClock) eqn:E.
  { bool_to_prop. subst advanceClock. cbn [fire_time]. cbv zeta.
    rewrite (due_front _ _ _ Ho), (proj2 (Z.leb_gt _ _)) by done. split; [done|].
    exists (x :: xs). rewrite Z.eqb_refl. split_and!; try done.
    apply due_nil_all. by rewrite (due_front _ _ _ Ho), (proj2 (Z.leb_gt _ _)). }
  set (s1 := if totalTicks (stats s) <? when x then _ else s).
  set (now := fire_time advanceClock s (x :: xs)).
  pose proof (advance_ok advanceClock s x xs E) as Hnow. cbv zeta in Hnow. fold s1 now in Hnow.
  assert (Hs1 : interrupt s1 = interrupt s /\ machine s1 = machine s /\ rest s1 = rest s).
  { unfold s1. by destruct (_ <? _). }
  destruct Hs1 as (Hi1 & Hm1 & Hw1). destruct Hnow as (Ht & Hx & Hsys & Husr & Hidle).
  destruct (machine_step s1) as (m' & ->); [unfold machine_ok; by rewrite Hm1|]. cbn [rbind].
  set (s2 := on_interrupt _ _).
  assert (HR2 : Rep s2 (x :: xs)) by (unfold s2, Rep; cbn; by rewrite Hi1).
  assert (Hl2 : level (interrupt s2) = IntOff) by (unfold s2; cbn; by rewrite Hi1).
  assert (Ht2 : totalTicks (stats s2) = now) by done.
  pose proof (fire_all_ok s2 x xs HR2 Hl2) as HF. rewrite Ht2 in HF. specialize (HF Hin Hx).
  destruct (fire_loop _ s2) as [s3|f]; cbn [rbind]; [|done].
  destruct HF as (xs' & HR3 & Hfi & Hl3 & Hc & Hall).
  destruct Hc as (Hc1 & Hc2 & Hc3 & Hc4). cbv zeta.
  rewrite bool_decide_eq_false_2 by (rewrite (due_front _ _ _ Ho), (proj2 (Z.leb_le _ _) Hx); done).
  split; [done|]. exists xs'. split_and!; try done.
  - cbn. rewrite Hc1. exact Ht.
  - cbn. rewrite Hc3. exact Hsys.
  - cbn. rewrite Hc4. exact Husr.
  - cbn. rewrite Hc2. exact Hidle.
  - intros _. split; [done|]. exists s2, s3. by split_and!.
Qed.
End ticks.

(** ** Properties *)

Section properties.
Context {C W : Type} `{DevicesLaws C W}.
Implicit Types (s : Sim C W) (xs : list (PendingInterrupt C)).

(** C24. [CheckIfDue] fires exactly the interrupts due, in the order of their
    times, each taken off the list before its handler runs, and stops whatever
    the handlers schedule; afterwards everything pending is in the future.
    [advanceClock] first moves the clock to the earliest pending interrupt, never
    back, and books the time as idle.  Without an interrupt due it changes
    nothing and says so. *)
Theorem CheckIfDue_fires_due (advanceClock : bool) s xs (Hrep : Rep s xs)
    (Hmachine : machine_ok s) (Hoff : level (interrupt s) = IntOff)
    (Htime : in_time (fire_time advanceClock s xs)) :
  match CheckIfDue advanceClock s with
  | Fault f => handler_fault f
  | Ok (b, s') =>
      let now := fire_time advanceClock s xs in
      b = negb (bool_decide (due now xs = [])) /\ totalTicks (stats s) <= now /\
      totalTicks (stats s') = now /\
      (exists xs', Rep s' xs' /\ Forall (fun p => now < when p) xs') /\
      (b = false -> s' = s) /\
      (b = true -> exists s0 s1, fires (due now xs) s0 s1 /\ rest s0 = rest s /\
         totalTicks (stats s0) = now /\ s' = on_interrupt (fun i => set_inHandler i false) s1)
  end.
Proof.
  pose proof (CheckIfDue_ok advanceClock s xs Hrep Hmachine Hoff Htime) as HC.
  destruct (CheckIfDue advanceClock s) as [[b s']|f]; [|done]. cbv zeta in *.
  destruct HC as (Hb & xs' & HR & Hall & _ & Ht & _ & _ & _ & Hno & Hyes).
  split_and!; try done.
  - unfold fire_time. destruct xs; [lia|]. destruct advanceClock; lia.
  - by exists xs'.
  - intros Hbt. destruct (Hyes Hbt) as (_ & s0 & s1 & ? & ? & ? & ?). by exists s0, s1.
Qed.

(** The clock: a tick advances the total time by one user or system tick and
    books it to that mode, so the total stays the sum of idle, system and user
    time; every interrupt due has fired, interrupts are enabled again, and the
    current thread yields exactly when a handler asked for it, in system mode
    and with the mode restored afterwards. *)
Theorem OneTick_accounts s xs s' (Hrep : Rep s xs) (Hmachine : machine_ok s)
    (Hbal : balanced (stats s)) (Hmax : totalTicks (stats s) + SystemTick < 2 ^ 30)
    (Hrun : OneTick s = Ok s') :
  exists s1 xs1, Rep s1 xs1 /\ balanced (stats s1) /\ level (interrupt s1) = IntOn /\
    totalTicks (stats s1) = totalTicks (stats s) +
      (if decide (getStatus s = Machine.SystemMode) then SystemTick else UserTick) /\
    idleTicks (stats s1) = idleTicks (stats s) /\
    Forall (fun p => totalTicks (stats s1) < when p) xs1 /\
    if yieldOnReturn (interrupt s1) then
      exists s2, Yield (on_interrupt (fun i => set_status (set_yield i false) Machine.SystemMode) s1)
                   = Ok s2 /\ s' = setStatus (getStatus s) s2
    else s' = s1.
Proof.
  unfold OneTick, tick in Hrun. set (st := if decide _ then _ else _) in Hrun.
  assert (Hst : balanced st /\ totalTicks st = totalTicks (stats s) +
      (if decide (getStatus s = Machine.SystemMode) then SystemTick else UserTick) /\
      idleTicks st = idleTicks (stats s)).
  { destruct Hbal as (Hsum & ? & ? & ?). unfold st, getStatus, SystemTick, UserTick in *.
    case_decide; cbn [system_tick user_tick set_ticks totalTicks idleTicks systemTicks userTicks];
      unfold balanced; cbn; rewrite !s32_id by (unfold is_s32, SystemTick, UserTick; lia);
      unfold SystemTick, UserTick; split_and!; lia. }
  destruct Hst as (Hbal1 & Htot & Hidle).
  set (s0 := ChangeLevel IntOn IntOff (with_stats s st)) in Hrun.
  assert (Hft : fire_time false s0 xs = totalTicks st) by (unfold fire_time; by destruct xs).
  pose proof (CheckIfDue_ok false s0 xs Hrep Hmachine eq_refl) as HC. rewrite Hft in HC.
  assert (Hin : in_time (totalTicks st)).
  { destruct Hbal as (? & ? & ? & ?). unfold in_time, SystemTick, UserTick in *.
    case_decide; lia. }
  specialize (HC Hin).
  destruct (CheckIfDue false s0) as [[b s1]|f]; [|done]. cbn [rbind] in Hrun. cbv zeta in HC.
  destruct HC as (_ & xs1 & HR1 & Hall & Hl1 & Ht1 & Hsys & Husr & Hid & _).
  change (totalTicks (stats s0)) with (totalTicks st) in Hid. rewrite Z.eqb_refl in Hid.
  exists (ChangeLevel IntOff IntOn s1), xs1. cbn [stats ChangeLevel on_interrupt with_interrupt].
  split_and!; try done.
  - destruct Hbal1 as (? & ? & ? & ?). unfold balanced. rewrite Ht1, Hid, Hsys, Husr. done.
  - by rewrite Ht1.
  - by rewrite Hid.
  - by rewrite Ht1.
  - cbn [ChangeLevel on_interrupt with_interrupt interrupt set_level yieldOnReturn] in *.
    destruct (yieldOnReturn (interrupt s1)); [|by injection Hrun].
    apply bind_Ok_inv in Hrun as (s2 & HY & Hrun). injection Hrun as <-. by exists s2.
Qed.
End properties.

(** *** The timer and the alarm *)

Section timer.
Context {C W : Type} `{EqDecision C} `{Devices C W}.

Lemma Alarm_CallBack_ok (s : Sim C W) :
  Alarm_CallBack s =
    if decide (getStatus s = Machine.IdleMode) then Ok s
    else if inHandler (interrupt s) then Ok (on_interrupt (fun i => set_yield i true) s)
    else Fault AssertFailed.
Proof.
  unfold Alarm_CallBack, YieldOnReturn. destruct (inHandler (interrupt s)); repeat case_decide; done.
Qed.

Lemma delay_bounds (doRandom : bool) (random : Z) : 0 <= random ->
  let delay := if doRandom then 1 + Z.rem random (TimerTicks * 2) else TimerTicks in
  0 < delay <= 2 * TimerTicks /\ (doRandom = false -> delay = TimerTicks).
Proof.
  intros Hr. unfold TimerTicks. destruct doRandom; [|done].
  rewrite Z.rem_mod_nonneg by lia. split; [zlia|done].
Qed.

Lemma Timer_CallBack_ok (getTimer : Sim C W -> Timer) (self : C) (random : Z) (s : Sim C W) xs :
  Rep s xs -> in_time (totalTicks (stats s)) -> 0 <= random ->
  inHandler (interrupt s) = true \/ getStatus s = Machine.IdleMode ->
  getTimer (on_interrupt (fun i => set_yield i true) s) = getTimer s ->
  exists s' xs', Timer_CallBack getTimer self random Alarm_CallBack s = Ok s' /\ Rep s' xs' /\
    yieldOnReturn (interrupt s') =
      (if decide (getStatus s = Machine.IdleMode) then yieldOnReturn (interrupt s) else true) /\
    due (totalTicks (stats s)) xs' = due (totalTicks (stats s)) xs /\
    stats s' = stats s /\ level (interrupt s') = level (interrupt s) /\
    if disable (getTimer s) then xs' = xs
    else exists p, xs' ≡ₚ p :: xs /\ callOnInterrupt p = self /\ type p = TimerInt /\
      totalTicks (stats s) < when p <= totalTicks (stats s) + 2 * TimerTicks /\
      (randomize (getTimer s) = false -> when p = totalTicks (stats s) + TimerTicks).
Proof.
  intros HR Ht Hrandom Hh Hsame. unfold Timer_CallBack. rewrite Alarm_CallBack_ok.
  set (s1 := if decide (getStatus s = Machine.IdleMode) then s
             else on_interrupt (fun i => set_yield i true) s).
  replace (if decide _ then Ok s else _) with (@Ok (Sim C W) s1).
  2: { unfold s1. case_decide; [done|]. destruct Hh as [->|]; done. }
  assert (Hs1 : Rep s1 xs /\ stats s1 = stats s /\ getTimer s1 = getTimer s /\
    level (interrupt s1) = level (interrupt s) /\ yieldOnReturn (interrupt s1) =
      (if decide (getStatus s = Machine.IdleMode) then yieldOnReturn (interrupt s) else true)).
  { unfold s1. case_decide; split_and!; try done; exact HR. }
  clearbody s1. destruct Hs1 as (HR1 & Hst & Hgt & Hlev & Hy). cbn [rbind].
  rewrite Hgt. unfold SetInterrupt. destruct (disable (getTimer s)); cbn [negb].
  { exists s1, xs. by split_and!. }
  destruct (delay_bounds (randomize (getTimer s)) random Hrandom) as [Hd Hd'].
  set (delay := if randomize (getTimer s) then _ else _) in *.
  unfold TimerTicks, in_time in *.
  destruct (Schedule_ok self delay TimerInt s1 xs HR1) as
    (s' & p & HS & Hc & Hw & Hty & HR' & Hst' & _ & _ & Hl' & _ & _ & Hy');
    [lia|rewrite Hst; lia|rewrite Hst; lia|].
  exists s', (Lists.insert_sorted PendingCompare p xs). rewrite Hst in Hw.
  split_and!; try done; try congruence.
  - apply insert_due. lia.
  - exists p. split; [apply Lists.insert_sorted_perm|]. split; [done|]. split; [done|].
    split; [lia|]. intros Hr. by rewrite Hw, Hd'.
Qed.

(** The timer never stops by itself: after its handler has run, exactly one
    new timer interrupt is pending, between 1 and 200 ticks ahead (100 when it is
    not random), unless it was disabled; the alarm has asked for a context
    switch unless the machine is idle. *)
Theorem Timer_keeps_ticking (getTimer : Sim C W -> Timer) (self : C) (random : Z) (s : Sim C W) xs
    (Hrep : Rep s xs) (Htime : in_time (totalTicks (stats s)))
    (Hhandler : inHandler (interrupt s) = true) (Hrandom : 0 <= random)
    (Hsame : getTimer (on_interrupt (fun i => set_yield i true) s) = getTimer s) :
  exists s' xs', Timer_CallBack getTimer self random Alarm_CallBack s = Ok s' /\ Rep s' xs' /\
    yieldOnReturn (interrupt s') =
      (if decide (getStatus s = Machine.IdleMode) then yieldOnReturn (interrupt s) else true) /\
    due (totalTicks (stats s)) xs' = due (totalTicks (stats s)) xs /\
    stats s' = stats s /\ level (interrupt s') = level (interrupt s) /\
    if disable (getTimer s) then xs' = xs
    else exists p, xs' ≡ₚ p :: xs /\ callOnInterrupt p = self /\ type p = TimerInt /\
      totalTicks (stats s) < when p <= totalTicks (stats s) + 2 * TimerTicks /\
      (randomize (getTimer s) = false -> when p = totalTicks (stats s) + TimerTicks).
Proof. apply Timer_CallBack_ok; auto. Qed.
End timer.

(** *** A system with a timer only *)

(** The only device is the timer, which serves the alarm; [rest] holds it and
    what [RandomNumber()] returns. *)
#[local] Instance timer_devices : Devices () (Timer * Z) := {|
  CallBack self s :=
    Timer_CallBack (fun s => (rest s).1) self (u32 (rest s).2) Alarm_CallBack s;
  Yield s := Ok s;
  delete_kernel _ := Halted;
|}.

#[local] Instance timer_laws : DevicesLaws () (Timer * Z).
Proof.
  constructor. intros c s s' xs HR Hl Hin HC. cbn [CallBack timer_devices] in HC.
  assert (Hcase : inHandler (interrupt s) = true \/ getStatus s = Machine.IdleMode).
  { unfold Timer_CallBack in HC. rewrite Alarm_CallBack_ok in HC.
    case_decide; [by right|]. destruct (inHandler (interrupt s)); [by left|done]. }
  destruct (Timer_CallBack_ok (fun s => (rest s).1) c (u32 (rest s).2) s xs HR Hin)
    as (s1 & xs' & HC' & HR' & _ & Hd & Hst & Hlev & _); [unfold u32; zlia|done|done|].
  rewrite HC in HC'. injection HC' as <-. exists xs'. rewrite Hst.
  split_and!; try done. congruence.
Qed.

(** Freshly started: the clock at 0 and the timer scheduled at 100. *)
Definition started : Sim () (Timer * Z) :=
  match new_Timer false () 0 (mkSim new_Interrupt new_Statistics None (mkTimer false false, 0)) with
  | Ok (_, s) => s
  | Fault _ => mkSim new_Interrupt new_Statistics None (mkTimer false false, 0)
  end.

Lemma started_Rep : Rep started [mkPending 1 () 100 TimerInt].
Proof.
  split_and!; [|by repeat constructor|by repeat constructor].
  exists [(1%positive, mkPending 1 () 100 TimerInt)]. split_and!; try done.
  - apply NoDup_singleton.
  - split; [done|]. eexists. split; [by vm_compute|done].
Qed.

Example CheckIfDue_fires_due_witness :
  exists s', CheckIfDue true started = Ok (true, s') /\ totalTicks (stats s') = 100 /\
    idleTicks (stats s') = 100 /\ yieldOnReturn (interrupt s') = true /\
    exists s0 s1, fires [mkPending 1 () 100 TimerInt] s0 s1.
Proof.
  pose proof (CheckIfDue_fires_due true started [mkPending 1 () 100 TimerInt] started_Rep I eq_refl)
    as HC.
  assert (Ht : in_time (fire_time true started [mkPending 1 () 100 TimerInt]))
    by (unfold in_time; vm_compute; split; congruence).
  specialize (HC Ht). revert HC.
  assert (E : exists s', CheckIfDue true started = Ok (true, s') /\ totalTicks (stats s') = 100 /\
    idleTicks (stats s') = 100 /\ yieldOnReturn (interrupt s') = true)
    by (eexists; vm_compute; done).
  destruct E as (s' & -> & ? & ? & ?). intros (_ & _ & _ & _ & _ & Hyes).
  destruct (Hyes eq_refl) as (s0 & s1 & Hf & _). exists s'. split_and!; try done.
  by exists s0, s1.
Defined.

(** Running at time 95 in system mode: the tick to 105 fires the timer, whose
    alarm makes the thread yield. *)
Definition running : Sim () (Timer * Z) :=
  on_interrupt (fun i => set_level i IntOn)
    (with_stats started (set_ticks (stats started) 95 0 95 0)).

Example OneTick_accounts_witness :
  exists s' (s1 : Sim () (Timer * Z)), OneTick running = Ok s' /\ totalTicks (stats s1) = 105 /\
    balanced (stats s1) /\ level (interrupt s1) = IntOn.
Proof.
  assert (E : exists s', OneTick running = Ok s') by (eexists; vm_compute; done).
  destruct E as (s' & E).
  destruct (OneTick_accounts running [mkPending 1 () 100 TimerInt] s') as
    (s1 & xs1 & _ & Hb & Hl & Ht & _).
  - exact started_Rep.
  - exact I.
  - unfold balanced. vm_compute. split_and!; congruence.
  - vm_compute. reflexivity.
  - exact E.
  - exists s', s1. split_and!; done.
Defined.

Definition getTimer_rest (s : Sim () (Timer * Z)) : Timer := (rest s).1.
Definition handling : Sim () (Timer * Z) := on_interrupt (fun i => set_inHandler i true) running.

Example Timer_keeps_ticking_witness :
  exists s' (xs' : list (PendingInterrupt ())), Timer_CallBack getTimer_rest () 0 Alarm_CallBack
      handling = Ok s' /\ length xs' = 2%nat /\
    yieldOnReturn (interrupt s') = true.
Proof.
  destruct (Timer_keeps_ticking getTimer_rest () 0
    handling [mkPending 1 () 100 TimerInt])
    as (s' & xs' & HC & _ & Hy & _ & _ & _ & Hd).
  - exact started_Rep.
  - vm_compute. split; congruence.
  - reflexivity.
  - lia.
  - reflexivity.
  - exists s', xs'. split_and!; [done| |done].
    cbn in Hd. destruct Hd as (p & -> & _). done.
Defined.
End Interrupt.
