(* ===== verification/Disk.v ===== *)
(** The physical disk ([machine/disk.h], [machine/disk.cc]) on the UNIX file
    that holds it (the calls of [lib/sysdep.cc] it makes): requests, their
    latency with the seek, the rotation and the track buffer, and the interrupt
    that ends them. *)

From S2P Require Import Prelude Bitmap Lists Machine Interrupt.

(** ** UNIX files *)

Module UnixFile.

(** An open file: its bytes and its offset. *)
Record UFile := mkUFile { content : list Z; offset : Z }.

Definition Lseek (f : UFile) (off : Z) : res UFile :=
  ASSERT (0 <=? off) ;; Ok (mkUFile (content f) off).

Definition Read (f : UFile) (nBytes : Z) : res (list Z * UFile) :=
  let bs := slice (Z.to_nat (offset f)) (Z.to_nat nBytes) (content f) in
  ASSERT (zlen bs =? nBytes) ;; Ok (bs, mkUFile (content f) (offset f + nBytes)).

(** [write] fills a hole before the offset with zeros and extends the file. *)
Definition WriteFile (f : UFile) (buffer : list Z) : res UFile :=
  let n := Z.to_nat (offset f) in
  let old := content f ++ replicate (n - length (content f)) 0 in
  Ok (mkUFile (splice n buffer old) (offset f + zlen buffer)).

End UnixFile.
Import UnixFile Stats Interrupt.

Module Disk.

Definition SectorSize : Z := 128.
Definition SectorsPerTrack : Z := 32.
Definition NumTracks : Z := 32.
Definition NumSectors : Z := SectorsPerTrack * NumTracks.

Definition MagicNumber : Z := 0x456789ab.
Definition MagicSize : Z := 4.
Definition DiskSize : Z := MagicSize + NumSectors * SectorSize.

(** A [Disk] other than whom it calls. *)
Record Disk := mkDisk {
  fileno : UFile;
  active : bool;
  lastSector : Z;
  bufferInit : Z;
}.

(** [file]: the bytes of the file [DISK_n], when it exists. *)
Definition new_Disk (file : option (list Z)) : res Disk :=
  f ← match file with
      | Some bs =>
          '(magicNum, f) ← Read (mkUFile bs 0) MagicSize;
          ASSERT (s32 (le_combine magicNum) =? MagicNumber) ;;
          Ok f
      | None =>
          f ← WriteFile (mkUFile [] 0) (le_split 4 MagicNumber);
          f ← Lseek f (DiskSize - 4);
          WriteFile f (le_split 4 0)
      end;
  Ok (mkDisk f false 0 0).

Section code.
Context {C W : Type} `{EqDecision C}.
Implicit Types (d : Disk) (s : Sim C W).

(** The seek time and the rotation. *)
Definition TimeToSeek d s (newSector : Z) : Z * Z :=
  let newTrack := Z.quot newSector SectorsPerTrack in
  let oldTrack := Z.quot (lastSector d) SectorsPerTrack in
  let seek := s32 (Z.abs (newTrack - oldTrack) * SeekTime) in
  let over := Z.rem (s32 (totalTicks (stats s) + seek)) RotationTime in
  (seek, if 0 <? over then RotationTime - over else 0).

Definition ModuloDiff (to from : Z) : Z :=
  let toOffset := Z.rem to SectorsPerTrack in
  let fromOffset := Z.rem from SectorsPerTrack in
  Z.rem (toOffset - fromOffset + SectorsPerTrack) SectorsPerTrack.

Definition ComputeLatency d s (newSector : Z) (writing : bool) : Z :=
  let '(seek, rotation) := TimeToSeek d s newSector in
  let timeAfter := s32 (s32 (totalTicks (stats s) + seek) + rotation) in
  if negb writing && (seek =? 0) &&
     (Z.quot (s32 (timeAfter - bufferInit d)) RotationTime >?
      ModuloDiff newSector (Z.quot (bufferInit d) RotationTime))
  then RotationTime
  else
    let rotation := rotation + ModuloDiff newSector (Z.quot timeAfter RotationTime) * RotationTime in
    s32 (seek + rotation + RotationTime).

Definition UpdateLast d s (newSector : Z) : Disk :=
  let '(seek, rotate) := TimeToSeek d s newSector in
  mkDisk (fileno d) (active d) newSector
    (if negb (seek =? 0) then s32 (s32 (totalTicks (stats s) + seek) + rotate) else bufferInit d).

(** [self] is the disk as the interrupt list names it. *)
Definition ReadRequest (self : C) (sectorNumber : Z) d s : res (list Z * Disk * Sim C W) :=
  let ticks := ComputeLatency d s sectorNumber false in
  ASSERT (negb (active d)) ;;
  ASSERT ((0 <=? sectorNumber) && (sectorNumber <? NumSectors)) ;;
  f ← Lseek (fileno d) (s32 (SectorSize * sectorNumber + MagicSize));
  '(data, f) ← Read f SectorSize;
  let d := UpdateLast (mkDisk f true (lastSector d) (bufferInit d)) s sectorNumber in
  s ← Schedule self ticks DiskInt (with_stats s (disk_read (stats s)));
  Ok (data, d, s).

Definition WriteRequest (self : C) (sectorNumber : Z) (data : list Z) d s
    : res (Disk * Sim C W) :=
  let ticks := ComputeLatency d s sectorNumber true in
  ASSERT (negb (active d)) ;;
  ASSERT ((0 <=? sectorNumber) && (sectorNumber <? NumSectors)) ;;
  f ← Lseek (fileno d) (s32 (SectorSize * sectorNumber + MagicSize));
  f ← (if zlen data <? SectorSize then Fault OutOfBounds
       else WriteFile f (take (Z.to_nat SectorSize) data));
  let d := UpdateLast (mkDisk f true (lastSector d) (bufferInit d)) s sectorNumber in
  s ← Schedule self ticks DiskInt (with_stats s (disk_write (stats s)));
  Ok (d, s).

(** The disk is free again before [callWhenDone] is called. *)
Definition CallBack (callWhenDone : Sim C W -> res (Sim C W)) d s : res (Disk * Sim C W) :=
  let d := mkDisk (fileno d) false (lastSector d) (bufferInit d) in
  s ← callWhenDone s;
  Ok (d, s).
End code.

(** ** The file and its sectors *)

Ltac disk_lia_consts :=
  unfold DiskSize, NumSectors, SectorsPerTrack, NumTracks, SectorSize, MagicSize in *.

Definition sector d (n : Z) : list Z :=
  slice (Z.to_nat (MagicSize + SectorSize * n)) (Z.to_nat SectorSize) (content (fileno d)).

(** A disk as the code keeps it: the file is whole and starts with the magic
    number; the track buffer was started at a sector boundary. *)
Record wf d : Prop := {
  wf_size : zlen (content (fileno d)) = DiskSize;
  wf_magic : take 4 (content (fileno d)) = le_split 4 MagicNumber;
  wf_last : 0 <= lastSector d < NumSectors;
  wf_buffer : is_s32 (bufferInit d) /\ 0 <= bufferInit d /\ bufferInit d mod RotationTime = 0;
}.

Lemma sector_offset n : 0 <= n < NumSectors ->
  s32 (SectorSize * n + MagicSize) = SectorSize * n + MagicSize /\
  0 <= SectorSize * n + MagicSize /\ SectorSize * n + MagicSize + SectorSize <= DiskSize.
Proof.
  disk_lia_consts. intros. rewrite s32_id by (unfold is_s32; lia). lia.
Qed.

Lemma length_sector d n : wf d -> 0 <= n < NumSectors -> zlen (sector d n) = SectorSize.
Proof.
  intros Hw Hn. pose proof (sector_offset n Hn) as (_ & H0 & H1).
  pose proof (wf_size d Hw) as Hs. unfold zlen, sector in *. disk_lia_consts.
  rewrite length_slice by lia. lia.
Qed.

Lemma Lseek_ok f off : 0 <= off -> Lseek f off = Ok (mkUFile (content f) off).
Proof. intros. unfold Lseek. by rewrite ASSERT_true by lia. Qed.

Lemma Read_ok f n : 0 <= n -> 0 <= offset f -> offset f + n <= zlen (content f) ->
  Read f n = Ok (slice (Z.to_nat (offset f)) (Z.to_nat n) (content f),
                 mkUFile (content f) (offset f + n)).
Proof.
  intros H1 H2 H3. unfold Read, zlen in *. rewrite ASSERT_true; [done|].
  rewrite length_slice by lia. apply Z.eqb_eq. lia.
Qed.

Lemma WriteFile_ok f buffer : 0 <= offset f -> offset f + zlen buffer <= zlen (content f) ->
  WriteFile f buffer = Ok (mkUFile (splice (Z.to_nat (offset f)) buffer (content f))
                             (offset f + zlen buffer)).
Proof.
  intros. unfold WriteFile, zlen in *.
  rewrite (proj2 (Nat.sub_0_le _ _)) by lia. by rewrite app_nil_r.
Qed.

(** ** Latency *)

Section theory.
Context {C W : Type} `{EqDecision C}.
Implicit Types (d : Disk) (s : Sim C W).

Definition track (n : Z) : Z := n / SectorsPerTrack.
Definition seek_time d (n : Z) : Z := Z.abs (track n - track (lastSector d)) * SeekTime.
Definition next_boundary (t : Z) : Z := divRoundUp t RotationTime * RotationTime.

Lemma next_boundary_spec t : 0 <= t ->
  next_boundary t mod RotationTime = 0 /\ t <= next_boundary t < t + RotationTime.
Proof.
  intros Ht. unfold next_boundary. pose proof (divRoundUp_spec t RotationTime Ht) as H.
  split; [by rewrite Z.mod_mul|]. apply H. done.
Qed.

Lemma seek_bounds d n : wf d -> 0 <= n < NumSectors -> 0 <= seek_time d n <= 31 * SeekTime.
Proof.
  intros Hw Hn. pose proof (wf_last d Hw). unfold seek_time, track, SeekTime in *.
  unfold NumSectors, SectorsPerTrack, NumTracks in *. zlia.
Qed.

Lemma TimeToSeek_ok d s n : wf d -> 0 <= n < NumSectors -> in_time (totalTicks (stats s)) ->
  TimeToSeek d s n = (seek_time d n,
    next_boundary (totalTicks (stats s) + seek_time d n) - (totalTicks (stats s) + seek_time d n)).
Proof.
  intros Hw Hn Ht. unfold TimeToSeek. pose proof (seek_bounds d n Hw Hn) as Hb.
  pose proof (wf_last d Hw) as Hl.
  rewrite !Z.quot_div_nonneg by (unfold SectorsPerTrack; lia).
  change (n / SectorsPerTrack) with (track n).
  change (lastSector d / SectorsPerTrack) with (track (lastSector d)).
  fold (seek_time d n). unfold SeekTime, in_time in *.
  rewrite (s32_id (seek_time d n)) by (unfold is_s32; lia).
  rewrite s32_id by (unfold is_s32; lia).
  set (t := totalTicks (stats s) + seek_time d n). f_equal.
  assert (0 <= t) as H0 by lia. clearbody t. unfold next_boundary, divRoundUp, RotationTime.
  rewrite Z.rem_mod_nonneg, Z.quot_div_nonneg, Z.gtb_ltb by lia.
  destruct (Z.ltb_spec 0 (t mod 500)); zlia.
Qed.

Lemma ModuloDiff_ok to from : 0 <= to -> 0 <= from ->
  ModuloDiff to from = (to - from) mod SectorsPerTrack.
Proof.
  intros. unfold ModuloDiff, SectorsPerTrack. rewrite !(Z.rem_mod_nonneg _ 32) by zlia. zlia.
Qed.

(** The head has passed over the whole of sector [n] since the track buffer was
    started; sector [k mod SectorsPerTrack] passes from [RotationTime * k] on. *)
Definition passed_over d (n now : Z) : Prop :=
  exists k, bufferInit d <= RotationTime * k /\ RotationTime * (k + 1) <= now /\
    k mod SectorsPerTrack = n mod SectorsPerTrack.

Lemma passed_over_iff d n now : wf d -> 0 <= n -> 0 <= now < 2 ^ 31 -> now mod RotationTime = 0 ->
  (Z.quot (s32 (now - bufferInit d)) RotationTime >?
    ModuloDiff n (Z.quot (bufferInit d) RotationTime)) = true <-> passed_over d n now.
Proof.
  intros Hw Hn Hnow Hal. destruct (wf_buffer d Hw) as (Hs & H0 & Hb).
  unfold is_s32, RotationTime in *. rewrite s32_id by (unfold is_s32; lia).
  rewrite (Z.quot_div_nonneg (bufferInit d)) by lia.
  rewrite ModuloDiff_ok by zlia. unfold passed_over, SectorsPerTrack, RotationTime.
  rewrite Z.gtb_lt. split.
  - intros Hlt. exists (bufferInit d / 500 + (n - bufferInit d / 500) mod 32). zlia.
  - intros (k & H1 & H2 & H3).
    assert (Hab : (now - bufferInit d) ÷ 500 = now / 500 - bufferInit d / 500) by zlia.
    rewrite Hab. zlia.
Qed.

(** What the request costs without the track buffer: the first time after the
    seek at which the head, having come to the start of a sector, has passed
    over the whole of sector [n]. *)
Definition rotates_to d (n from done : Z) : Prop :=
  done mod RotationTime = 0 /\ (done / RotationTime - 1) mod SectorsPerTrack = n mod SectorsPerTrack /\
  next_boundary from + RotationTime <= done < next_boundary from + RotationTime * (SectorsPerTrack + 1).

Lemma ComputeLatency_ok d s n writing : wf d -> 0 <= n < NumSectors ->
  in_time (totalTicks (stats s)) ->
  let now := totalTicks (stats s) in
  let lat := ComputeLatency d s n writing in
  RotationTime <= lat <= 64 * RotationTime /\
  ((writing = false /\ track n = track (lastSector d) /\ passed_over d n (next_boundary now) /\
      lat = RotationTime) \/
   (~ (writing = false /\ track n = track (lastSector d) /\ passed_over d n (next_boundary now)) /\
      rotates_to d n (now + seek_time d n) (now + lat))).
Proof.
  intros Hw Hn Ht. pose proof (seek_bounds d n Hw Hn) as Hsk. cbv zeta. unfold ComputeLatency.
  rewrite TimeToSeek_ok by done. set (now := totalTicks (stats s)) in *.
  set (sk := seek_time d n) in *. unfold in_time, SeekTime in *.
  destruct (next_boundary_spec (now + sk) ltac:(lia)) as [Hal Hnb].
  set (b := next_boundary (now + sk)) in *. unfold RotationTime in *.
  rewrite (s32_id (now + sk)) by (unfold is_s32; lia).
  replace (now + sk + (b - (now + sk))) with b by lia. rewrite (s32_id b) by (unfold is_s32; lia).
  rewrite (Z.quot_div_nonneg b) by lia.
  pose proof (passed_over_iff d n b Hw ltac:(lia) ltac:(lia) Hal) as Hp. unfold RotationTime in Hp.
  assert (Htr : sk = 0 <-> track n = track (lastSector d)).
  { unfold sk, seek_time, SeekTime. lia. }
  assert (Hb0 : sk = 0 -> b = next_boundary now) by (intros E0; unfold b; by rewrite E0, Z.add_0_r).
  destruct (negb writing && (sk =? 0) && _) eqn:E.
  - bool_to_prop. assert (sk = 0) as Hsk0 by done. split; [lia|]. left.
    rewrite <- (Hb0 Hsk0). split_and!; try done; [by apply Htr|by apply Hp].
  - rewrite ModuloDiff_ok by zlia. set (md := (n - b / 500) mod SectorsPerTrack).
    assert (Hmd : 0 <= md < 32) by (unfold md, SectorsPerTrack; zlia).
    rewrite s32_id by (unfold is_s32; lia). split; [lia|]. right. split.
    + intros (-> & Ht0 & Hpo). apply Htr in Ht0. rewrite <- (Hb0 Ht0) in Hpo.
      rewrite (proj2 Hp Hpo), Ht0 in E. done.
    + unfold rotates_to, RotationTime. fold b.
      replace (now + (sk + (b - (now + sk) + md * 500) + 500)) with (b + md * 500 + 500) by lia.
      unfold md, SectorsPerTrack in *. zlia.
Qed.

(** ** Requests *)

(** A disk on the file [f], as the request for sector [n] leaves it. *)
Lemma UpdateLast_ok d f s n : wf d -> zlen (content f) = DiskSize ->
  take 4 (content f) = le_split 4 MagicNumber ->
  0 <= n < NumSectors -> in_time (totalTicks (stats s)) ->
  let d' := UpdateLast (mkDisk f true (lastSector d) (bufferInit d)) s n in
  wf d' /\ fileno d' = f /\ active d' = true /\ lastSector d' = n.
Proof.
  intros Hw Hf Hm Hn Ht. unfold UpdateLast. set (d0 := mkDisk f true _ _).
  assert (wf d0) as Hw0 by (destruct Hw; by constructor).
  rewrite TimeToSeek_ok by done. pose proof (seek_bounds d0 n Hw0 Hn) as Hb.
  set (sk := seek_time d0 n) in *. unfold in_time, SeekTime in *.
  destruct (next_boundary_spec (totalTicks (stats s) + sk) ltac:(lia)) as [Hal Hnb].
  set (t := totalTicks (stats s) + sk) in *.
  unfold RotationTime in *. cbv zeta. split_and!; try done.
  constructor; cbn [fileno lastSector bufferInit]; try done.
  destruct (negb _); [|apply Hw].
  rewrite (s32_id t) by (unfold is_s32; lia).
  replace (t + (next_boundary t - t)) with (next_boundary t) by lia.
  rewrite s32_id by (unfold is_s32; lia). unfold is_s32, RotationTime. split_and!; lia || done.
Qed.

(** The end of an accepted request: the interrupt is scheduled, alone. *)
Definition scheduled (self : C) (lat : Z) s xs s' : Prop :=
  exists p, callOnInterrupt p = self /\ type p = DiskInt /\
    when p = totalTicks (stats s) + lat /\ totalTicks (stats s) < when p /\
    Rep s' (Lists.insert_sorted PendingCompare p xs) /\ rest s' = rest s /\
    machine s' = machine s /\ level (interrupt s') = level (interrupt s).

Lemma Schedule_request (self : C) d s n writing st xs : wf d -> 0 <= n < NumSectors -> Rep s xs ->
  in_time (totalTicks (stats s)) -> totalTicks st = totalTicks (stats s) ->
  exists s', Schedule self (ComputeLatency d s n writing) DiskInt (with_stats s st) = Ok s' /\
    stats s' = st /\ scheduled self (ComputeLatency d s n writing) s xs s'.
Proof.
  intros Hw Hn HR Ht Hst. destruct (ComputeLatency_ok d s n writing Hw Hn Ht) as [Hlat _].
  set (lat := ComputeLatency d s n writing) in *. unfold RotationTime, in_time in *.
  destruct (Schedule_ok self lat DiskInt (with_stats s st) xs HR) as
    (s' & p & HS & Hc & Hwh & Hty & HR' & Hst' & Hm & Hr & Hl & _);
    [lia|cbn [stats with_stats]; rewrite Hst; lia..|]. cbn [stats with_stats] in Hwh.
  exists s'. split; [done|]. split; [done|]. exists p. rewrite Hst in Hwh. split_and!; done || lia.
Qed.

Lemma ReadRequest_ok (self : C) d s n xs : wf d -> 0 <= n < NumSectors -> active d = false ->
  Rep s xs -> in_time (totalTicks (stats s)) ->
  exists d' s', ReadRequest self n d s = Ok (sector d n, d', s') /\
    wf d' /\ active d' = true /\ lastSector d' = n /\ content (fileno d') = content (fileno d) /\
    stats s' = disk_read (stats s) /\ scheduled self (ComputeLatency d s n false) s xs s'.
Proof.
  intros Hw Hn Ha HR Ht. unfold ReadRequest. rewrite Ha.
  destruct (sector_offset n Hn) as (Ho & H0 & H1). pose proof (wf_size d Hw) as Hs.
  rewrite !ASSERT_true by (done || lia). rewrite Ho, Lseek_ok by done. cbn [rbind].
  rewrite Read_ok by (unfold SectorSize in *; cbn [offset content]; lia). cbn [rbind].
  cbn [offset content]. rewrite (Z.add_comm (SectorSize * n)). fold (sector d n).
  set (f := mkUFile _ _).
  destruct (UpdateLast_ok d f s n Hw Hs (wf_magic d Hw) Hn Ht) as (Hw' & Hf & Ha' & Hl).
  destruct (Schedule_request self d s n false (disk_read (stats s)) xs Hw Hn HR Ht eq_refl)
    as (s' & -> & Hst & Hsch).
  cbn [rbind]. eexists _, s'. split; [done|]. by split_and!.
Qed.

Lemma sector_splice d n m data : wf d -> 0 <= n < NumSectors -> 0 <= m < NumSectors ->
  zlen data = SectorSize ->
  slice (Z.to_nat (MagicSize + SectorSize * m)) (Z.to_nat SectorSize)
    (splice (Z.to_nat (MagicSize + SectorSize * n)) data (content (fileno d))) =
  if decide (m = n) then data else sector d m.
Proof.
  intros Hw Hn Hm Hd. pose proof (wf_size d Hw) as Hs.
  destruct (sector_offset n Hn) as (_ & ? & ?), (sector_offset m Hm) as (_ & ? & ?).
  unfold sector, zlen in *. disk_lia_consts. case_decide as E.
  - subst m. replace (Z.to_nat 128) with (length data) by lia. apply slice_splice. lia.
  - apply slice_splice_out; lia.
Qed.

Lemma take_splice {A} k off (new l : list A) : (k <= off)%nat -> (off <= length l)%nat ->
  take k (splice off new l) = take k l.
Proof.
  intros Hk Hl. unfold splice. rewrite take_app_le by (rewrite length_take; lia).
  by rewrite take_take, Nat.min_l.
Qed.

Lemma WriteRequest_ok (self : C) d s n data xs : wf d -> 0 <= n < NumSectors -> active d = false ->
  SectorSize <= zlen data -> Rep s xs -> in_time (totalTicks (stats s)) ->
  exists d' s', WriteRequest self n data d s = Ok (d', s') /\
    wf d' /\ active d' = true /\ lastSector d' = n /\
    (forall m, 0 <= m < NumSectors -> sector d' m =
       if decide (m = n) then take (Z.to_nat SectorSize) data else sector d m) /\
    stats s' = disk_write (stats s) /\ scheduled self (ComputeLatency d s n true) s xs s'.
Proof.
  intros Hw Hn Ha Hlen HR Ht. unfold WriteRequest. rewrite Ha.
  destruct (sector_offset n Hn) as (Ho & H0 & H1). pose proof (wf_size d Hw) as Hs.
  rewrite !ASSERT_true by (done || lia). rewrite Ho, Lseek_ok by done. cbn [rbind].
  rewrite (proj2 (Z.ltb_ge _ _)) by done.
  set (data' := take (Z.to_nat SectorSize) data).
  assert (Hd : zlen data' = SectorSize).
  { unfold data', zlen in *. disk_lia_consts. rewrite length_take. lia. }
  rewrite WriteFile_ok by (cbn [offset content]; lia). cbn [rbind offset content].
  rewrite (Z.add_comm (SectorSize * n)). set (f := mkUFile _ _).
  assert (Hsp : zlen (content f) = DiskSize /\ take 4 (content f) = le_split 4 MagicNumber).
  { unfold f. cbn [content]. unfold zlen in *. rewrite length_splice by (unfold DiskSize in *; lia).
    split; [done|]. rewrite <- (wf_magic d Hw). apply take_splice; disk_lia_consts; lia. }
  destruct Hsp as [Hs' Hm'].
  destruct (UpdateLast_ok d f s n Hw Hs' Hm' Hn Ht) as (Hw' & Hf & Ha' & Hl).
  destruct (Schedule_request self d s n true (disk_write (stats s)) xs Hw Hn HR Ht eq_refl)
    as (s' & -> & Hst & Hsch).
  cbn [rbind]. eexists _, s'. split; [done|]. split_and!; try done.
  intros m Hm. unfold sector at 1. rewrite Hf. by apply sector_splice.
Qed.

(** C31. One request at a time, in range, or the assertion fails.  An accepted
    read returns the sector's bytes and changes none; an accepted write stores
    its first 128 bytes in that sector and leaves every other sector alone; the
    disk is then busy, and exactly one disk interrupt is pending for the
    request, at the end of its latency and in the future. *)
Theorem disk_refines_sectors (self : C) d s n data xs (Hwf : wf d) (Hrep : Rep s xs)
    (Htime : in_time (totalTicks (stats s))) (Hdata : SectorSize <= zlen data) :
  (0 <= n < NumSectors /\ active d = false ->
    (exists d' s', ReadRequest self n d s = Ok (sector d n, d', s') /\ wf d' /\ active d' = true /\
       (forall m, sector d' m = sector d m) /\
       scheduled self (ComputeLatency d s n false) s xs s') /\
    (exists d' s', WriteRequest self n data d s = Ok (d', s') /\ wf d' /\ active d' = true /\
       (forall m, 0 <= m < NumSectors -> sector d' m =
          if decide (m = n) then take (Z.to_nat SectorSize) data else sector d m) /\
       scheduled self (ComputeLatency d s n true) s xs s')) /\
  (~ (0 <= n < NumSectors /\ active d = false) ->
    ReadRequest self n d s = Fault AssertFailed /\ WriteRequest self n data d s = Fault AssertFailed).
Proof.
  split.
  - intros [Hn Ha]. split.
    + destruct (ReadRequest_ok self d s n xs Hwf Hn Ha Hrep Htime) as
        (d' & s' & HR & Hw' & Ha' & _ & Hc & _ & Hs).
      exists d', s'. split_and!; try done. intros m. unfold sector. by rewrite Hc.
    + destruct (WriteRequest_ok self d s n data xs Hwf Hn Ha Hdata Hrep Htime) as
        (d' & s' & HR & Hw' & Ha' & _ & Hc & _ & Hs). by exists d', s'.
  - intros Hno. unfold ReadRequest, WriteRequest. destruct (active d); cbn [negb ASSERT rbind].
    { done. }
    rewrite !ASSERT_false; [done| |].
    all: apply not_true_is_false; intros E; apply Hno; bool_to_prop; lia || done.
Qed.

(** The latency of a request: without the track buffer the disk is done at the
    first time after the seek at which the head has come to the start of a
    sector and then passed over the whole requested sector; with it (a read on
    the current track, of a sector the head has already passed over since it
    reached the track) the cost is that of one sector.  It is never below one
    sector, so the request's interrupt can be scheduled, nor above 64. *)
Theorem ComputeLatency_exact d s n writing (Hwf : wf d) (Hn : 0 <= n < NumSectors)
    (Htime : in_time (totalTicks (stats s))) :
  let now := totalTicks (stats s) in
  let lat := ComputeLatency d s n writing in
  let buffered := writing = false /\ track n = track (lastSector d) /\
                  passed_over d n (next_boundary now) in
  RotationTime <= lat <= 64 * RotationTime /\ (buffered -> lat = RotationTime) /\
  (~ buffered -> rotates_to d n (now + seek_time d n) (now + lat)).
Proof.
  destruct (ComputeLatency_ok d s n writing Hwf Hn Htime) as [Hb Hor]. cbv zeta in *.
  split; [done|]. split.
  - intros Hbuf. by destruct Hor as [(? & ? & ? & ?)|[? _]].
  - intros Hno. destruct Hor as [(? & ? & ? & ?)|[_ ?]]; [|done]. by destruct Hno.
Qed.
End theory.

(** ** Opening the disk *)

(** The file [Disk::Disk] makes: the magic number and zeros. *)
Definition fresh_file (n : nat) : list Z := le_split 4 MagicNumber ++ replicate n 0.

Lemma make_file (n : nat) : (4 <= n)%nat ->
  (f ← WriteFile (mkUFile [] 0) (le_split 4 MagicNumber);
   f ← Lseek f (Z.of_nat n);
   WriteFile f (le_split 4 0)) = Ok (mkUFile (fresh_file n) (Z.of_nat n + 4)).
Proof.
  intros Hn. assert (E : WriteFile (mkUFile [] 0) (le_split 4 MagicNumber) =
    Ok (mkUFile (le_split 4 MagicNumber) 4)) by done.
  rewrite E. cbn [rbind]. rewrite Lseek_ok by lia. cbn [rbind]. unfold WriteFile.
  cbn [content offset]. rewrite Nat2Z.id, length_le_split. unfold fresh_file, splice.
  set (mg := le_split 4 MagicNumber). assert (Hmg : length mg = 4%nat) by done. clearbody mg.
  change (le_split 4 0) with (replicate 4 0). rewrite length_replicate.
  rewrite take_ge by (rewrite length_app, length_replicate; lia).
  rewrite drop_ge by (rewrite length_app, length_replicate; lia).
  rewrite app_nil_r, <- app_assoc, <- replicate_add. by replace (n - 4 + 4)%nat with n by lia.
Qed.

Lemma slice_replicate {A} off n k (x : A) : (off + n <= k)%nat ->
  slice off n (replicate k x) = replicate n x.
Proof.
  intros. unfold slice. rewrite drop_replicate, take_replicate. f_equal. lia.
Qed.

Lemma fresh_wf (n : nat) off : Z.of_nat n = DiskSize - 4 -> wf (mkDisk (mkUFile (fresh_file n) off) false 0 0).
Proof.
  intros Hn. constructor; cbn [fileno content lastSector bufferInit].
  - unfold zlen, fresh_file. rewrite length_app, length_le_split, length_replicate. lia.
  - unfold fresh_file. by rewrite take_app_le.
  - disk_lia_consts. lia.
  - unfold is_s32. by split_and!.
Qed.

Lemma fresh_sector (n : nat) off m : Z.of_nat n = DiskSize - 4 -> 0 <= m < NumSectors ->
  sector (mkDisk (mkUFile (fresh_file n) off) false 0 0) m = replicate (Z.to_nat SectorSize) 0.
Proof.
  intros Hn Hm. destruct (sector_offset m Hm) as (_ & ? & ?).
  unfold sector, fresh_file. cbn [fileno content].
  unfold slice. rewrite drop_app_ge by (rewrite length_le_split; unfold MagicSize, SectorSize in *; lia).
  apply slice_replicate. rewrite length_le_split. disk_lia_consts. lia.
Qed.

Lemma reopen bs : 4 <= zlen bs ->
  new_Disk (Some bs) = if s32 (le_combine (take 4 bs)) =? MagicNumber
                       then Ok (mkDisk (mkUFile bs 4) false 0 0) else Fault AssertFailed.
Proof.
  intros Hlen. unfold new_Disk. rewrite Read_ok by (unfold MagicSize; cbn [offset content]; lia).
  cbn [rbind offset content]. change (slice (Z.to_nat 0) (Z.to_nat MagicSize) bs) with (take 4 bs).
  by destruct (_ =? _).
Qed.

(** Opening the disk: a missing file becomes a well-formed idle disk whose
    sectors are all zero; the file of any disk opens again with every sector as
    it was; a file that does not start with the magic number is refused. *)
Theorem new_Disk_keeps_sectors :
  (exists d, new_Disk None = Ok d /\ wf d /\ active d = false /\
     forall n, 0 <= n < NumSectors -> sector d n = replicate (Z.to_nat SectorSize) 0) /\
  (forall d, wf d -> exists d', new_Disk (Some (content (fileno d))) = Ok d' /\ wf d' /\
     active d' = false /\ forall n, sector d' n = sector d n) /\
  (forall bs, s32 (le_combine (take 4 bs)) <> MagicNumber \/ zlen bs < 4 ->
     new_Disk (Some bs) = Fault AssertFailed).
Proof.
  split_and!.
  - pose proof (make_file (Z.to_nat (DiskSize - 4))) as Hm.
    assert (Hz : Z.of_nat (Z.to_nat (DiskSize - 4)) = DiskSize - 4) by (apply Z2Nat.id; done).
    rewrite Hz in Hm. unfold new_Disk. rewrite Hm by (clear; apply Nat2Z.inj_le; rewrite Z2Nat.id; done).
    cbn [rbind]. eexists. split; [done|].
    split_and!; [by apply fresh_wf|done|]. intros n Hn. by apply fresh_sector.
  - intros d Hw. pose proof (wf_size d Hw). rewrite reopen, (wf_magic d Hw) by (disk_lia_consts; lia).
    rewrite (proj2 (Z.eqb_eq _ _)) by done. eexists. split_and!; try done.
    destruct Hw. constructor; try done; cbn; by disk_lia_consts.
  - intros bs Hbs. destruct (Z.le_gt_cases 4 (zlen bs)) as [Hge|Hlt].
    + rewrite reopen by done. rewrite (proj2 (Z.eqb_neq _ _)); [done|]. destruct Hbs; [done|lia].
    + unfold new_Disk, Read. cbn [offset content]. rewrite ASSERT_false; [done|].
      apply Z.eqb_neq. unfold slice, zlen, MagicSize in *. rewrite length_take, length_drop. lia.
Qed.

(** *** A new disk at time 250: reading sector 3 takes half a rotation to the
    next boundary, three to the sector and one over it. *)
Definition blank (n : nat) : Disk := mkDisk (mkUFile (fresh_file n) 4) false 0 0.
Definition at_250 : Sim () () :=
  mkSim new_Interrupt (set_ticks new_Statistics 250 0 250 0) None ().

Lemma new_Rep {C W} `{EqDecision C} (st : Statistics) (w : W) :
  Rep (mkSim (@new_Interrupt C) st None w) [].
Proof. split_and!; [|constructor|constructor]. apply Lists.new_List_rep. Qed.

Example disk_refines_sectors_witness :
  exists n, Z.of_nat n = DiskSize - 4 /\
  exists d' s', WriteRequest () 3 (replicate 128 7) (blank n) at_250 = Ok (d', s') /\
    sector d' 3 = replicate 128 7 /\ sector d' 4 = replicate 128 0 /\
    ReadRequest () 3 d' s' = Fault AssertFailed.
Proof.
  exists (Z.to_nat (DiskSize - 4)).
  assert (Hz : Z.of_nat (Z.to_nat (DiskSize - 4)) = DiskSize - 4) by (apply Z2Nat.id; done).
  set (n := Z.to_nat (DiskSize - 4)) in *. clearbody n. split; [exact Hz|].
  assert (Hw : wf (blank n)) by (by apply fresh_wf).
  assert (Ht : in_time (totalTicks (stats at_250))) by (unfold in_time; cbn; lia).
  destruct (disk_refines_sectors () (blank n) at_250 3 (replicate 128 7) [] Hw (new_Rep _ _) Ht
    ltac:(done)) as [Hok _].
  assert (Hn : 0 <= 3 < NumSectors) by (unfold NumSectors, SectorsPerTrack, NumTracks; lia).
  destruct (Hok (conj Hn eq_refl)) as [_ (d' & s' & HW & _ & Ha & Hsec & _)]. exists d', s'.
  split; [exact HW|]. split; [|split].
  - by rewrite Hsec.
  - rewrite Hsec by (unfold NumSectors, SectorsPerTrack, NumTracks; lia).
    rewrite decide_False by done. by apply fresh_sector.
  - unfold ReadRequest. by rewrite Ha.
Defined.

Example ComputeLatency_exact_witness :
  exists n, Z.of_nat n = DiskSize - 4 /\ ComputeLatency (blank n) at_250 3 false = 1750 /\
    rotates_to (blank n) 3 250 2000 /\ ComputeLatency (blank n) at_250 0 false = 500.
Proof.
  exists (Z.to_nat (DiskSize - 4)).
  assert (Hz : Z.of_nat (Z.to_nat (DiskSize - 4)) = DiskSize - 4) by (apply Z2Nat.id; done).
  set (n := Z.to_nat (DiskSize - 4)) in *. clearbody n. split; [exact Hz|].
  assert (E : ComputeLatency (blank n) at_250 3 false = 1750) by reflexivity.
  split; [exact E|]. split; [|reflexivity].
  destruct (ComputeLatency_exact (blank n) at_250 3 false (fresh_wf n 4 Hz)) as (_ & Hb & Hr).
  - disk_lia_consts. lia.
  - unfold in_time. cbn. lia.
  - rewrite E in Hb, Hr. apply Hr. intros Hbuf. apply Hb in Hbuf. discriminate.
Defined.
End Disk.
