(* ===== verification/FileHdr.v ===== *)
(** The file header ([filesys/filehdr.h], [filesys/filehdr.cc]) over the
    interface [SectorDisk] of a disk of sectors ([filesys/synchdisk.h]): the
    layout of the header in its sector, the allocation of data blocks from the
    free map and their release. *)

From S2P Require Import Prelude Bitmap Disk.
Import Disk.

(** ** The interface: an array of sectors *)

(** [SynchDisk::ReadSector] and [WriteSector], on any state [D] that has them. *)
Class SectorDisk (D : Type) := {
  ReadSector : Z -> D -> res (list Z * D);
  WriteSector : Z -> list Z -> D -> res D;
}.

(** A sector is 128 bytes; reads do not change sectors and a write changes one;
    a sector number out of range fails an assertion. *)
Class SectorDiskLaws (D : Type) `{SectorDisk D} := {
  sd_ok : D -> Prop;
  sd_sector : D -> Z -> list Z;
  sd_length d n : sd_ok d -> 0 <= n < NumSectors -> zlen (sd_sector d n) = SectorSize;
  sd_bytes d n : sd_ok d -> 0 <= n < NumSectors -> Forall is_byte (sd_sector d n);
  ReadSector_law d n : sd_ok d -> 0 <= n < NumSectors ->
    exists d', ReadSector n d = Ok (sd_sector d n, d') /\ sd_ok d' /\
      forall m, 0 <= m < NumSectors -> sd_sector d' m = sd_sector d m;
  WriteSector_law d n data : sd_ok d -> 0 <= n < NumSectors -> SectorSize <= zlen data ->
    Forall is_byte data ->
    exists d', WriteSector n data d = Ok d' /\ sd_ok d' /\
      forall m, 0 <= m < NumSectors -> sd_sector d' m =
        if decide (m = n) then take (Z.to_nat SectorSize) data else sd_sector d m;
  sd_out_of_range d n data : sd_ok d -> ~ (0 <= n < NumSectors) ->
    ReadSector n d = Fault AssertFailed /\ WriteSector n data d = Fault AssertFailed;
}.

Module FileHdr.

(** [sizeof(int)] is 4. *)
Definition NumDirect : Z := Z.quot (SectorSize - 2 * 4) 4.
Definition MaxFileSize : Z := NumDirect * SectorSize.

Record FileHeader := mkHeader {
  numBytes : Z;
  numSectors : Z;
  dataSectors : list Z;
}.

Section code.
Context {B : Type} `{BitAllocator B} {D : Type} `{SectorDisk D}.
Implicit Types (h : FileHeader) (b : B) (d : D).

(** One turn of the loop of [Allocate]. *)
Definition allocate_one (i : Z) (hb : FileHeader * B) : res (FileHeader * B) :=
  let '(h, freeMap) := hb in
  '(s, freeMap) ← ba_FindAndSet freeMap;
  ds ← arr_set (dataSectors h) i s;
  let h := mkHeader (numBytes h) (numSectors h) ds in
  ASSERT (0 <=? s) ;;
  Ok (h, freeMap).

Definition Allocate h b (fileSize : Z) : res (bool * FileHeader * B) :=
  let h := mkHeader fileSize (divRoundUp fileSize SectorSize) (dataSectors h) in
  clear ← ba_NumClear b;
  if clear <? numSectors h then Ok (false, h, b)
  else
    '(h, b) ← for_range (Z.to_nat (numSectors h)) 0 allocate_one (h, b);
    Ok (true, h, b).

Definition deallocate_one h (i : Z) b : res B :=
  s ← arr_get (dataSectors h) i;
  t ← ba_Test b s;
  ASSERT t ;;
  ba_Clear b s.

Definition Deallocate h b : res B :=
  for_range (Z.to_nat (numSectors h)) 0 (deallocate_one h) b.

(** The object as the 128 bytes of a sector: 32 little-endian ints. *)
Definition ints_of (bs : list Z) : list Z :=
  (fun i => s32 (le_combine (slice (4 * i) 4 bs))) <$> seq 0 (length bs / 4).
Definition bytes_of (ints : list Z) : list Z := mjoin ((fun v => le_split 4 (u32 v)) <$> ints).

Definition to_bytes h : list Z := bytes_of (numBytes h :: numSectors h :: dataSectors h).
Definition of_bytes (bs : list Z) : FileHeader :=
  match ints_of bs with
  | nb :: ns :: ds => mkHeader nb ns ds
  | _ => mkHeader 0 0 []
  end.

Definition FetchFrom (sector : Z) d : res (FileHeader * D) :=
  '(bs, d) ← ReadSector sector d; Ok (of_bytes bs, d).

Definition WriteBack h (sector : Z) d : res D := WriteSector sector (to_bytes h) d.

Definition ByteToSector h (offset : Z) : res Z :=
  arr_get (dataSectors h) (Z.quot offset SectorSize).

Definition FileLength h : Z := numBytes h.
End code.

(** ** The free map as a set of sectors *)

Definition marked (l : list bool) : gset Z :=
  list_to_set (omap (fun ix : nat * bool => if ix.2 then Some (Z.of_nat ix.1) else None)
                 (imap pair l)).

Lemma elem_of_marked l s : s ∈ marked l <-> 0 <= s /\ l !! Z.to_nat s = Some true.
Proof.
  unfold marked. rewrite elem_of_list_to_set, list_elem_of_omap. split.
  - intros ([i x] & Hin & E). apply list_elem_of_lookup in Hin as [k Hk].
    rewrite list_lookup_imap in Hk. destruct (l !! k) as [y|] eqn:Hy; [|done].
    injection Hk as <- <-. cbn [fst snd] in E. destruct y; [|done]. injection E as <-.
    rewrite Nat2Z.id. split; [lia|done].
  - intros [Hs Hl]. exists (Z.to_nat s, true). split; [|cbn; f_equal; lia].
    apply list_elem_of_lookup. exists (Z.to_nat s). by rewrite list_lookup_imap, Hl.
Qed.

Lemma marked_snoc l x :
  marked (l ++ [x]) = (if x then {[ zlen l ]} ∪ marked l else marked l).
Proof.
  apply set_eq. intros s. rewrite elem_of_marked.
  assert (Hs : 0 <= s /\ (l ++ [x]) !! Z.to_nat s = Some true <->
    s ∈ marked l \/ (s = zlen l /\ x = true)).
  { rewrite elem_of_marked. unfold zlen. rewrite lookup_app_Some. split.
    - intros (H0 & [?|[Hge Hx]]); [by left; split|]. right.
      apply list_lookup_singleton_Some in Hx as [? ?]. split; [lia|done].
    - intros [[? ?]|[-> ->]]; [split; [done|by left]|]. split; [lia|]. right.
      rewrite Nat2Z.id. split; [lia|]. by rewrite Nat.sub_diag. }
  rewrite Hs. destruct x; set_solver.
Qed.

Lemma size_marked l : Z.of_nat (size (marked l)) = zlen l - count_clear l.
Proof.
  induction l as [|x l IH] using rev_ind; [done|].
  rewrite marked_snoc. unfold count_clear in *. rewrite filter_app, length_app, filter_cons.
  rewrite zlen_app. change (zlen [x]) with 1. destruct x; cbn [length filter].
  - rewrite decide_False by done. change (filter (fun y : bool => y = false) (@nil bool)) with (@nil bool).
    rewrite size_union, size_singleton; [cbn [length]; lia|].
    apply disjoint_singleton_l. rewrite elem_of_marked. unfold zlen. rewrite Nat2Z.id.
    intros [_ Hl]. apply lookup_lt_Some in Hl. lia.
  - rewrite decide_True by done. change (filter (fun y : bool => y = false) (@nil bool)) with (@nil bool). cbn [length]. lia.
Qed.

Lemma marked_insert (l : list bool) (s : Z) (x : bool) : 0 <= s < zlen l ->
  marked (<[Z.to_nat s := x]> l) = (if x then {[ s ]} ∪ marked l else marked l ∖ ({[ s ]} : gset Z)).
Proof.
  unfold zlen. intros Hs. apply set_eq. intros t. rewrite elem_of_marked.
  assert (Ht : 0 <= t /\ <[Z.to_nat s := x]> l !! Z.to_nat t = Some true <->
    (t = s /\ x = true) \/ (t <> s /\ t ∈ marked l)).
  { rewrite elem_of_marked. destruct (decide (t = s)) as [->|Hne].
    - rewrite list_lookup_insert_eq by lia. split; [intros [_ [= ->]]; by left|].
      intros [[_ ->]|[? _]]; [split; [lia|done]|done].
    - split.
      + intros [H0 Hl]. rewrite list_lookup_insert_ne in Hl by lia. by right.
      + intros [[? _]|(_ & H0 & Hl)]; [done|]. by rewrite list_lookup_insert_ne by lia. }
  rewrite Ht. destruct x, (decide (t = s)); set_solver.
Qed.

Section freemap.
Context {B : Type} `{BitAllocatorLaws B}.
Implicit Types (b : B) (S : gset Z).

(** A map of [n] bits with the sectors [S] marked. *)
Definition owns b (n : Z) S : Prop := exists l, ba_rep b l /\ zlen l = n /\ marked l = S.

Lemma owns_range b n S s : owns b n S -> s ∈ S -> 0 <= s < n.
Proof.
  intros (l & _ & Hn & <-) [? Hl]%elem_of_marked. apply lookup_lt_Some in Hl.
  unfold zlen in Hn. lia.
Qed.

Lemma owns_NumClear b n S : owns b n S -> ba_NumClear b = Ok (n - Z.of_nat (size S)).
Proof.
  intros (l & Hr & <- & <-). rewrite (ba_NumClear_law _ _ Hr), size_marked. f_equal. lia.
Qed.

Lemma owns_Test b n S s : owns b n S -> 0 <= s < n -> ba_Test b s = Ok (bool_decide (s ∈ S)).
Proof.
  intros (l & Hr & <- & <-) Hs. unfold zlen in Hs.
  destruct (lookup_lt_is_Some_2 l (Z.to_nat s) ltac:(lia)) as [x Hx].
  rewrite (ba_Test_in _ _ _ _ Hr (proj1 Hs) Hx). f_equal. symmetry.
  destruct x; [apply bool_decide_eq_true_2 | apply bool_decide_eq_false_2];
    rewrite elem_of_marked; [split; [lia|done]|intros [_ ?]; congruence].
Qed.

Lemma owns_Clear b n S s : owns b n S -> 0 <= s < n ->
  exists b', ba_Clear b s = Ok b' /\ owns b' n (S ∖ {[ s ]}).
Proof.
  intros (l & Hr & <- & <-) Hs. destruct (ba_Clear_in _ _ _ Hr Hs) as (b' & -> & Hr').
  exists b'. split; [done|]. eexists. split; [exact Hr'|]. by rewrite zlen_insert, marked_insert.
Qed.

Lemma owns_Mark b n S s : owns b n S -> 0 <= s < n ->
  exists b', ba_Mark b s = Ok b' /\ owns b' n ({[ s ]} ∪ S).
Proof.
  intros (l & Hr & <- & <-) Hs. destruct (ba_Mark_in _ _ _ Hr Hs) as (b' & -> & Hr').
  exists b'. split; [done|]. eexists. split; [exact Hr'|]. by rewrite zlen_insert, marked_insert.
Qed.

Lemma owns_FindAndSet b n S : owns b n S ->
  (exists s b', ba_FindAndSet b = Ok (s, b') /\ 0 <= s < n /\ (s ∉ S) /\ owns b' n ({[ s ]} ∪ S)) \/
  (Z.of_nat (size S) = n /\ ba_FindAndSet b = Ok (-1, b)).
Proof.
  intros (l & Hr & <- & <-). pose proof (ba_FindAndSet_law _ _ Hr) as HF.
  unfold first_clear in HF. destruct (find_index negb l) as [i|] eqn:E.
  - left. apply find_index_Some in E as (x & Hx & Hn & _). destruct x; [done|].
    apply lookup_lt_Some in Hx as Hlt. destruct HF as (b' & -> & Hr').
    exists (Z.of_nat i), b'. split; [done|]. split; [unfold zlen; lia|]. split.
    + rewrite elem_of_marked, Nat2Z.id. intros [_ ?]; congruence.
    + eexists. split; [exact Hr'|]. split; [apply zlen_insert|].
      rewrite <- (Nat2Z.id i) at 1. apply marked_insert. unfold zlen. lia.
  - right. split; [|done]. rewrite size_marked.
    enough (count_clear l = 0) by lia. apply Bitmap.count_clear_none. intros j x Hx.
    rewrite find_index_None in E. specialize (E j x Hx). by destruct x.
Qed.
End freemap.

(** ** The header in its sector *)

(** The data blocks in use. *)
Definition blocks (h : FileHeader) : list Z := take (Z.to_nat (numSectors h)) (dataSectors h).

(** A header as the code keeps it. *)
Record hdr_ok (h : FileHeader) : Prop := {
  hdr_size : 0 <= numBytes h;
  hdr_sectors : numSectors h = divRoundUp (numBytes h) SectorSize;
  hdr_direct : numSectors h <= NumDirect;
  hdr_table : zlen (dataSectors h) = NumDirect;
  hdr_ints : Forall is_s32 (dataSectors h);
}.

Lemma NumDirect_eq : NumDirect = 30.
Proof. reflexivity. Qed.

Lemma hdr_bounds h : hdr_ok h -> 0 <= numSectors h <= 30 /\
  numBytes h <= numSectors h * SectorSize < numBytes h + SectorSize.
Proof.
  intros Hh. pose proof (hdr_size h Hh). pose proof (hdr_direct h Hh) as Hd.
  rewrite NumDirect_eq in Hd. rewrite (hdr_sectors h Hh) in *.
  pose proof (divRoundUp_spec (numBytes h) SectorSize ltac:(done) ltac:(done)).
  unfold SectorSize in *. lia.
Qed.

Lemma length_blocks h : hdr_ok h -> zlen (blocks h) = numSectors h.
Proof.
  intros Hh. pose proof (hdr_bounds h Hh). pose proof (hdr_table h Hh) as Ht.
  rewrite NumDirect_eq in Ht. unfold zlen, blocks in *. rewrite length_take. lia.
Qed.

Lemma length_bytes_of ints : length (bytes_of ints) = (4 * length ints)%nat.
Proof.
  unfold bytes_of. rewrite (length_mjoin_chunks 4), length_fmap; [done|].
  apply Forall_fmap, Forall_true. intros v. apply length_le_split.
Qed.

Lemma bytes_of_bytes ints : Forall is_byte (bytes_of ints).
Proof.
  unfold bytes_of. induction ints as [|v ints IH]; cbn [fmap list_fmap]; [constructor|].
  apply Forall_app. split; [apply le_split_bytes|exact IH].
Qed.

Lemma ints_of_bytes_of ints : Forall is_s32 ints -> ints_of (bytes_of ints) = ints.
Proof.
  intros Hi. unfold ints_of. rewrite length_bytes_of, Nat.mul_comm, Nat.div_mul by done.
  apply list_eq. intros i. rewrite list_lookup_fmap.
  destruct (ints !! i) as [v|] eqn:Hv.
  - rewrite lookup_seq_lt by by apply lookup_lt_Some in Hv. cbn [fmap option_fmap option_map].
    unfold bytes_of. rewrite (slice_mjoin 4 i _ (le_split 4 (u32 v))).
    + rewrite le_combine_split. f_equal. change (256 ^ Z.of_nat 4) with (2 ^ 32).
      fold (u32 (u32 v)). rewrite u32_idemp, s32_u32. apply s32_id.
      rewrite Forall_lookup in Hi. by apply (Hi i).
    + apply Forall_fmap, Forall_true. intros w. apply length_le_split.
    + by rewrite list_lookup_fmap, Hv.
  - rewrite lookup_seq_ge by by apply lookup_ge_None in Hv. done.
Qed.

Lemma to_bytes_ok h : hdr_ok h -> zlen (to_bytes h) = SectorSize /\ Forall is_byte (to_bytes h).
Proof.
  intros Hh. split; [|apply bytes_of_bytes]. pose proof (hdr_table h Hh) as Ht.
  rewrite NumDirect_eq in Ht. unfold zlen, to_bytes, SectorSize in *.
  rewrite length_bytes_of. cbn [length]. lia.
Qed.

Lemma of_bytes_to_bytes h : hdr_ok h -> numBytes h < 2 ^ 31 -> of_bytes (to_bytes h) = h.
Proof.
  intros Hh Hn. unfold of_bytes, to_bytes. pose proof (hdr_size h Hh).
  pose proof (hdr_bounds h Hh). rewrite ints_of_bytes_of; [by destruct h|].
  repeat constructor; [unfold is_s32; lia..|apply Hh].
Qed.

Section fetch.
Context {D : Type} `{SectorDiskLaws D}.

Lemma WriteBack_ok h (d : D) n : hdr_ok h -> sd_ok d -> 0 <= n < NumSectors ->
  exists d', WriteBack h n d = Ok d' /\ sd_ok d' /\
    forall m, 0 <= m < NumSectors -> sd_sector d' m =
      if decide (m = n) then to_bytes h else sd_sector d m.
Proof.
  intros Hh Hd Hn. destruct (to_bytes_ok h Hh) as [Hl Hb].
  destruct (WriteSector_law d n (to_bytes h) Hd Hn ltac:(lia) Hb) as (d' & HW & Hd' & Hs).
  exists d'. split; [done|]. split; [done|]. intros m Hm. rewrite (Hs m Hm).
  case_decide; [|done]. apply take_ge. unfold zlen in Hl. lia.
Qed.

Lemma FetchFrom_ok (d : D) n : sd_ok d -> 0 <= n < NumSectors ->
  exists d', FetchFrom n d = Ok (of_bytes (sd_sector d n), d') /\ sd_ok d' /\
    forall m, 0 <= m < NumSectors -> sd_sector d' m = sd_sector d m.
Proof.
  intros Hd Hn. unfold FetchFrom. destruct (ReadSector_law d n Hd Hn) as (d' & -> & ? & ?).
  by exists d'.
Qed.

(** A header written back to a sector and fetched from it again is the same
    header, and no other sector changes. *)
Theorem FetchFrom_after_WriteBack h (d : D) n (Hh : hdr_ok h) (Hd : sd_ok d)
    (Hn : 0 <= n < NumSectors) :
  exists d1 d2, WriteBack h n d = Ok d1 /\ FetchFrom n d1 = Ok (h, d2) /\
    forall m, 0 <= m < NumSectors -> m <> n -> sd_sector d2 m = sd_sector d m.
Proof.
  destruct (WriteBack_ok h d n Hh Hd Hn) as (d1 & HW & Hd1 & Hs1).
  destruct (FetchFrom_ok d1 n Hd1 Hn) as (d2 & HF & Hd2 & Hs2). exists d1, d2.
  split; [done|]. pose proof (hdr_bounds h Hh). split.
  - rewrite HF, Hs1, decide_True by done. rewrite of_bytes_to_bytes; [done..|].
    unfold SectorSize in *. lia.
  - intros m Hm Hne. by rewrite Hs2, Hs1, decide_False.
Qed.
End fetch.

(** ** Allocation *)

Lemma for_range_add {T} a b i (f : Z -> T -> res T) s :
  for_range (a + b) i f s = (t ← for_range a i f s; for_range b (i + Z.of_nat a) f t).
Proof.
  revert i s. induction a as [|a IH]; intros i s; cbn [for_range Nat.add rbind].
  - by rewrite Z.add_0_r.
  - destruct (f i s) as [t|e]; cbn [rbind]; [|done]. rewrite IH.
    by replace (i + 1 + Z.of_nat a) with (i + Z.of_nat (S a)) by lia.
Qed.

Lemma size_list_to_set_union (ss : list Z) (S : gset Z) : NoDup ss -> (forall s, s ∈ ss -> s ∉ S) ->
  size (list_to_set ss ∪ S) = (length ss + size S)%nat.
Proof.
  intros Hnd Hdis. rewrite size_union by (apply elem_of_disjoint; intros s;
    rewrite elem_of_list_to_set; apply Hdis).
  by rewrite size_list_to_set.
Qed.

Section allocation.
Context {B : Type} `{BitAllocatorLaws B}.
Implicit Types (b : B) (S : gset Z) (h : FileHeader).

(** The state of [Allocate] after [i] turns: the sectors [ss] are taken. *)
Definition taking (n : Z) S h0 (i : Z) (hb : FileHeader * B) : Prop :=
  exists ss, zlen ss = i /\ NoDup ss /\ (forall s, s ∈ ss -> 0 <= s < n /\ (s ∉ S)) /\
    owns hb.2 n (list_to_set ss ∪ S) /\ numBytes hb.1 = numBytes h0 /\
    numSectors hb.1 = numSectors h0 /\ zlen (dataSectors hb.1) = zlen (dataSectors h0) /\
    dataSectors hb.1 = ss ++ drop (length ss) (dataSectors h0).

Lemma allocate_one_ok n S h0 i (hb : FileHeader * B) : taking n S h0 i hb ->
  i + Z.of_nat (size S) < n -> 
  match allocate_one i hb with
  | Ok hb' => i < zlen (dataSectors h0) /\ taking n S h0 (i + 1) hb'
  | Fault f => f = OutOfBounds /\ zlen (dataSectors h0) <= i
  end.
Proof.
  destruct hb as [h b]. intros (ss & Hlen & Hnd & Hin & Ho & Hnb & Hns & Hz & Hds) Hroom.
  cbn [fst snd] in *. unfold allocate_one.
  destruct (owns_FindAndSet _ _ _ Ho) as [(s & b' & -> & Hs & Hnew & Ho')|[Hfull _]].
  2: { rewrite size_list_to_set_union in Hfull by (done || naive_solver). unfold zlen in *. lia. }
  cbn [rbind]. destruct (decide (i < zlen (dataSectors h0))) as [Hi|Hi].
  - rewrite arr_set_lt by (unfold zlen in *; lia). cbn [rbind].
    rewrite ASSERT_true by lia. split; [done|]. exists (ss ++ [s]).
    rewrite not_elem_of_union, elem_of_list_to_set in Hnew. cbn [fst snd numBytes numSectors dataSectors].
    split_and!.
    + rewrite zlen_app. change (zlen [s]) with 1. lia.
    + apply NoDup_app. split_and!; [done| |apply NoDup_singleton].
      intros x Hx ->%list_elem_of_singleton. naive_solver.
    + intros x. rewrite elem_of_app, list_elem_of_singleton. naive_solver.
    + replace (list_to_set (ss ++ [s]) ∪ S) with ({[s]} ∪ (list_to_set ss ∪ S)) by set_solver.
      done.
    + done.
    + done.
    + by rewrite zlen_insert.
    + rewrite Hds. replace (Z.to_nat i) with (length ss + 0)%nat by (unfold zlen in *; lia).
      rewrite insert_app_r. rewrite <- app_assoc. f_equal. rewrite length_app. cbn [length].
      destruct (lookup_lt_is_Some_2 (dataSectors h0) (length ss)) as [x Hx];
        [unfold zlen in *; lia|].
      rewrite (drop_S _ x) by done. cbn. by rewrite Nat.add_1_r.
  - rewrite arr_set_out by lia. cbn [rbind]. split; [done|]. lia.
Qed.

Lemma allocate_loop_ok n S h0 b (k : nat) : owns b n S -> Z.of_nat k + Z.of_nat (size S) <= n ->
  Z.of_nat k <= zlen (dataSectors h0) ->
  exists hb, for_range k 0 allocate_one (h0, b) = Ok hb /\ taking n S h0 (Z.of_nat k) hb.
Proof.
  intros Ho Hroom Hk.
  destruct (for_range_rule (taking n S h0) k 0 allocate_one (h0, b)) as (hb & HF & HT).
  - exists []. split_and!; try done; [apply NoDup_nil_2|intros s Hs; by apply not_elem_of_nil in Hs|].
    replace (list_to_set (@nil Z) ∪ S) with S by set_solver. done.
  - intros j hb Hj HT. pose proof (allocate_one_ok n S h0 j hb HT ltac:(lia)) as Hone.
    destruct (allocate_one j hb) as [hb'|f]; destruct Hone; [by exists hb'|lia].
  - exists hb. by split.
Qed.

(** Where the table of the header ends, the loop writes past it. *)
Lemma allocate_loop_overruns n S h0 b (k : nat) : owns b n S ->
  Z.of_nat k + Z.of_nat (size S) <= n -> zlen (dataSectors h0) < Z.of_nat k ->
  for_range k 0 allocate_one (h0, b) = Fault OutOfBounds.
Proof.
  intros Ho Hroom Hk. set (t := length (dataSectors h0)).
  replace k with (t + Datatypes.S (k - t - 1))%nat by (unfold zlen in *; lia). rewrite for_range_add.
  destruct (allocate_loop_ok n S h0 b t Ho) as (hb & -> & HT); [unfold zlen in *; lia..|].
  cbn [rbind for_range]. pose proof (allocate_one_ok n S h0 _ hb HT) as Hone.
  rewrite Z.add_0_l. destruct (allocate_one _ hb) as [hb'|f]; cbn [rbind].
  - unfold zlen in *. lia.
  - destruct Hone as [-> _]; [unfold zlen in *; lia|done].
Qed.

Lemma Allocate_ok h b n S fileSize : owns b n S -> zlen (dataSectors h) = NumDirect ->
  0 <= fileSize -> Forall is_s32 (dataSectors h) -> n <= NumSectors ->
  let k := divRoundUp fileSize SectorSize in
  (k <= n - Z.of_nat (size S) -> k <= NumDirect -> exists h' b', Allocate h b fileSize = Ok (true, h', b') /\
     hdr_ok h' /\ numBytes h' = fileSize /\ NoDup (blocks h') /\
     (forall s, s ∈ blocks h' -> 0 <= s < n /\ (s ∉ S)) /\ owns b' n (list_to_set (blocks h') ∪ S)) /\
  (n - Z.of_nat (size S) < k -> exists h', Allocate h b fileSize = Ok (false, h', b)) /\
  (NumDirect < k <= n - Z.of_nat (size S) -> Allocate h b fileSize = Fault OutOfBounds).
Proof.
  intros Ho Ht Hf Hints Hn k. pose proof (divRoundUp_spec fileSize SectorSize Hf ltac:(done)) as Hk.
  fold k in Hk. assert (0 <= k) by (unfold SectorSize in *; lia).
  unfold Allocate. rewrite (owns_NumClear _ _ _ Ho). cbn [rbind numSectors dataSectors]. fold k.
  set (h0 := mkHeader fileSize k (dataSectors h)).
  split_and!.
  - intros Hroom Hd. rewrite (proj2 (Z.ltb_ge _ _)) by done.
    destruct (allocate_loop_ok n S h0 b (Z.to_nat k) Ho) as ([h' b'] & -> & HT);
      [lia|cbn [dataSectors h0]; lia|].
    destruct HT as (ss & Hlen & Hnd & Hin & Ho' & Hnb & Hns & Hz & Hds). cbn [fst snd rbind] in *.
    assert (Hb : blocks h' = ss).
    { unfold blocks. rewrite Hds, Hns. cbn [numSectors h0]. apply take_app_length'.
      unfold zlen in *. lia. }
    exists h', b'. rewrite Hb. split_and!; try done. constructor; rewrite ?Hnb, ?Hns, ?Hz; try done.
    rewrite Hds. apply Forall_app. split; [|by apply Forall_drop].
    apply Forall_forall. intros s Hs. destruct (Hin s Hs). unfold is_s32.
    unfold NumSectors, SectorsPerTrack, NumTracks in Hn. lia.
  - intros Hroom. rewrite (proj2 (Z.ltb_lt _ _)) by done. by eexists.
  - intros [Hd Hroom]. rewrite (proj2 (Z.ltb_ge _ _)) by done.
    rewrite (allocate_loop_overruns n S h0 b); [done|done|lia|cbn [dataSectors h0]; lia].
Qed.

(** Releasing blocks: all of them must be marked. *)
Lemma deallocate_loop_ok h b n S : owns b n S -> hdr_ok h -> NoDup (blocks h) ->
  (forall s, s ∈ blocks h -> s ∈ S) ->
  exists b', Deallocate h b = Ok b' /\ owns b' n (S ∖ list_to_set (blocks h)).
Proof.
  intros Ho Hh Hnd Hin. unfold Deallocate. pose proof (hdr_bounds h Hh) as Hb.
  pose proof (length_blocks h Hh) as Hlen.
  destruct (for_range_rule
    (fun i b => owns b n (S ∖ list_to_set (take (Z.to_nat i) (blocks h))))
    (Z.to_nat (numSectors h)) 0 (deallocate_one h) b) as (b' & HF & Ho').
  - change (take (Z.to_nat 0) (blocks h)) with (@nil Z). replace (S ∖ list_to_set (@nil Z)) with S by set_solver. done.
  - intros j b1 Hj Ho1. unfold deallocate_one.
    destruct (lookup_lt_is_Some_2 (blocks h) (Z.to_nat j)) as [s Hs]; [unfold zlen in *; lia|].
    pose proof Hs as Hs'. unfold blocks in Hs'. apply lookup_take_Some in Hs' as [Hs' _].
    rewrite (arr_get_Some _ _ s) by (done || lia). cbn [rbind].
    assert (HsS : s ∈ S) by (by apply Hin, (list_elem_of_lookup_2 _ _ _ Hs)).
    assert (Hnew : s ∉ take (Z.to_nat j) (blocks h)).
    { intros (i & Hi)%list_elem_of_lookup. apply lookup_take_Some in Hi as [Hi Hlt].
      pose proof (NoDup_lookup _ _ _ _ Hnd Hi Hs). lia. }
    pose proof (owns_range _ _ _ _ Ho HsS) as Hr.
    rewrite (owns_Test _ _ _ _ Ho1 Hr). cbn [rbind].
    rewrite ASSERT_true by (apply bool_decide_eq_true; set_solver).
    destruct (owns_Clear _ _ _ _ Ho1 Hr) as (b2 & -> & Ho2). exists b2. split; [done|].
    replace (Z.to_nat (j + 1)) with (Datatypes.S (Z.to_nat j)) by lia.
    rewrite (take_S_r _ _ s) by done.
    replace (S ∖ list_to_set (take (Z.to_nat j) (blocks h) ++ [s])) with
      (S ∖ list_to_set (take (Z.to_nat j) (blocks h)) ∖ {[s]}) by set_solver. done.
  - exists b'. split; [done|]. rewrite take_ge in Ho' by (unfold zlen in *; lia). done.
Qed.
End allocation.

Section allocation_properties.
Context {B : Type} `{BitAllocatorLaws B}.
Implicit Types (b : B) (S : gset Z) (h : FileHeader).

(** C32. [Allocate] succeeds exactly when enough sectors are free: it then takes
    distinct free sectors for the [divRoundUp(fileSize, SectorSize)] blocks and
    marks those and no others; without enough room it returns false and marks
    nothing.  It does not check the room in the header: with more than 30
    blocks it writes past [dataSectors]. *)
Theorem Allocate_exact h b n S fileSize (Howns : owns b n S)
    (Htable : zlen (dataSectors h) = NumDirect) (Hints : Forall is_s32 (dataSectors h))
    (Hsize : 0 <= fileSize) (Hn : n <= NumSectors) :
  let k := divRoundUp fileSize SectorSize in
  let free := n - Z.of_nat (size S) in
  (k <= free -> k <= NumDirect -> exists h' b', Allocate h b fileSize = Ok (true, h', b') /\
     hdr_ok h' /\ numBytes h' = fileSize /\ zlen (blocks h') = k /\ NoDup (blocks h') /\
     (forall s, s ∈ blocks h' -> 0 <= s < n /\ (s ∉ S)) /\ owns b' n (list_to_set (blocks h') ∪ S)) /\
  (free < k -> exists h', Allocate h b fileSize = Ok (false, h', b)) /\
  (NumDirect < k <= free -> Allocate h b fileSize = Fault OutOfBounds).
Proof.
  destruct (Allocate_ok h b n S fileSize Howns Htable Hsize Hints Hn) as (Hok & Hno & Hover).
  split_and!; [|done|done]. intros Hroom Hd.
  destruct (Hok Hroom Hd) as (h' & b' & HA & Hh & Hnb & Hrest). exists h', b'.
  split_and!; try done; try apply Hrest.
  rewrite length_blocks, (hdr_sectors h' Hh) by done. by rewrite Hnb.
Qed.

(** [Deallocate] gives back exactly what [Allocate] took, without failing its
    assertion that the blocks are marked. *)
Theorem Deallocate_inverts_Allocate h b n S fileSize h' b' (Howns : owns b n S)
    (Htable : zlen (dataSectors h) = NumDirect) (Hints : Forall is_s32 (dataSectors h))
    (Hsize : 0 <= fileSize) (Hn : n <= NumSectors)
    (Hrun : Allocate h b fileSize = Ok (true, h', b')) :
  exists b'', Deallocate h' b' = Ok b'' /\ owns b'' n S.
Proof.
  destruct (Allocate_ok h b n S fileSize Howns Htable Hsize Hints Hn) as (Hok & Hno & Hover).
  destruct (decide (divRoundUp fileSize SectorSize <= n - Z.of_nat (size S))) as [Hr|Hr].
  2: { destruct Hno as (h'' & Hno); [lia|]. congruence. }
  destruct (decide (divRoundUp fileSize SectorSize <= NumDirect)) as [Hd|Hd].
  2: { rewrite Hover in Hrun by lia. done. }
  destruct (Hok Hr Hd) as (h1 & b1 & HA & Hh & _ & Hnd & Hin & Ho). rewrite Hrun in HA.
  injection HA as <- <-.
  destruct (deallocate_loop_ok h' b' n _ Ho Hh Hnd) as (b'' & HD & Ho'); [set_solver|].
  exists b''. split; [done|].
  replace ((list_to_set (blocks h') ∪ S) ∖ list_to_set (blocks h')) with S in Ho'; [done|].
  apply set_eq. intros s. rewrite elem_of_difference, elem_of_union, elem_of_list_to_set.
  split; [|naive_solver]. intros Hs. split; [by right|]. intros Hb. by destruct (Hin s Hb).
Qed.
End allocation_properties.

(** ** An array of sectors, as an instance of the interface *)

Definition read_array (n : Z) (d : list (list Z)) : res (list Z * list (list Z)) :=
  ASSERT ((0 <=? n) && (n <? NumSectors)) ;; bs ← arr_get d n; Ok (bs, d).
Definition write_array (n : Z) (data : list Z) (d : list (list Z)) : res (list (list Z)) :=
  ASSERT ((0 <=? n) && (n <? NumSectors)) ;; arr_set d n (take (Z.to_nat SectorSize) data).

#[global] Instance array_disk : SectorDisk (list (list Z)) := {|
  ReadSector := read_array; WriteSector := write_array;
|}.

Definition array_ok (d : list (list Z)) : Prop :=
  zlen d = NumSectors /\ Forall (fun bs => zlen bs = SectorSize /\ Forall is_byte bs) d.
Definition array_sector (d : list (list Z)) (n : Z) : list Z := default [] (d !! Z.to_nat n).

Lemma array_lookup d n : array_ok d -> 0 <= n < NumSectors ->
  d !! Z.to_nat n = Some (array_sector d n) /\ zlen (array_sector d n) = SectorSize /\
  Forall is_byte (array_sector d n).
Proof.
  intros [Hl Ha] Hn. destruct (lookup_lt_is_Some_2 d (Z.to_nat n)) as [bs Hbs].
  { unfold zlen in Hl. lia. }
  unfold array_sector. rewrite Hbs. rewrite Forall_lookup in Ha. by destruct (Ha _ _ Hbs).
Qed.

#[global] Instance array_disk_laws : SectorDiskLaws (list (list Z)).
Proof.
  refine {| sd_ok := array_ok; sd_sector := array_sector |}.
  - intros d n Hd Hn. apply (array_lookup d n Hd Hn).
  - intros d n Hd Hn. apply (array_lookup d n Hd Hn).
  - intros d n Hd Hn. destruct (array_lookup d n Hd Hn) as [Hl _]. exists d.
    cbn [ReadSector array_disk]. unfold read_array. rewrite ASSERT_true by lia.
    by rewrite (arr_get_Some _ _ _ (proj1 Hn) Hl).
  - intros d n data Hd Hn Hlen Hb. pose proof Hd as [Hl Ha].
    exists (<[Z.to_nat n := take (Z.to_nat SectorSize) data]> d).
    cbn [WriteSector array_disk]. unfold write_array. rewrite ASSERT_true by lia.
    rewrite arr_set_lt by lia. split; [done|]. split.
    + split; [by rewrite zlen_insert|]. apply Forall_insert; [done|]. split.
      * unfold zlen, SectorSize in *. rewrite length_take. lia.
      * by apply Forall_take.
    + intros m Hm. unfold array_sector. case_decide as E.
      * subst m. rewrite list_lookup_insert_eq; [done|]. unfold zlen in *. lia.
      * by rewrite list_lookup_insert_ne by lia.
  - intros d n data Hd Hn. cbn [ReadSector WriteSector array_disk]. unfold read_array, write_array.
    rewrite !ASSERT_false; [done| |]; apply not_true_is_false; intros E; bool_to_prop; lia.
Defined.

Lemma blank_array_ok :
  array_ok (replicate (Z.to_nat NumSectors) (replicate (Z.to_nat SectorSize) 0)).
Proof.
  split.
  - unfold zlen. rewrite length_replicate. done.
  - apply Forall_replicate. split; [done|]. apply Forall_replicate. unfold is_byte. lia.
Qed.

(** *** Witnesses: a header of three blocks; a map of six bits with one marked. *)

Definition small_header : FileHeader := mkHeader 300 3 (7 :: 9 :: 11 :: replicate 27 0).

Lemma small_header_ok : hdr_ok small_header.
Proof.
  constructor; try done. cbn [dataSectors small_header].
  repeat (constructor; [unfold is_s32; lia|]). constructor.
Qed.

Example FetchFrom_after_WriteBack_witness :
  exists d : list (list Z), array_ok d /\ exists d1 d2, WriteBack small_header 5 d = Ok d1 /\
    FetchFrom 5 d1 = Ok (small_header, d2).
Proof.
  eexists. split; [exact blank_array_ok|].
  destruct (@FetchFrom_after_WriteBack (list (list Z)) _ array_disk_laws small_header
    (replicate (Z.to_nat NumSectors) (replicate (Z.to_nat SectorSize) 0)) 5
    small_header_ok blank_array_ok) as (d1 & d2 & HW & HF & _).
  - unfold NumSectors, SectorsPerTrack, NumTracks. lia.
  - exists d1, d2. split; [exact HW|exact HF].
Defined.

Definition six_bits : Bitmap.Bitmap := Bitmap.mkBitmap 6 1 [4].

Lemma six_bits_owns : owns six_bits 6 {[ 2 ]}.
Proof.
  exists [false; false; true; false; false; false]. split; [|split; [done|]].
  - apply Bitmap.Bitmap_rep_intro; [|done|].
    + unfold Bitmap.wf. split_and!; try done. repeat constructor; lia.
    + intros i x Hi. do 6 (destruct i as [|i]; [by injection Hi as <-|]). done.
  - by vm_compute.
Qed.

Example Allocate_exact_witness :
  exists h' b', Allocate small_header six_bits 300 = Ok (true, h', b') /\ blocks h' = [0; 1; 3] /\
    owns b' 6 {[ 0; 1; 2; 3 ]}.
Proof.
  destruct (Allocate_exact small_header six_bits 6 {[ 2 ]} 300 six_bits_owns eq_refl
    (hdr_ints _ small_header_ok) ltac:(lia)) as (Hok & _ & _).
  - unfold NumSectors, SectorsPerTrack, NumTracks. lia.
  - destruct Hok as (h' & b' & HA & _ & _ & _ & _ & _ & Ho).
    + vm_compute. congruence.
    + vm_compute. congruence.
    + exists h', b'. assert (E : exists h b, Allocate small_header six_bits 300 = Ok (true, h, b) /\
        blocks h = [0; 1; 3]) by (do 2 eexists; split; vm_compute; reflexivity).
      destruct E as (h1 & b1 & E & Hb). rewrite E in HA. injection HA as <- <-.
      split; [exact E|]. split; [exact Hb|]. rewrite Hb in Ho.
      replace ({[ 0; 1; 2; 3 ]} : gset Z) with (list_to_set [0; 1; 3] ∪ {[ 2 ]} : gset Z)
        by set_solver. exact Ho.
Defined.

Example Deallocate_inverts_Allocate_witness :
  exists h' b' b'', Allocate small_header six_bits 300 = Ok (true, h', b') /\
    Deallocate h' b' = Ok b'' /\ owns b'' 6 {[ 2 ]}.
Proof.
  assert (E : exists h' b', Allocate small_header six_bits 300 = Ok (true, h', b'))
    by (do 2 eexists; vm_compute; reflexivity).
  destruct E as (h' & b' & E). exists h', b'.
  destruct (Deallocate_inverts_Allocate small_header six_bits 6 {[ 2 ]} 300 h' b' six_bits_owns
    eq_refl (hdr_ints _ small_header_ok) ltac:(lia)) as (b'' & HD & Ho).
  - unfold NumSectors, SectorsPerTrack, NumTracks. lia.
  - exact E.
  - exists b''. split; [exact E|]. split; [exact HD|exact Ho].
Defined.
End FileHdr.
