(* ===== verification/OpenFile.v ===== *)
(** Open files ([filesys/openfile.h], [filesys/openfile.cc], the version on the
    simulated disk): reads and writes of any range of bytes, on a disk that
    only moves whole sectors. *)

From S2P Require Import Prelude Bitmap Disk FileHdr.
Import Disk FileHdr.

Module OpenFile.

(** An [OpenFile]; [type] and [fName] are only set by two of the constructors. *)
Record OpenFile := mkOpenFile {
  hdr : FileHeader;
  seekPosition : Z;
  type : option Z;
  fName : option (list Z);
}.

(** [new char[n]]: [junk] is what the memory held. *)
Definition new_chars (junk : nat -> Z) (n : Z) : res (list Z) :=
  if n <? 0 then Fault OutOfBounds else Ok (junk <$> seq 0 (Z.to_nat n)).

(** Copies to and from [&buf[off]], which must stay inside [buf]. *)
Definition copy_to (buf : list Z) (off : Z) (bs : list Z) : res (list Z) :=
  if (0 <=? off) && (off + zlen bs <=? zlen buf) then Ok (splice (Z.to_nat off) bs buf)
  else Fault OutOfBounds.
Definition copy_from (buf : list Z) (off n : Z) : res (list Z) :=
  if (0 <=? off) && (0 <=? n) && (off + n <=? zlen buf)
  then Ok (slice (Z.to_nat off) (Z.to_nat n) buf) else Fault OutOfBounds.

Section code.
Context {D : Type} `{SectorDisk D}.
Implicit Types (f : OpenFile) (d : D).

(** The three constructors. *)
Definition new_OpenFile (sector : Z) d : res (OpenFile * D) :=
  '(h, d) ← FetchFrom sector d; Ok (mkOpenFile h 0 None None, d).
Definition new_OpenFile_type (sector _type : Z) d : res (OpenFile * D) :=
  '(h, d) ← FetchFrom sector d; Ok (mkOpenFile h 0 (Some _type) None, d).
Definition new_OpenFile_name (sector _type : Z) (name : list Z) d : res (OpenFile * D) :=
  '(h, d) ← FetchFrom sector d; Ok (mkOpenFile h 0 (Some _type) (Some name), d).

Definition Seek f (position : Z) : OpenFile := mkOpenFile (hdr f) position (type f) (fName f).

(** The request as [ReadAt] and [WriteAt] check it: the number of bytes to
    transfer, or none at all. *)
Definition request f (numBytes position : Z) : option Z :=
  let fileLength := FileLength (hdr f) in
  if (numBytes <=? 0) || (fileLength <=? position) then None
  else Some (if fileLength <? s32 (position + numBytes) then s32 (fileLength - position)
             else numBytes).

(** One turn of each loop over the sectors. *)
Definition read_sector f (firstSector i : Z) (bd : list Z * D) : res (list Z * D) :=
  let '(buf, d) := bd in
  s ← ByteToSector (hdr f) (i * SectorSize);
  '(bs, d) ← ReadSector s d;
  buf ← copy_to buf ((i - firstSector) * SectorSize) bs;
  Ok (buf, d).

Definition write_sector f (buf : list Z) (firstSector i : Z) d : res D :=
  s ← ByteToSector (hdr f) (i * SectorSize);
  bs ← copy_from buf ((i - firstSector) * SectorSize) SectorSize;
  WriteSector s bs d.

(** The bytes put in [into], as many as the call returns. *)
Definition ReadAt (junk : nat -> Z) f (numBytes position : Z) d : res (Z * list Z * D) :=
  match request f numBytes position with
  | None => Ok (0, [], d)
  | Some numBytes =>
      let firstSector := divRoundDown position SectorSize in
      let lastSector := divRoundDown (s32 (position + numBytes) - 1) SectorSize in
      let numSectors := 1 + lastSector - firstSector in
      buf ← new_chars junk (numSectors * SectorSize);
      '(buf, d) ← for_range (Z.to_nat numSectors) firstSector (read_sector f firstSector) (buf, d);
      into ← copy_from buf (position - firstSector * SectorSize) numBytes;
      Ok (numBytes, into, d)
  end.

Definition WriteAt (junk : nat -> Z) f (from : list Z) (numBytes position : Z) d : res (Z * D) :=
  match request f numBytes position with
  | None => Ok (0, d)
  | Some numBytes =>
      let firstSector := divRoundDown position SectorSize in
      let lastSector := divRoundDown (s32 (position + numBytes) - 1) SectorSize in
      let numSectors := 1 + lastSector - firstSector in
      buf ← new_chars junk (numSectors * SectorSize);
      let firstAligned := position =? firstSector * SectorSize in
      let lastAligned := position + numBytes =? (lastSector + 1) * SectorSize in
      '(buf, d) ← (if negb firstAligned then
                     '(_, bs, d) ← ReadAt junk f SectorSize (firstSector * SectorSize) d;
                     buf ← copy_to buf 0 bs; Ok (buf, d)
                   else Ok (buf, d));
      '(buf, d) ← (if negb lastAligned && (negb (firstSector =? lastSector) || firstAligned) then
                     '(_, bs, d) ← ReadAt junk f SectorSize (lastSector * SectorSize) d;
                     buf ← copy_to buf ((lastSector - firstSector) * SectorSize) bs; Ok (buf, d)
                   else Ok (buf, d));
      from ← copy_from from 0 numBytes;
      buf ← copy_to buf (position - firstSector * SectorSize) from;
      d ← for_range (Z.to_nat numSectors) firstSector (write_sector f buf firstSector) d;
      Ok (numBytes, d)
  end.

Definition Read (junk : nat -> Z) f (numBytes : Z) d : res (Z * list Z * OpenFile * D) :=
  '(result, into, d) ← ReadAt junk f numBytes (seekPosition f) d;
  Ok (result, into, Seek f (s32 (seekPosition f + result)), d).

Definition Write (junk : nat -> Z) f (from : list Z) (numBytes : Z) d : res (Z * OpenFile * D) :=
  '(result, d) ← WriteAt junk f from numBytes (seekPosition f) d;
  Ok (result, Seek f (s32 (seekPosition f + result)), d).

Definition Length f : Z := FileLength (hdr f).
End code.

(** ** Files as bytes *)

(** A header that describes a file of its own: distinct sectors of the disk. *)
Record file_ok (h : FileHeader) : Prop := {
  file_hdr : hdr_ok h;
  file_distinct : NoDup (blocks h);
  file_sectors : forall s, s ∈ blocks h -> 0 <= s < NumSectors;
}.

Section theory.
Context {D : Type} `{SectorDiskLaws D}.
Implicit Types (f : OpenFile) (d : D) (h : FileHeader).

(** The sectors of a file, end to end, and the bytes of the file in them. *)
Definition file_raw d h : list Z := mjoin (sd_sector d <$> blocks h).
Definition file_data d h : list Z := take (Z.to_nat (numBytes h)) (file_raw d h).

(** Disks with the same sectors. *)
Definition same_sectors d d' : Prop :=
  forall m, 0 <= m < NumSectors -> sd_sector d' m = sd_sector d m.

Lemma same_sectors_refl d : same_sectors d d.
Proof. by intros m Hm. Qed.

Lemma same_sectors_trans d1 d2 d3 : same_sectors d1 d2 -> same_sectors d2 d3 -> same_sectors d1 d3.
Proof. intros H1 H2 m Hm. by rewrite H2, H1. Qed.

Lemma sector_lengths d h : sd_ok d -> file_ok h ->
  Forall (fun bs => length bs = 128%nat) (sd_sector d <$> blocks h).
Proof.
  intros Hd Hf. apply Forall_fmap, Forall_forall. intros s Hs. cbn.
  pose proof (sd_length d s Hd (file_sectors h Hf s Hs)). unfold zlen, SectorSize in *. lia.
Qed.

Lemma length_file_raw d h : sd_ok d -> file_ok h -> zlen (file_raw d h) = numSectors h * SectorSize.
Proof.
  intros Hd Hf. unfold zlen, file_raw. rewrite (length_mjoin_chunks 128) by by apply sector_lengths.
  rewrite length_fmap. pose proof (length_blocks h (file_hdr h Hf)). unfold zlen, SectorSize in *. lia.
Qed.

Lemma length_file_data d h : sd_ok d -> file_ok h -> zlen (file_data d h) = numBytes h.
Proof.
  intros Hd Hf. pose proof (length_file_raw d h Hd Hf). pose proof (hdr_bounds h (file_hdr h Hf)).
  pose proof (hdr_size h (file_hdr h Hf)).
  unfold zlen, file_data in *. rewrite length_take. lia.
Qed.

Lemma file_raw_ext d d' h : file_ok h -> (forall s, s ∈ blocks h -> sd_sector d' s = sd_sector d s) ->
  file_raw d' h = file_raw d h.
Proof.
  intros Hf Hs. unfold file_raw. f_equal. apply list_fmap_ext.
  intros i s Hi. by apply Hs, (list_elem_of_lookup_2 _ i).
Qed.

Lemma file_raw_same d d' h : file_ok h -> same_sectors d d' -> file_raw d' h = file_raw d h.
Proof. intros Hf Hs. apply file_raw_ext; [done|]. intros s Hin. by apply Hs, (file_sectors h Hf). Qed.

Lemma file_data_same d d' h : file_ok h -> same_sectors d d' -> file_data d' h = file_data d h.
Proof. intros Hf Hs. unfold file_data. by rewrite (file_raw_same d d'). Qed.

Lemma slice_file_raw d h (i : nat) s : sd_ok d -> file_ok h -> blocks h !! i = Some s ->
  slice (128 * i) 128 (file_raw d h) = sd_sector d s.
Proof.
  intros Hd Hf Hs. apply slice_mjoin; [by apply sector_lengths|]. by rewrite list_lookup_fmap, Hs.
Qed.

(** ByteToSector of a sector boundary inside the file. *)
Lemma ByteToSector_ok h (i : nat) s : hdr_ok h -> blocks h !! i = Some s ->
  ByteToSector h (Z.of_nat i * SectorSize) = Ok s.
Proof.
  intros Hh Hs. unfold ByteToSector, SectorSize. rewrite Z.quot_mul by done.
  apply arr_get_Some; [lia|]. rewrite Nat2Z.id. unfold blocks in Hs.
  by apply lookup_take_Some in Hs as [? _].
Qed.

Lemma new_chars_ok junk n : 0 <= n ->
  exists buf, new_chars junk n = Ok buf /\ zlen buf = n /\ forall j x, buf !! j = Some x -> x = junk j.
Proof.
  intros Hn. unfold new_chars. rewrite (proj2 (Z.ltb_ge _ _)) by done. eexists. split; [done|].
  split; [unfold zlen; rewrite length_fmap, length_seq; lia|].
  intros j x Hx. rewrite list_lookup_fmap in Hx. destruct (seq 0 _ !! j) as [k|] eqn:Hk; [|done].
  apply lookup_seq in Hk as [-> _]. by injection Hx as <-.
Qed.

Lemma copy_to_ok buf off bs : 0 <= off -> off + zlen bs <= zlen buf ->
  copy_to buf off bs = Ok (splice (Z.to_nat off) bs buf).
Proof.
  intros. unfold copy_to. by rewrite (proj2 (Z.leb_le _ _)), (proj2 (Z.leb_le _ _)) by lia.
Qed.

Lemma copy_from_ok buf off n : 0 <= off -> 0 <= n -> off + n <= zlen buf ->
  copy_from buf off n = Ok (slice (Z.to_nat off) (Z.to_nat n) buf).
Proof. intros. unfold copy_from. by rewrite !(proj2 (Z.leb_le _ _)) by lia. Qed.

(** ** Reading *)

(** The loop of [ReadAt] fills the buffer with the sectors [first] to
    [first + cnt - 1] of the file. *)
Lemma read_loop_ok f d buf (first cnt : nat) : sd_ok d -> file_ok (hdr f) ->
  length buf = (128 * cnt)%nat -> (first + cnt <= length (blocks (hdr f)))%nat ->
  exists d', for_range cnt (Z.of_nat first) (read_sector f (Z.of_nat first)) (buf, d) =
      Ok (slice (128 * first) (128 * cnt) (file_raw d (hdr f)), d') /\
    sd_ok d' /\ same_sectors d d'.
Proof.
  intros Hd Hf Hbuf Hcnt.
  destruct (for_range_rule (fun i (bd : list Z * D) =>
      sd_ok bd.2 /\ same_sectors d bd.2 /\ length bd.1 = (128 * cnt)%nat /\
      let k := Z.to_nat (i - Z.of_nat first) in
      take (128 * k) bd.1 = slice (128 * first) (128 * k) (file_raw d (hdr f)))
    cnt (Z.of_nat first) (read_sector f (Z.of_nat first)) (buf, d)) as ([buf' d'] & HF & HP).
  - split_and!; try done. cbv zeta. rewrite Z.sub_diag. done.
  - intros i [b e] Hi (He & Hsame & Hb & Hk). cbn [fst snd] in *. cbv zeta in *.
    set (k := Z.to_nat (i - Z.of_nat first)) in *.
    replace i with (Z.of_nat (first + k)) in * by lia.
    destruct (lookup_lt_is_Some_2 (blocks (hdr f)) (first + k)) as [s Hs]; [lia|].
    pose proof (file_sectors _ Hf s (list_elem_of_lookup_2 _ _ _ Hs)) as Hr.
    unfold read_sector. rewrite (ByteToSector_ok _ _ s) by (done || apply Hf). cbn [rbind].
    destruct (ReadSector_law e s He Hr) as (e' & -> & He' & Hse). cbn [rbind].
    assert (Hlen : length (sd_sector e s) = 128%nat).
    { pose proof (sd_length e s He Hr). unfold zlen, SectorSize in *. lia. }
    rewrite copy_to_ok by (unfold zlen, SectorSize in *; lia). cbn [rbind].
    replace (Z.to_nat ((Z.of_nat (first + k) - Z.of_nat first) * SectorSize)) with (128 * k)%nat
      by (unfold SectorSize; lia).
    eexists. split; [done|]. cbn [fst snd]. split_and!; [done| | |].
    + by eapply same_sectors_trans.
    + rewrite length_splice by lia. done.
    + replace (128 * Z.to_nat (Z.of_nat (first + k) + 1 - Z.of_nat first))%nat
        with (128 * k + length (sd_sector e s))%nat by lia.
      rewrite take_splice_end by lia. rewrite Hk, slice_add, Hlen. f_equal.
      replace (128 * first + 128 * k)%nat with (128 * (first + k))%nat by lia.
      rewrite (slice_file_raw d _ _ s) by done. by rewrite Hsame.
  - destruct HP as (Hd' & Hsame & Hb & Hk). cbn [fst snd] in *. cbv zeta in Hk. exists d'.
    rewrite HF. replace (Z.to_nat _) with cnt in Hk by lia. rewrite take_ge in Hk by lia.
    by rewrite Hk.
Qed.

(** The bytes a request transfers. *)
Definition transferable h (numBytes position : Z) : Z :=
  if (numBytes <=? 0) || (FileLength h <=? position) then 0
  else Z.min numBytes (FileLength h - position).

Lemma request_ok f numBytes position : hdr_ok (hdr f) -> 0 <= position ->
  position + numBytes < 2 ^ 31 ->
  match request f numBytes position with
  | None => transferable (hdr f) numBytes position = 0
  | Some n => n = transferable (hdr f) numBytes position /\ 0 < n /\
      position + n <= FileLength (hdr f)
  end.
Proof.
  intros Hh Hp Hov. unfold request, transferable, FileLength in *.
  pose proof (hdr_bounds _ Hh). unfold SectorSize in *.
  destruct (Z.leb_spec numBytes 0); cbn [orb]; [done|].
  destruct (Z.leb_spec (FileHdr.numBytes (hdr f)) position); cbn [orb]; [done|].
  rewrite !s32_id by (unfold is_s32; lia).
  destruct (Z.ltb_spec (FileHdr.numBytes (hdr f)) (position + numBytes)); lia.
Qed.

(** The sectors a request touches, as natural numbers. *)
Lemma sector_range h position n : hdr_ok h -> 0 <= position -> 0 < n ->
  position + n <= FileLength h ->
  exists first cnt : nat,
    divRoundDown position SectorSize = Z.of_nat first /\
    1 + divRoundDown (s32 (position + n) - 1) SectorSize - divRoundDown position SectorSize
      = Z.of_nat cnt /\
    (first + cnt <= length (blocks h))%nat /\ (0 < cnt)%nat /\
    128 * Z.of_nat first <= position < 128 * Z.of_nat first + 128 /\
    128 * Z.of_nat (first + cnt - 1) < position + n <= 128 * Z.of_nat (first + cnt).
Proof.
  intros Hh Hp Hn Hl. pose proof (hdr_bounds _ Hh). pose proof (length_blocks _ Hh) as Hb.
  unfold FileLength, divRoundDown, SectorSize, zlen in *.
  rewrite s32_id by (unfold is_s32; lia).
  exists (Z.to_nat (position / 128)), (Z.to_nat (1 + (position + n - 1) / 128 - position / 128)).
  rewrite !Z.quot_div_nonneg by lia.
  assert (0 <= position / 128 <= (position + n - 1) / 128) by zlia.
  assert ((position + n - 1) / 128 < numSectors h) by zlia.
  split_and!; lia || zlia.
Qed.

Lemma ReadAt_ok junk f numBytes position d : sd_ok d -> file_ok (hdr f) -> 0 <= position ->
  position + numBytes < 2 ^ 31 ->
  let n := transferable (hdr f) numBytes position in
  exists d', ReadAt junk f numBytes position d =
      Ok (n, slice (Z.to_nat position) (Z.to_nat n) (file_data d (hdr f)), d') /\
    sd_ok d' /\ same_sectors d d'.
Proof.
  intros Hd Hf Hp Hov n. pose proof (request_ok f numBytes position (file_hdr _ Hf) Hp Hov) as Hr.
  unfold ReadAt. destruct (request f numBytes position) as [n'|].
  2: { exists d. unfold n. rewrite Hr. split; [done|]. split; [done|]. apply same_sectors_refl. }
  destruct Hr as (-> & Hn0 & Hl). fold n in Hn0, Hl |- *.
  destruct (sector_range _ position n (file_hdr _ Hf) Hp Hn0 Hl) as
    (first & cnt & Hfirst & Hcnt & Hle & Hc0 & Hr1 & Hr2). rewrite Hcnt, Hfirst.
  destruct (new_chars_ok junk (Z.of_nat cnt * SectorSize)) as (buf & -> & Hbuf & _);
    [unfold SectorSize; lia|]. cbn [rbind]. rewrite Nat2Z.id.
  destruct (read_loop_ok f d buf first cnt Hd Hf) as (d' & -> & Hd' & Hsame);
    [unfold zlen, SectorSize in *; lia|done|]. cbn [rbind].
  pose proof (length_file_raw d _ Hd Hf) as Hraw. pose proof (length_blocks _ (file_hdr _ Hf)) as Hb.
  unfold zlen, SectorSize, FileLength in *.
  rewrite copy_from_ok by (unfold zlen; rewrite ?length_slice; lia). cbn [rbind].
  exists d'. split; [|done]. do 3 f_equal. rewrite slice_slice by lia.
  unfold file_data. rewrite slice_take by lia. f_equal. lia.
Qed.

(** ** Writing *)

Lemma file_raw_bytes d h : sd_ok d -> file_ok h -> Forall is_byte (file_raw d h).
Proof.
  intros Hd Hf. unfold file_raw. apply Forall_join, Forall_fmap, Forall_forall. intros s Hs. cbn.
  by apply sd_bytes, (file_sectors h Hf).
Qed.

(** Sector [j] of the buffer, which starts at sector [first] of the file, holds
    what the file has there; the rest of the buffer is as it was. *)
Definition refilled d h (first j : nat) (buf buf' : list Z) : Prop :=
  length buf' = length buf /\ (Forall is_byte buf -> Forall is_byte buf') /\
  (forall i, (128 * j <= i < 128 * j + 128)%nat -> Z.of_nat (128 * first + i) < FileLength h ->
     buf' !! i = file_raw d h !! (128 * first + i)%nat) /\
  (forall i, ~ (128 * j <= i < 128 * j + 128)%nat -> buf' !! i = buf !! i).

Lemma refill_ok junk f d buf (first j : nat) : sd_ok d -> file_ok (hdr f) ->
  (128 * j + 128 <= length buf)%nat -> (first + j < length (blocks (hdr f)))%nat ->
  exists buf' d', ('(_, bs, d) ← ReadAt junk f SectorSize (Z.of_nat (first + j) * SectorSize) d;
                   buf ← copy_to buf (Z.of_nat j * SectorSize) bs; Ok (buf, d)) = Ok (buf', d') /\
    sd_ok d' /\ same_sectors d d' /\ refilled d (hdr f) first j buf buf'.
Proof.
  intros Hd Hf Hbuf Hj. pose proof (hdr_bounds _ (file_hdr _ Hf)) as Hb.
  pose proof (length_blocks _ (file_hdr _ Hf)) as Hlb. unfold zlen in Hlb.
  set (pos := Z.of_nat (first + j) * SectorSize).
  assert (Hpos : pos = 128 * Z.of_nat (first + j)) by (unfold pos, SectorSize; lia).
  destruct (ReadAt_ok junk f SectorSize pos d Hd Hf) as (d' & -> & Hd' & Hsame);
    [lia|unfold SectorSize in *; lia|]. cbn [rbind].
  pose proof (length_file_data d _ Hd Hf) as Hfd. unfold zlen in Hfd.
  unfold transferable, FileLength, SectorSize in *. cbn [Z.leb orb] in *.
  destruct (Z.leb_spec (numBytes (hdr f)) pos) as [Hle|Hlt]; [lia|].
  change (128 <=? 0) with false. cbn [orb].
  set (n := Z.min 128 (numBytes (hdr f) - pos)).
  set (bs := slice (Z.to_nat pos) (Z.to_nat n) (file_data d (hdr f))).
  assert (Hbs : length bs = Z.to_nat n) by (apply length_slice; lia).
  rewrite copy_to_ok by (unfold zlen; lia). cbn [rbind].
  replace (Z.to_nat (Z.of_nat j * 128)) with (128 * j)%nat by lia.
  eexists _, d'. split; [done|]. split; [done|]. split; [done|]. split_and!.
  - rewrite length_splice by lia. done.
  - intros Hby. apply Forall_splice; [|done]. apply Forall_slice, Forall_take.
    by apply file_raw_bytes.
  - intros i Hi Hlen. unfold FileLength in Hlen. rewrite lookup_splice_in by lia. unfold bs.
    rewrite lookup_slice by lia. unfold file_data. rewrite lookup_take_lt by lia. f_equal. lia.
  - intros i Hi. apply lookup_splice_out; lia.
Qed.

(** The loop of [WriteAt] puts the buffer into the sectors [first] and on, and
    leaves all other sectors alone. *)
Lemma write_loop_ok f d buf (first cnt : nat) : sd_ok d -> file_ok (hdr f) ->
  length buf = (128 * cnt)%nat -> Forall is_byte buf ->
  (first + cnt <= length (blocks (hdr f)))%nat ->
  exists d', for_range cnt (Z.of_nat first) (write_sector f buf (Z.of_nat first)) d = Ok d' /\
    sd_ok d' /\ file_raw d' (hdr f) = splice (128 * first) buf (file_raw d (hdr f)) /\
    forall m, 0 <= m < NumSectors -> m ∉ blocks (hdr f) -> sd_sector d' m = sd_sector d m.
Proof.
  intros Hd Hf Hbuf Hby Hcnt. pose proof (length_file_raw d _ Hd Hf) as Hraw.
  pose proof (length_blocks _ (file_hdr _ Hf)) as Hlb. unfold zlen, SectorSize in Hraw, Hlb.
  destruct (for_range_rule (fun i e => let k := Z.to_nat (i - Z.of_nat first) in
      sd_ok e /\ file_raw e (hdr f) = splice (128 * first) (take (128 * k) buf) (file_raw d (hdr f)) /\
      forall m, 0 <= m < NumSectors -> m ∉ blocks (hdr f) -> sd_sector e m = sd_sector d m)
    cnt (Z.of_nat first) (write_sector f buf (Z.of_nat first)) d) as (d' & HF & HP).
  - cbv zeta. rewrite Z.sub_diag. split_and!; try done.
    change (take (128 * Z.to_nat 0) buf) with (@nil Z). unfold splice. cbn [app length].
    by rewrite Nat.add_0_r, take_drop.
  - intros i e Hi (He & Hr & Hout). cbv zeta in *. set (k := Z.to_nat (i - Z.of_nat first)) in *.
    replace i with (Z.of_nat (first + k)) in * by lia.
    destruct (lookup_lt_is_Some_2 (blocks (hdr f)) (first + k)) as [s Hs]; [lia|].
    pose proof (file_sectors _ Hf s (list_elem_of_lookup_2 _ _ _ Hs)) as Hsr.
    unfold write_sector. rewrite (ByteToSector_ok _ _ s) by (done || apply Hf). cbn [rbind].
    rewrite copy_from_ok by (unfold zlen, SectorSize in *; lia). cbn [rbind].
    replace (Z.to_nat ((Z.of_nat (first + k) - Z.of_nat first) * SectorSize)) with (128 * k)%nat
      by (unfold SectorSize; lia). change (Z.to_nat SectorSize) with 128%nat.
    set (c := slice (128 * k) 128 buf).
    assert (Hc : length c = 128%nat) by (apply length_slice; lia).
    destruct (WriteSector_law e s c He Hsr) as (e' & -> & He' & Hse);
      [unfold zlen, SectorSize; lia|by apply Forall_slice|].
    exists e'. split; [done|]. split; [done|]. rewrite (take_ge c) in Hse
      by (unfold SectorSize; lia). split.
    + replace (128 * Z.to_nat (Z.of_nat (first + k) + 1 - Z.of_nat first))%nat
        with (128 * k + 128)%nat by lia.
      change (take (128 * k + 128) buf) with (slice 0 (128 * k + 128) buf).
      rewrite slice_add. rewrite Nat.add_0_l. fold c.
      change (slice 0 (128 * k) buf) with (take (128 * k) buf).
      assert (Htk : length (take (128 * k) buf) = (128 * k)%nat) by (rewrite length_take; lia).
      rewrite <- splice_splice_next by lia. rewrite <- Hr, Htk.
      replace (128 * first + 128 * k)%nat with (128 * (first + k))%nat by lia.
      unfold file_raw. rewrite splice_mjoin; [|by apply sector_lengths|rewrite length_fmap; lia|done].
      f_equal. apply list_eq. intros q. rewrite list_lookup_fmap.
      destruct (decide (q = first + k)%nat) as [->|Hne].
      * rewrite list_lookup_insert_eq by (rewrite length_fmap; lia). rewrite Hs. cbn.
        by rewrite Hse, decide_True.
      * rewrite list_lookup_insert_ne by done. rewrite list_lookup_fmap.
        destruct (blocks (hdr f) !! q) as [t|] eqn:Hq; [|done]. cbn. f_equal.
        rewrite Hse by by apply (file_sectors _ Hf), (list_elem_of_lookup_2 _ q).
        rewrite decide_False; [done|]. intros ->.
        by pose proof (NoDup_lookup _ _ _ _ (file_distinct _ Hf) Hq Hs).
    + intros m Hm Hnin. rewrite Hse by done. rewrite decide_False; [by apply Hout|].
      intros ->. apply Hnin. by apply (list_elem_of_lookup_2 _ (first + k)).
  - cbv zeta in HP. destruct HP as (Hd' & Hr & Hout). exists d'.
    replace (Z.to_nat _) with cnt in Hr by lia. rewrite take_ge in Hr by lia. done.
Qed.

(** The buffer [WriteAt] writes back: the new bytes over the range of the
    request, and around it what the file has. *)
Definition merged d h (first : nat) (position n : Z) (from buf : list Z) : Prop :=
  forall i, (i < length buf)%nat -> Z.of_nat (128 * first + i) < FileLength h ->
    buf !! i =
      (if decide (position <= Z.of_nat (128 * first + i) < position + n)
       then from !! (128 * first + i - Z.to_nat position)%nat
       else file_raw d h !! (128 * first + i)%nat).

Lemma splice_merged d h first position n from (buf : list Z) : sd_ok d -> file_ok h ->
  merged d h first position n from buf ->
  (128 * first + length buf <= length (file_raw d h))%nat ->
  0 <= position -> 0 <= n -> 128 * Z.of_nat first <= position ->
  position + n <= Z.of_nat (128 * first + length buf) -> position + n <= FileLength h ->
  n <= zlen from ->
  take (Z.to_nat (numBytes h)) (splice (128 * first) buf (file_raw d h)) =
  splice (Z.to_nat position) (take (Z.to_nat n) from) (file_data d h).
Proof.
  intros Hd Hf Hm Hfit Hp Hn Hlo Hhi Hlen Hfrom. pose proof (length_file_data d h Hd Hf) as Hfd.
  unfold zlen, FileLength in *. apply list_eq. intros i.
  assert (Htk : length (take (Z.to_nat n) from) = Z.to_nat n) by (rewrite length_take; lia).
  destruct (decide (i < Z.to_nat (numBytes h))%nat) as [Hi|Hi].
  2: { rewrite lookup_take_ge by lia. symmetry. apply lookup_ge_None.
       rewrite length_splice by lia. lia. }
  rewrite lookup_take_lt by done.
  assert (Hold : file_data d h !! i = file_raw d h !! i).
  { unfold file_data. by apply lookup_take_lt. }
  destruct (decide (position <= Z.of_nat i < position + n)) as [Hin|Hout].
  - rewrite lookup_splice_in by lia. rewrite (lookup_splice_in (Z.to_nat position)) by lia.
    rewrite (Hm (i - 128 * first)%nat) by (unfold FileLength; lia).
    rewrite decide_True by lia. rewrite lookup_take_lt by lia. f_equal. lia.
  - rewrite (lookup_splice_out (Z.to_nat position)) by lia. rewrite Hold.
    destruct (decide (128 * first <= i < 128 * first + length buf)%nat) as [Hb|Hb].
    + rewrite lookup_splice_in by lia. rewrite (Hm (i - 128 * first)%nat) by (unfold FileLength; lia).
      rewrite decide_False by lia. f_equal. lia.
    + apply lookup_splice_out; lia.
Qed.

Lemma maybe_refill (c : bool) junk f d buf (first j : nat) pos off : sd_ok d -> file_ok (hdr f) ->
  (128 * j + 128 <= length buf)%nat -> (first + j < length (blocks (hdr f)))%nat ->
  pos = Z.of_nat (first + j) * SectorSize -> off = Z.of_nat j * SectorSize ->
  exists buf' d', (if c then '(_, bs, d) ← ReadAt junk f SectorSize pos d;
                             buf ← copy_to buf off bs; Ok (buf, d)
                   else Ok (buf, d)) = Ok (buf', d') /\
    sd_ok d' /\ same_sectors d d' /\ length buf' = length buf /\
    (Forall is_byte buf -> Forall is_byte buf') /\
    (if c then refilled d (hdr f) first j buf buf' else buf' = buf).
Proof.
  intros Hd Hf Hbuf Hj -> ->. destruct c.
  - destruct (refill_ok junk f d buf first j Hd Hf Hbuf Hj) as (b & d' & HR & ? & ? & Hr).
    exists b, d'. pose proof Hr as (? & ? & _). by split_and!.
  - exists buf, d. by split_and!.
Qed.

(** What [WriteAt] does to its buffer before copying in the new bytes. *)
Lemma prepare_ok junk f d buf (first cnt : nat) position n : sd_ok d -> file_ok (hdr f) ->
  length buf = (128 * cnt)%nat -> (0 < cnt)%nat -> (first + cnt <= length (blocks (hdr f)))%nat ->
  let firstAligned := position =? Z.of_nat first * SectorSize in
  let last := (first + cnt - 1)%nat in
  let lastAligned := position + n =? (Z.of_nat last + 1) * SectorSize in
  128 * Z.of_nat first <= position < 128 * Z.of_nat first + 128 ->
  128 * Z.of_nat last < position + n <= 128 * Z.of_nat (first + cnt) ->
  exists buf' d',
    ('(buf, d) ← (if negb firstAligned then
                    '(_, bs, d) ← ReadAt junk f SectorSize (Z.of_nat first * SectorSize) d;
                    buf ← copy_to buf 0 bs; Ok (buf, d)
                  else Ok (buf, d));
     if negb lastAligned && (negb (Z.of_nat first =? Z.of_nat last) || firstAligned) then
       '(_, bs, d) ← ReadAt junk f SectorSize (Z.of_nat last * SectorSize) d;
       buf ← copy_to buf ((Z.of_nat last - Z.of_nat first) * SectorSize) bs; Ok (buf, d)
     else Ok (buf, d)) = Ok (buf', d') /\
    sd_ok d' /\ same_sectors d d' /\ length buf' = length buf /\
    (Forall is_byte buf -> Forall is_byte buf') /\
    forall i, (i < length buf)%nat -> Z.of_nat (128 * first + i) < FileLength (hdr f) ->
      ~ (position <= Z.of_nat (128 * first + i) < position + n) ->
      buf' !! i = file_raw d (hdr f) !! (128 * first + i)%nat.
Proof.
  intros Hd Hf Hbuf Hc0 Hcnt fa last la Hpos Hend.
  destruct (maybe_refill (negb fa) junk f d buf first 0 (Z.of_nat first * SectorSize) 0 Hd Hf)
    as (buf1 & d1 & -> & Hd1 & Hs1 & Hl1 & Hby1 & Hb1);
    [lia|lia|unfold SectorSize; lia|unfold SectorSize; lia|]. cbn [rbind].
  set (cond := negb la && _).
  destruct (maybe_refill cond junk f d1 buf1 first (cnt - 1) (Z.of_nat last * SectorSize)
    ((Z.of_nat last - Z.of_nat first) * SectorSize) Hd1 Hf)
    as (buf2 & d2 & -> & Hd2 & Hs2 & Hl2 & Hby2 & Hb2);
    [lia|lia|unfold SectorSize; lia|unfold SectorSize; lia|].
  exists buf2, d2. split; [done|]. split; [done|]. split; [by eapply same_sectors_trans|].
  split; [lia|]. split; [tauto|].
  intros i Hi Hlen Hout. unfold SectorSize in *.
  (* the byte is before the range in the first sector, or after it in the last *)
  assert (Hside : (i < 128 /\ fa = false)%nat \/ ((128 * (cnt - 1) <= i)%nat /\ la = false)).
  { unfold fa, la. destruct (decide (Z.of_nat (128 * first + i) < position)).
    - left. split; [lia|]. apply Z.eqb_neq. lia.
    - right. split; [lia|]. apply Z.eqb_neq. lia. }
  assert (Hfirst : fa = false -> (i < 128)%nat ->
    buf1 !! i = file_raw d (hdr f) !! (128 * first + i)%nat).
  { intros Hfa Hi0. rewrite Hfa in Hb1. destruct Hb1 as (_ & _ & Hin1 & _). apply Hin1; lia. }
  destruct cond eqn:Ec.
  - destruct Hb2 as (_ & _ & Hin2 & Hout2).
    destruct (decide (128 * (cnt - 1) <= i)%nat) as [Hlast|Hlast].
    + rewrite Hin2 by lia. by rewrite (file_raw_same d d1).
    + rewrite Hout2 by lia. destruct Hside as [[Hi0 Hfa]|[? _]]; [by apply Hfirst|lia].
  - rewrite Hb2. unfold cond in Ec. destruct Hside as [[? ?]|[Hl Hla]]; [by apply Hfirst|].
    rewrite Hla in Ec. cbn [negb andb] in Ec. apply orb_false_iff in Ec as [Ec1 Ec2].
    apply negb_false_iff, Z.eqb_eq in Ec1. apply Hfirst; [done|lia].
Qed.

Lemma WriteAt_ok junk f from numBytes position d : sd_ok d -> file_ok (hdr f) -> 0 <= position ->
  position + numBytes < 2 ^ 31 -> (forall j, is_byte (junk j)) -> Forall is_byte from ->
  let n := transferable (hdr f) numBytes position in
  n <= zlen from ->
  exists d', WriteAt junk f from numBytes position d = Ok (n, d') /\ sd_ok d' /\ file_data d' (hdr f) =
      splice (Z.to_nat position) (take (Z.to_nat n) from) (file_data d (hdr f)) /\
    forall m, 0 <= m < NumSectors -> m ∉ blocks (hdr f) -> sd_sector d' m = sd_sector d m.
Proof.
  intros Hd Hf Hp Hov Hjunk Hfb n Hfrom.
  pose proof (request_ok f numBytes position (file_hdr _ Hf) Hp Hov) as Hr.
  unfold WriteAt. destruct (request f numBytes position) as [n'|].
  2: { exists d. unfold n. rewrite Hr. split_and!; try done. change (take (Z.to_nat 0) from) with (@nil Z).
       unfold splice. cbn [app length]. by rewrite Nat.add_0_r, take_drop. }
  destruct Hr as (-> & Hn0 & Hl). fold n in Hn0, Hl |- *.
  destruct (sector_range _ position n (file_hdr _ Hf) Hp Hn0 Hl) as
    (first & cnt & Hfirst & Hcnt & Hle & Hc0 & Hr1 & Hr2). rewrite Hcnt.
  assert (Hlast : divRoundDown (s32 (position + n) - 1) SectorSize = Z.of_nat (first + cnt - 1))
    by lia.
  rewrite Hlast, Hfirst.
  destruct (new_chars_ok junk (Z.of_nat cnt * SectorSize)) as (buf & -> & Hbuf & Hbj);
    [unfold SectorSize; lia|]. cbn [rbind]. rewrite Nat2Z.id.
  assert (Hlb : length buf = (128 * cnt)%nat) by (unfold zlen, SectorSize in Hbuf; lia).
  assert (Hby : Forall is_byte buf) by (apply Forall_lookup; intros j x Hx; by rewrite (Hbj j x Hx)).
  destruct (prepare_ok junk f d buf first cnt position n Hd Hf Hlb Hc0 Hle Hr1 Hr2) as
    (buf2 & d2 & Hprep & Hd2 & Hs2 & Hl2 & Hby2 & Hkeep). cbv zeta in Hprep.
  apply bind_Ok_inv in Hprep as ([buf1 d1] & Hp1 & Hp2). rewrite Hp1. cbn [rbind].
  rewrite Hp2. cbn [rbind].
  rewrite copy_from_ok by lia. cbn [rbind]. change (slice (Z.to_nat 0) (Z.to_nat n) from)
    with (take (Z.to_nat n) from). set (new := take (Z.to_nat n) from).
  assert (Hnew : length new = Z.to_nat n) by (unfold new, zlen in *; rewrite length_take; lia).
  rewrite copy_to_ok by (unfold zlen, SectorSize; lia). cbn [rbind].
  set (off := Z.to_nat (position - Z.of_nat first * SectorSize)).
  assert (Hoff : (128 * first + off = Z.to_nat position)%nat) by (unfold off, SectorSize; lia).
  set (buf3 := splice off new buf2).
  assert (Hl3 : length buf3 = (128 * cnt)%nat) by (unfold buf3; rewrite length_splice; lia).
  destruct (write_loop_ok f d2 buf3 first cnt Hd2 Hf Hl3) as (d' & -> & Hd' & Hraw & Hout);
    [apply Forall_splice; [by apply Forall_take|by apply Hby2]|done|]. cbn [rbind].
  exists d'. split; [done|]. split; [done|]. split.
  - unfold file_data at 1. rewrite Hraw, (file_raw_same d d2) by done.
    pose proof (length_file_raw d _ Hd Hf) as Hlr. pose proof (length_blocks _ (file_hdr _ Hf)) as Hblk.
    unfold zlen, SectorSize in Hlr, Hblk.
    apply splice_merged with (position := position) (n := n); try done; try lia.
    intros i Hi Hlen. unfold buf3.
    case_decide as E.
    + rewrite lookup_splice_in by lia. unfold new. rewrite lookup_take_lt by lia. f_equal. lia.
    + rewrite lookup_splice_out by lia. apply Hkeep; [lia|done|done].
  - intros m Hm Hnin. by rewrite Hout, Hs2.
Qed.

(** ** Properties *)

(** C20. [ReadAt] returns exactly the bytes of the file from [position] on, as many
    as asked for and as the file has (0 past its end or for a length that is
    not positive), whatever sectors they straddle, and changes no sector. *)
Theorem ReadAt_exact junk f numBytes position d (Hd : sd_ok d) (Hf : file_ok (hdr f))
    (Hposition : 0 <= position) (Hint : position + numBytes < 2 ^ 31) :
  let n := transferable (hdr f) numBytes position in
  exists d', ReadAt junk f numBytes position d =
      Ok (n, slice (Z.to_nat position) (Z.to_nat n) (file_data d (hdr f)), d') /\
    zlen (slice (Z.to_nat position) (Z.to_nat n) (file_data d (hdr f))) = n /\
    sd_ok d' /\ same_sectors d d'.
Proof.
  destruct (ReadAt_ok junk f numBytes position d Hd Hf Hposition Hint) as (d' & HR & Hd' & Hs).
  cbv zeta. exists d'. split; [done|]. split; [|done].
  pose proof (length_file_data d _ Hd Hf). pose proof (hdr_size _ (file_hdr _ Hf)).
  unfold zlen, transferable, FileLength in *.
  destruct (Z.leb_spec numBytes 0); cbn [orb]; [done|].
  destruct (Z.leb_spec (FileHdr.numBytes (hdr f)) position); [done|]. rewrite length_slice; lia.
Qed.

(** C19. [WriteAt] replaces exactly the bytes of the file from [position] on by the
    first of [from], as many as [ReadAt] would return; it never extends the
    file, keeps the rest of the sectors it must write whole, and changes no
    sector that is not the file's. *)
Theorem WriteAt_exact junk f from numBytes position d (Hd : sd_ok d) (Hf : file_ok (hdr f))
    (Hposition : 0 <= position) (Hint : position + numBytes < 2 ^ 31)
    (Hjunk : forall j, is_byte (junk j)) (Hfrom : Forall is_byte from)
    (Hlen : transferable (hdr f) numBytes position <= zlen from) :
  let n := transferable (hdr f) numBytes position in
  exists d', WriteAt junk f from numBytes position d = Ok (n, d') /\ sd_ok d' /\
    file_data d' (hdr f) =
      splice (Z.to_nat position) (take (Z.to_nat n) from) (file_data d (hdr f)) /\
    forall m, 0 <= m < NumSectors -> m ∉ blocks (hdr f) -> sd_sector d' m = sd_sector d m.
Proof. by apply WriteAt_ok. Qed.

(** Writing bytes that fit at the current position, seeking back and reading as
    many returns those bytes, and leaves the position after them. *)
Theorem Read_after_Write junk junk' f from d (Hd : sd_ok d) (Hf : file_ok (hdr f))
    (Hposition : 0 <= seekPosition f) (Hfit : seekPosition f + zlen from <= Length f)
    (Hjunk : forall j, is_byte (junk j)) (Hfrom : Forall is_byte from) :
  exists f' d', Write junk f from (zlen from) d = Ok (zlen from, f', d') /\
    exists f'' d'', Read junk' (Seek f' (seekPosition f)) (zlen from) d' =
      Ok (zlen from, from, f'', d'') /\ seekPosition f'' = seekPosition f + zlen from.
Proof.
  pose proof (hdr_bounds _ (file_hdr _ Hf)) as Hb. pose proof (zlen_nonneg from) as Hpos.
  pose proof (length_file_data d _ Hd Hf) as Hfd.
  unfold Length, FileLength, SectorSize in *.
  assert (Hn : transferable (hdr f) (zlen from) (seekPosition f) = zlen from).
  { unfold transferable, FileLength. destruct (Z.leb_spec (zlen from) 0); cbn [orb]; [lia|].
    destruct (Z.leb_spec (numBytes (hdr f)) (seekPosition f)); lia. }
  destruct (WriteAt_ok junk f from (zlen from) (seekPosition f) d Hd Hf Hposition ltac:(lia)
    Hjunk Hfrom) as (d' & HW & Hd' & Hdata & _); [lia|]. rewrite Hn in HW, Hdata.
  unfold Write. rewrite HW. cbn [rbind]. eexists _, d'. split; [done|].
  set (f' := Seek _ _).
  destruct (ReadAt_ok junk' f' (zlen from) (seekPosition f) d' Hd' Hf Hposition ltac:(lia))
    as (d'' & HR & _). change (hdr f') with (hdr f) in HR. rewrite Hn in HR.
  unfold Read. change (seekPosition f') with (seekPosition f). rewrite HR. cbn [rbind].
  assert (E : slice (Z.to_nat (seekPosition f)) (Z.to_nat (zlen from)) (file_data d' (hdr f)) = from).
  { rewrite Hdata. unfold zlen in *. rewrite Nat2Z.id, (take_ge from) by lia. apply slice_splice. lia. }
  rewrite E. eexists _, d''. split; [done|].
  cbn [seekPosition Seek]. apply s32_id. unfold is_s32. lia.
Qed.
End theory.

(** *** Witnesses: a file of 300 bytes in sectors 7, 9 and 11 of a blank disk. *)

Definition small_file : OpenFile := mkOpenFile small_header 100 None None.
Definition blank_disk : list (list Z) :=
  replicate (Z.to_nat NumSectors) (replicate (Z.to_nat SectorSize) 0).

Lemma small_file_ok : file_ok (hdr small_file).
Proof.
  constructor; [exact small_header_ok|by apply (bool_decide_unpack _); vm_compute|].
  intros s Hs. change (s ∈ [7; 9; 11]) in Hs. rewrite !elem_of_cons in Hs.
  unfold NumSectors, SectorsPerTrack, NumTracks.
  destruct Hs as [-> | [-> | [-> | Hs]]]; [lia..|by apply not_elem_of_nil in Hs].
Qed.

Lemma bytes_lt l : forallb (fun b => (0 <=? b) && (b <? 256)) l = true -> Forall is_byte l.
Proof.
  intros Hl. rewrite forallb_forall in Hl. apply Forall_forall. intros b Hb.
  apply list_elem_of_In in Hb. specialize (Hl b Hb). bool_to_prop. by split.
Qed.

Example ReadAt_exact_witness :
  exists d', ReadAt (fun _ => 0) small_file 1000 250 blank_disk = Ok (50, replicate 50 0, d').
Proof.
  destruct (@ReadAt_exact _ _ array_disk_laws (fun _ => 0) small_file 1000 250 blank_disk
    blank_array_ok small_file_ok) as (d' & HR & _); [lia|lia|].
  exists d'. assert (E : slice (Z.to_nat 250) (Z.to_nat (transferable (hdr small_file) 1000 250))
    (file_data blank_disk (hdr small_file)) = replicate 50 0) by (vm_compute; reflexivity).
  rewrite E in HR. exact HR.
Defined.

Example WriteAt_exact_witness :
  exists d', WriteAt (fun _ => 3) small_file [1; 2; 3; 4] 4 126 blank_disk = Ok (4, d') /\
    file_data d' small_header = replicate 126 0 ++ [1; 2; 3; 4] ++ replicate 170 0 /\
    sd_sector d' 8 = replicate 128 0.
Proof.
  destruct (@WriteAt_exact _ _ array_disk_laws (fun _ => 3) small_file [1; 2; 3; 4] 4 126 blank_disk
    blank_array_ok small_file_ok) as (d' & HW & _ & Hdata & Hout).
  - lia.
  - lia.
  - intros _. unfold is_byte. lia.
  - by apply bytes_lt.
  - vm_compute. congruence.
  - exists d'. split; [exact HW|]. split.
    + change small_header with (hdr small_file) at 1. rewrite Hdata. vm_compute. reflexivity.
    + rewrite Hout; [vm_compute; reflexivity| |].
      * unfold NumSectors, SectorsPerTrack, NumTracks. lia.
      * apply (bool_decide_unpack _). vm_compute. exact I.
Defined.

Example Read_after_Write_witness :
  exists f' d' f'' d'', Write (fun _ => 3) small_file [1; 2; 3; 4] 4 blank_disk = Ok (4, f', d') /\
    Read (fun _ => 5) (Seek f' 100) 4 d' = Ok (4, [1; 2; 3; 4], f'', d'').
Proof.
  destruct (@Read_after_Write _ _ array_disk_laws (fun _ => 3) (fun _ => 5) small_file [1; 2; 3; 4]
    blank_disk blank_array_ok small_file_ok) as (f' & d' & HW & f'' & d'' & HR & _).
  - cbn. lia.
  - vm_compute. congruence.
  - intros _. unfold is_byte. lia.
  - by apply bytes_lt.
  - exists f', d', f'', d''. split; [exact HW|exact HR].
Defined.
End OpenFile.
