(* ===== verification/PBitmap.v ===== *)
(** Persistent bitmaps ([filesys/pbitmap.h], [filesys/pbitmap.cc]): a [Bitmap]
    whose words are read from and written to a file. *)

From S2P Require Import Prelude Bitmap Disk FileHdr OpenFile.
Import Disk FileHdr OpenFile.

Module PBitmap.

Section code.
Context {D : Type} `{SectorDisk D}.
Implicit Types (f : OpenFile) (d : D) (b : Bitmap.Bitmap).

(** [map] as bytes: little-endian words of four bytes. *)
Definition words_of (bs : list Z) : list Z :=
  (fun i => le_combine (slice (4 * i) 4 bs)) <$> seq 0 (length bs / 4).
Definition map_bytes b : list Z := mjoin (le_split 4 <$> Bitmap.map b).

(** [file->ReadAt((char * )map, numWords * sizeof(unsigned), 0)] overwrites as many
    bytes of [map] as the file has. *)
Definition FetchFrom (junk : nat -> Z) b f d : res (Bitmap.Bitmap * D) :=
  '(_, bs, d) ← ReadAt junk f (Bitmap.numWords b * 4) 0 d;
  bytes ← copy_to (map_bytes b) 0 bs;
  Ok (Bitmap.set_map b (words_of bytes), d).

Definition WriteBack (junk : nat -> Z) b f d : res D :=
  '(_, d) ← WriteAt junk f (map_bytes b) (Bitmap.numWords b * 4) 0 d; Ok d.

(** The two constructors. *)
Definition new_PersistentBitmap (junk : nat -> Z) (numItems : Z) : res Bitmap.Bitmap :=
  Bitmap.new_Bitmap junk numItems.
Definition new_PersistentBitmap_from (junk : nat -> Z) f (numItems : Z) d
    : res (Bitmap.Bitmap * D) :=
  b ← Bitmap.new_Bitmap junk numItems; FetchFrom junk b f d.
End code.

Section theory.
Context {D : Type} `{SectorDiskLaws D}.
Implicit Types (f : OpenFile) (d : D) (b : Bitmap.Bitmap).

Lemma map_bytes_size b : Forall (fun c => length c = 4%nat) (le_split 4 <$> Bitmap.map b).
Proof. apply Forall_fmap, Forall_true. intros v. apply length_le_split. Qed.

Lemma length_map_bytes b : Bitmap.wf b -> zlen (map_bytes b) = Bitmap.numWords b * 4.
Proof.
  intros (_ & _ & Hl & _). unfold zlen, map_bytes in *.
  rewrite (length_mjoin_chunks 4), length_fmap by apply map_bytes_size. lia.
Qed.

Lemma map_bytes_bytes b : Forall is_byte (map_bytes b).
Proof.
  unfold map_bytes. induction (Bitmap.map b) as [|v m IH]; cbn [fmap list_fmap]; [constructor|].
  apply Forall_app. split; [apply le_split_bytes|exact IH].
Qed.

Lemma words_of_map_bytes b : Bitmap.wf b -> words_of (map_bytes b) = Bitmap.map b.
Proof.
  intros (_ & _ & _ & Hw). unfold words_of, map_bytes.
  rewrite (length_mjoin_chunks 4), length_fmap, Nat.mul_comm, Nat.div_mul
    by (done || apply map_bytes_size).
  apply list_eq. intros i. rewrite list_lookup_fmap.
  destruct (Bitmap.map b !! i) as [v|] eqn:Hv.
  - rewrite lookup_seq_lt by by apply lookup_lt_Some in Hv. cbn [fmap option_fmap option_map].
    rewrite (slice_mjoin 4 i _ (le_split 4 v)).
    + rewrite le_combine_split. f_equal. apply u32_id. rewrite Forall_lookup in Hw. by apply (Hw i).
    + apply map_bytes_size.
    + by rewrite list_lookup_fmap, Hv.
  - rewrite lookup_seq_ge by by apply lookup_ge_None in Hv. done.
Qed.

(** What the file holds when it holds the map [b]. *)
Definition stored b d f : Prop :=
  take (length (map_bytes b)) (file_data d (hdr f)) = map_bytes b.

Lemma transferable_all h n : 0 < n <= FileLength h -> transferable h n 0 = n.
Proof.
  intros Hn. unfold transferable. rewrite Z.sub_0_r.
  destruct (Z.leb_spec n 0); cbn [orb]; [lia|]. destruct (Z.leb_spec (FileLength h) 0); lia.
Qed.

Lemma numWords_pos b : Bitmap.wf b -> 0 < Bitmap.numWords b.
Proof.
  intros (Hpos & -> & _). pose proof (divRoundUp_spec (Bitmap.numBits b) Bitmap.BitsInWord).
  unfold Bitmap.BitsInWord, Bitmap.BitsInByte in *. lia.
Qed.

Lemma PBitmap_WriteBack_ok junk b f d : Bitmap.wf b -> sd_ok d -> file_ok (hdr f) ->
  Bitmap.numWords b * 4 <= Length f -> (forall j, is_byte (junk j)) ->
  exists d', WriteBack junk b f d = Ok d' /\ sd_ok d' /\ stored b d' f /\
    forall m, 0 <= m < NumSectors -> m ∉ blocks (hdr f) -> sd_sector d' m = sd_sector d m.
Proof.
  intros Hb Hd Hf Hfit Hjunk. unfold WriteBack, Length in *.
  pose proof (numWords_pos b Hb) as Hw. pose proof (length_map_bytes b Hb) as Hlm.
  pose proof (hdr_bounds _ (file_hdr _ Hf)) as Hbd. pose proof (length_file_data d _ Hd Hf) as Hfd.
  pose proof (transferable_all (hdr f) (Bitmap.numWords b * 4) ltac:(lia)) as Ht.
  unfold SectorSize, FileLength in *.
  destruct (WriteAt_ok junk f (map_bytes b) (Bitmap.numWords b * 4) 0 d Hd Hf) as
    (d' & HW & Hd' & Hdata & Hout); [lia..|done|apply map_bytes_bytes|lia|].
  rewrite Ht in HW, Hdata. rewrite HW. cbn [rbind]. exists d'. split; [done|].
  split; [done|]. split; [|done].
  unfold stored. rewrite Hdata. unfold zlen in *. rewrite (take_ge (map_bytes b)) by lia.
  change (Z.to_nat 0) with 0%nat. unfold splice. rewrite take_0. cbn [app].
  by rewrite take_app_length.
Qed.

Lemma PBitmap_FetchFrom_ok junk b0 b f d : Bitmap.wf b0 -> Bitmap.wf b ->
  Bitmap.numBits b0 = Bitmap.numBits b -> sd_ok d -> file_ok (hdr f) ->
  Bitmap.numWords b * 4 <= Length f -> stored b d f ->
  exists d', FetchFrom junk b0 f d = Ok (b, d') /\ sd_ok d' /\ same_sectors d d'.
Proof.
  intros Hb0 Hb Hn Hd Hf Hfit Hst. unfold FetchFrom, Length in *.
  assert (Hnw : Bitmap.numWords b0 = Bitmap.numWords b).
  { destruct Hb0 as (_ & -> & _), Hb as (_ & -> & _). by rewrite Hn. }
  pose proof (numWords_pos b Hb) as Hw. pose proof (length_map_bytes b Hb) as Hlm.
  pose proof (length_map_bytes b0 Hb0) as Hlm0.
  pose proof (hdr_bounds _ (file_hdr _ Hf)) as Hbd. pose proof (length_file_data d _ Hd Hf) as Hfd.
  pose proof (transferable_all (hdr f) (Bitmap.numWords b0 * 4) ltac:(lia)) as Ht.
  unfold SectorSize, FileLength in *.
  destruct (ReadAt_ok junk f (Bitmap.numWords b0 * 4) 0 d Hd Hf) as (d' & HR & Hd' & Hs); [lia..|].
  rewrite Ht in HR. rewrite HR. cbn [rbind]. exists d'. split; [|done].
  unfold stored in Hst. change (Z.to_nat 0) with 0%nat.
  assert (E : slice 0 (Z.to_nat (Bitmap.numWords b0 * 4)) (file_data d (hdr f)) = map_bytes b).
  { rewrite <- Hst at 1. unfold slice. rewrite drop_0. f_equal. unfold zlen in *. lia. }
  rewrite E, copy_to_ok by lia. cbn [rbind].
  assert (E2 : splice (Z.to_nat 0) (map_bytes b) (map_bytes b0) = map_bytes b).
  { unfold splice. change (Z.to_nat 0) with 0%nat. rewrite take_0, drop_ge, app_nil_r; [done|].
    unfold zlen in *. lia. }
  rewrite E2, words_of_map_bytes by done. f_equal. f_equal. destruct b0, b. cbn in *. by subst.
Qed.

(** A bitmap written back to a file large enough for it comes back bit for bit
    from the constructor that reads that file, whatever the new object's memory
    held; only sectors of that file change. *)
Theorem PersistentBitmap_roundtrip junk junk' junk'' b f d (Hb : Bitmap.wf b) (Hd : sd_ok d)
    (Hf : file_ok (hdr f)) (Hfit : Bitmap.numWords b * 4 <= Length f)
    (Hjunk : forall j, is_byte (junk j)) :
  exists d1 d2, WriteBack junk b f d = Ok d1 /\
    new_PersistentBitmap_from junk' f (Bitmap.numBits b) d1 = Ok (b, d2) /\
    (forall m, 0 <= m < NumSectors -> m ∉ blocks (hdr f) -> sd_sector d2 m = sd_sector d m) /\
    exists b', new_PersistentBitmap junk'' (Bitmap.numBits b) = Ok b' /\
      Bitmap.rep b' (replicate (Z.to_nat (Bitmap.numBits b)) false).
Proof.
  destruct (PBitmap_WriteBack_ok junk b f d Hb Hd Hf Hfit Hjunk) as (d1 & HW & Hd1 & Hst & Hout).
  assert (Hpos : 0 < Bitmap.numBits b) by apply Hb.
  destruct (Bitmap.new_Bitmap_ok junk' _ Hpos) as (b0 & Hnew & Hr0).
  pose proof (Bitmap.Bitmap_rep_length _ _ Hr0) as Hn0.
  assert (Hn : Bitmap.numBits b0 = Bitmap.numBits b).
  { rewrite <- Hn0. unfold zlen. rewrite length_replicate. lia. }
  destruct (PBitmap_FetchFrom_ok junk' b0 b f d1 (proj1 Hr0) Hb Hn Hd1 Hf Hfit Hst)
    as (d2 & HF & _ & Hs).
  exists d1, d2. split; [done|]. unfold new_PersistentBitmap_from. rewrite Hnew. cbn [rbind].
  split; [done|]. split; [|by apply Bitmap.new_Bitmap_ok].
  intros m Hm Hnin. by rewrite Hs, Hout.
Qed.
End theory.

Example PersistentBitmap_roundtrip_witness :
  exists d1 d2, WriteBack (fun _ => 3) six_bits small_file blank_disk = Ok d1 /\
    new_PersistentBitmap_from (fun _ => 9) small_file 6 d1 = Ok (six_bits, d2).
Proof.
  destruct (@PersistentBitmap_roundtrip _ _ array_disk_laws (fun _ => 3) (fun _ => 9) (fun _ => 1)
    six_bits small_file blank_disk) as (d1 & d2 & HW & HF & _).
  - unfold Bitmap.wf. split_and!; try done. repeat constructor; lia.
  - exact blank_array_ok.
  - exact small_file_ok.
  - vm_compute. congruence.
  - intros _. unfold is_byte. lia.
  - exists d1, d2. split; [exact HW|exact HF].
Defined.
End PBitmap.
