(* ===== verification/Directory.v ===== *)
(** The directory ([filesys/directory.h], [filesys/directory.cc]): a table of
    fixed-size entries, looked up by the first nine characters of a name, and
    kept in a file. *)

From S2P Require Import Prelude Bitmap Disk FileHdr OpenFile.
Import Disk FileHdr OpenFile.

Module Directory.

Definition FileNameMaxLen : Z := 9.

(** [sizeof(DirectoryEntry)]: [bool], three bytes of padding, [int], ten
    characters, two bytes of padding. *)
Definition EntrySize : Z := 20.

Record DirectoryEntry := mkEntry {
  inUse : bool;
  sector : Z;
  name : list Z;
  pad : list Z;
}.

Definition entry_bytes (e : DirectoryEntry) : list Z :=
  (if inUse e then 1 else 0) :: take 3 (pad e) ++ le_split 4 (u32 (sector e)) ++ name e ++
  drop 3 (pad e).
Definition entry_of (bs : list Z) : DirectoryEntry :=
  mkEntry (negb (hd 0 bs =? 0)) (s32 (le_combine (slice 4 4 bs))) (slice 8 10 bs)
    (slice 1 3 bs ++ slice 18 2 bs).

Record Directory := mkDirectory { tableSize : Z; table : list DirectoryEntry }.

Definition table_bytes (dir : Directory) : list Z := mjoin (entry_bytes <$> table dir).
Definition table_of (n : Z) (bs : list Z) : Directory :=
  mkDirectory n (entry_of <$> chunks (Z.to_nat EntrySize) (Z.to_nat n) bs).

(** [strncmp] and [strncpy] of the C library, on characters up to the first NUL;
    past the end of a list is its NUL. *)
Fixpoint strncmp (n : nat) (a b : list Z) : Z :=
  match n with
  | O => 0
  | S n =>
      if hd 0 a =? hd 0 b then (if hd 0 a =? 0 then 0 else strncmp n (tl a) (tl b))
      else hd 0 a - hd 0 b
  end.
Fixpoint strncpy (n : nat) (dst src : list Z) : list Z :=
  match n, dst with
  | S n, _ :: dst => hd 0 src :: strncpy n dst (if hd 0 src =? 0 then [] else tl src)
  | _, _ => dst
  end.

Definition set_inUse (e : DirectoryEntry) (u : bool) : DirectoryEntry :=
  mkEntry u (sector e) (name e) (pad e).

Section code.
Context {D : Type} `{SectorDisk D}.
Implicit Types (dir : Directory) (f : OpenFile) (d : D).

(** [junk] is the memory [new DirectoryEntry[size]] returns. *)
Definition new_Directory (junk : nat -> Z) (size : Z) : res Directory :=
  let dir := table_of size (junk <$> seq 0 (Z.to_nat (EntrySize * size))) in
  t ← for_range (Z.to_nat (tableSize dir)) 0
        (fun i t => e ← arr_get t i; arr_set t i (set_inUse e false)) (table dir);
  Ok (mkDirectory size t).

Definition FetchFrom (junk : nat -> Z) dir f d : res (Directory * D) :=
  '(_, bs, d) ← ReadAt junk f (tableSize dir * EntrySize) 0 d;
  bytes ← copy_to (table_bytes dir) 0 bs;
  Ok (table_of (tableSize dir) bytes, d).

Definition WriteBack (junk : nat -> Z) dir f d : res D :=
  '(_, d) ← WriteAt junk f (table_bytes dir) (tableSize dir * EntrySize) 0 d; Ok d.

Definition FindIndex dir (nm : list Z) : res Z :=
  r ← for_return (Z.to_nat (tableSize dir)) 0
        (fun i (u : ()) =>
           e ← arr_get (table dir) i;
           if inUse e && (strncmp (Z.to_nat FileNameMaxLen) (name e) nm =? 0)
           then Ok (inr i) else Ok (inl u)) ();
  match r with inr i => Ok i | inl _ => Ok (-1) end.

Definition Find dir (nm : list Z) : res Z :=
  i ← FindIndex dir nm;
  if negb (i =? -1) then e ← arr_get (table dir) i; Ok (sector e) else Ok (-1).

Definition fill_entry (e : DirectoryEntry) (nm : list Z) (newSector : Z) : DirectoryEntry :=
  mkEntry true newSector (strncpy (Z.to_nat FileNameMaxLen) (name e) nm) (pad e).

Definition Add dir (nm : list Z) (newSector : Z) : res (bool * Directory) :=
  i ← FindIndex dir nm;
  if negb (i =? -1) then Ok (false, dir)
  else
    r ← for_return (Z.to_nat (tableSize dir)) 0
          (fun i (u : ()) =>
             e ← arr_get (table dir) i;
             if negb (inUse e) then
               t ← arr_set (table dir) i (fill_entry e nm newSector);
               Ok (inr (mkDirectory (tableSize dir) t))
             else Ok (inl u)) ();
    match r with inr dir => Ok (true, dir) | inl _ => Ok (false, dir) end.

Definition Remove dir (nm : list Z) : res (bool * Directory) :=
  i ← FindIndex dir nm;
  if i =? -1 then Ok (false, dir)
  else
    e ← arr_get (table dir) i;
    t ← arr_set (table dir) i (set_inUse e false);
    Ok (true, mkDirectory (tableSize dir) t).

(** The names [List] hands to [printf], in order. *)
Definition List dir : res (list (list Z)) :=
  for_range (Z.to_nat (tableSize dir)) 0
    (fun i out => e ← arr_get (table dir) i;
                  Ok (if inUse e then out ++ [name e] else out)) [].
End code.

(** ** Names *)

(** What [strncmp] compares of a name: its first nine characters, up to a NUL. *)
Definition key_n (n : nat) (nm : list Z) : list Z := strncpy n (replicate n 0) nm.
Definition key (nm : list Z) : list Z := key_n 9 nm.

Lemma key_n_S n nm : key_n (S n) nm = hd 0 nm :: key_n n (if hd 0 nm =? 0 then [] else tl nm).
Proof. done. Qed.

Lemma strncmp_key n a b : strncmp n a b = 0 <-> key_n n a = key_n n b.
Proof.
  revert a b. induction n as [|n IH]; intros a b; [done|]. rewrite !key_n_S. cbn [strncmp].
  destruct (Z.eqb_spec (hd 0 a) (hd 0 b)) as [E|E].
  - rewrite <- E. destruct (Z.eqb_spec (hd 0 a) 0); [done|]. rewrite IH. split; [by intros ->|].
    by intros [= ->].
  - split; [lia|]. intros [= ? _]. lia.
Qed.

Lemma key_strncpy n dst nm : (n <= length dst)%nat -> key_n n (strncpy n dst nm) = key_n n nm.
Proof.
  revert dst nm. induction n as [|n IH]; intros [|c dst] nm Hl; try done; [simpl in Hl; lia|].
  simpl in Hl. cbn [strncpy]. rewrite !key_n_S. cbn [hd tl]. f_equal.
  destruct (hd 0 nm =? 0); [done|]. apply IH. lia.
Qed.

Lemma length_strncpy n dst nm : length (strncpy n dst nm) = length dst.
Proof.
  revert dst nm. induction n as [|n IH]; intros [|c dst] nm; try done. simpl. by rewrite IH.
Qed.

Lemma strncpy_bytes n dst nm : Forall is_byte dst -> Forall is_byte nm ->
  Forall is_byte (strncpy n dst nm).
Proof.
  revert dst nm. induction n as [|n IH]; intros dst nm Hd Hn; [by destruct dst|].
  destruct Hd as [|c dst Hc Hd]; [done|]. cbn [strncpy]. constructor.
  - destruct Hn; [unfold is_byte; simpl; lia|done].
  - apply IH; [done|]. destruct (_ =? 0); [constructor|]. by destruct Hn.
Qed.

(** [strncpy] writes the first [n] bytes and leaves the others. *)
Lemma drop_strncpy n dst nm : drop n (strncpy n dst nm) = drop n dst.
Proof.
  revert dst nm. induction n as [|n IH]; intros [|c dst] nm; try done. simpl. apply IH.
Qed.

(** ** The table *)

Record entry_ok (e : DirectoryEntry) : Prop := {
  entry_name : length (name e) = 10%nat /\ Forall is_byte (name e);
  entry_pad : length (pad e) = 5%nat /\ Forall is_byte (pad e);
  entry_sector : is_s32 (sector e);
}.

(** The names in use with their sectors. *)
Definition assoc (t : list DirectoryEntry) : list (list Z * Z) :=
  omap (fun e => if inUse e then Some (key (name e), sector e) else None) t.

(** A directory as the code keeps it, and the map it stands for. *)
Record dir_ok (dir : Directory) : Prop := {
  dir_size : zlen (table dir) = tableSize dir;
  dir_entries : Forall entry_ok (table dir);
  dir_names : NoDup (assoc (table dir)).*1;
}.
Definition dir_map (dir : Directory) : gmap (list Z) Z := list_to_map (assoc (table dir)).

Lemma assoc_app t1 t2 : assoc (t1 ++ t2) = assoc t1 ++ assoc t2.
Proof. apply omap_app. Qed.

Lemma elem_of_assoc t k s : (k, s) ∈ assoc t <->
  exists i e, t !! i = Some e /\ inUse e = true /\ key (name e) = k /\ sector e = s.
Proof.
  unfold assoc. rewrite list_elem_of_omap. split.
  - intros (e & He & E). apply list_elem_of_lookup in He as [i Hi]. exists i, e.
    destruct (inUse e); [|done]. by injection E as <- <-.
  - intros (i & e & Hi & Hu & <- & <-). exists e. rewrite Hu.
    by split; [apply (list_elem_of_lookup_2 _ i)|].
Qed.

Lemma dir_map_lookup dir k s : dir_ok dir -> dir_map dir !! k = Some s <-> (k, s) ∈ assoc (table dir).
Proof.
  intros Hd. unfold dir_map. split; [apply elem_of_list_to_map_2|].
  apply elem_of_list_to_map_1, Hd.
Qed.

Lemma size_dir_map dir : dir_ok dir -> size (dir_map dir) = length (assoc (table dir)).
Proof. intros Hd. unfold dir_map. apply map_size_list_to_map, Hd. Qed.

Lemma length_assoc t : (length (assoc t) <= length t)%nat /\
  (length (assoc t) = length t <-> Forall (fun e => inUse e = true) t).
Proof.
  induction t as [|e t [IH1 IH2]]; [by split|]. change (e :: t) with ([e] ++ t).
  rewrite assoc_app, !length_app, Forall_app, Forall_singleton, <- IH2. unfold assoc at 1 3.
  cbn [omap list_omap]. destruct (inUse e); simpl; intuition (lia || congruence).
Qed.

(** The entry a name is found at. *)
Definition matches (nm : list Z) (e : DirectoryEntry) : bool :=
  inUse e && (strncmp (Z.to_nat FileNameMaxLen) (name e) nm =? 0).

Lemma matches_iff nm e : matches nm e = true <-> inUse e = true /\ key (name e) = key nm.
Proof.
  unfold matches. rewrite andb_true_iff, Z.eqb_eq. change (Z.to_nat FileNameMaxLen) with 9%nat.
  by rewrite strncmp_key.
Qed.

Lemma Directory_FindIndex_ok dir nm : dir_ok dir ->
  FindIndex dir nm = Ok (match find_index (matches nm) (table dir) with
                         | Some i => Z.of_nat i | None => -1 end).
Proof.
  intros Hd. unfold FindIndex.
  rewrite (for_return_find (matches nm) (table dir) _ _ (fun i => Ok (inr i))).
  - by destruct (find_index _ _).
  - rewrite <- (dir_size dir Hd). unfold zlen. lia.
  - intros j e He. rewrite (arr_get_Some _ _ e) by (try lia; by rewrite Nat2Z.id). done.
  - done.
Qed.

Lemma find_matches dir nm : dir_ok dir ->
  match find_index (matches nm) (table dir) with
  | Some i => exists e, table dir !! i = Some e /\ inUse e = true /\ key (name e) = key nm /\
      dir_map dir !! key nm = Some (sector e)
  | None => dir_map dir !! key nm = None
  end.
Proof.
  intros Hd. destruct (find_index (matches nm) (table dir)) as [i|] eqn:E.
  - apply find_index_Some in E as (e & He & Hm & _). apply matches_iff in Hm as [Hu Hk].
    exists e. split_and!; try done. apply dir_map_lookup; [done|]. apply elem_of_assoc.
    by exists i, e.
  - rewrite find_index_None in E. apply eq_None_not_Some. intros [s Hs].
    apply dir_map_lookup, elem_of_assoc in Hs as (i & e & He & Hu & Hk & _); [|done].
    specialize (E i e He). assert (matches nm e = true) by by apply matches_iff. congruence.
Qed.

Lemma Directory_Find_ok dir nm : dir_ok dir -> Find dir nm = Ok (default (-1) (dir_map dir !! key nm)).
Proof.
  intros Hd. unfold Find. rewrite Directory_FindIndex_ok by done. cbn [rbind].
  pose proof (find_matches dir nm Hd) as Hf. destruct (find_index _ _) as [i|].
  - destruct Hf as (e & He & _ & _ & ->). rewrite (proj2 (Z.eqb_neq _ _)) by lia. cbn [negb].
    by rewrite (arr_get_Some _ _ e) by (try lia; by rewrite Nat2Z.id).
  - by rewrite Hf.
Qed.

(** Splitting the table at an entry. *)
Lemma table_split (t : list DirectoryEntry) i e : t !! i = Some e ->
  exists t1 t2, t = t1 ++ e :: t2 /\ forall e', <[i := e']> t = t1 ++ e' :: t2.
Proof.
  intros He. exists (take i t), (drop (S i) t). split; [by rewrite take_drop_middle|].
  intros e'. apply insert_take_drop. by apply lookup_lt_Some in He.
Qed.

Lemma assoc_middle t1 e t2 : assoc (t1 ++ e :: t2) =
  assoc t1 ++ (if inUse e then [(key (name e), sector e)] else []) ++ assoc t2.
Proof.
  change (e :: t2) with ([e] ++ t2). rewrite !assoc_app. f_equal. f_equal.
  unfold assoc. cbn [omap list_omap]. by destruct (inUse e).
Qed.

(** Changing one entry to one not in use, or one not in use to one that is. *)
Lemma dir_clear dir i e : dir_ok dir -> table dir !! i = Some e -> inUse e = true ->
  let dir' := mkDirectory (tableSize dir) (<[i := set_inUse e false]> (table dir)) in
  dir_ok dir' /\ dir_map dir' = delete (key (name e)) (dir_map dir).
Proof.
  intros Hd He Hu dir'. pose proof (dir_names dir Hd) as Hn.
  pose proof (dir_entries dir Hd) as Ha. pose proof (dir_size dir Hd) as Hs.
  destruct (table_split _ _ _ He) as (t1 & t2 & Ht & Hins).
  assert (E : assoc (<[i := set_inUse e false]> (table dir)) = assoc t1 ++ assoc t2)
    by (by rewrite Hins, assoc_middle).
  assert (E0 : assoc (table dir) = assoc t1 ++ [(key (name e), sector e)] ++ assoc t2)
    by (by rewrite Ht, assoc_middle, Hu).
  rewrite E0 in Hn. unfold dir_map, dir'. cbn [table].
  split.
  - constructor; cbn [table tableSize].
    + by rewrite zlen_insert.
    + apply Forall_insert; [done|]. rewrite Forall_lookup in Ha. destruct (Ha i e He). by constructor.
    + rewrite E. rewrite !fmap_app in *. cbn [app fmap list_fmap] in Hn.
      apply NoDup_app in Hn as (? & Hdis & Hn2). apply NoDup_cons in Hn2 as [? ?].
      apply NoDup_app. split_and!; try done. intros x Hx. specialize (Hdis x Hx). set_solver.
  - rewrite E, E0. symmetry.
    rewrite (list_to_map_proper _ ((key (name e), sector e) :: (assoc t1 ++ assoc t2))).
    + cbn [app list_to_map foldr uncurry fst snd]. apply delete_insert_id.
      apply not_elem_of_list_to_map_1. rewrite fmap_app in *. cbn [app fmap list_fmap] in Hn.
      apply NoDup_app in Hn as (? & Hdis & Hn2). apply NoDup_cons in Hn2 as [? ?].
      rewrite elem_of_app. intros [Hx|?]; [|done]. specialize (Hdis _ Hx). set_solver.
    + done.
    + cbn [app]. by rewrite <- Permutation_middle.
Qed.

Lemma fill_entry_ok e nm s : entry_ok e -> Forall is_byte nm -> is_s32 s -> entry_ok (fill_entry e nm s).
Proof.
  intros [[Hl Hb] Hp _] Hn Hs. constructor; [|done|done]. cbn [name fill_entry].
  split; [by rewrite length_strncpy|by apply strncpy_bytes].
Qed.

Lemma key_fill_entry e nm s : entry_ok e -> key (name (fill_entry e nm s)) = key nm.
Proof.
  intros [[Hl _] _ _]. apply key_strncpy. change (Z.to_nat FileNameMaxLen) with 9%nat. lia.
Qed.

Lemma dir_fill dir i e nm s : dir_ok dir -> table dir !! i = Some e -> inUse e = false ->
  Forall is_byte nm -> is_s32 s -> dir_map dir !! key nm = None ->
  let dir' := mkDirectory (tableSize dir) (<[i := fill_entry e nm s]> (table dir)) in
  dir_ok dir' /\ dir_map dir' = <[key nm := s]> (dir_map dir).
Proof.
  intros Hd He Hu Hnm Hs Hnew dir'. pose proof (dir_names dir Hd) as Hn.
  pose proof (dir_entries dir Hd) as Ha. pose proof (dir_size dir Hd) as Hsz.
  destruct (table_split _ _ _ He) as (t1 & t2 & Ht & Hins).
  assert (Hee : entry_ok e) by (rewrite Forall_lookup in Ha; by apply (Ha i)).
  assert (E : assoc (<[i := fill_entry e nm s]> (table dir)) = assoc t1 ++ [(key nm, s)] ++ assoc t2)
    by (by rewrite Hins, assoc_middle, key_fill_entry).
  assert (E0 : assoc (table dir) = assoc t1 ++ assoc t2) by (by rewrite Ht, assoc_middle, Hu).
  assert (Hfresh : key nm ∉ (assoc t1 ++ assoc t2).*1).
  { rewrite <- E0. by apply not_elem_of_list_to_map. }
  rewrite E0 in Hn. unfold dir_map, dir'. cbn [table]. split.
  - constructor; cbn [table tableSize].
    + by rewrite zlen_insert.
    + apply Forall_insert; [done|]. by apply fill_entry_ok.
    + rewrite E. rewrite (Permutation_app_comm [(key nm, s)]), app_assoc, fmap_app.
      apply NoDup_app. split_and!; [done| |apply NoDup_singleton].
      intros x Hx Hin. apply list_elem_of_singleton in Hin as ->. done.
  - rewrite E, E0. rewrite (list_to_map_proper _ ((key nm, s) :: (assoc t1 ++ assoc t2))); [done| |].
    + rewrite !fmap_app. cbn [fmap list_fmap]. rewrite Permutation_app_comm. cbn [app].
      rewrite fmap_app in Hfresh, Hn. rewrite Permutation_app_comm in Hfresh, Hn.
      by apply NoDup_cons.
    + cbn [app]. by rewrite <- Permutation_middle.
Qed.

Lemma Directory_Remove_ok dir nm : dir_ok dir ->
  match dir_map dir !! key nm with
  | Some _ => exists dir', Remove dir nm = Ok (true, dir') /\ dir_ok dir' /\
      dir_map dir' = delete (key nm) (dir_map dir) /\ tableSize dir' = tableSize dir
  | None => Remove dir nm = Ok (false, dir)
  end.
Proof.
  intros Hd. unfold Remove. rewrite Directory_FindIndex_ok by done. cbn [rbind].
  pose proof (find_matches dir nm Hd) as Hf. destruct (find_index _ _) as [i|].
  - destruct Hf as (e & He & Hu & Hk & ->). rewrite (proj2 (Z.eqb_neq _ _)) by lia.
    rewrite (arr_get_Some _ _ e) by (try lia; by rewrite Nat2Z.id). cbn [rbind].
    apply lookup_lt_Some in He as Hlt. rewrite arr_set_lt by (unfold zlen; lia).
    cbn [rbind]. rewrite Nat2Z.id. destruct (dir_clear dir i e Hd He Hu) as [Hd' Hm].
    eexists. split; [done|]. split; [done|]. by rewrite <- Hk.
  - by rewrite Hf.
Qed.

Lemma Directory_Add_ok dir nm s : dir_ok dir -> Forall is_byte nm -> is_s32 s ->
  (dir_map dir !! key nm = None /\ Z.of_nat (size (dir_map dir)) < tableSize dir ->
    exists dir', Add dir nm s = Ok (true, dir') /\ dir_ok dir' /\
      dir_map dir' = <[key nm := s]> (dir_map dir) /\ tableSize dir' = tableSize dir /\
      forall i e e', table dir !! i = Some e -> table dir' !! i = Some e' ->
        drop 9 (name e') = drop 9 (name e)) /\
  (~ (dir_map dir !! key nm = None /\ Z.of_nat (size (dir_map dir)) < tableSize dir) ->
    Add dir nm s = Ok (false, dir)).
Proof.
  intros Hd Hnm Hs. unfold Add. rewrite Directory_FindIndex_ok by done. cbn [rbind].
  pose proof (find_matches dir nm Hd) as Hf. destruct (find_index (matches nm) _) as [i|].
  { destruct Hf as (e & _ & _ & _ & ->). rewrite (proj2 (Z.eqb_neq _ _)) by lia.
    split; [by intros [? _]|done]. }
  change (negb (-1 =? -1)) with false. cbv iota.
  rewrite (for_return_find (fun e => negb (inUse e)) (table dir) _ _
    (fun i => e ← arr_get (table dir) i; t ← arr_set (table dir) i (fill_entry e nm s);
              Ok (inr (mkDirectory (tableSize dir) t)))).
  2: { rewrite <- (dir_size dir Hd). unfold zlen. lia. }
  2: { intros j e He. rewrite (arr_get_Some _ _ e) by (try lia; by rewrite Nat2Z.id).
       cbn [rbind]. by destruct (inUse e). }
  2: { intros z t. destruct (arr_get _ z); [|done]. cbn [rbind]. by destruct (arr_set _ z _). }
  pose proof (dir_size dir Hd) as Hsz. pose proof (size_dir_map dir Hd) as Hsm.
  destruct (length_assoc (table dir)) as [Hle Hall]. unfold zlen in Hsz.
  destruct (find_index _ (table dir)) as [i|] eqn:E.
  - apply find_index_Some in E as (e & He & Hu & _). apply negb_true_iff in Hu.
    split.
    + intros _. rewrite (arr_get_Some _ _ e) by (try lia; by rewrite Nat2Z.id). cbn [rbind].
      apply lookup_lt_Some in He as Hlt. rewrite arr_set_lt by (unfold zlen; lia).
      cbn [rbind]. rewrite Nat2Z.id.
      destruct (dir_fill dir i e nm s Hd He Hu Hnm Hs Hf) as [Hd' Hm].
      eexists. split; [done|]. split_and!; try done. cbn [table]. intros j x y Hx Hy.
      destruct (decide (j = i)) as [->|Hne].
      * rewrite list_lookup_insert_eq in Hy by done. injection Hy as <-. rewrite He in Hx.
        injection Hx as <-. apply drop_strncpy.
      * rewrite list_lookup_insert_ne in Hy by done. congruence.
    + intros Hno. exfalso. apply Hno. split; [done|].
      enough (length (assoc (table dir)) <> length (table dir)) by lia.
      intros Heq. apply Hall in Heq. rewrite Forall_lookup in Heq. specialize (Heq i e He).
      simpl in Heq. congruence.
  - split; [|done]. intros [_ Hlt]. rewrite find_index_None in E.
    enough (length (assoc (table dir)) = length (table dir)) by lia. apply Hall, Forall_lookup.
    intros i e He. specialize (E i e He). by apply negb_false_iff in E.
Qed.

(** ** Making a directory *)

Lemma for_range_update {A} (g : A -> A) (l : list A) n :
  n = length l ->
  for_range n 0 (fun i t => e ← arr_get t i; arr_set t i (g e)) l = Ok (g <$> l).
Proof.
  intros ->. destruct (for_range_rule (fun i t => t = (g <$> take (Z.to_nat i) l) ++ drop (Z.to_nat i) l)
    (length l) 0 (fun i t => e ← arr_get t i; arr_set t i (g e)) l) as (t & -> & ->).
  - done.
  - intros i t Hi ->. destruct (lookup_lt_is_Some_2 l (Z.to_nat i) ltac:(lia)) as [x Hx].
    assert (Hlen : length (g <$> take (Z.to_nat i) l) = Z.to_nat i)
      by (rewrite length_fmap, length_take; lia).
    rewrite (arr_get_Some _ _ x).
    + cbn [rbind]. rewrite arr_set_lt.
      * eexists. split; [done|]. replace (Z.to_nat (i + 1)) with (S (Z.to_nat i)) by lia.
        rewrite (take_S_r _ _ x), fmap_app, <- app_assoc by done.
        rewrite <- (Nat.add_0_r (Z.to_nat i)) at 1. rewrite <- Hlen at 1. rewrite insert_app_r.
        f_equal. rewrite (drop_S l x) by done. done.
      * rewrite zlen_app. unfold zlen. rewrite Hlen, length_drop. lia.
    + lia.
    + rewrite lookup_app_r by lia. rewrite Hlen, lookup_drop, Nat.sub_diag, Nat.add_0_r. done.
  - rewrite Z.add_0_l, Nat2Z.id, firstn_all, drop_all. by rewrite app_nil_r.
Qed.

Lemma entry_of_ok bs : length bs = 20%nat -> Forall is_byte bs -> entry_ok (entry_of bs).
Proof.
  intros Hl Hb. constructor; cbn [name pad sector entry_of].
  - split; [by rewrite length_slice by lia|by apply Forall_slice].
  - split; [rewrite length_app, !length_slice by lia; done|].
    apply Forall_app. split; by apply Forall_slice.
  - apply s32_range.
Qed.

Lemma table_of_entries n bs : 0 <= n -> zlen bs = n * EntrySize -> Forall is_byte bs ->
  zlen (table (table_of n bs)) = n /\ Forall entry_ok (table (table_of n bs)).
Proof.
  intros Hn Hl Hb. unfold table_of, zlen, EntrySize in *. cbn [table].
  change (Z.to_nat 20) with 20%nat. rewrite length_fmap, length_chunks. split; [lia|].
  apply Forall_fmap, Forall_lookup. intros i c Hc. cbn. apply entry_of_ok.
  - pose proof (chunks_size 20 (Z.to_nat n) bs ltac:(lia)) as Hsz.
    rewrite Forall_lookup in Hsz. by apply (Hsz i).
  - unfold chunks in Hc. rewrite list_lookup_fmap in Hc.
    destruct (seq 0 _ !! i) as [k|]; [|done]. injection Hc as <-. by apply Forall_slice.
Qed.

Lemma assoc_cleared t : assoc ((fun e => set_inUse e false) <$> t) = [].
Proof.
  unfold assoc. induction t as [|e t IH]; [done|]. cbn [fmap list_fmap omap list_omap].
  exact IH.
Qed.

Lemma new_Directory_ok junk size : 0 <= size -> (forall j, is_byte (junk j)) ->
  exists dir, new_Directory junk size = Ok dir /\ dir_ok dir /\ dir_map dir = ∅ /\
    tableSize dir = size.
Proof.
  intros Hs Hj. unfold new_Directory. set (bs := junk <$> _).
  destruct (table_of_entries size bs) as [Hl Ha]; [done| | |].
  - unfold zlen, bs, EntrySize. rewrite length_fmap, length_seq. lia.
  - apply Forall_fmap, Forall_true. intros j. apply Hj.
  - rewrite (for_range_update (fun e => set_inUse e false)).
    2: { cbn [tableSize table_of]. unfold zlen in Hl. lia. }
    cbn [rbind]. eexists. split; [done|]. split; [|split; [|done]].
    + constructor; cbn [table tableSize].
      * unfold zlen in *. by rewrite length_fmap.
      * apply Forall_fmap. eapply Forall_impl; [exact Ha|]. intros e []. by constructor.
      * rewrite assoc_cleared. constructor.
    + unfold dir_map. cbn [table]. by rewrite assoc_cleared.
Qed.

(** ** The directory in its file *)

Lemma length_entry_bytes e : entry_ok e -> length (entry_bytes e) = 20%nat.
Proof.
  intros [[Hn _] [Hp _] _]. unfold entry_bytes. cbn [length].
  rewrite !length_app, length_take, length_drop, length_le_split. lia.
Qed.

Lemma entry_bytes_bytes e : entry_ok e -> Forall is_byte (entry_bytes e).
Proof.
  intros [[_ Hn] [_ Hp] _]. unfold entry_bytes. constructor; [unfold is_byte; destruct (inUse e); lia|].
  rewrite !Forall_app. split_and!; [by apply Forall_take|apply le_split_bytes|done|by apply Forall_drop].
Qed.

(** Five fields one after the other, cut out again. *)
Lemma slice_fields {A} (a b c d : list A) : 
  slice (length a) (length b) (a ++ b ++ c) = b /\ slice 0 (length a) (a ++ d) = a.
Proof.
  unfold slice. split; [by rewrite drop_app_length, take_app_length|].
  by rewrite drop_0, take_app_length.
Qed.

Lemma entry_of_bytes e : entry_ok e -> entry_of (entry_bytes e) = e.
Proof.
  intros [[Hn _] [Hp _] Hs]. unfold entry_of, entry_bytes.
  set (u := if inUse e then 1 else 0). set (p1 := take 3 (pad e)). set (p2 := drop 3 (pad e)).
  set (s := le_split 4 (u32 (sector e))).
  assert (H1 : length p1 = 3%nat) by (unfold p1; rewrite length_take; lia).
  assert (H2 : length p2 = 2%nat) by (unfold p2; rewrite length_drop; lia).
  assert (H3 : length s = 4%nat) by apply length_le_split.
  assert (E1 : slice 4 4 (u :: p1 ++ s ++ name e ++ p2) = s).
  { pose proof (proj1 (slice_fields (u :: p1) s (name e ++ p2) [])) as E.
    cbn [length app] in E. rewrite H1, H3 in E. exact E. }
  assert (E2 : slice 8 10 (u :: p1 ++ s ++ name e ++ p2) = name e).
  { pose proof (proj1 (slice_fields (u :: p1 ++ s) (name e) p2 [])) as E.
    cbn [length app] in E. rewrite length_app, H1, H3, Hn in E. rewrite <- E at 2.
    by rewrite <- app_assoc. }
  assert (E3 : slice 1 3 (u :: p1 ++ s ++ name e ++ p2) = p1).
  { pose proof (proj1 (slice_fields [u] p1 (s ++ name e ++ p2) [])) as E.
    cbn [length app] in E. rewrite H1 in E. exact E. }
  assert (E4 : slice 18 2 (u :: p1 ++ s ++ name e ++ p2) = p2).
  { pose proof (proj1 (slice_fields (u :: p1 ++ s ++ name e) p2 [] [])) as E.
    cbn [length app] in E. rewrite !length_app, H1, H2, H3, Hn, app_nil_r in E. rewrite <- E at 2.
    by rewrite <- !app_assoc. }
  rewrite E1, E2, E3, E4. cbn [hd]. unfold p1, p2. rewrite take_drop.
  unfold s. rewrite le_combine_split. change (256 ^ Z.of_nat 4) with (2 ^ 32).
  fold (u32 (u32 (sector e))). rewrite u32_idemp, s32_u32, s32_id by done.
  unfold u. by destruct e as [[] ? ? ?].
Qed.

Lemma entries_size dir : dir_ok dir -> Forall (fun c => length c = 20%nat) (entry_bytes <$> table dir).
Proof.
  intros Hd. apply Forall_fmap. eapply Forall_impl; [apply (dir_entries dir Hd)|].
  intros e He. by apply length_entry_bytes.
Qed.

Lemma length_table_bytes dir : dir_ok dir -> zlen (table_bytes dir) = tableSize dir * EntrySize.
Proof.
  intros Hd. unfold zlen, table_bytes, EntrySize.
  rewrite (length_mjoin_chunks 20), length_fmap by by apply entries_size.
  rewrite <- (dir_size dir Hd). unfold zlen. lia.
Qed.

Lemma table_bytes_bytes dir : dir_ok dir -> Forall is_byte (table_bytes dir).
Proof.
  intros Hd. apply Forall_join, Forall_fmap. eapply Forall_impl; [apply (dir_entries dir Hd)|].
  intros e He. by apply entry_bytes_bytes.
Qed.

Lemma table_of_bytes dir : dir_ok dir -> table_of (tableSize dir) (table_bytes dir) = dir.
Proof.
  intros Hd. unfold table_of, table_bytes. change (Z.to_nat EntrySize) with 20%nat.
  assert (Hn : Z.to_nat (tableSize dir) = length (entry_bytes <$> table dir)).
  { rewrite length_fmap, <- (dir_size dir Hd). unfold zlen. lia. }
  rewrite Hn, chunks_mjoin by by apply entries_size. destruct dir as [n t]. cbn [table tableSize]. f_equal.
  rewrite <- list_fmap_compose. rewrite <- (list_fmap_id t) at 2. apply list_fmap_ext.
  intros i e He. cbn. apply entry_of_bytes. pose proof (dir_entries _ Hd) as Ha.
  rewrite Forall_lookup in Ha. by apply (Ha i).
Qed.

Section file.
Context {D : Type} `{SectorDiskLaws D}.
Implicit Types (f : OpenFile) (d : D).

(** What the file holds when it holds the directory. *)
Definition stored dir d f : Prop :=
  take (length (table_bytes dir)) (file_data d (hdr f)) = table_bytes dir.

Lemma Directory_WriteBack_ok junk dir f d : dir_ok dir -> sd_ok d -> file_ok (hdr f) ->
  tableSize dir * EntrySize <= Length f -> (forall j, is_byte (junk j)) ->
  exists d', WriteBack junk dir f d = Ok d' /\ sd_ok d' /\ stored dir d' f /\
    forall m, 0 <= m < NumSectors -> m ∉ blocks (hdr f) -> sd_sector d' m = sd_sector d m.
Proof.
  intros Hb Hd Hf Hfit Hjunk. unfold WriteBack, Length in *.
  pose proof (length_table_bytes dir Hb) as Hlm. pose proof (zlen_nonneg (table_bytes dir)) as H1.
  pose proof (hdr_bounds _ (file_hdr _ Hf)) as Hbd. pose proof (length_file_data d _ Hd Hf) as Hfd.
  assert (Ht : transferable (hdr f) (tableSize dir * EntrySize) 0 = tableSize dir * EntrySize).
  { unfold transferable. rewrite Z.sub_0_r.
    destruct (Z.leb_spec (tableSize dir * EntrySize) 0); cbn [orb]; [lia|].
    destruct (Z.leb_spec (FileLength (hdr f)) 0); lia. }
  unfold SectorSize, FileLength in *.
  destruct (WriteAt_ok junk f (table_bytes dir) (tableSize dir * EntrySize) 0 d Hd Hf) as
    (d' & HW & Hd' & Hdata & Hout); [lia..|done|by apply table_bytes_bytes|lia|].
  rewrite Ht in HW, Hdata. rewrite HW. cbn [rbind]. exists d'. split; [done|].
  split; [done|]. split; [|done].
  unfold stored. rewrite Hdata. unfold zlen in *. rewrite (take_ge (table_bytes dir)) by lia.
  change (Z.to_nat 0) with 0%nat. unfold splice. rewrite take_0. cbn [app].
  by rewrite take_app_length.
Qed.

Lemma Directory_FetchFrom_ok junk dir0 dir f d : dir_ok dir0 -> dir_ok dir ->
  tableSize dir0 = tableSize dir -> sd_ok d -> file_ok (hdr f) ->
  tableSize dir * EntrySize <= Length f -> stored dir d f ->
  exists d', FetchFrom junk dir0 f d = Ok (dir, d') /\ sd_ok d' /\ same_sectors d d'.
Proof.
  intros Hb0 Hb Hn Hd Hf Hfit Hst. unfold FetchFrom, Length in *. rewrite Hn.
  pose proof (length_table_bytes dir Hb) as Hlm. pose proof (zlen_nonneg (table_bytes dir)) as H1.
  pose proof (length_table_bytes dir0 Hb0) as Hlm0. rewrite Hn in Hlm0.
  pose proof (hdr_bounds _ (file_hdr _ Hf)) as Hbd. pose proof (length_file_data d _ Hd Hf) as Hfd.
  assert (Ht : transferable (hdr f) (tableSize dir * EntrySize) 0 = tableSize dir * EntrySize).
  { unfold transferable. rewrite Z.sub_0_r.
    destruct (Z.leb_spec (tableSize dir * EntrySize) 0); cbn [orb]; [lia|].
    destruct (Z.leb_spec (FileLength (hdr f)) 0); lia. }
  unfold SectorSize, FileLength in *.
  destruct (ReadAt_ok junk f (tableSize dir * EntrySize) 0 d Hd Hf) as (d' & HR & Hd' & Hs); [lia..|].
  rewrite Ht in HR. rewrite HR. cbn [rbind]. exists d'. split; [|done].
  unfold stored in Hst. change (Z.to_nat 0) with 0%nat.
  assert (E : slice 0 (Z.to_nat (tableSize dir * EntrySize)) (file_data d (hdr f)) = table_bytes dir).
  { rewrite <- Hst at 1. unfold slice. rewrite drop_0. f_equal. unfold zlen in *. lia. }
  rewrite E, copy_to_ok by lia. cbn [rbind].
  assert (E2 : splice (Z.to_nat 0) (table_bytes dir) (table_bytes dir0) = table_bytes dir).
  { unfold splice. change (Z.to_nat 0) with 0%nat. rewrite take_0, drop_ge, app_nil_r; [done|].
    unfold zlen in *. lia. }
  by rewrite E2, table_of_bytes.
Qed.

(** C29. The directory is a map from names, as far as their first nine characters,
    to sectors: [Find] is lookup (-1 for a name that is not there), [Add]
    inserts, or returns false and changes nothing when the name is there or all
    entries are in use, and [Remove] deletes, or returns false.  [Add] never
    writes the tenth character of an entry, which the code means for the
    terminating NUL. *)
Theorem Directory_refines_map dir nm s (Hdir : dir_ok dir) (Hname : Forall is_byte nm)
    (Hsector : is_s32 s) :
  let m := dir_map dir in
  Find dir nm = Ok (default (-1) (m !! key nm)) /\
  (exists r dir', Add dir nm s = Ok (r, dir') /\ dir_ok dir' /\ tableSize dir' = tableSize dir /\
     (r = true <-> m !! key nm = None /\ Z.of_nat (size m) < tableSize dir) /\
     dir_map dir' = (if r then <[key nm := s]> m else m) /\
     forall i e e', table dir !! i = Some e -> table dir' !! i = Some e' ->
       drop 9 (name e') = drop 9 (name e)) /\
  (exists r dir', Remove dir nm = Ok (r, dir') /\ dir_ok dir' /\ tableSize dir' = tableSize dir /\
     (r = true <-> is_Some (m !! key nm)) /\ dir_map dir' = delete (key nm) m).
Proof.
  cbv zeta. split_and!.
  - by apply Directory_Find_ok.
  - destruct (Directory_Add_ok dir nm s Hdir Hname Hsector) as [Hyes Hno].
    destruct (decide (dir_map dir !! key nm = None /\ Z.of_nat (size (dir_map dir)) < tableSize dir))
      as [Hc|Hc].
    + destruct (Hyes Hc) as (dir' & HA & Hd' & Hm & Hs & Ht). exists true, dir'. by split_and!.
    + exists false, dir. rewrite (Hno Hc). split_and!; try done. intros i e e' He He'. congruence.
  - pose proof (Directory_Remove_ok dir nm Hdir) as HR. destruct (dir_map dir !! key nm) as [x|] eqn:E.
    + destruct HR as (dir' & HR & Hd' & Hm & Hs). exists true, dir'. split_and!; try done.
    + exists false, dir. split_and!; try done.
      by rewrite delete_id.
Qed.

(** A directory written back to a file large enough for it is read back by a new
    directory object of the same size, entry for entry, whatever the new
    object's memory held; only sectors of that file change. *)
Theorem Directory_roundtrip junk junk' dir f d (Hdir : dir_ok dir) (Hd : sd_ok d)
    (Hf : file_ok (hdr f)) (Hfit : tableSize dir * EntrySize <= Length f)
    (Hjunk : forall j, is_byte (junk j)) (Hjunk' : forall j, is_byte (junk' j)) :
  exists d1 dir0 d2, WriteBack junk dir f d = Ok d1 /\
    new_Directory junk' (tableSize dir) = Ok dir0 /\ dir_map dir0 = ∅ /\
    FetchFrom junk' dir0 f d1 = Ok (dir, d2) /\
    forall m, 0 <= m < NumSectors -> m ∉ blocks (hdr f) -> sd_sector d2 m = sd_sector d m.
Proof.
  destruct (Directory_WriteBack_ok junk dir f d Hdir Hd Hf Hfit Hjunk) as (d1 & HW & Hd1 & Hst & Hout).
  assert (Hpos : 0 <= tableSize dir) by (rewrite <- (dir_size dir Hdir); apply zlen_nonneg).
  destruct (new_Directory_ok junk' _ Hpos Hjunk') as (dir0 & Hnew & Hd0 & Hm0 & Hs0).
  destruct (Directory_FetchFrom_ok junk' dir0 dir f d1 Hd0 Hdir Hs0 Hd1 Hf Hfit Hst)
    as (d2 & HF & _ & Hs).
  exists d1, dir0, d2. split_and!; try done. intros m Hm Hnin. by rewrite Hs, Hout.
Qed.
End file.

(** *** Witnesses: a directory of two entries *)

Definition two_entries : Directory :=
  mkDirectory 2 [mkEntry true 7 [102; 111; 111; 0; 0; 0; 0; 0; 0; 65] [1; 2; 3; 4; 5];
                 mkEntry false 9 [98; 97; 114; 0; 0; 0; 0; 0; 0; 66] [1; 2; 3; 4; 5]].

Lemma two_entries_ok : dir_ok two_entries.
Proof.
  constructor; [done| |].
  - repeat constructor; cbn; try (by apply bytes_lt); unfold is_s32; lia.
  - vm_compute. apply NoDup_singleton.
Qed.

Example Directory_refines_map_witness :
  Find two_entries [102; 111; 111] = Ok 7 /\
  exists dir', Add two_entries [98; 97; 114; 98; 97; 114; 98; 97; 114] 12 = Ok (true, dir') /\
    dir_map dir' !! key [98; 97; 114; 98; 97; 114; 98; 97; 114] = Some 12 /\
    (name <$> table dir' !! 1%nat) = Some [98; 97; 114; 98; 97; 114; 98; 97; 114; 66].
Proof.
  destruct (Directory_refines_map two_entries [102; 111; 111] 0 two_entries_ok) as (HF & _ & _);
    [by apply bytes_lt|unfold is_s32; lia|].
  split; [rewrite HF; vm_compute; reflexivity|].
  destruct (Directory_refines_map two_entries [98; 97; 114; 98; 97; 114; 98; 97; 114] 12
    two_entries_ok) as (_ & (r & dir' & HA & _ & _ & Hr & Hm & _) & _);
    [by apply bytes_lt|unfold is_s32; lia|].
  assert (E : exists dir2, Add two_entries [98; 97; 114; 98; 97; 114; 98; 97; 114] 12 = Ok (true, dir2) /\
    (name <$> table dir2 !! 1%nat) = Some [98; 97; 114; 98; 97; 114; 98; 97; 114; 66])
    by (eexists; split; vm_compute; reflexivity).
  destruct E as (dir2 & E & Hn). rewrite E in HA. injection HA as <- <-. exists dir2.
  split; [exact E|]. split; [|exact Hn]. rewrite Hm. apply lookup_insert_eq.
Defined.

Example Directory_roundtrip_witness :
  exists d1 dir0 d2, WriteBack (fun _ => 3) two_entries small_file blank_disk = Ok d1 /\
    new_Directory (fun _ => 7) 2 = Ok dir0 /\
    FetchFrom (fun _ => 7) dir0 small_file d1 = Ok (two_entries, d2).
Proof.
  destruct (@Directory_roundtrip _ _ array_disk_laws (fun _ => 3) (fun _ => 7) two_entries small_file
    blank_disk two_entries_ok blank_array_ok small_file_ok) as (d1 & dir0 & d2 & HW & HN & _ & HF & _).
  - vm_compute. congruence.
  - intros _. unfold is_byte. lia.
  - intros _. unfold is_byte. lia.
  - exists d1, dir0, d2. split; [exact HW|]. split; [exact HN|exact HF].
Defined.
End Directory.
