(* ===== verification/FileSys.v ===== *)
(** The Nachos file system ([filesys/filesys.h], [filesys/filesys.cc], the
    version on the simulated disk): formatting, creating, opening and removing
    files, on the free map and the directory kept in the files of sectors 0
    and 1. *)

From S2P Require Import Prelude Bitmap Disk FileHdr OpenFile PBitmap Directory.
Import Disk FileHdr OpenFile.

Module FileSys.

Definition FreeMapSector : Z := 0.
Definition DirectorySector : Z := 1.
Definition FreeMapFileSize : Z := Z.quot NumSectors Bitmap.BitsInByte.
Definition NumDirEntries : Z := 10.
Definition DirectoryFileSize : Z := Directory.EntrySize * NumDirEntries.

Record FileSystem := mkFileSystem {
  freeMapFile : OpenFile;
  directoryFile : OpenFile;
}.

(** [new FileHeader], which has no constructor, in the memory [junk]. *)
Definition new_FileHeader (junk : nat -> Z) : FileHeader :=
  of_bytes (junk <$> seq 0 (Z.to_nat SectorSize)).

Section code.
Context {D : Type} `{SectorDisk D}.
Implicit Types (fs : FileSystem) (d : D).

Definition new_FileSystem (junk : nat -> Z) (format : bool) d : res (FileSystem * D) :=
  if format then
    freeMap ← PBitmap.new_PersistentBitmap junk NumSectors;
    directory ← Directory.new_Directory junk NumDirEntries;
    freeMap ← ba_Mark freeMap FreeMapSector;
    freeMap ← ba_Mark freeMap DirectorySector;
    '(ok, mapHdr, freeMap) ← Allocate (new_FileHeader junk) freeMap FreeMapFileSize;
    ASSERT ok ;;
    '(ok, dirHdr, freeMap) ← Allocate (new_FileHeader junk) freeMap DirectoryFileSize;
    ASSERT ok ;;
    d ← WriteBack mapHdr FreeMapSector d;
    d ← WriteBack dirHdr DirectorySector d;
    '(freeMapFile, d) ← new_OpenFile FreeMapSector d;
    '(directoryFile, d) ← new_OpenFile DirectorySector d;
    d ← PBitmap.WriteBack junk freeMap freeMapFile d;
    d ← Directory.WriteBack junk directory directoryFile d;
    Ok (mkFileSystem freeMapFile directoryFile, d)
  else
    '(freeMapFile, d) ← new_OpenFile FreeMapSector d;
    '(directoryFile, d) ← new_OpenFile DirectorySector d;
    Ok (mkFileSystem freeMapFile directoryFile, d).

(** [new Directory(NumDirEntries)] and [FetchFrom(directoryFile)], with which
    every operation starts. *)
Definition fetch_directory (junk : nat -> Z) fs d : res (Directory.Directory * D) :=
  directory ← Directory.new_Directory junk NumDirEntries;
  Directory.FetchFrom junk directory (directoryFile fs) d.

Definition Create (junk : nat -> Z) fs (name : list Z) (initialSize : Z) d : res (bool * D) :=
  '(directory, d) ← fetch_directory junk fs d;
  found ← Directory.Find directory name;
  if negb (found =? -1) then Ok (false, d)
  else
    '(freeMap, d) ← PBitmap.new_PersistentBitmap_from junk (freeMapFile fs) NumSectors d;
    '(sector, freeMap) ← ba_FindAndSet freeMap;
    if sector =? -1 then Ok (false, d)
    else
      '(added, directory) ← Directory.Add directory name sector;
      if negb added then Ok (false, d)
      else
        '(ok, hdr, freeMap) ← Allocate (new_FileHeader junk) freeMap initialSize;
        if negb ok then Ok (false, d)
        else
          d ← WriteBack hdr sector d;
          d ← Directory.WriteBack junk directory (directoryFile fs) d;
          d ← PBitmap.WriteBack junk freeMap (freeMapFile fs) d;
          Ok (true, d).

Definition Open (junk : nat -> Z) fs (name : list Z) d : res (option OpenFile * D) :=
  '(directory, d) ← fetch_directory junk fs d;
  sector ← Directory.Find directory name;
  if 0 <=? sector then '(f, d) ← new_OpenFile sector d; Ok (Some f, d)
  else Ok (None, d).

Definition Remove (junk : nat -> Z) fs (name : list Z) d : res (bool * D) :=
  '(directory, d) ← fetch_directory junk fs d;
  sector ← Directory.Find directory name;
  if sector =? -1 then Ok (false, d)
  else
    '(fileHdr, d) ← FetchFrom sector d;
    '(freeMap, d) ← PBitmap.new_PersistentBitmap_from junk (freeMapFile fs) NumSectors d;
    freeMap ← Deallocate fileHdr freeMap;
    freeMap ← ba_Clear freeMap sector;
    '(_, directory) ← Directory.Remove directory name;
    d ← PBitmap.WriteBack junk freeMap (freeMapFile fs) d;
    d ← Directory.WriteBack junk directory (directoryFile fs) d;
    Ok (true, d).

Definition List (junk : nat -> Z) fs d : res (list (list Z) * D) :=
  '(directory, d) ← fetch_directory junk fs d;
  names ← Directory.List directory;
  Ok (names, d).
End code.

(** ** The state of a file system *)

Lemma new_FileHeader_ok junk :
  zlen (dataSectors (new_FileHeader junk)) = NumDirect /\
  Forall is_s32 (dataSectors (new_FileHeader junk)).
Proof.
  unfold new_FileHeader, of_bytes, ints_of. rewrite length_fmap, length_seq.
  change (Z.to_nat SectorSize / 4)%nat with 32%nat. cbn [seq fmap list_fmap dataSectors].
  split; [done|]. repeat constructor; apply s32_range.
Qed.

Section theory.
Context {D : Type} `{SectorDiskLaws D}.
Implicit Types (fs : FileSystem) (f : OpenFile) (d : D) (dir : Directory.Directory)
  (b : Bitmap.Bitmap) (S : gset Z) (nm : list Z).

Lemma new_OpenFile_ok d n : sd_ok d -> 0 <= n < NumSectors ->
  exists d', new_OpenFile n d = Ok (mkOpenFile (of_bytes (sd_sector d n)) 0 None None, d') /\
    sd_ok d' /\ same_sectors d d'.
Proof.
  intros Hd Hn. unfold new_OpenFile. destruct (FetchFrom_ok d n Hd Hn) as (d' & -> & Hd' & Hs).
  by exists d'.
Qed.

(** The header in a sector, and all the sectors of the file it heads. *)
Definition header d (s : Z) : FileHeader := of_bytes (sd_sector d s).
Definition own d (s : Z) : gset Z := {[ s ]} ∪ list_to_set (blocks (header d s)).

(** The sectors of the free map and of the directory. *)
Definition sys fs : gset Z :=
  {[ FreeMapSector; DirectorySector ]} ∪ list_to_set (blocks (hdr (freeMapFile fs))) ∪
  list_to_set (blocks (hdr (directoryFile fs))).

(** The two files that are left open. *)
Record sys_ok fs : Prop := {
  so_map : file_ok (hdr (freeMapFile fs));
  so_map_size : numBytes (hdr (freeMapFile fs)) = FreeMapFileSize;
  so_dir : file_ok (hdr (directoryFile fs));
  so_dir_size : numBytes (hdr (directoryFile fs)) = DirectoryFileSize;
  so_map_out : forall s, s ∈ blocks (hdr (freeMapFile fs)) ->
    s <> FreeMapSector /\ s <> DirectorySector /\ (s ∉ blocks (hdr (directoryFile fs)));
  so_dir_out : forall s, s ∈ blocks (hdr (directoryFile fs)) ->
    s <> FreeMapSector /\ s <> DirectorySector;
}.

(** The disk [d] holds the file system with directory [dir] and free map [b], in
    which the sectors [S] are taken: each by the system or by one file. *)
Record fs_inv fs d dir b S : Prop := {
  fi_disk : sd_ok d;
  fi_sys : sys_ok fs;
  fi_hdr_map : sd_sector d FreeMapSector = to_bytes (hdr (freeMapFile fs));
  fi_hdr_dir : sd_sector d DirectorySector = to_bytes (hdr (directoryFile fs));
  fi_owns : owns b NumSectors S;
  fi_map_stored : PBitmap.stored b d (freeMapFile fs);
  fi_dir_ok : Directory.dir_ok dir;
  fi_dir_size : Directory.tableSize dir = NumDirEntries;
  fi_dir_stored : Directory.stored dir d (directoryFile fs);
  fi_file k s : Directory.dir_map dir !! k = Some s ->
    file_ok (header d s) /\ (s ∉ blocks (header d s)) /\ own d s ## sys fs;
  fi_disjoint k k' s s' : Directory.dir_map dir !! k = Some s -> Directory.dir_map dir !! k' = Some s' ->
    k <> k' -> own d s ## own d s';
  fi_marks x : x ∈ S <-> x ∈ sys fs \/
    exists k s, Directory.dir_map dir !! k = Some s /\ x ∈ own d s;
}.

(** The files, by name, as their bytes. *)
Definition fs_files d dir : gmap (list Z) (list Z) :=
  (fun s => file_data d (header d s)) <$> Directory.dir_map dir.

(** The abstract state: what the files are, and how many sectors are free. *)
Definition fs_rep fs d (files : gmap (list Z) (list Z)) (free : Z) : Prop :=
  exists dir b S, fs_inv fs d dir b S /\ files = fs_files d dir /\
    free = NumSectors - Z.of_nat (size S).

Lemma elem_of_own d s x : x ∈ own d s <-> x = s \/ x ∈ blocks (header d s).
Proof. unfold own. set_solver. Qed.

Lemma own_range fs d dir b S k s x : fs_inv fs d dir b S ->
  Directory.dir_map dir !! k = Some s -> x ∈ own d s -> 0 <= x < NumSectors.
Proof.
  intros HI Hk Hx. eapply owns_range; [apply HI|]. apply (fi_marks _ _ _ _ _ HI). right. by exists k, s.
Qed.

Lemma sector_own d s : s ∈ own d s.
Proof. apply elem_of_own. by left. Qed.

(** What a file needs of the disk is its own sectors. *)
Lemma own_frame d d' s : (forall x, x ∈ own d s -> sd_sector d' x = sd_sector d x) ->
  header d' s = header d s /\ own d' s = own d s /\
  (file_ok (header d s) -> file_data d' (header d' s) = file_data d (header d s)).
Proof.
  intros Hs. assert (Hh : header d' s = header d s) by (unfold header; by rewrite Hs by apply sector_own).
  split; [done|]. split; [unfold own; by rewrite Hh|]. intros Hf. rewrite Hh. unfold file_data.
  f_equal. apply file_raw_ext; [done|]. intros x Hx. apply Hs, elem_of_own. by right.
Qed.

Lemma map_stored_frame b d d' f : file_ok (hdr f) ->
  (forall x, x ∈ blocks (hdr f) -> sd_sector d' x = sd_sector d x) ->
  PBitmap.stored b d f -> PBitmap.stored b d' f.
Proof. intros Hf Hs. unfold PBitmap.stored, file_data. by rewrite (file_raw_ext d d'). Qed.

Lemma dir_stored_frame dir d d' f : file_ok (hdr f) ->
  (forall x, x ∈ blocks (hdr f) -> sd_sector d' x = sd_sector d x) ->
  Directory.stored dir d f -> Directory.stored dir d' f.
Proof. intros Hf Hs. unfold Directory.stored, file_data. by rewrite (file_raw_ext d d'). Qed.

Lemma sys_elem fs x : x ∈ sys fs <-> x = FreeMapSector \/ x = DirectorySector \/
  x ∈ blocks (hdr (freeMapFile fs)) \/ x ∈ blocks (hdr (directoryFile fs)).
Proof. unfold sys. set_solver. Qed.

Lemma sys_range fs x : sys_ok fs -> x ∈ sys fs -> 0 <= x < NumSectors.
Proof.
  intros Hs. rewrite sys_elem. intros [-> | [-> | [Hx | Hx]]].
  - done.
  - done.
  - by apply (file_sectors _ (so_map fs Hs)).
  - by apply (file_sectors _ (so_dir fs Hs)).
Qed.

(** Reads change nothing. *)
Lemma fs_inv_same fs d d' dir b S : fs_inv fs d dir b S -> sd_ok d' -> same_sectors d d' ->
  fs_inv fs d' dir b S /\ fs_files d' dir = fs_files d dir.
Proof.
  intros HI Hd' Hsame. pose proof (fi_sys _ _ _ _ _ HI) as Hsys.
  assert (Hown : forall k s, Directory.dir_map dir !! k = Some s ->
    header d' s = header d s /\ own d' s = own d s /\
    (file_ok (header d s) -> file_data d' (header d' s) = file_data d (header d s))).
  { intros k s Hk. apply own_frame. intros x Hx. apply Hsame. by eapply own_range. }
  split.
  - destruct HI. constructor; try done.
    + by rewrite Hsame.
    + by rewrite Hsame.
    + eapply map_stored_frame; [apply Hsys| |done]. intros x Hx. by apply Hsame, (file_sectors _ (so_map fs Hsys)).
    + eapply dir_stored_frame; [apply Hsys| |done]. intros x Hx. by apply Hsame, (file_sectors _ (so_dir fs Hsys)).
    + intros k s Hk. destruct (Hown k s Hk) as (-> & -> & _). by apply (fi_file0 k).
    + intros k k' s s' Hk Hk' Hne. destruct (Hown k s Hk) as (_ & -> & _).
      destruct (Hown k' s' Hk') as (_ & -> & _). by apply (fi_disjoint0 k k').
    + intros x. rewrite fi_marks0. f_equiv. split; intros (k & s & Hk & Hx); exists k, s;
        destruct (Hown k s Hk) as (_ & E & _); [by rewrite E|by rewrite E in Hx].
  - unfold fs_files. apply map_fmap_ext. intros k s Hk.
    destruct (Hown k s Hk) as (_ & _ & Hdata). apply Hdata. by apply (fi_file _ _ _ _ _ HI k).
Qed.

Lemma owns_bitmap b S : owns b NumSectors S ->
  Bitmap.wf b /\ Bitmap.numBits b = NumSectors /\ Bitmap.numWords b * 4 = FreeMapFileSize.
Proof.
  intros (l & Hr & Hl & _). pose proof (Bitmap.Bitmap_rep_length b l Hr) as Hn.
  destruct Hr as [Hw _]. split; [done|]. split; [congruence|].
  destruct Hw as (_ & -> & _). by rewrite <- Hn, Hl.
Qed.

Lemma fetch_directory_ok junk fs d dir b S : fs_inv fs d dir b S -> (forall j, is_byte (junk j)) ->
  exists d', fetch_directory junk fs d = Ok (dir, d') /\ sd_ok d' /\ same_sectors d d'.
Proof.
  intros HI Hj. pose proof (fi_sys _ _ _ _ _ HI) as Hsys. unfold fetch_directory.
  destruct (Directory.new_Directory_ok junk NumDirEntries) as (dir0 & -> & Hd0 & _ & Hs0); [done|done|].
  cbn [rbind]. apply Directory.Directory_FetchFrom_ok; try done; try apply HI.
  - by rewrite (fi_dir_size _ _ _ _ _ HI).
  - unfold Length, FileLength. rewrite (so_dir_size fs Hsys), (fi_dir_size _ _ _ _ _ HI). done.
Qed.

Lemma fetch_map_ok junk fs d dir b S : fs_inv fs d dir b S ->
  exists d', PBitmap.new_PersistentBitmap_from junk (freeMapFile fs) NumSectors d = Ok (b, d') /\
    sd_ok d' /\ same_sectors d d'.
Proof.
  intros HI. pose proof (fi_sys _ _ _ _ _ HI) as Hsys.
  destruct (owns_bitmap _ _ (fi_owns _ _ _ _ _ HI)) as (Hw & Hn & Hb).
  unfold PBitmap.new_PersistentBitmap_from.
  destruct (Bitmap.new_Bitmap_ok junk NumSectors) as (b0 & -> & Hr0); [done|]. cbn [rbind].
  pose proof (Bitmap.Bitmap_rep_length _ _ Hr0) as Hn0. unfold zlen in Hn0.
  rewrite length_replicate in Hn0.
  apply PBitmap.PBitmap_FetchFrom_ok; try done; try apply HI.
  - apply Hr0.
  - rewrite <- Hn0, Hn. apply Z2Nat.id. done.
  - unfold Length, FileLength. rewrite (so_map_size fs Hsys), Hb. done.
Qed.

(** Both system files written back, in either order, on a disk where they were open. *)
Lemma flush_map junk fs d b S : sd_ok d -> sys_ok fs -> owns b NumSectors S ->
  (forall j, is_byte (junk j)) ->
  exists d', PBitmap.WriteBack junk b (freeMapFile fs) d = Ok d' /\ sd_ok d' /\
    PBitmap.stored b d' (freeMapFile fs) /\
    forall m, 0 <= m < NumSectors -> m ∉ blocks (hdr (freeMapFile fs)) ->
      sd_sector d' m = sd_sector d m.
Proof.
  intros Hd Hsys Ho Hj. destruct (owns_bitmap _ _ Ho) as (Hw & Hn & Hb).
  apply PBitmap.PBitmap_WriteBack_ok; try done; [apply Hsys|].
  unfold Length, FileLength. by rewrite (so_map_size fs Hsys), Hb.
Qed.

Lemma flush_dir junk fs d dir : sd_ok d -> sys_ok fs -> Directory.dir_ok dir ->
  Directory.tableSize dir = NumDirEntries -> (forall j, is_byte (junk j)) ->
  exists d', Directory.WriteBack junk dir (directoryFile fs) d = Ok d' /\ sd_ok d' /\
    Directory.stored dir d' (directoryFile fs) /\
    forall m, 0 <= m < NumSectors -> m ∉ blocks (hdr (directoryFile fs)) ->
      sd_sector d' m = sd_sector d m.
Proof.
  intros Hd Hsys Hdir Hs Hj. apply Directory.Directory_WriteBack_ok; try done; [apply Hsys|].
  unfold Length, FileLength. by rewrite (so_dir_size fs Hsys), Hs.
Qed.

(** ** The operations keep the invariant *)

(** The parts of the invariant that do not depend on the files. *)
Lemma sys_marked fs d dir b S x : fs_inv fs d dir b S -> x ∈ sys fs -> x ∈ S.
Proof. intros HI Hx. apply (fi_marks _ _ _ _ _ HI). by left. Qed.

Lemma own_marked fs d dir b S k s x : fs_inv fs d dir b S ->
  Directory.dir_map dir !! k = Some s -> x ∈ own d s -> x ∈ S.
Proof. intros HI Hk Hx. apply (fi_marks _ _ _ _ _ HI). right. by exists k, s. Qed.

(** A file all of whose sectors are unchanged. *)
Lemma file_kept fs d d' dir b S k s (X : gset Z) : fs_inv fs d dir b S ->
  Directory.dir_map dir !! k = Some s ->
  (forall m, 0 <= m < NumSectors -> m ∉ X -> sd_sector d' m = sd_sector d m) ->
  own d s ## X ->
  header d' s = header d s /\ own d' s = own d s /\
  file_data d' (header d' s) = file_data d (header d s).
Proof.
  intros HI Hk Hout Hdis. destruct (own_frame d d' s) as (Hh & Ho & Hdata).
  { intros x Hx. apply Hout; [by eapply own_range|set_solver]. }
  split; [done|]. split; [done|]. apply Hdata. by apply (fi_file _ _ _ _ _ HI k).
Qed.

(** The sectors both flushes may write. *)
Definition flushed fs : gset Z :=
  list_to_set (blocks (hdr (freeMapFile fs))) ∪ list_to_set (blocks (hdr (directoryFile fs))).

Lemma flushed_sys fs x : x ∈ flushed fs -> x ∈ sys fs.
Proof. unfold flushed. rewrite sys_elem. set_solver. Qed.

Lemma flushed_hdr fs : sys_ok fs -> (FreeMapSector ∉ flushed fs) /\ (DirectorySector ∉ flushed fs).
Proof.
  intros Hs. unfold flushed. rewrite !not_elem_of_union, !elem_of_list_to_set.
  pose proof (so_map_out fs Hs) as Hm. pose proof (so_dir_out fs Hs) as Hd.
  split; split; intros Hx; [by destruct (Hm _ Hx)|by destruct (Hd _ Hx)
    |by destruct (Hm _ Hx) as (_ & ? & _)|by destruct (Hd _ Hx)].
Qed.

Lemma disjoint_weaken (X Y Y' : gset Z) : X ## Y -> (forall x, x ∈ Y' -> x ∈ Y) -> X ## Y'.
Proof. set_solver. Qed.

Lemma flush_both junk fs d dir b S : sd_ok d -> sys_ok fs -> owns b NumSectors S ->
  Directory.dir_ok dir -> Directory.tableSize dir = NumDirEntries -> (forall j, is_byte (junk j)) ->
  (exists d1 d2, Directory.WriteBack junk dir (directoryFile fs) d = Ok d1 /\
     PBitmap.WriteBack junk b (freeMapFile fs) d1 = Ok d2 /\ sd_ok d2 /\
     PBitmap.stored b d2 (freeMapFile fs) /\ Directory.stored dir d2 (directoryFile fs) /\
     forall m, 0 <= m < NumSectors -> m ∉ flushed fs -> sd_sector d2 m = sd_sector d m) /\
  (exists d1 d2, PBitmap.WriteBack junk b (freeMapFile fs) d = Ok d1 /\
     Directory.WriteBack junk dir (directoryFile fs) d1 = Ok d2 /\ sd_ok d2 /\
     PBitmap.stored b d2 (freeMapFile fs) /\ Directory.stored dir d2 (directoryFile fs) /\
     forall m, 0 <= m < NumSectors -> m ∉ flushed fs -> sd_sector d2 m = sd_sector d m).
Proof.
  intros Hd Hsys Ho Hdir Hs Hj. pose proof (so_map_out fs Hsys) as Hmo.
  unfold flushed. setoid_rewrite not_elem_of_union. setoid_rewrite elem_of_list_to_set. split.
  - destruct (flush_dir junk fs d dir Hd Hsys Hdir Hs Hj) as (d1 & HW1 & Hd1 & Hst1 & Hout1).
    destruct (flush_map junk fs d1 b S Hd1 Hsys Ho Hj) as (d2 & HW2 & Hd2 & Hst2 & Hout2).
    exists d1, d2. split_and!; try done.
    + eapply dir_stored_frame; [apply Hsys| |exact Hst1]. intros x Hx. apply Hout2.
      * by apply (file_sectors _ (so_dir fs Hsys)).
      * intros Hm. by destruct (Hmo x Hm) as (_ & _ & ?).
    + intros m Hm [? ?]. by rewrite Hout2, Hout1.
  - destruct (flush_map junk fs d b S Hd Hsys Ho Hj) as (d1 & HW1 & Hd1 & Hst1 & Hout1).
    destruct (flush_dir junk fs d1 dir Hd1 Hsys Hdir Hs Hj) as (d2 & HW2 & Hd2 & Hst2 & Hout2).
    exists d1, d2. split_and!; try done.
    + eapply map_stored_frame; [apply Hsys| |exact Hst1]. intros x Hx. apply Hout2.
      * by apply (file_sectors _ (so_map fs Hsys)).
      * by destruct (Hmo x Hx) as (_ & _ & ?).
    + intros m Hm [? ?]. by rewrite Hout2, Hout1.
Qed.

(** The invariant of the file system a run of [Create] leaves. *)
Lemma create_inv fs d d' dir dir' b b' S k s h : fs_inv fs d dir b S ->
  0 <= s < NumSectors -> (s ∉ S) -> hdr_ok h -> NoDup (blocks h) ->
  (forall x, x ∈ blocks h -> 0 <= x < NumSectors /\ x ∉ {[ s ]} ∪ S) ->
  Directory.dir_ok dir' -> Directory.dir_map dir !! k = None ->
  Directory.dir_map dir' = <[k := s]> (Directory.dir_map dir) ->
  Directory.tableSize dir' = NumDirEntries ->
  owns b' NumSectors (list_to_set (blocks h) ∪ ({[ s ]} ∪ S)) ->
  sd_ok d' -> PBitmap.stored b' d' (freeMapFile fs) -> Directory.stored dir' d' (directoryFile fs) ->
  sd_sector d' s = to_bytes h ->
  (forall m, 0 <= m < NumSectors -> m ∉ {[ s ]} ∪ flushed fs -> sd_sector d' m = sd_sector d m) ->
  fs_inv fs d' dir' b' (list_to_set (blocks h) ∪ ({[ s ]} ∪ S)) /\
  fs_files d' dir' = <[k := file_data d' h]> (fs_files d dir).
Proof.
  intros HI Hs HsS Hh Hnd Hin Hdir' Hk Hmap Hsz Ho' Hd' Hst1 Hst2 Hsec Hout.
  pose proof (fi_sys _ _ _ _ _ HI) as Hsys. destruct (flushed_hdr fs Hsys) as [Hf0 Hf1].
  pose proof (sys_marked _ _ _ _ _ 0 HI) as Hm0. pose proof (sys_marked _ _ _ _ _ 1 HI) as Hm1.
  rewrite sys_elem in Hm0, Hm1.
  assert (Hhead : header d' s = h).
  { unfold header. rewrite Hsec. apply of_bytes_to_bytes; [done|].
    pose proof (hdr_bounds h Hh). unfold SectorSize in *. lia. }
  assert (Hold : forall k1 s1, Directory.dir_map dir !! k1 = Some s1 ->
    header d' s1 = header d s1 /\ own d' s1 = own d s1 /\
    file_data d' (header d' s1) = file_data d (header d s1)).
  { intros k1 s1 Hk1. eapply file_kept; [done|done|exact Hout|].
    destruct (fi_file _ _ _ _ _ HI k1 s1 Hk1) as (_ & _ & Hdis).
    apply elem_of_disjoint. intros x Hx [Hxs|Hxf]%elem_of_union.
    - apply elem_of_singleton in Hxs as ->. apply HsS. by eapply own_marked.
    - apply (elem_of_disjoint (own d s1) (sys fs)) with x; [done..|by apply flushed_sys]. }
  assert (Hnew : own d' s ## S).
  { apply elem_of_disjoint. intros x [->|Hx]%elem_of_own HxS; [done|]. rewrite Hhead in Hx.
    destruct (Hin x Hx) as [_ Hx']. set_solver. }
  split.
  - constructor; try done.
    + rewrite Hout by (done || set_solver by naive_solver). apply HI.
    + rewrite Hout by (done || set_solver by naive_solver). apply HI.
    + intros k1 s1. rewrite Hmap, lookup_insert_Some. intros [[<- <-]|[Hne Hk1]].
      * rewrite Hhead. split_and!.
        -- constructor; [done|done|]. intros x Hx. by destruct (Hin x Hx).
        -- intros Hx. destruct (Hin s Hx) as [_ ?]. set_solver.
        -- eapply disjoint_weaken; [exact Hnew|]. intros x Hx. by eapply sys_marked.
      * destruct (Hold k1 s1 Hk1) as (-> & -> & _). by apply (fi_file _ _ _ _ _ HI k1).
    + assert (Hsym : forall k1 s1, Directory.dir_map dir !! k1 = Some s1 -> own d' s ## own d' s1).
      { intros k1 s1 Hk1. destruct (Hold k1 s1 Hk1) as (_ & -> & _).
        eapply disjoint_weaken; [exact Hnew|]. intros x Hx. by eapply own_marked. }
      intros k1 k2 s1 s2. rewrite Hmap, !lookup_insert_Some.
      intros [[<- <-]|[Hne1 Hk1]] [[<- <-]|[Hne2 Hk2]] Hne; [done|by eapply Hsym|symmetry; by eapply Hsym|].
      destruct (Hold k1 s1 Hk1) as (_ & -> & _), (Hold k2 s2 Hk2) as (_ & -> & _).
      by apply (fi_disjoint _ _ _ _ _ HI k1 k2).
    + intros x. rewrite Hmap, !elem_of_union, elem_of_list_to_set, elem_of_singleton,
        (fi_marks _ _ _ _ _ HI x). split.
      * intros [Hx|[->|[Hx|(k1 & s1 & Hk1 & Hx)]]].
        -- right. exists k, s. rewrite lookup_insert_eq. split; [done|].
           apply elem_of_own. rewrite Hhead. by right.
        -- right. exists k, s. rewrite lookup_insert_eq. split; [done|]. apply sector_own.
        -- by left.
        -- right. exists k1, s1. rewrite lookup_insert_ne by congruence. split; [done|].
           by destruct (Hold k1 s1 Hk1) as (_ & -> & _).
      * intros [Hx|(k1 & s1 & Hk1 & Hx)]; [by right; right; left|].
        apply lookup_insert_Some in Hk1 as [[<- <-]|[Hne Hk1]].
        -- apply elem_of_own in Hx as [->|Hx]; [by right; left|]. rewrite Hhead in Hx. by left.
        -- right. right. right. exists k1, s1. split; [done|].
           by destruct (Hold k1 s1 Hk1) as (_ & <- & _).
  - unfold fs_files. rewrite Hmap, fmap_insert, Hhead. f_equal. apply map_fmap_ext.
    intros k1 s1 Hk1. by destruct (Hold k1 s1 Hk1) as (_ & _ & ?).
Qed.

Lemma size_insert_sector (s : Z) S : (s ∉ S) -> Z.of_nat (size ({[ s ]} ∪ S)) = 1 + Z.of_nat (size S).
Proof. intros Hs. rewrite size_union by set_solver. rewrite size_singleton. lia. Qed.

(** The steps of [Create] once the name is known to be new. *)
Lemma create_steps junk fs nm initialSize d dir b S : fs_inv fs d dir b S ->
  (forall j, is_byte (junk j)) -> Forall is_byte nm -> 0 <= initialSize <= MaxFileSize ->
  let k := Directory.key nm in
  let need := 1 + divRoundUp initialSize SectorSize in
  let free := NumSectors - Z.of_nat (size S) in
  Directory.dir_map dir !! k = None -> Z.of_nat (size (Directory.dir_map dir)) < NumDirEntries ->
  need <= free ->
  exists s b1 dir' h b' d1 d2 d3, ba_FindAndSet b = Ok (s, b1) /\ (s =? -1) = false /\
    Directory.Add dir nm s = Ok (true, dir') /\
    Allocate (new_FileHeader junk) b1 initialSize = Ok (true, h, b') /\
    WriteBack h s d = Ok d1 /\ Directory.WriteBack junk dir' (directoryFile fs) d1 = Ok d2 /\
    PBitmap.WriteBack junk b' (freeMapFile fs) d2 = Ok d3 /\
    exists S', fs_inv fs d3 dir' b' S' /\ NumSectors - Z.of_nat (size S') = free - need /\
      exists content, zlen content = initialSize /\
        fs_files d3 dir' = <[k := content]> (fs_files d dir).
Proof.
  intros HI Hj Hnm Hsize k need free Hk Hroom Hneed. pose proof (fi_sys _ _ _ _ _ HI) as Hsys.
  pose proof (divRoundUp_spec initialSize SectorSize ltac:(lia) ltac:(done)) as Hdr.
  assert (Hkd : divRoundUp initialSize SectorSize <= NumDirect).
  { unfold MaxFileSize in Hsize. rewrite NumDirect_eq in *. unfold SectorSize in *. lia. }
  destruct (owns_FindAndSet _ _ _ (fi_owns _ _ _ _ _ HI)) as [(s & b1 & HF & Hs & HsS & Ho1)|[Hfull _]].
  2: { unfold free, need, SectorSize in *. lia. }
  assert (Hs32 : is_s32 s) by (unfold is_s32, NumSectors, SectorsPerTrack, NumTracks in *; lia).
  destruct (Directory.Directory_Add_ok dir nm s (fi_dir_ok _ _ _ _ _ HI) Hnm Hs32) as [Hadd _].
  destruct Hadd as (dir' & HA & Hdir' & Hmap & Hsz & _).
  { rewrite (fi_dir_size _ _ _ _ _ HI). done. }
  rewrite (fi_dir_size _ _ _ _ _ HI) in Hsz.
  destruct (new_FileHeader_ok junk) as [Ht Hints].
  destruct (Allocate_ok (new_FileHeader junk) b1 NumSectors ({[ s ]} ∪ S) initialSize Ho1 Ht
    ltac:(lia) Hints ltac:(lia)) as (Hal & _ & _).
  destruct Hal as (h & b' & HAl & Hh & Hnb & Hnd & Hin & Ho'); [|done|].
  { rewrite size_insert_sector by done. unfold free, need in *. lia. }
  destruct (WriteBack_ok h d s Hh (fi_disk _ _ _ _ _ HI) Hs) as (d1 & HW1 & Hd1 & Hout1).
  destruct (flush_both junk fs d1 dir' b' _ Hd1 Hsys Ho' Hdir' Hsz Hj) as
    [(d2 & d3 & HW2 & HW3 & Hd3 & Hst1 & Hst2 & Hout3) _].
  assert (Hsf : s ∉ flushed fs) by (intros Hx; by apply HsS, (sys_marked _ _ _ _ _ _ HI), flushed_sys).
  destruct (create_inv fs d d3 dir dir' b b' S k s h HI Hs HsS Hh Hnd Hin Hdir' Hk Hmap Hsz Ho' Hd3
    Hst1 Hst2) as [HI' Hfiles].
  { by rewrite Hout3, Hout1, decide_True. }
  { intros m Hm Hnin. rewrite Hout3, Hout1 by (done || set_solver). rewrite decide_False; [done|].
    set_solver. }
  assert (Hf : file_ok h) by (constructor; [done|done|intros x Hx; by destruct (Hin x Hx)]).
  exists s, b1, dir', h, b', d1, d2, d3. split_and!; try done; [apply Z.eqb_neq; lia|].
  eexists. split; [exact HI'|]. split.
  - rewrite (size_list_to_set_union _ _ Hnd (fun x Hx => proj2 (Hin x Hx))).
    pose proof (length_blocks h Hh) as Hl. rewrite (hdr_sectors h Hh), Hnb in Hl. unfold zlen in Hl.
    rewrite Nat2Z.inj_add, size_insert_sector by done. unfold free, need. lia.
  - exists (file_data d3 h). split; [|done]. rewrite (length_file_data d3 h Hd3 Hf). done.
Qed.

Lemma found_sector fs d dir b S k s : fs_inv fs d dir b S ->
  Directory.dir_map dir !! k = Some s -> 0 <= s < NumSectors.
Proof. intros HI Hk. eapply own_range; [done|done|]. apply sector_own. Qed.

Lemma FileSys_Create_ok junk fs nm initialSize d dir b S : fs_inv fs d dir b S ->
  (forall j, is_byte (junk j)) -> Forall is_byte nm -> 0 <= initialSize ->
  let k := Directory.key nm in
  let need := 1 + divRoundUp initialSize SectorSize in
  let free := NumSectors - Z.of_nat (size S) in
  let room := Directory.dir_map dir !! k = None /\
              Z.of_nat (size (Directory.dir_map dir)) < NumDirEntries /\ need <= free in
  (room -> initialSize <= MaxFileSize -> exists d' dir' b' S', Create junk fs nm initialSize d = Ok (true, d') /\
     fs_inv fs d' dir' b' S' /\ NumSectors - Z.of_nat (size S') = free - need /\
     exists content, zlen content = initialSize /\
       fs_files d' dir' = <[k := content]> (fs_files d dir)) /\
  (~ room -> exists d', Create junk fs nm initialSize d = Ok (false, d') /\ sd_ok d' /\
     same_sectors d d') /\
  (room -> MaxFileSize < initialSize -> Create junk fs nm initialSize d = Fault OutOfBounds).
Proof.
  intros HI Hj Hnm Hsize k need free room. unfold Create.
  destruct (fetch_directory_ok junk fs d dir b S HI Hj) as (d1 & -> & Hd1 & Hs1). cbn [rbind].
  rewrite (Directory.Directory_Find_ok dir nm (fi_dir_ok _ _ _ _ _ HI)). cbn [rbind]. fold k.
  destruct (fs_inv_same fs d d1 dir b S HI Hd1 Hs1) as [HI1 Hfiles1].
  destruct (Directory.dir_map dir !! k) as [s0|] eqn:Hk; cbn [default from_option id].
  { pose proof (found_sector _ _ _ _ _ _ _ HI Hk). rewrite (proj2 (Z.eqb_neq _ _)) by lia.
    cbn [negb]. split; [by intros (? & _)|]. split; [intros _; by exists d1|by intros (? & _)]. }
  change (negb (-1 =? -1)) with false. cbv iota.
  destruct (fetch_map_ok junk fs d1 dir b S HI1) as (d2 & -> & Hd2 & Hs2). cbn [rbind].
  destruct (fs_inv_same fs d1 d2 dir b S HI1 Hd2 Hs2) as [HI2 Hfiles2].
  assert (Hs02 : same_sectors d d2) by (by eapply same_sectors_trans).
  assert (Hadd : forall s, 0 <= s < NumSectors -> _) by
    (intros s Hs; exact (Directory.Directory_Add_ok dir nm s (fi_dir_ok _ _ _ _ _ HI) Hnm
       ltac:(unfold is_s32, NumSectors, SectorsPerTrack, NumTracks in *; lia))).
  rewrite (fi_dir_size _ _ _ _ _ HI) in Hadd. destruct (new_FileHeader_ok junk) as [Ht Hints].
  split_and!.
  - intros (_ & Hroom & Hneed) Hmax.
    destruct (create_steps junk fs nm initialSize d2 dir b S HI2 Hj Hnm (conj Hsize Hmax) Hk Hroom Hneed) as
      (s & b1 & dir' & h & b' & e1 & e2 & e3 & -> & Hs & HA & HAl & HW1 & HW2 & HW3 & S' & HI' & Hfree & Hc).
    cbn [rbind]. rewrite Hs, HA. cbn [rbind negb]. rewrite HAl. cbn [rbind negb].
    rewrite HW1. cbn [rbind]. rewrite HW2. cbn [rbind]. rewrite HW3. cbn [rbind].
    exists e3, dir', b', S'. split_and!; try done. destruct Hc as (c & Hc1 & Hc2). exists c.
    split; [done|]. by rewrite Hc2, Hfiles2, Hfiles1.
  - intros Hno.
    destruct (owns_FindAndSet _ _ _ (fi_owns _ _ _ _ _ HI)) as [(s & b1 & -> & Hs & HsS & Ho1)|[Hfull ->]];
      cbn [rbind]; [|by exists d2].
    rewrite (proj2 (Z.eqb_neq _ _)) by lia. destruct (Hadd s Hs) as [Hyes Hfail].
    destruct (decide (Z.of_nat (size (Directory.dir_map dir)) < NumDirEntries)) as [Hroom|Hroom].
    2: { rewrite Hfail by naive_solver. by exists d2. }
    destruct (Hyes (conj Hk Hroom)) as (dir' & -> & _). cbn [rbind negb].
    destruct (Allocate_ok (new_FileHeader junk) b1 NumSectors ({[ s ]} ∪ S) initialSize Ho1 Ht
      ltac:(lia) Hints ltac:(lia)) as (_ & Hal & _).
    rewrite size_insert_sector in Hal by done. destruct Hal as (h & ->); [|by exists d2].
    destruct (decide (need <= free)); [exfalso; apply Hno; by split_and!|].
    unfold free, need in *. lia.
  - intros (_ & Hroom & Hneed) Hmax.
    pose proof (divRoundUp_spec initialSize SectorSize Hsize ltac:(done)) as Hdiv.
    destruct (owns_FindAndSet _ _ _ (fi_owns _ _ _ _ _ HI)) as [(s & b1 & -> & Hs & HsS & Ho1)|[Hfull _]];
      cbn [rbind].
    2: { unfold need, free, SectorSize in *. lia. }
    rewrite (proj2 (Z.eqb_neq _ _)) by lia.
    destruct (proj1 (Hadd s Hs) (conj Hk Hroom)) as (dir' & -> & _). cbn [rbind negb].
    destruct (Allocate_ok (new_FileHeader junk) b1 NumSectors ({[ s ]} ∪ S) initialSize Ho1 Ht
      ltac:(lia) Hints ltac:(lia)) as (_ & _ & ->); [done|].
    rewrite size_insert_sector by done. unfold need, free, MaxFileSize, SectorSize in *. lia.
Qed.

(** The invariant of the file system a run of [Remove] leaves. *)
Lemma remove_inv fs d d' dir dir' b b' S k s : fs_inv fs d dir b S ->
  Directory.dir_map dir !! k = Some s -> Directory.dir_ok dir' ->
  Directory.dir_map dir' = delete k (Directory.dir_map dir) ->
  Directory.tableSize dir' = NumDirEntries ->
  owns b' NumSectors (S ∖ own d s) -> sd_ok d' ->
  PBitmap.stored b' d' (freeMapFile fs) -> Directory.stored dir' d' (directoryFile fs) ->
  (forall m, 0 <= m < NumSectors -> m ∉ flushed fs -> sd_sector d' m = sd_sector d m) ->
  fs_inv fs d' dir' b' (S ∖ own d s) /\ fs_files d' dir' = delete k (fs_files d dir).
Proof.
  intros HI Hk Hdir' Hmap Hsz Ho' Hd' Hst1 Hst2 Hout.
  pose proof (fi_sys _ _ _ _ _ HI) as Hsys. destruct (flushed_hdr fs Hsys) as [Hf0 Hf1].
  assert (Hold : forall k1 s1, Directory.dir_map dir !! k1 = Some s1 ->
    header d' s1 = header d s1 /\ own d' s1 = own d s1 /\
    file_data d' (header d' s1) = file_data d (header d s1)).
  { intros k1 s1 Hk1. eapply file_kept; [done|done|exact Hout|].
    destruct (fi_file _ _ _ _ _ HI k1 s1 Hk1) as (_ & _ & Hdis).
    eapply disjoint_weaken; [exact Hdis|]. intros x. apply flushed_sys. }
  split.
  - constructor; try done.
    + rewrite Hout by done. apply HI.
    + rewrite Hout by done. apply HI.
    + intros k1 s1. rewrite Hmap, lookup_delete_Some. intros [Hne Hk1].
      destruct (Hold k1 s1 Hk1) as (-> & -> & _). by apply (fi_file _ _ _ _ _ HI k1).
    + intros k1 k2 s1 s2. rewrite Hmap, !lookup_delete_Some. intros [_ Hk1] [_ Hk2] Hne.
      destruct (Hold k1 s1 Hk1) as (_ & -> & _), (Hold k2 s2 Hk2) as (_ & -> & _).
      by apply (fi_disjoint _ _ _ _ _ HI k1 k2).
    + intros x. rewrite Hmap, elem_of_difference, (fi_marks _ _ _ _ _ HI x). split.
      * intros [[Hx|(k1 & s1 & Hk1 & Hx)] Hnx]; [by left|]. right. exists k1, s1.
        destruct (Hold k1 s1 Hk1) as (_ & -> & _). split; [|done].
        apply lookup_delete_Some. split; [|done]. intros ->. congruence.
      * intros [Hx|(k1 & s1 & Hk1 & Hx)].
        -- split; [by left|]. intros Hxs. destruct (fi_file _ _ _ _ _ HI k s Hk) as (_ & _ & Hdis).
           by apply (elem_of_disjoint (own d s) (sys fs)) with x.
        -- apply lookup_delete_Some in Hk1 as [Hne Hk1].
           destruct (Hold k1 s1 Hk1) as (_ & E & _). rewrite E in Hx.
           split; [right; by exists k1, s1|]. intros Hxs.
           pose proof (fi_disjoint _ _ _ _ _ HI k k1 s s1 Hk Hk1 Hne) as Hdis.
           by apply (elem_of_disjoint (own d s) (own d s1)) with x.
  - unfold fs_files. rewrite Hmap, fmap_delete. f_equal. apply map_fmap_ext.
    intros k1 s1 Hk1. by destruct (Hold k1 s1 Hk1) as (_ & _ & ?).
Qed.

Lemma size_own d s : hdr_ok (header d s) -> NoDup (blocks (header d s)) ->
  (s ∉ blocks (header d s)) ->
  Z.of_nat (size (own d s)) = 1 + divRoundUp (numBytes (header d s)) SectorSize.
Proof.
  intros Hh Hnd Hs. unfold own. rewrite size_insert_sector by (by rewrite elem_of_list_to_set).
  rewrite size_list_to_set by done. rewrite <- (hdr_sectors _ Hh), <- (length_blocks _ Hh). done.
Qed.

Lemma FileSys_Remove_ok junk fs nm d dir b S : fs_inv fs d dir b S -> (forall j, is_byte (junk j)) ->
  let k := Directory.key nm in
  match Directory.dir_map dir !! k with
  | None => exists d', Remove junk fs nm d = Ok (false, d') /\ sd_ok d' /\ same_sectors d d'
  | Some s => exists d' dir' b' S', Remove junk fs nm d = Ok (true, d') /\ fs_inv fs d' dir' b' S' /\
      fs_files d' dir' = delete k (fs_files d dir) /\
      Z.of_nat (size S') = Z.of_nat (size S) - (1 + divRoundUp (numBytes (header d s)) SectorSize)
  end.
Proof.
  intros HI Hj k. unfold Remove. pose proof (fi_sys _ _ _ _ _ HI) as Hsys.
  destruct (fetch_directory_ok junk fs d dir b S HI Hj) as (d1 & -> & Hd1 & Hs1). cbn [rbind].
  rewrite (Directory.Directory_Find_ok dir nm (fi_dir_ok _ _ _ _ _ HI)). cbn [rbind]. fold k.
  destruct (fs_inv_same fs d d1 dir b S HI Hd1 Hs1) as [HI1 Hfiles1].
  destruct (Directory.dir_map dir !! k) as [s|] eqn:Hk; cbn [default from_option id];
    [|by exists d1].
  pose proof (found_sector _ _ _ _ _ _ _ HI Hk) as Hs. rewrite (proj2 (Z.eqb_neq _ _)) by lia.
  destruct (FetchFrom_ok d1 s Hd1 Hs) as (d2 & -> & Hd2 & Hs2). cbn [rbind].
  destruct (fs_inv_same fs d1 d2 dir b S HI1 Hd2 Hs2) as [HI2 Hfiles2].
  rewrite Hs1 by done. fold (header d s).
  destruct (fetch_map_ok junk fs d2 dir b S HI2) as (d3 & -> & Hd3 & Hs3). cbn [rbind].
  destruct (fs_inv_same fs d2 d3 dir b S HI2 Hd3 Hs3) as [HI3 Hfiles3].
  assert (Hs03 : same_sectors d d3) by (eapply same_sectors_trans; [exact Hs1|];
    by eapply same_sectors_trans).
  destruct (fi_file _ _ _ _ _ HI k s Hk) as (Hf & Hsb & Hdis).
  destruct (deallocate_loop_ok (header d s) b NumSectors S (fi_owns _ _ _ _ _ HI) (file_hdr _ Hf)
    (file_distinct _ Hf)) as (b1 & -> & Ho1).
  { intros x Hx. apply (own_marked fs d dir b S k s x HI Hk), elem_of_own. by right. }
  cbn [rbind]. destruct (owns_Clear b1 NumSectors _ s Ho1 Hs) as (b2 & -> & Ho2). cbn [rbind].
  replace (S ∖ list_to_set (blocks (header d s)) ∖ {[s]}) with (S ∖ own d s) in Ho2
    by (unfold own; set_solver).
  pose proof (Directory.Directory_Remove_ok dir nm (fi_dir_ok _ _ _ _ _ HI)) as HR. fold k in HR.
  rewrite Hk in HR. destruct HR as (dir' & -> & Hdir' & Hmap & Hsz). cbn [rbind].
  rewrite (fi_dir_size _ _ _ _ _ HI) in Hsz.
  destruct (flush_both junk fs d3 dir' b2 _ Hd3 Hsys Ho2 Hdir' Hsz Hj) as
    [_ (d4 & d5 & -> & HW5 & Hd5 & Hst1 & Hst2 & Hout)]. cbn [rbind]. rewrite HW5. cbn [rbind].
  destruct (own_frame d d3 s) as (_ & Hown3 & _); 
    [intros x Hx; apply Hs03, (own_range fs d dir b S k s x HI Hk Hx)|].
  rewrite <- Hown3 in Ho2.
  destruct (remove_inv fs d3 d5 dir dir' b b2 S k s HI3 Hk Hdir' Hmap Hsz Ho2 Hd5 Hst1 Hst2 Hout)
    as [HI' Hfiles'].
  exists d5, dir', b2, (S ∖ own d3 s). split_and!; try done.
  - by rewrite Hfiles', Hfiles3, Hfiles2, Hfiles1.
  - rewrite Hown3, size_difference.
    + pose proof (size_own d s (file_hdr _ Hf) (file_distinct _ Hf) Hsb) as Hso.
      assert (size (own d s) <= size S)%nat by (apply subseteq_size; intros x; apply (own_marked fs d dir b S k s x HI Hk)).
      lia.
    + intros x. apply (own_marked fs d dir b S k s x HI Hk).
Qed.

(** [Open] finds the header of the file. *)
Lemma FileSys_Open_ok junk fs nm d dir b S : fs_inv fs d dir b S -> (forall j, is_byte (junk j)) ->
  exists d', Open junk fs nm d = Ok (
      (fun s => mkOpenFile (header d s) 0 None None) <$> Directory.dir_map dir !! Directory.key nm, d') /\
    sd_ok d' /\ same_sectors d d'.
Proof.
  intros HI Hj. unfold Open.
  destruct (fetch_directory_ok junk fs d dir b S HI Hj) as (d1 & -> & Hd1 & Hs1). cbn [rbind].
  rewrite (Directory.Directory_Find_ok dir nm (fi_dir_ok _ _ _ _ _ HI)). cbn [rbind].
  destruct (Directory.dir_map dir !! Directory.key nm) as [s|] eqn:Hk; cbn [default from_option id].
  - pose proof (found_sector _ _ _ _ _ _ _ HI Hk) as Hs. rewrite (proj2 (Z.leb_le _ _)) by lia.
    destruct (new_OpenFile_ok d1 s Hd1 Hs) as (d2 & -> & Hd2 & Hs2). cbn [rbind]. exists d2.
    split_and!; [|done|by eapply same_sectors_trans]. rewrite Hs1 by done. done.
  - by exists d1.
Qed.

(** Writing the sectors of one file keeps the file system and the other files. *)
Lemma file_write_inv fs d d' dir b S k s : fs_inv fs d dir b S ->
  Directory.dir_map dir !! k = Some s -> sd_ok d' ->
  (forall m, 0 <= m < NumSectors -> m ∉ blocks (header d s) -> sd_sector d' m = sd_sector d m) ->
  fs_inv fs d' dir b S /\ header d' s = header d s /\
  fs_files d' dir = <[k := file_data d' (header d s)]> (fs_files d dir).
Proof.
  intros HI Hk Hd' Hout. pose proof (fi_sys _ _ _ _ _ HI) as Hsys.
  destruct (fi_file _ _ _ _ _ HI k s Hk) as (Hf & Hsb & Hdis).
  assert (Hsysout : forall x, x ∈ sys fs -> sd_sector d' x = sd_sector d x).
  { intros x Hx. apply Hout; [by eapply sys_range|]. intros Hb.
    apply (elem_of_disjoint (own d s) (sys fs)) with x; [done| |done]. apply elem_of_own. by right. }
  assert (Hself : header d' s = header d s).
  { unfold header. by rewrite Hout by (done || by eapply found_sector). }
  assert (Hold : forall k1 s1, Directory.dir_map dir !! k1 = Some s1 ->
    header d' s1 = header d s1 /\ own d' s1 = own d s1 /\
    (k1 <> k -> file_data d' (header d' s1) = file_data d (header d s1))).
  { intros k1 s1 Hk1. destruct (decide (k1 = k)) as [->|Hne].
    - rewrite Hk in Hk1. injection Hk1 as <-. split; [done|]. split; [|done].
      unfold own. by rewrite Hself.
    - destruct (file_kept fs d d' dir b S k1 s1 (list_to_set (blocks (header d s))) HI Hk1) as (? & ? & ?).
      + intros m Hm Hnin. apply Hout; set_solver.
      + eapply disjoint_weaken; [by apply (fi_disjoint _ _ _ _ _ HI k1 k s1 s)|].
        intros x. rewrite elem_of_list_to_set, elem_of_own. by right.
      + done. }
  split; [|split; [done|]].
  - constructor; try done; try apply HI.
    + rewrite Hsysout; [apply HI|]. apply sys_elem. by left.
    + rewrite Hsysout; [apply HI|]. apply sys_elem. by right; left.
    + eapply map_stored_frame; [apply Hsys| |apply HI]. intros x Hx. apply Hsysout, sys_elem. tauto.
    + eapply dir_stored_frame; [apply Hsys| |apply HI]. intros x Hx. apply Hsysout, sys_elem. tauto.
    + intros k1 s1 Hk1. destruct (Hold k1 s1 Hk1) as (-> & -> & _). by apply (fi_file _ _ _ _ _ HI k1).
    + intros k1 k2 s1 s2 Hk1 Hk2 Hne. destruct (Hold k1 s1 Hk1) as (_ & -> & _).
      destruct (Hold k2 s2 Hk2) as (_ & -> & _). by apply (fi_disjoint _ _ _ _ _ HI k1 k2).
    + intros x. rewrite (fi_marks _ _ _ _ _ HI x). f_equiv.
      split; intros (k1 & s1 & Hk1 & Hx); exists k1, s1;
        destruct (Hold k1 s1 Hk1) as (_ & E & _); [by rewrite E|by rewrite E in Hx].
  - apply map_eq. intros k1. unfold fs_files. destruct (decide (k1 = k)) as [->|Hne].
    + rewrite lookup_insert_eq, lookup_fmap, Hk. cbn. by rewrite Hself.
    + rewrite lookup_insert_ne, !lookup_fmap by done.
      destruct (Directory.dir_map dir !! k1) as [s1|] eqn:Hk1; [|done]. cbn. f_equal.
      by apply (Hold k1 s1 Hk1).
Qed.

(** ** Formatting and opening the file system *)

Lemma marked_blank n : marked (replicate n false) = ∅.
Proof.
  apply set_eq. intros s. rewrite elem_of_marked. split; [|set_solver].
  by intros [_ [? _]%lookup_replicate].
Qed.

Lemma sys_sectors : 0 <= FreeMapSector < NumSectors /\ 0 <= DirectorySector < NumSectors.
Proof. done. Qed.

Lemma sys_sizes : 0 <= FreeMapFileSize /\ 0 <= DirectoryFileSize /\
  divRoundUp FreeMapFileSize SectorSize = 1 /\ divRoundUp DirectoryFileSize SectorSize = 2.
Proof. done. Qed.

Lemma blank_map junk : exists b, PBitmap.new_PersistentBitmap junk NumSectors = Ok b /\
  owns b NumSectors ∅.
Proof.
  destruct (Bitmap.new_Bitmap_ok junk NumSectors) as (b & Hb & Hr); [done|]. exists b.
  split; [exact Hb|]. eexists. split; [exact Hr|]. split; [|apply marked_blank].
  unfold zlen. rewrite length_replicate. by apply Z2Nat.id.
Qed.

Lemma of_header_sector d h n : file_ok h -> sd_sector d n = to_bytes h -> header d n = h.
Proof.
  intros Hf Hn. unfold header. rewrite Hn. apply of_bytes_to_bytes; [apply Hf|].
  pose proof (hdr_bounds h (file_hdr h Hf)). unfold SectorSize in *. lia.
Qed.

(** Opening the two system files. *)
Lemma open_system d h0 h1 : sd_ok d -> file_ok h0 -> file_ok h1 ->
  sd_sector d FreeMapSector = to_bytes h0 -> sd_sector d DirectorySector = to_bytes h1 ->
  exists d1 d2, new_OpenFile FreeMapSector d = Ok (mkOpenFile h0 0 None None, d1) /\
    new_OpenFile DirectorySector d1 = Ok (mkOpenFile h1 0 None None, d2) /\
    sd_ok d2 /\ same_sectors d d2.
Proof.
  intros Hd Hf0 Hf1 E0 E1.
  destruct sys_sectors as [R0 R1].
  destruct (new_OpenFile_ok d FreeMapSector Hd R0) as (d1 & HO1 & Hd1 & Hs1).
  destruct (new_OpenFile_ok d1 DirectorySector Hd1 R1) as (d2 & HO2 & Hd2 & Hs2).
  fold (header d FreeMapSector) in HO1. rewrite (of_header_sector d h0 _ Hf0 E0) in HO1.
  fold (header d1 DirectorySector) in HO2.
  rewrite (of_header_sector d1 h1 _ Hf1) in HO2 by (rewrite (Hs1 _ R1); exact E1).
  exists d1, d2. split_and!; [exact HO1|exact HO2|exact Hd2|by eapply same_sectors_trans].
Qed.

(** The free map and the two headers of a formatted disk. *)
Lemma format_map junk : exists b0 b1 b2 h0 h1 b3 b4,
  PBitmap.new_PersistentBitmap junk NumSectors = Ok b0 /\
  ba_Mark b0 FreeMapSector = Ok b1 /\ ba_Mark b1 DirectorySector = Ok b2 /\
  Allocate (new_FileHeader junk) b2 FreeMapFileSize = Ok (true, h0, b3) /\
  Allocate (new_FileHeader junk) b3 DirectoryFileSize = Ok (true, h1, b4) /\
  let fs := mkFileSystem (mkOpenFile h0 0 None None) (mkOpenFile h1 0 None None) in
  sys_ok fs /\ owns b4 NumSectors (sys fs) /\ Z.of_nat (size (sys fs)) = 5.
Proof.
  destruct (blank_map junk) as (b0 & H0' & Ho0).
  destruct (owns_Mark b0 _ _ FreeMapSector Ho0 (proj1 sys_sectors)) as (b1 & H1 & Ho1).
  destruct (owns_Mark b1 _ _ DirectorySector Ho1 (proj2 sys_sectors)) as (b2 & H2 & Ho2).
  destruct (new_FileHeader_ok junk) as [Ht Hints].
  destruct (Allocate_ok (new_FileHeader junk) b2 NumSectors _ FreeMapFileSize Ho2 Ht
    (proj1 sys_sizes) Hints ltac:(lia)) as (Hal0 & _ & _).
  destruct Hal0 as (h0 & b3 & HA0 & Hh0 & Hn0 & Hnd0 & Hin0 & Ho3); [vm_compute; congruence|vm_compute; congruence|].
  assert (Hs3 : size (list_to_set (blocks h0) ∪ ({[DirectorySector]} ∪ ({[FreeMapSector]} ∪ ∅)) : gset Z)
    = 3%nat).
  { rewrite (size_list_to_set_union _ _ Hnd0 (fun x Hx => proj2 (Hin0 x Hx))).
    pose proof (length_blocks h0 Hh0) as Hl. rewrite (hdr_sectors h0 Hh0), Hn0 in Hl.
    rewrite (proj1 (proj2 (proj2 sys_sizes))) in Hl. unfold zlen in Hl.
    replace (length (blocks h0)) with 1%nat by lia. by vm_compute. }
  destruct (Allocate_ok (new_FileHeader junk) b3 NumSectors _ DirectoryFileSize Ho3 Ht
    (proj1 (proj2 sys_sizes)) Hints ltac:(lia)) as (Hal1 & _ & _).
  destruct Hal1 as (h1 & b4 & HA1 & Hh1 & Hn1 & Hnd1 & Hin1 & Ho4);
    [rewrite Hs3; vm_compute; congruence|vm_compute; congruence|].
  exists b0, b1, b2, h0, h1, b3, b4. do 5 (split; [assumption|]). cbv zeta.
  set (fs := mkFileSystem _ _).
  assert (Hsys : sys fs = list_to_set (blocks h1) ∪
    (list_to_set (blocks h0) ∪ ({[DirectorySector]} ∪ ({[FreeMapSector]} ∪ ∅)))).
  { unfold sys, fs. cbn [freeMapFile directoryFile hdr]. apply set_eq. intros x.
    rewrite !elem_of_union, !elem_of_singleton, elem_of_empty. tauto. }
  split; [|split; [rewrite Hsys; exact Ho4|]].
  - constructor; cbn [freeMapFile directoryFile hdr fs].
    + constructor; [exact Hh0|exact Hnd0|]. intros x Hx. apply (Hin0 x Hx).
    + exact Hn0.
    + constructor; [exact Hh1|exact Hnd1|]. intros x Hx. apply (Hin1 x Hx).
    + exact Hn1.
    + intros x Hx. pose proof (proj2 (Hin0 x Hx)) as Hx0.
      rewrite !not_elem_of_union, !not_elem_of_singleton in Hx0. split; [tauto|]. split; [tauto|].
      intros Hx1. pose proof (proj2 (Hin1 x Hx1)) as Hx2.
      rewrite !not_elem_of_union, elem_of_list_to_set in Hx2. tauto.
    + intros x Hx. pose proof (proj2 (Hin1 x Hx)) as Hx0.
      rewrite !not_elem_of_union, !not_elem_of_singleton in Hx0. tauto.
  - rewrite Hsys, (size_list_to_set_union _ _ Hnd1 (fun x Hx => proj2 (Hin1 x Hx))), Hs3.
    pose proof (length_blocks h1 Hh1) as Hl. rewrite (hdr_sectors h1 Hh1), Hn1 in Hl.
    rewrite (proj2 (proj2 (proj2 sys_sizes))) in Hl. unfold zlen in Hl. lia.
Qed.

Lemma format_ok junk d : sd_ok d -> (forall j, is_byte (junk j)) ->
  exists fs d' dir b, new_FileSystem junk true d = Ok (fs, d') /\ fs_inv fs d' dir b (sys fs) /\
    fs_files d' dir = ∅ /\ Z.of_nat (size (sys fs)) = 5.
Proof.
  intros Hd Hj.
  destruct (format_map junk) as (b0 & b1 & b2 & h0 & h1 & b3 & b4 & E0 & E1 & E2 & E3 & E4 & Hsys & Ho & Hsz).
  set (fs := mkFileSystem _ _) in *.
  destruct (Directory.new_Directory_ok junk NumDirEntries) as (dir & E5 & Hdir & Hmap & Hds);
    [unfold NumDirEntries; lia|exact Hj|].
  destruct sys_sectors as [R0 R1].
  destruct (WriteBack_ok h0 d FreeMapSector (file_hdr _ (so_map _ Hsys)) Hd R0)
    as (d1 & E6 & Hd1 & Hout1).
  destruct (WriteBack_ok h1 d1 DirectorySector (file_hdr _ (so_dir _ Hsys)) Hd1 R1)
    as (d2 & E7 & Hd2 & Hout2).
  assert (S0 : sd_sector d2 FreeMapSector = to_bytes h0).
  { rewrite (Hout2 _ R0), decide_False by discriminate. rewrite (Hout1 _ R0).
    apply decide_True. reflexivity. }
  assert (S1 : sd_sector d2 DirectorySector = to_bytes h1).
  { rewrite (Hout2 _ R1). apply decide_True. reflexivity. }
  destruct (open_system d2 h0 h1 Hd2 (so_map _ Hsys) (so_dir _ Hsys) S0 S1)
    as (d3 & d4 & E8 & E9 & Hd4 & Hs4).
  destruct (flush_both junk fs d4 dir b4 _ Hd4 Hsys Ho Hdir Hds Hj) as
    [_ (d5 & d6 & E10 & E11 & Hd6 & Hst1 & Hst2 & Hout6)].
  destruct (flushed_hdr fs Hsys) as [Hf0 Hf1].
  exists fs, d6, dir, b4. split_and!.
  - unfold new_FileSystem. rewrite E0. cbn [rbind]. rewrite E5. cbn [rbind]. rewrite E1. cbn [rbind].
    rewrite E2. cbn [rbind]. rewrite E3. cbn [rbind ASSERT]. rewrite E4. cbn [rbind ASSERT].
    rewrite E6. cbn [rbind]. rewrite E7. cbn [rbind]. rewrite E8. cbn [rbind]. rewrite E9.
    cbn [rbind]. change (mkOpenFile h0 0 None None) with (freeMapFile fs). rewrite E10. cbn [rbind].
    change (mkOpenFile h1 0 None None) with (directoryFile fs). rewrite E11. reflexivity.
  - constructor; try assumption.
    + rewrite (Hout6 _ R0 Hf0), (Hs4 _ R0). exact S0.
    + rewrite (Hout6 _ R1 Hf1), (Hs4 _ R1). exact S1.
    + intros k s. rewrite Hmap, lookup_empty. discriminate.
    + intros k k' s s'. rewrite Hmap, lookup_empty. discriminate.
    + intros x. rewrite Hmap. split; [by left|]. intros [?|(k & s & Hk & _)]; [assumption|].
      rewrite lookup_empty in Hk. discriminate.
  - unfold fs_files. rewrite Hmap. apply fmap_empty.
  - exact Hsz.
Qed.

(** The next boot finds the file system as it was left. *)
Lemma reboot_ok junk fs d dir b S : fs_inv fs d dir b S ->
  exists fs' d', new_FileSystem junk false d = Ok (fs', d') /\ fs_inv fs' d' dir b S /\
    fs_files d' dir = fs_files d dir.
Proof.
  intros HI. pose proof (fi_sys _ _ _ _ _ HI) as Hsys.
  destruct (open_system d _ _ (fi_disk _ _ _ _ _ HI) (so_map _ Hsys) (so_dir _ Hsys)
    (fi_hdr_map _ _ _ _ _ HI) (fi_hdr_dir _ _ _ _ _ HI)) as (d1 & d2 & E1 & E2 & Hd2 & Hs2).
  unfold new_FileSystem. rewrite E1. cbn [rbind]. rewrite E2. cbn [rbind].
  destruct (fs_inv_same fs d d2 dir b S HI Hd2 Hs2) as [HI2 Hfiles].
  eexists _, d2. split; [done|]. split; [|done].
  destruct HI2. constructor; try assumption. destruct Hsys. constructor; assumption.
Qed.

(** ** Properties *)

Lemma fs_rep_same fs d d' files free : fs_rep fs d files free -> sd_ok d' -> same_sectors d d' ->
  fs_rep fs d' files free.
Proof.
  intros (dir & b & S & HI & -> & ->) Hd' Hs.
  destruct (fs_inv_same fs d d' dir b S HI Hd' Hs) as [HI' Hfiles].
  exists dir, b, S. by rewrite Hfiles.
Qed.

Lemma fs_files_lookup d dir k :
  fs_files d dir !! k = (fun s => file_data d (header d s)) <$> Directory.dir_map dir !! k.
Proof. apply lookup_fmap. Qed.

Lemma fs_files_size d dir : size (fs_files d dir) = size (Directory.dir_map dir).
Proof. apply map_size_fmap. Qed.

(** C8. [Create], for any size asked for that is not negative.  When the name
    (its first nine characters) is new, the directory has an entry left and
    there are sectors for the header and for every block, then either the size
    fits a header and the file is there with the size asked for, all other files
    are as they were, and that many sectors fewer are free; or it is more than
    [MaxFileSize] and the block table of the new header is overrun.  Otherwise,
    whatever the size, it returns false and the disk holds what it held.  No
    assertion fails. *)
Theorem Create_exact junk fs nm initialSize d files free (Hfs : fs_rep fs d files free)
    (Hjunk : forall j, is_byte (junk j)) (Hname : Forall is_byte nm) (Hsize : 0 <= initialSize) :
  let k := Directory.key nm in
  let need := 1 + divRoundUp initialSize SectorSize in
  if bool_decide (files !! k = None /\ Z.of_nat (size files) < NumDirEntries /\ need <= free)
  then
    if initialSize <=? MaxFileSize
    then exists d' content, Create junk fs nm initialSize d = Ok (true, d') /\
           zlen content = initialSize /\ fs_rep fs d' (<[k := content]> files) (free - need)
    else Create junk fs nm initialSize d = Fault OutOfBounds
  else exists d', Create junk fs nm initialSize d = Ok (false, d') /\ fs_rep fs d' files free.
Proof.
  destruct Hfs as (dir & b & S & HI & -> & ->). cbv zeta. set (k := Directory.key nm).
  assert (Hk : fs_files d dir !! k = None <-> Directory.dir_map dir !! k = None)
    by (rewrite fs_files_lookup; apply fmap_None).
  rewrite fs_files_size.
  destruct (FileSys_Create_ok junk fs nm initialSize d dir b S HI Hjunk Hname Hsize) as (Hyes & Hno & Hover).
  cbv zeta in Hyes, Hno, Hover. fold k in Hyes, Hno, Hover. rewrite <- Hk in Hyes, Hno, Hover.
  case_bool_decide as Hr; [destruct (Z.leb_spec initialSize MaxFileSize) as [Hm|Hm]|].
  - destruct (Hyes Hr Hm) as (d' & dir' & b' & S' & HC & HI' & Hfree & c & Hc & Hfiles).
    exists d', c. split; [exact HC|]. split; [exact Hc|]. exists dir', b', S'. by rewrite Hfiles.
  - by apply Hover.
  - destruct (Hno Hr) as (d' & HC & Hd' & Hs). exists d'. split; [exact HC|].
    eapply fs_rep_same; [|exact Hd'|exact Hs]. by exists dir, b, S.
Qed.

(** C9. [Remove] deletes the file of that name, and only it, and frees its header and
    every block, without failing the assertion that they are marked; it returns
    false, and changes nothing, when there is no such file. *)
Theorem Remove_exact junk fs nm d files free (Hfs : fs_rep fs d files free)
    (Hjunk : forall j, is_byte (junk j)) :
  let k := Directory.key nm in
  exists d', match files !! k with
  | Some content => Remove junk fs nm d = Ok (true, d') /\
      fs_rep fs d' (delete k files) (free + 1 + divRoundUp (zlen content) SectorSize)
  | None => Remove junk fs nm d = Ok (false, d') /\ fs_rep fs d' files free
  end.
Proof.
  destruct Hfs as (dir & b & S & HI & -> & ->). cbv zeta. set (k := Directory.key nm).
  rewrite fs_files_lookup. pose proof (FileSys_Remove_ok junk fs nm d dir b S HI Hjunk) as HR.
  cbv zeta in HR. fold k in HR. destruct (Directory.dir_map dir !! k) as [s|] eqn:Hk; cbn [fmap option_fmap option_map].
  - destruct HR as (d' & dir' & b' & S' & HR & HI' & Hfiles & Hsize). exists d'.
    split; [exact HR|]. exists dir', b', S'. split; [exact HI'|]. split; [by rewrite Hfiles|].
    destruct (fi_file _ _ _ _ _ HI k s Hk) as (Hf & _).
    rewrite (length_file_data d _ (fi_disk _ _ _ _ _ HI) Hf). lia.
  - destruct HR as (d' & HR & Hd' & Hs). exists d'. split; [exact HR|].
    eapply fs_rep_same; [|exact Hd'|exact Hs]. by exists dir, b, S.
Qed.

(** C10. [Open] returns NULL for a name that is not there; otherwise the file it opens
    has the length and the bytes of the file of that name, and writing through
    it changes that file of the file system, within its size, and no other. *)
Theorem Open_reaches_file junk fs nm d files free (Hfs : fs_rep fs d files free)
    (Hjunk : forall j, is_byte (junk j)) :
  let k := Directory.key nm in
  exists (r : option OpenFile) d', Open junk fs nm d = Ok (r, d') /\ fs_rep fs d' files free /\
  match r, files !! k with
  | None, None => True
  | Some f, Some content => seekPosition f = 0 /\ Length f = zlen content /\
      forall numBytes position, 0 <= position -> position + numBytes < 2 ^ 31 ->
        let n := transferable (hdr f) numBytes position in
        (exists d'', ReadAt junk f numBytes position d' =
             Ok (n, slice (Z.to_nat position) (Z.to_nat n) content, d'') /\ fs_rep fs d'' files free) /\
        (forall from, Forall is_byte from -> n <= zlen from ->
           exists d'', WriteAt junk f from numBytes position d' = Ok (n, d'') /\
             fs_rep fs d'' (<[k := splice (Z.to_nat position) (take (Z.to_nat n) from) content]> files) free)
  | _, _ => False
  end.
Proof.
  destruct Hfs as (dir & b & S & HI & -> & ->). cbv zeta. set (k := Directory.key nm).
  destruct (FileSys_Open_ok junk fs nm d dir b S HI Hjunk) as (d' & HO & Hd' & Hs). fold k in HO.
  destruct (fs_inv_same fs d d' dir b S HI Hd' Hs) as [HI' Hfiles].
  eexists _, d'. split; [exact HO|]. rewrite <- Hfiles.
  assert (Hrep : fs_rep fs d' (fs_files d' dir) (NumSectors - Z.of_nat (size S)))
    by (by exists dir, b, S).
  split; [exact Hrep|]. rewrite fs_files_lookup.
  destruct (Directory.dir_map dir !! k) as [s|] eqn:Hk; cbn [fmap option_fmap option_map]; [|done].
  destruct (fi_file _ _ _ _ _ HI' k s Hk) as (Hf & _).
  assert (Hh : header d' s = header d s)
    by (unfold header; by rewrite (Hs s (found_sector _ _ _ _ _ _ _ HI Hk))).
  rewrite Hh in Hf |- *. set (f := mkOpenFile _ _ _ _).
  split; [done|]. split; [by rewrite (length_file_data d' (header d s) Hd' Hf)|].
  intros numBytes position Hp Hov. split.
  - destruct (ReadAt_ok junk f numBytes position d' Hd' Hf Hp Hov) as (d'' & HR & Hd'' & Hs'').
    exists d''. split; [exact HR|]. by apply (fs_rep_same fs d').
  - intros from Hfb Hlen.
    destruct (WriteAt_ok junk f from numBytes position d' Hd' Hf Hp Hov Hjunk Hfb Hlen) as
      (d'' & HW & Hd'' & Hdata & Hout).
    exists d''. split; [exact HW|]. change (hdr f) with (header d s) in Hdata, Hout.
    rewrite <- Hh in Hout.
    destruct (file_write_inv fs d' d'' dir b S k s HI' Hk Hd'' Hout) as (HI'' & _ & Hfiles'').
    exists dir, b, S. split; [exact HI''|]. split; [|done]. rewrite Hfiles'', Hh. by rewrite Hdata.
Qed.

(** C21. Formatting any disk succeeds and leaves an empty file system with 1019 free
    sectors; booting from a disk without formatting finds the file system that
    was left on it. *)
Theorem format_and_reboot junk d (Hd : sd_ok d) (Hjunk : forall j, is_byte (junk j)) :
  (exists fs d', new_FileSystem junk true d = Ok (fs, d') /\ fs_rep fs d' ∅ 1019) /\
  (forall fs files free, fs_rep fs d files free ->
     exists fs' d', new_FileSystem junk false d = Ok (fs', d') /\ fs_rep fs' d' files free).
Proof.
  split.
  - destruct (format_ok junk d Hd Hjunk) as (fs & d' & dir & b & HF & HI & Hfiles & Hsize).
    exists fs, d'. split; [exact HF|]. exists dir, b, (sys fs). split; [exact HI|].
    split; [done|]. rewrite Hsize. reflexivity.
  - intros fs files free (dir & b & S & HI & -> & ->).
    destruct (reboot_ok junk fs d dir b S HI) as (fs' & d' & HN & HI' & Hfiles).
    exists fs', d'. split; [exact HN|]. exists dir, b, S. by rewrite Hfiles.
Qed.
End theory.

(** *** Witnesses: a blank disk, formatted; then a file [foo] of 300 bytes. *)

Definition zeros (_ : nat) : Z := 0.

Lemma zeros_bytes j : is_byte (zeros j).
Proof. unfold is_byte, zeros. lia. Qed.

Definition foo : list Z := [102; 111; 111].

Lemma foo_bytes : Forall is_byte foo.
Proof. repeat constructor; unfold is_byte; lia. Qed.

Lemma formatted : exists fs (d : list (list Z)), fs_rep fs d ∅ 1019.
Proof.
  destruct (@format_ok _ _ array_disk_laws zeros blank_disk blank_array_ok zeros_bytes)
    as (fs & d & dir & b & _ & HI & Hfiles & Hsize).
  exists fs, d, dir, b, (sys fs). split; [exact HI|]. split; [by rewrite Hfiles|].
  rewrite Hsize. reflexivity.
Qed.

Lemma with_foo : exists fs (d : list (list Z)) content, zlen content = 300 /\
  fs_rep fs d {[ Directory.key foo := content ]} 1015.
Proof.
  destruct formatted as (fs & d & Hfs). destruct Hfs as (dir & b & S & HI & Hfiles & Hfree).
  destruct (FileSys_Create_ok zeros fs foo 300 d dir b S HI zeros_bytes foo_bytes) as [Hyes _]; [lia|].
  assert (Hmap : Directory.dir_map dir = ∅).
  { apply map_eq. intros k. rewrite lookup_empty. pose proof (f_equal (lookup k) Hfiles) as E.
    rewrite lookup_empty, fs_files_lookup in E. symmetry in E. by apply fmap_None in E. }
  rewrite <- Hfree in Hyes. destruct Hyes as (d' & dir' & b' & S' & _ & HI' & Hfr & c & Hc & Hf').
  - rewrite Hmap, lookup_empty, map_size_empty. split; [done|]. split; vm_compute; congruence.
  - unfold MaxFileSize. rewrite NumDirect_eq. unfold SectorSize. lia.
  - exists fs, d', c. split; [exact Hc|]. exists dir', b', S'. split; [exact HI'|].
    split; [by rewrite Hf', <- Hfiles|]. rewrite Hfr. reflexivity.
Qed.

Example Create_exact_witness :
  exists fs (d d' : list (list Z)), Create zeros fs foo 300 d = Ok (true, d') /\
    Create zeros fs foo 3841 d = Fault OutOfBounds.
Proof.
  destruct formatted as (fs & d & Hfs).
  pose proof (Create_exact zeros fs foo 300 d ∅ 1019 Hfs zeros_bytes foo_bytes ltac:(lia)) as H300.
  pose proof (Create_exact zeros fs foo 3841 d ∅ 1019 Hfs zeros_bytes foo_bytes ltac:(lia)) as H3841.
  cbv zeta in H300, H3841.
  rewrite bool_decide_eq_true_2 in H300 by (rewrite lookup_empty, map_size_empty; split; [done|split; vm_compute; congruence]).
  rewrite bool_decide_eq_true_2 in H3841 by (rewrite lookup_empty, map_size_empty; split; [done|split; vm_compute; congruence]).
  change (300 <=? MaxFileSize) with true in H300. change (3841 <=? MaxFileSize) with false in H3841.
  destruct H300 as (d' & c & HC & _). exists fs, d, d'. split; [exact HC|exact H3841].
Defined.

Example Remove_exact_witness :
  exists fs (d d' : list (list Z)), Remove zeros fs foo d = Ok (true, d') /\ fs_rep fs d' ∅ 1019.
Proof.
  destruct with_foo as (fs & d & content & Hc & Hfs). exists fs, d.
  destruct (Remove_exact zeros fs foo d _ 1015 Hfs zeros_bytes) as (d' & HR).
  rewrite lookup_singleton_eq in HR. destruct HR as [HR Hfs']. exists d'. split; [exact HR|].
  rewrite delete_singleton_eq, Hc in Hfs'. exact Hfs'.
Defined.

Example Open_reaches_file_witness :
  exists fs (d : list (list Z)) f d', Open zeros fs foo d = Ok (Some f, d') /\ Length f = 300.
Proof.
  destruct with_foo as (fs & d & content & Hc & Hfs). exists fs, d.
  destruct (Open_reaches_file zeros fs foo d _ 1015 Hfs zeros_bytes) as (f & d' & HO & _ & Hf).
  rewrite lookup_singleton_eq in Hf. destruct f as [f|]; [|by destruct Hf]. exists f, d'.
  split; [exact HO|]. destruct Hf as (_ & -> & _). exact Hc.
Defined.

Example format_and_reboot_witness :
  exists fs (d : list (list Z)), new_FileSystem zeros true blank_disk = Ok (fs, d) /\
    fs_rep fs d ∅ 1019.
Proof.
  destruct (@format_and_reboot _ _ array_disk_laws zeros blank_disk blank_array_ok zeros_bytes)
    as [(fs & d & HF & Hfs) _].
  exists fs, d. split; [exact HF|exact Hfs].
Defined.
End FileSys.
