(* ===== verification/HostFS.v ===== *)
(** The file system the kernel is built with ([FILESYS_STUB] of
    [filesys/filesys.h] and [filesys/openfile.h]), which turns Nachos files into
    UNIX files, and the UNIX calls of [lib/sysdep.cc] it makes.  C++ objects that
    the code shares through pointers live in an explicit heap, so that an object
    used after its [delete] is a fault. *)

From S2P Require Import Prelude.

(** ** UNIX as [lib/sysdep.cc] uses it *)

Module Unix.

(** A file name or a C string, without its NUL. *)
Definition path : Type := list Z.

(** What a descriptor stands for: a file and its offset, or anything one cannot
    seek in (a socket, a terminal). *)
Inductive desc : Type :=
| File (ino : positive) (off : Z)
| Stream.

(** The host: a directory of inodes, the descriptors of this process and the
    names that cannot be opened or removed (directories, no permission). *)
Record Host := mkHost {
  dir : gmap path positive;
  inodes : gmap positive (list Z);
  fds : gmap Z desc;
  protected : gset path;
}.

(** A process starts with its three standard streams. *)
Definition std_fds : gmap Z desc := {[ 0 := Stream; 1 := Stream; 2 := Stream ]}.

(** [open] and [socket] return the lowest descriptor not in use. *)
Definition lowest_fd (h : Host) : Z :=
  from_option Z.of_nat (Z.of_nat (size (fds h)))
    (find_index (fun i => bool_decide (fds h !! Z.of_nat i = None)) (seq 0 (size (fds h)))).

Definition set_fds (h : Host) f : Host := mkHost (dir h) (inodes h) f (protected h).
Definition set_inode (h : Host) (i : positive) (bs : list Z) : Host :=
  mkHost (dir h) (<[i := bs]> (inodes h)) (fds h) (protected h).

(** The inode an open descriptor stands for, its bytes and the offset. *)
Definition file_at (h : Host) (fd : Z) : option (positive * list Z * Z) :=
  match fds h !! fd with
  | Some (File i off) => bs ← inodes h !! i; Some (i, bs, off)
  | _ => None
  end%stdpp.

Definition OpenForWrite (name : path) (h : Host) : res (Z * Host) :=
  ASSERT (negb (bool_decide (name ∈ protected h))) ;;
  let fd := lowest_fd h in
  let i := from_option id (fresh (dom (inodes h))) (dir h !! name) in
  Ok (fd, mkHost (<[name := i]> (dir h)) (<[i := []]> (inodes h)) (<[fd := File i 0]> (fds h))
            (protected h)).

Definition OpenForReadWrite (name : path) (crashOnError : bool) (h : Host) : res (Z * Host) :=
  match dir h !! name with
  | Some i =>
      if bool_decide (name ∈ protected h)
      then ASSERT (negb crashOnError) ;; Ok (-1, h)
      else Ok (lowest_fd h, set_fds h (<[lowest_fd h := File i 0]> (fds h)))
  | None => ASSERT (negb crashOnError) ;; Ok (-1, h)
  end.

(** The bytes read, [None] when [read] fails.  A negative count is converted to
    an enormous [size_t]. *)
Definition ReadPartial (fd nBytes : Z) (h : Host) : res (option (list Z) * Host) :=
  if nBytes <? 0 then Fault OutOfBounds
  else
    match file_at h fd with
    | Some (i, bs, off) =>
        let got := slice (Z.to_nat off) (Z.to_nat nBytes) bs in
        Ok (Some got, set_fds h (<[fd := File i (off + zlen got)]> (fds h)))
    | None => Ok (None, h)
    end.

(** [write] past the end fills the gap with zeros. *)
Definition write_bytes (off : Z) (new bs : list Z) : list Z :=
  splice (Z.to_nat off) new (bs ++ replicate (Z.to_nat off - length bs) 0).

Definition WriteFile (fd : Z) (buffer : list Z) (h : Host) : res Host :=
  match file_at h fd with
  | Some (i, bs, off) =>
      Ok (set_fds (set_inode h i (write_bytes off buffer bs))
            (<[fd := File i (off + zlen buffer)]> (fds h)))
  | None => Fault AssertFailed
  end.

(** [whence]: 0 is [SEEK_SET], 2 is [SEEK_END]. *)
Definition Lseek (fd offset whence : Z) (h : Host) : res Host :=
  match file_at h fd with
  | Some (i, bs, off) =>
      let to := if whence =? 0 then offset else zlen bs + offset in
      ASSERT (0 <=? to) ;; Ok (set_fds h (<[fd := File i to]> (fds h)))
  | None => Fault AssertFailed
  end.

Definition Tell (fd : Z) (h : Host) : Z :=
  match file_at h fd with Some (_, _, off) => off | None => -1 end.

Definition Close (fd : Z) (h : Host) : res Host :=
  ASSERT (bool_decide (is_Some (fds h !! fd))) ;; Ok (set_fds h (delete fd (fds h))).

(** The [int] of [unlink] returned as a [bool]: true when it fails. *)
Definition Unlink (name : path) (h : Host) : bool * Host :=
  if bool_decide (is_Some (dir h !! name)) && negb (bool_decide (name ∈ protected h))
  then (false, mkHost (delete name (dir h)) (inodes h) (fds h) (protected h))
  else (true, h).

Definition OpenSocketInternet (h : Host) : res (Z * Host) :=
  Ok (lowest_fd h, set_fds h (<[lowest_fd h := Stream]> (fds h))).

(** The result of [close] is ignored. *)
Definition CloseSocket (fd : Z) (h : Host) : Host := set_fds h (delete fd (fds h)).

End Unix.

(** The other end of the TCP connections: what [connect], [send] and [recv]
    return on a descriptor, with the state [N] of the network. *)
Class TCP (N : Type) := {
  ConnectTCP : Z -> list Z -> Z -> N -> Z * N;
  Send : Z -> list Z -> N -> Z * N;
  Receive : Z -> Z -> N -> option (list Z) * N;
}.

(** [recv] returns at most the bytes asked for. *)
Class TCPLaws (N : Type) `{TCP N} := {
  Receive_law (fd len : Z) (n : N) bs n' : 0 <= len -> Receive fd len n = (Some bs, n') ->
    zlen bs <= len /\ Forall is_byte bs;
}.

(** ** Files and the file table *)

Module StubFS.
Import Unix.

Definition MaxFileOpen : Z := 20.
Definition reverseFD : Z := 2.

Definition loc : Type := positive.

(** The stub [OpenFile].  A constructor that does not set [type] or [fName]
    leaves it uninitialised, [None]; [fName] points to the caller's array. *)
Record OpenFile := mkOpenFile {
  file : Z;
  currentOffset : Z;
  fileDescriptorId : Z;
  type : option Z;
  fName : option loc;
}.

(** A [FileSlot]: type 0 is a file, 1 a socket ([fileSocket], its descriptor). *)
Record FileSlot := mkSlot {
  slot_type : Z;
  fileOpen : option loc;
  fileSocket : option Z;
}.

(** The file system: the host and the network, the heap of character arrays,
    [OpenFile]s and [FileSlot]s, and the table of pointers to slots. *)
Record FS (N : Type) := mkFS {
  host : Host;
  net : N;
  chars : gmap loc (list Z);
  files : gmap loc OpenFile;
  slots : gmap loc FileSlot;
  fileSlot : list (option loc);
  brk : loc;
}.
Arguments mkFS {N} host net chars files slots fileSlot brk.
Arguments host {N} f.
Arguments net {N} f.
Arguments chars {N} f.
Arguments files {N} f.
Arguments slots {N} f.
Arguments fileSlot {N} f.
Arguments brk {N} f.

Section code.
Context {N : Type} `{TCP N}.
Implicit Types (s : FS N).

Definition set_host s h : FS N :=
  mkFS h (net s) (chars s) (files s) (slots s) (fileSlot s) (brk s).
Definition set_files s f : FS N :=
  mkFS (host s) (net s) (chars s) f (slots s) (fileSlot s) (brk s).
Definition set_slots s sl : FS N :=
  mkFS (host s) (net s) (chars s) (files s) sl (fileSlot s) (brk s).
Definition set_table s t : FS N :=
  mkFS (host s) (net s) (chars s) (files s) (slots s) t (brk s).
Definition set_chars s c : FS N :=
  mkFS (host s) (net s) c (files s) (slots s) (fileSlot s) (brk s).
Definition set_net s n : FS N :=
  mkFS (host s) n (chars s) (files s) (slots s) (fileSlot s) (brk s).
Definition set_brk s b : FS N :=
  mkFS (host s) (net s) (chars s) (files s) (slots s) (fileSlot s) b.

(** Dereferencing a pointer to a heap object, possibly null. *)
Definition live {A} (m : gmap loc A) (p : loc) : res A :=
  match m !! p with Some x => Ok x | None => Fault UseAfterFree end.
Definition deref {A} (m : gmap loc A) (p : option loc) : res (loc * A) :=
  match p with Some p => x ← live m p; Ok (p, x) | None => Fault NullPointer end.
(** An uninitialised field. *)
Definition init {A} (x : option A) : res A :=
  match x with Some x => Ok x | None => Fault Uninitialised end.

(** The C string in an array. *)
Definition cstr (bs : list Z) : res path :=
  match find_index (fun b => b =? 0) bs with
  | Some i => Ok (take i bs)
  | None => Fault OutOfBounds
  end.
(** [new char[]], filled; [delete[]]; the string a [char*] points to. *)
Definition new_chars (bs : list Z) s : loc * FS N :=
  (brk s, set_brk (set_chars s (<[brk s := bs]> (chars s))) (Pos.succ (brk s))).
Definition delete_chars (p : loc) s : res (FS N) :=
  _x ← live (chars s) p; Ok (set_chars s (delete p (chars s))).
Definition string_at (p : loc) s : res path := bs ← live (chars s) p; cstr bs.

(** *** [OpenFile] *)

Definition new_OpenFile (o : OpenFile) s : loc * FS N :=
  (brk s, set_brk (set_files s (<[brk s := o]> (files s))) (Pos.succ (brk s))).
(** The constructors: with type and name, and with a name only. *)
Definition OpenFile_tn (f t : Z) (name : loc) (id : Z) : OpenFile :=
  mkOpenFile f 0 id (Some t) (Some name).
Definition OpenFile_n (f : Z) (name : loc) (id : Z) : OpenFile :=
  mkOpenFile f 0 id None (Some name).
Definition OpenFile_id (f id : Z) : OpenFile := mkOpenFile f 0 id None None.

Definition delete_OpenFile (p : loc) s : res (FS N) :=
  o ← live (files s) p;
  h ← Close (file o) (host s);
  Ok (set_files (set_host s h) (delete p (files s))).

Definition set_offset (o : OpenFile) (off : Z) : OpenFile :=
  mkOpenFile (file o) off (fileDescriptorId o) (type o) (fName o).
Definition set_file (p : loc) (o : OpenFile) s : FS N := set_files s (<[p := o]> (files s)).

(** The number of bytes [read] returns. *)
Definition count (r : option (list Z)) : Z := from_option zlen (-1) r.

Definition ReadAt (p : loc) (numBytes position : Z) s : res (option (list Z) * FS N) :=
  o ← live (files s) p;
  h ← Lseek (file o) position 0 (host s);
  '(r, h) ← ReadPartial (file o) numBytes h;
  Ok (r, set_host s h).

(** [from] is the buffer the caller passes. *)
Definition WriteAt (p : loc) (from : list Z) (numBytes position : Z) s : res (Z * FS N) :=
  o ← live (files s) p;
  h ← Lseek (file o) position 0 (host s);
  if (0 <=? numBytes) && (numBytes <=? zlen from) then
    h ← WriteFile (file o) (take (Z.to_nat numBytes) from) h;
    Ok (numBytes, set_host s h)
  else Fault OutOfBounds.

Definition Read (p : loc) (numBytes : Z) s : res (option (list Z) * FS N) :=
  o ← live (files s) p;
  '(r, s) ← ReadAt p numBytes (currentOffset o) s;
  Ok (r, set_file p (set_offset o (s32 (currentOffset o + count r))) s).

Definition Write (p : loc) (from : list Z) (numBytes : Z) s : res (Z * FS N) :=
  o ← live (files s) p;
  '(numWritten, s) ← WriteAt p from numBytes (currentOffset o) s;
  Ok (numWritten, set_file p (set_offset o (s32 (currentOffset o + numWritten))) s).

Definition Length (p : loc) s : res (Z * FS N) :=
  o ← live (files s) p;
  h ← Lseek (file o) 0 2 (host s);
  Ok (Tell (file o) h, set_host s h).

Definition GetCurrentPos (p : loc) s : res (Z * FS N) :=
  o ← live (files s) p;
  let pos := Tell (file o) (host s) in
  Ok (pos, set_file p (set_offset o pos) s).

Definition Seek (p : loc) (position : Z) s : res (Z * FS N) :=
  o ← live (files s) p;
  h ← Lseek (file o) position 0 (host s);
  let pos := Tell (file o) h in
  Ok (pos, set_file p (set_offset o pos) (set_host s h)).

Definition getFileDescriptorID (p : loc) s : res Z :=
  o ← live (files s) p; Ok (fileDescriptorId o).

(** *** [FileSlot] *)

Definition new_Slot (sl : FileSlot) s : loc * FS N :=
  (brk s, set_brk (set_slots s (<[brk s := sl]> (slots s))) (Pos.succ (brk s))).
Definition FileSlot_file (f : option loc) : FileSlot := mkSlot 0 f None.
Definition FileSlot_socket (fd : Z) : FileSlot := mkSlot 1 None (Some fd).

(** The destructor, which closes what the slot holds. *)
Definition delete_Slot (p : loc) s : res (FS N) :=
  sl ← live (slots s) p;
  s ← match fileOpen sl with Some f => delete_OpenFile f s | None => Ok s end;
  let s := match fileSocket sl with
           | Some fd => set_host s (CloseSocket fd (host s)) | None => s end in
  Ok (set_slots s (delete p (slots s))).

(** [fileSlot[i]], and what it points to. *)
Definition slot_at (i : Z) s : res (loc * FileSlot) :=
  p ← arr_get (fileSlot s) i; deref (slots s) p.
Definition put_slot (i : Z) (p : option loc) s : res (FS N) :=
  t ← arr_set (fileSlot s) i p; Ok (set_table s t).

(** *** [FileSystem] *)

Definition FindFreeSlot s : res Z :=
  r ← for_return (Z.to_nat (MaxFileOpen - reverseFD)) reverseFD (fun i (_ : ()) =>
        p ← arr_get (fileSlot s) i;
        if bool_decide (p = None) then Ok (inr i) else Ok (inl ())) ();
  match r with inr i => Ok i | inl _ => Ok (-1) end.

Definition Create (name : path) s : res (bool * FS N) :=
  '(fileDescriptor, h) ← OpenForWrite name (host s);
  if fileDescriptor =? -1 then Ok (false, set_host s h)
  else h ← Close fileDescriptor h; Ok (true, set_host s h).

(** [Open(char *name)]: takes a slot of its own for the file. *)
Definition Open (name : loc) s : res (option loc * FS N) :=
  n ← string_at name s;
  '(fileDescriptor, h) ← OpenForReadWrite n false (host s);
  let s := set_host s h in
  if fileDescriptor =? -1 then Ok (None, s)
  else
    id ← FindFreeSlot s;
    if id =? -1 then Ok (None, s)
    else
      let '(f, s) := new_OpenFile (OpenFile_n fileDescriptor name id) s in
      let '(sl, s) := new_Slot (FileSlot_file (Some f)) s in
      s ← put_slot id (Some sl) s;
      Ok (Some f, s).

(** [Open(char *name, int id)] *)
Definition Open_id (name : loc) (id : Z) s : res (option loc * FS N) :=
  n ← string_at name s;
  '(fileDescriptor, h) ← OpenForReadWrite n false (host s);
  let s := set_host s h in
  if fileDescriptor =? -1 then Ok (None, s)
  else let '(f, s) := new_OpenFile (OpenFile_id fileDescriptor id) s in Ok (Some f, s).

(** [Open(char *name, int type, int id)] *)
Definition Open_type (name : loc) (type id : Z) s : res (option loc * FS N) :=
  n ← string_at name s;
  '(fileDescriptor, h) ← (if type =? 4 then OpenForWrite n (host s)
                          else OpenForReadWrite n false (host s));
  let s := set_host s h in
  if fileDescriptor =? -1 then Ok (None, s)
  else let '(f, s) := new_OpenFile (OpenFile_tn fileDescriptor type name id) s in Ok (Some f, s).

Definition Remove (name : path) s : bool * FS N :=
  let '(failed, h) := Unlink name (host s) in (negb failed, set_host s h).

Definition createTCP s : res (Z * FS N) :=
  slot ← FindFreeSlot s;
  if slot =? -1 then Ok (-1, s)
  else
    '(fd, h) ← OpenSocketInternet (host s);
    let s := set_host s h in
    if fd <? -1 then Ok (-1, s)
    else
      let '(sl, s) := new_Slot (FileSlot_socket fd) s in
      s ← put_slot slot (Some sl) s;
      Ok (slot, s).

Definition bad_slot (id : Z) : bool := (id <? reverseFD) || (MaxFileOpen <=? id).

(** [fileSlot[id]->fileSocket->fd] *)
Definition socket_fd (id : Z) s : res Z :=
  '(_, sl) ← slot_at id s;
  match fileSocket sl with Some fd => Ok fd | None => Fault NullPointer end.

Definition connectTCP (socketid : Z) (ip : list Z) (port : Z) s : res (Z * FS N) :=
  if bad_slot socketid then Ok (-1, s)
  else
    p ← arr_get (fileSlot s) socketid;
    if bool_decide (p = None) then Ok (-1, s)
    else
      fd ← socket_fd socketid s;
      let '(r, n) := ConnectTCP fd ip port (net s) in Ok (r, set_net s n).

(** A length beyond the buffer makes the host read outside it. *)
Definition sendTCP (socketid : Z) (buffer : list Z) (len : Z) s : res (Z * FS N) :=
  if bad_slot socketid then Ok (-1, s)
  else
    p ← arr_get (fileSlot s) socketid;
    if bool_decide (p = None) then Ok (0, s)
    else
      fd ← socket_fd socketid s;
      if (0 <=? len) && (len <=? zlen buffer) then
        let '(r, n) := Send fd (take (Z.to_nat len) buffer) (net s) in Ok (r, set_net s n)
      else Fault OutOfBounds.

(** The return value and the bytes stored in the buffer. *)
Definition receiveTCP (socketid len : Z) s : res (Z * list Z * FS N) :=
  if bad_slot socketid then Ok (-1, [], s)
  else
    p ← arr_get (fileSlot s) socketid;
    if bool_decide (p = None) then Ok (0, [], s)
    else
      fd ← socket_fd socketid s;
      let '(r, n) := Receive fd len (net s) in
      Ok (count r, from_option id [] r, set_net s n).

(** [fileSlot[socketid] == NULL;] compares and keeps the pointer. *)
Definition closeTCP (socketid : Z) s : res (Z * FS N) :=
  if bad_slot socketid then Ok (-1, s)
  else
    p ← arr_get (fileSlot s) socketid;
    match p with
    | None => Ok (-1, s)
    | Some p =>
        fd ← socket_fd socketid s;
        let s := set_host s (CloseSocket fd (host s)) in
        s ← delete_Slot p s;
        Ok (0, s)
    end.

Definition CloseFile (id : Z) s : res (Z * FS N) :=
  if (id <? 2) || (MaxFileOpen <=? id) then Ok (-1, s)
  else
    p ← arr_get (fileSlot s) id;
    match p with
    | None => Ok (-1, s)
    | Some p => s ← delete_Slot p s; s ← put_slot id None s; Ok (0, s)
    end.

(** The literals of the constructor. *)
Definition stdin_name : list Z := [115; 116; 100; 105; 110].
Definition stdout_name : list Z := [115; 116; 100; 111; 117; 116].

(** Slots 0 and 1 are files called [stdin] and [stdout], typed 2 and 3. *)
Definition open_std (name : list Z) (type id : Z) s : res (FS N) :=
  let '(p, s) := new_chars (name ++ [0]) s in
  '(f, s) ← Open_type p type id s;
  let '(sl, s) := new_Slot (FileSlot_file f) s in
  put_slot id (Some sl) s.

Definition new_FileSystem (junk : nat -> option loc) (h : Host) (n : N) : res (FS N) :=
  t ← for_range (Z.to_nat MaxFileOpen) 0 (fun i t => arr_set t i None)
        (map junk (seq 0 (Z.to_nat MaxFileOpen)));
  let s := mkFS h n ∅ ∅ ∅ t 1%positive in
  '(_, s) ← Create stdin_name s;
  '(_, s) ← Create stdout_name s;
  s ← open_std stdin_name 2 0 s;
  open_std stdout_name 3 1 s.

(** The destructor. *)
Definition delete_FileSystem s : res (FS N) :=
  for_range (Z.to_nat MaxFileOpen) 0 (fun i s =>
    p ← arr_get (fileSlot s) i;
    match p with Some p => delete_Slot p s | None => Ok s end) s.
End code.

(** ** The file table is well formed *)

Section theory.
Context {N : Type} `{TCP N}.
Implicit Types (s : FS N) (h : Host).

(** The names lead to inodes, and every open file descriptor too. *)
Record host_ok h : Prop := {
  hok_dir n i : dir h !! n = Some i -> is_Some (inodes h !! i);
  hok_fd fd i off : fds h !! fd = Some (File i off) -> is_Some (inodes h !! i) /\ 0 <= off;
}.

(** A slot holds a live file, or an open socket, or nothing (a failed [Open]). *)
Definition slot_ok s (sl : FileSlot) : Prop :=
  match fileOpen sl, fileSocket sl with
  | Some f, None => slot_type sl = 0 /\ is_Some (files s !! f)
  | None, Some fd => slot_type sl = 1 /\ fds (host s) !! fd = Some Stream
  | None, None => slot_type sl = 0
  | Some _, Some _ => False
  end.

(** The table points to live slots, no two entries to the same slot and no two
    slots to the same file; no two files have the same descriptor. *)
Record fs_ok s : Prop := {
  ok_host : host_ok (host s);
  ok_table : zlen (fileSlot s) = MaxFileOpen;
  ok_live i p : fileSlot s !! i = Some (Some p) -> is_Some (slots s !! p);
  ok_obj p sl : slots s !! p = Some sl -> slot_ok s sl;
  ok_slot_inj i j p : fileSlot s !! i = Some (Some p) -> fileSlot s !! j = Some (Some p) -> i = j;
  ok_open_inj p q a b f : slots s !! p = Some a -> slots s !! q = Some b ->
    fileOpen a = Some f -> fileOpen b = Some f -> p = q;
  ok_sock_inj p q a b fd : slots s !! p = Some a -> slots s !! q = Some b ->
    fileSocket a = Some fd -> fileSocket b = Some fd -> p = q;
  ok_file f o : files s !! f = Some o ->
    exists i off, fds (host s) !! file o = Some (File i off);
  ok_file_inj f g a b : files s !! f = Some a -> files s !! g = Some b -> file a = file b -> f = g;
  ok_brk (p : loc) : (brk s <= p)%positive -> files s !! p = None /\ slots s !! p = None /\ chars s !! p = None;
  ok_refs (p : loc) sl (f : loc) : slots s !! p = Some sl -> fileOpen sl = Some f -> (f < brk s)%positive;
}.

Lemma ok_slot s i p : fs_ok s -> fileSlot s !! i = Some (Some p) ->
  exists sl, slots s !! p = Some sl /\ slot_ok s sl.
Proof. intros Hs Hi. destruct (ok_live s Hs i p Hi) as [sl Hsl]. exists sl. split; [done|]. by eapply ok_obj. Qed.

Lemma lowest_fd_fresh h : fds h !! lowest_fd h = None /\ 0 <= lowest_fd h.
Proof.
  unfold lowest_fd. destruct (find_index _ _) as [i|] eqn:E; cbn [from_option].
  - apply find_index_Some in E as (x & Hx & Hp & _). apply lookup_seq in Hx as [-> Hi].
    bool_to_prop. split; [done|lia].
  - split; [|lia]. rewrite find_index_None in E.
    destruct (fds h !! Z.of_nat (size (fds h))) eqn:E'; [|done]. exfalso.
    (* the size + 1 keys 0, ..., size would all be taken *)
    assert (Hsub : list_to_set (Z.of_nat <$> seq 0 (S (size (fds h)))) ⊆ dom (fds h)).
    { intros k Hk. apply elem_of_list_to_set, list_elem_of_fmap in Hk as (j & -> & Hj).
      apply elem_of_dom. apply elem_of_seq in Hj.
      destruct (decide (j = size (fds h))) as [->|Hne]; [by eexists|].
      specialize (E j j). rewrite lookup_seq_lt in E by lia. specialize (E eq_refl).
      bool_to_prop. by destruct (fds h !! Z.of_nat j). }
    apply subseteq_size in Hsub. rewrite size_list_to_set in Hsub.
    + rewrite length_fmap, length_seq, size_dom in Hsub. lia.
    + apply NoDup_fmap_2; [intros ? ? ?; lia|apply NoDup_seq].
Qed.

(** The lowest free entry from 2 on. *)
Definition free_slot (t : list (option loc)) : Z :=
  from_option (fun i => Z.of_nat (2 + i)) (-1)
    (find_index (fun p => bool_decide (p = None)) (drop 2 t)).

Lemma FindFreeSlot_ok s : zlen (fileSlot s) = MaxFileOpen ->
  FindFreeSlot s = Ok (free_slot (fileSlot s)).
Proof.
  intros Hlen. unfold FindFreeSlot, free_slot.
  replace (Z.to_nat (MaxFileOpen - reverseFD)) with (length (fileSlot s) - 2)%nat
    by (unfold zlen, MaxFileOpen, reverseFD in *; lia).
  change reverseFD with (Z.of_nat 2).
  rewrite (for_return_find_gen (fun p => bool_decide (p = None)) (fileSlot s) 2 _
             (fun i => Ok (inr i)) ()).
  - destruct (find_index _ _); done.
  - intros j x Hx. rewrite (arr_get_Some _ _ x) by (rewrite ?Nat2Z.id; lia || done).
    cbn [rbind]. by case_bool_decide.
  - done.
Qed.

Lemma free_slot_spec t : free_slot t <> -1 ->
  2 <= free_slot t < zlen t /\ t !! Z.to_nat (free_slot t) = Some None /\
  forall i, 2 <= i < free_slot t -> exists p, t !! Z.to_nat i = Some (Some p).
Proof.
  unfold free_slot. destruct (find_index _ _) as [k|] eqn:E; cbn [from_option]; [|done].
  intros _. pose proof (find_index_lt _ _ _ E) as Hlt. rewrite length_drop in Hlt.
  apply find_index_Some in E as (x & Hx & Hp & Hall). rewrite lookup_drop in Hx.
  bool_to_prop. subst x. rewrite Nat2Z.id. unfold zlen. split_and!; [lia|lia|done|].
  intros i Hi. destruct (lookup_lt_is_Some_2 t (Z.to_nat i)) as [x Hxi]; [lia|].
  specialize (Hall (Z.to_nat i - 2)%nat x). rewrite lookup_drop in Hall.
  replace (2 + (Z.to_nat i - 2))%nat with (Z.to_nat i) in Hall by lia.
  specialize (Hall Hxi ltac:(lia)). bool_to_prop. destruct x; [by eexists|done].
Qed.

Lemma free_slot_none t : free_slot t = -1 <->
  forall i, 2 <= i < zlen t -> exists p, t !! Z.to_nat i = Some (Some p).
Proof.
  unfold free_slot. destruct (find_index _ _) as [k|] eqn:E; cbn [from_option].
  - split; [lia|]. intros Hall.
    pose proof (find_index_lt _ _ _ E) as Hlt. rewrite length_drop in Hlt.
    apply find_index_Some in E as (x & Hx & Hp & _). rewrite lookup_drop in Hx. bool_to_prop.
    destruct (Hall (Z.of_nat (2 + k))) as [p Hp']; [unfold zlen; lia|].
    rewrite Nat2Z.id in Hp'. congruence.
  - split; [|done]. intros _ i Hi. rewrite find_index_None in E.
    destruct (lookup_lt_is_Some_2 t (Z.to_nat i)) as [x Hxi]; [unfold zlen in *; lia|].
    specialize (E (Z.to_nat i - 2)%nat x). rewrite lookup_drop in E.
    replace (2 + (Z.to_nat i - 2))%nat with (Z.to_nat i) in E by lia.
    specialize (E Hxi). bool_to_prop. destruct x; [by eexists|done].
Qed.

(** *** The operations keep it *)

(** What an operation on the host may do to the descriptors of a well-formed
    file system: those of its files and sockets stay what they are. *)
Definition keeps_fds s h : Prop :=
  host_ok h /\
  (forall f o i off, files s !! f = Some o -> fds (host s) !! file o = Some (File i off) ->
     exists off', fds h !! file o = Some (File i off')) /\
  (forall fd, fds (host s) !! fd = Some Stream -> fds h !! fd = Some Stream).

Lemma fs_ok_host s h : fs_ok s -> keeps_fds s h -> fs_ok (set_host s h).
Proof.
  intros [] (Hh & Hf & Hs). constructor; cbn; try done.
  - intros p sl Hsl. pose proof (ok_obj0 p sl Hsl) as Hok.
    unfold slot_ok in *. cbn. destruct (fileOpen sl), (fileSocket sl); try done.
    destruct Hok as [? ?]. split; [done|]. by apply Hs.
  - intros f o Ho. destruct (ok_file0 f o Ho) as (i & off & Hfd).
    destruct (Hf _ _ _ _ Ho Hfd) as [off' ?]. by exists i, off'.
Qed.

Lemma keeps_insert_fresh s h d : fs_ok s -> fds h = <[lowest_fd (host s) := d]> (fds (host s)) ->
  host_ok h -> keeps_fds s h.
Proof.
  intros Hs Hfds Hh. pose proof (lowest_fd_fresh (host s)) as [Hfr _]. split; [done|]. rewrite Hfds.
  split.
  - intros f o i off Ho Hfd. exists off. rewrite lookup_insert_ne by congruence. done.
  - intros fd Hfd. rewrite lookup_insert_ne by congruence. done.
Qed.

(** A new file on a fresh descriptor, not yet in a slot. *)
Lemma fs_ok_new_file s o i off : fs_ok s -> file o = lowest_fd (host s) ->
  is_Some (inodes (host s) !! i) -> 0 <= off ->
  fs_ok (new_OpenFile o (set_host s (set_fds (host s)
           (<[lowest_fd (host s) := File i off]> (fds (host s)))))).2.
Proof.
  intros Hs Ho Hi Hoff. pose proof (lowest_fd_fresh (host s)) as [Hfr _].
  assert (Hh : host_ok (set_fds (host s) (<[lowest_fd (host s) := File i off]> (fds (host s))))).
  { destruct (ok_host s Hs) as [Hd Hf]. constructor; cbn; [done|]. intros fd j off'.
    destruct (decide (fd = lowest_fd (host s))) as [->|Hne].
    - rewrite lookup_insert_eq. by intros [= -> ->].
    - rewrite lookup_insert_ne by done. apply Hf. }
  set (h := set_fds _ _) in *.
  pose proof (fs_ok_host s h Hs (keeps_insert_fresh s h _ Hs eq_refl Hh)) as Hs1.
  assert (Hnofile : forall f a, files s !! f = Some a -> file a <> lowest_fd (host s)).
  { intros f a Ha E. destruct Hs. destruct (ok_file0 f a Ha) as (k & off' & Hk). congruence. }
  destruct Hs1. constructor; cbn in *; try done.
  - intros p sl Hsl. pose proof (ok_obj0 p sl Hsl) as Hok.
    unfold slot_ok in *. cbn in *. destruct (fileOpen sl) as [f|], (fileSocket sl); try done.
    destruct Hok as [? Hf]. split; [done|]. rewrite lookup_insert_ne; [done|].
    intros <-. destruct (ok_brk0 (brk s)) as (Hn & _); [lia|]. rewrite Hn in Hf. by destruct Hf.
  - intros f a. destruct (decide (f = brk s)) as [->|Hne].
    + rewrite lookup_insert_eq. intros [= <-]. exists i, off. unfold h. cbn.
      by rewrite Ho, lookup_insert_eq.
    + rewrite lookup_insert_ne by done. apply ok_file0.
  - intros f g a b. destruct (decide (f = brk s)) as [->|Hf], (decide (g = brk s)) as [->|Hg]; [done|..].
    + rewrite lookup_insert_eq, lookup_insert_ne by done. intros [= <-] Hb E.
      exfalso. eapply Hnofile; [exact Hb|congruence].
    + rewrite lookup_insert_eq, lookup_insert_ne by done. intros Ha [= <-] E.
      exfalso. eapply Hnofile; [exact Ha|congruence].
    + rewrite !lookup_insert_ne by done. apply ok_file_inj0.
  - intros p Hp. rewrite lookup_insert_ne by lia. apply ok_brk0. lia.
  - intros p sl f Hp Hf. specialize (ok_refs0 p sl f Hp Hf). lia.
Qed.

(** A new slot for a file no slot has, a socket no slot has, or nothing. *)
Lemma fs_ok_install s sl id : fs_ok s -> fileSlot s !! Z.to_nat id = Some None -> 0 <= id ->
  slot_ok s sl ->
  (forall p a f, slots s !! p = Some a -> fileOpen a = Some f -> fileOpen sl <> Some f) ->
  (forall p a fd, slots s !! p = Some a -> fileSocket a = Some fd -> fileSocket sl <> Some fd) ->
  exists s', put_slot id (Some (brk s)) (new_Slot sl s).2 = Ok s' /\ fs_ok s' /\
    s' = mkFS (host s) (net s) (chars s) (files s) (<[brk s := sl]> (slots s))
           (<[Z.to_nat id := Some (brk s)]> (fileSlot s)) (Pos.succ (brk s)).
Proof.
  intros Hs Hid H0 Hsl Hnf Hns. eexists. split; [|split; [|reflexivity]].
  - unfold put_slot, new_Slot. cbn. apply lookup_lt_Some in Hid.
    rewrite arr_set_lt by (unfold zlen; lia). reflexivity.
  - pose proof (ok_brk s Hs (brk s) ltac:(lia)) as (Hbf & Hbs & _).
    assert (Hin : forall j p, <[Z.to_nat id:=Some (brk s)]> (fileSlot s) !! j = Some (Some p) ->
      (j = Z.to_nat id /\ p = brk s) \/ (fileSlot s !! j = Some (Some p) /\ p <> brk s)).
    { intros j p. destruct (decide (j = Z.to_nat id)) as [->|Hne].
      - rewrite list_lookup_insert_eq by (by apply lookup_lt_Some in Hid). intros [= <-]. by left.
      - rewrite list_lookup_insert_ne by done. intros Hj. right. split; [done|]. intros ->.
        destruct (ok_slot s _ _ Hs Hj) as (? & ? & _). congruence. }
    assert (Hsf : forall f, fileOpen sl = Some f -> (f < brk s)%positive).
    { intros f Hf. unfold slot_ok in Hsl. rewrite Hf in Hsl. destruct (fileSocket sl); [done|].
      destruct Hsl as [_ [o Ho]]. destruct (decide (f < brk s)%positive); [done|].
      destruct (ok_brk s Hs f ltac:(lia)) as (? & _). congruence. }
    destruct Hs. constructor; cbn; try done.
    + by rewrite zlen_insert.
    + intros j p [(-> & ->)|(Hj & Hne)]%Hin.
      * rewrite lookup_insert_eq. by eexists.
      * rewrite lookup_insert_ne by done. by eapply ok_live0.
    + intros p a. destruct (decide (p = brk s)) as [->|Hp].
      * rewrite lookup_insert_eq. by intros [= <-].
      * rewrite lookup_insert_ne by done. apply ok_obj0.
    + intros j k p [(-> & ->)|(Hj & Hne)]%Hin [(-> & Hk)|(Hk & Hne')]%Hin; try done. by eapply ok_slot_inj0.
    + intros p q a b f. destruct (decide (p = brk s)) as [->|Hp], (decide (q = brk s)) as [->|Hq]; [done|..].
      * rewrite lookup_insert_eq, lookup_insert_ne by done. intros [= <-] Hb Ea Eb.
        by destruct (Hnf q b f Hb Eb).
      * rewrite lookup_insert_eq, lookup_insert_ne by done. intros Ha [= <-] Ea Eb.
        by destruct (Hnf p a f Ha Ea).
      * rewrite !lookup_insert_ne by done. apply ok_open_inj0.
    + intros p q a b fd. destruct (decide (p = brk s)) as [->|Hp], (decide (q = brk s)) as [->|Hq]; [done|..].
      * rewrite lookup_insert_eq, lookup_insert_ne by done. intros [= <-] Hb Ea Eb.
        by destruct (Hns q b fd Hb Eb).
      * rewrite lookup_insert_eq, lookup_insert_ne by done. intros Ha [= <-] Ea Eb.
        by destruct (Hns p a fd Ha Ea).
      * rewrite !lookup_insert_ne by done. apply ok_sock_inj0.
    + intros p Hp. rewrite lookup_insert_ne by lia. apply ok_brk0. lia.
    + intros p a f. destruct (decide (p = brk s)) as [->|Hp].
      * rewrite lookup_insert_eq. intros [= <-] Hf. specialize (Hsf f Hf). lia.
      * rewrite lookup_insert_ne by done. intros Ha Hf. specialize (ok_refs0 p a f Ha Hf). lia.
Qed.

(** [Open(name)] opens the file and puts it in the lowest free slot. *)
Lemma StubFS_Open_ok s name n i : fs_ok s -> string_at name s = Ok n ->
  dir (host s) !! n = Some i -> n ∉ protected (host s) -> free_slot (fileSlot s) <> -1 ->
  exists s', Open name s = Ok (Some (brk s), s') /\ fs_ok s' /\
    files s' = <[brk s := OpenFile_n (lowest_fd (host s)) name (free_slot (fileSlot s))]> (files s) /\
    slots s' = <[Pos.succ (brk s) := FileSlot_file (Some (brk s))]> (slots s) /\
    fileSlot s' = <[Z.to_nat (free_slot (fileSlot s)) := Some (Pos.succ (brk s))]> (fileSlot s) /\
    host s' = set_fds (host s) (<[lowest_fd (host s) := File i 0]> (fds (host s))) /\
    chars s' = chars s /\ net s' = net s.
Proof.
  intros Hs Hn Hi Hp Hfree. pose proof (lowest_fd_fresh (host s)) as [Hfr Hfd0].
  destruct (free_slot_spec _ Hfree) as (Hid & Hnone & _).
  unfold Open. rewrite Hn. cbn [rbind]. unfold OpenForReadWrite. rewrite Hi.
  rewrite bool_decide_eq_false_2 by done. cbn [rbind].
  rewrite (proj2 (Z.eqb_neq _ _)) by lia.
  rewrite FindFreeSlot_ok by (exact (ok_table s Hs)). cbn [fileSlot set_host rbind].
  rewrite (proj2 (Z.eqb_neq _ _)) by done.
  set (o := OpenFile_n _ _ _).
  pose proof (fs_ok_new_file s o i 0 Hs eq_refl (hok_dir _ (ok_host s Hs) _ _ Hi) ltac:(lia)) as Hs1.
  set (s1 := (new_OpenFile o _).2) in *.
  destruct (fs_ok_install s1 (FileSlot_file (Some (brk s))) (free_slot (fileSlot s)) Hs1)
    as (s' & Hput & Hs' & ->); [done|lia|..].
  - unfold slot_ok, s1. cbn. split; [done|]. rewrite lookup_insert_eq. by eexists.
  - cbn. intros p a f Ha Hf [= <-]. pose proof (ok_refs s Hs p a _ Ha Hf). lia.
  - cbn. by intros.
  - cbn in Hput. unfold s1 in *. cbn in *. rewrite Hput. cbn [rbind]. eexists. split; [reflexivity|].
    by split_and!.
Qed.

(** A full table: nothing is opened, but the descriptor stays. *)
Lemma StubFS_Open_full s name n i : fs_ok s -> string_at name s = Ok n ->
  dir (host s) !! n = Some i -> n ∉ protected (host s) -> free_slot (fileSlot s) = -1 ->
  Open name s = Ok (None, set_host s (set_fds (host s)
    (<[lowest_fd (host s) := File i 0]> (fds (host s))))).
Proof.
  intros Hs Hn Hi Hp Hfull. pose proof (lowest_fd_fresh (host s)) as [_ Hfd0].
  unfold Open. rewrite Hn. cbn [rbind]. unfold OpenForReadWrite. rewrite Hi.
  rewrite bool_decide_eq_false_2 by done. cbn [rbind].
  rewrite (proj2 (Z.eqb_neq _ _)) by lia.
  rewrite FindFreeSlot_ok by (exact (ok_table s Hs)). cbn [fileSlot set_host rbind].
  by rewrite Hfull.
Qed.

Lemma host_ok_fewer h fd : host_ok h -> host_ok (set_fds h (delete fd (fds h))).
Proof.
  intros [Hd Hf]. constructor; cbn; [done|]. intros fd' i off [_ Hl]%lookup_delete_Some. by apply Hf in Hl.
Qed.

(** Deleting a slot with a file closes the file. *)
Lemma delete_Slot_file s p sl f : fs_ok s -> slots s !! p = Some sl -> slot_ok s sl ->
  fileOpen sl = Some f ->
  exists o, files s !! f = Some o /\
  delete_Slot p s = Ok (mkFS (set_fds (host s) (delete (file o) (fds (host s)))) (net s) (chars s)
    (delete f (files s)) (delete p (slots s)) (fileSlot s) (brk s)).
Proof.
  intros Hs Hsl Hok Hf. unfold slot_ok in Hok. rewrite Hf in Hok.
  destruct (fileSocket sl) eqn:Hso; [done|]. destruct Hok as [_ [o Ho]]. exists o. split; [done|].
  unfold delete_Slot, live. rewrite Hsl. cbn [rbind]. rewrite Hf, Hso.
  unfold delete_OpenFile, live. rewrite Ho. cbn [rbind].
  destruct (ok_file s Hs f o Ho) as (i & off & Hfd). unfold Close. rewrite Hfd.
  rewrite bool_decide_eq_true_2 by (by eexists). reflexivity.
Qed.

Lemma StubFS_CloseFile_ok s id p sl f : fs_ok s -> 2 <= id < MaxFileOpen ->
  fileSlot s !! Z.to_nat id = Some (Some p) -> slots s !! p = Some sl -> fileOpen sl = Some f ->
  exists o s', files s !! f = Some o /\ CloseFile id s = Ok (0, s') /\ fs_ok s' /\
    s' = mkFS (set_fds (host s) (delete (file o) (fds (host s)))) (net s) (chars s)
      (delete f (files s)) (delete p (slots s)) (<[Z.to_nat id := None]> (fileSlot s)) (brk s).
Proof.
  intros Hs Hid Hp Hsl Hf. destruct (ok_slot s _ _ Hs Hp) as (a & Ha & Hok).
  rewrite Hsl in Ha. injection Ha as <-.
  destruct (delete_Slot_file s p sl f Hs Hsl Hok Hf) as (o & Ho & Hd).
  exists o. eexists. split; [done|]. split; [|split; [|reflexivity]].
  - unfold CloseFile. rewrite (proj2 (Z.ltb_ge id 2)), (proj2 (Z.leb_gt MaxFileOpen id)) by lia. cbn [orb].
    rewrite (arr_get_Some (fileSlot s) id (Some p)) by (lia || done). cbn [rbind]. rewrite Hd. cbn [rbind].
    unfold put_slot. cbn. rewrite arr_set_lt by (rewrite (ok_table s Hs); lia). reflexivity.
  - assert (Hin : forall j q, <[Z.to_nat id:=None]> (fileSlot s) !! j = Some (Some q) ->
      fileSlot s !! j = Some (Some q) /\ j <> Z.to_nat id).
    { intros j q. destruct (decide (j = Z.to_nat id)) as [->|Hne].
      - rewrite list_lookup_insert_eq by (by apply lookup_lt_Some in Hp). done.
      - rewrite list_lookup_insert_ne by done. done. }
    pose proof Hs as []. constructor; cbn.
    + by apply host_ok_fewer.
    + by rewrite zlen_insert.
    + intros j q [Hj Hne]%Hin. destruct (ok_live0 j q Hj) as (b & Hb).
      assert (q <> p) by (intros ->; by apply Hne, (ok_slot_inj0 _ _ p)).
      exists b. by rewrite lookup_delete_ne by done.
    + intros q b [Hne Hb]%lookup_delete_Some. pose proof (ok_obj0 q b Hb) as Hok'.
      unfold slot_ok in *. cbn. destruct (fileOpen b) as [g|] eqn:Eg, (fileSocket b) as [fd|]; try done.
      * rewrite lookup_delete_ne; [done|]. intros ->. by apply Hne, (ok_open_inj0 p q sl b g).
      * destruct Hok' as [? Hfd]. rewrite lookup_delete_ne; [done|]. intros <-.
        destruct (ok_file0 f o Ho) as (i' & off' & E). congruence.
    + intros j k q [Hj _]%Hin [Hk _]%Hin. by eapply ok_slot_inj0.
    + intros q r b c g [_ Hb]%lookup_delete_Some [_ Hc]%lookup_delete_Some. by eapply ok_open_inj0.
    + intros q r b c g [_ Hb]%lookup_delete_Some [_ Hc]%lookup_delete_Some. by eapply ok_sock_inj0.
    + intros g b [Hne Hb]%lookup_delete_Some. destruct (ok_file0 g b Hb) as (i' & off' & E).
      exists i', off'. rewrite lookup_delete_ne; [done|]. intros E'. by apply Hne, (ok_file_inj0 f g o b).
    + intros g1 g2 b c [_ Hb]%lookup_delete_Some [_ Hc]%lookup_delete_Some. by eapply ok_file_inj0.
    + intros q Hq. destruct (ok_brk0 q Hq) as (E1 & E2 & E3).
      split_and!; [by apply lookup_delete_None; right|by apply lookup_delete_None; right|done].
    + intros q b g [_ Hb]%lookup_delete_Some. by eapply ok_refs0.
Qed.

(** *** Reading and writing an open file *)

(** The file [f] is open on an inode with these bytes, at offset [off]. *)
Definition opened s (f : loc) (o : OpenFile) (i : positive) (bs : list Z) (off : Z) : Prop :=
  files s !! f = Some o /\ fds (host s) !! file o = Some (File i off) /\
  inodes (host s) !! i = Some bs.

Lemma file_at_opened s f o i bs off : opened s f o i bs off ->
  file_at (host s) (file o) = Some (i, bs, off).
Proof. intros (_ & Hfd & Hi). unfold file_at. rewrite Hfd. cbn. by rewrite Hi. Qed.

Definition at_offset h (fd : Z) (i : positive) (off : Z) : Host :=
  set_fds h (<[fd := File i off]> (fds h)).

Lemma at_offset_at_offset h fd i off off' : at_offset (at_offset h fd i off) fd i off' = at_offset h fd i off'.
Proof. unfold at_offset, set_fds. cbn. by rewrite insert_insert_eq. Qed.

Lemma file_at_offset h fd i bs off : inodes h !! i = Some bs ->
  file_at (at_offset h fd i off) fd = Some (i, bs, off).
Proof. intros Hi. unfold file_at, at_offset. cbn. rewrite lookup_insert_eq. cbn. by rewrite Hi. Qed.

Lemma ReadAt_stub s f o i bs off n pos : opened s f o i bs off -> 0 <= n -> 0 <= pos ->
  ReadAt f n pos s = Ok (Some (slice (Z.to_nat pos) (Z.to_nat n) bs),
    set_host s (at_offset (host s) (file o) i (pos + zlen (slice (Z.to_nat pos) (Z.to_nat n) bs)))).
Proof.
  intros Ho Hn Hpos. pose proof Ho as (Hf & _ & Hi). unfold ReadAt, live. rewrite Hf. cbn [rbind].
  unfold Lseek. rewrite (file_at_opened _ _ _ _ _ _ Ho). cbn [Z.eqb].
  rewrite ASSERT_true by lia. cbn [rbind]. unfold ReadPartial. rewrite (proj2 (Z.ltb_ge _ _)) by lia.
  fold (at_offset (host s) (file o) i pos). rewrite (file_at_offset _ _ _ bs) by done.
  cbn [rbind]. fold (at_offset (at_offset (host s) (file o) i pos) (file o) i
    (pos + zlen (slice (Z.to_nat pos) (Z.to_nat n) bs))). by rewrite at_offset_at_offset.
Qed.

Lemma WriteAt_stub s f o i bs off from n pos : opened s f o i bs off -> 0 <= n <= zlen from ->
  0 <= pos ->
  WriteAt f from n pos s = Ok (n, set_host s (at_offset (set_inode (host s) i
    (write_bytes pos (take (Z.to_nat n) from) bs)) (file o) i (pos + n))).
Proof.
  intros Ho Hn Hpos. pose proof Ho as (Hf & _ & Hi). unfold WriteAt, live. rewrite Hf. cbn [rbind].
  unfold Lseek. rewrite (file_at_opened _ _ _ _ _ _ Ho). cbn [Z.eqb].
  rewrite ASSERT_true by lia. cbn [rbind].
  rewrite (proj2 (Z.leb_le _ _)), (proj2 (Z.leb_le _ _)) by lia. cbn [andb].
  unfold WriteFile. fold (at_offset (host s) (file o) i pos).
  rewrite (file_at_offset _ _ _ bs) by done. cbn [rbind]. unfold zlen in *. rewrite length_take.
  replace (Z.of_nat (Z.to_nat n `min` length from)) with n by lia.
  unfold at_offset, set_inode, set_fds. cbn. by rewrite insert_insert_eq.
Qed.

(** The offset and the bytes of a file may change, the rest stays well formed. *)
Lemma fs_ok_at_offset s f o i bs off bs' off' : fs_ok s -> opened s f o i bs off -> 0 <= off' ->
  fs_ok (set_host s (at_offset (set_inode (host s) i bs') (file o) i off')).
Proof.
  intros Hs (Hf & Hfd & Hi) Hoff. apply fs_ok_host; [done|].
  pose proof (ok_host s Hs) as [Hd Hok]. pose proof (ok_file_inj s Hs) as Hinj. split_and!.
  - constructor; cbn.
    + intros n j Hj. destruct (decide (i = j)) as [->|]; [rewrite lookup_insert_eq; by eexists|].
      rewrite lookup_insert_ne by done. by eapply Hd.
    + intros fd j off1. destruct (decide (fd = file o)) as [->|].
      * rewrite lookup_insert_eq. intros [= <- <-]. by rewrite lookup_insert_eq.
      * rewrite lookup_insert_ne by done. intros Hfd1. destruct (Hok _ _ _ Hfd1) as [Hj Hoff1].
        split; [|done]. destruct (decide (i = j)) as [->|]; [rewrite lookup_insert_eq; by eexists|].
        by rewrite lookup_insert_ne.
  - intros g a j off1 Hg Hfd1. cbn. destruct (decide (file a = file o)) as [E|].
    + rewrite E, lookup_insert_eq. exists off'. rewrite E in Hfd1. by simplify_eq.
    + rewrite lookup_insert_ne by done. by exists off1.
  - intros fd Hs1. cbn. rewrite lookup_insert_ne; [done|]. congruence.
Qed.

Lemma slice_write_bytes off new bs : 0 <= off ->
  slice (Z.to_nat off) (length new) (write_bytes off new bs) = new.
Proof.
  intros Hoff. unfold write_bytes. set (l := bs ++ _).
  assert (Hl : (Z.to_nat off <= length l)%nat) by (unfold l; rewrite length_app, length_replicate; lia).
  unfold slice, splice. rewrite drop_app_length' by (rewrite length_take; lia). apply take_app_length.
Qed.

(** *** The constructor *)

(** The host once [name] exists and is empty. *)
Definition emptied h (name : path) : Host :=
  let i := from_option id (fresh (dom (inodes h))) (dir h !! name) in
  mkHost (<[name := i]> (dir h)) (<[i := []]> (inodes h)) (fds h) (protected h).

Lemma host_ok_emptied h name : host_ok h -> host_ok (emptied h name).
Proof.
  intros [Hd Hf]. unfold emptied. set (i := from_option _ _ _).
  assert (Hi : forall j, is_Some (inodes h !! j) -> is_Some (<[i:=[]]> (inodes h) !! j)).
  { intros j Hj. destruct (decide (i = j)) as [->|]; [rewrite lookup_insert_eq; by eexists|].
    by rewrite lookup_insert_ne. }
  constructor; cbn.
  - intros n j. destruct (decide (n = name)) as [->|].
    + rewrite lookup_insert_eq. intros [= <-]. rewrite lookup_insert_eq. by eexists.
    + rewrite lookup_insert_ne by done. intros Hj. by eapply Hi, Hd.
  - intros fd j off Hfd. destruct (Hf _ _ _ Hfd) as [Hj ?]. split; [by apply Hi|done].
Qed.

Lemma StubFS_Create_ok s name : fs_ok s -> name ∉ protected (host s) ->
  Create name s = Ok (true, set_host s (emptied (host s) name)) /\
  fs_ok (set_host s (emptied (host s) name)).
Proof.
  intros Hs Hp. pose proof (lowest_fd_fresh (host s)) as [Hfr Hfd0]. split.
  - unfold Create, OpenForWrite. rewrite bool_decide_eq_false_2 by done. cbn [negb ASSERT rbind].
    rewrite (proj2 (Z.eqb_neq _ _)) by lia. unfold Close. cbn [fds set_fds].
    rewrite lookup_insert_eq, bool_decide_eq_true_2 by (by eexists). cbn [ASSERT rbind].
    unfold set_fds, emptied. cbn. by rewrite delete_insert_id.
  - apply fs_ok_host; [done|]. pose proof (ok_host s Hs). split_and!.
    + by apply host_ok_emptied.
    + intros f o i off _ Hfd. by exists off.
    + done.
Qed.

Lemma fs_ok_new_chars s bs : fs_ok s -> fs_ok (new_chars bs s).2.
Proof.
  intros []. constructor; cbn; try done.
  - intros p Hp. rewrite lookup_insert_ne by lia. apply ok_brk0. lia.
  - intros p sl f Hp Hf. specialize (ok_refs0 p sl f Hp Hf). lia.
Qed.

Lemma cstr_app n : Forall (fun b => b <> 0) n -> cstr (n ++ [0]) = Ok n.
Proof.
  intros Hn. unfold cstr. rewrite (proj2 (find_index_Some _ _ (length n))).
  - by rewrite take_app_length.
  - exists 0. rewrite lookup_app_r, Nat.sub_diag by lia. split_and!; [done|done|].
    intros j y Hj Hlt. rewrite lookup_app_l in Hj by done.
    rewrite Forall_lookup in Hn. specialize (Hn _ _ Hj). by apply Z.eqb_neq.
Qed.

(** [Open(name, type, id)] for an existing file, in a slot of the caller's. *)
Lemma StubFS_Open_type_ok s name n i type id : fs_ok s -> string_at name s = Ok n ->
  dir (host s) !! n = Some i -> n ∉ protected (host s) -> type <> 4 ->
  let s' := (new_OpenFile (OpenFile_tn (lowest_fd (host s)) type name id)
     (set_host s (set_fds (host s) (<[lowest_fd (host s) := File i 0]> (fds (host s)))))).2 in
  Open_type name type id s = Ok (Some (brk s), s') /\ fs_ok s'.
Proof.
  intros Hs Hn Hi Hp Ht s'. pose proof (lowest_fd_fresh (host s)) as [_ Hfd0]. split.
  - unfold Open_type. rewrite Hn. cbn [rbind]. rewrite (proj2 (Z.eqb_neq _ _)) by done.
    unfold OpenForReadWrite. rewrite Hi, bool_decide_eq_false_2 by done. cbn [rbind].
    by rewrite (proj2 (Z.eqb_neq _ _)) by lia.
  - apply fs_ok_new_file; [done|done| |lia]. exact (hok_dir _ (ok_host s Hs) _ _ Hi).
Qed.

Lemma open_std_ok s name type id i : fs_ok s -> Forall (fun b => b <> 0) name ->
  dir (host s) !! name = Some i -> name ∉ protected (host s) -> type <> 4 -> 0 <= id ->
  fileSlot s !! Z.to_nat id = Some None ->
  exists s' p f, open_std name type id s = Ok s' /\ fs_ok s' /\
    fileSlot s' = <[Z.to_nat id := Some p]> (fileSlot s) /\
    slots s' !! p = Some (FileSlot_file (Some f)) /\
    files s' !! f = Some (OpenFile_tn (lowest_fd (host s)) type (brk s) id) /\
    dir (host s') = dir (host s) /\ inodes (host s') = inodes (host s) /\
    protected (host s') = protected (host s) /\ net s' = net s /\
    (forall q sl, slots s !! q = Some sl -> slots s' !! q = Some sl) /\
    (forall g o, files s !! g = Some o -> files s' !! g = Some o).
Proof.
  intros Hs Hz Hi Hp Ht Hid Hfree. unfold open_std. cbn [new_chars].
  pose proof (fs_ok_new_chars s (name ++ [0]) Hs) as Hs1. set (s1 := (new_chars _ s).2) in *.
  destruct (StubFS_Open_type_ok s1 (brk s) name i type id Hs1) as [HO Hs2]; [|done..|].
  { unfold string_at, live, s1. cbn. rewrite lookup_insert_eq. cbn. by apply cstr_app. }
  change (mkFS (host s) (net s) _ _ _ _ _) with s1. fold s1. unfold s1 in HO. cbn in HO.
  cbn [set_brk set_chars]. rewrite HO. cbn [rbind]. clear HO.
  set (s2 := (new_OpenFile _ _).2) in Hs2.
  destruct (fs_ok_install s2 (FileSlot_file (Some (Pos.succ (brk s)))) id Hs2)
    as (s' & Hput & Hs' & Es'); [done|done|..].
  - unfold slot_ok. cbn. split; [done|]. rewrite lookup_insert_eq. by eexists.
  - cbn. intros q a g Ha Hg [= <-]. pose proof (ok_refs _ Hs1 q a _ Ha Hg) as E. cbn in E. lia.
  - by intros.
  - exists s', (Pos.succ (Pos.succ (brk s))), (Pos.succ (brk s)). split; [exact Hput|].
    rewrite Es' in *. cbn. rewrite !lookup_insert_eq. split_and!; try done.
    + intros q sl Hq. rewrite lookup_insert_ne; [done|]. intros <-.
      destruct (ok_brk s Hs (Pos.succ (Pos.succ (brk s)))) as (_ & E & _); [lia|congruence].
    + intros g o Hg. rewrite lookup_insert_ne; [done|]. intros <-.
      destruct (ok_brk s Hs (Pos.succ (brk s))) as (E & _); [lia|congruence].
Qed.

Lemma table_cleared junk : for_range (Z.to_nat MaxFileOpen) 0 (fun i t => arr_set t i None)
    (map junk (seq 0 (Z.to_nat MaxFileOpen))) = Ok (replicate (Z.to_nat MaxFileOpen) (@None loc)).
Proof. reflexivity. Qed.

(** The constructor: slots 0 and 1 hold the files [stdin] and [stdout]. *)
Lemma new_FileSystem_ok junk h n : host_ok h -> stdin_name ∉ protected h ->
  stdout_name ∉ protected h ->
  exists s p0 p1, new_FileSystem junk h n = Ok s /\ fs_ok s /\ net s = n /\
    fileSlot s = Some p0 :: Some p1 :: replicate 18 None.
Proof.
  intros Hh Hin Hout. unfold new_FileSystem. rewrite table_cleared. cbn [rbind].
  set (s0 := mkFS h n ∅ ∅ ∅ _ _).
  assert (Hnone : forall i p, fileSlot s0 !! i <> Some (Some p)).
  { intros i p Hi. by apply lookup_replicate in Hi as [? _]. }
  assert (Hs0 : fs_ok s0).
  { constructor; try done; try (intros i p Hi; by apply Hnone in Hi);
      try (intros i j p Hi; by apply Hnone in Hi). }
  destruct (StubFS_Create_ok s0 stdin_name Hs0 Hin) as [-> Hs1]. cbn [rbind].
  set (s1 := set_host s0 _) in *.
  destruct (StubFS_Create_ok s1 stdout_name Hs1 Hout) as [-> Hs2]. cbn [rbind].
  set (s2 := set_host s1 _) in *.
  assert (Hdi : exists i, dir (host s2) !! stdin_name = Some i).
  { eexists. cbn. rewrite lookup_insert_ne by done. apply lookup_insert_eq. }
  assert (Hdo : exists i, dir (host s2) !! stdout_name = Some i).
  { eexists. cbn. apply lookup_insert_eq. }
  destruct Hdi as [i Hdi], Hdo as [j Hdo].
  destruct (open_std_ok s2 stdin_name 2 0 i Hs2) as
    (s3 & p0 & f0 & -> & Hs3 & Ht3 & _ & _ & Hd3 & _ & Hp3 & Hn3 & _); [|done..|lia|done|].
  { by repeat constructor. }
  cbn [rbind]. rewrite <- Hd3 in Hdo.
  destruct (open_std_ok s3 stdout_name 3 1 j Hs3) as
    (s4 & p1 & f1 & -> & Hs4 & Ht4 & _ & _ & _ & _ & _ & Hn4 & _); [by repeat constructor|done| |done|lia| |].
  { by rewrite Hp3. }
  { by rewrite Ht3. }
  exists s4, p0, p1. split_and!; [done|done|by rewrite Hn4, Hn3|by rewrite Ht4, Ht3].
Qed.

(** *** Seek, Read and Write *)

Lemma fs_ok_set_offset s f o off : fs_ok s -> files s !! f = Some o ->
  fs_ok (set_file f (set_offset o off) s).
Proof.
  intros [] Ho.
  assert (Hg : forall g a, <[f := set_offset o off]> (files s) !! g = Some a ->
    exists b, files s !! g = Some b /\ file a = file b).
  { intros g a. destruct (decide (f = g)) as [<-|].
    - rewrite lookup_insert_eq. intros [= <-]. by exists o.
    - rewrite lookup_insert_ne by done. by exists a. }
  constructor; cbn; try done.
  - intros p sl Hsl. pose proof (ok_obj0 p sl Hsl) as Hok.
    unfold slot_ok in *. cbn. destruct (fileOpen sl) as [g|], (fileSocket sl); try done.
    destruct Hok as [? Hx]. split; [done|].
    destruct (decide (f = g)) as [<-|]; [rewrite lookup_insert_eq; by eexists|by rewrite lookup_insert_ne].
  - intros g a (b & Hb & ->)%Hg. by eapply ok_file0.
  - intros g1 g2 a b (a' & Ha & ->)%Hg (b' & Hb & ->)%Hg. by eapply ok_file_inj0.
  - intros p Hp. destruct (ok_brk0 p Hp) as (E & ? & ?). rewrite lookup_insert_ne; [done|congruence].
Qed.

Lemma set_inode_id h i bs : inodes h !! i = Some bs -> set_inode h i bs = h.
Proof. intros Hi. destruct h. unfold set_inode. cbn in *. by rewrite insert_id. Qed.

(** After an operation that left the file's bytes [bs] and both offsets [off]. *)
Definition moved s (f : loc) (o : OpenFile) (i : positive) (bs : list Z) (off : Z) : FS N :=
  set_file f (set_offset o off) (set_host s (at_offset (set_inode (host s) i bs) (file o) i off)).

Lemma moved_ok s f o i bs off bs' off' : fs_ok s -> opened s f o i bs off -> 0 <= off' ->
  fs_ok (moved s f o i bs' off') /\ opened (moved s f o i bs' off') f (set_offset o off') i bs' off'.
Proof.
  intros Hs Ho Hoff. pose proof Ho as (Hf & _). split.
  - apply fs_ok_set_offset; [by eapply fs_ok_at_offset|done].
  - unfold opened. cbn. by rewrite !lookup_insert_eq.
Qed.

Lemma Seek_stub s f o i bs off pos : opened s f o i bs off -> 0 <= pos ->
  Seek f pos s = Ok (pos, moved s f o i bs pos).
Proof.
  intros Ho Hpos. pose proof Ho as (Hf & _ & Hi). unfold Seek, live. rewrite Hf. cbn [rbind].
  unfold Lseek. rewrite (file_at_opened _ _ _ _ _ _ Ho). cbn [Z.eqb].
  rewrite ASSERT_true by lia. cbn [rbind]. fold (at_offset (host s) (file o) i pos).
  unfold Tell. rewrite (file_at_offset _ _ _ bs) by done. unfold moved. by rewrite set_inode_id.
Qed.

Lemma Write_stub s f o i bs off from n : opened s f o i bs off -> 0 <= n <= zlen from ->
  0 <= currentOffset o -> currentOffset o + n < 2 ^ 31 ->
  Write f from n s = Ok (n, moved s f o i
    (write_bytes (currentOffset o) (take (Z.to_nat n) from) bs) (currentOffset o + n)).
Proof.
  intros Ho Hn Hpos Hmax. pose proof Ho as (Hf & _ & Hi). unfold Write, live. rewrite Hf. cbn [rbind].
  rewrite (WriteAt_stub _ _ _ _ _ _ _ _ _ Ho Hn Hpos). cbn [rbind].
  rewrite s32_id by (unfold is_s32; lia). done.
Qed.

Lemma Read_stub s f o i bs off n : opened s f o i bs off -> 0 <= n ->
  0 <= currentOffset o -> currentOffset o + n < 2 ^ 31 ->
  let got := slice (Z.to_nat (currentOffset o)) (Z.to_nat n) bs in
  Read f n s = Ok (Some got, moved s f o i bs (currentOffset o + zlen got)).
Proof.
  intros Ho Hn Hpos Hmax got. pose proof Ho as (Hf & _ & Hi). unfold Read, live. rewrite Hf. cbn [rbind].
  rewrite (ReadAt_stub _ _ _ _ _ _ _ _ Ho Hn Hpos). cbn [rbind count from_option]. fold got.
  assert (zlen got <= n) by (unfold got, slice, zlen; rewrite length_take; lia).
  pose proof (zlen_nonneg got). rewrite s32_id by (unfold is_s32; lia).
  unfold moved. by rewrite set_inode_id.
Qed.

(** A new socket in the lowest free slot. *)
Lemma createTCP_ok s : fs_ok s -> free_slot (fileSlot s) <> -1 ->
  exists s', createTCP s = Ok (free_slot (fileSlot s), s') /\ fs_ok s' /\
    fileSlot s' = <[Z.to_nat (free_slot (fileSlot s)) := Some (brk s)]> (fileSlot s) /\
    slots s' !! brk s = Some (FileSlot_socket (lowest_fd (host s))).
Proof.
  intros Hs Hfree. destruct (free_slot_spec _ Hfree) as (Hid & Hnone & _).
  pose proof (lowest_fd_fresh (host s)) as [Hfr Hfd0].
  unfold createTCP. rewrite FindFreeSlot_ok by (exact (ok_table s Hs)). cbn [rbind].
  rewrite (proj2 (Z.eqb_neq _ _)) by done. unfold OpenSocketInternet. cbn [rbind].
  rewrite (proj2 (Z.ltb_ge _ (-1))) by lia.
  set (h := set_fds _ _).
  assert (Hh : host_ok h).
  { destruct (ok_host s Hs) as [Hd Hf]. constructor; cbn; [done|]. intros fd j off.
    destruct (decide (fd = lowest_fd (host s))) as [->|]; [by rewrite lookup_insert_eq|].
    rewrite lookup_insert_ne by done. apply Hf. }
  pose proof (fs_ok_host s h Hs (keeps_insert_fresh s h _ Hs eq_refl Hh)) as Hs1.
  destruct (fs_ok_install (set_host s h) (FileSlot_socket (lowest_fd (host s)))
    (free_slot (fileSlot s)) Hs1) as (s' & Hput & Hs' & Es'); [done|lia|..].
  - unfold slot_ok. cbn. by rewrite lookup_insert_eq.
  - by intros.
  - cbn. intros p a fd Ha Hso [= <-].
    pose proof (ok_obj s Hs p a Ha) as Hok. unfold slot_ok in Hok. rewrite Hso in Hok.
    destruct (fileOpen a); [done|]. destruct Hok as [_ Hfd]. congruence.
  - cbn in Hput. unfold new_Slot. cbn. rewrite Hput. cbn [rbind]. exists s'. subst s'. cbn.
    rewrite lookup_insert_eq. by split_and!.
Qed.

(** ** Properties *)

(** C22. Opening and closing: [Open] takes the lowest free slot from 2 on, for a
    live file at offset 0, and closing that slot restores table, heap and host
    exactly; the file table stays well formed throughout.  When the table is
    full [Open] returns a null pointer, and the UNIX descriptor it has opened
    stays open. *)
Theorem StubFS_open_close s name n i (Hok : fs_ok s) (Hname : string_at name s = Ok n)
    (Hfile : dir (host s) !! n = Some i) (Haccess : n ∉ protected (host s)) :
  let id := free_slot (fileSlot s) in
  if decide (id = -1) then
    Open name s = Ok (None, set_host s (at_offset (host s) (lowest_fd (host s)) i 0)) /\
    fds (host s) !! lowest_fd (host s) = None
  else exists s1 s2 o bs, 2 <= id < MaxFileOpen /\
    (forall j, 2 <= j < id -> exists p, fileSlot s !! Z.to_nat j = Some (Some p)) /\
    Open name s = Ok (Some (brk s), s1) /\ fs_ok s1 /\ opened s1 (brk s) o i bs 0 /\
    CloseFile id s1 = Ok (0, s2) /\ fs_ok s2 /\ host s2 = host s /\ files s2 = files s /\
    slots s2 = slots s /\ fileSlot s2 = fileSlot s.
Proof.
  intros id. pose proof (lowest_fd_fresh (host s)) as [Hfr _].
  case_decide as E; [split; [by eapply StubFS_Open_full|done]|].
  destruct (free_slot_spec _ E) as (Hid & Hnone & Hlow).
  destruct (StubFS_Open_ok s name n i Hok Hname Hfile Haccess E)
    as (s1 & HO & Hs1 & Hf1 & Hsl1 & Ht1 & Hh1 & _ & Hn1).
  rewrite (ok_table s Hok) in Hid. fold id in Hid, Hnone, Hlow, Hf1, Ht1. pose proof (lookup_lt_Some _ _ _ Hnone) as Hlt.
  destruct (StubFS_CloseFile_ok s1 id (Pos.succ (brk s)) (FileSlot_file (Some (brk s))) (brk s) Hs1)
    as (o & s2 & Ho & HC & Hs2 & Es2); [done| | |done|].
  { rewrite Ht1. by apply list_lookup_insert_eq. }
  { rewrite Hsl1. apply lookup_insert_eq. }
  destruct (hok_dir _ (ok_host s Hok) _ _ Hfile) as [bs Hbs].
  pose proof (ok_brk s Hok (brk s) ltac:(lia)) as (Hbf & _).
  pose proof (ok_brk s Hok (Pos.succ (brk s)) ltac:(lia)) as (_ & Hbs' & _).
  rewrite Hf1, lookup_insert_eq in Ho. injection Ho as <-.
  exists s1, s2, (OpenFile_n (lowest_fd (host s)) name id), bs. split; [exact Hid|].
  split; [exact Hlow|]. split; [done|]. split; [done|]. split; [|subst s2; split_and!; try done].
  - unfold opened. rewrite Hf1, Hh1. cbn. by rewrite !lookup_insert_eq.
  - cbn. rewrite Hh1. cbn. rewrite delete_insert_id by done. by destruct (host s).
  - cbn. rewrite Hf1. by apply delete_insert_id.
  - cbn. rewrite Hsl1. by apply delete_insert_id.
  - cbn. rewrite Ht1, list_insert_insert_eq. by apply list_insert_id.
Qed.

(** C34. An open file is the UNIX file: after [Seek] to any position, a [Write]
    changes exactly the bytes from there on (filling a gap with zeros), and
    seeking back and reading returns what was written; the table stays well
    formed and the other inodes are untouched. *)
Theorem StubFile_read_after_write s f o i bs off pos data (Hok : fs_ok s)
    (Hopen : opened s f o i bs off) (Hpos : 0 <= pos) (Hmax : pos + zlen data < 2 ^ 31) :
  exists s1 s2 s3 s4, Seek f pos s = Ok (pos, s1) /\
    Write f data (zlen data) s1 = Ok (zlen data, s2) /\
    inodes (host s2) = <[i := write_bytes pos data bs]> (inodes (host s)) /\
    Seek f pos s2 = Ok (pos, s3) /\ Read f (zlen data) s3 = Ok (Some data, s4) /\
    GetCurrentPos f s4 = Ok (pos + zlen data, s4) /\ fs_ok s4.
Proof.
  pose proof (zlen_nonneg data) as Hd.
  destruct (moved_ok s f o i bs off bs pos Hok Hopen Hpos) as [Hs1 Ho1].
  pose proof (Write_stub _ _ _ _ _ _ data (zlen data) Ho1 ltac:(lia) Hpos Hmax) as HW.
  replace (take (Z.to_nat (zlen data)) data) with data in HW
    by (unfold zlen; by rewrite Nat2Z.id, firstn_all). cbn [currentOffset set_offset] in HW.
  set (bs2 := write_bytes pos data bs) in *.
  destruct (moved_ok _ _ _ _ _ _ bs2 (pos + zlen data) Hs1 Ho1 ltac:(lia)) as [Hs2 Ho2].
  destruct (moved_ok _ _ _ _ _ _ bs2 pos Hs2 Ho2 ltac:(lia)) as [Hs3 Ho3].
  pose proof (Read_stub _ _ _ _ _ _ (zlen data) Ho3 ltac:(lia) Hpos Hmax) as HR.
  cbn [currentOffset set_offset] in HR. cbv zeta in HR.
  replace (slice (Z.to_nat pos) (Z.to_nat (zlen data)) bs2) with data in HR
    by (unfold zlen; rewrite Nat2Z.id; symmetry; by apply slice_write_bytes).
  destruct (moved_ok _ _ _ _ _ _ bs2 (pos + zlen data) Hs3 Ho3 ltac:(lia)) as [Hs4 Ho4].
  do 4 eexists. split; [by eapply Seek_stub|]. split; [exact HW|].
  split; [cbn; by rewrite insert_insert_eq|]. split; [by eapply Seek_stub|]. split; [exact HR|].
  split; [|exact Hs4]. destruct Ho4 as (E & E' & E''). unfold GetCurrentPos, live. rewrite E. cbn [rbind].
  unfold Tell. rewrite (file_at_opened _ _ _ _ _ _ (conj E (conj E' E''))).
  f_equal. f_equal. unfold set_file. rewrite insert_id by (by rewrite E). done.
Qed.

(** Closing a socket does not free its slot: [closeTCP] closes the
    descriptor and deletes the slot object but keeps the pointer, so the table
    entry is never free again and every later use of that socket id reads a
    deleted object. *)
Theorem closeTCP_dangles s id p sl fd (Hok : fs_ok s) (Hid : 2 <= id < MaxFileOpen)
    (Hslot : fileSlot s !! Z.to_nat id = Some (Some p)) (Hobj : slots s !! p = Some sl)
    (Hsock : fileSocket sl = Some fd) :
  exists s', closeTCP id s = Ok (0, s') /\ fds (host s') !! fd = None /\
    fileSlot s' = fileSlot s /\ free_slot (fileSlot s') <> id /\
    closeTCP id s' = Fault UseAfterFree /\
    (forall ip port, connectTCP id ip port s' = Fault UseAfterFree) /\
    (forall buffer len, sendTCP id buffer len s' = Fault UseAfterFree) /\
    (forall len, receiveTCP id len s' = Fault UseAfterFree) /\
    CloseFile id s' = Fault UseAfterFree.
Proof.
  assert (Hb : bad_slot id = false).
  { unfold bad_slot, reverseFD. rewrite (proj2 (Z.ltb_ge id 2)), (proj2 (Z.leb_gt MaxFileOpen id)) by lia. done. }
  assert (Hget : arr_get (fileSlot s) id = Ok (Some p)) by (apply arr_get_Some; [lia|done]).
  destruct (ok_slot s _ _ Hok Hslot) as (a & Ha & Hsl). rewrite Hobj in Ha. injection Ha as <-.
  assert (Hno : fileOpen sl = None).
  { unfold slot_ok in Hsl. rewrite Hsock in Hsl. by destruct (fileOpen sl). }
  set (s' := mkFS (CloseSocket fd (CloseSocket fd (host s))) (net s) (chars s) (files s)
    (delete p (slots s)) (fileSlot s) (brk s)).
  assert (Hdead : forall q : loc * FileSlot -> res (Z * FS N), rbind (slot_at id s') q = Fault UseAfterFree).
  { intros q. unfold slot_at, s'. cbn. rewrite Hget. cbn. unfold live. by rewrite lookup_delete_eq. }
  assert (Hdead' : socket_fd id s' = Fault UseAfterFree).
  { unfold socket_fd, slot_at, s'. cbn. rewrite Hget. cbn. unfold live. by rewrite lookup_delete_eq. }
  exists s'. unfold closeTCP, connectTCP, sendTCP, receiveTCP, CloseFile.
  rewrite Hb, !Hdead'. change (fileSlot s') with (fileSlot s). rewrite Hget. cbn [rbind].
  rewrite (bool_decide_eq_false_2 (Some p = None)) by done. split_and!; try done.
  - unfold socket_fd, slot_at. rewrite Hget. cbn. unfold live. rewrite Hobj. cbn. rewrite Hsock. cbn.
    unfold delete_Slot, live. cbn. rewrite Hobj. cbn. by rewrite Hno, Hsock.
  - cbn. apply lookup_delete_eq.
  - intros E. destruct (free_slot_spec (fileSlot s)) as (_ & Hn & _); [lia|]. rewrite E in Hn. congruence.
  - rewrite (proj2 (Z.ltb_ge id 2)), (proj2 (Z.leb_gt MaxFileOpen id)) by lia. cbn [orb].
    unfold delete_Slot, live, s'. cbn. by rewrite lookup_delete_eq.
Qed.
End theory.

(** *** A concrete file system *)

(** A network where nothing answers. *)
#[global] Instance no_network : TCP () := {|
  ConnectTCP _ _ _ n := (-1, n); Send _ _ n := (-1, n); Receive _ _ n := (None, n);
|}.

#[global] Instance no_network_laws : TCPLaws ().
Proof. constructor. by intros. Qed.

(** A host with one file, [a], that holds the bytes 1, 2, 3. *)
Definition ex_host : Host := mkHost {[ [97] := 1%positive ]} {[ 1%positive := [1; 2; 3] ]} std_fds ∅.

Lemma ex_host_ok : host_ok ex_host.
Proof.
  constructor.
  - intros n i Hi. cbn in Hi. apply lookup_singleton_Some in Hi as [<- <-]. by eexists.
  - intros fd i off Hfd. exfalso. cbn in Hfd. unfold std_fds in Hfd.
    repeat (apply lookup_insert_Some in Hfd as [[_ Hfd]|[_ Hfd]]; [done|]).
    by apply lookup_singleton_Some in Hfd as [_ ?].
Qed.

(** The kernel's file system on it, with the name [a] in memory. *)
Definition ex_fs : FS () :=
  match new_FileSystem (fun _ => None) ex_host () with
  | Ok s => (new_chars [97; 0] s).2
  | Fault _ => mkFS ex_host () ∅ ∅ ∅ [] 1%positive
  end.

Lemma ex_fs_ok : fs_ok ex_fs.
Proof.
  destruct (new_FileSystem_ok (fun _ => None) ex_host () ex_host_ok) as (s & p0 & p1 & E & Hs & _);
    [apply not_elem_of_empty..|]. unfold ex_fs. rewrite E. by apply fs_ok_new_chars.
Qed.

(** The address of the name. *)
Definition ex_name : loc := Pos.pred (brk ex_fs).

Definition ex_opened : FS () :=
  match Open ex_name ex_fs with Ok (_, s) => s | Fault _ => ex_fs end.

Lemma ex_string : string_at ex_name ex_fs = Ok [97].
Proof. vm_compute. reflexivity. Qed.

Lemma ex_dir : dir (host ex_fs) !! [97] = Some 1%positive.
Proof. vm_compute. reflexivity. Qed.

Lemma ex_access : [97] ∉ protected (host ex_fs).
Proof. apply (bool_decide_unpack _). vm_compute. exact I. Qed.

Lemma ex_free : free_slot (fileSlot ex_fs) = 2.
Proof. vm_compute. reflexivity. Qed.

Example StubFS_open_close_witness :
  exists s1 s2 : FS (), Open ex_name ex_fs = Ok (Some (brk ex_fs), s1) /\
    CloseFile 2 s1 = Ok (0, s2) /\ fileSlot s2 = fileSlot ex_fs.
Proof.
  pose proof (StubFS_open_close ex_fs ex_name [97] 1 ex_fs_ok ex_string ex_dir ex_access) as HO.
  cbv zeta in HO. rewrite ex_free, decide_False in HO by done.
  destruct HO as (s1 & s2 & o & bs & _ & _ & H1 & _ & _ & H2 & _ & _ & _ & _ & H3).
  exists s1, s2. split; [exact H1|]. split; [exact H2|exact H3].
Defined.

Lemma ex_opened_ok : fs_ok ex_opened /\ exists f o i bs off, opened ex_opened f o i bs off.
Proof.
  destruct (StubFS_Open_ok ex_fs ex_name [97] 1 ex_fs_ok ex_string ex_dir ex_access)
    as (s1 & H1 & Hs1 & Hf & _ & _ & Hh & _); [rewrite ex_free; done|].
  unfold ex_opened. rewrite H1. split; [exact Hs1|].
  destruct (hok_dir _ (ok_host _ ex_fs_ok) _ _ ex_dir) as [bs Hbs].
  exists (brk ex_fs), (OpenFile_n (lowest_fd (host ex_fs)) ex_name (free_slot (fileSlot ex_fs))),
    1%positive, bs, 0. unfold opened. rewrite Hf, Hh, lookup_insert_eq.
  cbn [fds inodes set_fds file OpenFile_n]. rewrite lookup_insert_eq. by split_and!.
Qed.

Example StubFile_read_after_write_witness :
  exists f s1 s2 (s3 s4 : FS ()), Seek f 2 ex_opened = Ok (2, s1) /\
    Write f [7; 8] 2 s1 = Ok (2, s2) /\ Read f 2 s3 = Ok (Some [7; 8], s4).
Proof.
  destruct ex_opened_ok as (Hs & f & o & i & bs & off & Ho).
  destruct (StubFile_read_after_write ex_opened f o i bs off 2 [7; 8] Hs Ho ltac:(lia) eq_refl)
    as (s1 & s2 & s3 & s4 & H1 & H2 & _ & _ & H4 & _).
  exists f, s1, s2, s3, s4. split; [exact H1|]. split; [exact H2|exact H4].
Defined.

Lemma ex_sock : exists s, createTCP ex_fs = Ok (2, s) /\ fs_ok s /\
  fileSlot s !! 2%nat = Some (Some (brk ex_fs)) /\
  exists fd, slots s !! brk ex_fs = Some (FileSlot_socket fd).
Proof.
  destruct (createTCP_ok ex_fs ex_fs_ok) as (s & E & Hs & Ht & Hsl); [rewrite ex_free; done|].
  rewrite ex_free in E, Ht. exists s. split; [done|]. split; [done|]. split; [|by eexists].
  rewrite Ht. apply list_lookup_insert_eq. pose proof (ok_table _ ex_fs_ok) as Hl.
  unfold zlen, MaxFileOpen in Hl. lia.
Qed.

Example closeTCP_dangles_witness :
  exists (s s' : FS ()), createTCP ex_fs = Ok (2, s) /\ closeTCP 2 s = Ok (0, s') /\
    closeTCP 2 s' = Fault UseAfterFree.
Proof.
  destruct ex_sock as (s & E & Hs & Ht & fd & Hsl).
  destruct (closeTCP_dangles s 2 (brk ex_fs) (FileSlot_socket fd) fd Hs) as (s' & H1 & _ & _ & _ & H2 & _).
  - unfold MaxFileOpen. lia.
  - exact Ht.
  - exact Hsl.
  - reflexivity.
  - exists s, s'. split; [exact E|]. split; [exact H1|exact H2].
Defined.
End StubFS.
