(* ===== verification/AddrSpace.v ===== *)
(** Address spaces ([userprog/addrspace.h], [userprog/addrspace.cc],
    [userprog/noff.h]): page tables over the machine's frames, loading a NOFF
    executable, the registers of a new program, and what a context switch
    restores. *)

From S2P Require Import Prelude Bitmap Machine HostFS.
Import Machine Unix StubFS.

Module AddrSpace.

Definition UserStackSize : Z := 1024.
Definition NOFFMAGIC : Z := 0xbadfad.

(** [userprog/noff.h], compiled with [RDATA] *)
Record Segment := mkSegment { virtualAddr : Z; inFileAddr : Z; size : Z }.
Record NoffHeader := mkNoff {
  noffMagic : Z;
  code : Segment;
  initData : Segment;
  readonlyData : Segment;
  uninitData : Segment;
}.
Definition sizeof_NoffHeader : Z := 52.

(** The [k]-th [int] of a structure held as bytes. *)
Definition word_at (bs : list Z) (k : nat) : Z := s32 (le_combine (slice (4 * k) 4 bs)).
Definition segment_at (bs : list Z) (k : nat) : Segment :=
  mkSegment (word_at bs k) (word_at bs (k + 1)) (word_at bs (k + 2)).
Definition noff_of_bytes (bs : list Z) : NoffHeader :=
  mkNoff (word_at bs 0) (segment_at bs 1) (segment_at bs 4) (segment_at bs 7) (segment_at bs 10).

Definition swap_segment (s : Segment) : Segment :=
  mkSegment (WordToHost (virtualAddr s)) (WordToHost (inFileAddr s)) (WordToHost (size s)).
Definition SwapHeader (n : NoffHeader) : NoffHeader :=
  mkNoff (WordToHost (noffMagic n)) (swap_segment (code n)) (swap_segment (initData n))
    (swap_segment (readonlyData n)) (swap_segment (uninitData n)).

(** An [AddrSpace]; the constructor leaves every field uninitialised. *)
Record AddrSpace := mkAddrSpace {
  stackptr : option Z;
  argc : option Z;
  argv : option Z;
  pageTable : option (list TranslationEntry);
  numPages : option Z;
}.

Definition new_AddrSpace : AddrSpace := mkAddrSpace None None None None None.

Definition set_map (m : Machine) bm : Machine :=
  mkMachine (mainMemory m) bm (tlb m) (Machine.pageTable m) (pageTableSize m) (registers m)
    (singleStep m) (runUntilTime m).

(** *** Memory *)

(** The first loop of [AllocateMemory]: a frame for each page.  [FindAndSet]
    returns -1 when no frame is free. *)
Definition map_pages (n : Z) (pt : list TranslationEntry) (bm : Bitmap.Bitmap)
    : res (list TranslationEntry * Bitmap.Bitmap) :=
  for_range (Z.to_nat n) 0 (fun i '(pt, bm) =>
    '(frame, bm) ← Bitmap.FindAndSet bm;
    pt ← arr_set pt i (mkEntry i frame true false false false);
    Ok (pt, bm)) (pt, bm).

(** The second: the pages are zeroed. *)
Definition zero_pages (n : Z) (pt : list TranslationEntry) (mem : list Z) : res (list Z) :=
  for_range (Z.to_nat n) 0 (fun i mem =>
    e ← arr_get pt i;
    for_range (Z.to_nat PageSize) 0 (fun j mem =>
      mem_write mem (s32 (s32 (physicalPage e * PageSize) + j)) 1 0) mem) mem.

(** [junk] is the new array before it is filled. *)
Definition AllocateMemory (junk : nat -> TranslationEntry) (n : Z) (a : AddrSpace) (m : Machine)
    : res (AddrSpace * Machine) :=
  '(pt, bm) ← map_pages n (map junk (seq 0 (Z.to_nat n))) (pageTableMap m);
  mem ← zero_pages n pt (mainMemory m);
  Ok (mkAddrSpace (stackptr a) (argc a) (argv a) (Some pt) (Some n),
      set_memory (set_map m bm) mem).

Definition delete_AddrSpace (a : AddrSpace) (m : Machine) : res Machine :=
  n ← init (numPages a);
  pt ← init (pageTable a);
  bm ← for_range (Z.to_nat n) 0 (fun i bm =>
         e ← arr_get pt i; Bitmap.Clear bm (physicalPage e)) (pageTableMap m);
  Ok (set_map m bm).

(** [pageTable[vaddr / PageSize].physicalPage * PageSize + vaddr % PageSize] *)
Definition paddr (pt : list TranslationEntry) (vaddr : Z) : res Z :=
  e ← arr_get pt (vaddr / PageSize);
  Ok (u32 (s32 (physicalPage e * PageSize) + vaddr mod PageSize)).

(** [mainMemory[paddr] = b] and a store of 4 bytes, at a virtual address. *)
Definition store (pt : list TranslationEntry) (vaddr n v : Z) (mem : list Z) : res (list Z) :=
  p ← paddr pt vaddr; mem_write mem p n v.

Section loading.
Context {N : Type} `{TCP N}.
Implicit Types (fs : FS N).

(** One byte of the file read into memory; at the end of the file nothing is. *)
Definition load_byte (pt : list TranslationEntry) (executable : loc) (vaddr position : Z)
    : list Z * FS N -> res (list Z * FS N) := fun '(mem, fs) =>
  p ← paddr pt vaddr;
  '(r, fs) ← ReadAt executable 1 position fs;
  match r with
  | Some [b] => mem ← mem_write mem p 1 b; Ok (mem, fs)
  | _ => Ok (mem, fs)
  end.

(** [n] bytes of a segment. *)
Definition load_segment (pt : list TranslationEntry) (executable : loc) (sg : Segment) (n : Z)
    (st : list Z * FS N) : res (list Z * FS N) :=
  for_range (Z.to_nat n) 0 (fun i st =>
    load_byte pt executable (u32 (virtualAddr sg + i)) (s32 (inFileAddr sg + i)) st) st.

Definition zero_segment (pt : list TranslationEntry) (sg : Segment) (mem : list Z) : res (list Z) :=
  for_range (Z.to_nat (size sg)) 0 (fun i mem =>
    store pt (u32 (virtualAddr sg + i)) 1 0 mem) mem.

(** The segments in the order of [Load]; the last loop runs to [virtualAddr]. *)
Definition load_segments (pt : list TranslationEntry) (executable : loc) (noffH : NoffHeader)
    (st : list Z * FS N) : res (list Z * FS N) :=
  st ← (if 0 <? size (code noffH)
        then load_segment pt executable (code noffH) (size (code noffH)) st
        else Ok st);
  let '(mem, fs) := st in
  mem ← zero_segment pt (uninitData noffH) mem;
  st ← (if 0 <? size (initData noffH)
        then load_segment pt executable (initData noffH) (size (initData noffH)) (mem, fs)
        else Ok (mem, fs));
  if 0 <? size (readonlyData noffH)
  then load_segment pt executable (readonlyData noffH) (virtualAddr (readonlyData noffH)) st
  else Ok st.

(** [while (vaddr % k != 0) vaddr--;] *)
Definition align_down (k : nat) (vaddr : Z) : res Z :=
  loop (S k) (fun v => if negb (v mod Z.of_nat k =? 0) then Ok (inl (u32 (v - 1)))
                       else Ok (inr v)) vaddr.

(** The strings of the arguments, end to end from [vaddr]. *)
Definition copy_strings (pt : list TranslationEntry) (args : list (list Z)) (vaddr : Z)
    (mem : list Z) : res (Z * list Z) :=
  for_range (length args) 0 (fun i '(vaddr, mem) =>
    arg ← arr_get args i;
    for_range (S (length arg)) 0 (fun j '(vaddr, mem) =>
      c ← arr_get (arg ++ [0]) j;
      mem ← store pt vaddr 1 c mem;
      Ok (u32 (vaddr + 1), mem)) (vaddr, mem)) (vaddr, mem).

(** The array of pointers to them, and its null end. *)
Definition copy_pointers (pt : list TranslationEntry) (args : list (list Z)) (vaddr ptr : Z)
    (mem : list Z) : res (list Z) :=
  '(vaddr, _, mem) ← for_range (length args) 0 (fun i '(vaddr, ptr, mem) =>
    arg ← arr_get args i;
    mem ← store pt vaddr 4 ptr mem;
    Ok (u32 (vaddr + 4), u32 (ptr + zlen arg + 1), mem)) (vaddr, ptr, mem);
  store pt vaddr 4 0 mem.

(** The arguments above the stack: [this->argv], the stack pointer, the memory. *)
Definition copy_args (pt : list TranslationEntry) (n : Z) (args : list (list Z)) (mem : list Z)
    : res (Z * Z * list Z) :=
  let size := u32 (PageSize * n) in
  let ptr := u32 (size - 8) in
  let ptr := foldl (fun ptr arg => u32 (ptr - (zlen arg + 1))) ptr args in
  '(_, mem) ← copy_strings pt args ptr mem;
  vaddr ← align_down 4 (u32 (ptr - (zlen args + 1) * 4));
  mem ← copy_pointers pt args vaddr ptr mem;
  sp ← align_down 8 (u32 (vaddr - 4));
  Ok (vaddr, sp, mem).

(** The strings the [argv] array points to. *)
Fixpoint strings_at (ps : list loc) fs : res (list (list Z)) :=
  match ps with
  | [] => Ok []
  | p :: ps => x ← string_at p fs; xs ← strings_at ps fs; Ok (x :: xs)
  end.

(** [junkH] is the header on the stack before it is read, [junk] the new page
    table; [argv] points to [argc] strings. *)
Definition Load (junkH : list Z) (junk : nat -> TranslationEntry) (fileName : loc)
    (args : list loc) (a : AddrSpace) (m : Machine) fs
    : res (bool * AddrSpace * Machine * FS N) :=
  '(executable, fs) ← Open fileName fs;
  match executable with
  | None => Ok (false, a, m, fs)
  | Some executable =>
      '(r, fs) ← ReadAt executable sizeof_NoffHeader 0 fs;
      let noffH := noff_of_bytes (splice 0 (from_option id [] r) junkH) in
      let noffH := if negb (noffMagic noffH =? NOFFMAGIC) &&
                      (WordToHost (noffMagic noffH) =? NOFFMAGIC)
                   then SwapHeader noffH else noffH in
      ASSERT (noffMagic noffH =? NOFFMAGIC) ;;
      let sz := u32 (size (code noffH) + size (readonlyData noffH) + size (initData noffH) +
                     size (uninitData noffH) + UserStackSize) in
      let n := divRoundUp sz PageSize in
      '(a, m) ← AllocateMemory junk n a m;
      ASSERT (n <=? NumPhysPages) ;;
      pt ← init (pageTable a);
      '(mem, fs) ← load_segments pt executable noffH (mainMemory m, fs);
      args ← strings_at args fs;
      '(av, sp, mem) ← copy_args pt n args mem;
      id ← getFileDescriptorID executable fs;
      '(_, fs) ← CloseFile id fs;
      Ok (true, mkAddrSpace (Some sp) (Some (zlen args)) (Some av) (Some pt) (Some n),
          set_memory m mem, fs)
  end.
End loading.

(** *** Running *)

Definition InitRegisters (a : AddrSpace) (m : Machine) : res Machine :=
  m ← for_range (Z.to_nat NumTotalRegs) 0 (fun i m => WriteRegister m i 0) m;
  m ← WriteRegister m PCReg 0;
  m ← WriteRegister m NextPCReg 4;
  sp ← init (stackptr a);
  m ← WriteRegister m StackReg (s32 sp);
  n ← init (argc a);
  m ← WriteRegister m 4 (s32 n);
  v ← init (argv a);
  WriteRegister m 5 (s32 v).

Definition SaveState (a : AddrSpace) (m : Machine) : AddrSpace := a.

Definition RestoreState (a : AddrSpace) (m : Machine) : res Machine :=
  pt ← init (pageTable a);
  n ← init (numPages a);
  Ok (mkMachine (mainMemory m) (pageTableMap m) (tlb m) (Some pt) n (registers m) (singleStep m)
        (runUntilTime m)).

(** [Execute] up to [Machine::Run]: [a] becomes the space of the current thread. *)
Definition Execute (a : AddrSpace) (m : Machine) : res Machine :=
  m ← InitRegisters a m; RestoreState a m.

Definition Translate (a : AddrSpace) (vaddr : Z) (isReadWrite : bool)
    : res ((ExceptionType + Z) * AddrSpace) :=
  let vpn := vaddr / PageSize in
  let offset := vaddr mod PageSize in
  n ← init (numPages a);
  if n <=? vpn then Ok (inl AddressErrorException, a)
  else
    pt ← init (pageTable a);
    pte ← arr_get pt vpn;
    if isReadWrite && readOnly pte then Ok (inl ReadOnlyException, a)
    else
      let pfn := physicalPage pte in
      if NumPhysPages <=? pfn then Ok (inl BusErrorException, a)
      else
        let p := u32 (s32 (pfn * PageSize) + offset) in
        let pte := mkEntry (virtualPage pte) (physicalPage pte) (valid pte) (readOnly pte) true
                     (isReadWrite || dirty pte) in
        ASSERT (p <? MemorySize) ;;
        Ok (inr p, mkAddrSpace (stackptr a) (argc a) (argv a)
                     (Some (<[Z.to_nat vpn := pte]> pt)) (numPages a)).

(** ** Virtual memory *)

(** [fr] are the frames of the pages in order; a virtual address [v] is byte
    [phys fr v] of memory. *)
Definition page : nat := 128.
Definition phys (fr : list nat) (v : nat) : nat := (page * (fr !!! (v / page)) + v mod page)%nat.
Definition view (fr : list nat) (mem : list Z) : list Z :=
  (fun v => mem !!! phys fr v) <$> seq 0 (page * length fr).
Definition good_frames (fr : list nat) : Prop := NoDup fr /\ Forall (fun f => (f < 128)%nat) fr.
Definition maps (pt : list TranslationEntry) (fr : list nat) : Prop :=
  physicalPage <$> pt = Z.of_nat <$> fr.

(** Memory [mem] shows [vm] through the pages and is [mem0] elsewhere. *)
Definition shows (fr : list nat) (mem0 mem vm : list Z) : Prop :=
  zlen mem = MemorySize /\ view fr mem = vm /\
  forall k, (k / page)%nat ∉ fr -> mem !! k = mem0 !! k.

Section virtual.
Implicit Types (fr : list nat) (mem vm : list Z).

Lemma length_view fr mem : length (view fr mem) = (page * length fr)%nat.
Proof. unfold view. by rewrite length_fmap, length_seq. Qed.

Lemma view_lookup fr mem v : (v < page * length fr)%nat -> view fr mem !! v = Some (mem !!! phys fr v).
Proof. intros Hv. unfold view. rewrite list_lookup_fmap, lookup_seq_lt by done. done. Qed.

Lemma phys_frame fr v : (v < page * length fr)%nat -> (phys fr v / page)%nat = fr !!! (v / page)%nat /\
  fr !! (v / page)%nat = Some (fr !!! (v / page)%nat) /\ (phys fr v mod page = v mod page)%nat.
Proof.
  intros Hv. unfold phys, page in *. split_and!.
  - rewrite Nat.mul_comm, Nat.div_add_l, (Nat.div_small (v mod 128)) by (try apply Nat.mod_upper_bound; lia). lia.
  - apply list_lookup_lookup_total_lt. apply Nat.Div0.div_lt_upper_bound. lia.
  - rewrite Nat.add_comm, Nat.mul_comm, Nat.Div0.mod_add, Nat.Div0.mod_mod. done.
Qed.

Lemma phys_lt fr v : good_frames fr -> (v < page * length fr)%nat -> (phys fr v < 128 * page)%nat.
Proof.
  intros [_ Hf] Hv. destruct (phys_frame fr v Hv) as (_ & Hl & _).
  rewrite Forall_lookup in Hf. specialize (Hf _ _ Hl). unfold phys, page in *.
  pose proof (Nat.mod_upper_bound v 128). lia.
Qed.

Lemma phys_inj fr v w : good_frames fr -> (v < page * length fr)%nat -> (w < page * length fr)%nat ->
  phys fr v = phys fr w -> v = w.
Proof.
  intros [Hnd _] Hv Hw E. destruct (phys_frame fr v Hv) as (Ev & Lv & Mv).
  destruct (phys_frame fr w Hw) as (Ew & Lw & Mw). rewrite E in Ev, Mv.
  rewrite Ew in Ev. rewrite Mw in Mv. rewrite <- Ev in Lv.
  pose proof (NoDup_lookup _ _ _ _ Hnd Lv Lw) as Ed.
  rewrite (Nat.div_mod_eq v page), (Nat.div_mod_eq w page), Ed, <- Mv. done.
Qed.

(** A run of bytes within one page is contiguous. *)
Lemma phys_add fr v j : (v mod page + j < page)%nat -> phys fr (v + j) = (phys fr v + j)%nat.
Proof.
  intros Hj. unfold phys, page in *.
  assert (E : ((v + j) / 128 = v / 128)%nat /\ ((v + j) mod 128 = v mod 128 + j)%nat).
  { pose proof (Nat.div_mod_eq v 128) as Ev. split.
    - symmetry. apply (Nat.div_unique _ _ _ (v mod 128 + j)); lia.
    - symmetry. apply (Nat.mod_unique _ _ (v / 128)); lia. }
  destruct E as [-> ->]. lia.
Qed.

Lemma shows_splice fr mem0 mem vm v bs : good_frames fr -> shows fr mem0 mem vm ->
  (v < page * length fr)%nat -> (v mod page + length bs <= page)%nat ->
  shows fr mem0 (splice (phys fr v) bs mem) (splice v bs vm).
Proof.
  intros Hg (Hlen & Hv & Ho) Hlt Hpage. pose proof Hg as [Hnd Hf].
  destruct (phys_frame fr v Hlt) as (Ev & Lv & Mv).
  assert (Hfl : ((fr !!! (v / page)%nat) < 128)%nat) by (rewrite Forall_lookup in Hf; by apply (Hf (v / page)%nat)).
  assert (Hmem : (phys fr v + length bs <= length mem)%nat).
  { assert (length mem = 128 * 128)%nat by (unfold zlen, MemorySize, NumPhysPages, PageSize in Hlen; lia).
    unfold phys, page in *. lia. }
  assert (Hvm : (v + length bs <= length vm)%nat).
  { rewrite <- Hv, length_view. unfold page in *. pose proof (Nat.div_mod_eq v 128).
    assert (v / 128 < length fr)%nat by (apply Nat.Div0.div_lt_upper_bound; lia). lia. }
  split; [unfold zlen in *; by rewrite length_splice|]. split.
  - apply list_eq. intros w. destruct (decide (w < page * length fr)%nat) as [Hw|Hw].
    + rewrite view_lookup by done. destruct (decide (v <= w < v + length bs)%nat) as [Hin|Hout].
      * rewrite (lookup_splice_in v bs vm w) by lia.
        replace w with (v + (w - v))%nat at 1 by lia. rewrite phys_add by lia.
        destruct (lookup_lt_is_Some_2 bs (w - v)%nat) as [b Hb]; [lia|]. rewrite Hb.
        f_equal. apply list_lookup_total_correct. rewrite lookup_splice_in by lia.
        rewrite <- Hb. f_equal. lia.
      * rewrite lookup_splice_out by lia. rewrite <- Hv, view_lookup by done. f_equal.
        rewrite !list_lookup_total_alt. f_equal. apply lookup_splice_out; [done|].
        destruct (decide (phys fr v <= phys fr w < phys fr v + length bs)%nat) as [Hc|]; [|lia].
        exfalso. apply Hout. set (j := (phys fr w - phys fr v)%nat).
        assert (Hjl : (v + j < page * length fr)%nat) by (rewrite <- Hv, length_view in Hvm; lia).
        assert (E : phys fr w = phys fr (v + j)) by (rewrite phys_add by lia; lia).
        pose proof (phys_inj fr w (v + j) Hg Hw Hjl E). lia.
    + rewrite !lookup_ge_None_2; [done| |rewrite length_view; lia].
      rewrite length_splice by lia. rewrite <- Hv, length_view. lia.
  - intros k Hk. rewrite lookup_splice_out; [by apply Ho|done|].
    destruct (decide (phys fr v <= k < phys fr v + length bs)%nat) as [Hc|]; [|lia]. exfalso.
    apply Hk. replace (k / page)%nat with (fr !!! (v / page)%nat); [by eapply list_elem_of_lookup_2|].
    apply (Nat.div_unique _ _ _ (k - page * (fr !!! (v / page)))%nat); unfold phys, page in *; lia.
Qed.

Lemma maps_length pt fr : maps pt fr -> length pt = length fr.
Proof. intros H%(f_equal length). by rewrite !length_fmap in H. Qed.

Lemma paddr_ok pt fr v : maps pt fr -> good_frames fr -> (v < page * length fr)%nat ->
  paddr pt (Z.of_nat v) = Ok (Z.of_nat (phys fr v)).
Proof.
  intros Hm Hg Hv. pose proof (phys_lt fr v Hg Hv) as Hlt. destruct (phys_frame fr v Hv) as (_ & Hl & _).
  unfold maps in Hm. assert (Hl' := Hl). apply (f_equal (fmap Z.of_nat)) in Hl'.
  rewrite <- list_lookup_fmap, <- Hm, list_lookup_fmap in Hl'. apply fmap_Some in Hl' as (e & He & Ef).
  unfold paddr, PageSize. change 128 with (Z.of_nat page). rewrite <- Nat2Z.inj_div, <- Nat2Z.inj_mod.
  rewrite (arr_get_Some _ _ e) by (rewrite ?Nat2Z.id; lia || done). cbn [rbind]. f_equal.
  rewrite <- Ef. unfold phys in *. unfold page in *.
  rewrite s32_id, u32_id; unfold is_u32, is_s32; lia.
Qed.

Lemma store_ok pt fr mem0 mem vm v n x : maps pt fr -> good_frames fr -> shows fr mem0 mem vm ->
  (v < page * length fr)%nat -> (v mod page + n <= page)%nat ->
  exists mem', store pt (Z.of_nat v) (Z.of_nat n) x mem = Ok mem' /\
    shows fr mem0 mem' (splice v (le_split n x) vm).
Proof.
  intros Hm Hg Hs Hv Hn. unfold store. rewrite (paddr_ok _ _ _ Hm Hg Hv). cbn [rbind].
  pose proof (shows_splice _ _ _ _ v (le_split n x) Hg Hs Hv) as HS.
  rewrite length_le_split in HS. specialize (HS Hn).
  exists (splice (phys fr v) (le_split n x) mem). split; [|exact HS].
  unfold mem_write. destruct (phys_frame fr v Hv) as (_ & Hl & _).
  destruct Hg as [_ Hf]. rewrite Forall_lookup in Hf. specialize (Hf _ _ Hl). destruct Hs as (Hlen & _).
  rewrite Hlen. rewrite (proj2 (Z.leb_le _ _)), (proj2 (Z.leb_le _ _)), !Nat2Z.id; [done|..|lia].
  unfold MemorySize, NumPhysPages, PageSize, phys, page in *. lia.
Qed.

Lemma splice_nil {A} off (l : list A) : splice off [] l = l.
Proof. unfold splice. simpl. rewrite Nat.add_0_r. apply take_drop. Qed.

Lemma splice_snoc {A} off (bs : list A) i b l : bs !! i = Some b -> (off + length bs <= length l)%nat ->
  splice (off + i) [b] (splice off (take i bs) l) = splice off (take (S i) bs) l.
Proof.
  intros Hb Hl. pose proof (lookup_lt_Some _ _ _ Hb).
  rewrite (take_S_r _ _ _ Hb), <- splice_splice_next; rewrite ?length_take; simpl; [|lia].
  f_equal. lia.
Qed.

(** The step of a loop that stores [bs] byte by byte from [v]. *)
Lemma store_next pt fr mem0 mem vm v i bs b : maps pt fr -> good_frames fr ->
  shows fr mem0 mem (splice v (take i bs) vm) -> length vm = (page * length fr)%nat ->
  bs !! i = Some b -> is_byte b -> (v + length bs <= page * length fr)%nat ->
  exists mem', store pt (Z.of_nat (v + i)) 1 b mem = Ok mem' /\
    shows fr mem0 mem' (splice v (take (S i) bs) vm).
Proof.
  intros Hm Hg Hs Hl Hb Hbyte Hfit. pose proof (lookup_lt_Some _ _ _ Hb).
  destruct (store_ok pt fr mem0 mem _ (v + i) 1 b Hm Hg Hs) as (mem' & Hst & Hs'); [lia| |].
  { unfold page. pose proof (Nat.mod_upper_bound (v + i) 128). lia. }
  exists mem'. split; [exact Hst|]. unfold le_split in Hs'.
  rewrite (Z.mod_small b 256) in Hs' by (exact Hbyte).
  rewrite splice_snoc in Hs' by (done || lia). exact Hs'.
Qed.
End virtual.

(** ** Frames *)

Section frames.
Implicit Types (fr : list nat) (l : list bool).

(** The free-frame map with [fr] taken. *)
Definition taken fr l : list bool := foldl (fun l f => <[f := true]> l) l fr.

Lemma length_taken fr l : length (taken fr l) = length l.
Proof. unfold taken. revert l. induction fr as [|f fr IH]; intros l; [done|]. simpl. by rewrite IH, length_insert. Qed.

Lemma taken_snoc fr f l : taken (fr ++ [f]) l = <[f := true]> (taken fr l).
Proof. unfold taken. by rewrite foldl_app. Qed.

Lemma taken_lookup fr l f x : taken fr l !! f = Some x ->
  ((f ∈ fr) /\ x = true) \/ ((f ∉ fr) /\ l !! f = Some x).
Proof.
  revert x. induction fr as [|g fr IH] using rev_ind; intros x.
  - right. split; [apply not_elem_of_nil|done].
  - rewrite taken_snoc. destruct (decide (f = g)) as [->|Hne].
    + intros Hx. left. split; [apply elem_of_app; right; by left|].
      pose proof (lookup_lt_Some _ _ _ Hx) as Hlt. rewrite length_insert in Hlt.
      rewrite list_lookup_insert_eq in Hx by done. by injection Hx.
    + rewrite list_lookup_insert_ne by done. intros [[? ?]|[? ?]]%IH; [left|right]; split; try done;
        rewrite elem_of_app, list_elem_of_singleton; tauto.
Qed.

(** The frames taken from [l]: distinct and free. *)
Definition fresh_frames fr l : Prop := NoDup fr /\ Forall (fun f => l !! f = Some false) fr.

Lemma fresh_good fr l : fresh_frames fr l -> zlen l = NumPhysPages -> good_frames fr.
Proof.
  intros [Hnd Hf] Hl. split; [done|]. eapply Forall_impl; [exact Hf|].
  intros f Hff%lookup_lt_Some. unfold zlen, NumPhysPages in Hl. lia.
Qed.

Lemma count_taken fr l : fresh_frames fr l ->
  Bitmap.count_clear (taken fr l) = Bitmap.count_clear l - zlen fr.
Proof.
  induction fr as [|f fr IH] using rev_ind; intros [Hnd Hf]; [unfold zlen; simpl; lia|].
  apply NoDup_app in Hnd as (Hnd & Hdisj & _). apply Forall_app in Hf as [Hf Hff].
  rewrite taken_snoc, Bitmap.count_clear_set, IH by (done ||
    (apply Forall_cons in Hff as [Hff _]; rewrite <- Hff; clear IH;
     destruct (taken fr l !! f) as [x|] eqn:E;
     [apply taken_lookup in E as [[E _]|[_ ->]]; [by apply Hdisj in E; set_solver|done]
     |apply lookup_ge_None in E; rewrite length_taken in E; by rewrite lookup_ge_None_2])).
  rewrite zlen_app. unfold zlen. simpl. lia.
Qed.

(** The page table [AllocateMemory] builds. *)
Definition entry_for (i : nat) (f : nat) : TranslationEntry :=
  mkEntry (Z.of_nat i) (Z.of_nat f) true false false false.
Definition table_for fr : list TranslationEntry := imap entry_for fr.

Lemma table_for_maps fr : maps (table_for fr) fr.
Proof.
  unfold maps, table_for. apply list_eq. intros i. rewrite !list_lookup_fmap, list_lookup_imap.
  by destruct (fr !! i).
Qed.

Lemma map_pages_ok n pt bm l : Bitmap.rep bm l -> length pt = n ->
  Z.of_nat n <= Bitmap.count_clear l ->
  exists fr bm', map_pages (Z.of_nat n) pt bm = Ok (table_for fr, bm') /\ length fr = n /\
    fresh_frames fr l /\ Bitmap.rep bm' (taken fr l).
Proof.
  intros Hr Hl Hn. unfold map_pages. rewrite Nat2Z.id.
  destruct (for_range_rule (fun i '(t, b) => exists fr, Z.of_nat (length fr) = i /\ length t = n /\
      take (length fr) t = table_for fr /\ fresh_frames fr l /\ Bitmap.rep b (taken fr l))
    n 0 (fun i '(pt, bm) => '(frame, bm) ← Bitmap.FindAndSet bm;
      pt ← arr_set pt i (mkEntry i frame true false false false); Ok (pt, bm)) (pt, bm))
    as ([t b] & Hrun & fr & Hlen & Hlt & Ht & Hfr & Hrep).
  - exists []. split_and!; try done. split; [apply NoDup_nil|]; constructor.
  - intros j [t b] Hj (fr & Hlen & Hlt & Ht & [Hnd Hf] & Hrep).
    pose proof (Bitmap.FindAndSet_law b _ Hrep) as HF.
    destruct (Bitmap.first_clear (taken fr l)) as [f|] eqn:E.
    + destruct HF as (b' & -> & Hrep'). cbn [rbind].
      apply find_index_Some in E as (x & Hx & Hfx & _). apply negb_true_iff in Hfx as ->.
      destruct (taken_lookup _ _ _ _ Hx) as [[_ ?]|[Hnin Hx']]; [done|].
      rewrite arr_set_lt by (unfold zlen; lia). cbn [rbind]. eexists. split; [reflexivity|].
      exists (fr ++ [f]). rewrite length_app, length_insert. cbn [length]. split_and!; try done; try lia.
      * replace (Z.to_nat j) with (length fr) by lia. rewrite Nat.add_1_r.
        rewrite (take_S_r _ _ (mkEntry j (Z.of_nat f) true false false false))
          by (apply list_lookup_insert_eq; lia).
        rewrite take_insert_ge by lia. rewrite Ht. unfold table_for. rewrite imap_app. f_equal. simpl.
        unfold entry_for, compose. simpl. by rewrite Nat.add_0_r, Hlen.
      * split; [|apply Forall_app; split; [done|by constructor]].
        apply NoDup_app. split_and!; [done| |apply NoDup_singleton].
        intros g Hg ->%list_elem_of_singleton. done.
      * by rewrite taken_snoc.
    + exfalso. assert (H0 : Bitmap.count_clear (taken fr l) = 0).
      { apply Bitmap.count_clear_none. intros k x Hk. unfold Bitmap.first_clear in E.
        rewrite find_index_None in E. specialize (E _ _ Hk). by apply negb_false_iff in E. }
      rewrite count_taken in H0 by done. unfold zlen in H0. lia.
  - exists fr, b. rewrite Hrun. assert (length fr = n) as E by lia. split_and!; try done.
    rewrite <- Ht, E, take_ge by lia. done.
Qed.
End frames.

(** *** [AllocateMemory] *)

Lemma view_range mem fr : good_frames fr -> zlen mem = MemorySize -> shows fr mem mem (view fr mem).
Proof. intros _ Hlen. by unfold shows. Qed.

Lemma zero_pages_ok fr mem0 mem vm : good_frames fr -> shows fr mem0 mem vm ->
  exists mem', zero_pages (zlen fr) (table_for fr) mem = Ok mem' /\
    shows fr mem0 mem' (replicate (page * length fr) 0).
Proof.
  intros Hg Hs. set (zs := replicate (page * length fr) 0).
  assert (Hvl : length vm = (page * length fr)%nat) by (destruct Hs as (_ & <- & _); apply length_view).
  assert (Hfin : splice 0 zs vm = zs).
  { unfold splice. rewrite drop_ge, app_nil_r; [done|]. unfold zs. rewrite length_replicate. lia. }
  unfold zero_pages. unfold zlen at 1. rewrite Nat2Z.id.
  destruct (for_range_rule (fun i mem => shows fr mem0 mem (splice 0 (take (page * Z.to_nat i) zs) vm))
    (length fr) 0 (fun i mem => e ← arr_get (table_for fr) i;
      for_range (Z.to_nat PageSize) 0 (fun j mem =>
        mem_write mem (s32 (s32 (physicalPage e * PageSize) + j)) 1 0) mem) mem) as (mem' & Hrun & Hs').
  - rewrite Nat.mul_0_r, take_0, splice_nil. done.
  - intros i m Hi Hm.
    destruct (lookup_lt_is_Some_2 fr (Z.to_nat i)) as [f Hf]; [lia|].
    rewrite (arr_get_Some _ _ (entry_for (Z.to_nat i) f))
      by (lia || (unfold table_for; rewrite list_lookup_imap, Hf; done)). cbn [rbind].
    destruct (for_range_rule (fun j mem => shows fr mem0 mem
        (splice 0 (take (page * Z.to_nat i + Z.to_nat j) zs) vm))
      (Z.to_nat PageSize) 0 (fun j mem =>
        mem_write mem (s32 (s32 (physicalPage (entry_for (Z.to_nat i) f) * PageSize) + j)) 1 0) m)
      as (m' & Hr & Hm'); [by rewrite Nat.add_0_r| |].
    + intros j m1 Hj Hm1.
      assert (Hv : (page * Z.to_nat i + Z.to_nat j < page * length fr)%nat)
        by (unfold page, PageSize in *; lia).
      destruct (store_next (table_for fr) fr mem0 m1 vm 0 (page * Z.to_nat i + Z.to_nat j) zs 0
        (table_for_maps fr) Hg Hm1 Hvl) as (m2 & Hst & Hm2).
      { unfold zs. apply lookup_replicate_2. lia. }
      { unfold is_byte. lia. }
      { unfold zs. rewrite length_replicate. lia. }
      exists m2. split.
      * rewrite <- Hst. unfold store. rewrite (paddr_ok _ fr) by (apply table_for_maps || done || lia).
        cbn [rbind]. f_equal. pose proof (phys_lt fr _ Hg Hv) as Hp.
        assert (E : phys fr (0 + (page * Z.to_nat i + Z.to_nat j)) = (page * f + Z.to_nat j)%nat).
        { rewrite Nat.add_0_l, phys_add by
            (rewrite (Nat.mul_comm page), Nat.Div0.mod_mul; unfold page, PageSize in *; lia).
          unfold phys. rewrite (Nat.mul_comm page (Z.to_nat i)), Nat.Div0.mod_mul, Nat.div_mul by (unfold page; lia).
          rewrite (list_lookup_total_correct _ _ _ Hf). lia. }
        rewrite Nat.add_0_l in E |- *. rewrite E in *. unfold entry_for, page, PageSize in *. cbn [physicalPage].
        rewrite (s32_id (_ * _)), s32_id by (unfold is_s32; lia). lia.
      * replace (page * Z.to_nat i + Z.to_nat (j + 1))%nat with (S (page * Z.to_nat i + Z.to_nat j)) by lia.
        exact Hm2.
    + exists m'. split; [exact Hr|]. unfold page, PageSize in *.
      replace (128 * Z.to_nat (i + 1))%nat with (128 * Z.to_nat i + Z.to_nat (0 + Z.of_nat (Z.to_nat 128)))%nat
        by lia. exact Hm'.
  - exists mem'. split; [exact Hrun|]. rewrite Z.add_0_l, Nat2Z.id, take_ge, Hfin in Hs'; [done|].
    unfold zs. by rewrite length_replicate.
Qed.

Lemma AllocateMemory_ok junk n a m l : Bitmap.rep (pageTableMap m) l -> zlen l = NumPhysPages ->
  zlen (mainMemory m) = MemorySize -> Z.of_nat n <= Bitmap.count_clear l ->
  exists fr bm mem, AllocateMemory junk (Z.of_nat n) a m =
      Ok (mkAddrSpace (stackptr a) (argc a) (argv a) (Some (table_for fr)) (Some (Z.of_nat n)),
          set_memory (set_map m bm) mem) /\
    length fr = n /\ fresh_frames fr l /\ good_frames fr /\ Bitmap.rep bm (taken fr l) /\
    shows fr (mainMemory m) mem (replicate (page * n) 0).
Proof.
  intros Hr Hl Hlen Hn. unfold AllocateMemory. rewrite Nat2Z.id.
  destruct (map_pages_ok n (map junk (seq 0 n)) _ l Hr) as (fr & bm & -> & Hfl & Hff & Hbm);
    [by rewrite length_map, length_seq|done|]. cbn [rbind].
  pose proof (fresh_good _ _ Hff Hl) as Hg.
  destruct (zero_pages_ok fr _ _ _ Hg (view_range (mainMemory m) fr Hg Hlen)) as (mem & Hz & Hs).
  unfold zlen in Hz. rewrite Hfl in Hz, Hs. rewrite Hz. cbn [rbind].
  exists fr, bm, mem. by split_and!.
Qed.

(** *** The destructor *)

Lemma taken_cleared fr l : fresh_frames fr l -> foldl (fun l f => <[f := false]> l) (taken fr l) fr = l.
Proof.
  intros [Hnd Hf]. apply list_eq. intros i.
  assert (G : forall l', length l' = length l ->
    foldl (fun l f => <[f:=false]> l) l' fr !! i = if decide (i ∈ fr) then Some false else l' !! i).
  { rewrite Forall_forall in Hf. clear Hnd. induction fr as [|f fr IH]; intros l' Hl'.
    - by rewrite decide_False by apply not_elem_of_nil.
    - simpl. rewrite IH by (rewrite ?length_insert; done || (intros x Hx; apply Hf; by right)).
      destruct (decide (i ∈ fr)); [rewrite decide_True by (by right); done|].
      destruct (decide (i = f)) as [->|Hne].
      + rewrite decide_True by (by left). apply list_lookup_insert_eq.
        specialize (Hf f ltac:(by left)). apply lookup_lt_Some in Hf. lia.
      + rewrite decide_False by (intros [->|]%elem_of_cons; done). by apply list_lookup_insert_ne. }
  rewrite G by apply length_taken. rewrite Forall_forall in Hf. case_decide as Hin; [by rewrite Hf|].
  destruct (taken fr l !! i) as [x|] eqn:E.
  - by apply taken_lookup in E as [[? _]|[_ ->]].
  - apply lookup_ge_None in E. rewrite length_taken in E. by rewrite lookup_ge_None_2.
Qed.

Lemma delete_AddrSpace_ok a m fr l : pageTable a = Some (table_for fr) ->
  numPages a = Some (zlen fr) -> Bitmap.rep (pageTableMap m) (taken fr l) -> fresh_frames fr l ->
  exists bm, delete_AddrSpace a m = Ok (set_map m bm) /\ Bitmap.rep bm l.
Proof.
  intros Ha Hn Hr Hfr. unfold delete_AddrSpace. rewrite Ha, Hn. cbn [init rbind].
  unfold zlen. rewrite Nat2Z.id.
  destruct (for_range_rule (fun i b => Bitmap.rep b
      (foldl (fun l f => <[f:=false]> l) (taken fr l) (take (Z.to_nat i) fr)))
    (length fr) 0 (fun i bm => e ← arr_get (table_for fr) i; Bitmap.Clear bm (physicalPage e))
    (pageTableMap m)) as (bm & Hrun & Hb).
  - by rewrite take_0.
  - intros j b Hj Hb. destruct (lookup_lt_is_Some_2 fr (Z.to_nat j)) as [f Hf]; [lia|].
    rewrite (arr_get_Some _ _ (entry_for (Z.to_nat j) f))
      by (lia || (unfold table_for; rewrite list_lookup_imap, Hf; done)). cbn [rbind physicalPage entry_for].
    destruct (Bitmap.Clear_in b _ (Z.of_nat f) Hb) as (b' & HC & Hb').
    { assert (G : forall (fs : list nat) l', length (foldl (fun l f => <[f:=false]> l) l' fs) = length (l' : list bool)).
      { induction fs as [|g fs IH]; intros l'; [done|]. simpl. by rewrite IH, length_insert. }
      unfold zlen. rewrite G, length_taken. destruct Hfr as [_ Hff]. rewrite Forall_lookup in Hff.
      specialize (Hff _ _ Hf). apply lookup_lt_Some in Hff. lia. }
    exists b'. split; [exact HC|]. rewrite Nat2Z.id in Hb'.
    replace (Z.to_nat (j + 1)) with (S (Z.to_nat j)) by lia.
    rewrite (take_S_r _ _ _ Hf), foldl_app. exact Hb'.
  - exists bm. rewrite Hrun. split; [done|].
    rewrite Z.add_0_l, Nat2Z.id, firstn_all, taken_cleared in Hb by done. exact Hb.
Qed.

(** *** More pages than frames *)

Lemma map_pages_over n pt bm l : Bitmap.rep bm l -> length pt = n ->
  Bitmap.count_clear l < Z.of_nat n ->
  exists pt' bm' k e, map_pages (Z.of_nat n) pt bm = Ok (pt', bm') /\ (k < n)%nat /\
    length pt' = n /\ pt' !! k = Some e /\ physicalPage e = -1 /\
    forall i x, (i < k)%nat -> pt' !! i = Some x -> exists f, l !! f = Some false /\ physicalPage x = Z.of_nat f.
Proof.
  intros Hr Hl Hn. set (k := Z.to_nat (Bitmap.count_clear l)).
  assert (Hc : 0 <= Bitmap.count_clear l) by (unfold Bitmap.count_clear; lia).
  unfold map_pages. rewrite Nat2Z.id.
  destruct (for_range_rule (fun i '(t, b) => exists fr, length t = n /\
      length fr = Nat.min (Z.to_nat i) k /\ fresh_frames fr l /\ Bitmap.rep b (taken fr l) /\
      forall j, (j < Z.to_nat i)%nat -> physicalPage <$> t !! j =
        Some (if decide (j < k)%nat then Z.of_nat (fr !!! j) else -1))
    n 0 (fun i '(pt, bm) => '(frame, bm) ← Bitmap.FindAndSet bm;
      pt ← arr_set pt i (mkEntry i frame true false false false); Ok (pt, bm)) (pt, bm))
    as ([t b] & Hrun & fr & Hlt & Hlen & Hfr & Hrep & Hall).
  - exists []. split_and!; try done; [split; [apply NoDup_nil|]; constructor|]. intros j Hj. lia.
  - intros i [t b] Hi (fr & Hlt & Hlen & Hfr & Hrep & Hall). pose proof Hfr as [Hnd Hf].
    pose proof (Bitmap.FindAndSet_law b _ Hrep) as HF.
    pose proof (count_taken fr l Hfr) as Hct. unfold zlen in Hct.
    destruct (Bitmap.first_clear (taken fr l)) as [f|] eqn:E.
    + destruct HF as (b' & -> & Hrep'). cbn [rbind].
      apply find_index_Some in E as (x & Hx & Hfx & _). apply negb_true_iff in Hfx as ->.
      destruct (taken_lookup _ _ _ _ Hx) as [[_ ?]|[Hnin Hx']]; [done|].
      assert (0 < Bitmap.count_clear (taken fr l)).
      { pose proof (Bitmap.count_clear_set _ _ Hx). unfold Bitmap.count_clear in *. lia. }
      rewrite arr_set_lt by (unfold zlen; lia). cbn [rbind]. eexists. split; [reflexivity|].
      exists (fr ++ [f]). rewrite length_app, length_insert. cbn [length]. split_and!; try done; try lia.
      * split; [|apply Forall_app; split; [done|by constructor]].
        apply NoDup_app. split_and!; [done| |apply NoDup_singleton].
        intros g Hg ->%list_elem_of_singleton. done.
      * by rewrite taken_snoc.
      * intros j Hj. destruct (decide (j = Z.to_nat i)) as [->|Hne].
        -- rewrite list_lookup_insert_eq by lia. simpl. rewrite decide_True by lia.
           rewrite lookup_total_app_r by lia. replace (Z.to_nat i - length fr)%nat with 0%nat by lia. done.
        -- rewrite list_lookup_insert_ne, Hall by lia. case_decide; [|done].
           by rewrite lookup_total_app_l by lia.
    + assert (H0 : Bitmap.count_clear (taken fr l) = 0).
      { apply Bitmap.count_clear_none. intros j x Hk. unfold Bitmap.first_clear in E.
        rewrite find_index_None in E. specialize (E _ _ Hk). by apply negb_false_iff in E. }
      rewrite HF. cbn [rbind]. rewrite arr_set_lt by (unfold zlen; lia). cbn [rbind].
      eexists. split; [reflexivity|]. exists fr. rewrite length_insert. split_and!; try done; try lia.
      intros j Hj. destruct (decide (j = Z.to_nat i)) as [->|Hne].
      * rewrite list_lookup_insert_eq by lia. simpl. by rewrite decide_False by lia.
      * rewrite list_lookup_insert_ne by lia. apply Hall. lia.
  - rewrite Hrun. destruct (lookup_lt_is_Some_2 t k) as [e He]; [lia|].
    exists t, b, k, e. split_and!; try done; try lia.
    + specialize (Hall k ltac:(lia)). rewrite He, decide_False in Hall by lia. by injection Hall.
    + intros i x Hi Hx. specialize (Hall i ltac:(lia)). rewrite Hx, decide_True in Hall by lia.
      injection Hall as Hx'. exists (fr !!! i). split; [|done]. destruct Hfr as [_ Hf].
      rewrite Forall_lookup in Hf. apply (Hf i), list_lookup_lookup_total_lt. lia.
Qed.

Lemma AllocateMemory_over junk n a m l : Bitmap.rep (pageTableMap m) l -> zlen l = NumPhysPages ->
  zlen (mainMemory m) = MemorySize -> Bitmap.count_clear l < Z.of_nat n ->
  AllocateMemory junk (Z.of_nat n) a m = Fault OutOfBounds.
Proof.
  intros Hr Hl Hlen Hn. unfold AllocateMemory. rewrite Nat2Z.id.
  destruct (map_pages_over n (map junk (seq 0 n)) _ l Hr) as (pt & bm & k & e & -> & Hk & Hpl & He & Hp & Hlow);
    [by rewrite length_map, length_seq|done|]. cbn [rbind].
  unfold zero_pages. rewrite Nat2Z.id.
  rewrite (for_range_fault (fun _ mem => zlen mem = MemorySize) n 0 _ (mainMemory m) (Z.of_nat k) OutOfBounds);
    [done|done|lia| |].
  - intros i mem Hi Hmem. destruct (lookup_lt_is_Some_2 pt (Z.to_nat i)) as [x Hx]; [lia|].
    rewrite (arr_get_Some _ _ x) by (lia || done). cbn [rbind].
    destruct (Hlow (Z.to_nat i) x) as (f & Hf & ->); [lia|done|].
    apply lookup_lt_Some in Hf. unfold zlen, NumPhysPages in Hl.
    destruct (for_range_rule (fun _ mem => zlen mem = MemorySize) (Z.to_nat PageSize) 0
      (fun j mem => mem_write mem (s32 (s32 (Z.of_nat f * PageSize) + j)) 1 0) mem) as (mem' & Hrun & Hmem');
      [done| |by exists mem'].
    intros j mem1 Hj Hm1. unfold mem_write. rewrite Hm1. unfold MemorySize, NumPhysPages, PageSize in *.
    rewrite (s32_id (_ * _)), s32_id by (unfold is_s32; lia).
    replace (_ && _) with true by (symmetry; apply andb_true_iff; split; apply Z.leb_le; lia).
    eexists. split; [reflexivity|]. unfold zlen in *. rewrite length_splice; [done|].
    rewrite length_le_split. lia.
  - intros mem Hmem. rewrite (arr_get_Some _ _ e) by (rewrite ?Nat2Z.id; lia || done). cbn [rbind].
    rewrite Hp. reflexivity.
Qed.

(** ** Loading *)

Section loading_theory.
Context {N : Type} `{TCP N}.
Implicit Types (fs : FS N) (fr : list nat) (mem vm : list Z).

(** [fs] is [fs1] but for the offset of the file being read. *)
Definition reading fs1 (f : loc) (o : OpenFile) (i : positive) (bs : list Z) fs : Prop :=
  files fs1 !! f = Some o /\ inodes (host fs1) !! i = Some bs /\
  exists off, 0 <= off /\ fs = set_host fs1 (at_offset (host fs1) (file o) i off).

Lemma reading_opened fs1 f o i bs fs : reading fs1 f o i bs fs -> exists off, opened fs f o i bs off.
Proof.
  intros (Hf & Hi & off & _ & ->). exists off. unfold opened. cbn. by rewrite lookup_insert_eq.
Qed.

Lemma ReadAt_reading fs1 f o i bs fs n pos : reading fs1 f o i bs fs -> 0 <= n -> 0 <= pos ->
  exists fs', ReadAt f n pos fs = Ok (Some (slice (Z.to_nat pos) (Z.to_nat n) bs), fs') /\
    reading fs1 f o i bs fs'.
Proof.
  intros Hr Hn Hpos. destruct (reading_opened _ _ _ _ _ _ Hr) as [off Ho].
  rewrite (ReadAt_stub _ _ _ _ _ _ _ _ Ho Hn Hpos). eexists. split; [reflexivity|].
  destruct Hr as (Hf & Hi & off' & Hoff' & ->). split; [done|]. split; [done|]. eexists.
  split; [|unfold set_host; cbn; by rewrite at_offset_at_offset].
  pose proof (zlen_nonneg (slice (Z.to_nat pos) (Z.to_nat n) bs)). lia.
Qed.

(** A segment of [len] bytes lies in the address space and in the file. *)
Definition fits (space : Z) (flen : Z) (sg : Segment) (len : Z) : Prop :=
  0 <= len /\ 0 <= virtualAddr sg /\ virtualAddr sg + len <= space /\
  0 <= inFileAddr sg /\ inFileAddr sg + len <= flen.

Lemma slice_one {A} k (bs : list A) b : bs !! k = Some b -> slice k 1 bs = [b].
Proof. intros Hb. unfold slice. by rewrite (drop_S _ b) by done. Qed.

Lemma load_segment_ok fs1 f o i bs fs pt fr mem0 mem vm sg len :
  reading fs1 f o i bs fs -> Forall is_byte bs -> zlen bs < 2 ^ 31 ->
  maps pt fr -> good_frames fr -> shows fr mem0 mem vm -> length vm = (page * length fr)%nat ->
  (length fr <= 128)%nat -> fits (Z.of_nat (page * length fr)) (zlen bs) sg len ->
  exists mem' fs', load_segment pt f sg len (mem, fs) = Ok (mem', fs') /\
    reading fs1 f o i bs fs' /\
    shows fr mem0 mem' (splice (Z.to_nat (virtualAddr sg))
      (slice (Z.to_nat (inFileAddr sg)) (Z.to_nat len) bs) vm).
Proof.
  intros Hr Hbytes Hmax Hm Hg Hs Hvl Hfr (Hlen & Hva & Hvt & Hfa & Hft).
  set (data := slice (Z.to_nat (inFileAddr sg)) (Z.to_nat len) bs).
  assert (Hdl : length data = Z.to_nat len) by (apply length_slice; unfold zlen in *; lia).
  unfold load_segment.
  destruct (for_range_rule (fun j st => reading fs1 f o i bs st.2 /\
      shows fr mem0 st.1 (splice (Z.to_nat (virtualAddr sg)) (take (Z.to_nat j) data) vm))
    (Z.to_nat len) 0 (fun j st => load_byte pt f (u32 (virtualAddr sg + j)) (s32 (inFileAddr sg + j)) st)
    (mem, fs)) as ([mem' fs'] & Hrun & Hr' & Hs').
  - split; [done|]. by rewrite take_0, splice_nil.
  - intros j [m1 fs2] Hj [Hr1 Hs1]. cbn [fst snd] in *.
    destruct (lookup_lt_is_Some_2 data (Z.to_nat j)) as [b Hb]; [lia|].
    assert (Hbb : bs !! Z.to_nat (inFileAddr sg + j) = Some b).
    { unfold data in Hb. rewrite lookup_slice in Hb by lia. rewrite <- Hb. f_equal. lia. }
    destruct (store_next pt fr mem0 m1 vm (Z.to_nat (virtualAddr sg)) (Z.to_nat j) data b Hm Hg Hs1 Hvl Hb)
      as (m2 & Hst & Hs2); [by eapply Forall_lookup_1|lia|].
    destruct (ReadAt_reading fs1 f o i bs fs2 1 (inFileAddr sg + j) Hr1) as (fs3 & HR & Hr3); [lia..|].
    exists (m2, fs3). split; [|split; [done|by replace (Z.to_nat (j + 1)) with (S (Z.to_nat j)) by lia]].
    unfold load_byte. unfold page in *. rewrite u32_id by (unfold is_u32; lia).
    rewrite s32_id by (unfold is_s32; lia). rewrite HR. cbn [rbind].
    change (Z.to_nat 1) with 1%nat. rewrite (slice_one _ _ _ Hbb).
    unfold store in Hst. replace (Z.of_nat (Z.to_nat (virtualAddr sg) + Z.to_nat j))
      with (virtualAddr sg + j) in Hst by lia.
    destruct (paddr pt (virtualAddr sg + j)); cbn [rbind] in *; [|done]. by rewrite Hst.
  - exists mem', fs'. cbn [fst snd] in *. rewrite Hrun. split; [done|]. split; [done|].
    rewrite Z.add_0_l, Nat2Z.id, take_ge in Hs' by lia. exact Hs'.
Qed.

Lemma zero_segment_ok pt fr mem0 mem vm sg :
  maps pt fr -> good_frames fr -> shows fr mem0 mem vm -> length vm = (page * length fr)%nat ->
  (length fr <= 128)%nat -> 0 <= size sg ->
  (0 < size sg -> 0 <= virtualAddr sg /\ virtualAddr sg + size sg <= Z.of_nat (page * length fr)) ->
  exists mem', zero_segment pt sg mem = Ok mem' /\
    shows fr mem0 mem' (splice (Z.to_nat (virtualAddr sg)) (replicate (Z.to_nat (size sg)) 0) vm).
Proof.
  intros Hm Hg Hs Hvl Hfr Hsz Hin. set (data := replicate (Z.to_nat (size sg)) 0).
  assert (Hdl : length data = Z.to_nat (size sg)) by apply length_replicate.
  unfold zero_segment.
  destruct (for_range_rule (fun j m =>
      shows fr mem0 m (splice (Z.to_nat (virtualAddr sg)) (take (Z.to_nat j) data) vm))
    (Z.to_nat (size sg)) 0 (fun j m => store pt (u32 (virtualAddr sg + j)) 1 0 m) mem)
    as (mem' & Hrun & Hs').
  - by rewrite take_0, splice_nil.
  - intros j m1 Hj Hs1. destruct Hin as [Hva Hvt]; [lia|].
    destruct (store_next pt fr mem0 m1 vm (Z.to_nat (virtualAddr sg)) (Z.to_nat j) data 0 Hm Hg Hs1 Hvl)
      as (m2 & Hst & Hs2); [apply lookup_replicate_2; lia|unfold is_byte; lia|lia|].
    exists m2. unfold page in *. rewrite u32_id by (unfold is_u32; lia).
    split; [|by replace (Z.to_nat (j + 1)) with (S (Z.to_nat j)) by lia].
    rewrite <- Hst. f_equal. lia.
  - exists mem'. split; [done|]. rewrite Z.add_0_l, Nat2Z.id, take_ge in Hs' by lia. exact Hs'.
Qed.

Lemma align_down_ok (k : nat) v : (0 < k)%nat -> is_u32 v ->
  align_down k v = Ok (v - v mod Z.of_nat k).
Proof.
  intros Hk Hv. unfold align_down.
  destruct (loop_rule (fun t => 0 <= t < 2 ^ 32 /\ t - t mod Z.of_nat k = v - v mod Z.of_nat k)
    (fun r => r = v - v mod Z.of_nat k) (fun t => Z.to_nat (t mod Z.of_nat k))
    (fun t => if negb (t mod Z.of_nat k =? 0) then Ok (inl (u32 (t - 1))) else Ok (inr t))
    (S k) v) as (r & -> & ->); [by unfold is_u32 in Hv| | |done].
  - pose proof (Z.mod_pos_bound v (Z.of_nat k)). lia.
  - intros t [Ht E]. pose proof (Z.mod_pos_bound t (Z.of_nat k) ltac:(lia)) as Hb.
    destruct (Z.eqb_spec (t mod Z.of_nat k) 0) as [E0|Hne]; cbn [negb].
    + right. exists t. split; [done|]. lia.
    + left. exists (t - 1). pose proof (Z.div_mod t (Z.of_nat k) ltac:(lia)) as Hdm.
      assert (Hq : 0 <= t / Z.of_nat k) by (apply Z.div_pos; lia).
      assert (0 < t) by nia. rewrite u32_id by (unfold is_u32; lia). split; [done|].
      assert (Em : (t - 1) mod Z.of_nat k = t mod Z.of_nat k - 1).
      { symmetry. apply (Z.mod_unique_pos _ _ (t / Z.of_nat k)); lia. }
      rewrite Em. split; [split; lia|lia].
Qed.

(** *** The arguments *)

Definition arg_bytes (args : list (list Z)) : list Z := mjoin ((fun a => a ++ [0]) <$> args).

Lemma arg_bytes_cons a args : arg_bytes (a :: args) = (a ++ [0]) ++ arg_bytes args.
Proof. done. Qed.

Lemma arg_bytes_split args i a : args !! i = Some a ->
  arg_bytes args = arg_bytes (take i args) ++ (a ++ [0]) ++ arg_bytes (drop (S i) args).
Proof.
  intros Ha. rewrite <- (take_drop_middle _ _ _ Ha) at 1. unfold arg_bytes.
  by rewrite fmap_app, join_app, fmap_cons.
Qed.

Lemma arg_bytes_take_S args i a : args !! i = Some a ->
  arg_bytes (take (S i) args) = arg_bytes (take i args) ++ a ++ [0].
Proof.
  intros Ha. unfold arg_bytes. rewrite (take_S_r _ _ _ Ha), fmap_app, join_app.
  cbn. by rewrite app_nil_r.
Qed.

Lemma copy_strings_ok pt fr mem0 mem vm args v :
  maps pt fr -> good_frames fr -> shows fr mem0 mem vm -> length vm = (page * length fr)%nat ->
  (length fr <= 128)%nat -> Forall (Forall is_byte) args ->
  (v + length (arg_bytes args) <= page * length fr)%nat ->
  exists mem', copy_strings pt args (Z.of_nat v) mem =
      Ok (Z.of_nat (v + length (arg_bytes args)), mem') /\
    shows fr mem0 mem' (splice v (arg_bytes args) vm).
Proof.
  intros Hm Hg Hs Hvl Hfr Hbytes Hfit. unfold copy_strings.
  destruct (for_range_rule (fun i '(va, m) => let k := length (arg_bytes (take (Z.to_nat i) args)) in
      va = Z.of_nat (v + k) /\ shows fr mem0 m (splice v (take k (arg_bytes args)) vm))
    (length args) 0 (fun i '(vaddr, mem) =>
      arg ← arr_get args i;
      for_range (S (length arg)) 0 (fun j '(vaddr, mem) =>
        c ← arr_get (arg ++ [0]) j; mem ← store pt vaddr 1 c mem; Ok (u32 (vaddr + 1), mem))
        (vaddr, mem)) (Z.of_nat v, mem)) as ([va' mem'] & Hrun & Hva' & Hs').
  - rewrite take_0. change (arg_bytes []) with (@nil Z). cbn [length].
    by rewrite take_0, Nat.add_0_r, splice_nil.
  - intros i [va m1] Hi [-> Hs1].
    destruct (lookup_lt_is_Some_2 args (Z.to_nat i)) as [a Ha]; [lia|].
    rewrite (arr_get_Some _ _ a) by (lia || done). cbn [rbind].
    pose proof (arg_bytes_split args _ _ Ha) as Esp.
    replace (Z.to_nat (i + 1)) with (S (Z.to_nat i)) by lia. rewrite (arg_bytes_take_S _ _ _ Ha).
    set (pre := arg_bytes (take (Z.to_nat i) args)) in *.
    assert (Hab : Forall is_byte (a ++ [0])).
    { apply Forall_app. split; [by eapply Forall_lookup_1|]. constructor; [unfold is_byte; lia|done]. }
    assert (Hlen : (v + length pre + S (length a) <= page * length fr)%nat).
    { rewrite Esp, !length_app in Hfit. cbn [length] in Hfit. lia. }
    destruct (for_range_rule (fun j '(va, m) => va = Z.of_nat (v + (length pre + Z.to_nat j)) /\
        shows fr mem0 m (splice v (take (length pre + Z.to_nat j) (arg_bytes args)) vm))
      (S (length a)) 0 (fun j '(vaddr, mem) =>
        c ← arr_get (a ++ [0]) j; mem ← store pt vaddr 1 c mem; Ok (u32 (vaddr + 1), mem))
      (Z.of_nat (v + length pre), m1)) as ([va2 m2] & Hr2 & Hva2 & Hs2).
    + by rewrite Nat.add_0_r.
    + intros j [va1 m] Hj [-> Hsj].
      destruct (lookup_lt_is_Some_2 (a ++ [0]) (Z.to_nat j)) as [c Hc]; [rewrite length_app; cbn; lia|].
      rewrite (arr_get_Some _ _ c) by (lia || done). cbn [rbind].
      destruct (store_next pt fr mem0 m vm v (length pre + Z.to_nat j) (arg_bytes args) c Hm Hg Hsj Hvl)
        as (m' & Hst & Hs''); [| |exact Hfit|].
      * rewrite Esp, lookup_app_r by lia. rewrite lookup_app_l by (rewrite length_app; cbn; lia).
        rewrite <- Hc. f_equal. lia.
      * by eapply Forall_lookup_1.
      * rewrite Hst. cbn [rbind]. eexists. split; [reflexivity|]. split.
        -- unfold page in *. rewrite u32_id by (unfold is_u32; lia). lia.
        -- by replace (length pre + Z.to_nat (j + 1))%nat with (S (length pre + Z.to_nat j)) by lia.
    + rewrite Hr2. eexists. split; [reflexivity|]. cbn beta iota zeta.
      rewrite !length_app. cbn [length]. rewrite Hva2.
      replace (Z.to_nat (0 + Z.of_nat (S (length a)))) with (length a + 1)%nat in * by lia.
      split; [done|]. exact Hs2.
  - exists mem'. rewrite Hrun. rewrite Z.add_0_l, Nat2Z.id, firstn_all in Hva', Hs'.
    rewrite firstn_all in Hs'. by rewrite Hva'.
Qed.

(** The addresses of the strings laid out from [p], and the pointer array. *)
Fixpoint starts (args : list (list Z)) (p : Z) : list Z :=
  match args with
  | [] => []
  | a :: args => p :: starts args (p + zlen a + 1)
  end.
Definition pointer_bytes (args : list (list Z)) (p : Z) : list Z :=
  mjoin (le_split 4 <$> (starts args p ++ [0])).

Lemma length_starts args p : length (starts args p) = length args.
Proof. revert p. induction args as [|a args IH]; intros p; [done|]. simpl. by rewrite IH. Qed.

Lemma starts_lookup args p i : (i < length args)%nat ->
  starts args p !! i = Some (p + zlen (arg_bytes (take i args))).
Proof.
  revert p i. induction args as [|a args IH]; intros p [|i] Hi; simpl in Hi; try lia.
  - simpl. f_equal. unfold zlen. simpl. lia.
  - cbn [starts lookup list_lookup]. change (starts args (p + zlen a + 1) !! i =
      Some (p + zlen (arg_bytes (take (S i) (a :: args))))).
    rewrite IH by lia. f_equal. cbn [take]. rewrite arg_bytes_cons, !zlen_app.
    change (zlen [0]) with 1. lia.
Qed.

Lemma length_pointer_bytes args p : length (pointer_bytes args p) = (4 * S (length args))%nat.
Proof.
  unfold pointer_bytes. rewrite (length_mjoin_chunks 4).
  - rewrite length_fmap, length_app, length_starts. simpl. lia.
  - apply Forall_fmap, Forall_true. intros x. apply length_le_split.
Qed.

Lemma pointer_bytes_slice args p i x : (starts args p ++ [0]) !! i = Some x ->
  slice (4 * i) 4 (pointer_bytes args p) = le_split 4 x.
Proof.
  intros Hx. unfold pointer_bytes. apply (slice_mjoin 4).
  - apply Forall_fmap, Forall_true. intros y. apply length_le_split.
  - by rewrite list_lookup_fmap, Hx.
Qed.

Lemma splice_take_add {A} off k n (bs l : list A) : (k + n <= length bs)%nat ->
  (off + length bs <= length l)%nat ->
  splice (off + k) (slice k n bs) (splice off (take k bs) l) = splice off (take (k + n) bs) l.
Proof.
  intros Hk Hl. assert (E : take (k + n) bs = take k bs ++ slice k n bs).
  { unfold slice. rewrite <- (take_drop k (take (k + n) bs)), take_take, skipn_firstn_comm.
    f_equal; f_equal; lia. }
  rewrite E, <- splice_splice_next; rewrite length_take, ?length_slice by lia; [|lia].
  f_equal. lia.
Qed.

(** A 4-byte store of the [k]-th word of [bs] at an aligned address. *)
Lemma store_word pt fr mem0 mem vm v k bs x : maps pt fr -> good_frames fr ->
  shows fr mem0 mem (splice v (take (4 * k) bs) vm) -> length vm = (page * length fr)%nat ->
  (v mod 4 = 0)%nat -> (v + length bs <= page * length fr)%nat ->
  (4 * k + 4 <= length bs)%nat -> slice (4 * k) 4 bs = le_split 4 x ->
  exists mem', store pt (Z.of_nat (v + 4 * k)) 4 x mem = Ok mem' /\
    shows fr mem0 mem' (splice v (take (4 * S k) bs) vm).
Proof.
  intros Hm Hg Hs Hvl Hal Hfit Hk Hx.
  destruct (store_ok pt fr mem0 mem _ (v + 4 * k) 4 x Hm Hg Hs) as (mem' & Hst & Hs'); [lia| |].
  - apply Nat.Div0.mod_divides in Hal as [w ->].
    replace (4 * w + 4 * k)%nat with (4 * (w + k))%nat by lia. unfold page.
    change 128%nat with (4 * 32)%nat. rewrite Nat.Div0.mul_mod_distr_l.
    pose proof (Nat.mod_upper_bound (w + k) 32). lia.
  - exists mem'. split; [exact Hst|]. rewrite <- Hx, splice_take_add in Hs' by lia.
    by replace (4 * S k)%nat with (4 * k + 4)%nat by lia.
Qed.

Lemma copy_pointers_ok pt fr mem0 mem vm args v p :
  maps pt fr -> good_frames fr -> shows fr mem0 mem vm -> length vm = (page * length fr)%nat ->
  (length fr <= 128)%nat -> (v mod 4 = 0)%nat -> (v + 4 * S (length args) <= page * length fr)%nat ->
  0 <= p -> p + zlen (arg_bytes args) < 2 ^ 32 ->
  exists mem', copy_pointers pt args (Z.of_nat v) p mem = Ok mem' /\
    shows fr mem0 mem' (splice v (pointer_bytes args p) vm).
Proof.
  intros Hm Hg Hs Hvl Hfr Hal Hfit Hp Hpm. unfold copy_pointers.
  pose proof (length_pointer_bytes args p) as Hpl.
  destruct (for_range_rule (fun i '(va, q, m) => va = Z.of_nat (v + 4 * Z.to_nat i) /\
      q = p + zlen (arg_bytes (take (Z.to_nat i) args)) /\
      shows fr mem0 m (splice v (take (4 * Z.to_nat i) (pointer_bytes args p)) vm))
    (length args) 0 (fun i '(vaddr, ptr, mem) =>
      arg ← arr_get args i; mem ← store pt vaddr 4 ptr mem;
      Ok (u32 (vaddr + 4), u32 (ptr + zlen arg + 1), mem)) (Z.of_nat v, p, mem))
    as ([[va q] m] & Hrun & -> & _ & Hs').
  - rewrite take_0. change (arg_bytes []) with (@nil Z). unfold zlen. cbn [length]. split_and!; [lia|lia|].
    by rewrite Nat.mul_0_r, take_0, splice_nil.
  - intros i [[va q] m] Hi (-> & -> & Hs1).
    destruct (lookup_lt_is_Some_2 args (Z.to_nat i)) as [a Ha]; [lia|].
    rewrite (arr_get_Some _ _ a) by (lia || done). cbn [rbind].
    destruct (store_word pt fr mem0 m vm v (Z.to_nat i) (pointer_bytes args p)
      (p + zlen (arg_bytes (take (Z.to_nat i) args))) Hm Hg Hs1 Hvl Hal) as (m' & -> & Hs2); [lia|lia| |].
    { apply pointer_bytes_slice. rewrite lookup_app_l by (rewrite length_starts; lia).
      apply starts_lookup. lia. }
    cbn [rbind]. eexists. split; [reflexivity|]. cbn beta iota.
    replace (Z.to_nat (i + 1)) with (S (Z.to_nat i)) by lia. split_and!; [| |exact Hs2].
    + unfold page in *. rewrite u32_id by (unfold is_u32; lia). lia.
    + rewrite (arg_bytes_take_S _ _ _ Ha), !zlen_app. change (zlen [0]) with 1.
      pose proof (zlen_nonneg (arg_bytes (take (Z.to_nat i) args))). pose proof (zlen_nonneg a).
      assert (zlen (arg_bytes (take (Z.to_nat i) args)) + zlen a + 1 <= zlen (arg_bytes args)).
      { pose proof (f_equal zlen (arg_bytes_split args _ _ Ha)) as ->. rewrite !zlen_app. change (zlen [0]) with 1.
        pose proof (zlen_nonneg (arg_bytes (drop (S (Z.to_nat i)) args))). lia. }
      rewrite u32_id by (unfold is_u32; lia). lia.
  - rewrite Hrun. cbn [rbind]. rewrite Z.add_0_l, Nat2Z.id in *.
    destruct (store_word pt fr mem0 m vm v (length args) (pointer_bytes args p) 0 Hm Hg Hs' Hvl Hal)
      as (m' & -> & Hs2); [lia|lia| |].
    { apply pointer_bytes_slice. by rewrite lookup_app_r, length_starts, Nat.sub_diag by (rewrite length_starts; lia). }
    exists m'. split; [done|]. rewrite <- Hpl, firstn_all in Hs2. exact Hs2.
Qed.

(** Where the arguments go in an address space of [space] bytes. *)
Definition args_ptr (space : Z) (args : list (list Z)) : Z := space - 8 - zlen (arg_bytes args).
Definition args_argv (space : Z) (args : list (list Z)) : Z :=
  let v := args_ptr space args - (zlen args + 1) * 4 in v - v mod 4.
Definition args_sp (space : Z) (args : list (list Z)) : Z :=
  let v := args_argv space args - 4 in v - v mod 8.
Definition put_args (space : Z) (args : list (list Z)) vm : list Z :=
  splice (Z.to_nat (args_argv space args)) (pointer_bytes args (args_ptr space args))
    (splice (Z.to_nat (args_ptr space args)) (arg_bytes args) vm).
Definition args_fit (space : Z) (args : list (list Z)) : Prop :=
  zlen (arg_bytes args) + 4 * zlen args + 32 <= space.

Lemma ptr_foldl args p : zlen (arg_bytes args) <= p -> p < 2 ^ 32 ->
  foldl (fun ptr arg => u32 (ptr - (zlen arg + 1))) p args = p - zlen (arg_bytes args).
Proof.
  revert p. induction args as [|a args IH]; intros p Hp Hm; cbn [foldl].
  { change (zlen (arg_bytes [])) with 0. lia. }
  rewrite arg_bytes_cons, !zlen_app in *. change (zlen [0]) with 1 in *.
  pose proof (zlen_nonneg (arg_bytes args)). pose proof (zlen_nonneg a).
  rewrite u32_id by (unfold is_u32; lia). rewrite IH by lia. lia.
Qed.

Lemma copy_args_ok pt fr mem0 mem vm args space :
  maps pt fr -> good_frames fr -> shows fr mem0 mem vm -> length vm = (page * length fr)%nat ->
  (length fr <= 128)%nat -> Forall (Forall is_byte) args ->
  space = Z.of_nat (page * length fr) -> args_fit space args ->
  exists mem', copy_args pt (zlen fr) args mem =
      Ok (args_argv space args, args_sp space args, mem') /\
    shows fr mem0 mem' (put_args space args vm) /\
    0 < args_sp space args /\ args_sp space args + 4 <= args_argv space args /\
    args_sp space args mod 8 = 0 /\ args_argv space args mod 4 = 0.
Proof.
  intros Hm Hg Hs Hvl Hfr Hbytes Esp Hfit. unfold args_fit in Hfit.
  pose proof (zlen_nonneg (arg_bytes args)) as H0. pose proof (zlen_nonneg args) as H1.
  assert (Hsp : space = 128 * zlen fr) by (unfold zlen, page in *; lia).
  assert (Hmax : space <= 16384) by (unfold zlen in *; lia).
  assert (Hptr : foldl (fun ptr arg => u32 (ptr - (zlen arg + 1))) (u32 (u32 (PageSize * zlen fr) - 8)) args
    = args_ptr space args).
  { unfold PageSize, args_ptr. rewrite <- Hsp. rewrite (u32_id space), u32_id by (unfold is_u32; lia).
    apply ptr_foldl; lia. }
  set (p := args_ptr space args) in *. set (av := args_argv space args). set (sp := args_sp space args).
  assert (Hp : 0 <= p) by (unfold p, args_ptr; lia).
  assert (Hav : av = p - (zlen args + 1) * 4 - (p - (zlen args + 1) * 4) mod 4) by done.
  assert (Hsp' : sp = av - 4 - (av - 4) mod 8) by done.
  pose proof (Z.mod_pos_bound (p - (zlen args + 1) * 4) 4).
  pose proof (Z.mod_pos_bound (av - 4) 8).
  assert (Eal : av mod 4 = 0 /\ sp mod 8 = 0) by (split; zlia). destruct Eal as [Eal Eal'].
  unfold copy_args. rewrite Hptr.
  destruct (copy_strings_ok pt fr mem0 mem vm args (Z.to_nat p) Hm Hg Hs Hvl Hfr Hbytes)
    as (m1 & HC & Hs1); [unfold p, args_ptr, zlen in *; lia|].
  rewrite Z2Nat.id in HC by done. rewrite HC. cbn [rbind].
  rewrite (align_down_ok 4) by (lia || (unfold is_u32; apply u32_range)).
  rewrite (u32_id (p - _)) by (unfold is_u32, p, args_ptr; lia). cbn [rbind].
  change (Z.of_nat 4) with 4. rewrite <- Hav.
  destruct (copy_pointers_ok pt fr mem0 m1 _ args (Z.to_nat av) p Hm Hg Hs1) as (m2 & HP & Hs2).
  - rewrite length_splice; [done|]. unfold p, args_ptr, zlen in *. lia.
  - done.
  - rewrite <- (Z2Nat.inj_mod _ 4) by (unfold p, args_ptr in *; lia). by rewrite Eal.
  - unfold p, args_ptr, zlen in *. lia.
  - done.
  - unfold p, args_ptr. lia.
  - rewrite Z2Nat.id in HP by (unfold p, args_ptr in *; lia). rewrite HP. cbn [rbind].
    rewrite (align_down_ok 8) by (lia || (unfold is_u32; apply u32_range)).
    rewrite (u32_id (av - 4)) by (unfold is_u32, p, args_ptr in *; lia). cbn [rbind].
    change (Z.of_nat 8) with 8. rewrite <- Hsp'. exists m2. split; [done|].
    split; [exact Hs2|]. unfold p, args_ptr in *. split_and!; try done; lia.
Qed.

(** *** [Load] *)

(** What virtual memory shows of a segment, and of the whole program. *)
Definition put_segment (bs : list Z) (sg : Segment) (len : Z) vm : list Z :=
  splice (Z.to_nat (virtualAddr sg)) (slice (Z.to_nat (inFileAddr sg)) (Z.to_nat len) bs) vm.
Definition put_zeros (sg : Segment) vm : list Z :=
  splice (Z.to_nat (virtualAddr sg)) (replicate (Z.to_nat (size sg)) 0) vm.
Definition header (bs : list Z) : NoffHeader := noff_of_bytes (take 52 bs).
Definition space_pages (noffH : NoffHeader) : Z :=
  divRoundUp (size (code noffH) + size (readonlyData noffH) + size (initData noffH) +
              size (uninitData noffH) + UserStackSize) PageSize.
Definition image (bs : list Z) (args : list (list Z)) : list Z :=
  let noffH := header bs in
  let space := PageSize * space_pages noffH in
  let vm := replicate (Z.to_nat space) 0 in
  let vm := put_segment bs (code noffH) (size (code noffH)) vm in
  let vm := put_zeros (uninitData noffH) vm in
  let vm := put_segment bs (initData noffH) (size (initData noffH)) vm in
  let vm := if 0 <? size (readonlyData noffH)
            then put_segment bs (readonlyData noffH) (virtualAddr (readonlyData noffH)) vm else vm in
  put_args space args vm.

(** A file that [Load] can load: a NOFF header whose segments, where they are not
    empty, lie in the file and in the address space, with room for the
    arguments.  For the read-only segment it is [virtualAddr] bytes that are
    copied. *)
Record loadable (bs : list Z) (args : list (list Z)) : Prop := {
  ld_bytes : Forall is_byte bs;
  ld_len : sizeof_NoffHeader <= zlen bs < 2 ^ 31;
  ld_magic : noffMagic (header bs) = NOFFMAGIC;
  ld_pages : space_pages (header bs) <= NumPhysPages;
  ld_code : 0 <= size (code (header bs)) /\ (0 < size (code (header bs)) ->
    fits (PageSize * space_pages (header bs)) (zlen bs) (code (header bs)) (size (code (header bs))));
  ld_init : 0 <= size (initData (header bs)) /\ (0 < size (initData (header bs)) ->
    fits (PageSize * space_pages (header bs)) (zlen bs) (initData (header bs)) (size (initData (header bs))));
  ld_uninit : 0 <= size (uninitData (header bs)) /\ (0 < size (uninitData (header bs)) ->
    0 <= virtualAddr (uninitData (header bs)) /\
    virtualAddr (uninitData (header bs)) + size (uninitData (header bs)) <= PageSize * space_pages (header bs));
  ld_ro : 0 <= size (readonlyData (header bs)) /\ (0 < size (readonlyData (header bs)) ->
    fits (PageSize * space_pages (header bs)) (zlen bs) (readonlyData (header bs))
      (virtualAddr (readonlyData (header bs))));
  ld_args : Forall (Forall is_byte) args;
  ld_args_fit : args_fit (PageSize * space_pages (header bs)) args;
}.

Lemma strings_at_chars fs fs' ps : chars fs' = chars fs -> strings_at ps fs' = strings_at ps fs.
Proof.
  intros E. induction ps as [|p ps IH]; [done|]. simpl. unfold string_at. by rewrite E, IH.
Qed.

Lemma length_put_segment bs sg len vm space : (0 < len -> fits space (zlen bs) sg len) -> zlen vm = space ->
  zlen (put_segment bs sg len vm) = space.
Proof.
  intros Hfit Hl. unfold put_segment. destruct (Z.ltb_spec 0 len) as [Hpos|Hz].
  - destruct (Hfit Hpos) as (? & ? & ? & ? & ?). unfold zlen in *. rewrite length_splice; [done|].
    rewrite length_slice; lia.
  - rewrite (Z2Nat.nonpos len) by done. unfold slice. by rewrite take_0, splice_nil.
Qed.

Lemma length_put_zeros sg vm space :
  (0 < size sg -> 0 <= virtualAddr sg /\ virtualAddr sg + size sg <= space) -> zlen vm = space ->
  zlen (put_zeros sg vm) = space.
Proof.
  intros Hfit Hl. unfold put_zeros. destruct (Z.ltb_spec 0 (size sg)) as [Hpos|Hz].
  - destruct (Hfit Hpos) as [? ?]. unfold zlen in *. rewrite length_splice; [done|]. rewrite length_replicate. lia.
  - rewrite (Z2Nat.nonpos (size sg)) by done. cbn [replicate]. by rewrite splice_nil.
Qed.

(** The segments of the executable, one after the other. *)
Lemma load_segments_ok fs1 f o i bs args pt fr mem0 mem fs :
  reading fs1 f o i bs fs -> loadable bs args -> maps pt fr -> good_frames fr ->
  zlen fr = space_pages (header bs) ->
  shows fr mem0 mem (replicate (page * length fr) 0) ->
  let noffH := header bs in
  exists mem' fs', load_segments pt f noffH (mem, fs) = Ok (mem', fs') /\ reading fs1 f o i bs fs' /\
    exists vm, shows fr mem0 mem' vm /\ zlen vm = PageSize * space_pages noffH /\
      put_args (PageSize * space_pages noffH) args vm = image bs args.
Proof.
  intros Hr Hld Hm Hg Hfl Hs. cbv zeta. pose proof Hld as []. set (noffH := header bs) in *.
  set (space := PageSize * space_pages noffH) in *.
  assert (Hfr : (length fr <= 128)%nat) by (unfold zlen, NumPhysPages in *; lia).
  assert (Esp : Z.of_nat (page * length fr) = space)
    by (unfold space, zlen, page, PageSize in *; lia).
  assert (Hv0 : zlen (replicate (page * length fr) 0) = space)
    by (unfold zlen; by rewrite length_replicate).
  set (vm0 := replicate _ 0) in *.
  assert (Hlen : forall vm, zlen vm = space -> length vm = (page * length fr)%nat)
    by (unfold zlen; lia).
  assert (Hcode : exists m1 fs2, (if 0 <? size (code noffH)
      then load_segment pt f (code noffH) (size (code noffH)) (mem, fs) else Ok (mem, fs)) = Ok (m1, fs2) /\
    reading fs1 f o i bs fs2 /\ shows fr mem0 m1 (put_segment bs (code noffH) (size (code noffH)) vm0)).
  { destruct (Z.ltb_spec 0 (size (code noffH))) as [Hpos|Hz].
    - apply load_segment_ok; [done|done|lia|done..|by apply Hlen|done|rewrite Esp; by apply ld_code0].
    - exists mem, fs. split; [done|]. split; [done|]. unfold put_segment.
      rewrite (Z2Nat.nonpos (size (code noffH))) by done. unfold slice at 1. rewrite take_0, splice_nil. done. }
  unfold load_segments. destruct Hcode as (m1 & fs2 & -> & Hr1 & Hs1). cbn [rbind].
  set (vm1 := put_segment bs (code noffH) _ vm0) in *.
  assert (Hv1 : zlen vm1 = space) by (apply length_put_segment; [apply ld_code0|done]).
  destruct ld_uninit0 as (Hu1 & Hu2).
  destruct (zero_segment_ok pt fr mem0 m1 vm1 (uninitData noffH)) as (m2 & -> & Hs2);
    [done..|by apply Hlen|done|done|by rewrite Esp|]. cbn [rbind].
  change (splice _ (replicate _ 0) vm1) with (put_zeros (uninitData noffH) vm1) in Hs2.
  set (vm2 := put_zeros (uninitData noffH) vm1) in *.
  assert (Hv2 : zlen vm2 = space) by (by apply length_put_zeros).
  assert (Hinit : exists m3 fs3, (if 0 <? size (initData noffH)
      then load_segment pt f (initData noffH) (size (initData noffH)) (m2, fs2) else Ok (m2, fs2)) = Ok (m3, fs3) /\
    reading fs1 f o i bs fs3 /\ shows fr mem0 m3 (put_segment bs (initData noffH) (size (initData noffH)) vm2)).
  { destruct (Z.ltb_spec 0 (size (initData noffH))) as [Hpos|Hz].
    - apply load_segment_ok; [done|done|lia|done..|by apply Hlen|done|rewrite Esp; by apply ld_init0].
    - exists m2, fs2. split; [done|]. split; [done|]. unfold put_segment.
      rewrite (Z2Nat.nonpos (size (initData noffH))) by done. unfold slice at 1. rewrite take_0, splice_nil. done. }
  destruct Hinit as (m3 & fs3 & -> & Hr3 & Hs3). cbn [rbind].
  set (vm3 := put_segment bs (initData noffH) _ vm2) in *.
  assert (Hv3 : zlen vm3 = space) by (apply length_put_segment; [apply ld_init0|done]).
  unfold image. fold noffH space. cbv zeta.
  replace (replicate (Z.to_nat space) 0) with vm0 by (unfold vm0; f_equal; lia). fold vm1 vm2 vm3.
  destruct (Z.ltb_spec 0 (size (readonlyData noffH))) as [Hpos|Hz].
  - destruct ld_ro0 as [_ Hro]. specialize (Hro Hpos).
    destruct (load_segment_ok fs1 f o i bs fs3 pt fr mem0 m3 vm3 (readonlyData noffH)
      (virtualAddr (readonlyData noffH))) as (m4 & fs4 & -> & Hr4 & Hs4);
      [done|done|lia|done..|by apply Hlen|done|by rewrite Esp|].
    exists m4, fs4. split; [done|]. split; [done|]. eexists. split; [exact Hs4|].
    split; [by apply length_put_segment|done].
  - exists m3, fs3. split; [done|]. split; [done|]. exists vm3. by split_and!.
Qed.

Lemma splice_prefix (k : nat) (bs junk : list Z) : length junk = k -> (k <= length bs)%nat ->
  splice 0 (slice 0 k bs) junk = take k bs.
Proof.
  intros Hj Hl. unfold splice. rewrite length_slice by lia. rewrite drop_ge by lia.
  by rewrite app_nil_r.
Qed.

(** The file table is as before once the executable is closed again. *)
Lemma close_reading fs fs1 name i bs fs' o : fs_ok fs -> fs_ok fs1 ->
  free_slot (fileSlot fs) <> -1 ->
  files fs1 = <[brk fs := OpenFile_n (lowest_fd (host fs)) name (free_slot (fileSlot fs))]> (files fs) ->
  slots fs1 = <[Pos.succ (brk fs) := FileSlot_file (Some (brk fs))]> (slots fs) ->
  fileSlot fs1 = <[Z.to_nat (free_slot (fileSlot fs)) := Some (Pos.succ (brk fs))]> (fileSlot fs) ->
  host fs1 = set_fds (host fs) (<[lowest_fd (host fs) := File i 0]> (fds (host fs))) ->
  reading fs1 (brk fs) o i bs fs' ->
  getFileDescriptorID (brk fs) fs' = Ok (free_slot (fileSlot fs)) /\
  exists fs2, CloseFile (free_slot (fileSlot fs)) fs' = Ok (0, fs2) /\ fs_ok fs2 /\
    host fs2 = host fs /\ files fs2 = files fs /\ slots fs2 = slots fs /\ fileSlot fs2 = fileSlot fs.
Proof.
  intros Hs Hs1 Hfree Hf Hsl Ht Hh (Ho & Hi & off & Hoff & ->).
  assert (Eo : o = OpenFile_n (lowest_fd (host fs)) name (free_slot (fileSlot fs))).
  { rewrite Hf, lookup_insert_eq in Ho. by injection Ho. }
  destruct (free_slot_spec _ Hfree) as (Hid & Hnone & _). rewrite (ok_table fs Hs) in Hid.
  pose proof (lookup_lt_Some _ _ _ Hnone) as Hlt.
  assert (Hop : opened fs1 (brk fs) o i bs 0).
  { split_and!; [done| |done]. rewrite Eo, Hh. cbn. apply lookup_insert_eq. }
  pose proof (fs_ok_at_offset fs1 (brk fs) o i bs 0 bs off Hs1 Hop Hoff) as Hs2.
  rewrite set_inode_id in Hs2 by done. set (fs' := set_host _ _) in *.
  pose proof (lowest_fd_fresh (host fs)) as [Hfr _].
  pose proof (ok_brk fs Hs (brk fs) ltac:(lia)) as (Hbf & _).
  pose proof (ok_brk fs Hs (Pos.succ (brk fs)) ltac:(lia)) as (_ & Hbs & _).
  split.
  - unfold getFileDescriptorID, live, fs'. cbn. rewrite Ho. subst o. done.
  - destruct (StubFS_CloseFile_ok fs' (free_slot (fileSlot fs)) (Pos.succ (brk fs))
      (FileSlot_file (Some (brk fs))) (brk fs) Hs2 Hid) as (o' & fs2 & Ho' & HC & Hs3 & E).
    { unfold fs'. cbn. rewrite Ht. by apply list_lookup_insert_eq. }
    { unfold fs'. cbn. rewrite Hsl. apply lookup_insert_eq. }
    { done. }
    exists fs2. split; [exact HC|]. split; [exact Hs3|]. unfold fs' in *. cbn in Ho'.
    rewrite Ho in Ho'. injection Ho' as <-. subst fs2. cbn. rewrite Eo. cbn.
    rewrite Hf, Hsl, Ht, Hh. unfold set_fds, at_offset. cbn.
    rewrite insert_insert_eq, !delete_insert_id by done. split_and!; try done.
    + by destruct (host fs).
    + rewrite list_insert_insert_eq. by apply list_insert_id.
Qed.

Lemma Load_ok junkH junk fileName args a m fs name i bs strs l :
  fs_ok fs -> string_at fileName fs = Ok name -> dir (host fs) !! name = Some i ->
  name ∉ protected (host fs) -> free_slot (fileSlot fs) <> -1 -> inodes (host fs) !! i = Some bs ->
  length junkH = 52%nat -> strings_at args fs = Ok strs -> loadable bs strs ->
  Bitmap.rep (pageTableMap m) l -> zlen l = NumPhysPages -> zlen (mainMemory m) = MemorySize ->
  space_pages (header bs) <= Bitmap.count_clear l ->
  let n := space_pages (header bs) in
  let space := PageSize * n in
  exists fr bm mem fs', Load junkH junk fileName args a m fs =
      Ok (true, mkAddrSpace (Some (args_sp space strs)) (Some (zlen strs)) (Some (args_argv space strs))
                  (Some (table_for fr)) (Some n), set_memory (set_map m bm) mem, fs') /\
    zlen fr = n /\ fresh_frames fr l /\ Bitmap.rep bm (taken fr l) /\
    shows fr (mainMemory m) mem (image bs strs) /\
    0 < args_sp space strs /\ args_sp space strs + 4 <= args_argv space strs /\
    args_sp space strs mod 8 = 0 /\ args_argv space strs mod 4 = 0 /\
    fs_ok fs' /\ host fs' = host fs /\ fileSlot fs' = fileSlot fs.
Proof.
  intros Hfs Hname Hdir Hacc Hfree Hino HjH Hstrs Hld Hrep Hl Hmem Hn n space.
  pose proof (ld_len _ _ Hld) as Hlen. unfold sizeof_NoffHeader in Hlen.
  pose proof (ld_pages _ _ Hld) as Hpg. fold n in Hpg, Hn.
  pose proof (ld_code _ _ Hld) as (Hc0 & _). pose proof (ld_init _ _ Hld) as (Hi0 & _).
  pose proof (ld_uninit _ _ Hld) as (Hu0 & _). pose proof (ld_ro _ _ Hld) as (Hr0 & _).
  unfold Load. destruct (StubFS_Open_ok fs fileName name i Hfs Hname Hdir Hacc Hfree)
    as (fs1 & -> & Hs1 & Hf1 & Hsl1 & Ht1 & Hh1 & Hc1 & _). cbn [rbind].
  set (o := OpenFile_n (lowest_fd (host fs)) fileName (free_slot (fileSlot fs))) in *.
  assert (Hr1 : reading fs1 (brk fs) o i bs fs1).
  { split; [rewrite Hf1; apply lookup_insert_eq|]. split; [by rewrite Hh1|]. exists 0. split; [lia|].
    unfold at_offset. destruct fs1; cbn in *. unfold set_host. cbn. f_equal. rewrite Hh1.
    unfold set_fds. cbn. by rewrite insert_insert_eq. }
  destruct (ReadAt_reading _ _ _ _ _ _ sizeof_NoffHeader 0 Hr1) as (fs2 & -> & Hr2);
    [unfold sizeof_NoffHeader; lia|lia|]. cbn [rbind from_option id].
  change (Z.to_nat 0) with 0%nat. change (Z.to_nat sizeof_NoffHeader) with 52%nat.
  rewrite splice_prefix by (done || (unfold zlen in Hlen; lia)). fold (header bs).
  rewrite (ld_magic _ _ Hld), Z.eqb_refl. cbn [negb andb].
  rewrite (ld_magic _ _ Hld), Z.eqb_refl. cbn [ASSERT rbind].
  set (noffH := header bs) in *.
  rewrite u32_id.
  2: { unfold is_u32. unfold n, space_pages, UserStackSize in *.
       pose proof (divRoundUp_spec (size (code noffH) + size (readonlyData noffH) + size (initData noffH) +
         size (uninitData noffH) + 1024) PageSize) as HD. unfold PageSize, NumPhysPages in *. lia. }
  assert (En : divRoundUp (size (code noffH) + size (readonlyData noffH) + size (initData noffH) +
    size (uninitData noffH) + UserStackSize) PageSize = n) by (unfold n, space_pages; reflexivity).
  rewrite En.
  assert (Hn0 : 0 <= n).
  { unfold n, space_pages, divRoundUp, UserStackSize, PageSize. fold noffH.
    pose proof (Z.quot_pos (size (code noffH) + size (readonlyData noffH) + size (initData noffH) +
      size (uninitData noffH) + 1024) 128 ltac:(lia) ltac:(lia)). case_match; lia. }
  destruct (AllocateMemory_ok junk (Z.to_nat n) a m l Hrep Hl Hmem) as
    (fr & bm & mem0 & HA & Hfl & Hff & Hg & Hbm & Hs0); [lia|].
  rewrite Z2Nat.id in HA by done. rewrite HA. cbn [rbind]. rewrite ASSERT_true by lia.
  cbn [pageTable init rbind mainMemory set_memory].
  rewrite <- Hfl in Hs0.
  destruct (load_segments_ok fs1 (brk fs) o i bs strs (table_for fr) fr (mainMemory m) mem0 fs2 Hr2 Hld
    (table_for_maps fr) Hg) as (mem1 & fs3 & HL & Hr3 & vm & Hs1' & Hvl & Him);
    [unfold zlen; rewrite Hfl; fold noffH; fold n; lia|exact Hs0|].
  cbv zeta in HL. fold noffH in HL. rewrite HL. cbn [rbind].
  assert (Hzfr : zlen fr = n) by (unfold zlen; rewrite Hfl; lia).
  rewrite (strings_at_chars fs) by (destruct Hr3 as (_ & _ & off & _ & ->); exact Hc1).
  rewrite Hstrs. cbn [rbind].
  destruct (copy_args_ok (table_for fr) fr (mainMemory m) mem1 vm strs space (table_for_maps fr) Hg Hs1')
    as (mem2 & HC & Hs2 & Hsp).
  - fold noffH n in Hvl. unfold zlen, PageSize, page in *. lia.
  - unfold NumPhysPages in Hpg. lia.
  - exact (ld_args _ _ Hld).
  - unfold space, PageSize, page. lia.
  - exact (ld_args_fit _ _ Hld).
  - rewrite Hzfr in HC. rewrite HC. cbn [rbind].
    destruct (close_reading fs fs1 fileName i bs fs3 o Hfs Hs1 Hfree Hf1 Hsl1 Ht1 Hh1 Hr3)
      as (-> & fs4 & HCl & Hs4 & Hh4 & _ & _ & Ht4). cbn [rbind]. rewrite HCl. cbn [rbind].
    fold noffH n in Him. fold space in Him. rewrite Him in Hs2.
    exists fr, bm, mem2, fs4. split; [done|]. by destruct Hsp as (? & ? & ? & ?); split_and!.
Qed.
End loading_theory.

(** ** Registers *)

Lemma InitRegisters_ok a m sp n v : length (registers m) = Z.to_nat NumTotalRegs ->
  stackptr a = Some sp -> argc a = Some n -> argv a = Some v ->
  InitRegisters a m = Ok (set_registers m (<[5%nat := s32 v]> (<[4%nat := s32 n]>
    (<[29%nat := s32 sp]> (<[35%nat := 4]> (<[34%nat := 0]> (replicate 40 0))))))).
Proof.
  intros Hlen Hsp Hn Hv. unfold InitRegisters.
  assert (HW : forall m r x, length (registers m) = Z.to_nat NumTotalRegs -> 0 <= r < NumTotalRegs ->
    WriteRegister m r x = Ok (set_registers m (<[Z.to_nat r := x]> (registers m)))).
  { intros m0 r x Hl Hr. unfold WriteRegister.
    replace ((0 <=? r) && (r <? NumTotalRegs)) with true
      by (symmetry; apply andb_true_iff; split; [apply Z.leb_le|apply Z.ltb_lt]; lia).
    cbn [ASSERT rbind]. by apply set_reg_ok. }
  destruct (for_range_rule (fun i m1 => exists rs, m1 = set_registers m rs /\
      length rs = Z.to_nat NumTotalRegs /\ take (Z.to_nat i) rs = replicate (Z.to_nat i) 0)
    (Z.to_nat NumTotalRegs) 0 (fun i m => WriteRegister m i 0) m) as (m1 & -> & rs & -> & Hl & Ht).
  - exists (registers m). split; [by destruct m|done].
  - intros j m1 Hj (rs & -> & Hl & Ht). rewrite HW by (done || (unfold NumTotalRegs in *; lia)).
    eexists. split; [reflexivity|]. exists (<[Z.to_nat j := 0]> rs). cbn [registers set_registers].
    split; [done|]. rewrite length_insert. split; [done|].
    replace (Z.to_nat (j + 1)) with (S (Z.to_nat j)) by lia.
    rewrite (take_S_r _ _ 0) by (apply list_lookup_insert_eq; rewrite Hl; lia).
    rewrite take_insert_ge, Ht by lia. by rewrite replicate_S_end.
  - rewrite Z.add_0_l, Nat2Z.id, take_ge in Ht by lia. subst rs. cbn [rbind].
    change (Z.to_nat NumTotalRegs) with 40%nat in *.
    repeat (rewrite HW by (cbn [registers set_registers]; rewrite ?length_insert, ?length_replicate;
      first [reflexivity | unfold NumTotalRegs, PCReg, NextPCReg, StackReg; lia]);
      cbn [rbind registers set_registers]; rewrite ?Hsp, ?Hn, ?Hv; cbn [init rbind]).
    reflexivity.
Qed.

(** ** Properties *)

Section properties.
Context {N : Type} `{TCP N}.
Implicit Types (fs : FS N) (fr : list nat).

(** C11. Loading an executable: [Load] takes one fresh frame per page, and seen
    through its page table memory is exactly the image of the file: code,
    initialised data, zeros, the arguments above the stack and nothing else;
    every byte outside these frames is unchanged.  The stack pointer is 8-byte
    aligned below the 4-byte aligned [argv] array.  The file is closed again and
    host and file table are as before. *)
Theorem Load_exact junkH junk fileName args a m fs name i bs strs l
    (Hfs : fs_ok fs) (Hname : string_at fileName fs = Ok name)
    (Hdir : dir (host fs) !! name = Some i) (Haccess : name ∉ protected (host fs))
    (Hfree : free_slot (fileSlot fs) <> -1) (Hfile : inodes (host fs) !! i = Some bs)
    (Hjunk : length junkH = 52%nat) (Hstrs : strings_at args fs = Ok strs)
    (Hloadable : loadable bs strs) (Hmap : Bitmap.rep (pageTableMap m) l)
    (Hframes : zlen l = NumPhysPages) (Hmem : zlen (mainMemory m) = MemorySize)
    (Hroom : space_pages (header bs) <= Bitmap.count_clear l) :
  let n := space_pages (header bs) in
  let space := PageSize * n in
  exists fr bm mem fs', Load junkH junk fileName args a m fs =
      Ok (true, mkAddrSpace (Some (args_sp space strs)) (Some (zlen strs)) (Some (args_argv space strs))
                  (Some (table_for fr)) (Some n), set_memory (set_map m bm) mem, fs') /\
    zlen fr = n /\ fresh_frames fr l /\ Bitmap.rep bm (taken fr l) /\
    shows fr (mainMemory m) mem (image bs strs) /\
    0 < args_sp space strs /\ args_sp space strs + 4 <= args_argv space strs /\
    args_sp space strs mod 8 = 0 /\ args_argv space strs mod 4 = 0 /\
    fs_ok fs' /\ host fs' = host fs /\ fileSlot fs' = fileSlot fs.
Proof. by eapply Load_ok. Qed.

(** Address spaces are isolated: the frames [AllocateMemory] takes were free,
    so a space [fr'] already in use shares none of them and its memory shows
    what it showed; the new space is all zeros; deleting it makes exactly its
    frames free again.  With fewer free frames than pages there is no check:
    the page without a frame is written at a negative physical address. *)
Theorem AllocateMemory_isolates junk (n : nat) a m l fr'
    (Hmap : Bitmap.rep (pageTableMap m) l) (Hframes : zlen l = NumPhysPages)
    (Hmem : zlen (mainMemory m) = MemorySize)
    (Hused : Forall (fun f => l !! f = Some true) fr') :
  if decide (Z.of_nat n <= Bitmap.count_clear l) then
    exists fr a' m', AllocateMemory junk (Z.of_nat n) a m = Ok (a', m') /\
      pageTable a' = Some (table_for fr) /\ length fr = n /\ NoDup fr /\
      (forall f, f ∈ fr -> f ∉ fr') /\ view fr (mainMemory m') = replicate (page * n) 0 /\
      view fr' (mainMemory m') = view fr' (mainMemory m) /\
      exists bm, delete_AddrSpace a' m' = Ok (set_map m' bm) /\ Bitmap.rep bm l
  else AllocateMemory junk (Z.of_nat n) a m = Fault OutOfBounds.
Proof.
  case_decide as Hn; [|apply (AllocateMemory_over _ _ _ _ l); done || lia].
  destruct (AllocateMemory_ok junk n a m l Hmap Hframes Hmem Hn)
    as (fr & bm & mem & HA & Hfl & Hff & Hg & Hbm & (Hlen & Hv & Hout)).
  eexists fr, _, _. split; [exact HA|]. pose proof Hff as [Hnd Hfree].
  rewrite Forall_forall in Hfree, Hused.
  assert (Hdisj : forall f, f ∈ fr -> f ∉ fr').
  { intros f Hin Hin'. specialize (Hfree f Hin). specialize (Hused f Hin'). congruence. }
  split_and!; try done.
  - unfold view. apply list_fmap_ext. intros k v [-> Hk]%lookup_seq.
    rewrite !list_lookup_total_alt. f_equal. apply Hout. rewrite Nat.add_0_l.
    destruct (phys_frame fr' k Hk) as (-> & Hl & _). intros Hin.
    apply (Hdisj _ Hin). by eapply list_elem_of_lookup_2.
  - destruct (delete_AddrSpace_ok (mkAddrSpace (stackptr a) (argc a) (argv a) (Some (table_for fr))
      (Some (Z.of_nat n))) (set_memory (set_map m bm) mem) fr l) as (bm' & HD & Hb);
      [done|by unfold zlen; rewrite Hfl|done|done|]. by exists bm'.
Qed.

(** C30. The kernel and the machine translate alike: on an address space that is
    installed ([RestoreState]) and whose pages are valid, [AddrSpace::Translate]
    returns the physical address or the exception that [Machine::Translate] gives
    for a byte access, and marks the same page used and dirty. *)
Theorem Translate_agrees a m m' pt n vaddr writing (Hpt : pageTable a = Some pt)
    (Hn : numPages a = Some n) (Hsize : 0 <= n <= zlen pt)
    (Hvalid : Forall (fun e => valid e = true /\ 0 <= physicalPage e < 2 ^ 31) pt)
    (Htlb : tlb m = None) (Haddr : is_u32 vaddr) (Hrestore : RestoreState a m = Ok m') :
  exists r a' m2, Translate a vaddr writing = Ok (r, a') /\
    Machine.Translate m' vaddr 1 writing = Ok (r, m2) /\
    Machine.pageTable m2 = pageTable a' /\ mainMemory m2 = mainMemory m /\
    registers m2 = registers m.
Proof.
  unfold RestoreState in Hrestore. rewrite Hpt, Hn in Hrestore. cbn [init rbind] in Hrestore.
  injection Hrestore as <-. set (m' := mkMachine _ _ _ _ _ _ _ _).
  assert (Hvpn : 0 <= vaddr / PageSize) by (unfold is_u32, PageSize in *; zlia).
  unfold Translate. rewrite Hn. cbn [init rbind].
  unfold Machine.Translate. cbn [Z.eqb andb orb]. change (tlb m') with (tlb m).
  rewrite Htlb. rewrite !ASSERT_true by reflexivity. rewrite (u32_id vaddr) by done.
  unfold find_entry. change (tlb m') with (tlb m). rewrite Htlb. cbn [pageTableSize m'].
  change (Machine.pageTable m') with (Some pt).
  destruct (Z.leb_spec n (vaddr / PageSize)) as [Hge|Hlt].
  { cbn [rbind]. eexists _, a, m'. split_and!; try done. }
  rewrite Hpt. cbn [init rbind].
  destruct (arr_get_lt pt (vaddr / PageSize)) as (e & He & ->); [lia|]. cbn [rbind].
  rewrite Forall_lookup in Hvalid. destruct (Hvalid _ _ He) as [Hv Hp]. rewrite Hv. cbn [negb rbind].
  replace (readOnly e && writing) with (writing && readOnly e) by apply andb_comm.
  destruct (writing && readOnly e).
  { eexists _, a, m'. split_and!; try done. }
  rewrite (u32_id (physicalPage e)) by (unfold is_u32; lia).
  destruct (Z.leb_spec NumPhysPages (physicalPage e)) as [Hbig|Hsmall].
  { eexists _, a, m'. split_and!; try done. }
  assert (Hoff : 0 <= vaddr mod PageSize < PageSize) by (apply Z.mod_pos_bound; unfold PageSize; lia).
  unfold NumPhysPages, MemorySize, PageSize in *.
  rewrite (s32_id (physicalPage e * 128)), (s32_id (_ + _)), u32_id by (unfold is_u32, is_s32; lia).
  replace ((0 <=? _) && _) with true
    by (symmetry; apply andb_true_iff; split; apply Z.leb_le; unfold NumPhysPages; lia).
  rewrite (proj2 (Z.ltb_lt _ _)) by (unfold NumPhysPages; lia). cbn [ASSERT rbind].
  eexists _, _, _. split; [reflexivity|]. split; [reflexivity|].
  unfold mark_used. by rewrite Hv.
Qed.

(** Starting the program: [Execute] clears every register, sets the program
    counter to 0 and the next one to 4, passes the stack pointer, [argc] and
    [argv], and installs the page table; memory is untouched. *)
Theorem Execute_starts a m sp n v pt k (Hregs : length (registers m) = Z.to_nat NumTotalRegs)
    (Hsp : stackptr a = Some sp) (Hargc : argc a = Some n) (Hargv : argv a = Some v)
    (Hpt : pageTable a = Some pt) (Hk : numPages a = Some k) :
  exists m', Execute a m = Ok m' /\ ReadRegister m' PCReg = Ok 0 /\
    ReadRegister m' NextPCReg = Ok 4 /\ ReadRegister m' StackReg = Ok (s32 sp) /\
    ReadRegister m' 4 = Ok (s32 n) /\ ReadRegister m' 5 = Ok (s32 v) /\
    (forall r, 0 <= r < NumTotalRegs -> r ∉ [4; 5; StackReg; NextPCReg] -> ReadRegister m' r = Ok 0) /\
    Machine.pageTable m' = Some pt /\ pageTableSize m' = k /\ mainMemory m' = mainMemory m.
Proof.
  unfold Execute. rewrite (InitRegisters_ok a m sp n v) by done. cbn [rbind].
  unfold RestoreState. rewrite Hpt, Hk. cbn [init rbind]. eexists. split; [reflexivity|].
  split_and!; try done. intros r Hr Hnot.
  unfold ReadRegister.
  replace ((0 <=? r) && (r <? NumTotalRegs)) with true
    by (symmetry; apply andb_true_iff; split; [apply Z.leb_le|apply Z.ltb_lt]; lia).
  cbn [ASSERT rbind]. unfold reg. apply arr_get_Some; [lia|]. cbn [registers set_registers].
  rewrite !not_elem_of_cons in Hnot. destruct Hnot as (H4 & H5 & H29 & H35 & _).
  unfold StackReg, NextPCReg, NumTotalRegs in *.
  rewrite !(list_lookup_insert_ne _ _ (Z.to_nat r)) by lia.
  destruct (decide (r = 34)) as [->|]; [done|].
  rewrite list_lookup_insert_ne by lia. apply lookup_replicate_2. lia.
Qed.
End properties.

(** *** A concrete program *)

(** A NOFF file with 8 bytes of code at 0, 4 of data at 8 and 4 zeros at 12. *)
Definition ex_noff : list Z :=
  mjoin (le_split 4 <$> [NOFFMAGIC; 0; 52; 8; 8; 60; 4; 0; 0; 0; 12; 0; 4]) ++
  [1; 2; 3; 4; 5; 6; 7; 8] ++ [9; 10; 11; 12].

(** The file system of [HostFS] with the program in the file [a]. *)
Definition ex_prog : FS () := set_host ex_fs (set_inode (host ex_fs) 1 ex_noff).

Lemma ex_prog_ok : fs_ok ex_prog.
Proof.
  apply fs_ok_host; [exact ex_fs_ok|]. destruct (ok_host _ ex_fs_ok) as [Hd Hf]. split_and!.
  - constructor; cbn [dir inodes fds set_inode].
    + intros n j Hj. destruct (decide (1%positive = j)) as [<-|].
      * rewrite lookup_insert_eq. by eexists.
      * rewrite lookup_insert_ne by done. by eapply Hd.
    + intros fd j off Hfd. destruct (Hf _ _ _ Hfd) as [Hj ?]. split; [|done].
      destruct (decide (1%positive = j)) as [<-|].
      * rewrite lookup_insert_eq. by eexists.
      * by rewrite lookup_insert_ne.
  - intros f o j off _ Hfd. by exists off.
  - done.
Qed.

Lemma ex_prog_same : dir (host ex_prog) = dir (host ex_fs) /\
  protected (host ex_prog) = protected (host ex_fs) /\ fileSlot ex_prog = fileSlot ex_fs /\
  inodes (host ex_prog) !! 1%positive = Some ex_noff.
Proof.
  unfold ex_prog. generalize ex_fs as fs. intros fs. split_and!; try done. cbn. apply lookup_insert_eq.
Qed.

Lemma ex_prog_string : string_at ex_name ex_prog = Ok [97].
Proof. vm_compute. reflexivity. Qed.

Lemma ex_prog_strings : strings_at [ex_name] ex_prog = Ok [[97]].
Proof. vm_compute. reflexivity. Qed.

Lemma ex_free_map : exists b, Bitmap.new_Bitmap (fun _ => 0) NumPhysPages = Ok b /\
  Bitmap.rep b (replicate 128 false).
Proof. by apply (Bitmap.new_Bitmap_ok (fun _ => 0) NumPhysPages). Qed.

(** A machine with every frame free. *)
Definition ex_machine (b : Bitmap.Bitmap) : Machine :=
  mkMachine (replicate (Z.to_nat MemorySize) 0) b None None 0 (replicate 40 0) false 0.

Lemma ex_machine_mem b : zlen (mainMemory (ex_machine b)) = MemorySize.
Proof. unfold zlen. cbn [mainMemory ex_machine]. rewrite length_replicate. reflexivity. Qed.

Lemma ex_header : header ex_noff = mkNoff NOFFMAGIC (mkSegment 0 52 8) (mkSegment 8 60 4)
  (mkSegment 0 0 0) (mkSegment 12 0 4).
Proof. vm_compute. reflexivity. Qed.

Lemma ex_space : space_pages (header ex_noff) = 9.
Proof. rewrite ex_header. reflexivity. Qed.

Lemma ex_loadable : loadable ex_noff [[97]].
Proof.
  constructor; rewrite ?ex_space; rewrite ?ex_header.
  - apply (bool_decide_unpack (Forall (fun b => 0 <= b < 256) ex_noff)). vm_compute. exact I.
  - vm_compute. split; congruence.
  - reflexivity.
  - vm_compute. congruence.
  - vm_compute. repeat split; congruence.
  - vm_compute. repeat split; congruence.
  - vm_compute. repeat split; congruence.
  - cbn [size readonlyData]. split; [lia|]. intros Hpos. lia.
  - repeat constructor; lia.
  - vm_compute. congruence.
Qed.

Example Load_exact_witness : exists b fr a m' (fs' : FS ()),
  Load (replicate 52 0) (fun _ => entry_for 0 0) ex_name [ex_name] new_AddrSpace (ex_machine b) ex_prog
    = Ok (true, a, m', fs') /\ zlen fr = 9 /\ pageTable a = Some (table_for fr) /\
  view fr (mainMemory m') = image ex_noff [[97]].
Proof.
  destruct ex_free_map as (b & _ & Hb).
  destruct (Load_exact (replicate 52 0) (fun _ => entry_for 0 0) ex_name [ex_name] new_AddrSpace
    (ex_machine b) ex_prog [97] 1 ex_noff [[97]] (replicate 128 false) ex_prog_ok)
    as (fr & bm & mem & fs' & HL & Hfr & _ & _ & Hs & _).
  - exact ex_prog_string.
  - rewrite (proj1 ex_prog_same). exact ex_dir.
  - rewrite (proj1 (proj2 ex_prog_same)). exact ex_access.
  - rewrite (proj1 (proj2 (proj2 ex_prog_same))), ex_free. done.
  - exact (proj2 (proj2 (proj2 ex_prog_same))).
  - reflexivity.
  - exact ex_prog_strings.
  - exact ex_loadable.
  - exact Hb.
  - reflexivity.
  - exact (ex_machine_mem b).
  - rewrite ex_space, Bitmap.count_clear_replicate. lia.
  - exists b, fr. do 3 eexists. split; [exact HL|]. rewrite ex_space in Hfr. split; [exact Hfr|].
    split; [reflexivity|]. destruct Hs as (_ & Hv & _). exact Hv.
Defined.

Example AllocateMemory_isolates_witness : exists b fr a' m',
  AllocateMemory (fun _ => entry_for 0 0) 3 new_AddrSpace (ex_machine b) = Ok (a', m') /\
  length fr = 3%nat /\ view fr (mainMemory m') = replicate (page * 3) 0.
Proof.
  destruct ex_free_map as (b & _ & Hb).
  pose proof (AllocateMemory_isolates (fun _ => entry_for 0 0) 3 new_AddrSpace (ex_machine b)
    (replicate 128 false) [] Hb eq_refl (ex_machine_mem b) (Forall_nil_2 _)) as HA.
  rewrite decide_True in HA by (rewrite Bitmap.count_clear_replicate; lia).
  destruct HA as (fr & a' & m' & HA & _ & Hl & _ & _ & Hv & _). exists b, fr, a', m'. by split_and!.
Defined.

(** An installed space of one page, on frame 5. *)
Definition ex_space1 : AddrSpace := mkAddrSpace (Some 96) (Some 0) (Some 100) (Some (table_for [5%nat])) (Some 1).

Example Translate_agrees_witness : exists b m' a' m2,
  RestoreState ex_space1 (ex_machine b) = Ok m' /\
  Translate ex_space1 7 true = Ok (inr 647, a') /\ Machine.Translate m' 7 1 true = Ok (inr 647, m2).
Proof.
  destruct ex_free_map as (b & _). destruct (Translate_agrees ex_space1 (ex_machine b)
    (mkMachine (replicate (Z.to_nat MemorySize) 0) b None (Some (table_for [5%nat])) 1 (replicate 40 0) false 0)
    (table_for [5%nat]) 1 7 true) as (r & a' & m2 & H1 & H2 & _).
  - reflexivity.
  - reflexivity.
  - unfold zlen. simpl. lia.
  - repeat constructor; simpl; lia.
  - reflexivity.
  - unfold is_u32. lia.
  - reflexivity.
  - assert (r = inr 647) as ->.
    { unfold ex_space1, Translate in H1. cbn in H1. by injection H1. }
    exists b. eexists _, a', m2. split; [reflexivity|]. split; [exact H1|exact H2].
Defined.

Example Execute_starts_witness : exists b m',
  Execute ex_space1 (ex_machine b) = Ok m' /\ ReadRegister m' NextPCReg = Ok 4 /\
  ReadRegister m' StackReg = Ok 96.
Proof.
  destruct ex_free_map as (b & _). destruct (Execute_starts ex_space1 (ex_machine b) 96 0 100 (table_for [5%nat]) 1)
    as (m' & HE & _ & Hn & Hs & _); [reflexivity..|].
  exists b, m'. split; [exact HE|]. split; [exact Hn|exact Hs].
Defined.
End AddrSpace.
