(* ===== verification/Isolation.v ===== *)
(** Isolation of user memory: what runs on the machine reaches memory only
    through the installed page table, and so only the frames of the space that
    is installed; loading a program writes fresh frames only. *)

From S2P Require Import Prelude Bitmap Machine Mips HostFS AddrSpace.
Import Machine Mips.

Module Isolation.
#[local] Abbreviation page := AddrSpace.page.
#[local] Abbreviation good_frames := AddrSpace.good_frames.
#[local] Abbreviation maps := AddrSpace.maps.

(** *** Memory *)

(** Only bytes of the frames [fr] differ. *)
Definition outside (fr : list nat) (mem mem' : list Z) : Prop :=
  length mem' = length mem /\ forall k, (k / page)%nat ∉ fr -> mem' !! k = mem !! k.

Lemma outside_refl fr mem : outside fr mem mem.
Proof. done. Qed.
Lemma outside_trans fr mem1 mem2 mem3 : outside fr mem1 mem2 -> outside fr mem2 mem3 -> outside fr mem1 mem3.
Proof. intros [L1 H1] [L2 H2]. split; [congruence|]. intros k Hk. by rewrite H2, H1. Qed.

(** A write within a frame. *)
Lemma mem_write_outside fr f mem a n v : f ∈ fr -> Z.of_nat f * PageSize <= a ->
  a + n <= Z.of_nat f * PageSize + PageSize -> 0 <= n -> post (mem_write mem a n v) (outside fr mem).
Proof.
  intros Hf Ha Hn Hn0. unfold mem_write. destruct ((0 <=? a) && (a + n <=? zlen mem)) eqn:E; [|done].
  bool_to_prop. unfold zlen in *.
  assert (Hl : (Z.to_nat a + length (le_split (Z.to_nat n) v) <= length mem)%nat) by (rewrite length_le_split; lia).
  split; [by apply length_splice|]. intros k Hk. apply lookup_splice_out; [done|].
  rewrite length_le_split. destruct (decide (k < Z.to_nat a)%nat); [by left|right].
  destruct (decide (Z.to_nat a + Z.to_nat n <= k)%nat); [done|]. destruct Hk.
  replace (k / page)%nat with f; [done|].
  unfold PageSize, page, AddrSpace.page in *. apply (Nat.div_unique k 128 f (k - 128 * f)); lia.
Qed.

(** *** The machine *)

(** The space whose pages are on the frames [fr] is installed. *)
Record runs_space (fr : list nat) (m : Machine) : Prop := {
  rs_memory : zlen (mainMemory m) = MemorySize;
  rs_tlb : tlb m = None;
  rs_frames : good_frames fr;
  rs_table : exists pt, pageTable m = Some pt /\ maps pt fr /\ pageTableSize m = zlen fr;
}.

(** Nothing but registers change. *)
Definition regs m m' : Prop :=
  length (registers m') = length (registers m) /\ mainMemory m' = mainMemory m /\
  pageTableMap m' = pageTableMap m /\ tlb m' = tlb m /\ pageTable m' = pageTable m /\
  pageTableSize m' = pageTableSize m.

(** What code that runs in a space may do: whatever space is installed, it stays,
    and the rest of memory is as before. *)
Definition moves m m' : Prop :=
  length (registers m') = length (registers m) /\ pageTableMap m' = pageTableMap m /\
  forall fr, runs_space fr m -> runs_space fr m' /\ outside fr (mainMemory m) (mainMemory m').

Lemma regs_refl m : regs m m.
Proof. done. Qed.
Lemma regs_trans m1 m2 m3 : regs m1 m2 -> regs m2 m3 -> regs m1 m3.
Proof. unfold regs. intuition congruence. Qed.
Lemma moves_refl m : moves m m.
Proof. split_and!; [done..|]. intros fr Hr. split; [done|apply outside_refl]. Qed.
Lemma moves_trans m1 m2 m3 : moves m1 m2 -> moves m2 m3 -> moves m1 m3.
Proof.
  intros (L1 & M1 & H1) (L2 & M2 & H2). split_and!; [congruence..|].
  intros fr Hr. destruct (H1 fr Hr) as [Hr1 O1]. destruct (H2 fr Hr1) as [Hr2 O2].
  split; [done|by eapply outside_trans].
Qed.
Lemma regs_moves m m' : regs m m' -> moves m m'.
Proof.
  intros (L & M & B & T & P & S). split_and!; [done..|]. intros fr []. rewrite M. split; [|apply outside_refl].
  constructor; rewrite ?M, ?T, ?P, ?S; done.
Qed.

Lemma set_reg_regs m r v : post (set_reg m r v) (regs m).
Proof.
  unfold set_reg. apply post_any. intros rs E. apply arr_set_inv in E as [_ ->].
  unfold regs. cbn. by rewrite length_insert.
Qed.
Lemma WriteRegister_regs m r v : post (WriteRegister m r v) (regs m).
Proof. unfold WriteRegister. apply post_any. intros _ _. apply set_reg_regs. Qed.

Lemma set_reg_moves m r v : post (set_reg m r v) (moves m).
Proof. eapply post_mono; [apply set_reg_regs|]. apply regs_moves. Qed.
Lemma WriteRegister_moves m r v : post (WriteRegister m r v) (moves m).
Proof. eapply post_mono; [apply WriteRegister_regs|]. apply regs_moves. Qed.

Lemma runs_space_tables fr m : runs_space fr m -> wf_tables m.
Proof.
  intros [Hm Ht [_ Hf] (pt & Hpt & Hmaps & Hsz)]. split; [done|]. exists pt. split; [done|].
  assert (Hlen : length pt = length fr) by (apply (f_equal length) in Hmaps; by rewrite !length_fmap in Hmaps).
  split; [rewrite Hsz; unfold zlen; lia|]. apply Forall_lookup. intros i e He.
  apply (f_equal (lookup i)) in Hmaps. rewrite !list_lookup_fmap, He in Hmaps. cbn in Hmaps.
  destruct (fr !! i) as [f|] eqn:Ef; [|done]. injection Hmaps as ->. rewrite Forall_lookup in Hf.
  specialize (Hf _ _ Ef). unfold is_s32. lia.
Qed.

(** The page a table entry of the installed space is on. *)
Lemma runs_space_pte fr m vpn e : runs_space fr m -> pte m vpn = Some e ->
  exists f, f ∈ fr /\ physicalPage e = Z.of_nat f.
Proof.
  intros [_ _ _ (pt & Hpt & Hmaps & _)] He. unfold pte in He. rewrite Hpt in He.
  destruct (vpn <? pageTableSize m); [|done]. apply (f_equal (lookup (Z.to_nat vpn))) in Hmaps.
  rewrite !list_lookup_fmap, He in Hmaps. cbn in Hmaps. destruct (fr !! Z.to_nat vpn) as [f|] eqn:Ef; [|done].
  injection Hmaps as Hp. exists f. split; [by eapply list_elem_of_lookup_2|done].
Qed.

Lemma mark_page_runs fr m va writing : runs_space fr m -> runs_space fr (mark_page m va writing).
Proof.
  intros Hr. pose proof Hr as [Hm Ht Hg (pt & Hpt & Hmaps & Hsz)]. unfold mark_page.
  destruct (pte m (u32 va / PageSize)) as [e|] eqn:He; [|done].
  constructor; try done. cbn [set_entry set_tables pageTable pageTableSize]. rewrite Hpt. cbn.
  eexists. split; [done|]. split; [|done]. unfold maps, AddrSpace.maps in *. rewrite <- Hmaps, list_fmap_insert. cbn.
  apply list_insert_id. rewrite list_lookup_fmap. unfold pte in He. rewrite Hpt in He.
  destruct (_ <? _); [|done]. by rewrite He.
Qed.

Lemma Translate_moves m va size writing : access_size size ->
  post (Translate m va size writing) (fun '(r, m') => registers m' = registers m /\
    pageTableMap m' = pageTableMap m /\ mainMemory m' = mainMemory m /\
    forall fr, runs_space fr m -> runs_space fr m' /\
      match r with
      | inr pa => exists f, f ∈ fr /\ Z.of_nat f * PageSize <= pa /\ pa + size <= Z.of_nat f * PageSize + PageSize
      | inl _ => True
      end).
Proof.
  intros Hs. apply post_intro. intros [r m'] E.
  assert (Hf : registers m' = registers m /\ pageTableMap m' = pageTableMap m /\ mainMemory m' = mainMemory m).
  { unfold Translate in E. destruct (_ || _); [by injection E as _ <-|].
    do 2 apply ASSERT_inv in E as [_ E]. cbn zeta in E. apply bind_Ok_inv in E as ([exn|[[t e] i]] & _ & E);
      [by injection E as _ <-|].
    destruct (_ && _); [by injection E as _ <-|]. cbn zeta in E. destruct (NumPhysPages <=? _); [by injection E as _ <-|].
    apply ASSERT_inv in E as [_ E]. injection E as _ <-. by destruct t. }
  destruct Hf as (? & ? & ?). split_and!; [done..|]. intros fr Hr.
  rewrite Translate_eq in E by (done || by eapply runs_space_tables).
  destruct (access_error m va size writing) eqn:Ea; injection E as <- <-; [done|]. split; [by apply mark_page_runs|].
  destruct (phys_addr_range _ _ _ _ Hs Ea) as (e & He & _ & _ & -> & _ & Hoff & _). cbn [from_option id].
  destruct (runs_space_pte fr m _ e Hr He) as (f & Hf & ->). exists f. split; [done|].
  pose proof (Z.mod_pos_bound (u32 va) PageSize ltac:(done)). lia.
Qed.

Create HintDb moves.
#[export] Hint Resolve set_reg_moves WriteRegister_moves : moves.

Lemma access_sizes : access_size 1 /\ access_size 2 /\ access_size 4.
Proof. unfold access_size. lia. Qed.
#[export] Hint Extern 1 (access_size _) => apply access_sizes : moves.

(** Goals of the form [regs m m'] and [moves m m'], by the steps from [m] to [m']. *)
Ltac moving :=
  cbn beta iota in *;
  match goal with
  | |- regs ?m ?m => apply regs_refl
  | |- moves ?m ?m => apply moves_refl
  | H : regs ?m1 ?m2 |- regs ?m0 ?m2 => apply (regs_trans m0 m1 m2); [moving|exact H]
  | H : moves ?m1 ?m2 |- moves ?m0 ?m2 => apply (moves_trans m0 m1 m2); [moving|exact H]
  | H : regs ?m1 ?m2 |- moves ?m0 ?m2 => apply (moves_trans m0 m1 m2); [moving|apply regs_moves; exact H]
  end.
Ltac move_step := run_with ltac:(eauto 2 with moves).

Lemma DelayedLoad_regs m r v : post (DelayedLoad m r v) (regs m).
Proof.
  unfold DelayedLoad. do 2 (apply post_any; intros ? _).
  do 3 (eapply post_bind_mono; [apply set_reg_regs|]; intros ? ?).
  eapply post_mono; [apply set_reg_regs|]. intros m' Hm'. moving.
Qed.
Lemma DelayedLoad_moves m r v : post (DelayedLoad m r v) (moves m).
Proof. eapply post_mono; [apply DelayedLoad_regs|]. apply regs_moves. Qed.
#[export] Hint Resolve DelayedLoad_moves : moves.

(** *** Programs *)

Section kernel.
Context {K : Type} `{Kernel K}.
Implicit Types (m : Machine) (k : K).

(** A kernel whose trap handler moves within the installed space. *)
Variable handler_moves : forall which m k, post (ExceptionHandler which m k) (fun '(m', _) => moves m m').
#[local] Hint Resolve handler_moves : moves.

Lemma RaiseException_moves which va m k : post (RaiseException which va m k) (fun '(m', _) => moves m m').
Proof. unfold RaiseException. repeat move_step. moving. Qed.
#[local] Hint Resolve RaiseException_moves : moves.

Lemma ReadMem_moves va size m k : access_size size ->
  post (ReadMem va size m k) (fun '(_, m', _) => moves m m').
Proof.
  intros Hs. unfold ReadMem. eapply post_bind_mono; [by apply Translate_moves|].
  intros [r m1] (E1 & E2 & E3 & Hr).
  assert (moves m m1).
  { split_and!; [by rewrite E1|done|]. intros fr Hfr. destruct (Hr fr Hfr) as [? _]. rewrite E3.
    split; [done|apply outside_refl]. }
  repeat move_step; moving.
Qed.

(** The byte of the store is in the frame of its page. *)
Lemma store_moves m m1 pa n v : 0 <= n -> registers m1 = registers m -> pageTableMap m1 = pageTableMap m ->
  mainMemory m1 = mainMemory m ->
  (forall fr, runs_space fr m -> runs_space fr m1 /\
     exists f, f ∈ fr /\ Z.of_nat f * PageSize <= pa /\ pa + n <= Z.of_nat f * PageSize + PageSize) ->
  post (mem_write (mainMemory m1) pa n v) (fun mem => moves m (set_memory m1 mem)).
Proof.
  intros Hn E1 E2 E3 Hr. apply post_intro. intros mem E. split_and!; [by cbn; rewrite E1|done|].
  intros fr Hfr. destruct (Hr fr Hfr) as [[] (f & Hf & H1 & H2)].
  pose proof (post_elim _ _ _ (mem_write_outside fr f (mainMemory m1) pa n v Hf H1 H2 Hn) E) as HO.
  rewrite E3 in HO. split; [|done]. constructor; try done. cbn. unfold zlen in *. by rewrite (proj1 HO), <- E3.
Qed.

Lemma WriteMem_moves va size v m k : access_size size ->
  post (WriteMem va size v m k) (fun '(_, m', _) => moves m m').
Proof.
  intros Hs. unfold WriteMem. eapply post_bind_mono; [by apply Translate_moves|].
  intros [[exn|pa] m1] (E1 & E2 & E3 & Hr).
  - assert (moves m m1).
    { split_and!; [by rewrite E1|done|]. intros fr Hfr. destruct (Hr fr Hfr) as [? _]. rewrite E3.
      split; [done|apply outside_refl]. }
    repeat move_step; moving.
  - pose proof (fun v => store_moves m m1 pa size v) as HS.
    destruct Hs as [-> | [-> | ->]]; cbn [Z.eqb Pos.eqb];
      (eapply post_bind_mono; [by apply HS|]; intros mem Hm; exact Hm).
Qed.
#[local] Hint Resolve ReadMem_moves WriteMem_moves : moves.

(** The machine after a case of the switch. *)
Definition after (c : Case (K := K)) : Machine := match c with Return m _ | Break m _ _ _ _ => m end.

Lemma trap_moves which va m k : post (trap which va m k) (fun c => moves m (after c)).
Proof. unfold trap. repeat move_step. moving. Qed.
Lemma assign_moves pc m k r v : post (assign pc m k r v) (fun c => moves m (after c)).
Proof. unfold assign. repeat move_step. moving. Qed.
Lemma link_moves r m : post (link r m) (moves m).
Proof. unfold link. repeat move_step. moving. Qed.
#[local] Hint Resolve trap_moves assign_moves link_moves : moves.

(** Every case of the switch. *)
Lemma exec_moves i pc m k : post (exec i pc m k) (fun c => moves m (after c)).
Proof.
  unfold exec, exec_add, exec_branch, exec_div, exec_jump, exec_load, exec_load_unaligned, exec_hilo, exec_or,
    exec_store, exec_shift, exec_sub, exec_store_unaligned, exec_xor, branch, jump_index, load_to, stored, set_hilo.
  destruct (opCode i); repeat move_step; moving.
Qed.

Lemma finish_moves m pc r v : post (finish m pc r v) (moves m).
Proof. unfold finish. repeat move_step. moving. Qed.
#[local] Hint Resolve exec_moves finish_moves : moves.

(** An instruction touches only the memory of the space it runs in. *)
Lemma OneInstruction_moves m k : post (OneInstruction m k) (fun '(m', _) => moves m m').
Proof. unfold OneInstruction. repeat move_step; cbn [after] in *; moving. Qed.
End kernel.

(** *** Loading a program *)

(** The space [a] has its pages on the frames [fr]. *)
Definition loaded (a : AddrSpace.AddrSpace) (fr : list nat) : Prop :=
  good_frames fr /\ AddrSpace.numPages a = Some (zlen fr) /\
  exists pt, AddrSpace.pageTable a = Some pt /\ maps pt fr.

Lemma maps_inj pt fr fr' : maps pt fr -> maps pt fr' -> fr = fr'.
Proof. unfold maps, AddrSpace.maps. intros -> E. by apply list_fmap_eq_inj in E; [|intros x y ?; lia]. Qed.
Lemma loaded_inj a fr fr' : loaded a fr -> loaded a fr' -> fr = fr'.
Proof. intros (_ & _ & pt & E & H) (_ & _ & pt' & E' & H'). simplify_eq. by eapply maps_inj. Qed.

Section pages.
Context (pt : list TranslationEntry) (fr : list nat) (Hmaps : maps pt fr) (Hgood : good_frames fr).

Lemma paddr_frame va : post (AddrSpace.paddr pt va) (fun p =>
  exists f, f ∈ fr /\ p = Z.of_nat f * PageSize + va mod PageSize).
Proof.
  unfold AddrSpace.paddr. apply post_any. intros e E. simpl. apply arr_get_inv in E as [_ He].
  apply (f_equal (lookup (Z.to_nat (va / PageSize)))) in Hmaps. rewrite !list_lookup_fmap, He in Hmaps.
  cbn in Hmaps. destruct (fr !! _) as [f|] eqn:Ef; [|done]. injection Hmaps as ->.
  exists f. split; [by eapply list_elem_of_lookup_2|]. destruct Hgood as [_ Hf]. rewrite Forall_lookup in Hf.
  specialize (Hf _ _ Ef). pose proof (Z.mod_pos_bound va PageSize ltac:(done)) as Hm. unfold PageSize in *.
  rewrite s32_id, u32_id by (unfold is_s32, is_u32; lia). done.
Qed.

Lemma store_outside va n v mem : 0 <= n -> va mod PageSize + n <= PageSize ->
  post (AddrSpace.store pt va n v mem) (outside fr mem).
Proof.
  intros Hn Hva. unfold AddrSpace.store. eapply post_bind_mono; [apply paddr_frame|].
  intros p (f & Hf & ->). pose proof (Z.mod_pos_bound va PageSize ltac:(done)).
  apply (mem_write_outside fr f); [done|lia..].
Qed.
Lemma store_byte_outside va v mem : post (AddrSpace.store pt va 1 v mem) (outside fr mem).
Proof. apply store_outside; [done|]. pose proof (Z.mod_pos_bound va PageSize ltac:(done)). lia. Qed.
Lemma store_word_outside va v mem : va mod 4 = 0 -> post (AddrSpace.store pt va 4 v mem) (outside fr mem).
Proof.
  intros Ha. apply store_outside; [done|]. unfold PageSize in *. zlia.
Qed.

Lemma zero_segment_outside sg mem : post (AddrSpace.zero_segment pt sg mem) (outside fr mem).
Proof.
  apply (post_for_range (outside fr mem)); [apply outside_refl|]. intros j t Ht.
  eapply post_mono; [apply store_byte_outside|]. intros t' Ht'. by eapply outside_trans.
Qed.

Context {N : Type} `{TCP N}.
Implicit Types (fs : StubFS.FS N).

Lemma load_byte_outside e va pos mem fs :
  post (AddrSpace.load_byte pt e va pos (mem, fs)) (fun '(mem', _) => outside fr mem mem').
Proof.
  unfold AddrSpace.load_byte. eapply post_bind_mono; [apply paddr_frame|]. intros p (f & Hf & ->).
  apply post_any. intros [r fs'] _. repeat case_match; try apply outside_refl.
  eapply post_bind_mono; [apply (mem_write_outside fr f); [done|..]|intros mem' Hm; exact Hm];
    pose proof (Z.mod_pos_bound va PageSize ltac:(done)); lia.
Qed.

Lemma load_segment_outside e sg n mem fs :
  post (AddrSpace.load_segment pt e sg n (mem, fs)) (fun '(mem', _) => outside fr mem mem').
Proof.
  apply (post_for_range (fun '(mem', _) => outside fr mem mem')); [apply outside_refl|].
  intros j [mem1 fs1] Ht. eapply post_mono; [apply load_byte_outside|].
  intros [mem2 fs2] Ht'. by eapply outside_trans.
Qed.

Lemma load_segments_outside e h mem fs :
  post (AddrSpace.load_segments pt e h (mem, fs)) (fun '(mem', _) => outside fr mem mem').
Proof.
  assert (Hseg : forall (b : bool) sg n mem0 fs0, post (if b then AddrSpace.load_segment pt e sg n (mem0, fs0)
      else Ok (mem0, fs0)) (fun '(mem', _) => outside fr mem0 mem')).
  { intros [] sg n mem0 fs0; [apply load_segment_outside|apply outside_refl]. }
  unfold AddrSpace.load_segments. eapply post_bind_mono; [apply Hseg|]. intros [mem1 fs1] H1.
  eapply post_bind_mono; [apply zero_segment_outside|]. intros mem2 H2.
  eapply post_bind_mono; [apply Hseg|]. intros [mem3 fs3] H3.
  eapply post_mono; [apply Hseg|]. intros [mem4 fs4] H4.
  eapply outside_trans; [exact H1|]. eapply outside_trans; [exact H2|]. by eapply outside_trans.
Qed.

Lemma copy_strings_outside args va mem :
  post (AddrSpace.copy_strings pt args va mem) (fun '(_, mem') => outside fr mem mem').
Proof.
  apply (post_for_range (fun '(_, mem') => outside fr mem mem')); [apply outside_refl|].
  intros i [va1 mem1] H1. apply post_any. intros arg _.
  apply (post_for_range (fun '(_, mem') => outside fr mem mem')); [exact H1|].
  intros j [va2 mem2] H2. apply post_any. intros c _. eapply post_bind_mono; [apply store_byte_outside|].
  intros mem3 H3. by eapply outside_trans.
Qed.

Lemma aligned_next va : va mod 4 = 0 -> u32 (va + 4) mod 4 = 0.
Proof. unfold u32. intros. zlia. Qed.

Lemma copy_pointers_outside args va ptr mem : va mod 4 = 0 ->
  post (AddrSpace.copy_pointers pt args va ptr mem) (outside fr mem).
Proof.
  intros Ha. unfold AddrSpace.copy_pointers. eapply post_bind_mono.
  - apply (post_for_range (fun '(va, _, mem') => va mod 4 = 0 /\ outside fr mem mem')); [by split|].
    intros i [[va1 p1] mem1] [Ha1 H1]. apply post_any. intros arg _. eapply post_bind_mono; [by apply store_word_outside|].
    intros mem2 H2. split; [by apply aligned_next|]. by eapply outside_trans.
  - intros [[va1 p1] mem1] [Ha1 H1]. eapply post_mono; [by apply store_word_outside|]. intros mem2 H2. by eapply outside_trans.
Qed.

Lemma copy_args_outside n args mem :
  post (AddrSpace.copy_args pt n args mem) (fun '(_, _, mem') => outside fr mem mem').
Proof.
  unfold AddrSpace.copy_args. set (ptr := foldl _ _ _). eapply post_bind_mono; [apply copy_strings_outside|].
  intros [va mem1] H1. rewrite AddrSpace.align_down_ok, bind_Ok by (lia || apply u32_range).
  eapply post_bind_mono; [apply copy_pointers_outside; set (v := u32 _); zlia|].
  intros mem2 H2. apply post_any. intros sp _. by eapply outside_trans.
Qed.
End pages.

Section load.
Context {N : Type} `{TCP N}.
Implicit Types (fs : StubFS.FS N) (m : Machine).

(** Nothing but memory and the map of its frames changes. *)
Definition same_cpu m m' : Prop :=
  registers m' = registers m /\ tlb m' = tlb m /\ pageTable m' = pageTable m /\
  pageTableSize m' = pageTableSize m.

(** A load that succeeds takes fresh frames, and writes no others; one that does
    not find its file changes nothing. *)
Lemma Load_frames junkH junk name args a m fs l : Bitmap.rep (pageTableMap m) l -> zlen l = NumPhysPages ->
  zlen (mainMemory m) = MemorySize ->
  post (AddrSpace.Load junkH junk name args a m fs) (fun '(ok, a', m', _) =>
    if (ok : bool) then exists fr, loaded a' fr /\ AddrSpace.fresh_frames fr l /\
      Bitmap.rep (pageTableMap m') (AddrSpace.taken fr l) /\ outside fr (mainMemory m) (mainMemory m') /\ same_cpu m m'
    else a' = a /\ m' = m).
Proof.
  intros Hr Hl Hm. unfold AddrSpace.Load. apply post_any. intros [[e|] fs1] _; [|done].
  apply post_any. intros [r fs2] _. cbn zeta. set (noffH := if _ && _ then _ else _). apply post_any. intros _ _.
  set (n := divRoundUp _ _). apply post_any. intros [a1 m1] EA.
  assert (Hn : exists k : nat, n = Z.of_nat k).
  { exists (Z.to_nat n). symmetry. apply Z2Nat.id. unfold n, divRoundUp.
    match goal with |- context [u32 ?x] => pose proof (u32_range x) end. unfold is_u32, PageSize in *. repeat case_match; zlia. }
  destruct Hn as [k Hk]. rewrite Hk in EA |- *. clearbody n.
  destruct (decide (Z.of_nat k <= Bitmap.count_clear l)) as [Hle|Hgt];
    [|rewrite (AddrSpace.AllocateMemory_over _ _ _ _ l) in EA by (done || lia); done].
  destruct (AddrSpace.AllocateMemory_ok junk k a m l Hr Hl Hm Hle)
    as (fr & bm & mem & EA' & Hlen & Hff & Hg & Hbm & Hs1 & Hs2 & Hs3).
  rewrite EA' in EA. injection EA as <- <-. clear EA'.
  assert (Hout : outside fr (mainMemory m) mem) by (split; [unfold zlen in *; lia|done]).
  pose proof (AddrSpace.table_for_maps fr) as Hmaps.
  apply post_any. intros _ _. cbn [StubFS.init rbind AddrSpace.pageTable].
  eapply post_bind_mono; [by apply load_segments_outside|]. intros [mem1 fs3] H1. cbn [mainMemory set_memory] in H1.
  apply post_any. intros strs _. eapply post_bind_mono; [by apply copy_args_outside|]. intros [[av sp] mem2] H2.
  apply post_any. intros id _. apply post_any. intros [b fs4] _. simpl.
  exists fr. split; [|split; [done|split; [done|split; [|done]]]].
  - split; [done|]. cbn. split; [unfold zlen; by rewrite Hlen|]. by exists (AddrSpace.table_for fr).
  - eapply outside_trans; [exact Hout|]. by eapply outside_trans.
Qed.
End load.

(** *** A context switch *)

Section switch.
Implicit Types (m : Machine) (a : AddrSpace.AddrSpace).

(** A loop that copies an array, element by element. *)
Lemma copy_loop (src : list Z) (n : nat) (f : Z -> list Z -> res (list Z)) (dst : list Z) :
  length src = n -> length dst = n ->
  (forall j t x, length t = n -> src !! Z.to_nat j = Some x -> 0 <= j -> f j t = Ok (<[Z.to_nat j := x]> t)) ->
  for_range n 0 f dst = Ok src.
Proof.
  intros Hs Hd Hf. destruct (for_range_rule (fun i t => length t = n /\ take (Z.to_nat i) t = take (Z.to_nat i) src)
    n 0 f dst) as (t & -> & Hl & Ht).
  - by split.
  - intros j t Hj [Hl Ht]. destruct (lookup_lt_is_Some_2 src (Z.to_nat j)) as [x Hx]; [lia|].
    rewrite (Hf j t x) by (done || lia). eexists. split; [done|]. rewrite length_insert. split; [done|].
    replace (Z.to_nat (j + 1)) with (S (Z.to_nat j)) by lia.
    rewrite (take_S_r _ _ x) by (apply list_lookup_insert_eq; lia). rewrite (take_S_r src _ x) by done.
    by rewrite take_insert_ge, Ht by lia.
  - rewrite Z.add_0_l, Nat2Z.id, !take_ge in Ht by lia. by subst.
Qed.

Lemma ReadRegister_lookup m i v : 0 <= i -> registers m !! Z.to_nat i = Some v ->
  length (registers m) = Z.to_nat NumTotalRegs -> ReadRegister m i = Ok v.
Proof.
  intros Hi Hv Hl. pose proof (lookup_lt_Some _ _ _ Hv). unfold ReadRegister.
  rewrite ASSERT_true by (apply andb_true_iff; split; [apply Z.leb_le|apply Z.ltb_lt]; unfold NumTotalRegs in *; lia).
  by apply arr_get_Some.
Qed.

(** The loop of [Thread::SaveUserState]. *)
Lemma save_registers m rs : length (registers m) = Z.to_nat NumTotalRegs -> length rs = Z.to_nat NumTotalRegs ->
  for_range (Z.to_nat NumTotalRegs) 0 (fun i rs => v ← ReadRegister m i; arr_set rs i v) rs = Ok (registers m).
Proof.
  intros Hm Hrs. apply copy_loop; [done..|]. intros j t x Hl Hx Hj.
  pose proof (lookup_lt_Some _ _ _ Hx). rewrite (ReadRegister_lookup m j x) by done. cbn [rbind].
  apply arr_set_lt. unfold zlen. lia.
Qed.

(** The loop of [Thread::RestoreUserState]. *)
Lemma restore_registers m rs : length (registers m) = Z.to_nat NumTotalRegs -> length rs = Z.to_nat NumTotalRegs ->
  for_range (Z.to_nat NumTotalRegs) 0 (fun i m => v ← arr_get rs i; WriteRegister m i v) m = Ok (set_registers m rs).
Proof.
  intros Hm Hrs. set (f := fun i (t : list Z) => Ok (<[Z.to_nat i := rs !!! Z.to_nat i]> t)).
  assert (E : forall n i t, length t = Z.to_nat NumTotalRegs -> 0 <= i -> i + Z.of_nat n <= NumTotalRegs ->
    for_range n i (fun i m => v ← arr_get rs i; WriteRegister m i v) (set_registers m t) =
    (t' ← for_range n i f t; Ok (set_registers m t'))).
  { induction n as [|n IH]; intros i t Ht Hi Hn; [done|]. cbn [for_range].
    destruct (lookup_lt_is_Some_2 rs (Z.to_nat i)) as [x Hx]; [unfold NumTotalRegs in *; lia|].
    rewrite (arr_get_Some rs i x) by done. cbn [rbind]. unfold WriteRegister.
    rewrite ASSERT_true by (apply andb_true_iff; split; [apply Z.leb_le|apply Z.ltb_lt]; lia).
    rewrite set_reg_ok by (done || lia). cbn [rbind registers set_registers].
    change (set_registers (set_registers m t) ?u) with (set_registers m u).
    unfold f at 1. cbn [rbind]. rewrite (list_lookup_total_correct _ _ _ Hx).
    apply IH; [by rewrite length_insert|lia..]. }
  specialize (E (Z.to_nat NumTotalRegs) 0 (registers m)). replace (set_registers m (registers m)) with m in E by by destruct m.
  rewrite E by (done || lia). rewrite (copy_loop rs); [done|done|done|].
  intros j t x _ Hx _. unfold f. by rewrite (list_lookup_total_correct _ _ _ Hx).
Qed.

(** Installing a loaded space. *)
Lemma RestoreState_runs a fr m : loaded a fr -> zlen (mainMemory m) = MemorySize -> tlb m = None ->
  exists m', AddrSpace.RestoreState a m = Ok m' /\ runs_space fr m' /\ mainMemory m' = mainMemory m /\
    registers m' = registers m /\ pageTableMap m' = pageTableMap m /\ pageTable m' = AddrSpace.pageTable a.
Proof.
  intros (Hg & Hn & pt & Hpt & Hmaps) Hm Ht. unfold AddrSpace.RestoreState. rewrite Hn, Hpt. cbn [StubFS.init rbind].
  eexists. split; [done|]. split_and!; try done. constructor; try done. by exists pt.
Qed.

(** What [SaveState] leaves in the space is what the machine ran with. *)
Lemma loaded_table a fr m : loaded a fr -> runs_space fr m ->
  loaded (AddrSpace.mkAddrSpace (AddrSpace.stackptr a) (AddrSpace.argc a) (AddrSpace.argv a) (pageTable m)
            (AddrSpace.numPages a)) fr.
Proof. intros (Hg & Hn & _) [_ _ _ (pt & E & Hmaps & _)]. split; [done|]. split; [done|]. by exists pt. Qed.

(** The frames of a deleted space are free again, and no others are touched. *)
Lemma delete_frees a fr m l : loaded a fr -> Bitmap.rep (pageTableMap m) l -> zlen l = NumPhysPages ->
  post (AddrSpace.delete_AddrSpace a m) (fun m' => exists bm l', m' = AddrSpace.set_map m bm /\ Bitmap.rep bm l' /\
    zlen l' = NumPhysPages /\ forall f, f ∉ fr -> l' !! f = l !! f).
Proof.
  intros ([_ Hf] & Hn & pt & Hpt & Hmaps) Hr Hl. unfold AddrSpace.delete_AddrSpace. rewrite Hn, Hpt. cbn [StubFS.init rbind].
  eapply post_bind_mono.
  - apply (post_for_range (fun bm => exists l', Bitmap.rep bm l' /\ zlen l' = NumPhysPages /\
      forall f, f ∉ fr -> l' !! f = l !! f)); [by exists l|].
    intros j bm (l' & Hr' & Hl' & Hout). apply post_any. intros e E. apply arr_get_inv in E as [_ He].
    apply (f_equal (lookup (Z.to_nat j))) in Hmaps. rewrite !list_lookup_fmap, He in Hmaps. cbn in Hmaps.
    destruct (fr !! Z.to_nat j) as [f|] eqn:Ef; [|done]. injection Hmaps as ->.
    rewrite Forall_lookup in Hf. specialize (Hf _ _ Ef).
    destruct (Bitmap.Clear_in bm l' (Z.of_nat f) Hr') as (bm' & -> & Hr2); [unfold NumPhysPages in *; lia|].
    exists (<[f := false]> l'). rewrite Nat2Z.id in Hr2. split; [done|]. rewrite zlen_insert. split; [done|].
    intros g Hg. rewrite list_lookup_insert_ne; [by apply Hout|]. intros ->. apply Hg. by eapply list_elem_of_lookup_2.
  - intros bm (l' & ? & ? & ?). by exists bm, l'.
Qed.
End switch.
End Isolation.
