(* ===== verification/Threads.v ===== *)
(** Threads and synchronisation ([threads/thread.h], [threads/thread.cc],
    [threads/scheduler.cc], [threads/synch.h], [threads/synch.cc],
    [threads/synchlist.h], [threads/synchlist.cc]) as a small-step machine.

    The kernel stack of a thread is the list of the calls it still has to make,
    innermost first; running a call changes the state and may put further calls
    on the stack.  [SWITCH] changes the current thread, whose stack is run from
    then on.  A call is cut where another thread may run: at a sleep, and where
    interrupts are enabled, which advances the clock, fires interrupts and may
    yield.  What the kernel's clients (system calls, tests) do between calls and
    what the devices' handlers do is the interface [Client]. *)

From S2P Require Import Prelude Bitmap Lists Machine Interrupt HostFS AddrSpace.
Import Stats Interrupt.

Module Threads.

(** The address of a thread, semaphore, lock, condition or list. *)
Definition ptr : Type := positive.

Inductive ThreadStatus : Set := JUST_CREATED | RUNNING | READY | BLOCKED.
#[global] Instance ThreadStatus_eq_dec : EqDecision ThreadStatus.
Proof. solve_decision. Defined.

Definition STACK_FENCEPOST : Z := 0xdedbeef.

(** [stack] is the word [*stack], [None] when no stack was allocated (the main
    thread); [result] is what the last call of the thread returned. *)
Record Thread := mkThread {
  name : list Z;
  processID : Z;
  stack : option Z;
  status : ThreadStatus;
  userRegisters : list Z;
  space : option AddrSpace.AddrSpace;
  result : Z;
}.

Record Semaphore := mkSemaphore { value : Z; queue : Lists.List ptr }.
Record Lock := mkLock { lockHolder : option ptr; semaphore : ptr }.
Record Condition := mkCondition { waitQueue : Lists.List ptr }.
Record SynchList := mkSynchList { list : Lists.List Z; lock : ptr; listEmpty : ptr }.

(** The calls on a kernel stack: the functions of the source with their
    arguments, the rest of a function after the point where it was cut, with
    its local variables, and the clients' code [U]. *)
Inductive instr (U : Type) : Type :=
| User (u : U)
| SetLevelTo (now : IntStatus)
| SetStatusTo (st : Machine.MachineStatus)
| Tick
| NewFork (nm : Datatypes.list Z) (pid : Z) (func : U)
| Begin (this : ptr)
| Finish
| Yield
| SleepLoop (this : ptr) (finishing : bool)
| RunReturn (oldThread : ptr)
| NewSemaphore (initialValue : Z)
| DeleteSemaphore (s : ptr)
| P (s : ptr)
| PLoop (s : ptr) (currentThread : ptr) (oldLevel : IntStatus)
| V (s : ptr)
| NewLock
| DeleteLock (l : ptr)
| Acquire (l : ptr)
| Acquired (l : ptr)
| Release (l : ptr)
| NewCondition
| DeleteCondition (c : ptr)
| Wait (c l : ptr)
| Signal (c l : ptr)
| Broadcast (c l : ptr)
| NewSynchList
| DeleteSynchList (sl : ptr)
| ListAppend (sl : ptr) (item : Z)
| ListAppended (sl : ptr) (item : Z)
| ListRemoveFront (sl : ptr)
| ListRemoveLoop (sl : ptr)
| ListApply (sl : ptr) (func : Z -> U)
| ListApplied (sl : ptr) (func : Z -> U).
Arguments User {U} u.
Arguments SetLevelTo {U} now.
Arguments SetStatusTo {U} st.
Arguments Tick {U}.
Arguments NewFork {U} nm pid func.
Arguments Begin {U} this.
Arguments Finish {U}.
Arguments Yield {U}.
Arguments SleepLoop {U} this finishing.
Arguments RunReturn {U} oldThread.
Arguments NewSemaphore {U} initialValue.
Arguments DeleteSemaphore {U} s.
Arguments P {U} s.
Arguments PLoop {U} s currentThread oldLevel.
Arguments V {U} s.
Arguments NewLock {U}.
Arguments DeleteLock {U} l.
Arguments Acquire {U} l.
Arguments Acquired {U} l.
Arguments Release {U} l.
Arguments NewCondition {U}.
Arguments DeleteCondition {U} c.
Arguments Wait {U} c l.
Arguments Signal {U} c l.
Arguments Broadcast {U} c l.
Arguments NewSynchList {U}.
Arguments DeleteSynchList {U} sl.
Arguments ListAppend {U} sl item.
Arguments ListAppended {U} sl item.
Arguments ListRemoveFront {U} sl.
Arguments ListRemoveLoop {U} sl.
Arguments ListApply {U} sl func.
Arguments ListApplied {U} sl func.

(** The kernel: [kernel->currentThread], the scheduler, the objects in memory
    and the kernel stacks of the threads. *)
Record Kern (U : Type) := mkKern {
  threads : gmap ptr Thread;
  stacks : gmap ptr (Datatypes.list (instr U));
  currentThread : ptr;
  readyList : Lists.List ptr;
  toBeDestroyed : option ptr;
  sems : gmap ptr Semaphore;
  locks : gmap ptr Lock;
  conds : gmap ptr Condition;
  slists : gmap ptr SynchList;
  brk : ptr;
}.
Arguments mkKern {U} threads stacks currentThread readyList toBeDestroyed sems locks conds slists brk.
Arguments threads {U} k.
Arguments stacks {U} k.
Arguments currentThread {U} k.
Arguments readyList {U} k.
Arguments toBeDestroyed {U} k.
Arguments sems {U} k.
Arguments locks {U} k.
Arguments conds {U} k.
Arguments slists {U} k.
Arguments brk {U} k.

(** The kernel and the rest of the system, [D] (devices, files, processes). *)
Record World (U D : Type) := mkWorld { kern : Kern U; dev : D }.
Arguments mkWorld {U D} kern dev.
Arguments kern {U D} w.
Arguments dev {U D} w.

(** What the clients do: the handler of an interrupt, a piece of client code
    with the calls it makes next, and the destructor of the kernel, which does
    not return. *)
Class Client (C U D : Type) := {
  handler : C -> Sim C (World U D) -> res (Sim C (World U D));
  ustep : U -> Sim C (World U D) -> res (Datatypes.list (instr U) * Sim C (World U D));
  shutdown : Sim C (World U D) -> fault;
}.

Section code.
Context {C U D : Type} `{EqDecision C}.
Abbreviation state := (Sim C (World U D)).
Abbreviation frames := (Datatypes.list (instr U)).
Implicit Types (s : state) (k : Kern U) (t : ptr).

(** *** Access to the state *)

Definition the_kern s : Kern U := kern (rest s).
Definition on_kern (f : Kern U -> Kern U) s : state :=
  mkSim (interrupt s) (stats s) (machine s) (mkWorld (f (the_kern s)) (dev (rest s))).
Definition set_threads k m : Kern U := mkKern m (stacks k) (currentThread k) (readyList k)
  (toBeDestroyed k) (sems k) (locks k) (conds k) (slists k) (brk k).
Definition set_stacks k m : Kern U := mkKern (threads k) m (currentThread k) (readyList k)
  (toBeDestroyed k) (sems k) (locks k) (conds k) (slists k) (brk k).
Definition set_current k t : Kern U := mkKern (threads k) (stacks k) t (readyList k)
  (toBeDestroyed k) (sems k) (locks k) (conds k) (slists k) (brk k).
Definition set_ready k l : Kern U := mkKern (threads k) (stacks k) (currentThread k) l
  (toBeDestroyed k) (sems k) (locks k) (conds k) (slists k) (brk k).
Definition set_doomed k d : Kern U := mkKern (threads k) (stacks k) (currentThread k) (readyList k)
  d (sems k) (locks k) (conds k) (slists k) (brk k).
Definition set_sems k m : Kern U := mkKern (threads k) (stacks k) (currentThread k) (readyList k)
  (toBeDestroyed k) m (locks k) (conds k) (slists k) (brk k).
Definition set_locks k m : Kern U := mkKern (threads k) (stacks k) (currentThread k) (readyList k)
  (toBeDestroyed k) (sems k) m (conds k) (slists k) (brk k).
Definition set_conds k m : Kern U := mkKern (threads k) (stacks k) (currentThread k) (readyList k)
  (toBeDestroyed k) (sems k) (locks k) m (slists k) (brk k).
Definition set_slists k m : Kern U := mkKern (threads k) (stacks k) (currentThread k) (readyList k)
  (toBeDestroyed k) (sems k) (locks k) (conds k) m (brk k).
Definition set_brk k p : Kern U := mkKern (threads k) (stacks k) (currentThread k) (readyList k)
  (toBeDestroyed k) (sems k) (locks k) (conds k) (slists k) p.

Definition cur s : ptr := currentThread (the_kern s).

(** An object that was deleted or never made. *)
Definition live {A} (m : gmap ptr A) (p : ptr) : res A :=
  match m !! p with Some x => Ok x | None => Fault UseAfterFree end.

Definition set_thread t (f : Thread -> Thread) s : state :=
  on_kern (fun k => set_threads k (alter f t (threads k))) s.
Definition with_status (st : ThreadStatus) (th : Thread) : Thread :=
  mkThread (name th) (processID th) (stack th) st (userRegisters th) (space th) (result th).
Definition with_registers rs (th : Thread) : Thread :=
  mkThread (name th) (processID th) (stack th) (status th) rs (space th) (result th).
Definition with_space sp (th : Thread) : Thread :=
  mkThread (name th) (processID th) (stack th) (status th) (userRegisters th) sp (result th).
Definition with_stack w (th : Thread) : Thread :=
  mkThread (name th) (processID th) w (status th) (userRegisters th) (space th) (result th).
Definition with_result r (th : Thread) : Thread :=
  mkThread (name th) (processID th) (stack th) (status th) (userRegisters th) (space th) r.

Definition setStatus t (st : ThreadStatus) s : state := set_thread t (with_status st) s.
(** The value a call returns to the current thread, and what the last one returned. *)
Definition return_ (r : Z) s : state := set_thread (cur s) (with_result r) s.
Definition returned s : res Z := th ← live (threads (the_kern s)) (cur s); Ok (result th).
Definition set_sem (p : ptr) (x : Semaphore) s : state :=
  on_kern (fun k => set_sems k (<[p := x]> (sems k))) s.

(** [interrupt->SetLevel(IntOff)], which never advances the clock. *)
Definition SetLevelOff s : IntStatus * state := (level (interrupt s), ChangeLevel (level (interrupt s)) IntOff s).

Definition interrupts_off s : bool := bool_decide (level (interrupt s) = IntOff).

(** *** [Scheduler] *)

Definition ReadyToRun (thread : ptr) s : res state :=
  ASSERT (interrupts_off s) ;;
  let s := setStatus thread READY s in
  l ← Lists.Append (readyList (the_kern s)) thread;
  Ok (on_kern (fun k => set_ready k l) s).

Definition FindNextToRun s : res (option ptr * state) :=
  ASSERT (interrupts_off s) ;;
  if Lists.IsEmpty (readyList (the_kern s)) then Ok (None, s)
  else
    '(t, l) ← Lists.RemoveFront (readyList (the_kern s));
    Ok (Some t, on_kern (fun k => set_ready k l) s).

Definition the_machine s : res Machine.Machine :=
  match machine s with Some m => Ok m | None => Fault NullPointer end.
Definition set_machine (m : Machine.Machine) s : state := mkSim (interrupt s) (stats s) (Some m) (rest s).

(** The [TranslationEntry] array of a loaded space is the machine's while it is
    installed: the machine's marks are in the array of the space. *)
Definition shared_table (m : Machine.Machine) (a : AddrSpace.AddrSpace) : AddrSpace.AddrSpace :=
  match AddrSpace.pageTable a with
  | Some _ => AddrSpace.mkAddrSpace (AddrSpace.stackptr a) (AddrSpace.argc a) (AddrSpace.argv a)
                (Machine.pageTable m) (AddrSpace.numPages a)
  | None => a
  end.

Definition SaveUserState (t : ptr) s : res state :=
  m ← the_machine s;
  th ← live (threads (the_kern s)) t;
  rs ← for_range (Z.to_nat Machine.NumTotalRegs) 0 (fun i rs =>
         v ← Machine.ReadRegister m i; arr_set rs i v) (userRegisters th);
  Ok (set_thread t (with_registers rs) s).

Definition RestoreUserState (t : ptr) s : res state :=
  m ← the_machine s;
  th ← live (threads (the_kern s)) t;
  m ← for_range (Z.to_nat Machine.NumTotalRegs) 0 (fun i m =>
        v ← arr_get (userRegisters th) i; Machine.WriteRegister m i v) m;
  Ok (set_machine m s).

Definition CheckOverflow (t : ptr) s : res () :=
  th ← live (threads (the_kern s)) t;
  match stack th with
  | Some word => ASSERT (word =? STACK_FENCEPOST)
  | None => Ok ()
  end.

(** The destructor of a thread deletes its address space and its stack. *)
Definition delete_Thread (t : ptr) s : res state :=
  th ← live (threads (the_kern s)) t;
  s ← match space th with
      | Some a => m ← the_machine s; m ← AddrSpace.delete_AddrSpace a m; Ok (set_machine m s)
      | None => Ok s
      end;
  ASSERT (negb (bool_decide (t = cur s))) ;;
  Ok (on_kern (fun k => set_stacks (set_threads k (delete t (threads k))) (delete t (stacks k))) s).

Definition CheckToBeDestroyed s : res state :=
  match toBeDestroyed (the_kern s) with
  | Some t => s ← delete_Thread t s; Ok (on_kern (fun k => set_doomed k None) s)
  | None => Ok s
  end.

(** [Run] up to [SWITCH], which the old thread returns from in [RunReturn]. *)
Definition Run (nextThread : ptr) (finishing : bool) s : res (frames * state) :=
  let oldThread := cur s in
  ASSERT (interrupts_off s) ;;
  s ← (if finishing then
         ASSERT (bool_decide (toBeDestroyed (the_kern s) = None)) ;;
         Ok (on_kern (fun k => set_doomed k (Some oldThread)) s)
       else Ok s);
  th ← live (threads (the_kern s)) oldThread;
  s ← match space th with
      | Some a =>
          s ← SaveUserState oldThread s;
          m ← the_machine s;
          Ok (set_thread oldThread (with_space (Some (AddrSpace.SaveState (shared_table m a) m))) s)
      | None => Ok s
      end;
  CheckOverflow oldThread s ;;
  let s := on_kern (fun k => set_current k nextThread) s in
  let s := setStatus nextThread RUNNING s in
  Ok ([RunReturn oldThread], s).

Definition RunReturn_ (oldThread : ptr) s : res state :=
  ASSERT (interrupts_off s) ;;
  s ← CheckToBeDestroyed s;
  th ← live (threads (the_kern s)) oldThread;
  match space th with
  | Some a =>
      s ← RestoreUserState oldThread s;
      m ← the_machine s;
      m ← AddrSpace.RestoreState a m;
      Ok (set_machine m s)
  | None => Ok s
  end.

(** *** Interrupts, as a thread calls them *)

Section with_client.
Context `{Client C U D}.

(** The handlers of the devices; the thread switch is done by [Tick]. *)
#[global] Instance client_devices : Devices C (World U D) :=
  {| CallBack := handler; Interrupt.Yield _ := Fault AssertFailed; delete_kernel := shutdown |}.

(** [Interrupt::OneTick]; the yield and what follows it are calls of their own. *)
Definition OneTick_ s : res (frames * state) :=
  let oldStatus := Interrupt.status (interrupt s) in
  s ← tick s;
  if yieldOnReturn (interrupt s) then
    let s := on_interrupt (fun i => set_status (set_yield i false) Machine.SystemMode) s in
    Ok ([Yield; SetStatusTo oldStatus], s)
  else Ok ([], s).

Definition SetLevel_ (now : IntStatus) s : res (frames * state) :=
  let old := level (interrupt s) in
  ASSERT (bool_decide (now = IntOff) || negb (inHandler (interrupt s))) ;;
  let s := ChangeLevel old now s in
  if decide (now = IntOn /\ old = IntOff) then OneTick_ s else Ok ([], s).

(** *** [Thread] *)

Definition new_Thread (nm : Datatypes.list Z) (pid : Z) s : ptr * state :=
  let t := brk (the_kern s) in
  (t, on_kern (fun k => set_brk (set_threads k
        (<[t := mkThread nm pid None JUST_CREATED (replicate (Z.to_nat Machine.NumTotalRegs) 0) None 0]>
           (threads k))) (Pos.succ t)) s).

(** A stack that begins in [ThreadRoot]: [Begin], the function, [Finish]. *)
Definition StackAllocate t (func : U) s : state :=
  let s := set_thread t (with_stack (Some STACK_FENCEPOST)) s in
  on_kern (fun k => set_stacks k (<[t := [Begin t; User func; Finish]]> (stacks k))) s.

Definition Fork t (func : U) s : res (frames * state) :=
  let s := StackAllocate t func s in
  let '(oldLevel, s) := SetLevelOff s in
  s ← ReadyToRun t s;
  Ok ([SetLevelTo oldLevel], s).

Definition Begin_ t s : res (frames * state) :=
  ASSERT (bool_decide (t = cur s)) ;;
  s ← CheckToBeDestroyed s;
  Ok ([SetLevelTo IntOn], s).

Definition Yield_ s : res (frames * state) :=
  let this := cur s in
  let '(oldLevel, s) := SetLevelOff s in
  '(nextThread, s) ← FindNextToRun s;
  match nextThread with
  | Some nextThread =>
      s ← ReadyToRun this s;
      '(fs, s) ← Run nextThread false s;
      Ok (fs ++ [SetLevelTo oldLevel], s)
  | None => Ok ([SetLevelTo oldLevel], s)
  end.

(** [Sleep] goes on in [SleepLoop]. *)
Definition Sleep_ t (finishing : bool) s : res (frames * state) :=
  ASSERT (bool_decide (t = cur s)) ;;
  ASSERT (interrupts_off s) ;;
  Ok ([SleepLoop t finishing], setStatus t BLOCKED s).

(** [Finish] never returns. *)
Definition Finish_ s : res (frames * state) :=
  let '(_, s) := SetLevelOff s in Sleep_ (cur s) true s.

(** The loop of [Sleep]; a round without a ready thread idles the machine. *)
Definition SleepLoop_ t (finishing : bool) s : res (frames * state) :=
  '(nextThread, s) ← FindNextToRun s;
  match nextThread with
  | Some nextThread => Run nextThread finishing s
  | None => s ← Idle s; Ok ([SleepLoop t finishing], s)
  end.

(** *** [Semaphore], [Lock] and [Condition] *)

Definition new_Semaphore (initialValue : Z) s : ptr * state :=
  let p := brk (the_kern s) in
  (p, on_kern (fun k => set_brk (set_sems k
        (<[p := mkSemaphore initialValue Lists.new_List]> (sems k))) (Pos.succ p)) s).

Definition P_ (p : ptr) s : res (frames * state) :=
  let currentThread := cur s in
  let '(oldLevel, s) := SetLevelOff s in
  Ok ([PLoop p currentThread oldLevel], s).

Definition PLoop_ (p t : ptr) (oldLevel : IntStatus) s : res (frames * state) :=
  x ← live (sems (the_kern s)) p;
  if value x =? 0 then
    q ← Lists.Append (queue x) t;
    '(fs, s) ← Sleep_ t false (set_sem p (mkSemaphore (value x) q) s);
    Ok (fs ++ [PLoop p t oldLevel], s)
  else Ok ([SetLevelTo oldLevel], set_sem p (mkSemaphore (s32 (value x - 1)) (queue x)) s).

Definition V_ (p : ptr) s : res (frames * state) :=
  let '(oldLevel, s) := SetLevelOff s in
  x ← live (sems (the_kern s)) p;
  s ← (if negb (Lists.IsEmpty (queue x)) then
         '(t, q) ← Lists.RemoveFront (queue x);
         ReadyToRun t (set_sem p (mkSemaphore (value x) q) s)
       else Ok s);
  x ← live (sems (the_kern s)) p;
  Ok ([SetLevelTo oldLevel], set_sem p (mkSemaphore (s32 (value x + 1)) (queue x)) s).

(** [V] as an interrupt handler calls it: interrupts are off and stay off. *)
Definition V_in_handler (p : ptr) s : res state :=
  ASSERT (interrupts_off s) ;; '(_, s) ← V_ p s; Ok s.

Definition new_Lock s : ptr * state :=
  let '(p, s) := new_Semaphore 1 s in
  let l := brk (the_kern s) in
  (l, on_kern (fun k => set_brk (set_locks k (<[l := mkLock None p]> (locks k))) (Pos.succ l)) s).

Definition delete_Semaphore (p : ptr) s : res state :=
  _x ← live (sems (the_kern s)) p;
  Ok (on_kern (fun k => set_sems k (delete p (sems k))) s).

Definition delete_Lock (l : ptr) s : res state :=
  x ← live (locks (the_kern s)) l;
  s ← delete_Semaphore (semaphore x) s;
  Ok (on_kern (fun k => set_locks k (delete l (locks k))) s).

Definition Acquire_ (l : ptr) s : res (frames * state) :=
  x ← live (locks (the_kern s)) l; Ok ([P (semaphore x); Acquired l], s).

Definition set_holder (l : ptr) (h : option ptr) s : state :=
  on_kern (fun k => set_locks k (alter (fun x => mkLock h (semaphore x)) l (locks k))) s.

Definition Acquired_ (l : ptr) s : res (frames * state) :=
  _x ← live (locks (the_kern s)) l; Ok ([], set_holder l (Some (cur s)) s).

Definition IsHeldByCurrentThread (l : ptr) s : res bool :=
  x ← live (locks (the_kern s)) l; Ok (bool_decide (lockHolder x = Some (cur s))).

Definition Release_ (l : ptr) s : res (frames * state) :=
  held ← IsHeldByCurrentThread l s;
  ASSERT held ;;
  x ← live (locks (the_kern s)) l;
  Ok ([V (semaphore x)], set_holder l None s).

Definition new_Condition s : ptr * state :=
  let c := brk (the_kern s) in
  (c, on_kern (fun k => set_brk (set_conds k (<[c := mkCondition Lists.new_List]> (conds k)))
        (Pos.succ c)) s).

Definition delete_Condition (c : ptr) s : res state :=
  _x ← live (conds (the_kern s)) c;
  Ok (on_kern (fun k => set_conds k (delete c (conds k))) s).

Definition set_waitQueue (c : ptr) q s : state :=
  on_kern (fun k => set_conds k (<[c := mkCondition q]> (conds k))) s.

Definition Wait_ (c conditionLock : ptr) s : res (frames * state) :=
  held ← IsHeldByCurrentThread conditionLock s;
  ASSERT held ;;
  let '(waiter, s) := new_Semaphore 0 s in
  x ← live (conds (the_kern s)) c;
  q ← Lists.Append (waitQueue x) waiter;
  Ok ([Release conditionLock; P waiter; Acquire conditionLock; DeleteSemaphore waiter],
      set_waitQueue c q s).

Definition Signal_ (c conditionLock : ptr) s : res (frames * state) :=
  held ← IsHeldByCurrentThread conditionLock s;
  ASSERT held ;;
  x ← live (conds (the_kern s)) c;
  if negb (Lists.IsEmpty (waitQueue x)) then
    '(waiter, q) ← Lists.RemoveFront (waitQueue x);
    Ok ([V waiter], set_waitQueue c q s)
  else Ok ([], s).

Definition Broadcast_ (c conditionLock : ptr) s : res (frames * state) :=
  x ← live (conds (the_kern s)) c;
  if negb (Lists.IsEmpty (waitQueue x)) then Ok ([Signal c conditionLock; Broadcast c conditionLock], s)
  else Ok ([], s).

(** *** [SynchList] *)

Definition new_SynchList s : ptr * state :=
  let '(l, s) := new_Lock s in
  let '(c, s) := new_Condition s in
  let p := brk (the_kern s) in
  (p, on_kern (fun k => set_brk (set_slists k (<[p := mkSynchList Lists.new_List l c]> (slists k)))
        (Pos.succ p)) s).

Definition delete_SynchList (p : ptr) s : res state :=
  x ← live (slists (the_kern s)) p;
  s ← delete_Condition (listEmpty x) s;
  s ← delete_Lock (lock x) s;
  Ok (on_kern (fun k => set_slists k (delete p (slists k))) s).

Definition set_list (p : ptr) q s : state :=
  on_kern (fun k => set_slists k
    (alter (fun x => mkSynchList q (lock x) (listEmpty x)) p (slists k))) s.

Definition ListAppend_ (p : ptr) (item : Z) s : res (frames * state) :=
  x ← live (slists (the_kern s)) p; Ok ([Acquire (lock x); ListAppended p item], s).

Definition ListAppended_ (p : ptr) (item : Z) s : res (frames * state) :=
  x ← live (slists (the_kern s)) p;
  q ← Lists.Append (list x) item;
  Ok ([Signal (listEmpty x) (lock x); Release (lock x)], set_list p q s).

Definition ListRemoveFront_ (p : ptr) s : res (frames * state) :=
  x ← live (slists (the_kern s)) p; Ok ([Acquire (lock x); ListRemoveLoop p], s).

(** The item is returned once the lock is released. *)
Definition ListRemoveLoop_ (p : ptr) s : res (frames * state) :=
  x ← live (slists (the_kern s)) p;
  if Lists.IsEmpty (list x) then Ok ([Wait (listEmpty x) (lock x); ListRemoveLoop p], s)
  else
    '(item, q) ← Lists.RemoveFront (list x);
    Ok ([Release (lock x)], return_ item (set_list p q s)).

Definition ListApply_ (p : ptr) (func : Z -> U) s : res (frames * state) :=
  x ← live (slists (the_kern s)) p; Ok ([Acquire (lock x); ListApplied p func], s).

(** [func] is called on every item, then the lock is released. *)
Definition ListApplied_ (p : ptr) (func : Z -> U) s : res (frames * state) :=
  x ← live (slists (the_kern s)) p;
  calls ← Lists.Apply (list x) (fun item calls => Ok (calls ++ [User (func item)])) [];
  Ok (calls ++ [Release (lock x)], s).

(** *** One call *)

Definition exec (i : instr U) s : res (frames * state) :=
  match i with
  | User u => ustep u s
  | SetLevelTo now => SetLevel_ now s
  | SetStatusTo st => Ok ([], Interrupt.setStatus st s)
  | Tick => OneTick_ s
  | NewFork nm pid func => let '(t, s) := new_Thread nm pid s in Fork t func s
  | Begin t => Begin_ t s
  | Finish => Finish_ s
  | Yield => Yield_ s
  | SleepLoop t finishing => SleepLoop_ t finishing s
  | RunReturn old => s ← RunReturn_ old s; Ok ([], s)
  | NewSemaphore v => let '(p, s) := new_Semaphore v s in Ok ([], return_ (Zpos p) s)
  | DeleteSemaphore p => s ← delete_Semaphore p s; Ok ([], s)
  | P p => P_ p s
  | PLoop p t old => PLoop_ p t old s
  | V p => V_ p s
  | NewLock => let '(l, s) := new_Lock s in Ok ([], return_ (Zpos l) s)
  | DeleteLock l => s ← delete_Lock l s; Ok ([], s)
  | Acquire l => Acquire_ l s
  | Acquired l => Acquired_ l s
  | Release l => Release_ l s
  | NewCondition => let '(c, s) := new_Condition s in Ok ([], return_ (Zpos c) s)
  | DeleteCondition c => s ← delete_Condition c s; Ok ([], s)
  | Wait c l => Wait_ c l s
  | Signal c l => Signal_ c l s
  | Broadcast c l => Broadcast_ c l s
  | NewSynchList => let '(p, s) := new_SynchList s in Ok ([], return_ (Zpos p) s)
  | DeleteSynchList p => s ← delete_SynchList p s; Ok ([], s)
  | ListAppend p item => ListAppend_ p item s
  | ListAppended p item => ListAppended_ p item s
  | ListRemoveFront p => ListRemoveFront_ p s
  | ListRemoveLoop p => ListRemoveLoop_ p s
  | ListApply p func => ListApply_ p func s
  | ListApplied p func => ListApplied_ p func s
  end.

(** The stack of the current thread without its top call, and new calls on the
    stack of a thread. *)
Definition set_stack t (fs : frames) s : state :=
  on_kern (fun k => set_stacks k (<[t := fs]> (stacks k))) s.
Definition push t (fs : frames) s : state :=
  on_kern (fun k => set_stacks k (alter (fun rest => fs ++ rest) t (stacks k))) s.

(** One step of the machine: the current thread makes its next call, whose own
    calls go on its stack. *)
Definition step s : res state :=
  let t := cur s in
  match stacks (the_kern s) !! t with
  | Some (i :: fs) => '(calls, s) ← exec i (set_stack t fs s); Ok (push t calls s)
  | _ => Fault AssertFailed
  end.

Fixpoint steps (n : nat) s : res state :=
  match n with O => Ok s | Datatypes.S n => s ← step s; steps n s end.
End with_client.
End code.
End Threads.
