(* ===== verification/Synch.v ===== *)
(** The invariants of the thread machine of [Threads]: every thread is in exactly
    one place, semaphores do not lose a wakeup, a lock has at most one holder. *)

From S2P Require Import Prelude Bitmap Lists Machine Interrupt HostFS AddrSpace Threads.
Import Stats Interrupt Threads.

Module Synch.

(** A list has one content. *)
Lemma rep_fun {A} `{EqDecision A} (L : Lists.List A) xs ys : Lists.rep L xs -> Lists.rep L ys -> xs = ys.
Proof.
  revert L ys. induction xs as [|x xs IH]; intros L ys Hx Hy.
  - pose proof (Lists.IsEmpty_law _ _ Hx) as E. rewrite (Lists.IsEmpty_law _ _ Hy) in E.
    rewrite (bool_decide_eq_true_2 (@nil A = [])) in E by done.
    by apply bool_decide_eq_true_1 in E.
  - destruct (Lists.RemoveFront_law _ _ Hx) as (L1 & E1 & Hx1).
    pose proof (Lists.RemoveFront_law _ _ Hy) as Hy'. destruct ys as [|y ys]; [congruence|].
    destruct Hy' as (L2 & E2 & Hy1). rewrite E1 in E2. injection E2 as -> ->. f_equal. by eapply IH.
Qed.

Section defs.
Context {U : Type}.
Implicit Types (k : Kern U) (t p : ptr) (fs : Datatypes.list (instr U)).

(** *** Stacks *)

(** A stack that is to be run with interrupts at level [l], by a thread that is
    not asleep. *)
Fixpoint typed t (l : IntStatus) fs : Prop :=
  match fs with
  | [] => True
  | i :: fs =>
      match i with
      | SetLevelTo now => typed t now fs
      | Begin t' => t' = t /\ l = IntOff /\ typed t IntOn fs
      | SleepLoop _ _ => False
      | RunReturn t' => t' = t /\ l = IntOff /\ typed t IntOff fs
      | PLoop _ t' old => t' = t /\ l = IntOff /\ typed t old fs
      | _ => l = IntOn /\ typed t IntOn fs
      end
  end.

(** What is under the loop of [Sleep]: the rest of [P], unless the thread has
    finished. *)
Definition typed_loop t (fin : bool) fs : Prop :=
  if fin then typed t IntOn fs
  else typed t IntOff fs /\ exists p old rest, fs = PLoop p t old :: rest.

(** The thread sleeps in [P] on the semaphore, or is on its way to look again. *)
Definition in_P t p fs : Prop :=
  exists old rest, fs = PLoop p t old :: rest \/ fs = RunReturn t :: PLoop p t old :: rest \/
    fs = SleepLoop t false :: PLoop p t old :: rest.

(** The stack of a thread that does not have the CPU. *)
Definition switched_out t fs : Prop := exists rest, fs = RunReturn t :: rest \/ fs = Begin t :: rest.

(** *** Where the threads are *)

Definition has_status k t (st : ThreadStatus) : Prop :=
  exists th, threads k !! t = Some th /\ status th = st.

(** The threads that wait for a semaphore, in order. *)
Definition waits k p (q : Datatypes.list ptr) : Prop :=
  exists x, sems k !! p = Some x /\ Lists.rep (queue x) q.

Definition in_no_queue k t : Prop := forall p q, waits k p q -> t ∉ q.

(** Fewer threads than an [int] counts. *)
Definition few k : Prop := Z.of_nat (base.size (threads k)) < 2 ^ 31 - 1.

Lemma few_dom k k' : (forall t, is_Some (threads k' !! t) <-> is_Some (threads k !! t)) -> few k -> few k'.
Proof.
  intros E. unfold few. rewrite <- !size_dom. replace (dom (threads k')) with (dom (threads k)); [done|].
  apply set_eq. intros t. by rewrite !elem_of_dom.
Qed.

(** Every thread is the current one, on the ready list, waiting for one
    semaphore, or finished. *)
Record placed k : Prop := {
  pl_ready : exists rl, Lists.rep (readyList k) rl /\ NoDup rl /\
    forall t, t ∈ rl <-> has_status k t READY;
  pl_sem p x : sems k !! p = Some x -> exists q, Lists.rep (queue x) q /\ NoDup q;
  pl_wait p q t : waits k p q -> t ∈ q -> has_status k t BLOCKED /\
    exists fs, stacks k !! t = Some fs /\ in_P t p fs;
  pl_one p1 p2 q1 q2 t : waits k p1 q1 -> waits k p2 q2 -> t ∈ q1 -> t ∈ q2 -> p1 = p2;
  pl_cur : is_Some (threads k !! currentThread k);
  pl_others t th : threads k !! t = Some th -> t <> currentThread k ->
    (status th = READY \/ status th = BLOCKED) /\
    exists fs, stacks k !! t = Some fs /\ switched_out t fs /\
      (toBeDestroyed k <> Some t -> typed t IntOff fs);
  pl_dom t : is_Some (threads k !! t) <-> is_Some (stacks k !! t);
  pl_doomed d : toBeDestroyed k = Some d -> d <> currentThread k /\ has_status k d BLOCKED /\
    in_no_queue k d /\ forall p fs, stacks k !! d = Some fs -> ~ in_P d p fs;
  pl_fence t th w : threads k !! t = Some th -> stack th = Some w -> w = STACK_FENCEPOST;
  pl_few : few k;
  pl_brk_t (t : ptr) : (brk k <= t)%positive -> threads k !! t = None;
  pl_brk_s (p : ptr) : (brk k <= p)%positive -> sems k !! p = None;
}.

(** The current thread and its stack, interrupts at level [l]. *)
Record runs k (l : IntStatus) fs : Prop := {
  ru_stack : stacks k !! currentThread k = Some fs;
  ru_status : has_status k (currentThread k) RUNNING /\ typed (currentThread k) l fs \/
    exists fin rest, fs = SleepLoop (currentThread k) fin :: rest /\ l = IntOff /\
      typed_loop (currentThread k) fin rest /\
      (has_status k (currentThread k) BLOCKED \/ has_status k (currentThread k) READY) /\
      (fin = true -> has_status k (currentThread k) BLOCKED /\ in_no_queue k (currentThread k));
  ru_doomed : is_Some (toBeDestroyed k) -> switched_out (currentThread k) fs;
}.

(** What a kernel state satisfies between two calls. *)
Definition inv k (l : IntStatus) : Prop := placed k /\ exists fs, runs k l fs.

(** *** Basic facts *)

Lemma has_status_fun k t st st' : has_status k t st -> has_status k t st' -> st = st'.
Proof. intros (th & H & <-) (th' & H' & <-). congruence. Qed.

Lemma waits_fun k p q q' : waits k p q -> waits k p q' -> q = q'.
Proof. intros (x & Hx & Hq) (x' & Hx' & Hq'). simplify_eq. by eapply rep_fun. Qed.

Lemma running_no_queue k : placed k -> has_status k (currentThread k) RUNNING ->
  in_no_queue k (currentThread k).
Proof. intros Hp Hr p q Hw Hin. destruct (pl_wait k Hp p q _ Hw Hin) as [Hb _]. by pose proof (has_status_fun _ _ _ _ Hr Hb). Qed.

(** *** How the state changes *)

(** [alter] of a status. *)
Definition status_set k t st : gmap ptr Thread := alter (with_status st) t (threads k).

Lemma status_set_other k t st t' : t' <> t -> status_set k t st !! t' = threads k !! t'.
Proof. intros. unfold status_set. by rewrite lookup_alter_ne. Qed.

Lemma status_set_eq k t st th : threads k !! t = Some th ->
  status_set k t st !! t = Some (with_status st th).
Proof. intros H. unfold status_set. by rewrite lookup_alter_eq, H. Qed.

(** [k'] has the threads of [k] but for the status of [t], which is [st]. *)
Definition restatus k k' t st : Prop := threads k' = status_set k t st.

Lemma restatus_has k k' t st t' st' : restatus k k' t st -> is_Some (threads k !! t) ->
  has_status k' t' st' <-> (if decide (t' = t) then st' = st else has_status k t' st').
Proof.
  intros E [th Hth]. unfold has_status. rewrite E. case_decide as Hd.
  - subst t'. rewrite (status_set_eq _ _ _ _ Hth). split.
    + by intros (? & [= <-] & <-).
    + intros ->. by eexists.
  - by rewrite status_set_other.
Qed.

Lemma restatus_dom k k' t st t' : restatus k k' t st ->
  is_Some (threads k' !! t') <-> is_Some (threads k !! t').
Proof.
  intros E. rewrite E. unfold status_set. destruct (decide (t' = t)) as [->|].
  - rewrite lookup_alter_eq. by rewrite fmap_is_Some.
  - by rewrite lookup_alter_ne.
Qed.

Lemma restatus_fence k k' t st : restatus k k' t st ->
  (forall u th w, threads k !! u = Some th -> stack th = Some w -> w = STACK_FENCEPOST) ->
  forall u th w, threads k' !! u = Some th -> stack th = Some w -> w = STACK_FENCEPOST.
Proof.
  intros E Hk u th w. rewrite E. unfold status_set. rewrite lookup_alter. case_decide; [|by apply Hk].
  subst u. destruct (threads k !! t) as [th0|] eqn:E0; simpl; [|done]. intros [= <-]. by apply (Hk t th0).
Qed.

(** The threads are the same but for what the machine of threads does not read. *)
Definition same_threads k k' : Prop := forall t,
  match threads k !! t, threads k' !! t with
  | Some th, Some th' => status th' = status th /\ stack th' = stack th
  | None, None => True
  | _, _ => False
  end.

Lemma same_threads_eq k k' : threads k' = threads k -> same_threads k k'.
Proof. intros E t. rewrite E. by destruct (threads k !! t). Qed.

(** [f] changes nothing of a thread that the machine reads. *)
Definition harmless (f : Thread -> Thread) : Prop := forall th,
  status (f th) = status th /\ stack (f th) = stack th.

Lemma same_threads_alter k k' f t : harmless f -> threads k' = alter f t (threads k) -> same_threads k k'.
Proof.
  intros Hf E t'. rewrite E, lookup_alter. case_decide; simpl; [|by destruct (threads k !! t')].
  subst t'. destruct (threads k !! t); simpl; [apply Hf|done].
Qed.

Lemma same_threads_has k k' t st : same_threads k k' -> has_status k' t st <-> has_status k t st.
Proof.
  intros Hs. specialize (Hs t). unfold has_status.
  destruct (threads k !! t) as [th|] eqn:E, (threads k' !! t) as [th'|]; try done.
  - destruct Hs as (Hs & _). split; intros (? & [= <-] & <-); eauto.
Qed.

Lemma same_threads_dom k k' t : same_threads k k' -> is_Some (threads k' !! t) <-> is_Some (threads k !! t).
Proof.
  intros Hs. specialize (Hs t). destruct (threads k !! t), (threads k' !! t); try done.
Qed.

Lemma same_threads_lookup k k' t th' : same_threads k k' -> threads k' !! t = Some th' ->
  exists th, threads k !! t = Some th /\ status th' = status th /\ stack th' = stack th.
Proof. intros Hs E. specialize (Hs t). rewrite E in Hs. destruct (threads k !! t); [eauto|done]. Qed.

(** The semaphores keep their queues, or have an empty one. *)
Definition same_queues k k' : Prop :=
  (forall p q, waits k' p q -> waits k p q \/ q = []) /\
  (forall p x, sems k' !! p = Some x -> (exists y, sems k !! p = Some y /\ queue x = queue y) \/
     queue x = Lists.new_List) /\
  (forall p, (brk k' <= p)%positive -> sems k' !! p = None).

(** The current thread's stack, and objects that are not threads, change. *)
Lemma placed_local k k' fs : placed k -> same_threads k k' -> readyList k' = readyList k ->
  same_queues k k' -> currentThread k' = currentThread k -> toBeDestroyed k' = toBeDestroyed k ->
  stacks k' = <[currentThread k := fs]> (stacks k) -> (brk k <= brk k')%positive ->
  (forall p q, waits k p q -> currentThread k ∈ q -> in_P (currentThread k) p fs) ->
  placed k'.
Proof.
  intros [] Et Er (Hw & Hs & Hsb) Ec Ed Est Hb Hin.
  assert (Hst : forall t st, has_status k' t st <-> has_status k t st) by (intros; by apply same_threads_has).
  assert (Hw' : forall p q t, waits k' p q -> t ∈ q -> waits k p q).
  { intros p q t Hpq Ht. destruct (Hw p q Hpq) as [| ->]; [done|]. by apply not_elem_of_nil in Ht. }
  constructor; rewrite ?Er, ?Ec, ?Ed.
  - destruct pl_ready0 as (rl & ? & ? & Hrl). exists rl. split_and!; try done. intros t. by rewrite Hrl, Hst.
  - intros p x Hx. destruct (Hs p x Hx) as [(y & Hy & ->)| ->]; [by eapply pl_sem0|].
    exists []. split; [apply Lists.new_List_rep|constructor].
  - intros p q t Hq Ht. pose proof (Hw' p q t Hq Ht) as Hq0.
    destruct (pl_wait0 p q t Hq0 Ht) as [Hbl (fs' & Hfs & HP)].
    split; [by apply Hst|]. rewrite Est. destruct (decide (t = currentThread k)) as [->|Hne].
    + exists fs. rewrite lookup_insert_eq. split; [done|]. by eapply Hin.
    + exists fs'. by rewrite lookup_insert_ne.
  - intros p1 p2 q1 q2 t H1 H2 Hi1 Hi2. eapply pl_one0; [by eapply Hw'|by eapply Hw'|done|done].
  - by apply (same_threads_dom k k').
  - intros t th' Ht' Hne. destruct (same_threads_lookup k k' t th' Et Ht') as (th & Ht & -> & _).
    destruct (pl_others0 t th Ht Hne) as [Hsr (fs' & Hfs & Ho)]. split; [done|].
    exists fs'. by rewrite Est, lookup_insert_ne.
  - intros t. rewrite (same_threads_dom k k'), Est, pl_dom0 by done.
    destruct (decide (t = currentThread k)) as [->|Hne].
    + rewrite lookup_insert_eq. split; [by eexists|]. intros _. by apply pl_dom0.
    + by rewrite lookup_insert_ne.
  - intros d Hd. destruct (pl_doomed0 d Hd) as (? & ? & Hq & HP). split_and!; [done|by apply Hst| |].
    + intros p q Hpq Hdq. by eapply (Hq p q); [eapply Hw'|].
    + intros p fs'. rewrite Est, lookup_insert_ne by done. apply HP.
  - intros t th' w Ht'. destruct (same_threads_lookup k k' t th' Et Ht') as (th & Ht & _ & ->).
    by apply (pl_fence0 t th).
  - apply (few_dom k); [|done]. intros t. by apply same_threads_dom.
  - intros t Ht. apply eq_None_not_Some. rewrite (same_threads_dom k k') by done.
    rewrite pl_brk_t0 by lia. by intros [? ?].
  - done.
Qed.

(** The first waiting thread of a semaphore becomes ready. *)
Lemma placed_wake k k' p x t q L Q v : placed k -> sems k !! p = Some x -> waits k p (t :: q) ->
  (forall rl, Lists.rep (readyList k) rl -> Lists.rep L (rl ++ [t])) -> Lists.rep Q q ->
  k' = set_sems (set_ready (set_threads k (status_set k t READY)) L)
         (<[p := mkSemaphore v Q]> (sems k)) ->
  placed k' /\ (forall p' q', waits k' p' q' <-> if decide (p' = p) then q' = q else waits k p' q').
Proof.
  intros Hpl Hx Hw HL HQ Ek. pose proof Hpl as [].
  destruct (pl_wait0 p (t :: q) t Hw ltac:(by left)) as [Hbt (fs & Hfs & HP)].
  destruct Hbt as (th & Hth & Hblk).
  assert (Hnd : NoDup (t :: q)).
  { destruct (pl_sem0 p x Hx) as (q' & Hq' & Hnd). destruct Hw as (x' & Hx' & Hr). simplify_eq.
    by rewrite (rep_fun _ _ _ Hr Hq'). }
  assert (Hre : restatus k k' t READY) by (by subst k').
  assert (Hhas : forall t' st, has_status k' t' st <-> if decide (t' = t) then st = READY else has_status k t' st).
  { intros. apply (restatus_has k k' t READY); [done|by eexists]. }
  assert (Hws : forall p' q', waits k' p' q' <-> if decide (p' = p) then q' = q else waits k p' q').
  { intros p' q'. unfold waits. subst k'. cbn. case_decide as Hd.
    - subst p'. rewrite lookup_insert_eq. split.
      + intros (y & [= <-] & Hy). by eapply rep_fun.
      + intros ->. by eexists.
    - by rewrite lookup_insert_ne. }
  assert (Hwin : forall p' q' t', waits k' p' q' -> t' ∈ q' -> t' <> t /\ exists q0, waits k p' q0 /\ t' ∈ q0).
  { intros p' q' t' Hw' Hin. apply Hws in Hw'. case_decide as Hd.
    - subst p' q'. apply NoDup_cons in Hnd as [Hni _]. split; [by intros ->|].
      exists (t :: q). split; [done|by right].
    - split; [|by exists q']. intros ->. apply Hd. eapply pl_one0; [exact Hw'|exact Hw|done|by left]. }
  split; [|exact Hws]. constructor.
  - destruct pl_ready0 as (rl & Hrl & Hndr & Hiff). exists (rl ++ [t]). subst k'. cbn.
    split; [by apply HL|]. split.
    + apply NoDup_app. split_and!; [done| |apply NoDup_singleton].
      intros t' Ht' ->%list_elem_of_singleton. apply Hiff in Ht'.
      destruct Ht' as (th' & ? & ?). congruence.
    + intros t'. rewrite elem_of_app, list_elem_of_singleton, Hiff, Hhas. case_decide; [tauto|].
      split; [intros [?|?]; done|by left].
  - subst k'. cbn. intros p' y. destruct (decide (p' = p)) as [->|].
    + rewrite lookup_insert_eq. intros [= <-]. cbn. exists q. split; [done|].
      by apply NoDup_cons in Hnd as [_ ?].
    + rewrite lookup_insert_ne by done. apply pl_sem0.
  - intros p' q' t' Hw' Hin. destruct (Hwin p' q' t' Hw' Hin) as (Hne & q0 & Hq0 & Hin0).
    destruct (pl_wait0 p' q0 t' Hq0 Hin0) as [Hb Hst]. split; [|by subst k'].
    apply Hhas. by rewrite decide_False.
  - intros p1 p2 q1 q2 t' H1 H2 Hi1 Hi2. destruct (Hwin _ _ _ H1 Hi1) as (_ & qa & Ha & Hia).
    destruct (Hwin _ _ _ H2 Hi2) as (_ & qb & Hb & Hib). exact (pl_one0 _ _ _ _ _ Ha Hb Hia Hib).
  - apply (restatus_dom k k' t READY); [done|]. by subst k'.
  - intros t' th' Ht' Hne. assert (Hc : currentThread k' = currentThread k) by (by subst k').
    rewrite Hc in Hne. assert (Hs' : stacks k' = stacks k) by (by subst k'). rewrite Hs'.
    assert (Hdk : toBeDestroyed k' = toBeDestroyed k) by (by subst k'). rewrite Hdk.
    destruct (decide (t' = t)) as [->|Hnt].
    + destruct (pl_others0 t th Hth Hne) as [_ Hfs']. split; [|done]. left.
      assert (Hr : has_status k' t READY) by (apply Hhas; by rewrite decide_True).
      destruct Hr as (th2 & Hth2 & <-). congruence.
    + rewrite Hre, status_set_other in Ht' by done. by apply pl_others0.
  - intros t'. assert (Hs' : stacks k' = stacks k) by (by subst k'). rewrite Hs', <- pl_dom0.
    by apply (restatus_dom k k' t READY).
  - intros d Hd. assert (Hd' : toBeDestroyed k = Some d) by (by subst k').
    destruct (pl_doomed0 d Hd') as (Hne & Hb & Hq & HnP). assert (d <> t).
    { intros ->. apply (Hq p (t :: q) Hw). by left. }
    split_and!; [by subst k'| | |by subst k'].
    + apply Hhas. by rewrite decide_False.
    + intros p' q' Hw' Hin. destruct (Hwin p' q' d Hw' Hin) as (_ & q0 & Hq0 & Hin0). by apply (Hq p' q0).
  - by apply (restatus_fence k k' t READY).
  - apply (few_dom k); [|done]. intros u. by apply (restatus_dom k k' t READY).
  - intros t' Ht'. assert (Hb : brk k' = brk k) by (by subst k'). rewrite Hb in Ht'.
    rewrite Hre, status_set_other; [by apply pl_brk_t0|]. intros ->. rewrite pl_brk_t0 in Hth; done.
  - subst k'. cbn. intros p' Hp'. rewrite lookup_insert_ne; [by apply pl_brk_s0|]. intros <-.
    rewrite pl_brk_s0 in Hx; done.
Qed.

(** The CPU goes to the first ready thread [n]; the registers and the address
    space of the old thread are saved. *)
Lemma placed_switch k k' n rl L fs : placed k -> Lists.rep (readyList k) (n :: rl) ->
  Lists.rep L rl -> readyList k' = L -> sems k' = sems k -> currentThread k' = n -> brk k' = brk k ->
  let old := currentThread k in
  stacks k' = <[old := RunReturn old :: fs]> (stacks k) ->
  (toBeDestroyed k' <> Some old -> typed old IntOff fs) -> toBeDestroyed k = None ->
  (forall t, threads k' !! t = None <-> threads k !! t = None) ->
  (forall t th', threads k' !! t = Some th' -> exists th, threads k !! t = Some th /\
     stack th' = stack th /\ status th' = if decide (t = n) then RUNNING else status th) ->
  (has_status k old READY \/ has_status k old BLOCKED) ->
  (forall p q, waits k p q -> old ∈ q -> exists o r, fs = PLoop p old o :: r) ->
  (toBeDestroyed k' = None \/ toBeDestroyed k' = Some old /\ has_status k old BLOCKED /\ in_no_queue k old /\
    forall p, ~ in_P old p (RunReturn old :: fs)) ->
  inv k' IntOff.
Proof.
  intros Hpl Hr HL EL Es Ec Eb old Est Hty Hdn Hnone Hsome Hold Hq Hd. pose proof Hpl as [].
  destruct pl_ready0 as (rl0 & Hr0 & Hnd & Hiff). assert (rl0 = n :: rl) as -> by (by eapply rep_fun).
  assert (Hn : has_status k n READY) by (apply Hiff; by left).
  apply NoDup_cons in Hnd as [Hnin Hnd].
  assert (Hhas : forall t st, has_status k' t st <-> if decide (t = n) then st = RUNNING else has_status k t st).
  { intros t st. unfold has_status. destruct (threads k' !! t) as [th'|] eqn:E.
    - destruct (Hsome t th' E) as (th & Hth & _ & Hst). case_decide as Hdt.
      + split; [intros (? & [= <-] & <-); done|intros ->; by eexists].
      + rewrite Hth. split; intros (? & [= <-] & <-); eexists; split; [reflexivity|congruence|reflexivity|congruence].
    - apply Hnone in E. case_decide as Hdt.
      + subst t. destruct Hn as (? & ? & _). congruence.
      + rewrite E. split; intros (? & ? & _); done. }
  assert (Hw : forall p q, waits k' p q <-> waits k p q) by (intros; unfold waits; by rewrite Es).
  assert (Hnw : forall p q t, waits k p q -> t ∈ q -> t <> n).
  { intros p q t Hpq Ht ->. destruct (pl_wait0 p q n Hpq Ht) as [Hb _].
    by pose proof (has_status_fun _ _ _ _ Hn Hb). }
  assert (Hdom : forall t, is_Some (threads k' !! t) <-> is_Some (threads k !! t)).
  { intros t. rewrite <- !not_eq_None_Some. by rewrite Hnone. }
  assert (Holdst : forall t th, threads k !! t = Some th -> t <> n ->
    (status th = READY \/ status th = BLOCKED) /\
    exists fs', stacks k' !! t = Some fs' /\ switched_out t fs' /\ (toBeDestroyed k' <> Some t -> typed t IntOff fs')).
  { intros t th Hth Hne. rewrite Est. destruct (decide (t = old)) as [->|Hno].
    - rewrite lookup_insert_eq. split.
      + destruct Hold as [(y & Hy & ?)|(y & Hy & ?)]; rewrite Hth in Hy; injection Hy as <-; tauto.
      + eexists. split; [reflexivity|]. split; [eexists; by left|]. intros Hno. by split_and!; auto.
    - rewrite lookup_insert_ne by done. destruct (pl_others0 t th Hth Hno) as (? & fs' & ? & ? & Htt).
      split; [done|]. exists fs'. split_and!; try done. intros _. apply Htt. by rewrite Hdn. }
  assert (Hrun : exists fs', stacks k' !! n = Some fs' /\ switched_out n fs' /\ typed n IntOff fs').
  { assert (Hnd' : toBeDestroyed k' <> Some n).
    { intros Hdd. destruct Hd as [Hd|(Hd & Hb & _ & _)]; [congruence|].
      rewrite Hd in Hdd. injection Hdd as ->. by pose proof (has_status_fun _ _ _ _ Hn Hb). }
    rewrite Est. destruct (decide (n = old)) as [->|Hno].
    - rewrite lookup_insert_eq. eexists. split; [reflexivity|]. split; [eexists; by left|].
      split_and!; auto.
    - rewrite lookup_insert_ne by done. destruct Hn as (th & Hth & _).
      destruct (pl_others0 n th Hth Hno) as (_ & fs' & ? & ? & Htt). exists fs'.
      split_and!; try done. apply Htt. by rewrite Hdn. }
  split.
  - constructor.
    + exists rl. rewrite EL. split_and!; [done|done|]. intros t. rewrite Hhas. case_decide as Hdt.
      * subst t. split; [done|]. done.
      * rewrite <- Hiff, elem_of_cons. tauto.
    + by rewrite Es.
    + intros p q t Hpq%Hw Ht. destruct (pl_wait0 p q t Hpq Ht) as [Hb (fs' & Hfs & HP)].
      pose proof (Hnw p q t Hpq Ht) as Hne. split; [apply Hhas; by rewrite decide_False|].
      rewrite Est. destruct (decide (t = old)) as [->|Hno].
      * rewrite lookup_insert_eq. eexists. split; [reflexivity|].
        destruct (Hq p q Hpq Ht) as (o & r & ->). exists o, r. auto.
      * rewrite lookup_insert_ne by done. by exists fs'.
    + intros p1 p2 q1 q2 t H1%Hw H2%Hw. by eapply pl_one0.
    + rewrite Ec. apply Hdom. destruct Hn as (th & ? & _). by eexists.
    + rewrite Ec. intros t th' Hth' Hne. destruct (Hsome t th' Hth') as (th & Hth & _ & Hst).
      rewrite decide_False in Hst by done. rewrite Hst. by apply Holdst.
    + intros t. rewrite Hdom, pl_dom0, Est. destruct (decide (t = old)) as [->|Hno].
      * rewrite lookup_insert_eq. split; [by eexists|]. intros _. by apply pl_dom0.
      * by rewrite lookup_insert_ne.
    + intros d Hdd. destruct Hd as [Hd|(Hd & Hb & Hnq & HnP)]; [congruence|].
      rewrite Hd in Hdd. injection Hdd as <-. rewrite Ec.
      assert (old <> n) by (intros E; rewrite E in Hb; by pose proof (has_status_fun _ _ _ _ Hn Hb)).
      split_and!; [done| | |].
      * apply Hhas. by rewrite decide_False.
      * intros p q Hpq%Hw. by eapply Hnq.
      * intros p fs'. rewrite Est, lookup_insert_eq. intros [= <-]. apply HnP.
    + intros t th' w Hth'. destruct (Hsome t th' Hth') as (th & Hth & -> & _). by apply (pl_fence0 t th).
    + by apply (few_dom k).
    + intros t Ht. apply Hnone. rewrite Eb in Ht. by apply pl_brk_t0.
    + intros p Hp. rewrite Es. rewrite Eb in Hp. by apply pl_brk_s0.
  - destruct Hrun as (fs' & Hfs' & Hso & Hty'). exists fs'. constructor; rewrite ?Ec; try done.
    left. split; [|done]. apply Hhas. by rewrite decide_True.
Qed.

(** The current thread goes to sleep: in [P], at the end of the queue of [p], or
    for good. *)
Lemma placed_sleep k k' fs : placed k -> has_status k (currentThread k) RUNNING ->
  restatus k k' (currentThread k) BLOCKED -> readyList k' = readyList k ->
  currentThread k' = currentThread k -> toBeDestroyed k' = None ->
  toBeDestroyed k = None -> brk k' = brk k ->
  stacks k' = <[currentThread k := fs]> (stacks k) ->
  (sems k' = sems k \/ exists p x q Q o r, sems k !! p = Some x /\ waits k p q /\
     Lists.rep Q (q ++ [currentThread k]) /\ sems k' = <[p := mkSemaphore (value x) Q]> (sems k) /\
     (fs = SleepLoop (currentThread k) false :: PLoop p (currentThread k) o :: r)) ->
  placed k' /\ has_status k' (currentThread k) BLOCKED /\
    (sems k' = sems k -> in_no_queue k' (currentThread k)).
Proof.
  intros Hpl Hrun Hre Er Ec Ed Ed0 Eb Est Hs. pose proof Hpl as []. set (c := currentThread k) in *.
  pose proof (running_no_queue k Hpl Hrun) as Hnq. fold c in Hnq.
  assert (Hhas : forall t st, has_status k' t st <-> if decide (t = c) then st = BLOCKED else has_status k t st).
  { intros. apply (restatus_has k k' c BLOCKED); done. }
  assert (Hc : has_status k' c BLOCKED) by (apply Hhas; by rewrite decide_True).
  assert (Hw : forall p q t, waits k' p q -> t ∈ q -> (exists q0, waits k p q0 /\ t ∈ q0) \/
    (t = c /\ in_P c p fs /\ forall p' q', waits k' p' q' -> c ∈ q' -> p' = p)).
  { intros p q t Hpq Ht. destruct Hs as [Es|(p0 & x & q0 & Q & o & r & Hx & Hq0 & HQ & Es & Ef)].
    - left. exists q. unfold waits in *. by rewrite Es in Hpq.
    - assert (Hws : forall p' q', waits k' p' q' -> (p' = p0 /\ q' = q0 ++ [c]) \/ (p' <> p0 /\ waits k p' q')).
      { intros p' q'. unfold waits. rewrite Es. destruct (decide (p' = p0)) as [->|].
        - rewrite lookup_insert_eq. intros (y & [= <-] & Hy). left. split; [done|]. by eapply rep_fun.
        - rewrite lookup_insert_ne by done. auto. }
      destruct (Hws p q Hpq) as [(-> & ->)|[Hne Hpq']]; [|left; by exists q].
      apply elem_of_app in Ht as [Ht| ->%list_elem_of_singleton]; [left; by exists q0|].
      right. split; [done|]. split; [exists o, r; auto|]. intros p' q' Hp' Hin.
      destruct (Hws p' q' Hp') as [(-> & _)|[_ Hp'']]; [done|]. by destruct (Hnq p' q' Hp''). }
  assert (Hnotc : forall p q t, waits k p q -> t ∈ q -> t <> c) by (intros p q t Hpq Ht ->; by apply (Hnq p q)).
  split; [|split; [done|]].
  - constructor.
    + destruct pl_ready0 as (rl & Hrl & Hnd & Hiff). exists rl. rewrite Er. split_and!; try done.
      intros t. rewrite Hiff, Hhas. case_decide as Hdt; [|done]. subst t. split; [|done].
      intros Hrd. by pose proof (has_status_fun _ _ _ _ Hrun Hrd).
    + destruct Hs as [->|(p0 & x & q0 & Q & o & r & Hx & Hq0 & HQ & -> & Ef)]; [done|].
      intros p y. destruct (decide (p = p0)) as [->|].
      * rewrite lookup_insert_eq. intros [= <-]. cbn.
        exists (q0 ++ [c]). split; [done|]. apply NoDup_app. split_and!; [|intros t Ht ->%list_elem_of_singleton; by apply (Hnq p0 q0)|apply NoDup_singleton].
        destruct (pl_sem0 p0 x Hx) as (q1 & Hq1 & Hnd). destruct Hq0 as (x' & Hx' & Hr'). simplify_eq.
        by rewrite (rep_fun _ _ _ Hr' Hq1).
      * rewrite lookup_insert_ne by done. apply pl_sem0.
    + intros p q t Hpq Ht. rewrite Est. destruct (Hw p q t Hpq Ht) as [(q0 & Hq0 & Ht0)|(-> & HP & _)].
      * pose proof (Hnotc p q0 t Hq0 Ht0) as Hne. destruct (pl_wait0 p q0 t Hq0 Ht0) as [Hb Hst].
        split; [apply Hhas; by rewrite decide_False|]. by rewrite lookup_insert_ne.
      * split; [done|]. exists fs. by rewrite lookup_insert_eq.
    + intros p1 p2 q1 q2 t H1 H2 Hi1 Hi2.
      destruct (Hw p1 q1 t H1 Hi1) as [(qa & Ha & Hia)|(-> & _ & Hone)].
      * destruct (Hw p2 q2 t H2 Hi2) as [(qb & Hb & Hib)|(-> & _ & _)].
        -- exact (pl_one0 _ _ _ _ _ Ha Hb Hia Hib).
        -- by destruct (Hnotc p1 qa c Ha Hia).
      * symmetry. by apply (Hone p2 q2).
    + rewrite Ec. apply (restatus_dom k k' c BLOCKED); done.
    + rewrite Ec. intros t th Hth Hne. rewrite Hre, status_set_other in Hth by done.
      rewrite Est, lookup_insert_ne, Ed by done. rewrite <- Ed0. by apply pl_others0.
    + intros t. rewrite (restatus_dom k k' c BLOCKED) by done. rewrite pl_dom0, Est.
      destruct (decide (t = c)) as [->|Hno].
      * rewrite lookup_insert_eq. split; [by eexists|]. intros _. by apply pl_dom0.
      * by rewrite lookup_insert_ne.
    + rewrite Ed. done.
    + by apply (restatus_fence k k' c BLOCKED).
    + apply (few_dom k); [|done]. intros u. by apply (restatus_dom k k' c BLOCKED).
    + intros t Ht. rewrite Eb in Ht. specialize (pl_brk_t0 t Ht). apply eq_None_not_Some.
      rewrite (restatus_dom k k' c BLOCKED) by done. rewrite pl_brk_t0. by intros [? ?].
    + intros p Hp. rewrite Eb in Hp. destruct Hs as [->|(p0 & x & q0 & Q & o & r & Hx & Hq0 & HQ & -> & Ef)].
      * by apply pl_brk_s0.
      * rewrite lookup_insert_ne; [by apply pl_brk_s0|]. intros <-. rewrite pl_brk_s0 in Hx; done.
  - intros Es p q Hpq Hin. apply (Hnq p q); [|done]. unfold waits in *. by rewrite Es in Hpq.
Qed.

(** The current thread goes to the end of the ready list. *)
Lemma placed_self k k' L : placed k -> has_status k (currentThread k) RUNNING ->
  (forall rl, Lists.rep (readyList k) rl -> Lists.rep L (rl ++ [currentThread k])) ->
  k' = set_ready (set_threads k (status_set k (currentThread k) READY)) L -> placed k'.
Proof.
  intros Hpl Hrun HL Ek. pose proof Hpl as []. set (c := currentThread k) in *.
  assert (Hre : restatus k k' c READY) by (by subst k').
  assert (Hhas : forall t st, has_status k' t st <-> if decide (t = c) then st = READY else has_status k t st).
  { intros. apply (restatus_has k k' c READY); done. }
  assert (Hw : forall p q, waits k' p q <-> waits k p q) by (intros; unfold waits; by subst k').
  pose proof (running_no_queue k Hpl Hrun) as Hnq. fold c in Hnq.
  assert (Hnr : ~ has_status k c READY) by (intros Hr; by pose proof (has_status_fun _ _ _ _ Hrun Hr)).
  assert (Hnb : ~ has_status k c BLOCKED) by (intros Hr; by pose proof (has_status_fun _ _ _ _ Hrun Hr)).
  constructor.
  - destruct pl_ready0 as (rl & Hrl & Hnd & Hiff). exists (rl ++ [c]). subst k'. cbn.
    split_and!; [by apply HL| |].
    + apply NoDup_app. split_and!; [done| |apply NoDup_singleton].
      intros t Ht ->%list_elem_of_singleton. by apply Hnr, Hiff.
    + intros t. rewrite elem_of_app, list_elem_of_singleton, Hiff, Hhas. case_decide; [by subst; tauto|].
      split; [intros [?|?]; done|by left].
  - by subst k'.
  - intros p q t Hpq%Hw Ht. destruct (pl_wait0 p q t Hpq Ht) as [Hb Hst]. split; [|by subst k'].
    apply Hhas. rewrite decide_False; [done|]. intros ->. done.
  - intros p1 p2 q1 q2 t H1%Hw H2%Hw. by eapply pl_one0.
  - apply (restatus_dom k k' c READY); [done|]. by subst k'.
  - intros t th Ht Hne. assert (t <> c) by (by subst k'). rewrite Hre, status_set_other in Ht by done.
    assert (stacks k' = stacks k /\ toBeDestroyed k' = toBeDestroyed k) as [-> ->] by (by subst k').
    by apply pl_others0.
  - intros t. assert (stacks k' = stacks k) as -> by (by subst k'). rewrite <- pl_dom0.
    by apply (restatus_dom k k' c READY).
  - intros d Hd. assert (Hd' : toBeDestroyed k = Some d) by (by subst k').
    destruct (pl_doomed0 d Hd') as (Hne & Hb & Hq & HP). split_and!; [by subst k'| | |by subst k'].
    + apply Hhas. by rewrite decide_False.
    + intros p q Hpq%Hw. by apply (Hq p q).
  - by apply (restatus_fence k k' c READY).
  - apply (few_dom k); [|done]. intros u. by apply (restatus_dom k k' c READY).
  - intros t Ht. assert (brk k' = brk k) as Hb by (by subst k'). rewrite Hb in Ht.
    apply eq_None_not_Some. rewrite (restatus_dom k k' c READY) by done.
    rewrite pl_brk_t0 by done. by intros [? ?].
  - by subst k'.
Qed.

(** The finished thread that is no longer running is deleted. *)
Lemma placed_reap k k' d : placed k -> toBeDestroyed k = Some d ->
  k' = set_doomed (set_stacks (set_threads k (delete d (threads k))) (delete d (stacks k))) None ->
  placed k'.
Proof.
  intros [] Ed ->. destruct (pl_doomed0 d Ed) as (Hne & Hb & Hnq & _).
  assert (Hhas : forall t st, t <> d ->
    has_status (set_doomed (set_stacks (set_threads k (delete d (threads k))) (delete d (stacks k))) None) t st
      <-> has_status k t st).
  { intros t st Ht. unfold has_status. cbn. by rewrite lookup_delete_ne. }
  constructor; cbn; try done.
  - destruct pl_ready0 as (rl & Hrl & Hnd & Hiff). exists rl. split_and!; try done.
    intros t. rewrite Hiff. destruct (decide (t = d)) as [->|Ht]; [|by rewrite Hhas].
    split; intros Hr; [by pose proof (has_status_fun _ _ _ _ Hb Hr)|].
    destruct Hr as (th & Hth & _). cbn in Hth. by rewrite lookup_delete_eq in Hth.
  - intros p q t Hpq Ht. assert (t <> d) by (intros ->; by apply (Hnq p q)).
    destruct (pl_wait0 p q t Hpq Ht) as [Hbt Hst]. split; [by apply Hhas|]. by rewrite lookup_delete_ne.
  - by rewrite lookup_delete_ne.
  - intros t th Ht Hnc. destruct (decide (t = d)) as [->|Htd]; [by rewrite lookup_delete_eq in Ht|].
    rewrite lookup_delete_ne in Ht by done. rewrite lookup_delete_ne by done.
    destruct (pl_others0 t th Ht Hnc) as (? & fs & ? & ? & Hty). split; [done|]. exists fs.
    split_and!; try done. intros _. apply Hty. congruence.
  - intros t. destruct (decide (t = d)) as [->|Htd].
    + by rewrite !lookup_delete_eq.
    + by rewrite !lookup_delete_ne.
  - intros t th w Ht. apply lookup_delete_Some in Ht as [_ Ht]. by apply (pl_fence0 t th).
  - unfold few in *. eapply Z.le_lt_trans; [|exact pl_few0]. apply Nat2Z.inj_le.
    rewrite <- !size_dom. apply subseteq_size. cbn. rewrite dom_delete_L. set_solver.
  - intros t Ht. apply lookup_delete_None. right. by apply pl_brk_t0.
Qed.

(** A new thread, ready to begin. *)
Lemma placed_fork k k' th L fs : placed k -> status th = READY -> stack th = Some STACK_FENCEPOST ->
  Z.of_nat (base.size (threads k)) + 1 < 2 ^ 31 - 1 -> switched_out (brk k) fs -> typed (brk k) IntOff fs ->
  (forall rl, Lists.rep (readyList k) rl -> brk k ∉ rl -> Lists.rep L (rl ++ [brk k])) ->
  toBeDestroyed k = None ->
  k' = set_brk (set_ready (set_stacks (set_threads k (<[brk k := th]> (threads k)))
         (<[brk k := fs]> (stacks k))) L) (Pos.succ (brk k)) -> placed k'.
Proof.
  intros [] Hst Hsk Hroom Hso Hty HL Hdn Ek. set (t0 := brk k) in *.
  assert (Hnone : threads k !! t0 = None) by (apply pl_brk_t0; unfold t0; lia).
  assert (Hcur : currentThread k <> t0) by (intros E; rewrite E, Hnone in pl_cur0; by destruct pl_cur0).
  assert (Hhas : forall t st, has_status k' t st <-> if decide (t = t0) then st = READY else has_status k t st).
  { intros t st. unfold has_status. subst k'. cbn. case_decide as Hd.
    - subst t. rewrite lookup_insert_eq. split; [by intros (? & [= <-] & <-)|intros ->; by eexists].
    - by rewrite lookup_insert_ne. }
  assert (Hno : forall st, ~ has_status k t0 st) by (intros st (? & Ht & _); congruence).
  assert (Hw : forall p q, waits k' p q <-> waits k p q) by (intros; unfold waits; by subst k').
  assert (Hc : currentThread k' = currentThread k) by (by subst k').
  constructor.
  - destruct pl_ready0 as (rl & Hrl & Hnd & Hiff).
    assert (Hni : t0 ∉ rl) by (intros Hi; by apply (Hno READY), Hiff).
    exists (rl ++ [t0]). subst k'. cbn. split_and!; [by apply HL| |].
    + apply NoDup_app. split_and!; [done| |apply NoDup_singleton].
      intros t Ht ->%list_elem_of_singleton. done.
    + intros t. rewrite elem_of_app, list_elem_of_singleton, Hiff, Hhas. case_decide; [by subst; tauto|].
      split; [intros [?|?]; done|by left].
  - by subst k'.
  - intros p q t Hpq%Hw Ht. destruct (pl_wait0 p q t Hpq Ht) as [Hb (fs' & Hfs & HP)].
    assert (t <> t0) by (intros ->; by apply (Hno BLOCKED)).
    split; [apply Hhas; by rewrite decide_False|]. exists fs'. subst k'. cbn. by rewrite lookup_insert_ne.
  - intros p1 p2 q1 q2 t H1%Hw H2%Hw. by eapply pl_one0.
  - rewrite Hc. subst k'. cbn. by rewrite lookup_insert_ne.
  - rewrite Hc. intros t th' Ht Hne. subst k'. cbn in *. rewrite Hdn in *.
    destruct (decide (t = t0)) as [->|Htn].
    + rewrite lookup_insert_eq in Ht. injection Ht as <-. rewrite lookup_insert_eq. split; [by left|].
      by exists fs.
    + rewrite lookup_insert_ne in Ht by done. rewrite lookup_insert_ne by done. by apply (pl_others0 t th').
  - intros t. subst k'. cbn. destruct (decide (t = t0)) as [->|Htn].
    + by rewrite !lookup_insert_eq.
    + by rewrite !lookup_insert_ne.
  - intros d Hd. subst k'. cbn in Hd. congruence.
  - intros t th' w Ht. subst k'. cbn in Ht. destruct (decide (t = t0)) as [->|Htn].
    + rewrite lookup_insert_eq in Ht. injection Ht as <-. congruence.
    + rewrite lookup_insert_ne in Ht by done. by apply (pl_fence0 t th').
  - unfold few. subst k'. eapply Z.le_lt_trans; [|exact Hroom].
    replace 1 with (Z.of_nat 1) by done. rewrite <- Nat2Z.inj_add. apply Nat2Z.inj_le.
    rewrite <- !size_dom. cbn. rewrite dom_insert_L. rewrite size_union_alt, size_singleton.
    assert (Hle : (base.size (dom (threads k) ∖ {[t0]}) <= base.size (dom (threads k)))%nat); [|lia].
    apply subseteq_size. set_solver.
  - intros t Ht. subst k'. cbn in *. rewrite lookup_insert_ne by lia. apply pl_brk_t0. unfold t0 in *. lia.
  - intros p Hp. subst k'. cbn in *. apply pl_brk_s0. unfold t0 in *. lia.
Qed.

(** *** No lost wakeup *)

(** The threads on their way from [p]'s queue to its value. *)
Definition woken k p (q W : Datatypes.list ptr) : Prop :=
  NoDup W /\ forall t, t ∈ W -> (t ∉ q) /\ ~ has_status k t BLOCKED /\
    exists fs, stacks k !! t = Some fs /\ in_P t p fs.

(** While threads wait on a semaphore, every unit of its value has a thread
    awake to take it. *)
Definition no_lost k : Prop := forall p x, sems k !! p = Some x ->
  forall t q, Lists.rep (queue x) (t :: q) -> exists W, woken k p (t :: q) W /\ 0 <= value x <= zlen W.

(** There are at most as many as threads. *)
Lemma woken_few k p q W : placed k -> woken k p q W -> zlen W < 2 ^ 31 - 1.
Proof.
  intros Hpl [Hnd HW]. pose proof (pl_few k Hpl) as Hf. unfold few in Hf.
  assert (Hle : (length W <= base.size (threads k))%nat); [|unfold zlen; lia].
  rewrite <- size_dom, <- (size_list_to_set (C := gset ptr) W) by done. apply subseteq_size.
  intros t Ht. apply elem_of_list_to_set in Ht. destruct (HW t Ht) as (_ & _ & fs & Hfs & _).
  apply elem_of_dom, (pl_dom k Hpl). by eexists.
Qed.

Lemma in_P_off t p fs : in_P t p fs -> ~ typed t IntOn fs.
Proof. intros (old & rest & [-> | [-> | ->]]); simpl; [by intros (_ & ? & _)..|tauto]. Qed.

Lemma no_lost_intro k k' : no_lost k ->
  (forall p x, sems k' !! p = Some x -> sems k !! p = Some x \/
     queue x = Lists.new_List) ->
  (forall t p fs, stacks k !! t = Some fs -> in_P t p fs ->
     exists fs', stacks k' !! t = Some fs' /\ in_P t p fs') ->
  (forall t p fs, stacks k !! t = Some fs -> in_P t p fs -> has_status k' t BLOCKED ->
     has_status k t BLOCKED) -> no_lost k'.
Proof.
  intros Hk Hs Hst Hb p x Hx t q Hr. destruct (Hs p x Hx) as [Hx'|Hq].
  - destruct (Hk p x Hx' t q Hr) as (W & [Hnd HW] & Hle). exists W. split; [|done]. split; [done|].
    intros t' Ht'. destruct (HW t' Ht') as (? & Hnb & fs & Hfs & HP). split_and!; [done| |by eapply Hst].
    intros Hb'. apply Hnb. by eapply Hb.
  - rewrite Hq in Hr. by pose proof (rep_fun _ _ _ Hr Lists.new_List_rep).
Qed.

(** Only the stack of [c] changes. *)
Lemma no_lost_stack k k' c fs fs' : no_lost k -> stacks k !! c = Some fs ->
  stacks k' = <[c := fs']> (stacks k) -> (forall p, in_P c p fs -> in_P c p fs') ->
  (forall p x, sems k' !! p = Some x -> sems k !! p = Some x \/
     queue x = Lists.new_List) ->
  (forall t p f, stacks k !! t = Some f -> in_P t p f -> has_status k' t BLOCKED ->
     has_status k t BLOCKED) -> no_lost k'.
Proof.
  intros Hk Hc Est HP Hs Hb. apply (no_lost_intro k); [done..| |done]. intros t p f Hf Hin. rewrite Est.
  destruct (decide (t = c)) as [->|Hne].
  - rewrite lookup_insert_eq. simplify_eq. eauto.
  - rewrite lookup_insert_ne by done. eauto.
Qed.

(** What [V] does to a semaphore and the threads. *)
Inductive V_kern p k : Kern U -> Prop :=
| V_none x : sems k !! p = Some x -> Lists.rep (queue x) [] ->
    V_kern p k (set_sems k (<[p := mkSemaphore (s32 (value x + 1)) (queue x)]> (sems k)))
| V_wake x t q L Q : sems k !! p = Some x -> Lists.rep (queue x) (t :: q) ->
    (forall rl, Lists.rep (readyList k) rl -> Lists.rep L (rl ++ [t])) -> Lists.rep Q q ->
    V_kern p k (set_sems (set_ready (set_threads k (status_set k t READY)) L)
      (<[p := mkSemaphore (s32 (value x + 1)) Q]> (sems k))).

(** What waking threads leaves as it was. *)
Record woke k k' : Prop := {
  wo_stacks : stacks k' = stacks k;
  wo_cur : currentThread k' = currentThread k;
  wo_doomed : toBeDestroyed k' = toBeDestroyed k;
  wo_locks : locks k' = locks k;
  wo_conds : conds k' = conds k;
  wo_slists : slists k' = slists k;
  wo_brk : brk k' = brk k;
  wo_running t : has_status k t RUNNING -> has_status k' t RUNNING;
  wo_blocked t : has_status k t BLOCKED -> has_status k' t BLOCKED \/ has_status k' t READY;
  wo_ready t : has_status k t READY -> has_status k' t READY;
  wo_queue t : in_no_queue k t -> in_no_queue k' t /\
    (has_status k t BLOCKED -> has_status k' t BLOCKED);
  wo_list rl : Lists.rep (readyList k) rl -> exists more, Lists.rep (readyList k') (rl ++ more);
}.

Lemma woke_refl k : woke k k.
Proof. constructor; auto. intros rl Hrl. exists []. by rewrite app_nil_r. Qed.

Lemma woke_trans k1 k2 k3 : woke k1 k2 -> woke k2 k3 -> woke k1 k3.
Proof.
  intros [] []. constructor; try congruence; auto.
  - intros t [Hb|Hr]%wo_blocked0; [by apply wo_blocked1|right; by apply wo_ready1].
  - intros t [Hq Hb]%wo_queue0. destruct (wo_queue1 t Hq) as [Hq' Hb']. split; [done|]. auto.
  - intros rl (m1 & Hm1)%wo_list0. destruct (wo_list1 _ Hm1) as (m2 & Hm2). exists (m1 ++ m2).
    by rewrite app_assoc.
Qed.

(** The queues and the objects are well formed. *)
Record calm k : Prop := {
  ca_placed : placed k;
  ca_lost : no_lost k;
  ca_cond c x : conds k !! c = Some x -> exists q, Lists.rep (waitQueue x) q /\ NoDup q /\
    forall p : ptr, p ∈ q -> (p < brk k)%positive;
  ca_list p x : slists k !! p = Some x -> exists q, Lists.rep (list x) q;
}.

Lemma V_kern_waits p k k' p' q' : V_kern p k k' -> p' <> p -> waits k' p' q' <-> waits k p' q'.
Proof. intros [] Hne; unfold waits; cbn; by rewrite lookup_insert_ne. Qed.

Lemma V_kern_ok p k k' : placed k -> V_kern p k k' -> placed k' /\ woke k k'.
Proof.
  intros Hpl HV. destruct HV as [x Hx Hr|x t q L Q Hx Hr HL HQ].
  - set (k' := set_sems _ _).
    assert (Hw : forall p' q, waits k' p' q <-> waits k p' q).
    { intros p' q. unfold waits, k'. cbn. destruct (decide (p' = p)) as [->|].
      - rewrite lookup_insert_eq, Hx. split; intros (y & [= <-] & Hy); eauto.
      - by rewrite lookup_insert_ne. }
    split; [|constructor; auto; [|intros rl Hrl; exists []; by rewrite app_nil_r]].
    + destruct (stacks k !! currentThread k) as [fs|] eqn:Hfs.
      2: { pose proof (pl_cur k Hpl) as Hc. apply (pl_dom k Hpl) in Hc. rewrite Hfs in Hc. by destruct Hc. }
      apply (placed_local k k' fs); try done.
      * by apply same_threads_eq.
      * split_and!.
        -- intros p' q Hpq%Hw. by left.
        -- intros p' y. unfold k'. cbn. destruct (decide (p' = p)) as [->|].
           ++ rewrite lookup_insert_eq. intros [= <-]. left. by exists x.
           ++ rewrite lookup_insert_ne by done. intros Hy. left. by exists y.
        -- intros p' Hp'. unfold k'. cbn in *. rewrite lookup_insert_ne; [by apply (pl_brk_s k Hpl)|].
           intros <-. by rewrite (pl_brk_s k Hpl) in Hx.
      * by rewrite insert_id.
      * intros p' q Hpq Hin. destruct (pl_wait k Hpl p' q _ Hpq Hin) as [_ (fs' & Hf & HP)].
        by simplify_eq.
    + intros t Ht. split; [|done]. intros p' q Hpq%Hw. by eapply Ht.
  - assert (HwP : waits k p (t :: q)) by by exists x.
    destruct (placed_wake k _ p x t q L Q (s32 (value x + 1)) Hpl Hx HwP HL HQ eq_refl) as [Hpl' Hws].
    set (k' := set_sems _ _) in *. split; [done|].
    destruct (pl_wait k Hpl p (t :: q) t HwP ltac:(by left)) as [Hbt _].
    assert (Hhas : forall t' st, has_status k' t' st <-> if decide (t' = t) then st = READY else has_status k t' st).
    { intros. apply (restatus_has k k' t READY); [done|]. destruct Hbt as (th & ? & _). by eexists. }
    constructor; try done.
    + intros t' Hr'. apply Hhas. case_decide; [|done]. subst. by pose proof (has_status_fun _ _ _ _ Hr' Hbt).
    + intros t' Hb. destruct (decide (t' = t)) as [->|Hne].
      * right. apply Hhas. by rewrite decide_True.
      * left. apply Hhas. by rewrite decide_False.
    + intros t' Hb. apply Hhas. by case_decide.
    + intros t' Hnq. assert (t' <> t) by (intros ->; apply (Hnq p (t :: q)); [done|by left]). split.
      * intros p' q' Hw'%Hws Hin. case_decide; [|by apply (Hnq p' q')]. subst. apply (Hnq p (t :: q)); [done|by right].
      * intros Hb. apply Hhas. by rewrite decide_False.
    + intros rl Hrl. exists [t]. by apply HL.
Qed.

(** [V] puts nobody to sleep. *)
Lemma V_kern_awake p k k' t : placed k -> V_kern p k k' -> stacks k !! t <> None ->
  ~ has_status k t BLOCKED -> ~ has_status k' t BLOCKED.
Proof.
  intros Hpl HV Hst Hb Hb'. destruct HV as [|x u q L Q Hx Hr HL HQ]; [done|]. apply Hb.
  assert (Hu : is_Some (threads k !! u)).
  { destruct (pl_wait k Hpl p (u :: q) u) as [(th & ? & _) _]; [by exists x|by left|by exists th]. }
  apply (restatus_has k _ u READY) in Hb'; [|done|done]. by case_decide.
Qed.

Lemma V_kern_no_lost p k k' : placed k -> no_lost k -> V_kern p k k' -> no_lost k'.
Proof.
  intros Hpl Hk HV. destruct (V_kern_ok p k k' Hpl HV) as [_ Hwo].
  pose proof (wo_stacks k k' Hwo) as Hst.
  assert (Hnb : forall t, stacks k !! t <> None -> ~ has_status k t BLOCKED -> ~ has_status k' t BLOCKED)
    by (intros t; apply (V_kern_awake p k k' t Hpl HV)).
  intros p' x' Hx'. destruct (decide (p' = p)) as [->|Hne].
  2: { assert (Hx : sems k !! p' = Some x') by (destruct HV; cbn in Hx'; by rewrite lookup_insert_ne in Hx').
       intros t q Hr. destruct (Hk p' x' Hx t q Hr) as (W & HW & ?).
       exists W. split; [|done].
       destruct HW as [Hnd HW]. split; [done|]. intros u Hu. destruct (HW u Hu) as (? & Hb & f & Hf & ?).
       split_and!; [done| |exists f; by rewrite Hst]. apply Hnb; [by rewrite Hf|done]. }
  destruct HV as [x Hx Hr|x t q L Q Hx Hr HL HQ]; cbn in Hx'; rewrite lookup_insert_eq in Hx';
    injection Hx' as <-; cbn.
  { intros t q Hr'. by pose proof (rep_fun _ _ _ Hr Hr'). }
  intros t' q' Hr'. pose proof (rep_fun _ _ _ HQ Hr') as ->.
  destruct (Hk p x Hx t (t' :: q') Hr) as (W & [Hnd HW] & Hle).
  pose proof (woken_few k p (t :: t' :: q') W Hpl (conj Hnd HW)) as Hfew.
  destruct (pl_sem k Hpl p x Hx) as (q0 & Hq0 & Hnd0). pose proof (rep_fun _ _ _ Hr Hq0) as <-.
  assert (HwP : waits k p (t :: t' :: q')) by by exists x.
  destruct (pl_wait k Hpl p _ t HwP ltac:(by left)) as [Hbt HtP].
  exists (t :: W). split; [split|].
  - constructor; [|done]. intros Hin. destruct (HW t Hin) as [Hn _]. apply Hn. by left.
  - intros u Hu. apply elem_of_cons in Hu as [->|Hu].
    + apply NoDup_cons in Hnd0 as [Hn _]. split_and!; [done| |exact HtP].
      intros (th & Hth & Hb'). cbn in Hth. destruct Hbt as (th0 & Hth0 & _).
      rewrite (status_set_eq _ _ _ _ Hth0) in Hth. injection Hth as <-. done.
    + destruct (HW u Hu) as (Hn & Hb & f & Hf & HP). split_and!; [|apply Hnb; [by rewrite Hf|done]|by exists f].
      intros Hi. apply Hn. by right.
  - rewrite s32_id by (unfold is_s32; lia). unfold zlen in *. cbn [length]. lia.
Qed.

Lemma V_kern_calm p k k' : calm k -> V_kern p k k' -> calm k' /\ woke k k'.
Proof.
  intros [] HV. destruct (V_kern_ok p k k' ca_placed0 HV) as [Hpl Hw]. split; [|done].
  constructor; [done|exact (V_kern_no_lost p k k' ca_placed0 ca_lost0 HV)| |].
  - rewrite (wo_conds k k' Hw), (wo_brk k k' Hw). done.
  - by rewrite (wo_slists k k' Hw).
Qed.

(** *** Steps that leave the threads where they are *)

(** The semaphores of [k'] are those of [k], or new and without waiters. *)
Definition same_sems k k' : Prop :=
  (forall p x, sems k' !! p = Some x -> sems k !! p = Some x \/
     queue x = Lists.new_List) /\
  (forall p, (brk k' <= p)%positive -> sems k' !! p = None).

Lemma same_sems_queues k k' : same_sems k k' -> same_queues k k'.
Proof.
  intros [Hs Hb]. split_and!; [| |done].
  - intros p q (x & Hx & Hq). destruct (Hs p x Hx) as [Hx'|E]; [left; by exists x|].
    right. rewrite E in Hq. exact (rep_fun _ _ _ Hq Lists.new_List_rep).
  - intros p x Hx. destruct (Hs p x Hx) as [Hx'|E]; [left; by exists x|by right].
Qed.

Lemma same_sems_eq k k' : placed k -> sems k' = sems k -> (brk k <= brk k')%positive -> same_sems k k'.
Proof.
  intros Hpl E Hb. split; rewrite E; [by left|]. intros p Hp. apply (pl_brk_s k Hpl). lia.
Qed.

Definition good_conds k : Prop := forall c x, conds k !! c = Some x ->
  exists q, Lists.rep (waitQueue x) q /\ NoDup q /\ forall p : ptr, p ∈ q -> (p < brk k)%positive.
Definition good_lists k : Prop := forall p x, slists k !! p = Some x -> exists q, Lists.rep (list x) q.

Lemma good_conds_eq k k' : good_conds k -> conds k' = conds k -> (brk k <= brk k')%positive -> good_conds k'.
Proof.
  intros Hk E Hb c x. rewrite E. intros (q & ? & ? & Hq)%Hk. exists q. split_and!; try done.
  intros p Hp%Hq. lia.
Qed.

Lemma in_P_self k c fs p q : placed k -> stacks k !! c = Some fs -> waits k p q -> c ∈ q -> in_P c p fs.
Proof.
  intros Hpl Hfs Hpq Hin. destruct (pl_wait k Hpl p q c Hpq Hin) as [_ (fs' & Hf & HP)]. by simplify_eq.
Qed.

(** The stack of the current thread changes, and objects. *)
Lemma calm_local k k' fs fs' : calm k -> stacks k !! currentThread k = Some fs ->
  same_threads k k' -> readyList k' = readyList k -> currentThread k' = currentThread k ->
  toBeDestroyed k' = toBeDestroyed k -> stacks k' = <[currentThread k := fs']> (stacks k) ->
  (brk k <= brk k')%positive -> same_sems k k' -> good_conds k' -> good_lists k' ->
  (forall p, in_P (currentThread k) p fs -> in_P (currentThread k) p fs') -> calm k'.
Proof.
  intros [Hpl Hl _ _] Hfs Ht Hr Hc Hd Hst Hb Hs Hco Hli HP. constructor; [| |done|done].
  - apply (placed_local k k' fs'); try done; [by apply same_sems_queues|].
    intros p q Hpq Hin. apply HP. by eapply in_P_self.
  - eapply no_lost_stack; [done|exact Hfs|exact Hst|exact HP|by destruct Hs|].
    intros t p f _ _. by apply (same_threads_has k k').
Qed.

Lemma calm_objects k k' : calm k -> stacks k' = stacks k -> same_threads k k' ->
  readyList k' = readyList k -> currentThread k' = currentThread k ->
  toBeDestroyed k' = toBeDestroyed k -> (brk k <= brk k')%positive -> same_sems k k' ->
  good_conds k' -> good_lists k' -> calm k'.
Proof.
  intros Hk Hst Ht Hr Hc Hd Hb Hs Hco Hli. pose proof (ca_placed k Hk) as Hpl.
  destruct (stacks k !! currentThread k) as [fs|] eqn:Hfs.
  - eapply (calm_local k k' fs fs); try done. by rewrite insert_id.
  - pose proof (pl_cur k Hpl) as Hcu. apply (pl_dom k Hpl) in Hcu. rewrite Hfs in Hcu. by destruct Hcu.
Qed.

(** Popping a call other than the loop of [P], which may be what [in_P] sees. *)
Lemma in_P_pop t p i fs : in_P t p (i :: fs) -> (exists old, i = PLoop p t old) \/ in_P t p fs.
Proof.
  intros (old & rest & [E | [E | E]]); injection E as -> ->; [by left; exists old| |];
    right; exists old, rest; by left.
Qed.

Lemma calm_pop k k' i fs : calm k -> stacks k !! currentThread k = Some (i :: fs) ->
  (forall p old, i <> PLoop p (currentThread k) old) ->
  k' = set_stacks k (<[currentThread k := fs]> (stacks k)) -> calm k'.
Proof.
  intros Hk Hfs Hi ->. pose proof Hk as [Hpl _ Hco Hli].
  apply (calm_local k _ (i :: fs) fs); try done.
  - by apply same_threads_eq.
  - by apply same_sems_eq.
  - intros p [(old & ->)|]%in_P_pop; [by destruct (Hi p old)|done].
Qed.

(** *** Calls *)

(** The calls that do not change the level of interrupts by themselves. *)
Definition plain (i : instr U) : Prop :=
  match i with
  | SetLevelTo _ | Begin _ | SleepLoop _ _ | RunReturn _ | PLoop _ _ _ => False
  | _ => True
  end.

Lemma typed_plain t calls fs : Forall plain calls -> typed t IntOn fs -> typed t IntOn (calls ++ fs).
Proof. intros Hc Hfs. induction Hc as [|i calls Hi _ IH]; [done|]. by destruct i; simpl in *. Qed.

End defs.

End Synch.
