(* ===== verification/Kernel.v ===== *)
(** Every step of the thread machine of [Threads] keeps the invariants of
    [Synch], and what can make a step fail. *)

From stdpp Require Import relations.
From S2P Require Import Prelude Bitmap Lists Machine Interrupt HostFS AddrSpace Threads Synch.
Import Stats Interrupt Threads Synch.

Module Kernel.

Section steps.
Context {C U D : Type} `{Client C U D} `{EqDecision C}.
Abbreviation state := (Sim C (World U D)).
Implicit Types (s : state) (k : Kern U) (t p : ptr) (fs : Datatypes.list (instr U)).

(** *** What the clients promise *)

(** A handler's call of [V]. *)
Definition V_step k k' : Prop := exists p s s', the_kern s = k /\ the_kern s' = k' /\
  V_in_handler p s = Ok s'.

(** Below [brk], where the next object goes. *)
Definition fresh k : Prop := forall p, (brk k <= p)%positive -> sems k !! p = None.

(** From [s] to [s'] only objects change or are made, and what the threads'
    programs own. *)
Record touch s s' : Prop := {
  to_stacks : stacks (the_kern s') = stacks (the_kern s);
  to_threads : same_threads (the_kern s) (the_kern s');
  to_ready : readyList (the_kern s') = readyList (the_kern s);
  to_cur : currentThread (the_kern s') = currentThread (the_kern s);
  to_doomed : toBeDestroyed (the_kern s') = toBeDestroyed (the_kern s);
  to_brk : (brk (the_kern s) <= brk (the_kern s'))%positive;
  to_sems p x : sems (the_kern s') !! p = Some x -> sems (the_kern s) !! p = Some x \/
    queue x = Lists.new_List;
  to_fresh : fresh (the_kern s) -> fresh (the_kern s');
  to_conds : good_conds (the_kern s) -> good_conds (the_kern s');
  to_lists : good_lists (the_kern s) -> good_lists (the_kern s');
  to_handler : inHandler (interrupt s') = inHandler (interrupt s);
}.

Lemma touch_trans s1 s2 s3 : touch s1 s2 -> touch s2 s3 -> touch s1 s3.
Proof.
  intros [] []. constructor; try congruence; auto; [|lia|].
  - intros t. specialize (to_threads0 t). specialize (to_threads1 t).
    destruct (threads (the_kern s1) !! t), (threads (the_kern s2) !! t), (threads (the_kern s3) !! t);
      try done. intuition congruence.
  - intros p x [Hx|?]%to_sems1; [by apply to_sems0|by right].
Qed.

Lemma touch_same s s' : the_kern s' = the_kern s ->
  inHandler (interrupt s') = inHandler (interrupt s) -> touch s s'.
Proof.
  intros E Hh. constructor; rewrite ?E; try done; [by apply same_threads_eq|by left].
Qed.

End steps.

(** Handlers run with interrupts off and touch the kernel only by [V]; client
    code runs with interrupts on, makes the calls of [plain] and changes no
    kernel object, but may make new ones. *)
Class ClientLaws (C U D : Type) `{EqDecision C} `{Client C U D} := {
  handler_law (c : C) (s s' : Sim C (World U D)) : handler c s = Ok s' ->
    level (interrupt s) = IntOff ->
    level (interrupt s') = IntOff /\ inHandler (interrupt s') = inHandler (interrupt s) /\
    rtc (V_step (C := C) (D := D)) (the_kern s) (the_kern s');
  ustep_law (u : U) (s s' : Sim C (World U D)) calls : ustep u s = Ok (calls, s') ->
    level (interrupt s) = IntOn -> inHandler (interrupt s) = false ->
    level (interrupt s') = IntOn /\ inHandler (interrupt s') = false /\ Forall plain calls /\
    touch s s';
}.

Section steps.
Context {C U D : Type} `{ClientLaws C U D}.
Abbreviation state := (Sim C (World U D)).
Implicit Types (s : state) (k : Kern U) (t p : ptr) (fs : Datatypes.list (instr U)).

(** *** [V] and the interrupts *)

Lemma live_Some {A} (m : gmap ptr A) p x : m !! p = Some x -> live m p = Ok x.
Proof. unfold live. by intros ->. Qed.

Lemma live_None {A} (m : gmap ptr A) p : m !! p = None -> live m p = Fault UseAfterFree.
Proof. unfold live. by intros ->. Qed.

Lemma V_spec p s x : placed (the_kern s) -> sems (the_kern s) !! p = Some x ->
  exists s', V_ p s = Ok ([SetLevelTo (level (interrupt s))], s') /\
    V_kern p (the_kern s) (the_kern s') /\
    interrupt s' = set_level (interrupt s) IntOff.
Proof.
  intros Hpl Hx. destruct (pl_sem _ Hpl p x Hx) as (q & Hq & Hnd).
  unfold V_. cbn [SetLevelOff]. set (s1 := ChangeLevel _ _ s).
  change (the_kern s1) with (the_kern s). rewrite (live_Some _ _ _ Hx). cbn [rbind].
  rewrite (Lists.IsEmpty_law _ _ Hq). destruct q as [|t q].
  - rewrite bool_decide_eq_true_2 by done. cbn [negb rbind].
    rewrite (live_Some _ _ x) by done. cbn [rbind].
    eexists. split; [reflexivity|]. split; [|done].
    exact (V_none p _ x Hx Hq).
  - rewrite bool_decide_eq_false_2 by done. cbn [negb].
    destruct (Lists.RemoveFront_law _ _ Hq) as (Q & -> & HQ). cbn [rbind].
    set (s2 := set_sem _ _ s1). unfold ReadyToRun. cbn [interrupts_off]. rewrite ASSERT_true by done.
    destruct (pl_ready _ Hpl) as (rl & Hrl & Hndr & Hiff).
    destruct (pl_wait _ Hpl p (t :: q) t) as [Hb _]; [by exists x|by left|].
    assert (Hni : t ∉ rl) by (intros Hr%Hiff; by pose proof (has_status_fun _ _ _ _ Hr Hb)).
    pose proof (Lists.Append_law _ _ t Hrl) as HA. rewrite decide_False in HA by done.
    destruct HA as (L & HA & HL). change (readyList _) with (readyList (the_kern s)). rewrite HA.
    cbn [rbind]. rewrite (live_Some _ _ (mkSemaphore (value x) Q)) by apply lookup_insert_eq.
    cbn [rbind value queue].
    eexists. split; [reflexivity|]. split; [|done].
    match goal with |- V_kern _ _ ?k' => assert (E : k' = set_sems (set_ready (set_threads (the_kern s)
      (status_set (the_kern s) t READY)) L) (<[p := mkSemaphore (s32 (value x + 1)) Q]> (sems (the_kern s)))) end.
    { unfold set_sem, on_kern, the_kern. cbn. unfold set_sems. cbn. by rewrite insert_insert_eq. }
    rewrite E. apply (V_wake p _ x t q L Q); try done.
    intros rl' Hrl'. by rewrite (rep_fun _ _ _ Hrl' Hrl).
Qed.

Lemma V_step_calm k k' : calm k -> V_step (C := C) (D := D) k k' -> calm k' /\ woke k k'.
Proof.
  intros Hk (p & s & s' & <- & <- & HV). unfold V_in_handler in HV.
  apply ASSERT_inv in HV as [_ HV]. apply bind_Ok_inv in HV as ([calls s1] & HV & E).
  injection E as ->. destruct (sems (the_kern s) !! p) as [x|] eqn:Hx.
  - destruct (V_spec p s x) as (s2 & E & HVk & _); [by apply ca_placed|done|].
    rewrite E in HV. injection HV as _ ->. by eapply V_kern_calm.
  - unfold V_ in HV. cbn [SetLevelOff] in HV. rewrite live_None in HV by exact Hx. done.
Qed.

Lemma V_steps_calm k k' : rtc (V_step (C := C) (D := D)) k k' -> calm k -> calm k' /\ woke k k'.
Proof.
  induction 1 as [k|k k1 k2 HV _ IH]; intros Hk; [split; [done|apply woke_refl]|].
  destruct (V_step_calm _ _ Hk HV) as [Hk1 Hw1]. destruct (IH Hk1) as [Hk2 Hw2].
  split; [done|by eapply woke_trans].
Qed.

(** What firing the interrupts does to the kernel. *)
Definition fired (l : IntStatus) s s' : Prop :=
  level (interrupt s') = l /\ inHandler (interrupt s') = false /\
  calm (the_kern s') /\ woke (the_kern s) (the_kern s').

Lemma CheckIfDue_fired b s due s' : CheckIfDue b s = Ok (due, s') ->
  level (interrupt s) = IntOff -> inHandler (interrupt s) = false -> calm (the_kern s) ->
  fired IntOff s s'.
Proof.
  intros HC Hlev Hin Hk. unfold CheckIfDue in HC. apply ASSERT_inv in HC as [_ HC].
  assert (Hsame : fired IntOff s s) by (split_and!; try done; apply woke_refl).
  destruct (Lists.IsEmpty _); [by injection HC as _ <-|].
  apply bind_Ok_inv in HC as (next & _ & HC).
  destruct (_ && _); [by injection HC as _ <-|].
  set (s1 := if _ <? _ then _ else s) in HC.
  assert (Hs1 : interrupt s1 = interrupt s /\ rest s1 = rest s) by (unfold s1; by destruct (_ <? _)).
  destruct Hs1 as [Hi1 Hr1]. apply bind_Ok_inv in HC as (s2 & Hm & HC).
  assert (Hs2 : interrupt s2 = interrupt s /\ rest s2 = rest s).
  { destruct (machine s1) as [mm|]; [|by injection Hm as <-].
    apply bind_Ok_inv in Hm as (mm' & _ & Hm). by injection Hm as <-. }
  destruct Hs2 as [Hi2 Hr2]. apply bind_Ok_inv in HC as (s3 & Hl & HC). injection HC as _ <-.
  set (s0 := on_interrupt _ s2) in Hl.
  assert (HP : level (interrupt s3) = IntOff /\ calm (the_kern s3) /\ woke (the_kern s) (the_kern s3)).
  { unfold fire_loop in Hl. set (P (r : state) := level (interrupt r) = IntOff /\ calm (the_kern r) /\
      woke (the_kern s) (the_kern r)). revert Hl. apply (loop_inv P P).
    - unfold P, s0, the_kern. cbn. rewrite Hi2, Hr2. split_and!; try done. apply woke_refl.
    - intros r w (Hlr & Hkr & Hwr) Hf. apply bind_Ok_inv in Hf as ([again r1] & Hf & Hw).
      unfold fire in Hf. apply bind_Ok_inv in Hf as ([nx pd] & _ & Hf).
      apply bind_Ok_inv in Hf as (r2 & Hh & Hf). apply bind_Ok_inv in Hf as (ag & _ & Hf).
      injection Hf as -> ->. apply handler_law in Hh as (Hl2 & _ & HV); [|done].
      destruct (V_steps_calm _ _ HV Hkr) as [Hk2 Hw2].
      assert (woke (the_kern s) (the_kern r1)) by by eapply woke_trans.
      destruct again; injection Hw as <-; by split_and!. }
  destruct HP as (? & ? & ?). by split_and!.
Qed.

Lemma tick_fired s s' : tick s = Ok s' -> inHandler (interrupt s) = false -> calm (the_kern s) ->
  fired IntOn s s'.
Proof.
  intros Ht Hin Hk. unfold tick in Ht. apply bind_Ok_inv in Ht as ([b s1] & HC & E). injection E as <-.
  apply CheckIfDue_fired in HC as (_ & ? & ? & ?); [|done..]. unfold fired. by split_and!.
Qed.

Lemma Idle_fired s s' : Idle s = Ok s' -> level (interrupt s) = IntOff ->
  inHandler (interrupt s) = false -> calm (the_kern s) -> fired IntOff s s'.
Proof.
  intros Ht Hl Hin Hk. unfold Idle in Ht. apply bind_Ok_inv in Ht as ([b s1] & HC & E).
  destruct b; [|done]. injection E as <-.
  apply CheckIfDue_fired in HC as (? & ? & ? & ?); [|done..]. unfold fired. by split_and!.
Qed.

(** *** What holds between steps *)

Record good s : Prop := {
  go_calm : calm (the_kern s);
  go_runs : exists fs, runs (the_kern s) (level (interrupt s)) fs;
  go_handler : inHandler (interrupt s) = false;
}.

(** The current thread runs with interrupts at [l] and has the calls [fs] to
    make after the one it makes now. *)
Record on_cpu s (l : IntStatus) fs : Prop := {
  oc_calm : calm (the_kern s);
  oc_stack : stacks (the_kern s) !! cur s = Some fs;
  oc_status : has_status (the_kern s) (cur s) RUNNING;
  oc_doomed : toBeDestroyed (the_kern s) = None;
  oc_level : level (interrupt s) = l;
  oc_handler : inHandler (interrupt s) = false;
}.

(** What an object call needs to be there. *)
Definition dead_object s (i : instr U) : Prop :=
  match i with
  | DeleteSemaphore p | P p | PLoop p _ _ | V p => sems (the_kern s) !! p = None
  | DeleteLock _ | DeleteCondition _ | DeleteSynchList _ => exec i s = Fault UseAfterFree
  | Acquire l | Acquired l | Release l => locks (the_kern s) !! l = None
  | Wait c l | Signal c l => locks (the_kern s) !! l = None \/ conds (the_kern s) !! c = None
  | Broadcast c _ => conds (the_kern s) !! c = None
  | ListAppend p _ | ListAppended p _ | ListRemoveFront p | ListRemoveLoop p
  | ListApply p _ | ListApplied p _ => slists (the_kern s) !! p = None
  | _ => False
  end.

(** The only ways a call fails: client code or a handler fails, the system halts
    or runs out of time; an object is not there; a lock is released, or passed
    to a condition, by a thread that does not hold it; an item is put on a
    list twice; or the registers or the address space of a user program cannot
    be saved, restored or given back. *)
Inductive may_fail s : instr U -> fault -> Prop :=
| mf_user u f : ustep u s = Fault f -> may_fail s (User u) f
| mf_tick i s1 f : i = Tick \/ i = SetLevelTo IntOn -> the_kern s1 = the_kern s ->
    tick s1 = Fault f -> may_fail s i f
| mf_idle t fin f : Lists.rep (readyList (the_kern s)) [] -> Idle s = Fault f ->
    may_fail s (SleepLoop t fin) f
| mf_dead i : dead_object s i -> may_fail s i UseAfterFree
| mf_lock i l x : i = Release l \/ (exists c, i = Wait c l \/ i = Signal c l) ->
    locks (the_kern s) !! l = Some x -> lockHolder x <> Some (cur s) -> may_fail s i AssertFailed
| mf_space i f t th a : match i with Begin _ | RunReturn _ | Yield | SleepLoop _ _ => True | _ => False end ->
    threads (the_kern s) !! t = Some th -> space th = Some a -> exec i s = Fault f -> may_fail s i f
| mf_twice p item x q : slists (the_kern s) !! p = Some x -> Lists.rep (list x) q -> item ∈ q ->
    may_fail s (ListAppended p item) AssertFailed.

(** The same thread has the CPU, and threads have only joined the ready list. *)
Definition keeps_ready s s' : Prop := cur s' = cur s /\
  forall rl, Lists.rep (readyList (the_kern s)) rl ->
  exists more, Lists.rep (readyList (the_kern s')) (rl ++ more).

(** Only [Yield] and the loop of [Sleep] take a thread off the ready list, the
    first one, and give it the CPU. *)
Definition ready_step s (i : instr U) s' : Prop :=
  match i with
  | Yield | SleepLoop _ _ => forall n rl, Lists.rep (readyList (the_kern s)) (n :: rl) ->
      cur s' = n /\ exists more, Lists.rep (readyList (the_kern s')) (rl ++ more)
  | _ => keeps_ready s s'
  end /\ (Lists.rep (readyList (the_kern s)) [] -> keeps_ready s s').

Definition outcome s (i : instr U) : Prop :=
  match exec i s with
  | Ok (calls, s') => good (push (cur s) calls s') /\ ready_step s i s'
  | Fault f => may_fail s i f
  end.

Lemma ready_same s s' : cur s' = cur s -> readyList (the_kern s') = readyList (the_kern s) ->
  keeps_ready s s'.
Proof. intros Hc E. split; [done|]. intros rl Hrl. exists []. by rewrite E, app_nil_r. Qed.

Lemma ready_woke s s' : woke (the_kern s) (the_kern s') -> keeps_ready s s'.
Proof. intros []. by split. Qed.

Lemma keeps_ready_step s i s' : keeps_ready s s' ->
  match i with Yield | SleepLoop _ _ => False | _ => True end -> ready_step s i s'.
Proof. intros Hk Hi. by destruct i. Qed.

Lemma push_stacks t calls s fs : stacks (the_kern s) !! t = Some fs ->
  stacks (the_kern (push t calls s)) = <[t := calls ++ fs]> (stacks (the_kern s)).
Proof.
  intros Hf. cbn. apply map_eq. intros j. rewrite lookup_alter, lookup_insert.
  case_decide; [|done]. subst. by rewrite Hf.
Qed.

Lemma good_push s l fs calls : on_cpu s l fs -> typed (cur s) l (calls ++ fs) ->
  (forall p, in_P (cur s) p fs -> in_P (cur s) p (calls ++ fs)) -> good (push (cur s) calls s).
Proof.
  intros [Hk Hst Hrun Hd Hl Hh] Hty HP. set (s' := push _ _ _).
  pose proof (push_stacks (cur s) calls s fs Hst) as Hst'. fold s' in Hst'.
  pose proof Hk as [Hpl _ Hco Hli]. constructor; [| |done].
  - apply (calm_local (the_kern s) (the_kern s') fs (calls ++ fs)); try done.
    + by apply same_threads_eq.
    + by apply same_sems_eq.
  - exists (calls ++ fs). constructor.
    + change (currentThread (the_kern s')) with (cur s). rewrite Hst'. by rewrite lookup_insert_eq.
    + left. split; [done|]. cbn. by rewrite Hl.
    + change (toBeDestroyed (the_kern s')) with (toBeDestroyed (the_kern s)). rewrite Hd. by intros [? ?].
Qed.

(** The usual case: the calls left are to be made with interrupts on. *)
Lemma good_push_on s l fs calls : on_cpu s l fs -> typed (cur s) IntOn fs ->
  typed (cur s) l (calls ++ fs) -> good (push (cur s) calls s).
Proof.
  intros Hs Hon Hty. eapply good_push; [done|done|]. intros p HP. by destruct (in_P_off _ _ _ HP).
Qed.

Lemma on_cpu_good s l fs : on_cpu s l fs -> typed (cur s) l fs -> good s.
Proof.
  intros [Hk Hst Hrun Hd <- Hh] Hty. constructor; [done| |done]. exists fs. constructor; [done|by left|].
  rewrite Hd. by intros [? ?].
Qed.

Lemma on_cpu_objects s s' l l' fs : on_cpu s l fs ->
  stacks (the_kern s') = stacks (the_kern s) -> same_threads (the_kern s) (the_kern s') ->
  readyList (the_kern s') = readyList (the_kern s) ->
  currentThread (the_kern s') = currentThread (the_kern s) ->
  toBeDestroyed (the_kern s') = toBeDestroyed (the_kern s) ->
  (brk (the_kern s) <= brk (the_kern s'))%positive -> same_sems (the_kern s) (the_kern s') ->
  good_conds (the_kern s') -> good_lists (the_kern s') ->
  level (interrupt s') = l' -> inHandler (interrupt s') = false -> on_cpu s' l' fs.
Proof.
  intros [Hk Hst Hrun Hd Hl Hh] Es Et Er Ec Ed Eb Hsem Hco Hli El Eh. unfold cur in *.
  constructor; unfold cur; rewrite ?Es, ?Ec, ?Ed; try done.
  - by eapply calm_objects.
  - by apply (same_threads_has _ _ _ _ Et).
Qed.

(** The kernel is as it was, the level of interrupts may not be. *)
Lemma on_cpu_level s s' l l' fs : on_cpu s l fs -> the_kern s' = the_kern s ->
  level (interrupt s') = l' -> inHandler (interrupt s') = false -> on_cpu s' l' fs.
Proof. intros [] E Hl Hh. constructor; unfold cur; rewrite ?E; done. Qed.

Lemma on_cpu_fired s s' l l' fs : on_cpu s l fs -> fired l' s s' -> on_cpu s' l' fs.
Proof.
  intros [] (Hl & Hh & Hk & []). unfold cur in *. constructor; unfold cur; rewrite ?wo_cur0; try done.
  - by rewrite wo_stacks0.
  - by apply wo_running0.
  - by rewrite wo_doomed0.
Qed.

(** *** The calls, one by one *)

Lemma OneTick_good s l fs : on_cpu s l fs -> typed (cur s) IntOn fs ->
  match OneTick_ s with
  | Ok (calls, s') => keeps_ready s s' /\ good (push (cur s) calls s')
  | Fault f => tick s = Fault f
  end.
Proof.
  intros Hs Hty. unfold OneTick_. destruct (tick s) as [s1|f] eqn:Ht; [|done]. cbn [rbind].
  apply tick_fired in Ht; [|apply Hs..]. pose proof (on_cpu_fired _ _ _ _ _ Hs Ht) as H1.
  assert (Hc : cur s1 = cur s) by (apply (wo_cur _ _ (proj2 (proj2 (proj2 Ht))))).
  pose proof (ready_woke s s1 (proj2 (proj2 (proj2 Ht)))) as Hr.
  destruct (yieldOnReturn _); split; try exact Hr.
  - rewrite <- Hc. set (s2 := on_interrupt _ s1). change (cur s1) with (cur s2).
    eapply (good_push_on s2 IntOn fs).
    + eapply on_cpu_level; [exact H1|done|apply H1|apply H1].
    + change (cur s2) with (cur s1). by rewrite Hc.
    + change (cur s2) with (cur s1). rewrite Hc. simpl. auto.
  - rewrite <- Hc. eapply good_push_on; [done|by rewrite Hc..].
Qed.

Lemma SetLevelTo_good s l now fs : on_cpu s l fs -> typed (cur s) now fs -> outcome s (SetLevelTo now).
Proof.
  intros Hs Hty. unfold outcome. cbn [exec]. unfold SetLevel_.
  pose proof (oc_handler _ _ _ Hs) as Hh. rewrite Hh, orb_true_r. cbn [ASSERT rbind].
  set (s1 := ChangeLevel _ now s).
  assert (H1 : on_cpu s1 now fs) by by eapply on_cpu_level.
  case_decide as Hd.
  - destruct Hd as [-> _]. pose proof (OneTick_good s1 IntOn fs H1 Hty) as HT.
    destruct (OneTick_ s1) as [[calls s2]|f]; [|by eapply mf_tick; [right| |]].
    destruct HT. split; [done|by apply keeps_ready_step].
  - split; [change (cur s) with (cur s1); by eapply good_push|]. by apply keeps_ready_step; [apply ready_same|].
Qed.

Lemma Tick_good s l fs : on_cpu s l fs -> typed (cur s) IntOn fs -> outcome s Tick.
Proof.
  intros Hs Hty. unfold outcome. cbn [exec]. pose proof (OneTick_good s l fs Hs Hty) as HT.
  destruct (OneTick_ s) as [[calls s2]|f]; [|by eapply mf_tick; [left| |]].
  destruct HT. split; [done|by apply keeps_ready_step].
Qed.

(** *** Calls that only touch objects *)

Lemma touch_good s s' i l calls fs : on_cpu s IntOn fs -> typed (cur s) IntOn fs -> touch s s' ->
  exec i s = Ok (calls, s') -> level (interrupt s') = l -> typed (cur s) l (calls ++ fs) ->
  match i with Yield | SleepLoop _ _ => False | _ => True end -> outcome s i.
Proof.
  intros Hs Hty [] E Hl Hc Hi. unfold outcome. rewrite E.
  split; [|by apply keeps_ready_step; [apply ready_same|]]. pose proof (oc_calm _ _ _ Hs) as [Hp _ Hco Hli].
  assert (H1 : on_cpu s' l fs).
  { eapply on_cpu_objects; [exact Hs|..]; try done; auto.
    - split; [done|]. apply to_fresh0. exact (pl_brk_s _ Hp).
    - rewrite to_handler0. apply Hs. }
  assert (Hcur : cur s' = cur s) by done. rewrite <- Hcur in *. by eapply good_push_on.
Qed.

Lemma touch_return r s : touch s (return_ r s).
Proof. constructor; try done; [|by left]. eapply same_threads_alter; [|done]. done. Qed.

Lemma User_good s u fs : on_cpu s IntOn fs -> typed (cur s) IntOn fs -> outcome s (User u).
Proof.
  intros Hs Hty. destruct (ustep u s) as [[calls s1]|f] eqn:E;
    [|unfold outcome; cbn [exec]; rewrite E; by constructor].
  assert (E' : exec (User u) s = Ok (calls, s1)) by exact E.
  apply ustep_law in E as (Hl & Hh & Hpl & Ht); [|apply Hs..].
  eapply touch_good; [done|done|exact Ht|done|exact Hl|by apply typed_plain|done].
Qed.

Lemma touch_new_Semaphore v s : touch s (new_Semaphore v s).2.
Proof.
  constructor; try done; cbn.
  - by apply same_threads_eq.
  - lia.
  - intros p x. rewrite lookup_insert. case_decide; [|by left]. intros [= <-]. by right.
  - intros Hf p Hp. cbn in *. rewrite lookup_insert_ne by lia. apply Hf. lia.
  - intros Hc. eapply good_conds_eq; [exact Hc|done|]. cbn. lia.
Qed.

(** The locks change, and a new one may be made. *)
Lemma touch_locks s f m b : f (the_kern s) = set_brk (set_locks (the_kern s) m) b ->
  (brk (the_kern s) <= b)%positive -> touch s (on_kern f s).
Proof.
  intros E Hb.
  constructor; try done; cbn; rewrite E; try done.
  - by apply same_threads_eq.
  - by left.
  - intros Hfr p Hp. apply Hfr. cbn in Hp. lia.
  - intros Hc. by eapply good_conds_eq.
Qed.

Lemma touch_set_holder l h s : touch s (set_holder l h s).
Proof.
  apply (touch_locks _ _ (alter (fun x => mkLock h (semaphore x)) l (locks (the_kern s))) (brk (the_kern s)));
    [done|lia].
Qed.

Lemma touch_new_Lock s : touch s (new_Lock s).2.
Proof.
  eapply touch_trans; [apply (touch_new_Semaphore 1)|]. eapply touch_locks; [reflexivity|].
  cbn. lia.
Qed.

Lemma touch_waitQueue c q xs s : Lists.rep q xs -> NoDup xs ->
  (forall p : ptr, p ∈ xs -> (p < brk (the_kern s))%positive) -> touch s (set_waitQueue c q s).
Proof.
  intros Hq Hnd Hp. constructor; try done; cbn.
  - by apply same_threads_eq.
  - by left.
  - intros Hc c' x. cbn. rewrite lookup_insert. case_decide; [|by apply Hc].
    intros [= <-]. by exists xs.
Qed.

Lemma touch_new_Condition s : touch s (new_Condition s).2.
Proof.
  constructor; try done; cbn.
  - by apply same_threads_eq.
  - lia.
  - by left.
  - intros Hf p Hp. apply Hf. cbn in Hp. lia.
  - intros Hc c' x. cbn. rewrite lookup_insert. case_decide.
    + intros [= <-]. exists []. split_and!; [apply Lists.new_List_rep|constructor|].
      intros p Hp. by apply not_elem_of_nil in Hp.
    + intros (q & ? & ? & Hq)%Hc. exists q. split_and!; try done. intros p Hp%Hq. lia.
Qed.

Lemma touch_set_list p q xs s : Lists.rep q xs -> touch s (set_list p q s).
Proof.
  intros Hq. constructor; try done; cbn.
  - by apply same_threads_eq.
  - by left.
  - intros Hl p' x. cbn. rewrite lookup_alter. case_decide; [|by apply Hl].
    subst. destruct (slists (the_kern s) !! p'); [|done]. intros [= <-]. by exists xs.
Qed.

Lemma touch_new_SynchList s : touch s (new_SynchList s).2.
Proof.
  pose proof (touch_new_Lock s) as HL. unfold new_SynchList. destruct (new_Lock s) as [l s1].
  pose proof (touch_new_Condition s1) as HC. destruct (new_Condition s1) as [c s2]. cbn in *.
  eapply touch_trans; [exact HL|]. eapply touch_trans; [exact HC|]. constructor; try done; cbn.
  - by apply same_threads_eq.
  - lia.
  - by left.
  - intros Hf p Hp. apply Hf. cbn in Hp. lia.
  - intros Hg. eapply good_conds_eq; [exact Hg|done|]. cbn. lia.
  - intros Hg p x. cbn. rewrite lookup_insert. case_decide; [|by apply Hg].
    intros [= <-]. exists []. apply Lists.new_List_rep.
Qed.

(** A call that begins by looking at an object. *)
Lemma outcome_live {A} (m : gmap ptr A) p s i (f : A -> res (Datatypes.list (instr U) * state)) :
  exec i s = (x ← live m p; f x) -> (m !! p = None -> dead_object s i) ->
  (forall x, m !! p = Some x -> exec i s = f x -> outcome s i) -> outcome s i.
Proof.
  intros E Hd Hok. unfold live in E. destruct (m !! p) as [x|] eqn:Hx; cbn [rbind] in E; [by eapply Hok|].
  unfold outcome. rewrite E. by apply mf_dead, Hd.
Qed.

(** A call that insists on holding a lock. *)
Lemma outcome_held s i l (f : res (Datatypes.list (instr U) * state)) :
  exec i s = (held ← IsHeldByCurrentThread l s; ASSERT held ;; f) ->
  i = Release l \/ (exists c, i = Wait c l \/ i = Signal c l) ->
  (locks (the_kern s) !! l = None -> dead_object s i) ->
  (forall x, locks (the_kern s) !! l = Some x -> lockHolder x = Some (cur s) -> exec i s = f -> outcome s i) ->
  outcome s i.
Proof.
  intros E Hi Hd Hok. unfold IsHeldByCurrentThread, live in E.
  destruct (locks (the_kern s) !! l) as [x|] eqn:Hx; cbn [rbind] in E.
  - destruct (decide (lockHolder x = Some (cur s))) as [Hh|Hh].
    + rewrite bool_decide_eq_true_2 in E by done. by eapply Hok.
    + rewrite bool_decide_eq_false_2 in E by done. unfold outcome. rewrite E. by eapply mf_lock.
  - unfold outcome. rewrite E. by apply mf_dead, Hd.
Qed.

(** A call that changes no object. *)
Lemma same_good s i calls fs : on_cpu s IntOn fs -> typed (cur s) IntOn fs -> Forall plain calls ->
  exec i s = Ok (calls, s) -> match i with Yield | SleepLoop _ _ => False | _ => True end -> outcome s i.
Proof.
  intros Hs Hty Hc E Hi.
  eapply touch_good; [done|done|by apply touch_same|exact E|apply Hs|by apply typed_plain|done].
Qed.

Lemma new_object_good s (r : ptr * state) i fs : on_cpu s IntOn fs -> typed (cur s) IntOn fs -> touch s r.2 ->
  level (interrupt r.2) = level (interrupt s) ->
  exec i s = (let '(p, s') := r in Ok ([], return_ (Zpos p) s')) ->
  match i with Yield | SleepLoop _ _ => False | _ => True end -> outcome s i.
Proof.
  intros Hs Hty Ht Hl E Hi. destruct r as [r s']. eapply touch_good; [done|done| |exact E| |exact Hty|done].
  - eapply touch_trans; [exact Ht|apply touch_return].
  - cbn in *. rewrite Hl. apply Hs.
Qed.

Lemma touch_delete_Semaphore p s s' : delete_Semaphore p s = Ok s' ->
  touch s s' /\ level (interrupt s') = level (interrupt s).
Proof.
  intros E. apply bind_Ok_inv in E as (x & _ & E). injection E as <-.
  split; [|done]. constructor; try done; cbn.
  - by apply same_threads_eq.
  - intros p' y [_ Hy]%lookup_delete_Some. by left.
  - intros Hf p' Hp'. apply lookup_delete_None. right. by apply Hf.
Qed.

Lemma touch_delete_Lock l s s' : delete_Lock l s = Ok s' ->
  touch s s' /\ level (interrupt s') = level (interrupt s).
Proof.
  intros E. apply bind_Ok_inv in E as (x & _ & E). apply bind_Ok_inv in E as (s1 & E1 & E).
  injection E as <-. apply touch_delete_Semaphore in E1 as [Ht Hl]. split; [|done].
  eapply touch_trans; [exact Ht|]. apply (touch_locks _ _ (delete l (locks (the_kern s1))) (brk (the_kern s1)));
    [done|lia].
Qed.

Lemma touch_delete_Condition c s s' : delete_Condition c s = Ok s' ->
  touch s s' /\ level (interrupt s') = level (interrupt s).
Proof.
  intros E. apply bind_Ok_inv in E as (x & _ & E). injection E as <-.
  split; [|done]. constructor; try done; cbn.
  - by apply same_threads_eq.
  - by left.
  - intros Hc c' y. cbn. intros [_ Hy]%lookup_delete_Some. by apply (Hc c').
Qed.

Lemma touch_delete_SynchList p s s' : delete_SynchList p s = Ok s' ->
  touch s s' /\ level (interrupt s') = level (interrupt s).
Proof.
  intros E. apply bind_Ok_inv in E as (x & _ & E). apply bind_Ok_inv in E as (s1 & E1 & E).
  apply bind_Ok_inv in E as (s2 & E2 & E). injection E as <-.
  apply touch_delete_Condition in E1 as [Ht1 Hl1]. apply touch_delete_Lock in E2 as [Ht2 Hl2].
  split; [|by cbn; rewrite Hl2]. eapply touch_trans; [exact Ht1|]. eapply touch_trans; [exact Ht2|].
  constructor; try done; cbn.
  - by apply same_threads_eq.
  - by left.
  - intros Hc c' y. cbn. intros [_ Hy]%lookup_delete_Some. by apply (Hc c').
Qed.

(** A destructor fails only on an object, or a part of it, that is not there. *)
Lemma destructor_good s i fs (m : res state) : on_cpu s IntOn fs -> typed (cur s) IntOn fs ->
  exec i s = (s' ← m; Ok ([], s')) ->
  (forall s', m = Ok s' -> touch s s' /\ level (interrupt s') = level (interrupt s)) ->
  (forall f, m = Fault f -> f = UseAfterFree /\ dead_object s i) ->
  match i with Yield | SleepLoop _ _ => False | _ => True end -> outcome s i.
Proof.
  intros Hs Hty E Hok Hbad Hi. destruct m as [s'|f].
  - destruct (Hok s' eq_refl) as [Ht Hl].
    eapply touch_good; [done|done|exact Ht|exact E|by rewrite Hl; apply Hs|exact Hty|done].
  - destruct (Hbad f eq_refl) as [-> Hd]. unfold outcome. rewrite E. by apply mf_dead.
Qed.

Lemma live_fault {A} (m : gmap ptr A) p f : live m p = Fault f -> f = UseAfterFree.
Proof. unfold live. destruct (m !! p); [done|]. by intros [= <-]. Qed.

Lemma delete_Semaphore_fault p s f : delete_Semaphore p s = Fault f -> f = UseAfterFree.
Proof. unfold delete_Semaphore. destruct (live _ _) eqn:E; [done|]. intros [= <-]. by eapply live_fault. Qed.

Lemma delete_Lock_fault l s f : delete_Lock l s = Fault f -> f = UseAfterFree.
Proof.
  unfold delete_Lock. destruct (live _ _) as [x|] eqn:E; cbn [rbind]; [|intros [= <-]; by eapply live_fault].
  destruct (delete_Semaphore _ s) eqn:E'; [done|]. intros [= <-]. by eapply delete_Semaphore_fault.
Qed.

Lemma delete_Condition_fault c s f : delete_Condition c s = Fault f -> f = UseAfterFree.
Proof. unfold delete_Condition. destruct (live _ _) eqn:E; [done|]. intros [= <-]. by eapply live_fault. Qed.

Lemma delete_SynchList_fault p s f : delete_SynchList p s = Fault f -> f = UseAfterFree.
Proof.
  unfold delete_SynchList. destruct (live _ _) as [x|] eqn:E; cbn [rbind]; [|intros [= <-]; by eapply live_fault].
  destruct (delete_Condition _ s) as [s1|] eqn:E1; cbn [rbind]; [|intros [= <-]; by eapply delete_Condition_fault].
  destruct (delete_Lock _ s1) eqn:E2; [done|]. intros [= <-]. by eapply delete_Lock_fault.
Qed.

Lemma DeleteSemaphore_good s p fs : on_cpu s IntOn fs -> typed (cur s) IntOn fs ->
  outcome s (DeleteSemaphore p).
Proof.
  intros Hs Hty. eapply destructor_good; [done|done|reflexivity|apply touch_delete_Semaphore| |done].
  intros f. unfold delete_Semaphore, live. simpl. destruct (_ !! p); [done|]. by intros [= <-].
Qed.

Lemma destructors_good s i fs : on_cpu s IntOn fs -> typed (cur s) IntOn fs ->
  match i with DeleteLock _ | DeleteCondition _ | DeleteSynchList _ => True | _ => False end -> outcome s i.
Proof.
  intros Hs Hty Hi. destruct i; try done.
  - eapply destructor_good; [done|done|reflexivity|apply touch_delete_Lock| |done].
    intros f E. pose proof (delete_Lock_fault _ _ _ E) as ->. split; [done|]. simpl. by rewrite E.
  - eapply destructor_good; [done|done|reflexivity|apply touch_delete_Condition| |done].
    intros f E. pose proof (delete_Condition_fault _ _ _ E) as ->. split; [done|]. simpl. by rewrite E.
  - eapply destructor_good; [done|done|reflexivity|apply touch_delete_SynchList| |done].
    intros f E. pose proof (delete_SynchList_fault _ _ _ E) as ->. split; [done|]. simpl. by rewrite E.
Qed.

Lemma P_good s p fs : on_cpu s IntOn fs -> typed (cur s) IntOn fs -> outcome s (P p).
Proof.
  intros Hs Hty. eapply (touch_good s (SetLevelOff s).2 _ IntOff);
    [done|done|by apply touch_same|reflexivity|done| |done].
  simpl. by rewrite (oc_level _ _ _ Hs).
Qed.

Lemma Acquired_good s l fs : on_cpu s IntOn fs -> typed (cur s) IntOn fs -> outcome s (Acquired l).
Proof.
  intros Hs Hty. eapply outcome_live; [reflexivity|done|]. intros x Hx E. cbv beta in E.
  eapply touch_good; [done|done|apply touch_set_holder|exact E|apply Hs|exact Hty|done].
Qed.

Lemma Release_good s l fs : on_cpu s IntOn fs -> typed (cur s) IntOn fs -> outcome s (Release l).
Proof.
  intros Hs Hty. eapply outcome_held; [reflexivity|by left|done|]. intros x Hx Hh E.
  rewrite (live_Some _ _ x) in E by done.
  eapply touch_good; [done|done|apply touch_set_holder|exact E|apply Hs| |done]. simpl. auto.
Qed.

Lemma Signal_good s c l fs : on_cpu s IntOn fs -> typed (cur s) IntOn fs -> outcome s (Signal c l).
Proof.
  intros Hs Hty. eapply outcome_held; [reflexivity|right; eauto|by left|]. intros x Hx Hh E.
  eapply outcome_live; [exact E|by right|]. intros y Hy E'. clear E. cbv beta in E'.
  destruct (ca_cond _ (oc_calm _ _ _ Hs) c y Hy) as (q & Hq & Hnd & Hlt).
  rewrite (Lists.IsEmpty_law _ _ Hq) in E'. destruct q as [|w q].
  - rewrite bool_decide_eq_true_2 in E' by done. by eapply same_good.
  - rewrite bool_decide_eq_false_2 in E' by done.
    destruct (Lists.RemoveFront_law _ _ Hq) as (L & HR & HL). rewrite HR in E'. cbn [negb rbind] in E'.
    eapply touch_good; [done|done| |exact E'|apply Hs| |done]; [|simpl; auto].
    apply NoDup_cons in Hnd as [_ Hnd]. eapply (touch_waitQueue _ _ q); [done..|].
    intros p' Hp'. apply Hlt. by right.
Qed.

Lemma Broadcast_good s c l fs : on_cpu s IntOn fs -> typed (cur s) IntOn fs -> outcome s (Broadcast c l).
Proof.
  intros Hs Hty. eapply outcome_live; [reflexivity|done|]. intros y Hy E. cbv beta in E.
  destruct (negb _) in E; (eapply same_good; [done..| |exact E|done]); repeat constructor.
Qed.

Lemma Wait_good s c l fs : on_cpu s IntOn fs -> typed (cur s) IntOn fs -> outcome s (Wait c l).
Proof.
  intros Hs Hty. eapply outcome_held; [reflexivity|right; eauto|by left|]. intros x Hx Hh E.
  eapply outcome_live; [exact E|by right|]. intros y Hy E'. clear E. cbv beta in E'.
  destruct (ca_cond _ (oc_calm _ _ _ Hs) c y Hy) as (q & Hq & Hnd & Hlt).
  set (w := brk (the_kern s)) in *. assert (Hni : w ∉ q) by (intros Hi%Hlt; lia).
  pose proof (Lists.Append_law _ _ w Hq) as HA. rewrite decide_False in HA by done.
  destruct HA as (L & HA & HL). rewrite HA in E'. cbn [rbind] in E'.
  eapply touch_good; [done|done| |exact E'|apply Hs| |done]; [|simpl; tauto].
  eapply touch_trans; [apply (touch_new_Semaphore 0)|]. eapply (touch_waitQueue _ _ (q ++ [w])).
  - done.
  - apply NoDup_app. split_and!; [done| |apply NoDup_singleton].
    intros p' Hp' ->%list_elem_of_singleton. done.
  - intros p' [Hp'%Hlt| ->%list_elem_of_singleton]%elem_of_app; cbn; fold w; lia.
Qed.

Lemma ListAppended_good s p item fs : on_cpu s IntOn fs -> typed (cur s) IntOn fs ->
  outcome s (ListAppended p item).
Proof.
  intros Hs Hty. eapply outcome_live; [reflexivity|done|]. intros x Hx E. cbv beta in E.
  destruct (ca_list _ (oc_calm _ _ _ Hs) p x Hx) as (q & Hq).
  pose proof (Lists.Append_law _ _ item Hq) as HA. case_decide as Hin.
  - unfold outcome. rewrite E, HA. cbn [rbind]. by eapply mf_twice.
  - destruct HA as (L & HA & HL). rewrite HA in E. cbn [rbind] in E.
    eapply touch_good; [done|done|by eapply touch_set_list|exact E|apply Hs| |done]. simpl. auto.
Qed.

Lemma ListRemoveLoop_good s p fs : on_cpu s IntOn fs -> typed (cur s) IntOn fs ->
  outcome s (ListRemoveLoop p).
Proof.
  intros Hs Hty. eapply outcome_live; [reflexivity|done|]. intros x Hx E. cbv beta in E.
  destruct (ca_list _ (oc_calm _ _ _ Hs) p x Hx) as (q & Hq).
  rewrite (Lists.IsEmpty_law _ _ Hq) in E. destruct q as [|item q].
  - rewrite bool_decide_eq_true_2 in E by done. eapply same_good; [done..| |exact E|done]. repeat constructor.
  - rewrite bool_decide_eq_false_2 in E by done.
    destruct (Lists.RemoveFront_law _ _ Hq) as (L & HR & HL). rewrite HR in E. cbn [rbind] in E.
    eapply touch_good; [done|done| |exact E|apply Hs| |done]; [|simpl; auto].
    eapply touch_trans; [by eapply touch_set_list|apply touch_return].
Qed.

Lemma ListApplied_good s p func fs : on_cpu s IntOn fs -> typed (cur s) IntOn fs ->
  outcome s (ListApplied p func).
Proof.
  intros Hs Hty. eapply outcome_live; [reflexivity|done|]. intros x Hx E. cbv beta in E.
  destruct (ca_list _ (oc_calm _ _ _ Hs) p x Hx) as (q & Hq). rewrite (Lists.Apply_law _ _ _ _ Hq) in E.
  assert (HA : forall cs : Datatypes.list (instr U), Forall plain cs -> exists calls, Lists.apply_all
      (fun item calls => Ok (calls ++ [User (func item)])) q cs = Ok calls /\ Forall plain calls).
  { clear. induction q as [|item q IH]; intros cs Hc; [by exists cs|]. simpl. apply IH.
    apply Forall_app. split; [done|]. by repeat constructor. }
  destruct (HA [] ltac:(constructor)) as (calls & Ha & Hc). rewrite Ha in E. cbn [rbind] in E.
  eapply same_good; [done|done| |exact E|done]. apply Forall_app. split; [done|]. by repeat constructor.
Qed.

(** The calls that begin with [Acquire], and the makers of objects. *)
Lemma simple_good s i fs : on_cpu s IntOn fs -> typed (cur s) IntOn fs ->
  match i with
  | SetStatusTo _ | NewSemaphore _ | NewLock | Acquire _ | NewCondition | NewSynchList | ListAppend _ _
  | ListRemoveFront _ | ListApply _ _ => True
  | _ => False
  end -> outcome s i.
Proof.
  intros Hs Hty Hi.
  destruct i as [ | |st| | | | | | | |v| | | | | | |l| | | | | | | | | |p item| |p| |p func| ]; try done.
  - eapply (touch_good s (Interrupt.setStatus st s)); [done|done|by apply touch_same|reflexivity|apply Hs|exact Hty|done].
  - eapply new_object_good; [done..|apply (touch_new_Semaphore v)|reflexivity|reflexivity|done].
  - apply (new_object_good s (new_Lock s) _ fs); [done..|apply touch_new_Lock|reflexivity|reflexivity|done].
  - eapply outcome_live; [reflexivity|done|]. intros x Hx E. cbv beta in E.
    eapply same_good; [done..| |exact E|done]. repeat constructor.
  - apply (new_object_good s (new_Condition s) _ fs); [done..|apply touch_new_Condition|reflexivity|reflexivity|done].
  - apply (new_object_good s (new_SynchList s) _ fs); [done..|apply touch_new_SynchList|reflexivity|reflexivity|done].
  - eapply outcome_live; [reflexivity|done|]. intros x Hx E. cbv beta in E.
    eapply same_good; [done..| |exact E|done]. repeat constructor.
  - eapply outcome_live; [reflexivity|done|]. intros x Hx E. cbv beta in E.
    eapply same_good; [done..| |exact E|done]. repeat constructor.
  - eapply outcome_live; [reflexivity|done|]. intros x Hx E. cbv beta in E.
    eapply same_good; [done..| |exact E|done]. repeat constructor.
Qed.

(** *** [V], forking, and returning from a switch *)

Lemma V_good s p fs : on_cpu s IntOn fs -> typed (cur s) IntOn fs -> outcome s (V p).
Proof.
  intros Hs Hty. pose proof (oc_calm _ _ _ Hs) as Hk.
  destruct (sems (the_kern s) !! p) as [x|] eqn:Hx.
  - destruct (V_spec p s x) as (s' & E & HV & Hi); [apply Hk|done|].
    unfold outcome. cbn [exec]. rewrite E, (oc_level _ _ _ Hs).
    destruct (V_kern_calm _ _ _ Hk HV) as [Hk' Hw].
    assert (H1 : on_cpu s' IntOff fs).
    { apply (on_cpu_fired s s' IntOn); [done|]. unfold fired. rewrite Hi. cbn.
      by rewrite (oc_handler _ _ _ Hs). }
    assert (Hc : cur s' = cur s) by apply (wo_cur _ _ Hw).
    split; [|by apply keeps_ready_step; [apply ready_woke|]]. rewrite <- Hc in *. by eapply good_push_on.
  - unfold outcome. cbn [exec]. unfold V_. cbn [SetLevelOff]. rewrite live_None by exact Hx. by apply mf_dead.
Qed.

(** One more thread can be counted. *)
Definition room s : Prop := Z.of_nat (base.size (threads (the_kern s))) + 1 < 2 ^ 31 - 1.

Lemma fork_calm k k' th L fs : calm k -> status th = READY -> stack th = Some STACK_FENCEPOST ->
  Z.of_nat (base.size (threads k)) + 1 < 2 ^ 31 - 1 -> switched_out (brk k) fs -> typed (brk k) IntOff fs ->
  (forall rl, Lists.rep (readyList k) rl -> brk k ∉ rl -> Lists.rep L (rl ++ [brk k])) ->
  toBeDestroyed k = None ->
  k' = set_brk (set_ready (set_stacks (set_threads k (<[brk k := th]> (threads k)))
         (<[brk k := fs]> (stacks k))) L) (Pos.succ (brk k)) ->
  calm k' /\ currentThread k' <> brk k.
Proof.
  intros [Hpl Hl Hco Hli] Hst Hsk Hsp Hso Hty HL Hd Ek.
  assert (Hnone : threads k !! brk k = None) by (apply (pl_brk_t k Hpl); lia).
  split; [constructor|].
  - by apply (placed_fork k k' th L fs).
  - apply (no_lost_intro k); [done| | |].
    + subst k'. by left.
    + intros t p f Hf HP. exists f. split; [|done]. subst k'. cbn. rewrite lookup_insert_ne; [done|].
      intros E. rewrite E in Hnone. assert (Hs : is_Some (stacks k !! t)) by by eexists.
      apply (pl_dom k Hpl) in Hs. rewrite Hnone in Hs. by destruct Hs.
    + intros t p f _ _ (th' & Hth' & Hb'). exists th'. split; [|done]. subst k'. cbn in Hth'.
      rewrite lookup_insert in Hth'. case_decide; [|done]. congruence.
  - intros c x Hx. subst k'. cbn in *. destruct (Hco c x Hx) as (q & ? & ? & Hq). exists q.
    split_and!; try done. intros p Hp%Hq. lia.
  - by subst k'.
  - subst k'. cbn. intros E. pose proof (pl_cur k Hpl) as Hc. rewrite E, Hnone in Hc. by destruct Hc.
Qed.

(** A new thread is ready, whatever the level of interrupts. *)
Lemma NewFork_spec s l nm pid func fs : on_cpu s l fs -> room s ->
  exists s', exec (NewFork nm pid func) s = Ok ([SetLevelTo l], s') /\ on_cpu s' IntOff fs /\ keeps_ready s s'.
Proof.
  intros Hs Hroom. pose proof (oc_calm _ _ _ Hs) as Hk. pose proof (ca_placed _ Hk) as Hpl.
  set (k := the_kern s) in *. set (t := brk k).
  destruct (pl_ready _ Hpl) as (rl & Hrl & Hnd & Hiff).
  assert (Hni : t ∉ rl).
  { intros (th & Hth & _)%Hiff. rewrite (pl_brk_t _ Hpl) in Hth; [done|]. unfold t. lia. }
  pose proof (Lists.Append_law _ _ t Hrl) as HA. rewrite decide_False in HA by done.
  destruct HA as (L & HA & HL).
  set (th := mkThread nm pid (Some STACK_FENCEPOST) READY (replicate (Z.to_nat Machine.NumTotalRegs) 0) None 0).
  set (k' := set_brk (set_ready (set_stacks (set_threads k (<[t := th]> (threads k)))
    (<[t := [Begin t; User func; Finish]]> (stacks k))) L) (Pos.succ t)).
  assert (E : exists s', exec (NewFork nm pid func) s = Ok ([SetLevelTo (level (interrupt s))], s') /\
    the_kern s' = k' /\ interrupt s' = set_level (interrupt s) IntOff).
  { cbn [exec new_Thread]. unfold Fork. cbn [SetLevelOff]. unfold ReadyToRun.
    rewrite ASSERT_true by done. change (Lists.Append _ _) with (Lists.Append (readyList k) t). rewrite HA. cbn [rbind].
    eexists. split; [reflexivity|]. split; [|done].
    unfold StackAllocate, setStatus, set_thread, on_kern, the_kern. cbn. unfold k', set_ready, set_brk, set_stacks.
    cbn. f_equal. apply map_eq. intros j. fold (the_kern s) k. fold t.
    rewrite !lookup_alter, !lookup_insert. by repeat case_decide. }
  destruct E as (s' & E & Ek & Ei). exists s'. rewrite (oc_level _ _ _ Hs) in E. split; [exact E|].
  destruct (fork_calm k k' th L [Begin t; User func; Finish]) as [Hk' Hne]; try done.
  { by exists [User func; Finish]; right. }
  { intros rl' Hrl' _. by rewrite (rep_fun _ _ _ Hrl' Hrl). }
  { apply Hs. }
  split; [constructor; unfold cur; rewrite ?Ek, ?Ei; try done|].
  - cbn. rewrite lookup_insert_ne by done. apply Hs.
  - destruct (oc_status _ _ _ Hs) as (th' & Hth' & Hr). exists th'. split; [|done].
    cbn. by rewrite lookup_insert_ne.
  - apply Hs.
  - apply Hs.
  - split; [unfold cur; by rewrite Ek|]. intros rl' Hrl'. exists [t]. rewrite Ek. cbn.
    by rewrite (rep_fun _ _ _ Hrl' Hrl).
Qed.

Lemma NewFork_good s nm pid func fs : on_cpu s IntOn fs -> typed (cur s) IntOn fs -> room s ->
  outcome s (NewFork nm pid func).
Proof.
  intros Hs Hty Hroom. destruct (NewFork_spec s IntOn nm pid func fs Hs Hroom) as (s' & E & H1 & Hr).
  unfold outcome. rewrite E. split; [|by apply keeps_ready_step].
  destruct Hr as [Hc _]. rewrite <- Hc in *. by eapply good_push_on.
Qed.

(** Some thread runs a user program. *)
Definition has_space k : Prop := exists t th a, threads k !! t = Some th /\ space th = Some a.

Lemma space_fails s i f : match i with Begin _ | RunReturn _ | Yield | SleepLoop _ _ => True | _ => False end ->
  has_space (the_kern s) -> exec i s = Fault f -> outcome s i.
Proof. intros Hi (t & th & a & Ht & Ha) E. unfold outcome. rewrite E. by eapply mf_space. Qed.

(** From [s] to [s'] only the machine changes. *)
Definition same_but_machine s s' : Prop := the_kern s' = the_kern s /\ interrupt s' = interrupt s.

Lemma delete_space_machine (sp : option AddrSpace.AddrSpace) s s' :
  match sp with
  | Some a => m ← the_machine s; m ← AddrSpace.delete_AddrSpace a m; Ok (set_machine m s)
  | None => Ok s
  end = Ok s' -> same_but_machine s s'.
Proof.
  destruct sp as [a|]; [|by intros [= <-]]. intros E.
  apply bind_Ok_inv in E as (m & _ & E). apply bind_Ok_inv in E as (m' & _ & E). by injection E as <-.
Qed.

Lemma RestoreUserState_machine t s s' : RestoreUserState t s = Ok s' -> same_but_machine s s'.
Proof.
  intros E. apply bind_Ok_inv in E as (m & _ & E). apply bind_Ok_inv in E as (th & _ & E).
  apply bind_Ok_inv in E as (m' & _ & E). by injection E as <-.
Qed.

Lemma on_cpu_machine s s' l fs : on_cpu s l fs -> same_but_machine s s' -> on_cpu s' l fs.
Proof. intros Hs [E Ei]. eapply on_cpu_level; [exact Hs|exact E|rewrite Ei; apply Hs..]. Qed.

(** The dead thread, if any, is deleted. *)
Lemma CheckToBeDestroyed_on_cpu s l fs : calm (the_kern s) -> stacks (the_kern s) !! cur s = Some fs ->
  has_status (the_kern s) (cur s) RUNNING -> level (interrupt s) = l ->
  inHandler (interrupt s) = false ->
  match CheckToBeDestroyed s with
  | Ok s' => on_cpu s' l fs /\ cur s' = cur s /\ interrupt s' = interrupt s /\
      readyList (the_kern s') = readyList (the_kern s)
  | Fault _ => has_space (the_kern s)
  end.
Proof.
  intros Hk Hst Hrun Hl Hh. unfold CheckToBeDestroyed.
  destruct (toBeDestroyed (the_kern s)) as [d|] eqn:Hd; [|done].
  pose proof Hk as [Hpl Hlo Hco Hli]. destruct (pl_doomed _ Hpl d Hd) as (Hne & (th & Hth & Hb) & Hq & HP).
  unfold delete_Thread. rewrite (live_Some _ _ th) by done. cbn [rbind].
  destruct (match space th with Some _ => _ | None => _ end) as [s1|f] eqn:E; cbn [rbind].
  2: { destruct (space th) as [a|] eqn:Ha; [|done]. by exists d, th, a. }
  destruct (delete_space_machine _ _ _ E) as [E1 Ei]. clear E.
  unfold cur. rewrite E1. rewrite bool_decide_eq_false_2 by done. cbn [negb ASSERT rbind].
  assert (Ek : the_kern (on_kern (fun k => set_doomed k None) (on_kern (fun k => set_stacks (set_threads k
    (delete d (threads k))) (delete d (stacks k))) s1)) = set_doomed (set_stacks (set_threads (the_kern s)
    (delete d (threads (the_kern s)))) (delete d (stacks (the_kern s)))) None) by (cbn; by rewrite E1).
  set (s2 := on_kern _ _) in *. set (k' := set_doomed _ None) in *. rewrite Ek.
  split_and!; try done.
  assert (Hk' : calm k').
  { constructor; [by apply (placed_reap (the_kern s) k' d)| |done|done].
    apply (no_lost_intro (the_kern s)); [done|by left| |].
    - intros t p f Hf Hin. exists f. split; [|done]. cbn. rewrite lookup_delete_ne; [done|].
      intros ->. by apply (HP p f).
    - intros t p f _ _ (th' & Hth' & Hb'). cbn in Hth'. apply lookup_delete_Some in Hth' as [_ Hth'].
      by exists th'. }
  constructor; unfold cur; rewrite ?Ek; try done; cbn.
  - rewrite lookup_delete_ne; [exact Hst|done].
  - destruct Hrun as (th' & Hth' & Hr). exists th'. split; [|done]. cbn. by rewrite lookup_delete_ne.
  - by rewrite Ei.
  - by rewrite Ei.
Qed.

(** Before a call that [SWITCH] returns into, a thread may have to be deleted. *)
Record resumed s (l : IntStatus) fs : Prop := {
  re_calm : calm (the_kern s);
  re_stack : stacks (the_kern s) !! cur s = Some fs;
  re_status : has_status (the_kern s) (cur s) RUNNING;
  re_level : level (interrupt s) = l;
  re_handler : inHandler (interrupt s) = false;
}.

Lemma Begin_good s fs : resumed s IntOff fs -> typed (cur s) IntOn fs -> outcome s (Begin (cur s)).
Proof.
  intros Hs Hty.
  assert (E : exec (Begin (cur s)) s = (s ← CheckToBeDestroyed s; Ok ([SetLevelTo IntOn], s))).
  { cbn [exec]. unfold Begin_. by rewrite bool_decide_eq_true_2 by done. }
  pose proof (CheckToBeDestroyed_on_cpu s IntOff fs) as HC. destruct (CheckToBeDestroyed s) as [s'|f].
  2: { eapply space_fails; [done|apply HC; apply Hs|exact E]. }
  destruct HC as (H1 & Hc & _ & Hr); [apply Hs..|]. unfold outcome. rewrite E. cbn [rbind].
  split; [|by apply keeps_ready_step; [apply ready_same|]].
  rewrite <- Hc in *. by eapply good_push_on.
Qed.

Lemma RunReturn_good s fs : resumed s IntOff fs -> typed (cur s) IntOff fs -> outcome s (RunReturn (cur s)).
Proof.
  intros Hs Hty. set (c := cur s) in *. set (restore := fun s : state => th ← live (threads (the_kern s)) c;
    match space th with
    | Some a => s ← RestoreUserState c s; m ← the_machine s; m ← AddrSpace.RestoreState a m; Ok (set_machine m s)
    | None => Ok s
    end).
  assert (E : exec (RunReturn c) s = (s ← (s ← CheckToBeDestroyed s; restore s); Ok ([], s))).
  { cbn [exec]. unfold RunReturn_, interrupts_off. by rewrite bool_decide_eq_true_2 by apply Hs. }
  pose proof (CheckToBeDestroyed_on_cpu s IntOff fs) as HC. destruct (CheckToBeDestroyed s) as [s1|f] eqn:EC.
  2: { eapply space_fails; [done|apply HC; apply Hs|exact E]. }
  destruct HC as (H1 & Hc & _ & Hr); [apply Hs..|]. cbn [rbind] in E. fold c in Hc.
  destruct (oc_status _ _ _ H1) as (th & Hth & _). rewrite Hc in Hth.
  assert (Hm : match restore s1 with Ok s' => same_but_machine s1 s' | Fault _ => has_space (the_kern s) end).
  { unfold restore. rewrite (live_Some _ _ th) by done. cbn [rbind]. destruct (space th) as [a|] eqn:Ha; [|done].
    assert (Hsp : has_space (the_kern s)).
    { exists c, th, a. split; [|done]. unfold CheckToBeDestroyed in EC.
      destruct (toBeDestroyed (the_kern s)) as [d|]; [|by injection EC as ->].
      apply bind_Ok_inv in EC as (s2 & ED & EC). injection EC as <-. cbn in Hth.
      apply bind_Ok_inv in ED as (th' & _ & ED). apply bind_Ok_inv in ED as (s3 & EM & ED).
      apply delete_space_machine in EM as [EM _]. apply ASSERT_inv in ED as [_ ED]. injection ED as <-.
      cbn in Hth. apply lookup_delete_Some in Hth as [_ Hth]. by rewrite <- EM. }
    destruct (RestoreUserState c s1) as [s2|] eqn:ER; cbn [rbind]; [|done].
    apply RestoreUserState_machine in ER as [ER1 ER2].
    destruct (the_machine s2) as [m|]; cbn [rbind]; [|done].
    destruct (AddrSpace.RestoreState a m) as [m'|]; cbn [rbind]; [|done]. by split. }
  destruct (restore s1) as [s2|f]; [|by eapply space_fails].
  pose proof (on_cpu_machine _ _ _ _ H1 Hm) as H2. destruct Hm as [Em _].
  assert (Hc2 : cur s2 = c) by (unfold cur in *; by rewrite Em).
  unfold outcome. rewrite E. cbn [rbind].
  split; [|apply keeps_ready_step; [apply ready_same; [done|by rewrite Em]|done]].
  change (cur s) with c. rewrite <- Hc2 in *. by eapply good_push.
Qed.

(** *** [P]: taking a unit, or going to sleep *)

Lemma in_P_loop t p p' old fs : in_P t p' (PLoop p t old :: fs) -> p' = p.
Proof. intros (o & r & [E | [E | E]]); by injection E. Qed.

Lemma length_filter_ne (c : ptr) (W : Datatypes.list ptr) : NoDup W ->
  (length W <= S (length (filter (fun t => t <> c) W)))%nat.
Proof.
  induction 1 as [|t W Hni Hnd IH]; [simpl; lia|]. rewrite filter_cons. case_decide as Hd; simpl; [lia|].
  subst t. replace (filter (fun t => t <> c) W) with W; [simpl; lia|]. clear Hnd IH.
  induction W as [|u W IH]; [done|]. apply not_elem_of_cons in Hni as [Hne Hni].
  rewrite filter_cons_True by done. by rewrite <- IH.
Qed.

(** The thread in [P] takes a unit, or joins the queue of a semaphore at 0. *)
Lemma no_lost_loop k k' p c old fs fs' x y : placed k -> no_lost k ->
  stacks k !! c = Some (PLoop p c old :: fs) -> sems k !! p = Some x ->
  stacks k' = <[c := fs']> (stacks k) -> sems k' = <[p := y]> (sems k) ->
  (value y = s32 (value x - 1) /\ queue y = queue x /\ value x <> 0 \/ value y = 0 /\ value x = 0) ->
  (forall t, t <> c -> has_status k' t BLOCKED -> has_status k t BLOCKED) -> no_lost k'.
Proof.
  intros Hpl Hk Hc Hx Est Es Hy Hb p' z Hz t q Hr. rewrite Es in Hz. destruct (decide (p' = p)) as [->|Hne].
  - rewrite lookup_insert_eq in Hz. injection Hz as <-.
    destruct Hy as [(Hv' & Hq & Hn)|[Hv' _]].
    + rewrite Hq in Hr. destruct (Hk p x Hx t q Hr) as (W & [Hnd HW] & Hle).
      pose proof (woken_few k p (t :: q) W Hpl (conj Hnd HW)) as Hfew.
      rewrite s32_id in Hv' by (unfold is_s32; lia).
      exists (filter (fun t => t <> c) W). split; [split|].
      * by apply NoDup_filter.
      * intros u [Hu Hin]%list_elem_of_filter. destruct (HW u Hin) as (? & Hnb & f & ? & ?).
        split_and!; [done| |exists f; by rewrite Est, lookup_insert_ne]. intros Hb'. by apply Hnb, Hb.
      * pose proof (length_filter_ne c W Hnd). unfold zlen in *. lia.
    + exists []. split; [split; [constructor|by intros ? ?%not_elem_of_nil]|]. rewrite Hv'. unfold zlen. simpl. lia.
  - rewrite lookup_insert_ne in Hz by done. destruct (Hk p' z Hz t q Hr) as (W & [Hnd HW] & Hle).
    exists W. split; [split|]; [done| |done].
    intros u Hu. destruct (HW u Hu) as (? & Hnb & f & Hf & HP).
    assert (u <> c) by (intros ->; rewrite Hc in Hf; injection Hf as <-; by apply in_P_loop in HP).
    split_and!; [done| |exists f; by rewrite Est, lookup_insert_ne]. intros Hb'. by apply Hnb, Hb.
Qed.

Lemma set_push_stacks s0 s c calls fs : stacks (the_kern s) = <[c := fs]> (stacks (the_kern s0)) ->
  stacks (the_kern (push c calls s)) = <[c := calls ++ fs]> (stacks (the_kern s0)).
Proof.
  intros E. rewrite (push_stacks c calls s fs) by (by rewrite E, lookup_insert_eq).
  by rewrite E, insert_insert_eq.
Qed.

Lemma take_good s s' p old fs x : on_cpu s IntOff (PLoop p (cur s) old :: fs) -> typed (cur s) old fs ->
  sems (the_kern s) !! p = Some x -> value x <> 0 ->
  s' = set_sem p (mkSemaphore (s32 (value x - 1)) (queue x)) (set_stack (cur s) fs s) ->
  good (push (cur s) [SetLevelTo old] s').
Proof.
  intros Hs Hty Hx Hv Es. pose proof (oc_calm _ _ _ Hs) as [Hpl Hlo Hco Hli]. set (c := cur s) in *.
  set (s2 := push c [SetLevelTo old] s').
  assert (Hst : stacks (the_kern s2) = <[c := SetLevelTo old :: fs]> (stacks (the_kern s))).
  { apply (set_push_stacks s s' c [SetLevelTo old] fs). by rewrite Es. }
  assert (Hsem : sems (the_kern s2) = <[p := mkSemaphore (s32 (value x - 1)) (queue x)]> (sems (the_kern s)))
    by (by unfold s2; rewrite Es).
  assert (Hcur : currentThread (the_kern s2) = c) by (by unfold s2; rewrite Es).
  assert (Hth : threads (the_kern s2) = threads (the_kern s)) by (by unfold s2; rewrite Es).
  constructor; [| |by unfold s2; rewrite Es; apply Hs].
  - constructor; [| |by unfold s2; rewrite Es|by unfold s2; rewrite Es].
    + apply (placed_local (the_kern s) _ (SetLevelTo old :: fs)); try done; try (by unfold s2; rewrite Es).
      * by apply same_threads_eq.
      * split_and!.
        -- intros p' q (y & Hy & Hq). left. rewrite Hsem in Hy. destruct (decide (p' = p)) as [->|].
           ++ rewrite lookup_insert_eq in Hy. injection Hy as <-. by exists x.
           ++ rewrite lookup_insert_ne in Hy by done. by exists y.
        -- intros p' y Hy. left. rewrite Hsem in Hy. destruct (decide (p' = p)) as [->|].
           ++ rewrite lookup_insert_eq in Hy. injection Hy as <-. by exists x.
           ++ rewrite lookup_insert_ne in Hy by done. by exists y.
        -- intros p' Hp'. rewrite Hsem. unfold s2 in Hp'. rewrite Es in Hp'.
           rewrite lookup_insert_ne; [by apply (pl_brk_s _ Hpl)|].
           intros <-. by rewrite (pl_brk_s _ Hpl) in Hx.
      * intros p' q Hpq Hin. by destruct (running_no_queue _ Hpl (oc_status _ _ _ Hs) p' q Hpq).
    + eapply (no_lost_loop (the_kern s)); [done|done|apply Hs|exact Hx|exact Hst|exact Hsem|left; by split_and!|].
      intros t _. unfold has_status. by rewrite Hth.
  - exists (SetLevelTo old :: fs). constructor; rewrite ?Hcur.
    + by rewrite Hst, lookup_insert_eq.
    + left. split; [|by unfold s2; rewrite Es]. unfold has_status. rewrite Hth. apply Hs.
    + unfold s2. rewrite Es. cbn. change (toBeDestroyed _) with (toBeDestroyed (the_kern s)).
      rewrite (oc_doomed _ _ _ Hs). by intros [? ?].
Qed.

(** After [Sleep] the thread is in its loop. *)
Lemma asleep_good s s2 fin fs : placed (the_kern s2) ->
  no_lost (the_kern s2) -> good_conds (the_kern s2) -> good_lists (the_kern s2) ->
  currentThread (the_kern s2) = cur s -> toBeDestroyed (the_kern s2) = None ->
  level (interrupt s2) = IntOff -> inHandler (interrupt s2) = false ->
  stacks (the_kern s2) !! cur s = Some (SleepLoop (cur s) fin :: fs) ->
  typed_loop (cur s) fin fs -> has_status (the_kern s2) (cur s) BLOCKED ->
  (fin = true -> in_no_queue (the_kern s2) (cur s)) -> good s2.
Proof.
  intros Hpl Hlo Hco Hli Hc Hd Hl Hh Hst Hty Hb Hq. constructor; [by constructor| |done].
  exists (SleepLoop (cur s) fin :: fs). constructor; rewrite ?Hc, ?Hl, ?Hd; try done.
  - right. exists fin, fs. split_and!; try done; [by left|]. intros Hf. split; [done|]. by apply Hq.
Qed.

Lemma PLoop_good s p old fs : on_cpu s IntOff (PLoop p (cur s) old :: fs) -> typed (cur s) old fs ->
  outcome (set_stack (cur s) fs s) (PLoop p (cur s) old).
Proof.
  intros Hs Hty. pose proof (oc_calm _ _ _ Hs) as [Hpl Hlo Hco Hli]. set (c := cur s) in *.
  set (s0 := set_stack c fs s). eapply outcome_live; [reflexivity|done|]. intros x Hx E. cbv beta in E.
  change (sems (the_kern s) !! p = Some x) in Hx.
  destruct (Z.eqb_spec (value x) 0) as [Hz|Hz].
  2: { unfold outcome. rewrite E.
       change (cur s0) with c. split; [by eapply take_good|]. by apply keeps_ready_step; [apply ready_same|]. }
  destruct (pl_sem _ Hpl p x Hx) as (q & Hq & _). assert (HwP : waits (the_kern s) p q) by by exists x.
  assert (Hni : c ∉ q) by (intros Hin; by apply (running_no_queue _ Hpl (oc_status _ _ _ Hs) p q)).
  pose proof (Lists.Append_law _ _ c Hq) as HA. rewrite decide_False in HA by done.
  destruct HA as (Q & HA & HQ). rewrite HA in E. cbn [rbind] in E.
  unfold Sleep_ in E. rewrite bool_decide_eq_true_2 in E by done. cbn [ASSERT rbind] in E.
  unfold interrupts_off in E. rewrite bool_decide_eq_true_2 in E by apply Hs. cbn [ASSERT rbind] in E.
  unfold outcome. rewrite E. cbn [app]. split; [|by apply keeps_ready_step; [apply ready_same|]].
  set (s' := Threads.setStatus c BLOCKED _).
  change (cur s0) with c. set (s2 := push c [SleepLoop c false; PLoop p c old] s').
  set (fs2 := SleepLoop c false :: PLoop p c old :: fs).
  assert (Hst : stacks (the_kern s2) = <[c := fs2]> (stacks (the_kern s)))
    by (apply (set_push_stacks s s' c [SleepLoop c false; PLoop p c old] fs); done).
  assert (Hsem : sems (the_kern s2) = <[p := mkSemaphore (value x) Q]> (sems (the_kern s))) by done.
  destruct (placed_sleep (the_kern s) (the_kern s2) fs2) as (Hpl2 & Hb2 & _); try done; try apply Hs.
  { right. exists p, x, q, Q, old, fs. by split_and!. }
  eapply (asleep_good s s2 false (PLoop p c old :: fs)); try done; try apply Hs.
  - eapply (no_lost_loop (the_kern s)); [done|done|apply Hs|exact Hx|exact Hst|exact Hsem|by right|].
    intros t Ht (th & Hth & Hb'). exists th. split; [|done]. cbn in Hth. by rewrite lookup_alter_ne in Hth.
  - by rewrite Hst, lookup_insert_eq.
  - simpl. split_and!; try done. by exists p, old, fs.
Qed.

Lemma Finish_good s fs : on_cpu s IntOn fs -> typed (cur s) IntOn fs -> outcome s Finish.
Proof.
  intros Hs Hty. pose proof (oc_calm _ _ _ Hs) as [Hpl Hlo Hco Hli]. set (c := cur s) in *.
  unfold outcome. cbn [exec]. unfold Finish_. cbn [SetLevelOff]. unfold Sleep_.
  rewrite bool_decide_eq_true_2 by done. cbn [ASSERT rbind interrupts_off].
  rewrite ?ASSERT_true by done. cbn [rbind]. fold c.
  change (cur (ChangeLevel (level (interrupt s)) IntOff s)) with c.
  split; [|by apply keeps_ready_step; [apply ready_same|]].
  set (s' := Threads.setStatus c BLOCKED _). set (s2 := push c [SleepLoop c true] s').
  assert (Hst : stacks (the_kern s2) = <[c := SleepLoop c true :: fs]> (stacks (the_kern s)))
    by (apply (push_stacks c [SleepLoop c true] s' fs), Hs).
  destruct (placed_sleep (the_kern s) (the_kern s2) (SleepLoop c true :: fs)) as (Hpl2 & Hb2 & Hq2);
    try done; try apply Hs; [by left|].
  eapply (asleep_good s s2 true fs); try done; try apply Hs.
  - eapply (no_lost_stack (the_kern s)); [done|apply Hs|exact Hst| |by left|].
    + intros p HP. by destruct (in_P_off _ _ _ HP).
    + intros t p f Hf HP (th & Hth & Hb'). destruct (decide (t = c)) as [->|Ht].
      * pose proof (oc_stack _ _ _ Hs) as Hfs. fold c in Hfs. rewrite Hfs in Hf. injection Hf as <-.
        by destruct (in_P_off _ _ _ HP).
      * exists th. split; [|done]. cbn in Hth. by rewrite lookup_alter_ne in Hth.
  - by rewrite Hst, lookup_insert_eq.
  - intros _. by apply Hq2.
Qed.

(** *** Switching threads *)

(** The threads after [Run]: what belongs to the program of [c] is saved and [n]
    runs. *)
Definition run_threads (f : Thread -> Thread) c n (m : gmap ptr Thread) : gmap ptr Thread :=
  alter (with_status RUNNING) n (alter f c m).

Lemma SaveUserState_threads t s s' : SaveUserState t s = Ok s' ->
  interrupt s' = interrupt s /\ machine s' = machine s /\
  exists rs, the_kern s' = set_threads (the_kern s) (alter (with_registers rs) t (threads (the_kern s))).
Proof.
  intros E. apply bind_Ok_inv in E as (m & _ & E). apply bind_Ok_inv in E as (th & _ & E).
  apply bind_Ok_inv in E as (rs & _ & E). injection E as <-. split_and!; try done. by exists rs.
Qed.

Lemma Run_spec n fin s th : level (interrupt s) = IntOff -> threads (the_kern s) !! cur s = Some th ->
  (forall w, stack th = Some w -> w = STACK_FENCEPOST) ->
  toBeDestroyed (the_kern s) = None ->
  match Run n fin s with
  | Ok (calls, s') => calls = [RunReturn (cur s)] /\ interrupt s' = interrupt s /\
      exists f, harmless f /\
      the_kern s' = set_threads (set_current (set_doomed (the_kern s) (if fin : bool then Some (cur s) else None)) n)
        (run_threads f (cur s) n (threads (the_kern s)))
  | Fault _ => space th <> None
  end.
Proof.
  intros Hl Hth Hw Hd. set (c := cur s) in *.
  set (s1 := if fin then on_kern (fun k => set_doomed k (Some c)) s else s).
  assert (Ek1 : the_kern s1 = set_doomed (the_kern s) (if fin then Some c else None)).
  { unfold s1. destruct fin; [done|]. rewrite <- Hd. by destruct (the_kern s). }
  assert (Ei1 : interrupt s1 = interrupt s) by (unfold s1; by destruct fin).
  set (save := match space th with
      | Some a => s ← SaveUserState c s1; m ← the_machine s;
          Ok (set_thread c (with_space (Some (AddrSpace.SaveState (shared_table m a) m))) s)
      | None => Ok s1
      end).
  assert (E : Run n fin s = (s ← save; CheckOverflow c s ;;
    Ok ([RunReturn c], Threads.setStatus n RUNNING (on_kern (fun k => set_current k n) s)))).
  { unfold Run, interrupts_off. rewrite bool_decide_eq_true_2 by done. cbn [ASSERT rbind].
    unfold save, s1. destruct fin.
    - rewrite Hd, bool_decide_eq_true_2 by done. cbn [ASSERT rbind]. fold c. by rewrite (live_Some _ _ th).
    - cbn [rbind]. fold c. by rewrite (live_Some _ _ th). }
  rewrite E. clear E.
  assert (HO : forall f s2, harmless f -> the_kern s2 = set_threads (the_kern s1) (alter f c (threads (the_kern s1))) ->
    CheckOverflow c s2 = Ok ()).
  { intros f s2 Hf E. unfold CheckOverflow. rewrite E. cbn. rewrite (live_Some _ _ (f th)).
    - cbn [rbind]. destruct (Hf th) as [_ ->]. destruct (stack th) as [w|]; [|done].
      rewrite (Hw w eq_refl). by rewrite Z.eqb_refl.
    - rewrite lookup_alter_eq, Ek1. cbn. by rewrite Hth. }
  assert (Hsave : match save with
    | Ok s2 => interrupt s2 = interrupt s /\ exists f, harmless f /\
        the_kern s2 = set_threads (the_kern s1) (alter f c (threads (the_kern s1)))
    | Fault _ => space th <> None
    end).
  { unfold save. destruct (space th) as [a|].
    - destruct (SaveUserState c s1) as [s2|] eqn:ES; cbn [rbind]; [|done].
      apply SaveUserState_threads in ES as (Ei2 & _ & rs & Ek2).
      destruct (the_machine s2) as [m|]; cbn [rbind]; [|done]. split; [by cbn; rewrite Ei2|].
      exists (fun th => with_space (Some (AddrSpace.SaveState (shared_table m a) m)) (with_registers rs th)). split; [done|]. cbn. rewrite Ek2. cbn.
      unfold set_threads. cbn. f_equal. apply map_eq. intros j. rewrite !lookup_alter. case_decide; [|done].
      subst j. rewrite decide_True by done. by destruct (threads (the_kern s1) !! c).
    - split; [done|]. exists (fun th => th). split; [done|]. rewrite alter_id by done. by destruct (the_kern s1). }
  destruct save as [s2|]; cbn [rbind]; [|done]. destruct Hsave as (Ei2 & f & Hf & Ek2).
  rewrite (HO f s2 Hf Ek2). cbn [rbind]. split_and!; [done|done|]. exists f. split; [done|].
  cbn. rewrite Ek2, Ek1. done.
Qed.

Lemma run_threads_some f c n m t th' : harmless f -> run_threads f c n m !! t = Some th' ->
  exists th, m !! t = Some th /\ stack th' = stack th /\
    status th' = if decide (t = n) then RUNNING else status th.
Proof.
  intros Hf. unfold run_threads.
  assert (HA : forall th1, alter f c m !! t = Some th1 -> exists th, m !! t = Some th /\ stack th1 = stack th /\
    status th1 = status th).
  { intros th1. rewrite lookup_alter. case_decide; [|by exists th1]. subst.
    destruct (m !! t) as [th|]; [|done]. intros [= <-]. exists th. by destruct (Hf th). }
  rewrite lookup_alter. destruct (decide (n = t)) as [->|Hne].
  - destruct (alter f c m !! t) as [th1|]; [|done]. intros [= <-].
    destruct (HA th1 eq_refl) as (th & ? & ? & ?). exists th. by rewrite decide_True.
  - intros Hth. destruct (HA th' Hth) as (th & ? & ? & ?). exists th. by rewrite decide_False.
Qed.

Lemma run_threads_none f c n m t : run_threads f c n m !! t = None <-> m !! t = None.
Proof.
  unfold run_threads. by rewrite !lookup_alter_None.
Qed.

Lemma run_threads_awake f c n k k' t : harmless f -> threads k' = run_threads f c n (threads k) ->
  has_status k' t BLOCKED -> has_status k t BLOCKED.
Proof.
  intros Hf E (th' & Hth' & Hb). rewrite E in Hth'.
  destruct (run_threads_some _ _ _ _ _ _ Hf Hth') as (th & Hth & _ & Hs). exists th. split; [done|].
  case_decide; congruence.
Qed.

Lemma status_set_awake k st t : st <> BLOCKED -> forall n k', threads k' = status_set k n st ->
  has_status k' t BLOCKED -> has_status k t BLOCKED.
Proof.
  intros Hst n k' E (th' & Hth' & Hb). rewrite E in Hth'. unfold status_set in Hth'.
  rewrite lookup_alter in Hth'. case_decide; [|by exists th'].
  destruct (threads k !! n); [|done]. injection Hth' as <-. done.
Qed.

Lemma inv_good s : inv (the_kern s) (level (interrupt s)) -> no_lost (the_kern s) ->
  good_conds (the_kern s) -> good_lists (the_kern s) -> inHandler (interrupt s) = false -> good s.
Proof. intros [Hpl Hr] Hlo Hco Hli Hh. constructor; [by constructor|done|done]. Qed.

Lemma FindNextToRun_spec s rl : level (interrupt s) = IntOff -> Lists.rep (readyList (the_kern s)) rl ->
  match rl with
  | [] => FindNextToRun s = Ok (None, s)
  | n :: rl => exists L, Lists.rep L rl /\
      FindNextToRun s = Ok (Some n, on_kern (fun k => set_ready k L) s)
  end.
Proof.
  intros Hl Hrl. unfold FindNextToRun, interrupts_off. rewrite bool_decide_eq_true_2 by done.
  cbn [ASSERT rbind]. rewrite (Lists.IsEmpty_law _ _ Hrl). destruct rl as [|n rl]; [done|].
  rewrite bool_decide_eq_false_2 by done. destruct (Lists.RemoveFront_law _ _ Hrl) as (L & -> & HL).
  cbn [rbind]. by exists L.
Qed.

Lemma Yield_good s fs : on_cpu s IntOn fs -> typed (cur s) IntOn fs -> outcome s Yield.
Proof.
  intros Hs Hty. pose proof (oc_calm _ _ _ Hs) as [Hpl Hlo Hco Hli]. set (c := cur s) in *.
  set (k := the_kern s) in *. destruct (pl_ready _ Hpl) as (rl & Hrl & Hnd & Hiff).
  assert (Eex : exec Yield s = Yield_ s) by done. unfold Yield_ in Eex. cbn [SetLevelOff] in Eex.
  rewrite (oc_level _ _ _ Hs) in Eex. set (s1 := ChangeLevel IntOn IntOff s) in *. pose proof (FindNextToRun_spec s1 rl eq_refl Hrl) as HF.
  pose proof (oc_status _ _ _ Hs) as Hrun. fold c k in Hrun.
  assert (Hnr : c ∉ rl) by (intros Hr%Hiff; by pose proof (has_status_fun _ _ _ _ Hr Hrun)).
  destruct rl as [|n rl].
  { rewrite HF in Eex. cbn [rbind] in Eex. unfold outcome. rewrite Eex.
    split; [|by split; [intros n rl Hrl'; by pose proof (rep_fun _ _ _ Hrl' Hrl)|intros _; apply ready_same]].
    change c with (cur s1). eapply (good_push_on s1 IntOff fs); [|done|simpl; done].
    eapply on_cpu_level; [exact Hs|done|done|apply Hs]. }
  destruct HF as (L & HL & HF). rewrite HF in Eex. cbn [rbind] in Eex. set (s2 := on_kern _ s1) in *.
  unfold ReadyToRun in Eex. rewrite ASSERT_true in Eex by done.
  change (Lists.Append _ _) with (Lists.Append L c) in Eex.
  pose proof (Lists.Append_law _ _ c HL) as HA. rewrite decide_False in HA by (intros Hi; apply Hnr; by right).
  destruct HA as (L2 & HA & HL2). rewrite HA in Eex. cbn [rbind] in Eex.
  pose proof (Lists.Append_law _ _ c Hrl) as HA1. rewrite decide_False in HA1 by done.
  destruct HA1 as (L1 & _ & HL1).
  set (k1 := set_ready (set_threads k (status_set k c READY)) L1).
  assert (Hpl1 : placed k1).
  { apply (placed_self k k1 L1); try done. intros rl' Hrl'. by rewrite (rep_fun _ _ _ Hrl' Hrl). }
  set (s3 := on_kern (fun k => set_ready k L2) (Threads.setStatus (cur s) READY s2)) in *. destruct Hrun as (th & Hth & Hst).
  pose proof (Run_spec n false s3 (with_status READY th)) as HR.
  destruct (Run n false s3) as [[calls s4]|e].
  2: { apply (space_fails s Yield e); [done| |by rewrite Eex]. exists c, th.
       destruct (space th) as [a|] eqn:Ha; [by exists a|]. destruct HR; try done.
       - exact (status_set_eq k c READY th Hth).
       - intros w. apply (pl_fence _ Hpl c th w Hth).
       - apply Hs. }
  destruct HR as (-> & Hi & g & Hg & Hk4); try done.
  { exact (status_set_eq k c READY th Hth). }
  { intros w. apply (pl_fence _ Hpl c th w Hth). }
  { apply Hs. }
  unfold outcome. rewrite Eex. change (cur s3) with c in *. cbn [rbind app]. set (s5 := push c [RunReturn c; SetLevelTo IntOn] s4).
  assert (Hst5 : stacks (the_kern s5) = <[c := RunReturn c :: SetLevelTo IntOn :: fs]> (stacks k)).
  { unfold s5. rewrite (push_stacks c _ s4 fs); rewrite Hk4; [done|exact (oc_stack _ _ _ Hs)]. }
  assert (Hth5 : threads (the_kern s5) = run_threads g c n (threads k1)) by (cbn; by rewrite Hk4).
  assert (Hk5 : conds (the_kern s5) = conds k /\ slists (the_kern s5) = slists k /\ brk (the_kern s5) = brk k)
    by (cbn; rewrite Hk4; done).
  destruct Hk5 as (Ec5 & El5 & Eb5).
  split; [change (good s5)|].
  2: { split; [|intros He; by pose proof (rep_fun _ _ _ He Hrl)]. intros n' rl' Hrl'.
       pose proof (rep_fun _ _ _ Hrl' Hrl) as E. injection E as -> ->. split; [unfold cur; by rewrite Hk4|].
       exists [c]. by rewrite Hk4. }
  apply inv_good; [| |unfold good_conds; by rewrite Ec5, Eb5|unfold good_lists; by rewrite El5|
    change (interrupt s5) with (interrupt s4); rewrite Hi; apply Hs].
  - change (interrupt s5) with (interrupt s4). rewrite Hi. change (level _) with IntOff.
    apply (placed_switch k1 _ n (rl ++ [c]) L2 (SetLevelTo IntOn :: fs)); try done;
      try (by cbn; rewrite Hk4); try apply Hs.
    + intros t. rewrite Hth5. apply run_threads_none.
    + intros t th'. rewrite Hth5. by apply run_threads_some.
    + left. eexists. split; [exact (status_set_eq k c READY th Hth)|done].
    + intros p q Hpq Hin. destruct (running_no_queue k Hpl (oc_status _ _ _ Hs) p q Hpq Hin).
    + left. cbn. by rewrite Hk4.
  - eapply (no_lost_stack k); [done|apply Hs|exact Hst5| | |].
    + intros p HP. by destruct (in_P_off _ _ _ HP).
    + left. revert H1. cbn. by rewrite Hk4.
    + intros t p f _ _ Hb. apply (status_set_awake k READY t ltac:(done) c k1); [done|].
      by apply (run_threads_awake g c n k1 (the_kern s5)).
Qed.

(** The thread looks for another one to run. *)
Record looping s fin fs : Prop := {
  lo_calm : calm (the_kern s);
  lo_stack : stacks (the_kern s) !! cur s = Some fs;
  lo_typed : typed_loop (cur s) fin fs;
  lo_status : has_status (the_kern s) (cur s) BLOCKED \/ has_status (the_kern s) (cur s) READY;
  lo_finish : fin = true -> has_status (the_kern s) (cur s) BLOCKED /\ in_no_queue (the_kern s) (cur s);
  lo_doomed : toBeDestroyed (the_kern s) = None;
  lo_level : level (interrupt s) = IntOff;
  lo_handler : inHandler (interrupt s) = false;
}.

Lemma looping_in_P s fin fs p : looping s fin fs -> in_P (cur s) p fs ->
  fin = false /\ exists o r, fs = PLoop p (cur s) o :: r.
Proof.
  intros [] HP. unfold typed_loop in *. destruct fin.
  - by destruct (in_P_off _ _ _ HP).
  - destruct lo_typed0 as (_ & p' & o & r & ->). apply in_P_loop in HP as ->. eauto.
Qed.

Lemma idle_good s s' fin fs : looping s fin fs -> Idle s = Ok s' ->
  good (push (cur s) [SleepLoop (cur s) fin] s').
Proof.
  intros Hs HI. apply Idle_fired in HI as (Hl & Hh & Hk & Hw); [|apply Hs..].
  pose proof Hw as []. set (c := cur s) in *. set (s2 := push c _ s').
  assert (Hcur : currentThread (the_kern s2) = c) by exact wo_cur0.
  assert (Hst : stacks (the_kern s2) = <[c := SleepLoop c fin :: fs]> (stacks (the_kern s'))).
  { apply (push_stacks c [SleepLoop c fin] s' fs). rewrite wo_stacks0. apply Hs. }
  constructor; [| |done].
  - pose proof Hk as [Hpl _ Hco Hli].
    apply (calm_local (the_kern s') _ fs (SleepLoop c fin :: fs)); try done.
    + unfold cur in *. rewrite wo_cur0, wo_stacks0. apply Hs.
    + by apply same_threads_eq.
    + by rewrite wo_cur0.
    + by apply same_sems_eq.
    + intros p HP. rewrite wo_cur0 in *. destruct (looping_in_P s fin fs p Hs HP) as (-> & o & r & ->).
      exists o, r. auto.
  - exists (SleepLoop c fin :: fs). constructor; rewrite ?Hcur.
    + by rewrite Hst, lookup_insert_eq.
    + right. exists fin, fs. split; [done|]. split; [exact Hl|]. split; [apply Hs|]. split.
      * change (has_status (the_kern s') c BLOCKED \/ has_status (the_kern s') c READY).
        destruct (lo_status _ _ _ Hs) as [Hb|Hr]; [by apply wo_blocked0|right; by apply wo_ready0].
      * intros Hf. destruct (lo_finish _ _ _ Hs Hf) as [Hb Hq]. destruct (wo_queue0 _ Hq) as [Hq' Hb'].
        split; [by apply Hb'|exact Hq'].
    + change (toBeDestroyed (the_kern s2)) with (toBeDestroyed (the_kern s')).
      rewrite wo_doomed0, (lo_doomed _ _ _ Hs). by intros [? ?].
Qed.

Lemma dispatch_good s fin fs n rl L : looping s fin fs -> Lists.rep (readyList (the_kern s)) (n :: rl) ->
  Lists.rep L rl ->
  match Run n fin (on_kern (fun k => set_ready k L) s) with
  | Ok (calls, s') => good (push (cur s) calls s') /\ cur s' = n /\ readyList (the_kern s') = L
  | Fault _ => has_space (the_kern s)
  end.
Proof.
  intros Hs Hrl HL. pose proof (lo_calm _ _ _ Hs) as [Hpl Hlo Hco Hli]. set (c := cur s) in *.
  set (k := the_kern s) in *. set (s1 := on_kern _ s).
  assert (Hth : exists th, threads k !! c = Some th).
  { by destruct (lo_status _ _ _ Hs) as [(th & ? & _)|(th & ? & _)]; exists th. }
  destruct Hth as (th & Hth). pose proof (fun w => pl_fence _ Hpl c th w Hth) as Hw.
  pose proof (Run_spec n fin s1 th) as HR. destruct (Run n fin s1) as [[calls s4]|e].
  2: { exists c, th. destruct (space th) as [a|] eqn:Ha; [by exists a|]. by destruct HR; try apply Hs. }
  destruct HR as (-> & Hi & g & Hg & Hk4); try done; try apply Hs. change (cur s1) with c in *. set (s5 := push c _ s4).
  assert (Hst5 : stacks (the_kern s5) = <[c := RunReturn c :: fs]> (stacks k)).
  { unfold s5. rewrite (push_stacks c _ s4 fs); rewrite Hk4; [done|exact (lo_stack _ _ _ Hs)]. }
  assert (Hth5 : threads (the_kern s5) = run_threads g c n (threads k)) by (cbn; by rewrite Hk4).
  assert (Hk5 : readyList (the_kern s5) = L /\ sems (the_kern s5) = sems k /\
    conds (the_kern s5) = conds k /\ slists (the_kern s5) = slists k /\ brk (the_kern s5) = brk k /\
    currentThread (the_kern s5) = n /\ toBeDestroyed (the_kern s5) = if fin then Some c else None)
    by (cbn; rewrite Hk4; done).
  destruct Hk5 as (Er5 & Es5 & Ec5 & El5 & Eb5 & En5 & Ed5).
  split; [change (good s5)|by unfold cur; rewrite Hk4].
  apply inv_good; [| |unfold good_conds; by rewrite Ec5, Eb5|
    unfold good_lists; by rewrite El5|change (interrupt s5) with (interrupt s4); rewrite Hi; apply Hs].
  - change (interrupt s5) with (interrupt s4). rewrite Hi. change (interrupt s1) with (interrupt s).
    rewrite (lo_level _ _ _ Hs). pose proof (lo_typed _ _ _ Hs) as Hty.
    apply (placed_switch k _ n rl L fs); try done; try apply Hs.
    + rewrite Ed5. intros Hne. destruct fin; [done|]. by destruct Hty as (Hty & _).
    + intros t. rewrite Hth5. apply run_threads_none.
    + intros t th'. rewrite Hth5. by apply run_threads_some.
    + destruct (lo_status _ _ _ Hs); auto.
    + intros p q Hpq Hin. pose proof (in_P_self k c fs p q Hpl (lo_stack _ _ _ Hs) Hpq Hin) as HP.
      by destruct (looping_in_P s fin fs p Hs HP) as [_ ?].
    + destruct fin; [right|by left]. destruct (lo_finish _ _ _ Hs eq_refl) as [Hb Hq]. split_and!; try done.
      intros p [(old & [=])|HP]%in_P_pop. by destruct (looping_in_P s true fs p Hs HP).
  - eapply (no_lost_stack k); [done|apply Hs|exact Hst5| | |].
    + intros p HP. destruct (looping_in_P s fin fs p Hs HP) as (_ & o & r & ->). exists o, r. auto.
    + rewrite Es5. by left.
    + intros t p f _ _. by apply (run_threads_awake g c n).
Qed.

Lemma SleepLoop_good s fin fs : looping s fin fs -> outcome s (SleepLoop (cur s) fin).
Proof.
  intros Hs. assert (Eex : exec (SleepLoop (cur s) fin) s = SleepLoop_ (cur s) fin s) by done.
  unfold SleepLoop_ in Eex.
  destruct (pl_ready _ (ca_placed _ (lo_calm _ _ _ Hs))) as (rl & Hrl & _).
  pose proof (FindNextToRun_spec s rl (lo_level _ _ _ Hs) Hrl) as HF. destruct rl as [|n rl].
  - rewrite HF in Eex. cbn [rbind] in Eex. unfold outcome. rewrite Eex.
    destruct (Idle s) as [s'|f] eqn:HI; cbn [rbind]; [|by constructor].
    split; [by eapply idle_good|]. apply Idle_fired in HI as (_ & _ & _ & Hw); [|apply Hs..].
    split; [intros n rl Hrl'; by pose proof (rep_fun _ _ _ Hrl' Hrl)|intros _; by apply ready_woke].
  - destruct HF as (L & HL & HF). rewrite HF in Eex. cbn [rbind] in Eex. pose proof (dispatch_good s fin fs n rl L Hs Hrl HL) as HD.
    destruct (Run _ _ _) as [[calls s']|f]; [|by eapply space_fails]. unfold outcome. rewrite Eex. destruct HD as (HD & Hc & Hr). split; [done|].
    split; [|intros He; by pose proof (rep_fun _ _ _ He Hrl)]. intros n' rl' Hrl'.
    pose proof (rep_fun _ _ _ Hrl' Hrl) as E. injection E as -> ->. split; [done|].
    exists []. by rewrite Hr, app_nil_r.
Qed.

(** *** One step *)

Lemma pop_resumed s i fs : good s -> runs (the_kern s) (level (interrupt s)) (i :: fs) ->
  (forall p old, i <> PLoop p (cur s) old) -> (forall t fin, i <> SleepLoop t fin) ->
  resumed (set_stack (cur s) fs s) (level (interrupt s)) fs /\
  typed (cur s) (level (interrupt s)) (i :: fs).
Proof.
  intros [Hk _ Hh] [Hst Hrun _] Hi Hi'.
  destruct Hrun as [[Hr Hty]|(fin & rest & [= ->] & _)]; [|by destruct (Hi' (cur s) fin)].
  split; [|done]. constructor; try done; [by eapply calm_pop|]. cbn. by rewrite lookup_insert_eq.
Qed.

Lemma pop_on_cpu s i fs : good s -> runs (the_kern s) (level (interrupt s)) (i :: fs) ->
  match i with PLoop _ _ _ | SleepLoop _ _ | RunReturn _ | Begin _ => False | _ => True end ->
  on_cpu (set_stack (cur s) fs s) (level (interrupt s)) fs /\
  typed (cur s) (level (interrupt s)) (i :: fs).
Proof.
  intros Hg Hr Hi. destruct (pop_resumed s i fs Hg Hr) as [[] Hty]; [by intros ? ? ->|by intros ? ? ->|].
  split; [|done]. constructor; try done.
  change (toBeDestroyed (the_kern s) = None). pose proof (ru_doomed _ _ _ Hr) as Hd.
  destruct (toBeDestroyed (the_kern s)); [|done].
  destruct Hd as (rest & [E|E]); [by eexists|..]; injection E as -> ->; done.
Qed.

Lemma pop_looping s t fin fs : good s -> runs (the_kern s) (level (interrupt s)) (SleepLoop t fin :: fs) ->
  t = cur s /\ looping (set_stack (cur s) fs s) fin fs.
Proof.
  intros [Hk _ Hh] [Hst Hrun Hd]. set (s0 := set_stack (cur s) fs s).
  assert (Hk0 : calm (the_kern s0)) by (by eapply calm_pop).
  destruct Hrun as [[_ Hr]|(fin' & rest & E & Hl & Hty & Hb & Hf)]; [done|].
  injection E as -> <- <-. split; [done|]. constructor; try done.
  - cbn. by rewrite lookup_insert_eq.
  - change (toBeDestroyed (the_kern s) = None). destruct (toBeDestroyed (the_kern s)); [|done].
    by destruct Hd as (r & [[=]|[=]]).
Qed.

Lemma pop_PLoop s p t old fs : good s -> runs (the_kern s) (level (interrupt s)) (PLoop p t old :: fs) ->
  t = cur s /\ on_cpu s IntOff (PLoop p t old :: fs) /\ typed (cur s) old fs.
Proof.
  intros [Hk _ Hh] [Hst Hrun Hd]. destruct Hrun as [[Hr Hty]|(fin' & rest & [=] & _)].
  destruct Hty as (Ht & Hl & Hty). split; [done|]. split; [|done]. constructor; try done.
  destruct (toBeDestroyed (the_kern s)); [|done]. by destruct Hd as (r & [[=]|[=]]).
Qed.

(** The call on top of the stack keeps the invariant, or fails as it may. *)
Lemma top_good s i fs : good s -> room s -> runs (the_kern s) (level (interrupt s)) (i :: fs) ->
  outcome (set_stack (cur s) fs s) i.
Proof.
  intros Hg Hroom Hr.
  destruct (match i with PLoop _ _ _ | SleepLoop _ _ | RunReturn _ | Begin _ => false | _ => true end) eqn:Ei.
  - destruct (pop_on_cpu s i fs Hg Hr) as [Hs Hty]; [by destruct i|].
    change (cur s) with (cur (set_stack (cur s) fs s)) in Hty. pose proof Hroom as Hroom0.
    destruct i; simpl in Hty; try done; try (by eapply SetLevelTo_good);
      try match type of Hty with (_ /\ _) /\ _ => destruct Hty as [Hv Hty] end;
      destruct Hty as [Hl Hty]; rewrite Hl in Hs;
      first [by eapply simple_good | by eauto using User_good, Tick_good, NewFork_good, Finish_good,
        Yield_good, DeleteSemaphore_good, P_good, V_good, Acquired_good, Release_good, Wait_good,
        Signal_good, Broadcast_good, ListAppended_good, ListRemoveLoop_good,
        ListApplied_good, destructors_good].
  - destruct i; try done.
    + destruct (pop_resumed s _ fs Hg Hr) as [Hs (-> & Hl & Hty)]; [done..|]. rewrite Hl in Hs.
      by apply (Begin_good (set_stack (cur s) fs s) fs).
    + destruct (pop_looping s _ _ fs Hg Hr) as [-> Hs]. by apply (SleepLoop_good (set_stack (cur s) fs s) _ fs).
    + destruct (pop_resumed s _ fs Hg Hr) as [Hs (-> & Hl & Hty)]; [done..|]. rewrite Hl in Hs.
      by apply (RunReturn_good (set_stack (cur s) fs s) fs).
    + destruct (pop_PLoop s _ _ _ fs Hg Hr) as (-> & Hs & Hty). by apply PLoop_good.
Qed.

(** *** Runs *)

(** The current thread gives up the CPU to a ready one in this step. *)
Definition dispatches s : bool :=
  match stacks (the_kern s) !! cur s with
  | Some (Yield :: _) | Some (SleepLoop _ _ :: _) => negb (Lists.IsEmpty (readyList (the_kern s)))
  | _ => false
  end.

(** Steps with room for one more thread, with the number of times the CPU was given away. *)
Inductive run : nat -> state -> state -> Prop :=
| run_refl s : run 0 s s
| run_step n s s1 s2 : room s -> step s = Ok s1 -> run n s1 s2 ->
    run (if dispatches s then S n else n) s s2.

Lemma step_good s : good s -> room s ->
  match stacks (the_kern s) !! cur s with
  | Some (i :: fs) =>
      match step s with
      | Ok s' => good s' /\ exists s1, ready_step (set_stack (cur s) fs s) i s1 /\
          cur s' = cur s1 /\ readyList (the_kern s') = readyList (the_kern s1)
      | Fault f => may_fail (set_stack (cur s) fs s) i f
      end
  | _ => step s = Fault AssertFailed
  end.
Proof.
  intros Hg Hroom. pose proof (go_runs _ Hg) as (fs & Hr). pose proof (ru_stack _ _ _ Hr) as Hst.
  unfold cur in *. unfold step, cur. rewrite Hst. destruct fs as [|i fs]; [done|].
  pose proof (top_good s i fs Hg Hroom Hr) as HO. unfold outcome, cur in HO.
  destruct (exec i _) as [[calls s1]|f]; [|done]. cbn [rbind]. destruct HO as [HO HR].
  split; [done|]. by exists s1.
Qed.

Lemma step_ready s s' rl : good s -> room s -> step s = Ok s' -> Lists.rep (readyList (the_kern s)) rl ->
  good s' /\
  if dispatches s then exists n rl', rl = n :: rl' /\ cur s' = n /\
    exists more, Lists.rep (readyList (the_kern s')) (rl' ++ more)
  else cur s' = cur s /\ exists more, Lists.rep (readyList (the_kern s')) (rl ++ more).
Proof.
  intros Hg Hroom Hs Hrl. pose proof (step_good s Hg Hroom) as HS. unfold dispatches.
  destruct (stacks (the_kern s) !! cur s) as [[|i fs]|]; [congruence| |congruence].
  rewrite Hs in HS. destruct HS as (Hg' & s1 & [HR HE] & -> & ->). split; [done|].
  change (readyList (the_kern s)) with (readyList (the_kern (set_stack (cur s) fs s))) in Hrl.
  assert (Hi : Lists.IsEmpty (readyList (the_kern s)) = bool_decide (rl = [])) by by apply Lists.IsEmpty_law.
  destruct i; try (destruct HR as [Hc HR]; split; [exact Hc|by apply HR]); rewrite Hi; destruct rl as [|n rl];
    try (rewrite bool_decide_eq_true_2 by done); try (rewrite bool_decide_eq_false_2 by done); cbn [negb];
    try (destruct (HE Hrl) as [Hc HR']; split; [exact Hc|by apply HR']); exists n, rl; split; try done;
    by apply HR.
Qed.

Lemma run_good n s s' : good s -> run n s s' -> good s'.
Proof.
  intros Hg Hr. revert Hg. induction Hr as [s|n s s1 s2 Hroom Hs _ IH]; intros Hg; [done|]. apply IH.
  destruct (pl_ready _ (ca_placed _ (go_calm _ Hg))) as (rl & Hrl & _).
  by destruct (step_ready s s1 rl Hg Hroom Hs Hrl).
Qed.

Lemma run_reaches n s s' t pre post : good s -> Lists.rep (readyList (the_kern s)) (pre ++ t :: post) ->
  run n s s' -> (length pre < n)%nat ->
  exists s1, run (S (length pre)) s s1 /\ cur s1 = t.
Proof.
  intros Hg Hrl Hr. revert pre post Hg Hrl. induction Hr as [s|n s s1 s2 Hroom Hs _ IH];
    intros pre post Hg Hrl Hn; [lia|].
  destruct (step_ready s s1 _ Hg Hroom Hs Hrl) as [Hg1 HR].
  assert (Hrun : forall m s3, run m s1 s3 -> run (if dispatches s then S m else m) s s3)
    by (intros; by eapply run_step). destruct (dispatches s).
  - destruct HR as (m & rl' & E & Hc & more & Hrl1). destruct pre as [|m' pre]; injection E as -> <-.
    + exists s1. split; [|done]. apply (Hrun 0%nat). constructor.
    + rewrite <- app_assoc in Hrl1. cbn [length] in *.
      destruct (IH pre (post ++ more) Hg1 Hrl1 ltac:(lia)) as (s3 & Hr3 & Hc3). exists s3.
      split; [by apply (Hrun (S (length pre)))|done].
  - destruct HR as (_ & more & Hrl1). rewrite <- app_assoc in Hrl1.
    destruct (IH pre (post ++ more) Hg1 Hrl1 Hn) as (s3 & Hr3 & Hc3). exists s3.
    split; [by apply (Hrun (S (length pre)))|done].
Qed.

(** [room] as a test, and runs that check it. *)
Definition has_room s : bool := Z.of_nat (base.size (threads (the_kern s))) + 1 <? 2 ^ 31 - 1.

Lemma has_room_room s : has_room s = true -> room s.
Proof. apply Z.ltb_lt. Qed.

(** Steps until a condition holds. *)
Fixpoint run_until (fuel : nat) (stop : state -> bool) s : res state :=
  if stop s then Ok s
  else match fuel with
       | O => Fault OutOfFuel
       | Datatypes.S fuel => ASSERT (has_room s) ;; s ← step s; run_until fuel stop s
       end.

Lemma run_until_run fuel stop s s' : run_until fuel stop s = Ok s' ->
  stop s' = true /\ exists n, run n s s'.
Proof.
  revert s. induction fuel as [|fuel IH]; intros s; simpl; destruct (stop s) eqn:E; try done;
    try (intros [= <-]; split; [done|]; exists 0%nat; constructor).
  intros HR. apply ASSERT_inv in HR as [Hroom HR]. apply bind_Ok_inv in HR as (s1 & Hs & HR).
  destruct (IH s1 HR) as (Hst & n & Hn). split; [done|]. eexists.
  eapply run_step; [by apply has_room_room|done|done].
Qed.

(** The kernel at its start: one thread, which runs, and no objects. *)
Lemma single_thread_good s t th fs : stacks (the_kern s) = {[t := fs]} ->
  threads (the_kern s) = {[t := th]} -> currentThread (the_kern s) = t ->
  readyList (the_kern s) = Lists.new_List -> toBeDestroyed (the_kern s) = None ->
  sems (the_kern s) = ∅ -> conds (the_kern s) = ∅ -> slists (the_kern s) = ∅ ->
  (t < brk (the_kern s))%positive -> status th = RUNNING -> stack th = None ->
  typed t (level (interrupt s)) fs -> inHandler (interrupt s) = false -> good s.
Proof.
  intros Est Eth Ec Er Ed Es Eco El Hb Hst Hsk Hty Hh. set (k := the_kern s) in *.
  assert (Hno : forall p q, ~ waits k p q) by (intros p q (x & Hx & _); by rewrite Es in Hx).
  assert (Hone : forall u st, has_status k u st <-> u = t /\ st = RUNNING).
  { intros u st. unfold has_status. rewrite Eth. split.
    - intros (th' & [<- <-]%lookup_singleton_Some & <-). done.
    - intros [-> ->]. exists th. by rewrite lookup_singleton_eq. }
  constructor; fold k; [constructor| |done].
  - constructor; rewrite ?Es, ?Er, ?Ec, ?Ed, ?Eth, ?Est; try done.
    + exists []. split; [apply Lists.new_List_rep|]. split; [constructor|]. intros u. rewrite Hone.
      split; [by intros ?%not_elem_of_nil|by intros [_ ?]].
    + intros p q u Hw. by destruct (Hno p q).
    + intros p1 p2 q1 q2 u Hw. by destruct (Hno p1 q1).
    + rewrite lookup_singleton_eq. by eexists.
    + intros u th' [-> _]%lookup_singleton_Some. done.
    + intros u. destruct (decide (u = t)) as [->|].
      * by rewrite !lookup_singleton_eq.
      * by rewrite !lookup_singleton_ne.
    + intros u th' w [_ <-]%lookup_singleton_Some. by rewrite Hsk.
    + unfold few. rewrite Eth, map_size_singleton. lia.
    + intros u Hu. rewrite lookup_singleton_ne; [done|]. intros <-. lia.
  - intros p x. by rewrite Es.
  - intros c x. by rewrite Eco.
  - intros p x. by rewrite El.
  - exists fs. constructor; rewrite ?Est, ?Ec, ?Ed.
    + by rewrite lookup_singleton_eq.
    + left. split; [by apply Hone|done].
    + by intros [? ?].
Qed.

(** *** Properties *)

(** C1. The kernel never breaks its own assertions: from a well-formed state
    every step of the current thread leaves a well-formed state (each thread
    current, on the ready list once, in the queue of one semaphore, or dead and
    about to be deleted; interrupts at the level the code on its stack expects;
    no wakeup lost), and a step fails only where the code around the kernel is
    at fault: client code or a device fails, time runs out, the object called was
    deleted, a lock is released by a thread that does not hold it, an item is put
    on a list twice, the registers or the address space of a user program cannot
    be saved, restored or given back, or the main function returns. *)
Theorem step_keeps_kernel s (Hgood : good s) (Hroom : room s) :
  match step s with
  | Ok s' => good s'
  | Fault f => stacks (the_kern s) !! cur s = Some [] \/
      exists i fs, stacks (the_kern s) !! cur s = Some (i :: fs) /\
        may_fail (set_stack (cur s) fs s) i f
  end.
Proof.
  pose proof (step_good s Hgood Hroom) as HS. pose proof (go_runs _ Hgood) as (fs & Hr).
  pose proof (ru_stack _ _ _ Hr : stacks (the_kern s) !! cur s = Some fs) as Hst. rewrite Hst in *.
  destruct fs as [|i fs].
  - rewrite HS. by left.
  - destruct (step s); [by destruct HS|]. right. by exists i, fs.
Qed.

(** C2. No wakeup is lost: whenever threads wait for a semaphore, as many threads
    as its value have been woken and are about to take it: each is the current
    thread or on the ready list, inside [P] on this semaphore and out of its
    queue.  So no unit of the value is left while everybody sleeps.  The threads
    in the queue are blocked. *)
Theorem no_lost_wakeup n s s' p x t q (Hgood : good s) (Hrun : run n s s')
    (Hx : sems (the_kern s') !! p = Some x) (Hq : Lists.rep (queue x) (t :: q)) :
  0 <= value x /\ NoDup (t :: q) /\
  (forall u, u ∈ t :: q -> has_status (the_kern s') u BLOCKED) /\
  exists W rl, NoDup W /\ value x <= zlen W /\ Lists.rep (readyList (the_kern s')) rl /\
    forall u, u ∈ W -> (u = cur s' \/ u ∈ rl) /\ (u ∉ t :: q) /\
      exists fs, stacks (the_kern s') !! u = Some fs /\ in_P u p fs.
Proof.
  pose proof (run_good n s s' Hgood Hrun) as [Hk _ _]. pose proof (ca_placed _ Hk) as Hpl.
  destruct (ca_lost _ Hk p x Hx t q Hq) as (W & [Hnd HW] & [Hv Hle]).
  destruct (pl_sem _ Hpl p x Hx) as (q' & Hq' & Hndq). rewrite (rep_fun _ _ _ Hq' Hq) in Hndq.
  destruct (pl_ready _ Hpl) as (rl & Hrl & _ & Hiff).
  split; [exact Hv|]. split; [done|]. split.
  { intros u Hu. apply (pl_wait _ Hpl p (t :: q)); [by exists x|done]. }
  exists W, rl. split_and!; try done. intros u Hu. destruct (HW u Hu) as (Hni & Hnb & fs & Hfs & HP).
  split_and!; [|done|by exists fs]. destruct (decide (u = cur s')) as [|Hne]; [by left|right].
  assert (Hth : is_Some (threads (the_kern s') !! u)) by (apply (pl_dom _ Hpl); by eexists).
  destruct Hth as (th & Hth). apply Hiff. exists th. split; [done|].
  destruct (pl_others _ Hpl u th Hth Hne) as [[?|Hb] _]; [done|]. destruct Hnb. by exists th.
Qed.

(** C16. The scheduler is fair: a ready thread with [n] others before it on the
    ready list is running after the CPU has been given away [n + 1] times,
    whatever the threads and devices do. *)
Theorem ready_thread_runs n s s' t pre post (Hgood : good s)
    (Hready : Lists.rep (readyList (the_kern s)) (pre ++ t :: post)) (Hrun : run n s s')
    (Hn : (length pre < n)%nat) :
  exists s1, run (S (length pre)) s s1 /\ cur s1 = t.
Proof. by eapply run_reaches. Qed.

(** C17. [V] wakes the thread that has waited longest: it leaves the queue and goes
    to the end of the ready list; the others keep their order, the value grows
    by one (as an [int] does), and without a waiting thread nothing else changes. *)
Theorem V_wakes_longest_waiting s p x q rl (Hgood : good s)
    (Hx : sems (the_kern s) !! p = Some x) (Hq : Lists.rep (queue x) q)
    (Hready : Lists.rep (readyList (the_kern s)) rl) :
  exists s', exec (V p) s = Ok ([SetLevelTo (level (interrupt s))], s') /\
    level (interrupt s') = IntOff /\ stacks (the_kern s') = stacks (the_kern s) /\
    cur s' = cur s /\
    (forall p', p' <> p -> sems (the_kern s') !! p' = sems (the_kern s) !! p') /\
    exists x', sems (the_kern s') !! p = Some x' /\ value x' = s32 (value x + 1) /\
      Lists.rep (queue x') (tail q) /\ Lists.rep (readyList (the_kern s')) (rl ++ take 1 q) /\
      forall u, threads (the_kern s') !! u =
        (if decide (u ∈ take 1 q) then with_status READY <$> threads (the_kern s) !! u
         else threads (the_kern s) !! u).
Proof.
  pose proof (go_calm _ Hgood) as Hk.
  destruct (V_spec p s x) as (s' & E & HV & Hi); [apply Hk|done|]. exists s'.
  cbn [exec]. split; [done|]. rewrite Hi. split; [done|].
  destruct (V_kern_ok _ _ _ (ca_placed _ Hk) HV) as [_ []]. split_and!; try done.
  { intros p' Hne. destruct HV; cbn; by rewrite lookup_insert_ne. }
  destruct HV as [y Hy Hr|y t q' L Q Hy Hr HL HQ]; rewrite Hx in Hy; injection Hy as <-;
    pose proof (rep_fun _ _ _ Hr Hq) as <-; cbn; rewrite lookup_insert_eq.
  - eexists. split; [reflexivity|]. split; [done|]. split; [done|]. split; [by rewrite app_nil_r|].
    intros u. case_decide as Hu; [|done]. by apply not_elem_of_nil in Hu.
  - eexists. split; [reflexivity|]. split; [done|]. split; [done|]. split; [by apply HL|].
    intros u. unfold status_set. case_decide as Hu.
    + apply list_elem_of_singleton in Hu as ->. by rewrite lookup_alter_eq.
    + rewrite lookup_alter_ne; [done|]. intros ->. apply Hu. by left.
Qed.
End steps.
End Kernel.
