(* ===== verification/Spaces.v ===== *)
(** Address spaces in the thread machine: no two threads share a frame of
    memory, the space of the thread that runs is the one installed, and a step
    leaves the memory and the saved registers of every other thread alone. *)

From S2P Require Import Prelude Bitmap Lists Machine Interrupt HostFS AddrSpace Isolation Threads Synch Kernel.
Import Stats Interrupt Isolation Threads Synch Kernel.

Module Spaces.

(** How a piece of client code uses the machine: not at all, through the space
    of its thread, or to give the thread a space. *)
Inductive need : Set := Plain | Uses | Starts.
#[global] Instance need_eq_dec : EqDecision need.
Proof. solve_decision. Defined.

Class Needs (U : Type) := needs : U -> need.

Section defs.
Context {C U D : Type} `{Needs U}.
Abbreviation state := (Sim C (World U D)).
Implicit Types (s : state) (t : ptr) (fr : Datatypes.list nat) (fs : Datatypes.list (instr U)).

(** *** What a thread has of its own *)

(** The space and the saved registers. *)
Definition profile (th : Thread) : option AddrSpace.AddrSpace * Datatypes.list Z := (space th, userRegisters th).
Definition profiles s := profile <$> threads (the_kern s).

(** The space of thread [t] is loaded on the frames [fr]. *)
Definition owns s t fr : Prop :=
  exists a rs, profiles s !! t = Some (Some a, rs) /\ loaded a fr.

(** *** The code on a stack *)

Definition has_space (sp : option AddrSpace.AddrSpace) : Prop := exists a fr, sp = Some a /\ loaded a fr.

(** A call that never touches the machine. *)
Definition calm_call (i : instr U) : Prop :=
  match i with
  | User u => needs u = Plain
  | Begin _ => False
  | NewFork _ _ u => needs u <> Uses
  | ListApply _ f | ListApplied _ f => forall z, needs (f z) = Plain
  | _ => True
  end.
(** A call of a thread that has a space. *)
Definition safe_call (i : instr U) : Prop :=
  match i with User u => needs u <> Starts | _ => calm_call i end.

(** The calls on the stack of a thread with the space [sp]: code that uses the
    space only if there is one, and code that makes one only if there is none,
    with no such code after it. *)
Fixpoint code_ok (sp : option AddrSpace.AddrSpace) fs : Prop :=
  match fs with
  | [] => True
  | i :: fs =>
      match i with
      | Begin _ => sp = None /\ code_ok sp fs
      | User u =>
          match needs u with
          | Plain => code_ok sp fs
          | Uses => has_space sp /\ code_ok sp fs
          | Starts => sp = None /\ Forall calm_call fs
          end
      | _ => calm_call i /\ code_ok sp fs
      end
  end.

Lemma calm_code sp fs : Forall calm_call fs -> code_ok sp fs.
Proof.
  induction 1 as [|i fs Hi _ IH]; [done|]. destruct i; simpl in *; try done. by rewrite Hi.
Qed.

Lemma calm_app sp calls fs : Forall calm_call calls -> code_ok sp fs -> code_ok sp (calls ++ fs).
Proof.
  intros Hc Hfs. induction Hc as [|i calls Hi _ IH]; [done|]. destruct i; simpl in *; try done. by rewrite Hi.
Qed.

Lemma safe_app sp calls fs : has_space sp -> Forall safe_call calls -> code_ok sp fs -> code_ok sp (calls ++ fs).
Proof.
  intros Hsp Hc Hfs. induction Hc as [|i calls Hi _ IH]; [done|]. destruct i; simpl in *; try done.
  by destruct (needs u).
Qed.

(** What the code needs of the space. *)
Lemma code_ok_mono sp sp' fs : (sp = None -> sp' = None) -> (has_space sp -> has_space sp') ->
  code_ok sp fs -> code_ok sp' fs.
Proof.
  intros Hn Hh. induction fs as [|i fs IH]; [done|]. destruct i; simpl; try tauto.
  destruct (needs u); [done| |]; intros [? ?]; auto.
Qed.

(** *** The state of the machine *)

Definition on_machine (R : Machine.Machine -> Machine.Machine -> Prop) s s' : Prop :=
  match machine s, machine s' with
  | Some m, Some m' => R m m'
  | None, None => True
  | _, _ => False
  end.

(** Neither a space nor a stack nor the memory changes. *)
Definition quiet s s' : Prop :=
  profiles s' = profiles s /\ stacks (the_kern s') = stacks (the_kern s) /\ cur s' = cur s /\
  on_machine regs s s'.

Lemma quiet_refl s : quiet s s.
Proof. split_and!; try done. unfold on_machine. by destruct (machine s). Qed.
Lemma quiet_trans s1 s2 s3 : quiet s1 s2 -> quiet s2 s3 -> quiet s1 s3.
Proof.
  intros (P1 & S1 & C1 & M1) (P2 & S2 & C2 & M2). split_and!; [congruence..|].
  unfold on_machine in *. destruct (machine s1), (machine s2), (machine s3); try done. by eapply regs_trans.
Qed.

(** What is not the kernel is not looked at. *)
Lemma quiet_eq s s' : the_kern s' = the_kern s -> machine s' = machine s -> quiet s s'.
Proof.
  intros E M. unfold quiet, profiles, cur, on_machine. rewrite E, M. split_and!; try done. by destruct (machine s).
Qed.

Lemma profiles_alter t f s : (forall th, profile (f th) = profile th) -> profiles (set_thread t f s) = profiles s.
Proof.
  intros Hf. unfold profiles. cbn. apply map_eq. intros t'. rewrite !lookup_fmap, lookup_alter.
  case_decide; [subst|done]. destruct (threads (the_kern s) !! t'); simpl; [by rewrite Hf|done].
Qed.

Lemma set_thread_quiet t f s : (forall th, profile (f th) = profile th) -> quiet s (set_thread t f s).
Proof.
  intros Hf. split_and!; [by apply profiles_alter|done|done|]. unfold on_machine. cbn. by destruct (machine s).
Qed.

Lemma on_kern_quiet f s : threads (f (the_kern s)) = threads (the_kern s) ->
  stacks (f (the_kern s)) = stacks (the_kern s) -> currentThread (f (the_kern s)) = currentThread (the_kern s) ->
  quiet s (on_kern f s).
Proof.
  intros T S E. unfold quiet, profiles, cur, on_machine. cbn. rewrite T, S, E. split_and!; try done.
  by destruct (machine s).
Qed.

(** The machine has only run in the space that is installed. *)
Definition within s s' : Prop :=
  profiles s' = profiles s /\ stacks (the_kern s') = stacks (the_kern s) /\ cur s' = cur s /\
  on_machine moves s s'.

Lemma quiet_within s s' : quiet s s' -> within s s'.
Proof.
  intros (P & S & Ec & M). split_and!; [done..|]. unfold on_machine in *.
  destruct (machine s), (machine s'); try done. by apply regs_moves.
Qed.
Lemma within_refl s : within s s.
Proof. apply quiet_within, quiet_refl. Qed.
Lemma within_trans s1 s2 s3 : within s1 s2 -> within s2 s3 -> within s1 s3.
Proof.
  intros (P1 & S1 & C1 & M1) (P2 & S2 & C2 & M2). split_and!; [congruence..|].
  unfold on_machine in *. destruct (machine s1), (machine s2), (machine s3); try done. by eapply moves_trans.
Qed.

(** After a run of the machine. *)
Lemma the_machine_is s : post (the_machine s) (fun m => machine s = Some m).
Proof. unfold the_machine. by destruct (machine s). Qed.
Lemma set_machine_within s m m' : machine s = Some m -> moves m m' -> within s (set_machine m' s).
Proof. intros E Hm. split_and!; try done. unfold on_machine. by rewrite E. Qed.
End defs.

Create HintDb quiet.
#[export] Hint Extern 1 (quiet _ (on_kern _ _)) => apply on_kern_quiet; reflexivity : quiet.
#[export] Hint Extern 1 (quiet _ (set_thread _ _ _)) => apply set_thread_quiet; reflexivity : quiet.
#[export] Hint Extern 1 (quiet _ (set_sem _ _ _)) => apply on_kern_quiet; reflexivity : quiet.
#[export] Hint Extern 1 (quiet _ (set_holder _ _ _)) => apply on_kern_quiet; reflexivity : quiet.
#[export] Hint Extern 1 (quiet _ (set_waitQueue _ _ _)) => apply on_kern_quiet; reflexivity : quiet.
#[export] Hint Extern 1 (quiet _ (set_list _ _ _)) => apply on_kern_quiet; reflexivity : quiet.
#[export] Hint Extern 1 (quiet _ (return_ _ _)) => apply set_thread_quiet; reflexivity : quiet.
#[export] Hint Extern 1 (quiet _ (Threads.setStatus _ _ _)) => apply set_thread_quiet; reflexivity : quiet.
#[export] Hint Extern 2 (quiet _ _) => apply quiet_eq; reflexivity : quiet.

(** Goals of the form [quiet s s'], by the steps from [s] to [s']. *)
Ltac quieting :=
  cbn beta iota in *;
  match goal with
  | |- quiet ?s ?s => apply quiet_refl
  | |- _ => assumption
  | Q : quiet ?s1 ?s2 |- quiet ?s0 ?s2 => apply (quiet_trans s0 s1 s2); [quieting|exact Q]
  | |- quiet ?s0 (with_stats ?s _) => apply (quiet_trans s0 s); [quieting|by apply quiet_eq]
  | |- quiet ?s0 (_ ?s) => apply (quiet_trans s0 s); [quieting|solve [auto with quiet nocore]]
  end.
Ltac quiet_step := run_with ltac:(eauto 2 with quiet).

(** The same for [within]. *)
Create HintDb within.
Ltac within_ :=
  cbn beta iota in *;
  match goal with
  | |- within ?s ?s => apply within_refl
  | |- _ => assumption
  | Q : within ?s1 ?s2 |- within ?s0 ?s2 => apply (within_trans s0 s1 s2); [within_|exact Q]
  | Q : quiet ?s1 ?s2 |- within ?s0 ?s2 => apply (within_trans s0 s1 s2); [within_|apply quiet_within; exact Q]
  | |- within ?s0 (_ ?s) => apply (within_trans s0 s); [within_|apply quiet_within; solve [auto with quiet nocore]]
  end.
Ltac within_step := run_with ltac:(eauto 2 with within quiet).

(** A piece of client code that gives its thread a space: one that is loaded on
    free frames and installed, or one that could not be loaded. *)
Definition starts {C U D : Type} `{Needs U} (s s' : Sim C (World U D)) (m : Machine.Machine)
    (l : Datatypes.list bool) (calls : Datatypes.list (instr U)) : Prop :=
  stacks (the_kern s') = stacks (the_kern s) /\ cur s' = cur s /\
  exists a m', profiles s' = alter (fun p => (Some a, p.2)) (cur s) (profiles s) /\ machine s' = Some m' /\
    (a = AddrSpace.new_AddrSpace /\ m' = m /\ Forall calm_call calls \/
     exists fr, loaded a fr /\ AddrSpace.fresh_frames fr l /\
       Bitmap.rep (Machine.pageTableMap m') (AddrSpace.taken fr l) /\
       outside fr (Machine.mainMemory m) (Machine.mainMemory m') /\ runs_space fr m' /\
       length (Machine.registers m') = Z.to_nat Machine.NumTotalRegs /\ Forall safe_call calls).

(** What the client promises: handlers are quiet, and a piece of code does what
    its need says. *)
Class SpaceLaws (C U D : Type) `{EqDecision C} `{Client C U D} `{Needs U} := {
  handler_quiet (c : C) (s : Sim C (World U D)) : post (handler c s) (quiet s);
  ustep_plain (u : U) (s : Sim C (World U D)) : needs u = Plain ->
    post (ustep u s) (fun '(calls, s') => quiet s s' /\ Forall calm_call calls);
  ustep_uses (u : U) (s : Sim C (World U D)) : needs u = Uses ->
    post (ustep u s) (fun '(calls, s') => within s s' /\ Forall safe_call calls);
  ustep_starts (u : U) (s : Sim C (World U D)) m l : needs u = Starts -> machine s = Some m ->
    zlen (Machine.mainMemory m) = Machine.MemorySize -> Machine.tlb m = None ->
    length (Machine.registers m) = Z.to_nat Machine.NumTotalRegs ->
    Bitmap.rep (Machine.pageTableMap m) l -> zlen l = Machine.NumPhysPages ->
    post (ustep u s) (fun '(calls, s') => starts s s' m l calls);
}.

Section quiet.
Context {C U D : Type} `{SpaceLaws C U D}.
Abbreviation state := (Sim C (World U D)).
Implicit Types (s : state) (t : ptr) (fs : Datatypes.list (instr U)).
#[local] Hint Resolve handler_quiet : quiet.

Lemma fire_quiet s : post (fire s) (fun '(_, s') => quiet s s').
Proof. unfold fire. cbn [CallBack client_devices]. repeat quiet_step; quieting. Qed.

Lemma loop_quiet n s : post (fire_loop n s) (quiet s).
Proof.
  apply post_intro. intros s' E. revert E. unfold fire_loop. apply (loop_inv (quiet s)); [apply quiet_refl|].
  intros r x Hr E. apply bind_Ok_inv in E as ([again r1] & E & E'). injection E' as <-.
  pose proof (post_elim _ _ _ (fire_quiet r) E) as Hq. destruct again; by eapply quiet_trans.
Qed.

Lemma load_quiet m m' s : machine s = Some m -> regs m m' ->
  quiet s (mkSim (interrupt s) (stats s) (Some m') (rest s)).
Proof. intros E Hm. split_and!; try done. unfold on_machine. cbn. by rewrite E. Qed.

Lemma CheckIfDue_quiet b s : post (CheckIfDue b s) (fun '(_, s') => quiet s s').
Proof.
  unfold CheckIfDue. quiet_step. destruct (Lists.IsEmpty _); [apply quiet_refl|]. apply post_any. intros next _.
  destruct (_ && _); [apply quiet_refl|]. cbn zeta. set (s1 := if _ <? _ then _ else s).
  assert (Q1 : quiet s s1) by (unfold s1; destruct (_ <? _); [by apply quiet_eq|apply quiet_refl]). clearbody s1.
  eapply (post_bind_mono (quiet s)).
  - destruct (machine s1) as [m|] eqn:Em; [|exact Q1]. eapply post_bind_mono; [apply DelayedLoad_regs|].
    intros m' Hm. eapply quiet_trans; [exact Q1|]. by apply (load_quiet m).
  - intros s2 Q2. eapply post_bind_mono; [apply loop_quiet|]. intros s3 Q3. simpl. quieting.
Qed.
#[local] Hint Resolve CheckIfDue_quiet : quiet.

Lemma tick_quiet s : post (tick s) (quiet s).
Proof. unfold tick. cbn zeta. quiet_step. simpl. quieting. Qed.
Lemma Idle_quiet s : post (Idle s) (quiet s).
Proof. unfold Idle. repeat quiet_step; first [done|quieting]. Qed.
#[local] Hint Resolve tick_quiet Idle_quiet : quiet.

(** *** Calls that leave the spaces alone *)

Lemma ReadyToRun_quiet t s : post (ReadyToRun t s) (quiet s).
Proof. unfold ReadyToRun, Threads.setStatus. repeat quiet_step. quieting. Qed.
Lemma FindNextToRun_quiet s : post (FindNextToRun s) (fun '(_, s') => quiet s s').
Proof. unfold FindNextToRun. repeat quiet_step; quieting. Qed.
Lemma delete_Semaphore_quiet p s : post (delete_Semaphore p s) (quiet s).
Proof. unfold delete_Semaphore. repeat quiet_step. quieting. Qed.
#[local] Hint Resolve ReadyToRun_quiet FindNextToRun_quiet delete_Semaphore_quiet : quiet.
Lemma delete_Lock_quiet l s : post (delete_Lock l s) (quiet s).
Proof. unfold delete_Lock. repeat quiet_step. quieting. Qed.
Lemma delete_Condition_quiet c s : post (delete_Condition c s) (quiet s).
Proof. unfold delete_Condition. repeat quiet_step. quieting. Qed.
#[local] Hint Resolve delete_Lock_quiet delete_Condition_quiet : quiet.
Lemma delete_SynchList_quiet p s : post (delete_SynchList p s) (quiet s).
Proof. unfold delete_SynchList. repeat quiet_step. quieting. Qed.
#[local] Hint Resolve delete_SynchList_quiet : quiet.

(** A run of calm calls that ends quietly. *)
Definition calmly s (r : res (Datatypes.list (instr U) * state)) : Prop :=
  post r (fun '(calls, s') => quiet s s' /\ Forall calm_call calls).

Lemma OneTick_calm s : calmly s (OneTick_ s).
Proof. unfold OneTick_, calmly. repeat quiet_step; (split; [quieting|by repeat constructor]). Qed.
Lemma Sleep_calm t fin s : calmly s (Sleep_ t fin s).
Proof.
  unfold Sleep_, calmly, Threads.setStatus. repeat quiet_step. split; [quieting|by repeat constructor].
Qed.

Lemma V_quiet p s : post (V_ p s) (fun '(calls, s') => quiet s s' /\ calls = [SetLevelTo (level (interrupt s))]).
Proof.
  unfold V_. cbn [SetLevelOff]. apply post_any. intros x _.
  eapply (post_bind_mono (quiet s)); [repeat quiet_step; quieting|]. intros s1 Q. repeat quiet_step.
  split; [quieting|done].
Qed.
Lemma V_in_handler_quiet p s : post (V_in_handler p s) (quiet s).
Proof. unfold V_in_handler. apply post_any. intros _ _. eapply post_bind_mono; [apply V_quiet|]. by intros [calls s1] [Q _]. Qed.

Lemma calmly_from s s1 r : quiet s s1 -> calmly s1 r -> calmly s r.
Proof.
  intros Q HC. eapply post_mono; [exact HC|]. intros [calls s2] [Q2 Hc]. split; [by eapply quiet_trans|done].
Qed.

(** The calls that neither switch threads nor run client code. *)
Definition steady (i : instr U) : Prop :=
  match i with User _ | NewFork _ _ _ | Begin _ | Yield | SleepLoop _ _ | RunReturn _ => False | _ => True end.

Lemma exec_quiet i s : steady i -> calm_call i -> calmly s (exec i s).
Proof.
  intros Hi Hc. destruct i; try done; cbn [exec].
  - unfold SetLevel_. apply post_any. intros _ _. cbn zeta. case_decide.
    + eapply calmly_from; [|apply OneTick_calm]. quieting.
    + split; [quieting|constructor].
  - split; [quieting|constructor].
  - apply OneTick_calm.
  - eapply calmly_from; [|apply Sleep_calm]. quieting.
  - unfold calmly, new_Semaphore. simpl. split; [quieting|constructor].
  - unfold calmly. repeat quiet_step. split; [quieting|constructor].
  - split; [quieting|by repeat constructor].
  - unfold PLoop_. apply post_any. intros x _. case_match.
    + apply post_any. intros q _. eapply post_bind_mono; [apply Sleep_calm|]. intros [calls s1] [Q Hcalls].
      split; [eapply quiet_trans; [|exact Q]; quieting|]. apply Forall_app. by repeat constructor.
    + split; [quieting|by repeat constructor].
  - eapply post_mono; [apply V_quiet|]. intros [calls s1] [Q ->]. split; [done|by repeat constructor].
  - unfold calmly, new_Lock, new_Semaphore. simpl. split; [quieting|constructor].
  - unfold calmly. repeat quiet_step. split; [quieting|constructor].
  - unfold calmly, Acquire_. repeat quiet_step. split; [quieting|by repeat constructor].
  - unfold calmly, Acquired_. repeat quiet_step. split; [quieting|by repeat constructor].
  - unfold calmly, Release_. repeat quiet_step. split; [quieting|by repeat constructor].
  - unfold calmly, new_Condition. simpl. split; [quieting|constructor].
  - unfold calmly. repeat quiet_step. split; [quieting|constructor].
  - unfold calmly, Wait_. cbn [new_Semaphore]. repeat quiet_step. split; [quieting|by repeat constructor].
  - unfold calmly, Signal_. repeat quiet_step; (split; [quieting|by repeat constructor]).
  - unfold calmly, Broadcast_. repeat quiet_step; (split; [quieting|by repeat constructor]).
  - unfold calmly, new_SynchList, new_Lock, new_Semaphore, new_Condition. simpl. split; [quieting|constructor].
  - unfold calmly. repeat quiet_step. split; [quieting|constructor].
  - unfold calmly, ListAppend_. repeat quiet_step. split; [quieting|by repeat constructor].
  - unfold calmly, ListAppended_. repeat quiet_step. split; [quieting|by repeat constructor].
  - unfold calmly, ListRemoveFront_. repeat quiet_step. split; [quieting|by repeat constructor].
  - unfold calmly, ListRemoveLoop_. repeat quiet_step; (split; [quieting|by repeat constructor]).
  - unfold calmly, ListApply_. repeat quiet_step. split; [quieting|by repeat constructor].
  - unfold calmly, ListApplied_. apply post_any. intros x _. apply post_any. intros calls E.
    split; [quieting|]. apply Forall_app. split; [|by repeat constructor]. revert E. unfold Lists.Apply.
    apply (loop_inv (fun '(_, calls) => Forall calm_call calls)); [constructor|].
    intros [[p|] cs] r Hcs E; [|by injection E as <-]. apply bind_Ok_inv in E as ([q e] & _ & E).
    cbn [rbind] in E. injection E as <-. apply Forall_app. split; [done|]. repeat constructor. apply Hc.
Qed.
End quiet.

Section invariant.
Context {C U D : Type} `{Needs U}.
Abbreviation state := (Sim C (World U D)).
Implicit Types (s : state) (t : ptr) (fr : Datatypes.list nat) (fs : Datatypes.list (instr U)) (m : Machine.Machine)
  (l : Datatypes.list bool).

(** *** The invariant *)

(** The frames of loaded spaces are marked in the map [l]. *)
Record frames_ok s m l : Prop := {
  fo_machine : machine s = Some m;
  fo_memory : zlen (Machine.mainMemory m) = Machine.MemorySize;
  fo_tlb : Machine.tlb m = None;
  fo_regs : length (Machine.registers m) = Z.to_nat Machine.NumTotalRegs;
  fo_map : Bitmap.rep (Machine.pageTableMap m) l;
  fo_length : zlen l = Machine.NumPhysPages;
  fo_marked t fr f : owns s t fr -> f ∈ fr -> l !! f = Some true;
}.

(** No frame has two owners; a space that is not loaded is as its constructor
    leaves it. *)
Record apart s : Prop := {
  ap_frames : exists m l, frames_ok s m l;
  ap_space t a rs : profiles s !! t = Some (Some a, rs) -> a = AddrSpace.new_AddrSpace \/ exists fr, loaded a fr;
  ap_regs t sp rs : profiles s !! t = Some (sp, rs) -> length rs = Z.to_nat Machine.NumTotalRegs;
  ap_disjoint t t' fr fr' f : owns s t fr -> owns s t' fr' -> f ∈ fr -> f ∈ fr' -> t = t';
}.

Definition installed fr s : Prop := exists m, machine s = Some m /\ runs_space fr m.
Definition stacks_ok s : Prop := forall t fs sp rs,
  stacks (the_kern s) !! t = Some fs -> profiles s !! t = Some (sp, rs) -> code_ok sp fs.

(** The current thread has the calls [fs] left, and its space, if any, is
    installed. *)
Record on_space s fs : Prop := {
  os_apart : apart s;
  os_code : stacks_ok s;
  os_stack : stacks (the_kern s) !! cur s = Some fs;
  os_installed fr : owns s (cur s) fr -> installed fr s;
}.

(** Between two steps: the space may still be to be restored. *)
Record settled s : Prop := {
  se_apart : apart s;
  se_code : stacks_ok s;
  se_installed fr : owns s (cur s) fr ->
    (exists fs, stacks (the_kern s) !! cur s = Some (RunReturn (cur s) :: fs)) \/ installed fr s;
}.

(** Nothing of thread [t] that has a loaded space changes, unless it is deleted. *)
Definition same_bytes fr s s' : Prop := forall m m', machine s = Some m -> machine s' = Some m' ->
  forall k, (k / AddrSpace.page)%nat ∈ fr -> Machine.mainMemory m' !! k = Machine.mainMemory m !! k.
Definition spares t s s' : Prop := forall fr, owns s t fr ->
  profiles s' !! t = None \/ profiles s' !! t = profiles s !! t /\ same_bytes fr s s'.
Definition spares_others s s' : Prop := forall t, t <> cur s -> spares t s s'.

(** The registers and the table are in the thread that had the CPU. *)
Definition saved s s' : Prop := machine s' = machine s /\ forall m fr, machine s = Some m -> owns s (cur s) fr ->
  exists a, profiles s' !! cur s = Some (Some a, Machine.registers m) /\ loaded a fr /\
    AddrSpace.pageTable a = Machine.pageTable m.
(** Thread [t] goes on from [SWITCH], or begins. *)
Definition waiting s t : Prop := exists rest, stacks (the_kern s) !! t = Some (RunReturn t :: rest) \/
  stacks (the_kern s) !! t = Some (Begin t :: rest).
(** The CPU goes to a waiting thread, and the state of the old one is saved. *)
Definition hands_over s s' : Prop := cur s' = cur s \/ saved s s' /\ waiting s' (cur s').

(** *** How it is kept *)

Lemma owns_same s s' t fr : profiles s' !! t = profiles s !! t -> owns s' t fr <-> owns s t fr.
Proof. unfold owns. intros ->. done. Qed.

Lemma owns_fun s t fr fr' : owns s t fr -> owns s t fr' -> fr = fr'.
Proof. intros (a & rs & E & Hl) (a' & rs' & E' & Hl'). simplify_eq. by eapply loaded_inj. Qed.

Lemma owns_has s t fr sp rs : owns s t fr -> profiles s !! t = Some (sp, rs) -> has_space sp.
Proof. intros (a & rs' & E & Hl) E'. simplify_eq. by exists a, fr. Qed.

Lemma has_owns s t sp rs : has_space sp -> profiles s !! t = Some (sp, rs) -> exists fr, owns s t fr.
Proof. intros (a & fr & -> & Hl) E. by exists fr, a, rs. Qed.

(** The machine after [regs]. *)
Lemma frames_ok_regs s s' m l : frames_ok s m l -> profiles s' = profiles s -> on_machine regs s s' ->
  exists m', frames_ok s' m' l /\ regs m m'.
Proof.
  intros [] Hp Hm. unfold on_machine in Hm. rewrite fo_machine0 in Hm.
  destruct (machine s') as [m'|] eqn:E; [|done]. exists m'. split; [|done].
  destruct Hm as (L & M & B & T & _ & _). constructor; rewrite ?M, ?B, ?T, ?L; try done.
  intros t fr f Ho. apply (fo_marked0 t). unfold owns in *. by rewrite <- Hp.
Qed.

Lemma apart_quiet s s' : apart s -> profiles s' = profiles s -> on_machine regs s s' -> apart s'.
Proof.
  intros [(m & l & Hf) ? ? ?] Hp Hm.
  assert (Ho : forall t fr, owns s' t fr <-> owns s t fr) by (intros; apply owns_same; by rewrite Hp).
  constructor; rewrite ?Hp; try done.
  - destruct (frames_ok_regs s s' m l Hf Hp Hm) as (m' & Hf' & _). by exists m', l.
  - intros t t' fr fr' f. rewrite !Ho. by apply ap_disjoint0.
Qed.

Lemma installed_regs fr s s' : installed fr s -> on_machine regs s s' -> installed fr s'.
Proof.
  intros (m & E & Hr) Hm. unfold on_machine in Hm. rewrite E in Hm.
  destruct (machine s') as [m'|] eqn:E'; [|done]. exists m'. split; [done|]. by apply (regs_moves m m').
Qed.

Lemma on_space_quiet s s' fs : on_space s fs -> quiet s s' -> on_space s' fs.
Proof.
  intros [] (Hp & Hs & Hc & Hm). constructor.
  - by eapply apart_quiet.
  - intros t fs' sp rs. rewrite Hs, Hp. apply os_code0.
  - by rewrite Hs, Hc.
  - intros fr Ho. eapply installed_regs; [|exact Hm]. apply os_installed0.
    rewrite <- Hc. by apply (owns_same s s'); [rewrite Hp|].
Qed.

Lemma same_bytes_eq fr s s' : on_machine regs s s' -> same_bytes fr s s'.
Proof. unfold on_machine. intros Hm m m' E E' k _. rewrite E, E' in Hm. destruct Hm as (_ & -> & _). done. Qed.

Lemma quiet_spares s s' : quiet s s' -> spares_others s s'.
Proof. intros (Hp & _ & _ & Hm) t _ fr _. right. rewrite Hp. split; [done|by apply same_bytes_eq]. Qed.

(** The stack of the current thread is looked at by the code invariant alone. *)
Lemma set_stack_profiles t fs s : profiles (set_stack t fs s) = profiles s.
Proof. done. Qed.
Lemma push_profiles t fs s : profiles (push t fs s) = profiles s.
Proof. done. Qed.

Lemma push_settled s fs calls : on_space s fs -> (forall sp rs, profiles s !! cur s = Some (sp, rs) ->
    code_ok sp (calls ++ fs)) -> settled (push (cur s) calls s).
Proof.
  intros [] Hc. constructor.
  - eapply (apart_quiet s); [done|done|]. unfold on_machine. cbn. by destruct (machine s).
  - intros t fs' sp rs. cbn. rewrite lookup_alter. case_decide; [subst t|by apply os_code0].
    rewrite os_stack0. intros [= <-]. apply Hc.
  - intros fr Ho. right. by apply os_installed0.
Qed.

Lemma push_calm s fs calls : on_space s fs -> Forall calm_call calls -> settled (push (cur s) calls s).
Proof.
  intros Hs Hc. eapply push_settled; [done|]. intros sp rs E. apply calm_app; [done|].
  destruct Hs. by eapply os_code0.
Qed.

Lemma on_space_settled s fs : on_space s fs -> settled s.
Proof. intros []. constructor; [done..|]. intros fr Ho. right. by apply os_installed0. Qed.

(** The top call is popped. *)
Lemma pop_apart s fs : settled s -> apart (set_stack (cur s) fs s).
Proof. intros []. eapply (apart_quiet s); [done|done|]. unfold on_machine. cbn. by destruct (machine s). Qed.

Lemma pop_code s fs : settled s -> (forall sp rs, profiles s !! cur s = Some (sp, rs) -> code_ok sp fs) ->
  stacks_ok (set_stack (cur s) fs s).
Proof.
  intros [] Hc t fs' sp rs. cbn. rewrite lookup_insert. case_decide; [subst t; intros [= <-]; apply Hc|].
  apply se_code0.
Qed.

Lemma pop_on_space s i fs : settled s -> stacks (the_kern s) !! cur s = Some (i :: fs) ->
  match i with RunReturn _ => False | _ => True end ->
  (forall sp rs, profiles s !! cur s = Some (sp, rs) -> code_ok sp fs) ->
  on_space (set_stack (cur s) fs s) fs.
Proof.
  intros Hs Hst Hi Hc. constructor.
  - by apply pop_apart.
  - by apply pop_code.
  - cbn. by rewrite lookup_insert_eq.
  - intros fr Ho. destruct (se_installed _ Hs fr Ho) as [(fs' & E)|Hin]; [|exact Hin].
    rewrite Hst in E. injection E as -> _. done.
Qed.
End invariant.

Section steps.
Context {C U D : Type} `{SpaceLaws C U D}.
Abbreviation state := (Sim C (World U D)).
Implicit Types (s : state) (t : ptr) (fr : Datatypes.list nat) (fs : Datatypes.list (instr U)) (m : Machine.Machine)
  (l : Datatypes.list bool).

(** The rest of a step: the calls go on the stack of the thread that made it. *)
Definition stays s (r : res (Datatypes.list (instr U) * state)) : Prop :=
  post r (fun '(calls, s') => settled (push (cur s) calls s') /\ spares_others s s' /\ hands_over s s').

Lemma calmly_stays s fs r : on_space s fs -> calmly s r -> stays s r.
Proof.
  intros Hs HC. eapply post_mono; [exact HC|]. intros [calls s'] [Q Hc]. pose proof Q as (_ & _ & Ec & _).
  split; [|split; [by apply quiet_spares|by left]]. rewrite <- Ec. eapply push_calm; [by eapply on_space_quiet|done].
Qed.

(** Code in a space: the frames of the others are not its own. *)
Lemma uses_stays u s fs : needs u = Uses -> on_space s fs -> (forall sp rs, profiles s !! cur s = Some (sp, rs) ->
    has_space sp) -> is_Some (profiles s !! cur s) -> stays s (exec (User u) s).
Proof.
  intros Hu Hs Hsp [[sp rs] Hp]. destruct (has_owns s (cur s) sp rs) as [fr Ho]; [by eapply Hsp|done|].
  cbn [exec]. eapply post_mono; [by apply ustep_uses|]. intros [calls s'] ((Ep & Es & Ec & Hm) & Hc).
  destruct (os_installed _ _ Hs fr Ho) as (m & Em & Hr). unfold on_machine in Hm. rewrite Em in Hm.
  destruct (machine s') as [m'|] eqn:Em'; [|done]. destruct Hm as (L & B & Hr'). destruct (Hr' fr Hr) as [Hr1 HO].
  assert (Hos : forall t fr, owns s' t fr <-> owns s t fr) by (intros; apply owns_same; by rewrite Ep).
  destruct Hs as [[(m0 & l & Hf) ? ? Hd] Hcode Hst _]. pose proof (fo_machine _ _ _ Hf) as E0. simplify_eq.
  split.
  - rewrite <- Ec. apply (push_settled s' fs).
    + constructor.
      * constructor; rewrite ?Ep; try done.
        -- exists m', l. destruct Hf. constructor; try done; try apply Hr1; [congruence|congruence|].
           intros t fr' f. rewrite Hos. apply fo_marked0.
        -- intros t t' fr1 fr2 f. rewrite !Hos. apply Hd.
      * intros t fs' sp' rs'. rewrite Es, Ep. apply Hcode.
      * by rewrite Es, Ec.
      * intros fr' Ho'. exists m'. split; [done|]. rewrite Hos, Ec in Ho'. by rewrite (owns_fun _ _ _ _ Ho' Ho).
    + intros sp' rs' E. rewrite Ep, Ec in E. apply safe_app; [by eapply Hsp|done|]. by eapply Hcode.
  - split; [|by left]. intros t Ht fr' Ho'. right. rewrite Ep. split; [done|]. intros m1 m2 E1 E2 k Hk. simplify_eq.
    apply (proj2 HO). intros Hin. apply Ht. by eapply Hd.
Qed.

(** A thread without a space is given the space [a]. *)
Section starting.
Context (s s' : state) (m m' : Machine.Machine) (l : Datatypes.list bool) (fs calls : Datatypes.list (instr U))
  (rs : Datatypes.list Z) (a : AddrSpace.AddrSpace).
Hypotheses (Hs : on_space s fs) (Hf : frames_ok s m l) (Hp : profiles s !! cur s = Some (None, rs))
  (Hfs : Forall calm_call fs) (Hcur : profiles s' !! cur s = Some (Some a, rs))
  (Hne : forall t, t <> cur s -> profiles s' !! t = profiles s !! t)
  (Es : stacks (the_kern s') = stacks (the_kern s)) (Ec : cur s' = cur s) (Em : machine s' = Some m').

Lemma owns_others t fr : t <> cur s -> owns s' t fr <-> owns s t fr.
Proof. intros Hn. by apply owns_same, Hne. Qed.
Lemma owns_new fr : owns s' (cur s) fr -> loaded a fr.
Proof. intros (a' & rs' & E & Hl). by simplify_eq. Qed.

(** What is left to show: the owners of frames, and what the space is. *)
Lemma given_apart : (exists l', frames_ok s' m' l') -> (a = AddrSpace.new_AddrSpace \/ exists fr, loaded a fr) ->
  (forall t t' fr fr' f, owns s' t fr -> owns s' t' fr' -> f ∈ fr -> f ∈ fr' -> t = t') -> apart s'.
Proof.
  intros [l' Hf'] Ha Hd. destruct (os_apart _ _ Hs) as [_ Hsp Hrs _]. constructor; [by exists m', l'| | |done].
  - intros t a' rs'. destruct (decide (t = cur s)) as [->|Hn]; [by rewrite Hcur; intros [= <- <-]|].
    rewrite Hne by done. apply Hsp.
  - intros t sp' rs'. destruct (decide (t = cur s)) as [->|Hn]; [|rewrite Hne by done; apply Hrs].
    rewrite Hcur. intros [= <- <-]. by eapply Hrs.
Qed.

Lemma given_settled : apart s' -> (forall fr, owns s' (cur s) fr -> installed fr s') ->
  code_ok (Some a) (calls ++ fs) -> settled (push (cur s) calls s').
Proof.
  intros HA HI HC. rewrite <- Ec. apply (push_settled s' fs).
  - constructor; rewrite ?Ec; [done| |by rewrite Es; apply Hs|done]. intros t fs' sp' rs'. rewrite Es.
    destruct (decide (t = cur s)) as [->|Hn]; [|rewrite Hne by done; apply Hs].
    destruct Hs as [_ _ Hst _]. rewrite Hst. intros [= <-] _. by apply calm_code.
  - rewrite Ec, Hcur. by intros sp' rs' [= <- <-].
Qed.

(** The program could not be loaded. *)
Lemma failed_stays : a = AddrSpace.new_AddrSpace -> m' = m -> Forall calm_call calls ->
  settled (push (cur s) calls s') /\ spares_others s s'.
Proof using Type*.
  intros Ha Hm Hc. assert (Hno : forall fr, ~ owns s' (cur s) fr).
  { intros fr (_ & _ & pt & E & _)%owns_new. by rewrite Ha in E. }
  assert (Ho : forall t fr, owns s' t fr -> owns s t fr).
  { intros t fr Ho. destruct (decide (t = cur s)) as [->|Hn]; [by destruct (Hno fr)|by apply owns_others]. }
  split.
  - apply given_settled; [|intros fr Ho'; by destruct (Hno fr)|by apply calm_code, Forall_app]. apply given_apart; [|by left|].
    + exists l. rewrite Hm. destruct Hf. constructor; try done; [by rewrite Em, Hm|].
      intros t fr f Ho'. by apply (fo_marked0 t), Ho.
    + intros t t' fr fr' f H1' H2'. apply (ap_disjoint _ (os_apart _ _ Hs)); by apply Ho.
  - intros t Ht fr Ho'. right. rewrite Hne by done. split; [done|]. intros m1 m2 E1 E2 k _.
    pose proof (fo_machine _ _ _ Hf). by simplify_eq.
Qed.

(** The new space is on frames that were free, so they are nobody else's. *)
Context (fr : Datatypes.list nat) (Hl : loaded a fr) (Hff : AddrSpace.fresh_frames fr l)
  (Hr : Bitmap.rep (Machine.pageTableMap m') (AddrSpace.taken fr l))
  (HO : outside fr (Machine.mainMemory m) (Machine.mainMemory m')) (Hrun : runs_space fr m')
  (Hreg : length (Machine.registers m') = Z.to_nat Machine.NumTotalRegs).

Lemma fresh_free t fr' f : owns s t fr' -> f ∈ fr' -> f ∉ fr.
Proof using Hf Hff.
  intros Ho Hin Hin'. pose proof (fo_marked _ _ _ Hf t fr' f Ho Hin) as E.
  destruct Hff as [_ Hfree]. rewrite Forall_forall in Hfree. specialize (Hfree f Hin'). congruence.
Qed.
Lemma owns_mine fr' : owns s' (cur s) fr' -> fr' = fr.
Proof using Hcur Hl. intros Ho. by apply (loaded_inj a), Hl; apply owns_new. Qed.

Lemma loaded_marked t fr' f : owns s' t fr' -> f ∈ fr' -> AddrSpace.taken fr l !! f = Some true.
Proof using Type*.
  intros Ho Hin. assert (Hlt : is_Some (AddrSpace.taken fr l !! f)).
  { apply lookup_lt_is_Some. rewrite AddrSpace.length_taken. destruct (decide (t = cur s)) as [->|Hn].
    - rewrite (owns_mine _ Ho) in Hin. destruct Hff as [_ Hfree]. rewrite Forall_forall in Hfree.
      by eapply lookup_lt_Some, Hfree.
    - apply owns_others in Ho; [|done]. by eapply lookup_lt_Some, (fo_marked _ _ _ Hf). }
  destruct Hlt as [x Hx]. rewrite Hx. destruct (AddrSpace.taken_lookup _ _ _ _ Hx) as [[_ ->]|[Hni Hx']]; [done|].
  destruct (decide (t = cur s)) as [->|Hn]; [by rewrite (owns_mine _ Ho) in Hin|].
  apply owns_others in Ho; [|done]. rewrite <- Hx'. by apply (fo_marked _ _ _ Hf t fr').
Qed.

Lemma loaded_stays : Forall safe_call calls -> settled (push (cur s) calls s') /\ spares_others s s'.
Proof using Type*.
  intros Hc. split.
  - apply given_settled; [|intros fr' ->%owns_mine; by exists m'|apply safe_app; [by exists a, fr|done|by apply calm_code]].
    apply given_apart; [|right; by exists fr|].
    + exists (AddrSpace.taken fr l). pose proof Hf as []. pose proof Hrun as []. constructor; try done;
        [unfold zlen in *; by rewrite AddrSpace.length_taken|apply loaded_marked].
    + intros t t' fr1 fr2 f Ho Ho' Hin Hin'. destruct (decide (t = t')); [done|].
      destruct (decide (t = cur s)) as [->|Hn]; [|destruct (decide (t' = cur s)) as [->|Hn']].
      * apply owns_others in Ho'; [|done]. rewrite (owns_mine _ Ho) in Hin. by destruct (fresh_free t' fr2 f).
      * apply owns_others in Ho; [|done]. rewrite (owns_mine _ Ho') in Hin'. by destruct (fresh_free t fr1 f).
      * apply owns_others in Ho, Ho'; [|done..]. by apply (ap_disjoint _ (os_apart _ _ Hs) t t' fr1 fr2 f).
  - intros t Ht fr' Ho. right. rewrite Hne by done. split; [done|]. intros m1 m2 E1 E2 k Hk.
    pose proof (fo_machine _ _ _ Hf) as E0. rewrite E0 in E1. rewrite Em in E2. injection E1 as <-. injection E2 as <-.
    apply (proj2 HO). by eapply fresh_free.
Qed.
End starting.

Lemma starts_stays u s fs rs : needs u = Starts -> on_space s fs -> profiles s !! cur s = Some (None, rs) ->
  Forall calm_call fs -> stays s (exec (User u) s).
Proof.
  intros Hu Hs Hp Hfs. destruct (ap_frames _ (os_apart _ _ Hs)) as (m & l & Hf). cbn [exec].
  eapply post_mono; [eapply (ustep_starts u s m l); apply Hf || done|].
  intros [calls s'] (Es & Ec & a & m' & Ep & Em & Hcase).
  assert (Hcur : profiles s' !! cur s = Some (Some a, rs)) by (rewrite Ep, lookup_alter_eq, Hp; done).
  assert (Hne : forall t, t <> cur s -> profiles s' !! t = profiles s !! t) by (intros; rewrite Ep; by apply lookup_alter_ne).
  apply and_assoc. split; [|by left].
  destruct Hcase as [(? & ? & Hc)|(fr & ? & ? & ? & ? & ? & ? & ?)];
    [by eapply (failed_stays s s' m m')|by eapply (loaded_stays s s' m m')].
Qed.

(** *** A new thread *)

Lemma profiles_lookup s t sp rs : profiles s !! t = Some (sp, rs) ->
  exists th, threads (the_kern s) !! t = Some th /\ space th = sp /\ userRegisters th = rs.
Proof.
  unfold profiles. rewrite lookup_fmap. destruct (threads (the_kern s) !! t) as [th|]; [|done].
  intros [= <- <-]. by exists th.
Qed.
Lemma lookup_profiles s t th : threads (the_kern s) !! t = Some th -> profiles s !! t = Some (space th, userRegisters th).
Proof. unfold profiles. rewrite lookup_fmap. by intros ->. Qed.

(** A thread without a space is added. *)
Lemma add_thread s s' fs t rs calls : on_space s fs -> profiles s !! t = None -> stacks (the_kern s) !! t = None ->
  length rs = Z.to_nat Machine.NumTotalRegs -> code_ok None calls ->
  profiles s' = <[t := (None, rs)]> (profiles s) -> stacks (the_kern s') = <[t := calls]> (stacks (the_kern s)) ->
  cur s' = cur s -> machine s' = machine s -> on_space s' fs /\ spares_others s s'.
Proof.
  intros [] Hp Hst Hrs Hc Ep Es Ec Em. destruct os_apart0 as [(m & l & Hf) ? ? ?].
  assert (Hne : forall u, u <> t -> profiles s' !! u = profiles s !! u) by (intros; rewrite Ep; by apply lookup_insert_ne).
  assert (Ht : profiles s' !! t = Some (None, rs)) by (rewrite Ep; apply lookup_insert_eq).
  assert (Hno : forall fr, ~ owns s' t fr) by (intros fr (a & rs' & E & _); congruence).
  assert (Hon : forall u fr, owns s' u fr -> owns s u fr).
  { intros u fr Ho. destruct (decide (u = t)) as [->|Hn]; [by destruct (Hno fr)|]. by apply (owns_same s s'), Ho; rewrite Hne. }
  assert (Hcur : cur s <> t) by (intros E; rewrite E in os_stack0; congruence).
  split; [constructor|].
  - constructor.
    + exists m, l. destruct Hf. constructor; rewrite ?Em; try done. intros u fr f Ho. apply (fo_marked0 u fr f). by apply Hon.
    + intros u a rs'. destruct (decide (u = t)) as [->|Hn]; [congruence|]. rewrite Hne by done. apply ap_space0.
    + intros u sp rs'. destruct (decide (u = t)) as [->|Hn]; [rewrite Ht; by intros [= <- <-]|].
      rewrite Hne by done. apply ap_regs0.
    + intros u u' fr fr' f Ho Ho'. apply (ap_disjoint0 u u' fr fr' f); by apply Hon.
  - intros u fs' sp rs'. rewrite Es. destruct (decide (u = t)) as [->|Hn].
    + rewrite lookup_insert_eq, Ht. by intros [= <-] [= <- <-].
    + rewrite lookup_insert_ne, Hne by done. apply os_code0.
  - rewrite Es, Ec. by rewrite lookup_insert_ne.
  - intros fr Ho. rewrite Ec in Ho. destruct (os_installed0 fr (Hon _ _ Ho)) as (m0 & E & Hr). exists m0. by rewrite Em.
  - intros u Hu fr Ho. right. assert (u <> t) by (intros ->; destruct Ho as (? & ? & ? & _); congruence).
    rewrite Hne by done. split; [done|]. intros m1 m2 E1 E2. rewrite Em, E1 in E2. by injection E2 as <-.
Qed.

Lemma NewFork_on_space nm pid u s fs : needs u <> Uses -> on_space s fs ->
  threads (the_kern s) !! brk (the_kern s) = None -> stacks (the_kern s) !! brk (the_kern s) = None ->
  post (exec (NewFork nm pid u) s) (fun '(calls, s') => on_space s' fs /\ spares_others s s' /\ cur s' = cur s /\
    Forall calm_call calls).
Proof.
  intros Hu Hs Ht Hst. cbn [exec new_Thread]. unfold Fork. cbn [SetLevelOff].
  set (t := brk (the_kern s)) in *. set (s1 := StackAllocate _ _ _).
  destruct (add_thread s s1 fs t (replicate (Z.to_nat Machine.NumTotalRegs) 0) [Begin t; User u; Finish]) as [Hs1 HS]; try done.
  - unfold profiles. rewrite lookup_fmap. by rewrite Ht.
  - simpl. split; [done|]. destruct (needs u); [done|done|]. split; [done|]. by repeat constructor.
  - unfold profiles. cbn. rewrite alter_insert_eq, fmap_insert. done.
  - eapply post_bind_mono; [apply ReadyToRun_quiet|]. intros s2 Q. simpl.
    assert (Q1 : quiet s1 s2) by (eapply quiet_trans; [|exact Q]; quieting).
    pose proof (on_space_quiet _ _ _ Hs1 Q1) as Hs2. pose proof Q1 as (Ep & _ & Ec & Hm).
    split; [done|]. split; [|split; [by rewrite Ec|by repeat constructor]].
    intros v Hv fr Ho. destruct (HS v Hv fr Ho) as [E|[E _]]; [left; by rewrite Ep|]. right. rewrite Ep, E.
    split; [done|]. intros m m' Em Em'. by eapply (same_bytes_eq fr s1 s2).
Qed.

Lemma NewFork_stays nm pid u s fs : needs u <> Uses -> on_space s fs ->
  threads (the_kern s) !! brk (the_kern s) = None -> stacks (the_kern s) !! brk (the_kern s) = None ->
  stays s (exec (NewFork nm pid u) s).
Proof.
  intros Hu Hs Ht Hst. eapply post_mono; [by eapply NewFork_on_space|]. intros [calls s'] (Hs' & HS & Ec & Hc).
  split; [|split; [done|by left]]. rewrite <- Ec. by eapply push_calm.
Qed.

(** *** Deleting a thread *)

(** Only dead threads are gone, with their stacks. *)
Record reaped s s' : Prop := {
  rp_apart : apart s';
  rp_code : stacks_ok s';
  rp_cur : cur s' = cur s;
  rp_stack : stacks (the_kern s') !! cur s = stacks (the_kern s) !! cur s;
  rp_mine : profiles s' !! cur s = profiles s !! cur s;
  rp_others t : profiles s' !! t = None \/ profiles s' !! t = profiles s !! t;
  rp_machine : exists m m', machine s = Some m /\ machine s' = Some m' /\
    Machine.mainMemory m' = Machine.mainMemory m /\ Machine.registers m' = Machine.registers m;
}.

(** The machine gets a map in which the frames of every other thread are marked. *)
Lemma reap s s' d m m' l' : apart s -> stacks_ok s -> d <> cur s ->
  machine s = Some m -> Machine.mainMemory m' = Machine.mainMemory m -> Machine.tlb m' = Machine.tlb m ->
  Machine.registers m' = Machine.registers m -> Bitmap.rep (Machine.pageTableMap m') l' ->
  zlen l' = Machine.NumPhysPages ->
  (forall t fr f, t <> d -> owns s t fr -> f ∈ fr -> l' !! f = Some true) ->
  machine s' = Some m' -> the_kern s' = set_doomed (set_stacks (set_threads (the_kern s)
    (delete d (threads (the_kern s)))) (delete d (stacks (the_kern s)))) None -> reaped s s'.
Proof.
  intros [(m0 & l & Hf) Hsp Hrs Hd] Hcode Hdc Em EM ET ER Hr Hl' Hmark Em' Ek.
  pose proof (fo_machine _ _ _ Hf) as E0. rewrite Em in E0. injection E0 as <-.
  assert (Ep : profiles s' = delete d (profiles s)) by (unfold profiles; rewrite Ek; cbn; apply fmap_delete).
  assert (Hp : forall t sp rs, profiles s' !! t = Some (sp, rs) -> profiles s !! t = Some (sp, rs) /\ t <> d).
  { intros t sp rs. rewrite Ep. by intros [? ?]%lookup_delete_Some. }
  assert (Ho : forall t fr, owns s' t fr -> owns s t fr /\ t <> d).
  { intros t fr (a & rs & E & Hl). apply Hp in E as [E ?]. split; [by exists a, rs|done]. }
  assert (Ec : cur s' = cur s) by (unfold cur; by rewrite Ek).
  assert (Es : stacks (the_kern s') = delete d (stacks (the_kern s))) by (by rewrite Ek).
  constructor; try done.
  - constructor.
    + exists m', l'. destruct Hf. constructor; rewrite ?EM, ?ET, ?ER; try done.
      intros t fr f [? ?]%Ho. by apply (Hmark t fr).
    + intros t a rs [E _]%Hp. by eapply Hsp.
    + intros t sp rs [E _]%Hp. by eapply Hrs.
    + intros t t' fr fr' f [H1' _]%Ho [H2' _]%Ho. by apply (Hd t t' fr fr').
  - intros t fs sp rs Hst [E Hne]%Hp. rewrite Es, lookup_delete_ne in Hst by done. by eapply Hcode.
  - by rewrite Es, lookup_delete_ne.
  - by rewrite Ep, lookup_delete_ne.
  - intros t. rewrite Ep. destruct (decide (t = d)) as [->|]; [left; apply lookup_delete_eq|right; by apply lookup_delete_ne].
  - by exists m, m'.
Qed.

Lemma CheckToBeDestroyed_reaps s : apart s -> stacks_ok s -> post (CheckToBeDestroyed s) (reaped s).
Proof.
  intros HA Hcode. pose proof HA as [(m & l & Hf) Hsp _ Hd]. pose proof (fo_machine _ _ _ Hf) as Em.
  unfold CheckToBeDestroyed. destruct (toBeDestroyed (the_kern s)) as [d|].
  2: { constructor; try done; [by right|by exists m, m]. }
  unfold delete_Thread. apply post_bind. apply post_any. intros th Eth. unfold live in Eth.
  destruct (threads (the_kern s) !! d) as [th'|] eqn:Hth; [|done]. injection Eth as ->.
  pose proof (lookup_profiles _ _ _ Hth) as Hp. destruct (space th) as [a|].
  - apply post_bind, post_bind. unfold the_machine. rewrite Em. cbn [rbind].
    destruct (Hsp d a _ Hp) as [-> |[fr Hl]]; [done|].
    eapply post_bind_mono; [apply (delete_frees a fr m l); done || apply Hf|].
    intros m' (bm & l' & -> & Hr & Hl' & Hout). simpl. apply post_any. intros [] E.
    assert (Hdc : d <> cur s).
    { intros ->. unfold cur in E. cbn in E. by rewrite bool_decide_eq_true_2 in E. }
    apply (reap s _ d m (AddrSpace.set_map m bm) l'); try done.
    intros t fr' f Ht Ho Hin. rewrite Hout; [by eapply fo_marked|]. intros Hin'. apply Ht.
    apply (Hd t d fr' fr f); [done| |done|done]. by exists a, (userRegisters th).
  - simpl. apply post_any. intros [] E.
    assert (Hdc : d <> cur s).
    { intros ->. by rewrite bool_decide_eq_true_2 in E. }
    apply (reap s _ d m m l); try done; try apply Hf. intros t fr f _. by apply (fo_marked _ _ _ Hf).
Qed.

(** *** Coming back from [SWITCH] *)

(** The current thread has its registers and its table back. *)
Definition restored s s' : Prop := forall a rs fr, profiles s !! cur s = Some (Some a, rs) -> loaded a fr ->
  exists m, machine s' = Some m /\ Machine.registers m = rs /\ runs_space fr m /\
    Machine.pageTable m = AddrSpace.pageTable a.

Lemma reaped_spares s s' : reaped s s' -> spares_others s s'.
Proof.
  intros [] t _ fr _. destruct (rp_others0 t) as [|E]; [by left|right]. split; [done|].
  destruct rp_machine0 as (m & m' & Em & Em' & E' & _). intros m1 m2 E1 E2 k _. congruence.
Qed.

Lemma RunReturn_restores s fs : apart s -> stacks_ok s -> stacks (the_kern s) !! cur s = Some fs ->
  post (RunReturn_ (cur s) s) (fun s' => on_space s' fs /\ spares_others s s' /\ cur s' = cur s /\ restored s s' /\
    profiles s' !! cur s = profiles s !! cur s /\ forall fr, same_bytes fr s s').
Proof.
  intros HA Hcode Hst. unfold RunReturn_. apply post_any. intros [] _.
  eapply post_bind_mono; [by apply CheckToBeDestroyed_reaps|]. intros s1 HR. pose proof HR as [HA1 Hc1 Ec Es Ep Eo Hm].
  destruct Hm as (m & m1 & Em & Em1 & EM & ER). apply post_any. intros th Eth. unfold live in Eth.
  destruct (threads (the_kern s1) !! cur s) as [th'|] eqn:Hth; [|done]. injection Eth as ->.
  apply lookup_profiles in Hth as Hp. destruct (space th) as [a|] eqn:Ha.
  - unfold RestoreUserState. apply post_bind. unfold the_machine. rewrite Em1. cbn [rbind].
    unfold live. rewrite Hth. cbn [rbind]. pose proof HA1 as [(m0 & l & Hf) Hsp Hrs Hd].
    pose proof (fo_machine _ _ _ Hf) as E0. rewrite Em1 in E0. injection E0 as <-.
    rewrite restore_registers by (apply Hf || (by eapply Hrs)). cbn [post machine set_machine rbind].
    destruct (Hsp _ _ _ Hp) as [-> |[fr Hl]]; [done|].
    destruct (RestoreState_runs a fr (Machine.set_registers m1 (userRegisters th)) Hl) as (m2 & -> & Hrun & EM2 & ER2 & EB2 & EP2);
      [apply Hf..|]. simpl.
    match goal with |- on_space ?s2 _ /\ _ => set (s' := s2) end.
    assert (Eq : profiles s' = profiles s1) by done. split_and!.
    + constructor; [|done|change (stacks (the_kern s1) !! cur s1 = Some fs); by rewrite Ec, Es|].
      * constructor; try done. exists m2, l. destruct Hf. constructor; rewrite ?EM2, ?ER2, ?EB2; try done; [apply Hrun|].
        by eapply Hrs.
      * intros fr' Ho. exists m2. split; [done|]. change (cur s') with (cur s1) in Ho. rewrite Ec in Ho.
        destruct Ho as (a' & rs' & E & Hl'). rewrite Eq, Hp in E. injection E as <- <-. by rewrite (loaded_inj _ _ _ Hl' Hl).
    + intros t Ht fr' Ho. destruct (Eo t) as [|E]; [by left|right]. rewrite Eq. split; [done|].
      intros n1 n2 E1 E2 k _. rewrite Em in E1. injection E1 as <-. injection E2 as <-. by rewrite EM2, <- EM.
    + done.
    + intros a' rs fr' E Hl'. rewrite <- Ep, Hp in E. injection E as <- <-. exists m2. split; [done|].
      rewrite (loaded_inj _ _ _ Hl' Hl). by rewrite ER2, EP2.
    + by rewrite Eq.
    + intros fr' n1 n2 E1 E2 k _. rewrite Em in E1. injection E1 as <-. injection E2 as <-. by rewrite EM2, <- EM.
  - simpl. split_and!; try done.
    + constructor; try done; [by rewrite Ec, Es|]. intros fr (a & rs & E & _). rewrite Ec, Hp in E. done.
    + by apply reaped_spares.
    + intros a rs fr E _. by rewrite <- Ep, Hp in E.
    + intros fr n1 n2 E1 E2 k _. rewrite Em in E1. rewrite Em1 in E2. injection E1 as <-. injection E2 as <-. by rewrite EM.
Qed.

Lemma RunReturn_stays s fs : apart s -> stacks_ok s -> stacks (the_kern s) !! cur s = Some fs ->
  stays s (exec (RunReturn (cur s)) s).
Proof.
  intros HA Hcode Hst. cbn [exec]. eapply post_bind_mono; [by eapply RunReturn_restores|].
  intros s' (Hs & HS & Ec & _). split; [|split; [done|by left]]. rewrite <- Ec. by eapply push_calm.
Qed.

Lemma Begin_stays t s fs rs : on_space s fs -> profiles s !! cur s = Some (None, rs) -> stays s (exec (Begin t) s).
Proof.
  intros [HA Hcode Hst _] Hp. cbn [exec]. unfold Begin_. apply post_any. intros [] _.
  eapply post_bind_mono; [by apply CheckToBeDestroyed_reaps|]. intros s1 HR. pose proof HR as [HA1 Hc1 Ec Es Ep Eo _].
  split; [|split; [by apply reaped_spares|by left]]. rewrite <- Ec. apply (push_calm s1 fs); [|by repeat constructor].
  constructor; try done; [by rewrite Ec, Es|]. intros fr (a & rs' & E & _). rewrite Ec, Ep, Hp in E. done.
Qed.

(** *** Giving the CPU away *)

(** Two spaces with the same pages. *)
Definition same_space (sp sp' : option AddrSpace.AddrSpace) : Prop :=
  match sp, sp' with
  | None, None => True
  | Some a, Some a' => a' = a \/ exists fr, loaded a fr /\ loaded a' fr
  | _, _ => False
  end.

Lemma same_space_loaded a a' fr : same_space (Some a) (Some a') -> loaded a fr <-> loaded a' fr.
Proof.
  intros [-> |(fr' & Hl & Hl')]; [done|]. split; intros Hf; [by rewrite (loaded_inj _ _ _ Hf Hl)|
    by rewrite (loaded_inj _ _ _ Hf Hl')].
Qed.

(** The profile of a thread changes, but for its pages. *)
Lemma apart_update s s' c sp rs sp' rs' : apart s -> stacks_ok s -> profiles s !! c = Some (sp, rs) ->
  same_space sp sp' -> length rs' = Z.to_nat Machine.NumTotalRegs ->
  profiles s' = <[c := (sp', rs')]> (profiles s) -> stacks (the_kern s') = stacks (the_kern s) ->
  machine s' = machine s -> apart s' /\ stacks_ok s' /\ forall t fr, owns s' t fr <-> owns s t fr.
Proof.
  intros [(m & l & Hf) Hsp Hrs Hd] Hcode Hc Hsame Hlen Ep Es Em.
  assert (Hne : forall t, t <> c -> profiles s' !! t = profiles s !! t) by (intros; rewrite Ep; by apply lookup_insert_ne).
  assert (Hc' : profiles s' !! c = Some (sp', rs')) by (rewrite Ep; apply lookup_insert_eq).
  assert (Ho : forall t fr, owns s' t fr <-> owns s t fr).
  { intros t fr. destruct (decide (t = c)) as [->|Hn]; [|by apply owns_same, Hne]. unfold owns. rewrite Hc, Hc'.
    split; intros (a & r & [= -> ->] & Hl).
    - destruct sp as [a'|]; [|done]. exists a', rs. split; [done|]. by apply (same_space_loaded a' a).
    - destruct sp' as [a'|]; [|done]. exists a', rs'. split; [done|]. by apply (same_space_loaded a a'). }
  split_and!; [constructor| |done].
  - exists m, l. destruct Hf. constructor; rewrite ?Em; try done. intros t fr f. rewrite Ho. apply fo_marked0.
  - intros t a r. destruct (decide (t = c)) as [->|Hn]; [|rewrite Hne by done; apply Hsp].
    rewrite Hc'. intros [= -> ->]. destruct sp as [a'|]; [|done]. destruct (Hsp _ _ _ Hc) as [-> |[fr Hl]].
    + destruct Hsame as [-> |(fr & (_ & _ & pt & E & _) & _)]; [by left|done].
    + right. exists fr. by apply (same_space_loaded a' a).
  - intros t q r. destruct (decide (t = c)) as [->|Hn]; [|rewrite Hne by done; apply Hrs].
    rewrite Hc'. by intros [= <- <-].
  - intros t t' fr fr' f. rewrite !Ho. apply Hd.
  - intros t fs q r. rewrite Es. destruct (decide (t = c)) as [->|Hn]; [|rewrite Hne by done; apply Hcode].
    intros Hst. rewrite Hc'. intros [= <- <-]. eapply code_ok_mono; [| |by eapply Hcode].
    + intros ->. by destruct sp'.
    + intros (a & fr & -> & Hl). destruct sp' as [a'|]; [|done]. exists a', fr. split; [done|].
      by apply (same_space_loaded a a').
Qed.

(** After [Run]: the calls left to the old thread, and the CPU at the new one. *)
Definition switched n s (r : Datatypes.list (instr U) * state) : Prop :=
  let '(calls, s') := r in calls = [RunReturn (cur s)] /\ cur s' = n /\ apart s' /\ stacks_ok s' /\
    stacks (the_kern s') = stacks (the_kern s) /\ (forall t fr, owns s' t fr <-> owns s t fr) /\ saved s s' /\
    forall t, t <> cur s -> profiles s' !! t = profiles s !! t.

Lemma switch_to n s s2 m sp rs sp' rs' : apart s -> stacks_ok s -> machine s = Some m ->
  profiles s !! cur s = Some (sp, rs) -> profiles s2 = <[cur s := (sp', rs')]> (profiles s) -> same_space sp sp' ->
  length rs' = Z.to_nat Machine.NumTotalRegs -> stacks (the_kern s2) = stacks (the_kern s) -> machine s2 = machine s ->
  (forall fr, owns s (cur s) fr -> rs' = Machine.registers m /\
    exists a, sp' = Some a /\ loaded a fr /\ AddrSpace.pageTable a = Machine.pageTable m) ->
  post (CheckOverflow (cur s) s2 ;; Ok ([RunReturn (cur s)], Threads.setStatus n RUNNING (on_kern (fun k => set_current k n) s2)))
    (switched n s).
Proof.
  intros HA Hcode Em Hp Ep2 Hsame Hlen Es2 Em2 Hsv. apply post_any. intros [] _. simpl.
  set (s' := Threads.setStatus n RUNNING _).
  assert (Ep : profiles s' = <[cur s := (sp', rs')]> (profiles s)) by (rewrite <- Ep2; exact (profiles_alter n (with_status RUNNING) (on_kern (fun k => set_current k n) s2) (fun _ => eq_refl))).
  destruct (apart_update s s' (cur s) sp rs sp' rs' HA Hcode Hp Hsame Hlen Ep Es2 Em2) as (HA' & Hc' & Ho').
  split_and!; try done.
  - split; [done|]. intros m0 fr E Ho. rewrite Em in E. injection E as <-. destruct (Hsv fr Ho) as (-> & a & -> & Hl & Ht).
    exists a. split; [|done]. rewrite Ep. apply lookup_insert_eq.
  - intros t Ht. rewrite Ep. by apply lookup_insert_ne.
Qed.

Lemma Run_saves n fin s fs : on_space s fs -> is_Some (profiles s !! cur s) -> post (Run n fin s) (switched n s).
Proof.
  intros Hs [[sp rs] Hp]. pose proof Hs as [HA Hcode Hst Hinst]. pose proof HA as [(m & l & Hf) Hsp Hrs Hd].
  pose proof (fo_machine _ _ _ Hf) as Em. unfold Run. apply post_any. intros [] _.
  eapply (post_bind_mono (fun s1 : state => threads (the_kern s1) = threads (the_kern s) /\
    stacks (the_kern s1) = stacks (the_kern s) /\ machine s1 = machine s)).
  { destruct fin; [apply post_any; by intros [] _|done]. }
  intros s1 (Et & Es & Em1). apply profiles_lookup in Hp as Hth. destruct Hth as (th & Hth & Esp & Ers).
  unfold live at 1. rewrite Et, Hth. cbn [rbind]. rewrite Esp. destruct sp as [a|].
  - assert (Hsame : same_space (Some a) (Some (AddrSpace.SaveState (shared_table m a) m))).
    { destruct (Hsp _ _ _ Hp) as [-> |[fr Hl]]; [by left|right]. exists fr. split; [done|].
      destruct (Hinst fr) as (m0 & E0 & Hr); [by exists a, rs|]. rewrite Em in E0. injection E0 as <-.
      unfold AddrSpace.SaveState, shared_table. pose proof Hl as (_ & _ & pt & -> & _). by apply loaded_table. }
    unfold SaveUserState. apply post_bind, post_bind. unfold the_machine. rewrite Em1, Em. cbn [rbind].
    unfold live. rewrite Et, Hth. cbn [rbind].
    rewrite save_registers by (apply Hf || (eapply Hrs; by rewrite Hp, Ers)).
    cbn [rbind post machine set_thread on_kern]. rewrite Em1, Em. cbn [rbind post].
    eapply (switch_to n s _ m (Some a) rs); try done.
    + unfold profiles. cbn. rewrite Et. apply map_eq. intros t.
      destruct (decide (t = cur s)) as [->|Hn].
      * rewrite lookup_fmap, !lookup_alter_eq, Hth, lookup_insert_eq. done.
      * rewrite lookup_fmap, !lookup_alter_ne, lookup_insert_ne, lookup_fmap by done. done.
    + apply Hf.
    + intros fr (a' & rs' & E & Hl). rewrite Hp in E. injection E as <- <-. split; [done|]. eexists. split; [done|].
      split; [by apply (same_space_loaded a)|]. unfold AddrSpace.SaveState, shared_table.
      by destruct Hl as (_ & _ & pt & -> & _).
  - apply (switch_to n s s1 m None rs None rs); try done.
    + unfold profiles. rewrite Et. symmetry. by apply insert_id.
    + by eapply Hrs.
    + intros fr (a & r & E & _). by rewrite Hp in E.
Qed.

(** The thread that gets the CPU has its registers to restore, or has no space. *)
Lemma Run_stays n fin s s1 fs more : on_space s1 fs -> is_Some (profiles s1 !! cur s1) -> cur s1 = cur s ->
  spares_others s s1 -> Forall calm_call more ->
  (n = cur s1 \/ waiting s1 n) -> profiles s1 = profiles s -> machine s1 = machine s ->
  post (Run n fin s1) (fun '(calls, s') => settled (push (cur s) (calls ++ more) s') /\ spares_others s s' /\
    hands_over s s').
Proof.
  intros Hs Hp Ec1 HS Hmore Hn Ep1 Hm. eapply post_mono; [by eapply Run_saves|].
  intros [calls s'] (-> & Ec & HA & Hcode & Es & Ho & [Em Hsv] & Hne). rewrite Ec1 in *. split_and!.
  - assert (Hst' : stacks (the_kern (push (cur s) ([RunReturn (cur s)] ++ more) s')) =
      <[cur s := [RunReturn (cur s)] ++ more ++ fs]> (stacks (the_kern s1))).
    { cbn. rewrite Es. destruct Hs as [_ _ Hst _]. rewrite Ec1 in Hst. apply map_eq. intros t.
      rewrite lookup_alter, lookup_insert. case_decide; [subst|done]. by rewrite Hst. }
    constructor.
    + eapply (apart_quiet s'); [done|done|]. unfold on_machine. cbn. by destruct (machine s').
    + intros t fs' sp rs. rewrite Hst', lookup_insert. case_decide; [subst t; intros [= <-] E|].
      * cbn [app code_ok calm_call]. split; [done|]. apply calm_app; [done|]. eapply Hcode; [|exact E].
        rewrite Es. destruct Hs as [_ _ Hst _]. by rewrite Ec1 in Hst.
      * rewrite <- Es. apply Hcode.
    + intros fr Hown. change (cur (push _ _ s')) with (cur s') in *. rewrite Ec in *. left. rewrite Hst'.
      destruct (decide (n = cur s)) as [->|Hd]; [eexists; by rewrite lookup_insert_eq|].
      rewrite lookup_insert_ne by done. destruct Hn as [->|(rest & [E|E])]; [done|by eexists|].
      rewrite <- Es in E. change (owns s' n fr) in Hown. destruct Hown as (a & rs & Ea & _).
      pose proof (Hcode n _ _ _ E Ea) as [? _]. done.
  - intros t Ht fr Hown. right. rewrite Hne, Ep1 by done. split; [done|]. intros m m' E E'. rewrite Em in E'.
    rewrite Hm, E in E'. by injection E' as <-.
  - destruct Hn as [-> |Hn]; [by left|right]. split.
    + split; [congruence|]. intros m fr E Hown. rewrite <- Hm in E. rewrite <- Ec1 in *.
      apply (Hsv m fr E). unfold owns in *. by rewrite Ep1.
    + rewrite Ec. unfold waiting in *. by rewrite Es.
Qed.

(** Who is on the ready list was switched out, but for the current thread. *)
Definition out s t : Prop := t = cur s \/ waiting s t.
Definition ready_out s : Prop := exists rl, Lists.rep (readyList (the_kern s)) rl /\ forall t, t ∈ rl -> out s t.

Lemma placed_out s fs : placed (the_kern s) -> ready_out (set_stack (cur s) fs s).
Proof.
  intros Hpl. destruct (pl_ready _ Hpl) as (rl & Hrl & _ & Hiff). exists rl. split; [done|].
  intros t (th & Hth & _)%Hiff. destruct (decide (t = cur s)) as [->|Hne]; [by left|right].
  destruct (pl_others _ Hpl t th Hth Hne) as (_ & fs' & Hst & (rest & E) & _).
  exists rest. cbn. rewrite lookup_insert_ne by done. rewrite Hst. destruct E as [-> | ->]; auto.
Qed.

Lemma out_same s s' t : stacks (the_kern s') = stacks (the_kern s) -> cur s' = cur s -> out s t -> out s' t.
Proof. unfold out, waiting. by intros -> ->. Qed.

Lemma FindNextToRun_out s t s' : ready_out s -> FindNextToRun s = Ok (Some t, s') -> out s t.
Proof.
  intros (rl & Hrl & Hout) E. unfold FindNextToRun in E. apply ASSERT_inv in E as [_ E].
  rewrite (Lists.IsEmpty_law _ _ Hrl) in E. destruct rl as [|u rl]; [done|].
  rewrite bool_decide_eq_false_2 in E by done. destruct (Lists.RemoveFront_law _ _ Hrl) as (L & EL & _).
  rewrite EL in E. injection E as <- _. apply Hout. by left.
Qed.

(** The scheduler leaves the machine alone. *)
Lemma FindNextToRun_machine s : post (FindNextToRun s) (fun '(_, s') => machine s' = machine s).
Proof. unfold FindNextToRun. apply post_any. intros _ _. destruct (Lists.IsEmpty _); [done|]. apply post_any. by intros [t L] _. Qed.
Lemma ReadyToRun_machine t s : post (ReadyToRun t s) (fun s' => machine s' = machine s).
Proof. unfold ReadyToRun. apply post_any. intros _ _. by apply post_any. Qed.

Lemma Yield_stays s fs : on_space s fs -> is_Some (profiles s !! cur s) -> ready_out s -> stays s (exec Yield s).
Proof.
  intros Hs Hp Hout. cbn [exec]. unfold Yield_, stays. cbn [SetLevelOff]. set (s1 := ChangeLevel _ _ s).
  assert (Q1 : quiet s s1) by by apply quiet_eq. apply post_any. intros [[n|] s2] E;
    pose proof (post_elim _ _ _ (FindNextToRun_quiet s1) E) as Q2; cbn beta iota in Q2.
  - assert (Hn : out s n) by exact (FindNextToRun_out s1 n s2 Hout E).
    pose proof (post_elim _ _ _ (FindNextToRun_machine s1) E) as M2. cbn beta iota in M2.
    apply post_any. intros s3 E3. pose proof (post_elim _ _ _ (ReadyToRun_quiet _ _) E3) as Q3.
    pose proof (post_elim _ _ _ (ReadyToRun_machine _ _) E3) as M3. cbn beta in Q3, M3.
    pose proof (quiet_trans _ _ _ Q1 (quiet_trans _ _ _ Q2 Q3)) as Q. pose proof Q as (Ep & Es & Ec & _).
    eapply post_bind_mono.
    + apply (Run_stays n false s s3 fs [SetLevelTo (level (interrupt s))]); try done.
      * by eapply on_space_quiet.
      * by rewrite Ep, Ec.
      * by apply quiet_spares.
      * by repeat constructor.
      * by apply (out_same s).
      * by rewrite M3, M2.
    + intros [calls s4] HR. exact HR.
  - pose proof (quiet_trans _ _ _ Q1 Q2) as Q. pose proof Q as (_ & _ & Ec & _).
    split; [|split; [by apply quiet_spares|by left]]. rewrite <- Ec.
    eapply push_calm; [by eapply on_space_quiet|by repeat constructor].
Qed.

Lemma SleepLoop_stays t fin s fs : on_space s fs -> is_Some (profiles s !! cur s) -> ready_out s ->
  stays s (exec (SleepLoop t fin) s).
Proof.
  intros Hs Hp Hout. cbn [exec]. unfold SleepLoop_, stays. apply post_any. intros [[n|] s2] E;
    pose proof (post_elim _ _ _ (FindNextToRun_quiet s) E) as Q; cbn beta iota in Q.
  - assert (Hn : out s n) by exact (FindNextToRun_out s n s2 Hout E). pose proof Q as (Ep & Es & Ec & _).
    pose proof (post_elim _ _ _ (FindNextToRun_machine s) E) as M2. eapply post_mono.
    + apply (Run_stays n fin s s2 fs []); try done; [by eapply on_space_quiet|by rewrite Ep, Ec|by apply quiet_spares|
        by apply (out_same s)].
    + intros [calls s4] HR. by rewrite app_nil_r in HR.
  - eapply post_bind_mono; [apply Idle_quiet|]. intros s3 Q3.
    pose proof (quiet_trans _ _ _ Q Q3) as Q'. pose proof Q' as (_ & _ & Ec & _).
    split; [|split; [by apply quiet_spares|by left]]. rewrite <- Ec.
    eapply push_calm; [by eapply on_space_quiet|by repeat constructor].
Qed.

(** *** One step *)

(** What a step does, but for the stack of the thread that makes it. *)
Lemma push_stays s fs calls s1 : let s0 := set_stack (cur s) fs s in
  settled (push (cur s0) calls s1) -> spares_others s0 s1 -> hands_over s0 s1 ->
  let s' := push (cur s) calls s1 in settled s' /\ spares_others s s' /\ hands_over s s'.
Proof.
  intros s0 Hs HS HH s'. split; [exact Hs|]. split; [exact HS|]. destruct (decide (cur s' = cur s)) as [E|Hn]; [by left|].
  destruct HH as [E|[Hsv (rest & Hw)]]; [by destruct Hn|right]. split; [exact Hsv|]. exists rest. cbn.
  rewrite lookup_alter_ne by (intros E; by destruct Hn). exact Hw.
Qed.

Lemma step_settled s : good s -> settled s ->
  post (step s) (fun s' => settled s' /\ spares_others s s' /\ hands_over s s').
Proof.
  intros Hg Hs. pose proof (ca_placed _ (go_calm _ Hg)) as Hpl. unfold step.
  destruct (stacks (the_kern s) !! cur s) as [[|i fs]|] eqn:Hst; [done| |done].
  assert (Hp : is_Some (profiles s !! cur s)).
  { destruct (pl_cur _ Hpl) as [th Hth]. by rewrite (lookup_profiles s (cur s) th Hth). }
  destruct Hp as [[sp rs] Hp]. pose proof (se_code _ Hs _ _ _ _ Hst Hp) as Hc.
  set (s0 := set_stack (cur s) fs s). assert (Hp0 : profiles s0 !! cur s0 = Some (sp, rs)) by exact Hp.
  assert (HS : stays s0 (exec i s0)).
  2: { eapply post_bind_mono; [exact HS|]. intros [calls s1] (K1 & K2 & K3). by apply (push_stays s fs). }
  assert (Hpop : (match i with RunReturn _ => False | _ => True end) -> code_ok sp fs -> on_space s0 fs).
  { intros Hi Hcf. eapply pop_on_space; [done|exact Hst|exact Hi|]. intros sp' rs' E. rewrite Hp in E. by injection E as <- <-. }
  assert (Hout : ready_out s0) by by apply placed_out.
  assert (Hsteady : steady i -> calm_call i -> code_ok sp fs -> stays s0 (exec i s0)).
  { intros Hi Hcalm Hcf. eapply calmly_stays; [apply Hpop; [by destruct i|done]|by apply exec_quiet]. }
  destruct i; simpl in Hc; try (destruct Hc as [Hcalm Hcf]; exact (Hsteady I Hcalm Hcf)).
  - destruct (needs u) eqn:Hu.
    + eapply calmly_stays; [by apply Hpop|]. by apply ustep_plain.
    + destruct Hc as [Hsp Hcf]. eapply uses_stays; [done|by apply Hpop| |by eexists].
      intros sp' rs' E. rewrite Hp0 in E. by injection E as <- <-.
    + destruct Hc as [-> Hcf]. eapply starts_stays; [done|apply Hpop; [done|by apply calm_code]|done|done].
  - destruct Hc as [Hu Hcf].
    assert (Ht : threads (the_kern s) !! brk (the_kern s) = None) by (apply (pl_brk_t _ Hpl); lia).
    assert (Hn : stacks (the_kern s) !! brk (the_kern s) = None).
    { apply eq_None_not_Some. intros Hn%(pl_dom _ Hpl). rewrite Ht in Hn. by destruct Hn. }
    eapply NewFork_stays; [done|by apply Hpop|exact Ht|]. cbn. rewrite lookup_insert_ne; [done|]. intros E.
    destruct (pl_cur _ Hpl) as [th Hth]. unfold cur in E. rewrite E in Hth. congruence.
  - destruct Hc as [-> Hcf]. eapply Begin_stays; [by apply Hpop|done].
  - destruct Hc as [_ Hcf]. eapply Yield_stays; [by apply Hpop|by eexists|done].
  - destruct Hc as [_ Hcf]. eapply SleepLoop_stays; [by apply Hpop|by eexists|done].
  - destruct Hc as [_ Hcf]. assert (oldThread = cur s) as ->.
    { destruct (go_runs _ Hg) as (fs' & [Hst' [[_ Hty]|(fin & rest & -> & _)] _]); unfold cur in *; simplify_eq.
      by destruct Hty. }
    apply (RunReturn_stays s0 fs); [by apply pop_apart| |cbn; by rewrite lookup_insert_eq].
    apply pop_code; [done|]. intros sp' rs' E. rewrite Hp in E. by injection E as <- <-.
Qed.
End steps.

(** *** A thread leaves the CPU and comes back *)

Section switching.
Context {C U D : Type} `{SpaceLaws C U D} `{!ClientLaws C U D}.
Abbreviation state := (Sim C (World U D)).
Implicit Types (s : state) (t : ptr) (fr : Datatypes.list nat) (m : Machine.Machine).

Lemma step_keeps s s' : good s -> room s -> step s = Ok s' -> good s'.
Proof. intros Hg Hr E. eapply run_good; [exact Hg|]. by eapply run_step, run_refl. Qed.

Lemma run_settled k s s' : good s -> settled s -> run k s s' -> good s' /\ settled s'.
Proof.
  intros Hg Hs Hr. revert Hg Hs. induction Hr as [|k s s1 s2 Hroom E _ IH]; intros Hg Hs; [done|].
  apply IH; [by eapply step_keeps|]. by destruct (post_elim _ _ _ (step_settled s Hg Hs) E).
Qed.

(** A run from [s] in which [t] is not the thread that runs, and is not deleted. *)
Inductive away t s : state -> Prop :=
| away_now : away t s s
| away_step s1 s2 : away t s s1 -> cur s1 <> t -> is_Some (profiles s1 !! t) -> room s1 -> step s1 = Ok s2 ->
    away t s s2.

Lemma same_bytes_trans fr s1 s2 s3 m : machine s2 = Some m -> same_bytes fr s1 s2 -> same_bytes fr s2 s3 -> same_bytes fr s1 s3.
Proof. intros E B1 B2 m1 m3 E1 E3 k Hk. rewrite (B2 m m3 E E3 k Hk). by apply B1. Qed.

(** It finds what it left. *)
Lemma away_keeps t s s2 p fr : good s -> settled s -> owns s t fr -> profiles s !! t = Some p ->
  away t s s2 -> is_Some (profiles s2 !! t) -> good s2 /\ settled s2 /\ profiles s2 !! t = Some p /\ same_bytes fr s s2.
Proof.
  intros Hg Hs Ho Hp Ha. induction Ha as [|s1 s2 Ha IH Hne Hal Hroom Hstep]; intros Hal2.
  - split_and!; try done. intros m m' E E' k _. congruence.
  - destruct (IH Hal) as (Hg1 & Hs1 & Hp1 & HB). pose proof (step_keeps s1 s2 Hg1 Hroom Hstep) as Hg2.
    pose proof (post_elim _ _ _ (step_settled s1 Hg1 Hs1) Hstep) as (Hs2 & HS & _). split; [done|]. split; [done|].
    assert (Ho1 : owns s1 t fr) by (apply (owns_same s s1); [congruence|done]).
    destruct (ap_frames _ (se_apart _ Hs1)) as (m1 & l1 & Hf1). pose proof (fo_machine _ _ _ Hf1) as E1.
    destruct (HS t (not_eq_sym Hne) fr Ho1) as [E|[E B]]; [by destruct Hal2 as [x Hx]; congruence|].
    split; [congruence|]. by eapply same_bytes_trans.
Qed.

(** The first step of a thread that has the CPU back. *)
Lemma resumes s fs : good s -> settled s -> stacks (the_kern s) !! cur s = Some (RunReturn (cur s) :: fs) ->
  post (step s) (fun s' => cur s' = cur s /\ restored s s' /\ forall fr, same_bytes fr s s').
Proof.
  intros Hg Hs Hst. unfold step. rewrite Hst. cbn [exec]. set (s0 := set_stack (cur s) fs s).
  assert (HR : post (RunReturn_ (cur s0) s0) (fun s' => on_space s' fs /\ spares_others s0 s' /\ cur s' = cur s0 /\
    restored s0 s' /\ profiles s' !! cur s0 = profiles s0 !! cur s0 /\ forall fr, same_bytes fr s0 s')).
  { apply RunReturn_restores; [by apply pop_apart| |cbn; by rewrite lookup_insert_eq].
    apply pop_code; [done|]. intros sp rs E. by pose proof (se_code _ Hs _ _ _ _ Hst E) as [_ ?]. }
  apply post_bind. eapply post_bind_mono; [exact HR|]. intros s1 (_ & _ & Ec & Hr & _ & HB). exact (conj Ec (conj Hr HB)).
Qed.

(** The whole way: the step that gives the CPU away, what the others do, and the
    first step after. *)
Lemma switch_transparent s1 s2 s3 s4 m fr : good s1 -> settled s1 -> room s1 -> machine s1 = Some m ->
  owns s1 (cur s1) fr -> step s1 = Ok s2 -> cur s2 <> cur s1 -> away (cur s1) s2 s3 -> cur s3 = cur s1 ->
  step s3 = Ok s4 ->
  cur s4 = cur s1 /\ exists m', machine s4 = Some m' /\ Machine.registers m' = Machine.registers m /\
    Machine.pageTable m' = Machine.pageTable m /\ runs_space fr m' /\
    forall k, (k / AddrSpace.page)%nat ∈ fr -> Machine.mainMemory m' !! k = Machine.mainMemory m !! k.
Proof.
  intros Hg Hs Hroom Em Ho E1 Hne Ha Ec E3. pose proof (step_keeps _ _ Hg Hroom E1) as Hg2.
  pose proof (post_elim _ _ _ (step_settled s1 Hg Hs) E1) as (Hs2 & _ & [Ec2|[[Em2 Hsv] _]]); [done|].
  destruct (Hsv m fr Em Ho) as (a & Hp2 & Hl & Ht). assert (Ho2 : owns s2 (cur s1) fr) by by exists a, (Machine.registers m).
  inversion Ha as [|s s3' Ha' Hc Hal Hr Hstep]; subst; [done|].
  destruct (away_keeps _ _ _ _ fr Hg2 Hs2 Ho2 Hp2 Ha' Hal) as (Hg' & Hs' & _ & _).
  pose proof (step_keeps _ _ Hg' Hr Hstep) as Hg3.
  pose proof (post_elim _ _ _ (step_settled _ Hg' Hs') Hstep) as (_ & _ & [Hsame|[_ (rest & Hw)]]); [congruence|].
  destruct (pl_cur _ (ca_placed _ (go_calm _ Hg3))) as [th Hth]. pose proof (lookup_profiles _ _ _ Hth) as Hp3.
  change (currentThread (the_kern s3)) with (cur s3) in Hp3. rewrite Ec in Hp3.
  destruct (away_keeps _ _ _ _ fr Hg2 Hs2 Ho2 Hp2 Ha (ex_intro _ _ Hp3)) as (_ & Hs3 & Hp & HB).
  assert (Hst : stacks (the_kern s3) !! cur s3 = Some (RunReturn (cur s3) :: rest)).
  { destruct Hw as [Hw|Hw]; [done|]. rewrite <- Ec in Hp. by destruct (se_code _ Hs3 _ _ _ _ Hw Hp). }
  pose proof (post_elim _ _ _ (resumes s3 rest Hg3 Hs3 Hst) E3) as (Ec4 & Hre & HB4). split; [congruence|].
  rewrite <- Ec in Hp. destruct (Hre _ _ fr Hp Hl) as (m' & Em' & ER & Hrun & ET). exists m'. split_and!; try done; [congruence|].
  destruct (ap_frames _ (se_apart _ Hs3)) as (m3 & l3 & Hf3). pose proof (fo_machine _ _ _ Hf3) as E.
  intros k Hk. rewrite (HB4 fr m3 m' E Em' k Hk). apply (HB m m3); [congruence|done..].
Qed.
End switching.
End Spaces.
