(* ===== verification/Coff2noff.v ===== *)
(** The converter of user programs ([coff2noff/coff2noff.c], [coff2noff/coff.h],
    [coff2noff/noff.h]): it reads a MIPS COFF object file and writes the NOFF
    file that [AddrSpace::Load] loads, by the UNIX calls of a host process.  It
    is compiled with [-m32 -DRDATA]: [int] and [long] are 32 bits wide. *)

From S2P Require Import Prelude Bitmap Machine HostFS AddrSpace.
Import Unix AddrSpace.

Module Coff2noff.

(** *** The file formats *)

Definition MIPSELMAGIC : Z := 0x0162.
Definition OMAGIC : Z := 263.

(** [struct filehdr], [struct aouthdr] and [struct scnhdr]: the fields that are
    read, at their offsets. *)
Record filehdr := mkFilehdr { f_magic : Z; f_nscns : Z }.
Record aouthdr := mkAouthdr { magic : Z }.
Record scnhdr := mkScnhdr { s_name : list Z; s_paddr : Z; s_size : Z; s_scnptr : Z }.
Definition sizeof_filehdr : Z := 20.
Definition sizeof_aouthdr : Z := 56.
Definition sizeof_scnhdr : Z := 40.

Definition ushort_at (bs : list Z) (off : nat) : Z := le_combine (slice off 2 bs).
Definition long_at (bs : list Z) (off : nat) : Z := s32 (le_combine (slice off 4 bs)).
Definition filehdr_of_bytes (bs : list Z) : filehdr := mkFilehdr (ushort_at bs 0) (ushort_at bs 2).
Definition aouthdr_of_bytes (bs : list Z) : aouthdr := mkAouthdr ((ushort_at bs 0 + 2 ^ 15) mod 2 ^ 16 - 2 ^ 15).
Definition scnhdr_of_bytes (bs : list Z) : scnhdr :=
  mkScnhdr (slice 0 8 bs) (long_at bs 8) (long_at bs 16) (long_at bs 20).

Definition segment_bytes (s : Segment) : list Z :=
  le_split 4 (virtualAddr s) ++ le_split 4 (inFileAddr s) ++ le_split 4 (size s).
Definition bytes_of_noff (n : NoffHeader) : list Z :=
  le_split 4 (noffMagic n) ++ segment_bytes (code n) ++ segment_bytes (initData n) ++
  segment_bytes (readonlyData n) ++ segment_bytes (uninitData n).

(** The host is little-endian, as the machine is. *)
Definition WordToHost (word : Z) : Z := word.
Definition ShortToHost (shortword : Z) : Z := shortword.
Definition swap_segment (s : Segment) : Segment :=
  mkSegment (WordToHost (virtualAddr s)) (WordToHost (inFileAddr s)) (WordToHost (size s)).
Definition SwapHeader (n : NoffHeader) : NoffHeader :=
  mkNoff (WordToHost (noffMagic n)) (swap_segment (code n)) (swap_segment (initData n))
    (swap_segment (readonlyData n)) (swap_segment (uninitData n)).

(** *** A process of the host *)

(** A part of the program: it goes on with a value, or the process ends with an
    exit code. *)
Definition prog (A : Type) : Type := Host -> res (Host * (Z + A)).
Definition ret {A} (a : A) : prog A := fun h => Ok (h, inr a).
Definition exit {A} (c : Z) : prog A := fun h => Ok (h, inl c).
Definition bind {A B} (p : prog A) (f : A -> prog B) : prog B := fun h =>
  '(h, r) ← p h; match r with inl c => Ok (h, inl c) | inr a => f a h end.
Declare Scope prog_scope.
Notation "x <~ p ; q" := (bind p (fun x => q))
  (at level 100, p at next level, q at level 200, right associativity) : prog_scope.
Notation "p ;~ q" := (bind p (fun _ => q)) (at level 100, q at level 200, right associativity) : prog_scope.
#[local] Open Scope prog_scope.

(** The system calls; a failed one returns -1. *)
Definition open_RDONLY (name : path) : prog Z := fun h =>
  match dir h !! name with
  | Some i => if bool_decide (name ∈ protected h) then Ok (h, inr (-1))
              else Ok (set_fds h (<[lowest_fd h := File i 0]> (fds h)), inr (lowest_fd h))
  | None => Ok (h, inr (-1))
  end.
(** With [O_WRONLY|O_CREAT|O_TRUNC]; there may be no name. *)
Definition open_CREAT (name : option path) : prog Z := fun h =>
  match name with
  | Some name =>
      if bool_decide (name ∈ protected h) then Ok (h, inr (-1))
      else '(fd, h) ← OpenForWrite name h; Ok (h, inr fd)
  | None => Ok (h, inr (-1))
  end.
Definition unlink (name : option path) : prog () := fun h =>
  match name with Some name => Ok ((Unlink name h).2, inr ()) | None => Ok (h, inr ()) end.
(** An offset below 0 is refused, and nobody looks. *)
Definition lseek (fd off : Z) : prog () := fun h =>
  match file_at h fd with
  | Some (i, _, _) => Ok (if 0 <=? off then set_fds h (<[fd := File i off]> (fds h)) else h, inr ())
  | None => Ok (h, inr ())
  end.
Definition read (fd nBytes : Z) : prog (option (list Z)) := fun h =>
  '(r, h) ← ReadPartial fd nBytes h; Ok (h, inr r).
Definition write (fd : Z) (buf : list Z) : prog Z := fun h =>
  match file_at h fd with
  | Some _ => h ← WriteFile fd buf h; Ok (h, inr (zlen buf))
  | None => Ok (h, inr (-1))
  end.
Definition close (fd : Z) : prog () := fun h => Ok (set_fds h (delete fd (fds h)), inr ()).

Section program.
(** [noffFileName], when there is one. *)
Context (noffFileName : option path).

(** [unlink(noffFileName); exit(1);] *)
Definition die {A} : prog A := unlink noffFileName ;~ exit 1.

Definition Read (fd nBytes : Z) : prog (list Z) :=
  r <~ read fd nBytes;
  match r with
  | Some bs => if zlen bs =? nBytes then ret bs else die
  | None => die
  end.
Definition Write (fd : Z) (buf : list Z) : prog () :=
  n <~ write fd buf;
  if n =? zlen buf then ret () else die.

(** *** [main] *)

Definition set_code (n : NoffHeader) s : NoffHeader :=
  mkNoff (noffMagic n) s (initData n) (readonlyData n) (uninitData n).
Definition set_initData (n : NoffHeader) s : NoffHeader :=
  mkNoff (noffMagic n) (code n) s (readonlyData n) (uninitData n).
Definition set_readonlyData (n : NoffHeader) s : NoffHeader :=
  mkNoff (noffMagic n) (code n) (initData n) s (uninitData n).
Definition set_uninitData (n : NoffHeader) s : NoffHeader :=
  mkNoff (noffMagic n) (code n) (initData n) (readonlyData n) s.

(** [!strcmp(s_name, name)]: the NUL that ends [name] is within the eight bytes. *)
Definition named (s : scnhdr) (name : path) : bool :=
  bool_decide (slice 0 (S (length name)) (s_name s) = name ++ [0]).
Definition text : path := [46; 116; 101; 120; 116].
Definition data : path := [46; 100; 97; 116; 97].
Definition rdata : path := [46; 114; 100; 97; 116; 97].
Definition bss : path := [46; 98; 115; 115].

(** The first loop over the section headers. *)
Definition section_to_host (s : scnhdr) : scnhdr :=
  mkScnhdr (s_name s) (WordToHost (s_paddr s)) (WordToHost (s_size s)) (WordToHost (s_scnptr s)).

(** The body of the branches that copy a segment. *)
Definition copy_segment (fdIn fdOut : Z) (s : scnhdr) : prog () :=
  lseek fdIn (s_scnptr s) ;~
  buffer <~ Read fdIn (s_size s);
  Write fdOut buffer.

(** [for (i = 0; i < numsections; i++)] *)
Fixpoint copy_sections (fdIn fdOut : Z) (ss : list scnhdr) (n : NoffHeader) (inNoffFile : Z) : prog NoffHeader :=
  match ss with
  | [] => ret n
  | s :: ss =>
      if s_size s =? 0 then copy_sections fdIn fdOut ss n inNoffFile
      else if named s text then
        copy_segment fdIn fdOut s ;~
        copy_sections fdIn fdOut ss (set_code n (mkSegment (s_paddr s) inNoffFile (s_size s))) (s32 (inNoffFile + s_size s))
      else if named s data then
        copy_segment fdIn fdOut s ;~
        copy_sections fdIn fdOut ss (set_initData n (mkSegment (s_paddr s) inNoffFile (s_size s))) (s32 (inNoffFile + s_size s))
      else if named s rdata then
        copy_segment fdIn fdOut s ;~
        copy_sections fdIn fdOut ss (set_readonlyData n (mkSegment (s_paddr s) inNoffFile (s_size s))) (s32 (inNoffFile + s_size s))
      else if named s bss then
        let u := uninitData n in
        if negb (size u =? 0) then
          if s_paddr s =? s32 (virtualAddr u + size u) then die
          else copy_sections fdIn fdOut ss
                 (set_uninitData n (mkSegment (virtualAddr u) (inFileAddr u) (s32 (size u + s_size s)))) inNoffFile
        else copy_sections fdIn fdOut ss (set_uninitData n (mkSegment (s_paddr s) (inFileAddr u) (s_size s))) inNoffFile
      else die
  end.

(** The header on the stack, [junk], with its magic number and no segments. *)
Definition empty_segment (s : Segment) : Segment := mkSegment (virtualAddr s) (inFileAddr s) 0.
Definition empty_noff (junk : NoffHeader) : NoffHeader :=
  mkNoff NOFFMAGIC (empty_segment (code junk)) (empty_segment (initData junk))
    (empty_segment (readonlyData junk)) (empty_segment (uninitData junk)).

(** From the file header on. *)
Definition convert (junk : NoffHeader) (fdIn fdOut : Z) : prog () :=
  fileh <~ Read fdIn sizeof_filehdr;
  let fileh := filehdr_of_bytes fileh in
  if negb (ShortToHost (f_magic fileh) =? MIPSELMAGIC) then die else
  systemh <~ Read fdIn sizeof_aouthdr;
  if negb (ShortToHost (magic (aouthdr_of_bytes systemh)) =? OMAGIC) then die else
  let numsections := ShortToHost (f_nscns fileh) in
  sections <~ Read fdIn (numsections * sizeof_scnhdr);
  let ss := map (fun i => section_to_host (scnhdr_of_bytes (slice (40 * i) 40 sections)))
              (seq 0 (Z.to_nat numsections)) in
  lseek fdOut sizeof_NoffHeader ;~
  n <~ copy_sections fdIn fdOut ss (empty_noff junk) sizeof_NoffHeader;
  lseek fdOut 0 ;~
  Write fdOut (bytes_of_noff (SwapHeader n)) ;~
  close fdIn ;~
  close fdOut.
End program.

(** [argv] without the name of the program; the second test looks at [fdIn]. *)
Definition main (junk : NoffHeader) (argv : list path) : prog () :=
  match argv with
  | [] => exit 1
  | coff :: rest =>
      let noff := head rest in
      fdIn <~ open_RDONLY coff;
      if fdIn =? -1 then exit 1 else
      fdOut <~ open_CREAT noff;
      if fdIn =? -1 then exit 1 else
      convert noff junk fdIn fdOut ;~
      exit 0
  end.

(** ** Properties *)

(** *** No partial output *)

(** The output file is not there, unless the process may not touch it. *)
Definition gone (noff : option path) (h : Host) : Prop :=
  match noff with Some name => name ∈ protected h \/ dir h !! name = None | None => True end.

(** A part that ends the process only after the output is removed. *)
Definition tidy {A} (noff : option path) (p : prog A) : Prop := forall h,
  post (p h) (fun '(h', r) => protected h' = protected h /\
    match r with inl c => c = 1 /\ gone noff h' | inr _ => True end).

Create HintDb tidy.

Lemma tidy_ret {A} noff (a : A) : tidy noff (ret a).
Proof. done. Qed.
Lemma tidy_bind {A B} noff (p : prog A) (f : A -> prog B) : tidy noff p -> (forall a, tidy noff (f a)) -> tidy noff (bind p f).
Proof.
  intros Hp Hf h. unfold bind. eapply post_bind_mono; [apply Hp|]. intros [h1 [c|a]] [E HP]; [done|].
  eapply post_mono; [apply Hf|]. intros [h2 r] [E' HQ]. split; [congruence|done].
Qed.

Lemma tidy_open_RDONLY noff name : tidy noff (open_RDONLY name).
Proof. intros h. unfold open_RDONLY. repeat case_match; done. Qed.
Lemma tidy_open_CREAT noff name : tidy noff (open_CREAT name).
Proof.
  intros h. unfold open_CREAT. destruct name; [|done]. case_match; [done|]. unfold OpenForWrite.
  by destruct (ASSERT _).
Qed.
Lemma tidy_lseek noff fd off : tidy noff (lseek fd off).
Proof. intros h. unfold lseek. destruct (file_at h fd) as [[[]]|]; [|done]. by destruct (0 <=? off). Qed.
Lemma tidy_read noff fd n : tidy noff (read fd n).
Proof.
  intros h. unfold read, ReadPartial. destruct (n <? 0); [done|]. by destruct (file_at h fd) as [[[]]|].
Qed.
Lemma tidy_write noff fd bs : tidy noff (write fd bs).
Proof. intros h. unfold write, WriteFile. by destruct (file_at h fd) as [[[]]|]. Qed.
Lemma tidy_close noff fd : tidy noff (close fd).
Proof. done. Qed.
Lemma tidy_die {A} noff : tidy noff (die noff (A := A)).
Proof.
  intros h. unfold die, bind, unlink, exit, Unlink. destruct noff as [name|]; [|done]. simpl.
  destruct (bool_decide (is_Some (dir h !! name))) eqn:E1; cbn [andb].
  - destruct (bool_decide (name ∈ protected h)) eqn:E2; cbn [negb snd].
    + split; [done|]. split; [done|]. left. by apply bool_decide_eq_true in E2.
    + split; [done|]. split; [done|]. right. apply lookup_delete_eq.
  - split; [done|]. split; [done|]. right. apply bool_decide_eq_false in E1. by apply eq_None_not_Some.
Qed.
#[local] Hint Resolve tidy_ret tidy_bind tidy_open_RDONLY tidy_open_CREAT tidy_lseek tidy_read tidy_write tidy_close
  tidy_die : tidy.

(** A goal [tidy noff p], by the parts of [p]. *)
Ltac tidying :=
  repeat match goal with
  | |- tidy _ (bind _ _) => apply tidy_bind; [|intros ?]
  | |- tidy _ (if ?b then _ else _) => destruct b
  | |- tidy _ (match ?x with _ => _ end) => destruct x
  | |- tidy _ _ => solve [auto with tidy nocore]
  end.

Lemma tidy_Read noff fd n : tidy noff (Read noff fd n).
Proof. unfold Read. tidying. Qed.
Lemma tidy_Write noff fd bs : tidy noff (Write noff fd bs).
Proof. unfold Write. tidying. Qed.
#[local] Hint Resolve tidy_Read tidy_Write : tidy.
Lemma tidy_copy_sections noff fdIn fdOut ss : forall n k, tidy noff (copy_sections noff fdIn fdOut ss n k).
Proof.
  induction ss as [|s ss IH]; intros n k; cbn [copy_sections]; [tidying|]. unfold copy_segment.
  repeat match goal with
  | |- tidy _ (copy_sections _ _ _ _ _ _) => apply IH
  | |- tidy _ (bind _ _) => apply tidy_bind; [|intros ?]
  | |- tidy _ (if ?b then _ else _) => destruct b
  | |- _ => solve [auto with tidy nocore]
  end.
Qed.
#[local] Hint Resolve tidy_copy_sections : tidy.
Lemma tidy_convert noff junk fdIn fdOut : tidy noff (convert noff junk fdIn fdOut).
Proof. unfold convert. cbn zeta. tidying. Qed.

Lemma open_RDONLY_spec name h :
  (exists fd h', open_RDONLY name h = Ok (h', inr fd) /\ 0 <= fd /\ protected h' = protected h) \/
  open_RDONLY name h = Ok (h, inr (-1)) /\ (dir h !! name = None \/ name ∈ protected h).
Proof.
  unfold open_RDONLY. destruct (dir h !! name); [|by right; split; [|left]].
  case_bool_decide; [by right; split; [|right]|left].
  eexists _, _. split; [done|]. split; [apply StubFS.lowest_fd_fresh|done].
Qed.

(** The end of [main], after the input is open. *)
Lemma finish_tidy noff junk fdIn fdOut h :
  post ((convert noff junk fdIn fdOut ;~ exit (A := ()) 0) h) (fun '(h', r) => r = inl 0 \/
    r = inl 1 /\ protected h' = protected h /\ gone noff h').
Proof.
  unfold bind at 1. eapply post_bind_mono; [apply tidy_convert|]. intros [h1 [c|a]] [E HP]; [|by left].
  destruct HP as [-> HP]. by right.
Qed.

(** The end of [main] either way: exit code 0, or 1 with no output. *)
Lemma main_tidy junk coff rest h :
  post (main junk (coff :: rest) h) (fun '(h', r) => r = inl 0 \/
    r = inl 1 /\ ((h' = h /\ (dir h !! coff = None \/ coff ∈ protected h)) \/
                  protected h' = protected h /\ gone (head rest) h')).
Proof.
  unfold main. set (p := fun fdIn : Z => _). change (main _ _ _) with (bind (open_RDONLY coff) p h).
  destruct (open_RDONLY_spec coff h) as [(fd & h1 & E & Hfd & Ep)|[E Hno]]; unfold bind at 1; rewrite E; cbn [rbind].
  - unfold p. replace (fd =? -1) with false by (symmetry; apply Z.eqb_neq; lia).
    unfold bind at 1. eapply post_bind_mono; [apply (tidy_open_CREAT (head rest))|].
    intros [h2 [c|fdOut]] [E2 Hc]; [right; destruct Hc as [-> Hg]; split; [done|right; split; [congruence|done]]|].
    eapply post_mono; [apply finish_tidy|]. intros [h3 r] [->|(-> & E3 & Hg)]; [by left|right].
    split; [done|]. right. split; [congruence|done].
  - right. split; [done|left]. by split.
Qed.

(** *** A process with its two files open *)

Section files.
Context (h0 : Host) (noff : option path) (i j : positive) (coff : list Z) (fdIn fdOut : Z).
Hypotheses (Hfd : fdIn <> fdOut) (Hij : i <> j) (Hcoff : inodes h0 !! i = Some coff).

(** The host when the input is read up to [a] and the output is [bs], written
    up to [b]. *)
Definition files_at (a : Z) (bs : list Z) (b : Z) : Host :=
  mkHost (dir h0) (<[j := bs]> (inodes h0)) (<[fdOut := File j b]> (<[fdIn := File i a]> (fds h0))) (protected h0).

Lemma file_at_in a bs b : file_at (files_at a bs b) fdIn = Some (i, coff, a).
Proof using Hfd Hij Hcoff. unfold file_at. cbn. rewrite lookup_insert_ne, lookup_insert_eq by done. cbn. by rewrite lookup_insert_ne, Hcoff. Qed.
Lemma file_at_out a bs b : file_at (files_at a bs b) fdOut = Some (j, bs, b).
Proof. unfold file_at. cbn. rewrite lookup_insert_eq. cbn. by rewrite lookup_insert_eq. Qed.

Lemma move_in a bs b a' : set_fds (files_at a bs b) (<[fdIn := File i a']> (fds (files_at a bs b))) = files_at a' bs b.
Proof using Hfd. unfold files_at, set_fds. cbn. f_equal. by rewrite insert_insert_ne, insert_insert_eq. Qed.
Lemma move_out a bs b b' : set_fds (files_at a bs b) (<[fdOut := File j b']> (fds (files_at a bs b))) = files_at a bs b'.
Proof. unfold files_at, set_fds. cbn. f_equal. by rewrite insert_insert_eq. Qed.

Lemma lseek_in a bs b off : 0 <= off -> lseek fdIn off (files_at a bs b) = Ok (files_at off bs b, inr ()).
Proof using Hfd Hij Hcoff. intros Ho. unfold lseek. rewrite file_at_in, move_in. by rewrite (proj2 (Z.leb_le _ _) Ho). Qed.
Lemma lseek_out a bs b off : 0 <= off -> lseek fdOut off (files_at a bs b) = Ok (files_at a bs off, inr ()).
Proof. intros Ho. unfold lseek. rewrite file_at_out, move_out. by rewrite (proj2 (Z.leb_le _ _) Ho). Qed.

Lemma Read_in a bs b n : 0 <= a -> 0 <= n -> a + n <= zlen coff ->
  Read noff fdIn n (files_at a bs b) = Ok (files_at (a + n) bs b, inr (slice (Z.to_nat a) (Z.to_nat n) coff)).
Proof using Hfd Hij Hcoff.
  intros Ha Hn Hlen. unfold Read, bind, read, ReadPartial. rewrite (proj2 (Z.ltb_ge _ _) Hn), file_at_in. cbn [rbind].
  assert (El : zlen (slice (Z.to_nat a) (Z.to_nat n) coff) = n) by (unfold zlen in *; rewrite length_slice; lia).
  rewrite El, Z.eqb_refl, move_in. done.
Qed.
Lemma Write_out a bs b buf : Write noff fdOut buf (files_at a bs b) =
  Ok (files_at a (write_bytes b buf bs) (b + zlen buf), inr ()).
Proof.
  unfold Write, bind, write, WriteFile. rewrite file_at_out. cbn [rbind]. rewrite Z.eqb_refl. unfold ret. do 2 f_equal.
  unfold files_at, set_fds, set_inode. cbn. f_equal; by rewrite insert_insert_eq.
Qed.

End files.

(** The output after the segments [body] were written behind room for the
    header; nothing is there before the first. *)
Definition content (body : list Z) : list Z := match body with [] => [] | _ => replicate 52 0 ++ body end.

Lemma write_content body new : new <> [] -> write_bytes (52 + zlen body) new (content body) = content (body ++ new).
Proof.
  intros Hn. unfold write_bytes. replace (Z.to_nat (52 + zlen body)) with (52 + length body)%nat by (unfold zlen; lia).
  assert (E : content body ++ replicate (52 + length body - length (content body)) 0 = replicate 52 0 ++ body).
  { destruct body as [|b body]; [done|]. unfold content. rewrite length_app, length_replicate, Nat.sub_diag.
    apply app_nil_r. }
  rewrite E. unfold splice. rewrite take_ge, drop_ge by (rewrite length_app, length_replicate; lia).
  rewrite app_nil_r, <- app_assoc. unfold content. by destruct body, new.
Qed.
Lemma write_header body hdr : length hdr = 52%nat -> write_bytes 0 hdr (content body) = hdr ++ body.
Proof.
  intros Hl. unfold write_bytes, splice. change (Z.to_nat 0) with 0%nat. rewrite take_0, Hl. cbn [Nat.sub Nat.add app replicate].
  rewrite app_nil_r. f_equal. by destruct body.
Qed.

(** *** Sections *)

Inductive kind : Set := Text | Data | Rdata | Bss.
#[global] Instance kind_eq_dec : EqDecision kind.
Proof. solve_decision. Defined.

Definition kind_of (s : scnhdr) : option kind :=
  if named s text then Some Text else if named s data then Some Data
  else if named s rdata then Some Rdata else if named s bss then Some Bss else None.
Definition seg (k : kind) (n : NoffHeader) : Segment :=
  match k with Text => code n | Data => initData n | Rdata => readonlyData n | Bss => uninitData n end.
Definition set_seg (k : kind) (n : NoffHeader) (s : Segment) : NoffHeader :=
  match k with Text => set_code n s | Data => set_initData n s | Rdata => set_readonlyData n s | Bss => set_uninitData n s end.
Lemma seg_set k k' n s : seg k (set_seg k' n s) = if decide (k = k') then s else seg k n.
Proof. by destruct k, k'. Qed.

(** The bytes a section has in the file. *)
Definition section_bytes (coff : list Z) (s : scnhdr) : list Z :=
  slice (Z.to_nat (s_scnptr s)) (Z.to_nat (s_size s)) coff.

(** The sections that are converted, of one kind. *)
Definition of_kind (k : kind) (ss : list scnhdr) : list scnhdr :=
  filter (fun s => s_size s <> 0 /\ kind_of s = Some k) ss.

(** The header and the segments agree with the sections of [ss], one of each kind
    at most. *)
Definition describes (coff : list Z) (ss : list scnhdr) (n : NoffHeader) (body : list Z) : Prop := forall k,
  match of_kind k ss with
  | s :: _ => 0 < s_size s /\ virtualAddr (seg k n) = s_paddr s /\ size (seg k n) = s_size s /\ (k <> Bss ->
      52 <= inFileAddr (seg k n) /\ inFileAddr (seg k n) + s_size s <= 52 + zlen body /\
      slice (Z.to_nat (inFileAddr (seg k n)) - 52) (Z.to_nat (s_size s)) body = section_bytes coff s)
  | [] => size (seg k n) = 0
  end.

(** A section that can be converted. *)
Definition section_ok (coff : list Z) (s : scnhdr) : Prop :=
  s_size s = 0 \/ 0 < s_size s /\ exists k, kind_of s = Some k /\
    (k <> Bss -> 0 <= s_scnptr s /\ s_scnptr s + s_size s <= zlen coff).
(** The bytes all of them need in the output. *)
Definition total (ss : list scnhdr) : Z := foldr (fun s t => Z.max 0 (s_size s) + t) 0 ss.

Lemma total_nonneg ss : 0 <= total ss.
Proof. induction ss as [|s ss IH]; [done|]. cbn [total foldr]. fold (total ss). lia. Qed.

Lemma of_kind_app k ss s : of_kind k (ss ++ [s]) =
  of_kind k ss ++ (if decide (s_size s <> 0 /\ kind_of s = Some k) then [s] else []).
Proof. unfold of_kind. by rewrite filter_app. Qed.

Lemma describes_skip coff ss s n body : s_size s = 0 -> describes coff ss n body -> describes coff (ss ++ [s]) n body.
Proof.
  intros Hs HD k. rewrite of_kind_app, decide_False by (intros [? _]; done). rewrite app_nil_r. apply HD.
Qed.

Lemma describes_add coff ss s k n body new sg : 0 < s_size s -> kind_of s = Some k ->
  length (of_kind k (ss ++ [s])) = 1%nat -> describes coff ss n body ->
  virtualAddr sg = s_paddr s -> size sg = s_size s -> (k <> Bss -> inFileAddr sg = 52 + zlen body /\
    new = section_bytes coff s /\ zlen new = s_size s) ->
  describes coff (ss ++ [s]) (set_seg k n sg) (body ++ new).
Proof.
  intros Hs Hk H1 HD Hv Hz Hf k'. rewrite seg_set. rewrite of_kind_app in *. destruct (decide (k' = k)) as [->|Hne].
  - rewrite decide_True in * by (split; [lia|done]). rewrite length_app in H1. simpl in H1.
    assert (E : of_kind k ss = []) by (destruct (of_kind k ss); [done|simpl in *; lia]). rewrite E. cbn [app].
    split; [done|]. split; [done|]. split; [done|]. intros HB. destruct (Hf HB) as (-> & -> & Hl). unfold zlen in *.
    rewrite length_app. split; [lia|]. split; [lia|].
    replace (Z.to_nat (52 + Z.of_nat (length body)) - 52)%nat with (length body) by lia.
    unfold slice at 1. rewrite drop_app_length. apply take_ge. lia.
  - rewrite decide_False, app_nil_r by (intros [_ E]; congruence). specialize (HD k').
    destruct (of_kind k' ss) as [|s' rest]; [done|]. destruct HD as (? & ? & ? & HB). do 3 (split; [done|]).
    intros Hb. destruct (HB Hb) as (? & ? & <-). unfold zlen in *. rewrite length_app. split; [done|]. split; [lia|].
    unfold slice. rewrite drop_app_le, take_app_le; [done| |]; rewrite ?length_drop; lia.
Qed.

(** The fields of the header are [int]s. *)
Definition seg_ints (sg : Segment) : Prop := is_s32 (virtualAddr sg) /\ is_s32 (inFileAddr sg) /\ is_s32 (size sg).
Definition ints (n : NoffHeader) : Prop := is_s32 (noffMagic n) /\ forall k, seg_ints (seg k n).
Definition section_ints (s : scnhdr) : Prop := is_s32 (s_paddr s) /\ is_s32 (s_size s).

Lemma ints_set k n sg : ints n -> seg_ints sg -> ints (set_seg k n sg).
Proof. intros [Hm Hk] Hs. split; [by destruct k|]. intros k'. rewrite seg_set. by case_decide. Qed.

(** One kind, one section. *)
Definition distinct (ss : list scnhdr) : Prop := forall k, (length (of_kind k ss) <= 1)%nat.

Lemma distinct_first done s ss k : distinct (done ++ s :: ss) -> s_size s <> 0 -> kind_of s = Some k ->
  length (of_kind k (done ++ [s])) = 1%nat /\ of_kind k done = [].
Proof.
  intros Hd Hs Hk. specialize (Hd k). replace (done ++ s :: ss) with ((done ++ [s]) ++ ss) in Hd by by rewrite <- app_assoc.
  unfold of_kind in Hd. rewrite filter_app in Hd. fold (of_kind k (done ++ [s])) in Hd. rewrite length_app in Hd.
  rewrite of_kind_app, decide_True, length_app in Hd |- * by done. simpl in *.
  split; [lia|]. apply nil_length_inv. lia.
Qed.

Section converting.
Context (h0 : Host) (noff : option path) (i j : positive) (coff : list Z) (fdIn fdOut : Z).
Hypotheses (Hfd : fdIn <> fdOut) (Hij : i <> j) (Hcoff : inodes h0 !! i = Some coff) (Hbytes : Forall is_byte coff).
Abbreviation files_at := (files_at h0 i j fdIn fdOut).

Lemma copy_segment_ok s a body : 0 < s_size s -> 0 <= s_scnptr s -> s_scnptr s + s_size s <= zlen coff ->
  copy_segment noff fdIn fdOut s (files_at a (content body) (52 + zlen body)) =
  Ok (files_at (s_scnptr s + s_size s) (content (body ++ section_bytes coff s)) (52 + zlen (body ++ section_bytes coff s)), inr ()) /\
  zlen (section_bytes coff s) = s_size s.
Proof using Hfd Hij Hcoff.
  intros Hs Hp Hl. assert (El : zlen (section_bytes coff s) = s_size s).
  { unfold section_bytes, zlen in *. rewrite length_slice; lia. }
  split; [|done]. unfold copy_segment, bind. rewrite (lseek_in h0 i j coff fdIn fdOut Hfd Hij Hcoff) by done. cbn [rbind].
  rewrite (Read_in h0 noff i j coff fdIn fdOut Hfd Hij Hcoff) by lia. cbn [rbind]. fold (section_bytes coff s).
  rewrite Write_out. rewrite write_content.
  - by rewrite zlen_app, Z.add_assoc.
  - intros E. rewrite E in El. unfold zlen in El. simpl in El. lia.
Qed.

(** The branch a section takes. *)
Lemma copy_sections_kind s ss k n pos : s_size s <> 0 -> kind_of s = Some k -> k <> Bss ->
  copy_sections noff fdIn fdOut (s :: ss) n pos =
  (copy_segment noff fdIn fdOut s ;~
   copy_sections noff fdIn fdOut ss (set_seg k n (mkSegment (s_paddr s) pos (s_size s))) (s32 (pos + s_size s))).
Proof.
  intros Hs Hk Hb. cbn [copy_sections]. rewrite (proj2 (Z.eqb_neq _ _) Hs). unfold kind_of in Hk.
  repeat case_match; simplify_eq; done.
Qed.
Lemma copy_sections_bss s ss n pos : s_size s <> 0 -> kind_of s = Some Bss -> size (uninitData n) = 0 ->
  copy_sections noff fdIn fdOut (s :: ss) n pos = copy_sections noff fdIn fdOut ss
    (set_seg Bss n (mkSegment (s_paddr s) (inFileAddr (uninitData n)) (s_size s))) pos.
Proof.
  intros Hs Hk Hz. cbn [copy_sections]. rewrite (proj2 (Z.eqb_neq _ _) Hs), Hz. unfold kind_of in Hk.
  repeat case_match; simplify_eq; done.
Qed.

Lemma copy_sections_ok ss : forall done n body a, Forall (section_ok coff) ss -> Forall section_ints ss ->
  distinct (done ++ ss) -> describes coff done n body -> ints n -> Forall is_byte body -> 52 + zlen body + total ss < 2 ^ 31 ->
  exists n' body' a', copy_sections noff fdIn fdOut ss n (52 + zlen body) (files_at a (content body) (52 + zlen body)) =
      Ok (files_at a' (content body') (52 + zlen body'), inr n') /\
    describes coff (done ++ ss) n' body' /\ noffMagic n' = noffMagic n /\ ints n' /\
    Forall is_byte body' /\ zlen body' <= zlen body + total ss.
Proof using Hfd Hij Hcoff Hbytes.
  induction ss as [|s ss IH]; intros done n body a Hok Hint Hd HD HI HB Hlen.
  { exists n, body, a. rewrite app_nil_r. split_and!; try done. simpl. lia. }
  apply Forall_cons in Hok as [Hs Hok], Hint as [[Hp Hz] Hint]. cbn [total foldr] in *. fold (total ss) in *.
  replace (done ++ s :: ss) with ((done ++ [s]) ++ ss) in * by by rewrite <- app_assoc.
  assert (Hzl : 0 <= zlen body) by (unfold zlen; lia). pose proof (total_nonneg ss) as Ht.
  destruct Hs as [Hs|(Hs & k & Hk & Hin)].
  - cbn [copy_sections]. rewrite Hs, Z.eqb_refl.
    destruct (IH (done ++ [s]) n body a) as (n' & body' & a' & E & HD' & HM & HI' & HB' & HL); try done;
      [by apply describes_skip|lia|]. exists n', body', a'. split_and!; try done; lia.
  - assert (Hne : s_size s <> 0) by lia.
    destruct (distinct_first done s ss k) as [H1 H0]; [by rewrite <- app_assoc in Hd|done|done|].
    destruct (decide (k = Bss)) as [->|Hb].
    + assert (Hu : size (uninitData n) = 0) by (specialize (HD Bss); by rewrite H0 in HD).
      rewrite (copy_sections_bss s ss) by done. destruct HI as [HM HK].
      destruct (IH (done ++ [s]) (set_seg Bss n (mkSegment (s_paddr s) (inFileAddr (uninitData n)) (s_size s))) body a)
        as (n' & body' & a' & E & HD' & HM' & HI' & HB' & HL); try done; [|apply ints_set; [done|]; split; [done|]; split; [apply (HK Bss)|done]|lia|].
      { rewrite <- (app_nil_r body). by apply describes_add. }
      exists n', body', a'. split_and!; try done; lia.
    + destruct (Hin Hb) as [Hpos Hl]. rewrite (copy_sections_kind s ss k) by done. unfold bind.
      destruct (copy_segment_ok s a body Hs Hpos Hl) as [-> El]. cbn [rbind].
      replace (s32 (52 + zlen body + s_size s)) with (52 + zlen (body ++ section_bytes coff s))
        by (rewrite zlen_app, El, s32_id; unfold is_s32; lia).
      destruct (IH (done ++ [s]) (set_seg k n (mkSegment (s_paddr s) (52 + zlen body) (s_size s))) (body ++ section_bytes coff s) (s_scnptr s + s_size s))
        as (n' & body' & a' & E & HD' & HM' & HI' & HB' & HL); try done.
      * by apply describes_add.
      * apply ints_set; [done|]. split; [done|]. split; [|done]. unfold is_s32. cbn. lia.
      * apply Forall_app. split; [done|]. by apply Forall_slice.
      * rewrite zlen_app, El. lia.
      * exists n', body', a'. split_and!; try done; [rewrite HM'; by destruct k|]. rewrite zlen_app in HL. lia.
Qed.
End converting.

(** *** The header *)

Definition noff_words (n : NoffHeader) : list Z :=
  noffMagic n :: concat (map (fun sg => [virtualAddr sg; inFileAddr sg; size sg])
    [code n; initData n; readonlyData n; uninitData n]).
Lemma bytes_words n : bytes_of_noff n = mjoin (map (le_split 4) (noff_words n)).
Proof. reflexivity. Qed.
Lemma length_noff n : length (bytes_of_noff n) = 52%nat.
Proof. reflexivity. Qed.

Lemma word_at_noff n k v body : noff_words n !! k = Some v -> is_s32 v -> word_at (take 52 (bytes_of_noff n ++ body)) k = v.
Proof.
  intros Hk Hv. rewrite take_app_le, take_ge by (rewrite length_noff; lia). unfold word_at. rewrite bytes_words.
  rewrite (slice_mjoin 4 k _ (le_split 4 v)).
  - rewrite le_combine_split. change (256 ^ Z.of_nat 4) with (2 ^ 32). change (v mod 2 ^ 32) with (u32 v).
    by rewrite s32_u32, s32_id.
  - apply Forall_map, Forall_forall. intros x _. apply length_le_split.
  - by rewrite list_lookup_fmap, Hk.
Qed.

(** What is written is what [Load] reads. *)
Lemma header_written n body : ints n -> header (bytes_of_noff n ++ body) = n.
Proof.
  intros [Hm Hk]. unfold header, noff_of_bytes, segment_at.
  destruct (Hk Text) as (? & ? & ?), (Hk Data) as (? & ? & ?), (Hk Rdata) as (? & ? & ?), (Hk Bss) as (? & ? & ?).
  rewrite (word_at_noff n 0 (noffMagic n)) by done.
  repeat match goal with |- context [word_at _ (?a + ?b)] => let c := eval compute in (a + b)%nat in change (a + b)%nat with c end.
  rewrite (word_at_noff n 1 (virtualAddr (code n))), (word_at_noff n 2 (inFileAddr (code n))),
    (word_at_noff n 3 (size (code n))), (word_at_noff n 4 (virtualAddr (initData n))),
    (word_at_noff n 5 (inFileAddr (initData n))), (word_at_noff n 6 (size (initData n))),
    (word_at_noff n 7 (virtualAddr (readonlyData n))), (word_at_noff n 8 (inFileAddr (readonlyData n))),
    (word_at_noff n 9 (size (readonlyData n))), (word_at_noff n 10 (virtualAddr (uninitData n))),
    (word_at_noff n 11 (inFileAddr (uninitData n))), (word_at_noff n 12 (size (uninitData n))) by done.
  by destruct n as [? [] [] [] []].
Qed.

(** *** The conversion *)

Definition sections_of (coff : list Z) : list scnhdr :=
  map (fun i => section_to_host (scnhdr_of_bytes (slice (76 + 40 * i) 40 coff))) (seq 0 (Z.to_nat (ushort_at coff 2))).

(** An object file that can be converted. *)
Record coff_ok (coff : list Z) : Prop := {
  co_bytes : Forall is_byte coff;
  co_magic : ushort_at coff 0 = MIPSELMAGIC;
  co_omagic : ushort_at coff 20 = OMAGIC;
  co_headers : 76 + 40 * ushort_at coff 2 <= zlen coff;
  co_sections : Forall (section_ok coff) (sections_of coff);
  co_distinct : distinct (sections_of coff);
  co_total : 52 + total (sections_of coff) < 2 ^ 31;
}.

(** The executable [noff] has the segments of the object file. *)
Definition converted (coff noff : list Z) : Prop :=
  Forall is_byte noff /\ noffMagic (header noff) = NOFFMAGIC /\ 52 <= zlen noff <= 52 + total (sections_of coff) /\ forall k,
  let sg := seg k (header noff) in
  match of_kind k (sections_of coff) with
  | s :: _ => virtualAddr sg = s_paddr s /\ size sg = s_size s /\ (k <> Bss ->
      52 <= inFileAddr sg /\ inFileAddr sg + size sg <= zlen noff /\
      slice (Z.to_nat (inFileAddr sg)) (Z.to_nat (size sg)) noff = section_bytes coff s)
  | [] => size sg = 0
  end.

Lemma describes_converted coff n body : ints n -> noffMagic n = NOFFMAGIC ->
  describes coff (sections_of coff) n body -> Forall is_byte body -> zlen body <= total (sections_of coff) ->
  converted coff (bytes_of_noff n ++ body).
Proof.
  intros HI HM HD HB HL. unfold converted. rewrite header_written by done. split; [|split; [done|]].
  { apply Forall_app. split; [|done]. unfold bytes_of_noff, segment_bytes. rewrite !Forall_app. split_and!; apply le_split_bytes. }
  rewrite zlen_app. change (zlen (bytes_of_noff n)) with 52. split; [pose proof (zlen_nonneg body); lia|]. intros k. cbn zeta. specialize (HD k).
  destruct (of_kind k (sections_of coff)) as [|s rest]; [done|]. destruct HD as (Hs & Hv & Hz & HF).
  split; [done|]. split; [done|]. intros Hb. destruct (HF Hb) as (Hf & Hl & Hbytes). rewrite Hz.
  split; [done|]. split; [lia|]. rewrite <- Hbytes. unfold slice. rewrite drop_app_ge by (rewrite length_noff; lia).
  by rewrite length_noff.
Qed.

Lemma section_ints_of coff : Forall section_ints (sections_of coff).
Proof. apply Forall_map, Forall_forall. intros k _. split; apply s32_range. Qed.

Lemma ushort_nonneg coff off : Forall is_byte coff -> 0 <= ushort_at coff off < 2 ^ 16.
Proof.
  intros Hb. pose proof (le_combine_range (slice off 2 coff) (Forall_slice _ _ _ _ Hb)) as Hr. unfold ushort_at.
  split; [lia|]. eapply Z.lt_le_trans; [apply Hr|]. change (2 ^ 16) with (256 ^ 2). apply Z.pow_le_mono_r; [done|].
  unfold zlen, slice. rewrite length_take. lia.
Qed.

(** The section headers, as the reads see them. *)
Lemma sections_read coff : Forall is_byte coff ->
  f_nscns (filehdr_of_bytes (slice 0 20 coff)) = ushort_at coff 2 /\
  map (fun i => section_to_host (scnhdr_of_bytes (slice (40 * i) 40 (slice 76 (Z.to_nat (ushort_at coff 2 * 40)) coff))))
    (seq 0 (Z.to_nat (ushort_at coff 2))) = sections_of coff.
Proof.
  intros Hb. pose proof (ushort_nonneg coff 2 Hb) as Hn. unfold filehdr_of_bytes. cbn [f_nscns].
  unfold ushort_at in *. rewrite !slice_slice by lia. cbn [Nat.add]. split; [done|].
  apply list_fmap_ext. intros k i [-> Hk]%lookup_seq. rewrite slice_slice; [done|]. unfold ushort_at in *. lia.
Qed.

(** The headers, as the three reads see them. *)
Lemma headers_read coff : coff_ok coff ->
  f_magic (filehdr_of_bytes (slice 0 20 coff)) = MIPSELMAGIC /\
  magic (aouthdr_of_bytes (slice 20 56 coff)) = OMAGIC.
Proof.
  intros []. unfold filehdr_of_bytes, aouthdr_of_bytes. cbn [f_magic magic].
  unfold ushort_at in *. rewrite !slice_slice by lia. cbn [Nat.add]. by rewrite co_omagic0.
Qed.

(** From the file header to the end, on the two open files. *)
Lemma convert_ok h0 noff i j coff fdIn fdOut junk : fdIn <> fdOut -> i <> j -> inodes h0 !! i = Some coff ->
  coff_ok coff -> ints junk ->
  exists a b out, convert noff junk fdIn fdOut (files_at h0 i j fdIn fdOut 0 [] 0) =
      Ok (set_fds (files_at h0 i j fdIn fdOut a out b)
            (delete fdOut (delete fdIn (fds (files_at h0 i j fdIn fdOut a out b)))), inr ()) /\
    converted coff out.
Proof.
  intros Hfd Hij Hcoff Hok HI. pose proof (headers_read coff Hok) as (H1 & H3). pose proof Hok as [].
  destruct (sections_read coff co_bytes0) as [H2 H4].
  pose proof (ushort_nonneg coff 2 co_bytes0) as Hn.
  pose proof (Read_in h0 noff i j coff fdIn fdOut Hfd Hij Hcoff) as HR.
  unfold convert, bind at 1. rewrite HR by (unfold sizeof_filehdr; lia). cbn [rbind].
  change (slice (Z.to_nat 0) (Z.to_nat sizeof_filehdr) coff) with (slice 0 20 coff). unfold ShortToHost. rewrite H1, H2.
  cbn [negb Z.eqb Pos.eqb MIPSELMAGIC]. unfold bind at 1. rewrite HR by (unfold sizeof_filehdr, sizeof_aouthdr; lia). cbn [rbind].
  change (slice (Z.to_nat (0 + sizeof_filehdr)) (Z.to_nat sizeof_aouthdr) coff) with (slice 20 56 coff). rewrite H3.
  cbn [negb Z.eqb Pos.eqb OMAGIC]. unfold bind at 1.
  rewrite HR by (unfold sizeof_filehdr, sizeof_aouthdr, sizeof_scnhdr; lia). cbn [rbind].
  change (Z.to_nat (0 + sizeof_filehdr + sizeof_aouthdr)) with 76%nat. cbn zeta.
  change sizeof_scnhdr with 40. rewrite H4.
  unfold bind at 1. rewrite lseek_out by done. cbn [rbind]. unfold bind at 1. set (a0 := 0 + sizeof_filehdr + _ + _) in *.
  destruct (copy_sections_ok h0 noff i j coff fdIn fdOut Hfd Hij Hcoff co_bytes0 (sections_of coff) [] (empty_noff junk) [] a0)
    as (n & body & a & E & HD & HM & HI' & HB & HL); try done; [apply section_ints_of| | |].
  - intros k. by destruct k.
  - destruct HI as [_ HK]. split; [done|]. intros k. destruct (HK k) as (? & ? & _). by destruct k.
  - change (zlen []) with 0 in *. change (52 + 0) with 52 in E. change (content []) with (@nil Z) in E.
    change sizeof_NoffHeader with 52. rewrite E. cbn [rbind]. unfold bind at 1. rewrite lseek_out by done. cbn [rbind].
    unfold bind at 1. rewrite Write_out. cbn [rbind]. rewrite write_header by done. unfold bind, close. cbn [rbind].
    replace (SwapHeader n) with n by (by destruct n as [? [] [] [] []]).
    exists a, (0 + zlen (bytes_of_noff n)), (bytes_of_noff n ++ body). split; [done|].
    apply describes_converted; done || (rewrite HM; done) || lia.
Qed.

(** *** When the converter is undefined *)

(** A section whose bytes [copy_segment] reads, of negative size. *)
Definition negative_read (ss : list scnhdr) : Prop := exists s, s ∈ ss /\ s_size s < 0 /\
  (kind_of s = Some Text \/ kind_of s = Some Data \/ kind_of s = Some Rdata).

Section undefined.
Context (noff : option path) (i : positive) (coff : list Z) (fdIn fdOut : Z).
Hypotheses (Hfd : fdIn <> fdOut) (Hbytes : Forall is_byte coff).

(** The input is open at [a], and the output is another file, or not open. *)
Definition input_at (a : Z) (h : Host) : Prop :=
  0 <= a /\ fds h !! fdIn = Some (File i a) /\ inodes h !! i = Some coff /\
  forall j b, fds h !! fdOut = Some (File j b) -> j <> i.

(** From a host of [P] the part goes on in one of [Q] or ends the process; [F]
    is why it may be undefined. *)
Definition runs {A} (P : Host -> Prop) (p : prog A) (Q : A -> Host -> Prop) (F : Prop) : Prop := forall h, P h ->
  match p h with
  | Ok (h', inr x) => Q x h'
  | Ok (_, inl _) => True
  | Fault f => f = OutOfBounds /\ F
  end.

Lemma runs_bind {A B} P (p : prog A) Q (f : A -> prog B) R F : runs P p Q F ->
  (forall x, runs (Q x) (f x) R F) -> runs P (bind p f) R F.
Proof using.
  intros Hp Hf h HP. unfold bind. specialize (Hp h HP). destruct (p h) as [[h1 [c|x]]|e]; cbn [rbind]; try done.
  by apply Hf.
Qed.
Lemma die_exits {A} h : exists h', die noff (A := A) h = Ok (h', inl 1).
Proof using. unfold die, bind, unlink, exit. by destruct noff; eexists. Qed.
Ltac dies := match goal with |- context [@die noff ?A ?h] => by destruct (@die_exits A h) as [? ->] end.
Lemma runs_die {A} P Q F : runs P (die noff (A := A)) Q F.
Proof using. intros h _. dies. Qed.

Lemma runs_Read a n : runs (input_at a) (Read noff fdIn n)
  (fun bs h => input_at (a + n) h /\ bs = slice (Z.to_nat a) (Z.to_nat n) coff) (n < 0).
Proof using Hfd.
  intros h (Ha & Hin & Hc & Ho). unfold Read, bind, read, ReadPartial.
  destruct (Z.ltb_spec n 0) as [Hn|Hn]; [done|]. unfold file_at. rewrite Hin. cbn. rewrite Hc. cbn.
  set (got := slice _ _ _). destruct (Z.eqb_spec (zlen got) n) as [El|Hl].
  - unfold ret. split; [|done]. unfold input_at. rewrite El. cbn. split; [lia|].
    rewrite lookup_insert_eq, lookup_insert_ne by done. by split_and!.
  - dies.
Qed.
Lemma runs_lseek_in a off F : runs (input_at a) (lseek fdIn off)
  (fun _ h => exists a', input_at a' h) F.
Proof using Hfd.
  intros h (Ha & Hin & Hc & Ho). unfold lseek, file_at. rewrite Hin. cbn. rewrite Hc. cbn.
  destruct (Z.leb_spec 0 off); [exists off|by exists a]. unfold input_at. cbn.
  rewrite lookup_insert_eq, lookup_insert_ne by done. by split_and!.
Qed.
Lemma runs_lseek_out a off F : runs (input_at a) (lseek fdOut off) (fun _ => input_at a) F.
Proof using Hfd.
  intros h H. pose proof H as (Ha & Hin & Hc & Ho). unfold lseek, file_at.
  destruct (fds h !! fdOut) as [[j b|]|] eqn:E; cbn; try done. destruct (inodes h !! j) as [bs|] eqn:Ej; cbn; [|done].
  destruct (0 <=? off); [|done]. unfold input_at. cbn. rewrite lookup_insert_ne, lookup_insert_eq by done.
  split_and!; try done. intros j' b' [= <- _]. by apply (Ho j b).
Qed.
Lemma runs_Write a bs F : runs (input_at a) (Write noff fdOut bs) (fun _ => input_at a) F.
Proof using Hfd.
  intros h H. pose proof H as (Ha & Hin & Hc & Ho). unfold Write, bind, write, WriteFile, file_at.
  destruct (fds h !! fdOut) as [[j b|]|] eqn:E; cbn [mbind option_bind rbind].
  2, 3: destruct (-1 =? zlen bs); [done|dies].
  destruct (inodes h !! j) as [old|] eqn:Ej; cbn [mbind option_bind rbind].
  2: { destruct (-1 =? zlen bs); [done|dies]. }
  rewrite Z.eqb_refl. unfold ret, input_at. cbn. pose proof (Ho j b eq_refl) as Hj.
  rewrite lookup_insert_ne, lookup_insert_eq, lookup_insert_ne by done. split_and!; try done.
  intros j' b' [= <- _]. done.
Qed.

Lemma runs_copy_segment s a : runs (input_at a) (copy_segment noff fdIn fdOut s)
  (fun _ h => exists a', input_at a' h) (s_size s < 0).
Proof using Hfd.
  unfold copy_segment. eapply runs_bind; [apply runs_lseek_in|]. intros _ h [a' Ha']. revert h Ha'.
  eapply runs_bind; [apply runs_Read|]. intros bs h [Hin _].
  pose proof (runs_Write (a' + s_size s) bs (s_size s < 0) h Hin) as HW.
  destruct (Write noff fdOut bs h) as [[h' [c|[]]]|f]; try done. by exists (a' + s_size s).
Qed.

Lemma runs_copy_sections ss : forall n pos a, runs (input_at a) (copy_sections noff fdIn fdOut ss n pos)
  (fun _ h => exists a', input_at a' h) (negative_read ss).
Proof using Hfd.
  induction ss as [|s ss IH]; intros n pos a h Hin; [by exists a|].
  assert (Hmore : forall n pos a h, input_at a h -> match copy_sections noff fdIn fdOut ss n pos h with
    | Ok (h', inr _) => exists a', input_at a' h' | Ok (_, inl _) => True
    | Fault f => f = OutOfBounds /\ negative_read (s :: ss) end).
  { intros n' pos' a' h' Hin'. specialize (IH n' pos' a' h' Hin'). destruct (copy_sections _ _ _ _ _ _ _) as [|f]; [done|].
    destruct IH as [-> (s' & Hs' & Hneg)]. split; [done|]. exists s'. split; [by right|done]. }
  assert (Hcopy : forall n pos, kind_of s = Some Text \/ kind_of s = Some Data \/ kind_of s = Some Rdata ->
    match (copy_segment noff fdIn fdOut s ;~ copy_sections noff fdIn fdOut ss n pos) h with
    | Ok (h', inr _) => exists a', input_at a' h' | Ok (_, inl _) => True
    | Fault f => f = OutOfBounds /\ negative_read (s :: ss) end).
  { intros n' pos' Hk. unfold bind. pose proof (runs_copy_segment s a h Hin) as HC.
    destruct (copy_segment noff fdIn fdOut s h) as [[h' [c|[]]]|f]; cbn [rbind]; [done| |].
    - destruct HC as [a' Ha']. by apply (Hmore n' pos' a').
    - destruct HC as [-> Hneg]. split; [done|]. exists s. split; [by left|done]. }
  cbn [copy_sections]. unfold kind_of in Hcopy. destruct (s_size s =? 0); [by apply (Hmore _ _ a)|].
  destruct (named s text); [apply Hcopy; by left|]. destruct (named s data); [apply Hcopy; by auto|].
  destruct (named s rdata); [apply Hcopy; by auto|]. destruct (named s bss); [|dies].
  cbn zeta. destruct (negb _); [|by apply (Hmore _ _ a)].
  destruct (_ =? _); [dies|by apply (Hmore _ _ a)].
Qed.

Lemma runs_convert junk : runs (input_at 0) (convert noff junk fdIn fdOut) (fun _ _ => True)
  (negative_read (sections_of coff)).
Proof using Hfd Hbytes.
  pose proof (ushort_nonneg coff 2 Hbytes) as Hn. destruct (sections_read coff Hbytes) as [Hns Hss].
  assert (HR : forall a n, 0 <= n -> runs (input_at a) (Read noff fdIn n)
    (fun bs h => input_at (a + n) h /\ bs = slice (Z.to_nat a) (Z.to_nat n) coff) (negative_read (sections_of coff))).
  { intros a n Hn0 h Hin. pose proof (runs_Read a n h Hin) as H0. destruct (Read _ _ _ h) as [|f]; [done|]. lia. }
  unfold convert. eapply runs_bind; [apply HR; done|]. intros fileh h [Hin ->]. revert h Hin.
  change (slice (Z.to_nat 0) (Z.to_nat sizeof_filehdr) coff) with (slice 0 20 coff). unfold ShortToHost.
  destruct (negb _); [apply runs_die|]. eapply runs_bind; [apply HR; done|]. intros sysh h [Hin _]. revert h Hin.
  destruct (negb _); [apply runs_die|]. cbn zeta. rewrite Hns.
  eapply runs_bind; [apply HR; unfold sizeof_scnhdr; lia|]. intros bs h [Hin ->]. revert h Hin.
  change (Z.to_nat (0 + sizeof_filehdr + sizeof_aouthdr)) with 76%nat. change sizeof_scnhdr with 40. rewrite Hss.
  eapply runs_bind; [apply runs_lseek_out|]. intros u.
  eapply runs_bind; [apply runs_copy_sections|]. intros n h [a Hin]. revert h Hin.
  eapply runs_bind; [apply runs_lseek_out|]. intros u'. eapply runs_bind; [apply runs_Write|]. by intros u'' h Hin.
Qed.

(** An input that is not there, or that opening the output emptied. *)
Lemma convert_no_input junk h :
  match fds h !! fdIn with Some (File i' a) => default [] (inodes h !! i') = [] | _ => True end ->
  exists h', convert noff junk fdIn fdOut h = Ok (h', inl 1).
Proof using.
  intros Hno. pose proof (@die_exits (list Z)) as Hd.
  assert (Hr : exists h', Read noff fdIn sizeof_filehdr h = Ok (h', inl 1)).
  { unfold Read, bind, read, ReadPartial, file_at. cbn [Z.ltb Z.compare sizeof_filehdr].
    destruct (fds h !! fdIn) as [[i' a|]|]; cbn; try apply Hd.
    destruct (inodes h !! i') as [bs|]; cbn in *; [subst bs|apply Hd].
    unfold slice. rewrite drop_nil, take_nil. cbn. apply Hd. }
  destruct Hr as [h' Hr]. exists h'. unfold convert, bind at 1. by rewrite Hr.
Qed.
End undefined.

Lemma main_fault junk coffName rest h : fds h !! (-1) = None ->
  (forall i bs, inodes h !! i = Some bs -> Forall is_byte bs) ->
  match main junk (coffName :: rest) h with
  | Ok _ => True
  | Fault f => f = OutOfBounds /\ exists i coff, dir h !! coffName = Some i /\ inodes h !! i = Some coff /\
      negative_read (sections_of coff)
  end.
Proof.
  intros Hm1 Hbytes. unfold main, bind at 1, open_RDONLY. destruct (dir h !! coffName) as [i|] eqn:Hdir; [|done].
  case_bool_decide as Hp; [done|]. cbn [rbind]. set (fdIn := lowest_fd h).
  pose proof (StubFS.lowest_fd_fresh h) as [Hfr Hfd0]. fold fdIn in Hfr, Hfd0.
  rewrite (proj2 (Z.eqb_neq fdIn (-1))) by lia. set (h1 := set_fds h (<[fdIn := File i 0]> (fds h))).
  set (body := fun fdOut : Z => _). change (match bind (open_CREAT (head rest)) body h1 with Ok _ => True | Fault f => f = OutOfBounds /\
    exists i0 coff, Some i = Some i0 /\ inodes h !! i0 = Some coff /\ negative_read (sections_of coff) end).
  assert (Hend : forall fdOut h2, fdIn <> fdOut -> fds h2 !! fdIn = Some (File i 0) ->
    (forall j b, fds h2 !! fdOut = Some (File j b) -> j = i -> inodes h2 !! i = Some []) ->
    (default [] (inodes h2 !! i) = [] \/ inodes h2 !! i = inodes h !! i) ->
    match body fdOut h2 with Ok _ => True | Fault f => f = OutOfBounds /\
      exists i0 coff, Some i = Some i0 /\ inodes h !! i0 = Some coff /\ negative_read (sections_of coff) end).
  { intros fdOut h2 Hne Hin Hout Hor. unfold body, bind.
    destruct (decide (default [] (inodes h2 !! i) = [])) as [He|He].
    - destruct (convert_no_input (head rest) fdIn fdOut junk h2) as [h' E]; [by rewrite Hin|]. by rewrite E.
    - destruct Hor as [?|Hsame]; [done|]. destruct (inodes h2 !! i) as [coff|] eqn:Ei; [|done]. cbn in He.
      pose proof (runs_convert (head rest) i coff fdIn fdOut Hne (Hbytes i coff (eq_sym Hsame)) junk h2) as HR.
      destruct (convert _ _ _ _ h2) as [[h3 [c|[]]]|f]; cbn [rbind]; [done|done|].
      destruct HR as [-> Hneg]; [|split; [done|]; by exists i, coff].
      split; [done|]. split; [done|]. split; [done|]. intros j b Hj ->. pose proof (Hout i b Hj eq_refl) as Ho. by simplify_eq. }
  unfold bind, open_CREAT. destruct (head rest) as [name|] eqn:Hname.
  2: { cbn [rbind]. apply Hend; [lia|apply lookup_insert_eq| |by right].
       intros j b. change (fds h1) with (<[fdIn := File i 0]> (fds h)). rewrite lookup_insert_ne by lia. congruence. }
  case_bool_decide as Hp2.
  { cbn [rbind]. apply Hend; [lia|apply lookup_insert_eq| |by right].
    intros j b. change (fds h1) with (<[fdIn := File i 0]> (fds h)). rewrite lookup_insert_ne by lia. congruence. }
  unfold OpenForWrite. rewrite bool_decide_eq_false_2 by done. cbn [negb ASSERT rbind].
  pose proof (StubFS.lowest_fd_fresh h1) as [Hfr1 _]. set (fdOut := lowest_fd h1) in *.
  assert (Hne : fdIn <> fdOut).
  { intros E. rewrite <- E in Hfr1. change (fds h1) with (<[fdIn := File i 0]> (fds h)) in Hfr1. by rewrite lookup_insert_eq in Hfr1. }
  change (inodes h1) with (inodes h). change (dir h1) with (dir h). change (fds h1) with (<[fdIn := File i 0]> (fds h)).
  set (j := from_option _ _ _). apply Hend; cbn; [done| | |].
  - by rewrite lookup_insert_ne, lookup_insert_eq.
  - intros j' b. rewrite lookup_insert_eq. intros [= <- _] ->. apply lookup_insert_eq.
  - destruct (decide (j = i)) as [->|Hji]; [left; by rewrite lookup_insert_eq|right; by rewrite lookup_insert_ne].
Qed.

(** C38. The converter leaves no partial output and always ends: whatever the input
    file and the host, the process exits with code 0 or 1, and with 1 only when
    it could not open its input, or wrote no file, or has removed the file it
    wrote.  The only exception is an input with a [.text], [.data] or [.rdata]
    section of negative size: there the program reads a negative number of bytes
    into a buffer of that size, which is undefined. *)
Theorem main_leaves_no_partial_file junk coffName rest h (Hfds : fds h !! (-1) = None)
    (Hbytes : forall i bs, inodes h !! i = Some bs -> Forall is_byte bs) :
  match main junk (coffName :: rest) h with
  | Ok (h', r) => r = inl 0 \/
      r = inl 1 /\ ((h' = h /\ (dir h !! coffName = None \/ coffName ∈ protected h)) \/
                    protected h' = protected h /\ gone (head rest) h')
  | Fault f => f = OutOfBounds /\ exists i coff s, dir h !! coffName = Some i /\ inodes h !! i = Some coff /\
      s ∈ sections_of coff /\ s_size s < 0 /\
      (kind_of s = Some Text \/ kind_of s = Some Data \/ kind_of s = Some Rdata)
  end.
Proof.
  pose proof (main_tidy junk coffName rest h) as HT. pose proof (main_fault junk coffName rest h Hfds Hbytes) as HF.
  destruct (main junk (coffName :: rest) h) as [[h' r]|f]; [exact HT|].
  destruct HF as (-> & i & coff & Hd & Hi & s & Hs & Hneg). split; [done|]. by exists i, coff, s.
Qed.

Lemma closed_fds (m : gmap Z desc) fdIn fdOut d d' : m !! fdIn = None -> m !! fdOut = None ->
  delete fdOut (delete fdIn (<[fdOut := d]> (<[fdIn := d']> m))) = m.
Proof.
  intros Hi Ho. apply map_eq. intros fd. destruct (decide (fd = fdOut)) as [->|Hn]; [by rewrite lookup_delete_eq|].
  rewrite lookup_delete_ne by done. destruct (decide (fd = fdIn)) as [->|Hn']; [by rewrite lookup_delete_eq|].
  by rewrite lookup_delete_ne, !lookup_insert_ne.
Qed.

(** C13. The converter is correct: for an object file with the two magic numbers,
    sections of known names that lie in it, each kind at most once, it ends with
    exit code 0, closes its files, changes nothing on the host but the file it
    was asked to write, and that file is a NOFF executable whose header, as
    [AddrSpace::Load] reads it, gives each segment the address and size of the
    section and the bytes the section has in the object file. *)
Theorem coff2noff_exact junk coffName noffName h i coff (Hdir : dir h !! coffName = Some i)
    (Hin : coffName ∉ protected h) (Hout : noffName ∉ protected h) (Hother : dir h !! noffName <> Some i)
    (Hfile : inodes h !! i = Some coff) (Hcoff : coff_ok coff) (Hjunk : ints junk) :
  exists h' j noff, main junk [coffName; noffName] h = Ok (h', inl 0) /\
    dir h' = <[noffName := j]> (dir h) /\ inodes h' = <[j := noff]> (inodes h) /\ fds h' = fds h /\
    converted coff noff.
Proof.
  set (fdIn := lowest_fd h). pose proof (StubFS.lowest_fd_fresh h) as [Hfr Hfd0]. fold fdIn in Hfr, Hfd0.
  set (h1 := set_fds h (<[fdIn := File i 0]> (fds h))). set (fdOut := lowest_fd h1).
  pose proof (StubFS.lowest_fd_fresh h1) as [Hfr1 _]. fold fdOut in Hfr1. change (fds h1) with (<[fdIn := File i 0]> (fds h)) in Hfr1.
  assert (Hfd : fdIn <> fdOut) by (intros E; rewrite <- E, lookup_insert_eq in Hfr1; done).
  rewrite lookup_insert_ne in Hfr1 by done.
  set (j := from_option id (fresh (dom (inodes h))) (dir h !! noffName)).
  assert (Hij : i <> j).
  { unfold j. intros E. destruct (dir h !! noffName) as [j'|] eqn:Ej; cbn in E; [by rewrite E in Hother|].
    apply (is_fresh (dom (inodes h))). rewrite <- E. by apply elem_of_dom. }
  set (h0 := mkHost (<[noffName := j]> (dir h)) (inodes h) (fds h) (protected h)).
  destruct (convert_ok h0 (Some noffName) i j coff fdIn fdOut junk Hfd Hij Hfile Hcoff Hjunk) as (a & b & out & E & HC).
  eexists _, j, out. split; [|split; [|split; [|split; [|exact HC]]]].
  - unfold main, bind at 1, open_RDONLY. rewrite Hdir, bool_decide_eq_false_2 by done. cbn [rbind]. fold fdIn h1.
    rewrite (proj2 (Z.eqb_neq fdIn (-1))) by lia. unfold bind at 1. cbn [head open_CREAT].
    rewrite bool_decide_eq_false_2 by done. unfold OpenForWrite. rewrite bool_decide_eq_false_2 by done.
    cbn [negb ASSERT rbind]. fold fdOut. change (inodes h1) with (inodes h). change (dir h1) with (dir h). fold j.
    change (mkHost _ _ _ _) with (files_at h0 i j fdIn fdOut 0 [] 0). unfold bind. rewrite E. cbn [rbind]. done.
  - done.
  - done.
  - by apply closed_fds.
Qed.

(** The check on a second [.bss] is the wrong way round: the section that
    continues the first is refused, another one is taken for its continuation. *)
Lemma bss_check_inverted noff fdIn fdOut s n pos h : s_size s <> 0 -> kind_of s = Some Bss -> size (uninitData n) <> 0 ->
  copy_sections noff fdIn fdOut [s] n pos h =
  if s_paddr s =? s32 (virtualAddr (uninitData n) + size (uninitData n)) then die noff h
  else Ok (h, inr (set_uninitData n (mkSegment (virtualAddr (uninitData n)) (inFileAddr (uninitData n))
                     (s32 (size (uninitData n) + s_size s))))).
Proof.
  intros Hs Hk Hz. cbn [copy_sections]. rewrite (proj2 (Z.eqb_neq _ _) Hs), (proj2 (Z.eqb_neq _ _) Hz). unfold kind_of in Hk.
  repeat case_match; simplify_eq; done.
Qed.

(** *** From the object file to memory *)

#[local] Abbreviation PageSize := Machine.PageSize.
#[local] Abbreviation NumPhysPages := Machine.NumPhysPages.

(** The section of a kind, and what the program should find there. *)
Definition section (k : kind) (coff : list Z) : option scnhdr := head (of_kind k (sections_of coff)).
Definition section_size (k : kind) (coff : list Z) : Z := from_option s_size 0 (section k coff).
Definition section_contents (coff : list Z) (k : kind) (s : scnhdr) : list Z :=
  if decide (k = Bss) then replicate (Z.to_nat (s_size s)) 0 else section_bytes coff s.

Definition pages (coff : list Z) : Z :=
  divRoundUp (section_size Text coff + 0 + section_size Data coff + section_size Bss coff + UserStackSize) PageSize.

(** A program without [.rdata], whose other sections (any of them may be missing)
    do not overlap in the address space and lie below the stack and the
    arguments. *)
Record plain (coff : list Z) (args : list (list Z)) : Prop := {
  pn_rdata : section Rdata coff = None;
  pn_apart : forall k k' s s', section k coff = Some s -> section k' coff = Some s' -> k <> k' ->
    s_paddr s + s_size s <= s_paddr s' \/ s_paddr s' + s_size s' <= s_paddr s;
  pn_inside : forall k s, section k coff = Some s ->
    0 <= s_paddr s /\ s_paddr s + s_size s <= args_sp (PageSize * pages coff) args;
  pn_pages : pages coff <= NumPhysPages;
  pn_args : Forall (Forall is_byte) args;
  pn_fit : args_fit (PageSize * pages coff) args;
}.

Lemma args_below space args : args_fit space args ->
  0 <= args_argv space args /\ args_sp space args + 4 <= args_argv space args /\
  args_argv space args + 4 * (zlen args + 1) <= args_ptr space args /\
  args_ptr space args + zlen (arg_bytes args) <= space.
Proof.
  unfold args_fit, args_sp, args_argv, args_ptr. intros Hf.
  pose proof (zlen_nonneg (arg_bytes args)). pose proof (zlen_nonneg args). zlia.
Qed.

(** The arguments are above the stack. *)
Lemma slice_put_args space args vm a n : args_fit space args -> zlen vm = space -> 0 <= a -> 0 <= n ->
  a + n <= args_sp space args ->
  slice (Z.to_nat a) (Z.to_nat n) (put_args space args vm) = slice (Z.to_nat a) (Z.to_nat n) vm.
Proof.
  intros Hf Hl Ha Hn He. pose proof (args_below space args Hf) as (H0 & H1 & H2 & H3). unfold put_args.
  pose proof (length_pointer_bytes args (args_ptr space args)) as Hp. unfold zlen in *.
  assert (HL : length (splice (Z.to_nat (args_ptr space args)) (arg_bytes args) vm) = length vm) by (apply length_splice; lia).
  rewrite slice_splice_out by lia. by rewrite slice_splice_out by lia.
Qed.

(** Zeros stay zeros where nothing is put. *)
Lemma slice_zeros a n k : (a + n <= k)%nat -> slice a n (replicate k 0) = replicate n 0.
Proof. intros. unfold slice. rewrite drop_replicate, take_replicate. f_equal. lia. Qed.

(** Reading at [a] what was not put at [p]. *)
Lemma slice_put (p : nat) (new vm : list Z) a n :
  new = [] \/ ((p + length new <= length vm)%nat /\ (a + n <= p \/ p + length new <= a)%nat) ->
  slice a n (splice p new vm) = slice a n vm.
Proof. intros [-> | [Hl Ho]]; [by rewrite splice_nil|]. by apply slice_splice_out. Qed.

Lemma length_put (p : nat) (new vm : list Z) :
  new = [] \/ (p + length new <= length vm)%nat -> length (splice p new vm) = length vm.
Proof. intros [-> | Hl]; [by rewrite splice_nil|]. by apply length_splice. Qed.

Section loading.
Context (coff noff : list Z) (args : list (list Z)).
Hypotheses (Hok : coff_ok coff) (Hplain : plain coff args) (Hconv : converted coff noff).

Lemma section_pos k s : section k coff = Some s -> 0 < s_size s.
Proof using Hok.
  unfold section. intros Hs%head_Some_elem_of. apply list_elem_of_filter in Hs as [[Hne _] Hin].
  destruct Hok. rewrite Forall_forall in co_sections0. destruct (co_sections0 s Hin) as [?|[? _]]; lia.
Qed.

Lemma section_size_nonneg k : 0 <= section_size k coff.
Proof using Hok.
  unfold section_size. destruct (section k coff) as [s|] eqn:E; [|done]. cbn. pose proof (section_pos k s E). lia.
Qed.

(** What the header says of a segment. *)
Lemma plain_segment k : size (seg k (header noff)) = section_size k coff /\
  forall s, section k coff = Some s -> virtualAddr (seg k (header noff)) = s_paddr s /\ (k <> Bss ->
    52 <= inFileAddr (seg k (header noff)) /\ inFileAddr (seg k (header noff)) + s_size s <= zlen noff /\
    slice (Z.to_nat (inFileAddr (seg k (header noff)))) (Z.to_nat (s_size s)) noff = section_bytes coff s).
Proof using Hconv.
  destruct Hconv as (_ & _ & _ & HK). specialize (HK k). cbn zeta in HK. unfold section_size, section.
  destruct (of_kind k (sections_of coff)) as [|s rest]; cbn [head from_option]; [done|].
  destruct HK as (Hv & Hz & HB). split; [done|]. intros s' [= <-]. split; [done|]. rewrite <- Hz. exact HB.
Qed.

Lemma plain_space : space_pages (header noff) = pages coff /\ size (readonlyData (header noff)) = 0.
Proof using Hconv Hplain.
  assert (Hz : forall k, size (seg k (header noff)) = section_size k coff) by (intros k; apply (plain_segment k)).
  pose proof (Hz Text) as HT. pose proof (Hz Data) as HD. pose proof (Hz Rdata) as HR. pose proof (Hz Bss) as HB.
  cbn [seg] in *. unfold section_size at 1 in HR. rewrite (pn_rdata _ _ Hplain) in HR. cbn [from_option] in HR.
  split; [|done]. unfold space_pages, pages. by rewrite HT, HD, HR, HB.
Qed.

Lemma plain_inside k : 0 < section_size k coff -> 0 <= virtualAddr (seg k (header noff)) /\
  virtualAddr (seg k (header noff)) + section_size k coff <= PageSize * pages coff.
Proof using Hconv Hplain.
  intros Hpos. destruct (plain_segment k) as [_ Hs]. unfold section_size in *.
  destruct (section k coff) as [s|] eqn:E; [|done]. destruct (Hs s eq_refl) as [-> _]. cbn [from_option] in *.
  destruct (pn_inside _ _ Hplain k s E). pose proof (args_below _ _ (pn_fit _ _ Hplain)) as (A0 & A1 & A2 & A3).
  pose proof (zlen_nonneg (arg_bytes args)). pose proof (zlen_nonneg args). lia.
Qed.

Lemma plain_fits k : k <> Bss -> 0 < section_size k coff ->
  fits (PageSize * pages coff) (zlen noff) (seg k (header noff)) (section_size k coff).
Proof using Hconv Hplain.
  intros Hk Hpos. destruct (plain_inside k Hpos) as [H0 H1]. destruct (plain_segment k) as [_ Hs].
  unfold section_size in *. destruct (section k coff) as [s|] eqn:E; [|done]. cbn [from_option] in *.
  destruct (Hs s eq_refl) as (_ & HF). destruct (HF Hk) as (? & ? & _). unfold fits. lia.
Qed.

Lemma plain_loadable : loadable noff args.
Proof using Hok Hplain Hconv.
  destruct plain_space as [Hs Hro]. pose proof Hconv as (Hb & Hm & Hl & _). pose proof (co_total _ Hok).
  assert (Hz : forall k, size (seg k (header noff)) = section_size k coff) by (intros k; apply (plain_segment k)).
  pose proof (plain_fits Text) as FT. pose proof (plain_fits Data) as FD. pose proof (plain_inside Bss) as FB.
  pose proof (Hz Text) as HT. pose proof (Hz Data) as HD. pose proof (Hz Bss) as HB. cbn [seg] in *.
  constructor; rewrite ?Hs, ?Hro, ?HT, ?HD, ?HB; try apply Hplain; try done.
  - unfold sizeof_NoffHeader. lia.
  - split; [apply section_size_nonneg|]. by apply FT.
  - split; [apply section_size_nonneg|]. by apply FD.
  - split; [apply section_size_nonneg|done].
Qed.

(** Memory, as a segment is put there. *)
Definition put (k : kind) (vm : list Z) : list Z :=
  splice (Z.to_nat (virtualAddr (seg k (header noff)))) (from_option (section_contents coff k) [] (section k coff)) vm.

Lemma contents_size k s : section k coff = Some s -> length (section_contents coff k s) = Z.to_nat (s_size s).
Proof using Hok.
  intros E. unfold section_contents. case_decide as Hk; [apply length_replicate|].
  pose proof (section_pos k s E) as Hpos. unfold section in E. apply head_Some_elem_of in E.
  apply list_elem_of_filter in E as [[Hne Hk'] Hin]. pose proof (co_sections _ Hok) as Hs. rewrite Forall_forall in Hs.
  destruct (Hs s Hin) as [?|(_ & k' & Hk2 & HF)]; [done|]. assert (k' = k) as -> by congruence.
  destruct (HF Hk). unfold section_bytes. apply length_slice. unfold zlen in *. lia.
Qed.

Lemma put_length k vm : zlen vm = PageSize * pages coff -> zlen (put k vm) = zlen vm.
Proof using Hok Hplain Hconv.
  intros Hl. unfold put, zlen in *. f_equal. apply length_put. pose proof (plain_inside k) as Hi.
  unfold section_size in Hi. destruct (section k coff) as [s|] eqn:E; [right|by left]. cbn [from_option] in *.
  rewrite (contents_size k s E). pose proof (section_pos k s E). lia.
Qed.

Lemma put_same k s vm : section k coff = Some s -> zlen vm = PageSize * pages coff ->
  slice (Z.to_nat (s_paddr s)) (Z.to_nat (s_size s)) (put k vm) = section_contents coff k s.
Proof using Hok Hplain Hconv.
  intros E Hl. destruct (plain_segment k) as [_ Hs]. destruct (Hs s E) as [Hv _]. pose proof (plain_inside k) as Hi.
  unfold put, section_size in *. rewrite E in *. cbn [from_option] in *. rewrite Hv in *.
  rewrite <- (contents_size k s E). apply slice_splice. rewrite (contents_size k s E).
  pose proof (section_pos k s E). unfold zlen in *. lia.
Qed.

Lemma put_other k k' s vm : section k coff = Some s -> k' <> k -> zlen vm = PageSize * pages coff ->
  slice (Z.to_nat (s_paddr s)) (Z.to_nat (s_size s)) (put k' vm) =
  slice (Z.to_nat (s_paddr s)) (Z.to_nat (s_size s)) vm.
Proof using Hok Hplain Hconv.
  intros E Hne Hl. unfold put. apply slice_put. pose proof (plain_inside k') as Hi. unfold section_size in Hi.
  destruct (plain_segment k') as [_ Hs']. destruct (section k' coff) as [s'|] eqn:E'; [right|by left].
  cbn [from_option] in *. destruct (Hs' s' eq_refl) as [Hv _]. rewrite Hv in *. rewrite (contents_size k' s' E').
  destruct (pn_apart _ _ Hplain k k' s s' E E' (not_eq_sym Hne)), (pn_inside _ _ Hplain k s E);
    pose proof (section_pos k s E); pose proof (section_pos k' s' E'); unfold zlen in *; lia.
Qed.

Lemma image_puts : image noff args = put_args (PageSize * pages coff) args
  (put Data (put Bss (put Text (replicate (Z.to_nat (PageSize * pages coff)) 0)))).
Proof using Hok Hplain Hconv.
  destruct plain_space as [Hs Hro]. unfold image. cbn zeta. rewrite Hs, Hro. cbn [Z.ltb Z.compare].
  assert (Hseg : forall k vm, k <> Bss -> put_segment noff (seg k (header noff)) (size (seg k (header noff))) vm = put k vm).
  { intros k vm Hk. unfold put_segment, put. f_equal. destruct (plain_segment k) as [-> HF]. unfold section_size.
    destruct (section k coff) as [s|] eqn:E; cbn [from_option]; [|by unfold slice; rewrite take_0].
    destruct (HF s eq_refl) as [_ HB]. destruct (HB Hk) as (_ & _ & ->). unfold section_contents. by rewrite decide_False. }
  assert (Hz : forall vm, put_zeros (uninitData (header noff)) vm = put Bss vm).
  { intros vm. unfold put_zeros, put. f_equal. destruct (plain_segment Bss) as [E _]. cbn [seg] in E. rewrite E.
    unfold section_size. by destruct (section Bss coff). }
  pose proof (Hseg Text) as HT. pose proof (Hseg Data) as HD. cbn [seg] in HT, HD. by rewrite HT, Hz, HD.
Qed.

(** What the program sees where its sections belong. *)
Lemma plain_image k s : section k coff = Some s ->
  slice (Z.to_nat (s_paddr s)) (Z.to_nat (s_size s)) (image noff args) = section_contents coff k s.
Proof using Hok Hplain Hconv.
  intros E. destruct (pn_inside _ _ Hplain k s E) as [H0 H1]. pose proof (section_pos k s E) as Hpos.
  pose proof (args_below _ _ (pn_fit _ _ Hplain)) as (A0 & A1 & A2 & A3). pose proof (zlen_nonneg (arg_bytes args)).
  pose proof (zlen_nonneg args).
  rewrite image_puts. set (vm0 := replicate _ 0).
  assert (L0 : zlen vm0 = PageSize * pages coff) by (unfold zlen, vm0; rewrite length_replicate; lia).
  assert (L1 : zlen (put Text vm0) = PageSize * pages coff) by (by rewrite put_length).
  assert (L2 : zlen (put Bss (put Text vm0)) = PageSize * pages coff) by (by rewrite put_length).
  assert (L3 : zlen (put Data (put Bss (put Text vm0))) = PageSize * pages coff) by (by rewrite put_length).
  rewrite slice_put_args by (apply Hplain || lia).
  destruct k.
  - rewrite (put_other Text Data), (put_other Text Bss) by done. by apply (put_same Text).
  - by apply (put_same Data).
  - by rewrite (pn_rdata _ _ Hplain) in E.
  - rewrite (put_other Bss Data) by done. by apply (put_same Bss).
Qed.
End loading.

Section program_loads.
Context {N : Type} `{TCP N}.
Implicit Types (fs : StubFS.FS N).

(** C12. The converter and the loader agree, for programs without an [.rdata]
    section: when the sections of an object file (at most one each of [.text],
    [.data] and [.bss]) do not overlap in the address space and lie below the
    stack and the arguments, the NOFF file converted from it is one that
    [AddrSpace::Load] loads, on fresh frames, and the program then finds the bytes
    of its [.text] and [.data] sections at the addresses it was linked for, and
    zeros in its [.bss].  An [.rdata] section is left out because [Load] takes
    its address for its size. *)
Theorem converted_program_loads coff noff junkH junk fileName args m fs name i strs l
    (Hok : coff_ok coff) (Hconv : converted coff noff) (Hplain : plain coff strs)
    (Hfs : StubFS.fs_ok fs) (Hname : StubFS.string_at fileName fs = Ok name)
    (Hdir : dir (StubFS.host fs) !! name = Some i) (Haccess : name ∉ protected (StubFS.host fs))
    (Hfree : StubFS.free_slot (StubFS.fileSlot fs) <> -1) (Hfile : inodes (StubFS.host fs) !! i = Some noff)
    (Hjunk : length junkH = 52%nat) (Hstrs : strings_at args fs = Ok strs)
    (Hmap : Bitmap.rep (Machine.pageTableMap m) l) (Hframes : zlen l = NumPhysPages)
    (Hmem : zlen (Machine.mainMemory m) = Machine.MemorySize) (Hroom : pages coff <= Bitmap.count_clear l) :
  exists a m' fr fs', Load junkH junk fileName args new_AddrSpace m fs = Ok (true, a, m', fs') /\
    pageTable a = Some (table_for fr) /\ zlen fr = pages coff /\ fresh_frames fr l /\
    forall k s, head (of_kind k (sections_of coff)) = Some s ->
      slice (Z.to_nat (s_paddr s)) (Z.to_nat (s_size s)) (view fr (Machine.mainMemory m')) =
      if decide (k = Bss) then replicate (Z.to_nat (s_size s)) 0 else section_bytes coff s.
Proof.
  pose proof (plain_space coff noff strs Hplain Hconv) as [Hs _].
  destruct (Load_ok junkH junk fileName args new_AddrSpace m fs name i noff strs l)
    as (fr & bm & mem & fs' & HL & Hzl & Hff & _ & (_ & Hv & _) & _); try done;
    [by eapply plain_loadable|by rewrite Hs|].
  eexists _, _, fr, fs'. split; [exact HL|]. split; [done|]. split; [by rewrite Hzl, Hs|]. split; [done|].
  intros k s E. change (Machine.mainMemory (Machine.set_memory _ mem)) with mem. rewrite Hv.
  by eapply plain_image.
Qed.
End program_loads.

(** *** A concrete object file *)

Definition ex_section (nm : list Z) (paddr size ptr : Z) : list Z :=
  nm ++ replicate (8 - length nm) 0 ++ mjoin (le_split 4 <$> [paddr; 0; size; ptr; 0; 0; 0; 0]).
(** 8 bytes of code at 0, 4 of data at 8 and 4 zeros at 12. *)
Definition ex_coff : list Z :=
  le_split 2 MIPSELMAGIC ++ le_split 2 3 ++ replicate 16 0 ++ le_split 2 OMAGIC ++ replicate 54 0 ++
  ex_section text 0 8 196 ++ ex_section data 8 4 204 ++ ex_section bss 12 4 0 ++ [1; 2; 3; 4; 5; 6; 7; 8; 9; 10; 11; 12].
Definition ex_sec (k : kind) : scnhdr := default (mkScnhdr [] 0 0 0) (head (of_kind k (sections_of ex_coff))).
Definition ex_host : Host := mkHost {[ [1] := 1%positive ]} {[ 1%positive := ex_coff ]} std_fds ∅.
Definition ex_junk : NoffHeader := let z := mkSegment 0 0 0 in mkNoff 7 z z z z.

Lemma ex_sections : sections_of ex_coff = [ex_sec Text; ex_sec Data; ex_sec Bss].
Proof. vm_compute. reflexivity. Qed.
Lemma ex_coff_ok : coff_ok ex_coff.
Proof.
  constructor.
  - apply (bool_decide_unpack (Forall (fun b => 0 <= b < 256) ex_coff)). vm_compute. exact I.
  - reflexivity.
  - reflexivity.
  - vm_compute. congruence.
  - rewrite ex_sections. repeat apply Forall_cons_2; [..|constructor]; right; (split; [reflexivity|]); eexists;
      (split; [vm_compute; reflexivity|]); intros Hk; try done; vm_compute; split; congruence.
  - intros k. destruct k; vm_compute; lia.
  - reflexivity.
Qed.
Lemma ex_junk_ints : ints ex_junk.
Proof. split; [done|]. intros k. by destruct k. Qed.

Lemma coff2noff_exact_witness : exists h' j noff, main ex_junk [[1]; [2]] ex_host = Ok (h', inl 0) /\
  inodes h' = <[j := noff]> (inodes ex_host) /\ converted ex_coff noff.
Proof.
  destruct (coff2noff_exact ex_junk [1] [2] ex_host 1 ex_coff) as (h' & j & noff & E & _ & HI & _ & HC).
  - reflexivity.
  - apply not_elem_of_empty.
  - apply not_elem_of_empty.
  - done.
  - reflexivity.
  - exact ex_coff_ok.
  - exact ex_junk_ints.
  - exists h', j, noff. exact (conj E (conj HI HC)).
Defined.

(** The result is the executable [ex_noff] that [AddrSpace] loads. *)
Example ex_converted : main ex_junk [[1]; [2]] ex_host =
  Ok (mkHost {[ [1] := 1%positive; [2] := 2%positive ]} {[ 1%positive := ex_coff; 2%positive := ex_noff ]} std_fds ∅, inl 0).
Proof. vm_compute. reflexivity. Qed.

Lemma ex_converts : converted ex_coff ex_noff.
Proof.
  split; [apply (bool_decide_unpack (Forall (fun b => 0 <= b < 256) ex_noff)); vm_compute; exact I|].
  split; [reflexivity|]. split; [vm_compute; split; congruence|].
  intros []; vm_compute; repeat split; congruence || done.
Qed.
Lemma ex_section_of k s : section k ex_coff = Some s -> k <> Rdata /\ s = ex_sec k.
Proof. intros E. unfold ex_sec. fold (section k ex_coff). rewrite E. split; [|done]. intros ->. vm_compute in E. discriminate E. Qed.

Lemma ex_plain : plain ex_coff [[97]].
Proof.
  constructor.
  - vm_compute. reflexivity.
  - intros k k' s s' [Hk ->]%ex_section_of [Hk' ->]%ex_section_of Hne.
    destruct k, k'; try done; first [left; vm_compute; congruence | right; vm_compute; congruence].
  - intros k s [Hk ->]%ex_section_of. destruct k; try done; vm_compute; split; congruence.
  - vm_compute. congruence.
  - repeat constructor; lia.
  - vm_compute. congruence.
Qed.

Lemma converted_program_loads_witness : exists bm a m' fr (fs' : StubFS.FS ()),
  Load (replicate 52 0) (fun _ => entry_for 0 0) StubFS.ex_name [StubFS.ex_name] new_AddrSpace (ex_machine bm) ex_prog
    = Ok (true, a, m', fs') /\ slice 0 8 (view fr (Machine.mainMemory m')) = [1; 2; 3; 4; 5; 6; 7; 8].
Proof.
  destruct ex_free_map as (bm & _ & Hb).
  destruct (converted_program_loads ex_coff ex_noff (replicate 52 0)
    (fun _ => entry_for 0 0) StubFS.ex_name [StubFS.ex_name] (ex_machine bm) ex_prog [97] 1 [[97]] (replicate 128 false)
    ex_coff_ok ex_converts ex_plain ex_prog_ok) as (a & m' & fr & fs' & HL & _ & _ & _ & Ht).
  - exact ex_prog_string.
  - rewrite (proj1 ex_prog_same). exact StubFS.ex_dir.
  - rewrite (proj1 (proj2 ex_prog_same)). exact StubFS.ex_access.
  - rewrite (proj1 (proj2 (proj2 ex_prog_same))), StubFS.ex_free. done.
  - exact (proj2 (proj2 (proj2 ex_prog_same))).
  - reflexivity.
  - exact ex_prog_strings.
  - exact Hb.
  - reflexivity.
  - exact (ex_machine_mem bm).
  - rewrite Bitmap.count_clear_replicate. vm_compute. congruence.
  - exists bm, a, m', fr, fs'. split; [exact HL|]. exact (Ht Text (ex_sec Text) eq_refl).
Defined.

(** An object file whose [.text] section has size -1, and one cut short. *)
Definition ex_negative : list Z :=
  le_split 2 MIPSELMAGIC ++ le_split 2 1 ++ replicate 16 0 ++ le_split 2 OMAGIC ++ replicate 54 0 ++
  ex_section text 0 (-1) 116.
Definition ex_short : list Z := take 90 ex_negative.
Definition ex_host_of (coff : list Z) : Host := mkHost {[ [1] := 1%positive ]} {[ 1%positive := coff ]} std_fds ∅.

Lemma ex_host_bytes coff : Forall is_byte coff ->
  forall i bs, inodes (ex_host_of coff) !! i = Some bs -> Forall is_byte bs.
Proof.
  intros Hb i bs. cbn [inodes ex_host_of]. rewrite lookup_singleton_Some. by intros [_ <-].
Qed.
Lemma ex_negative_bytes : Forall is_byte ex_negative.
Proof. apply (bool_decide_unpack (Forall (fun b => 0 <= b < 256) ex_negative)). vm_compute. exact I. Qed.

(** Both outcomes other than success: the fault of the first file comes from a
    section of negative size, the output of the second is gone. *)
Lemma main_leaves_no_partial_file_witness :
  main ex_junk [[1]; [2]] (ex_host_of ex_negative) = Fault OutOfBounds /\
  (exists s, s ∈ sections_of ex_negative /\ s_size s < 0) /\
  exists h', main ex_junk [[1]; [2]] (ex_host_of ex_short) = Ok (h', inl 1) /\ dir h' !! [2] = None.
Proof.
  pose proof (main_leaves_no_partial_file ex_junk [1] [[2]] (ex_host_of ex_negative) eq_refl
    (ex_host_bytes _ ex_negative_bytes)) as HN.
  pose proof (main_leaves_no_partial_file ex_junk [1] [[2]] (ex_host_of ex_short) eq_refl
    (ex_host_bytes _ (Forall_take _ _ _ ex_negative_bytes))) as HS.
  assert (EN : main ex_junk [[1]; [2]] (ex_host_of ex_negative) = Fault OutOfBounds) by (vm_compute; reflexivity).
  change (main ex_junk _ (ex_host_of ex_negative)) with (main ex_junk [[1]; [2]] (ex_host_of ex_negative)) in HN.
  change (main ex_junk _ (ex_host_of ex_short)) with (main ex_junk [[1]; [2]] (ex_host_of ex_short)) in HS.
  rewrite EN in HN. destruct HN as (_ & i & coff & s & Hd & Hi & Hs & Hneg & _).
  cbn [dir inodes ex_host_of] in Hd, Hi. rewrite lookup_singleton_Some in Hd. destruct Hd as [_ <-].
  rewrite lookup_singleton_Some in Hi. destruct Hi as [_ <-].
  split; [exact EN|]. split; [exists s; exact (conj Hs Hneg)|].
  assert (ES : match main ex_junk [[1]; [2]] (ex_host_of ex_short) with
    | Ok (h', inl c) => c = 1 /\ protected h' = ∅ /\ length (map_to_list (inodes h')) = 2%nat | _ => False end)
    by (vm_compute; done).
  destruct (main ex_junk [[1]; [2]] (ex_host_of ex_short)) as [[h' [c|[]]]|f]; [|destruct ES..].
  destruct ES as (-> & Hp & Hdiff).
  exists h'. split; [reflexivity|]. destruct HS as [HS|[_ [[-> _]|[_ HS]]]]; [discriminate HS|discriminate Hdiff|].
  cbn [head gone] in HS. destruct HS as [HS|HS]; [|exact HS]. exfalso. rewrite Hp in HS. by apply not_elem_of_empty in HS.
Defined.
End Coff2noff.
