(* ===== verification/UserPrograms.v ===== *)
(** User programs that only compute: [test/sort.c] and [test/matmult.c].  A
    program is a function to the status it calls [Exit] with; its global arrays
    start as zeros. *)

From Stdlib Require Import Sorting.Sorted.
From stdpp Require Import sorting.
From S2P Require Import Prelude.

(** ** [test/sort.c] *)

Module Sort.
Section program.
(** [#define SIZE]. *)
Context (SIZE : Z).
Implicit Types (A : list Z).

Definition fill A : res (list Z) :=
  for_range (Z.to_nat SIZE) 0 (fun i A => arr_set A i (SIZE - 1 - i)) A.

Definition compare_swap (j : Z) A : res (list Z) :=
  x ← arr_get A j;
  y ← arr_get A (j + 1);
  if y <? x then
    let tmp := x in
    A ← arr_set A j y;
    arr_set A (j + 1) tmp
  else Ok A.
Definition pass A : res (list Z) := for_range (Z.to_nat (SIZE - 1)) 0 compare_swap A.
Definition sort A : res (list Z) := for_range (Z.to_nat SIZE) 0 (fun _ A => pass A) A.

(** [inr] is the [Exit] in the loop. *)
Definition check A : res Z :=
  r ← for_return (Z.to_nat SIZE) 0 (fun i A =>
        x ← arr_get A i; Ok (if x =? i then inl A else inr 1)) A;
  match r with inr status => Ok status | inl _ => Ok 0 end.

Definition main : res Z :=
  A ← fill (replicate (Z.to_nat SIZE) 0);
  A ← sort A;
  check A.

(** *** Sorting *)

Hypothesis (Hsize : 1 <= SIZE).
Abbreviation n := (Z.to_nat SIZE).

(** Every element from position [k] on is at least those before it. *)
Definition settled (k : nat) A : Prop :=
  forall p q x y, (p < q)%nat -> (k <= q)%nat -> A !! p = Some x -> A !! q = Some y -> x <= y.
(** The greatest of the first elements has come to [k]. *)
Definition carried (k : nat) A : Prop :=
  forall p x y, (p < k)%nat -> A !! p = Some x -> A !! k = Some y -> x <= y.

Definition swap (j : nat) A : list Z := <[j := A !!! Datatypes.S j]> (<[Datatypes.S j := A !!! j]> A).

Lemma swap_lookup j A p : (Datatypes.S j < length A)%nat ->
  swap j A !! p = if decide (p = j) then A !! Datatypes.S j else if decide (p = Datatypes.S j) then A !! j else A !! p.
Proof.
  intros Hj. unfold swap.
  destruct (lookup_lt_is_Some_2 A j) as [x Hx]; [lia|]. destruct (lookup_lt_is_Some_2 A (Datatypes.S j)) as [y Hy]; [lia|].
  rewrite (list_lookup_total_correct _ _ _ Hx), (list_lookup_total_correct _ _ _ Hy).
  destruct (decide (p = j)) as [->|Hp].
  - rewrite list_lookup_insert_eq by (rewrite length_insert; lia). done.
  - rewrite list_lookup_insert_ne by done. destruct (decide (p = Datatypes.S j)) as [->|Hp'].
    + rewrite list_lookup_insert_eq by lia. done.
    + by rewrite list_lookup_insert_ne by done.
Qed.

Lemma swap_perm j A : (Datatypes.S j < length A)%nat -> Permutation (swap j A) A.
Proof.
  revert j. induction A as [|x A IH]; intros j Hj; [cbn in Hj; lia|]. destruct j as [|j].
  - destruct A as [|y A]; [cbn in Hj; lia|]. apply perm_swap.
  - unfold swap in *. cbn in *. apply perm_skip, IH. lia.
Qed.

Lemma compare_swap_eq j A x y : 0 <= j -> A !! Z.to_nat j = Some x -> A !! Datatypes.S (Z.to_nat j) = Some y ->
  compare_swap j A = Ok (if y <? x then swap (Z.to_nat j) A else A).
Proof.
  intros Hj Hx Hy. assert (Ej : Z.to_nat (j + 1) = Datatypes.S (Z.to_nat j)) by lia.
  pose proof (lookup_lt_Some _ _ _ Hy) as Hlt.
  unfold compare_swap. rewrite (arr_get_Some _ _ x), (arr_get_Some _ (j + 1) y) by (rewrite ?Ej; done || lia). cbn [rbind].
  destruct (y <? x); [|done]. rewrite arr_set_lt by (unfold zlen; lia). cbn [rbind].
  rewrite arr_set_lt by (unfold zlen; rewrite length_insert; lia). rewrite Ej. unfold swap.
  rewrite (list_lookup_total_correct _ _ _ Hx), (list_lookup_total_correct _ _ _ Hy).
  by rewrite list_insert_insert_ne by lia.
Qed.

Definition pass_inv (i : nat) (j : Z) A0 A : Prop :=
  Permutation A A0 /\ settled (n - i) A /\ carried (Nat.min (Z.to_nat j) (n - 1 - i)) A.

Lemma compare_swap_inv i j A0 A : zlen A0 = SIZE -> (i < n)%nat -> 0 <= j < SIZE - 1 -> pass_inv i j A0 A ->
  exists A', compare_swap j A = Ok A' /\ pass_inv i (j + 1) A0 A'.
Proof.
  intros Hlen Hi Hj (HP & HS & HC). assert (El : length A = n) by (rewrite (Permutation_length HP); unfold zlen in Hlen; lia).
  destruct (lookup_lt_is_Some_2 A (Z.to_nat j)) as [x Hx]; [lia|].
  destruct (lookup_lt_is_Some_2 A (Datatypes.S (Z.to_nat j))) as [y Hy]; [lia|].
  rewrite (compare_swap_eq j A x y) by (done || lia). eexists; split; [done|]. unfold pass_inv.
  replace (Z.to_nat (j + 1)) with (Datatypes.S (Z.to_nat j)) by lia. set (k := Z.to_nat j) in *.
  destruct (decide (k < n - 1 - i)%nat) as [Hk|Hk].
  - rewrite Nat.min_l in HC by lia. rewrite Nat.min_l by lia. destruct (Z.ltb_spec y x) as [Hlt|Hle].
    + split_and!; [by rewrite swap_perm by lia| |].
      * intros p q u v Hpq Hq. rewrite !swap_lookup by lia.
        destruct (decide (q = k)); [lia|]. destruct (decide (q = Datatypes.S k)); [lia|].
        destruct (decide (p = k)); [apply HS; lia|]. destruct (decide (p = Datatypes.S k)); apply HS; lia.
      * intros p u v Hp. rewrite !swap_lookup by lia.
        destruct (decide (Datatypes.S k = k)); [lia|]. destruct (decide (Datatypes.S k = Datatypes.S k)); [|done].
        destruct (decide (p = k)); [intros; simplify_eq; lia|]. destruct (decide (p = Datatypes.S k)); [lia|]. apply HC. lia.
    + split_and!; [done|done|]. intros p u v Hp Hu Hv. destruct (decide (p = k)) as [->|]; [simplify_eq; lia|].
      assert (u <= x) by (eapply (HC p); [lia|done|done]). simplify_eq. lia.
  - rewrite Nat.min_r in HC by lia. rewrite Nat.min_r by lia.
    assert (x <= y) by (eapply HS; [|  |exact Hx|exact Hy]; lia).
    destruct (Z.ltb_spec y x); [lia|]. by split_and!.
Qed.

Lemma pass_ok i A0 A : zlen A0 = SIZE -> (i < n)%nat -> Permutation A A0 -> settled (n - i) A ->
  exists A', pass A = Ok A' /\ Permutation A' A0 /\ settled (n - Datatypes.S i) A'.
Proof.
  intros Hlen Hi HP HS. destruct (for_range_rule (fun j A => pass_inv i j A0 A) (Z.to_nat (SIZE - 1)) 0 compare_swap A)
    as (A' & HA & HP' & HS' & HC').
  - split_and!; [done|done|]. intros p x y Hp. cbn in Hp. lia.
  - intros j B Hj HB. apply (compare_swap_inv i j A0 B); [done|done|lia|done].
  - exists A'. split; [done|]. split; [done|]. intros p q x y Hpq Hq Hx Hy.
    destruct (decide (n - i <= q)%nat); [by eapply HS'|].
    replace (Nat.min _ _) with q in HC' by lia. by eapply (HC' p).
Qed.

Lemma settled_Sorted A : settled 0 A -> Sorted Z.le A.
Proof.
  induction A as [|x A IH]; intros HS; [constructor|]. constructor.
  - apply IH. intros p q u v Hpq _ Hu Hv. apply (HS (Datatypes.S p) (Datatypes.S q)); [lia|lia|done|done].
  - destruct A as [|y A]; constructor. by apply (HS 0%nat 1%nat); [lia|lia| |].
Qed.

(** Any array is sorted in place. *)
Lemma sort_ok A : zlen A = SIZE -> exists A', sort A = Ok A' /\ Permutation A' A /\ Sorted Z.le A'.
Proof.
  intros Hlen. destruct (for_range_rule (fun i B => Permutation B A /\ settled (n - Z.to_nat i) B) n 0 (fun _ A => pass A) A)
    as (A' & HA & HP & HS).
  - split; [done|]. intros p q x y Hpq Hq Hx Hy. apply lookup_lt_Some in Hy. unfold zlen in Hlen. lia.
  - intros i B Hi [HB HSB]. destruct (pass_ok (Z.to_nat i) A B Hlen) as (B' & ? & ? & HS'); [lia|done|done|].
    exists B'. replace (Z.to_nat (i + 1)) with (Datatypes.S (Z.to_nat i)) by lia. done.
  - exists A'. split; [done|]. split; [done|]. replace (n - _)%nat with 0%nat in HS by lia.
    by apply settled_Sorted.
Qed.

(** *** The program *)

Lemma fill_ok A : zlen A = SIZE -> exists A', fill A = Ok A' /\ zlen A' = SIZE /\ Permutation A' (seqZ 0 SIZE).
Proof.
  intros Hlen.
  destruct (for_range_rule (fun i B => zlen B = SIZE /\ forall p, (p < Z.to_nat i)%nat -> B !! p = Some (SIZE - 1 - Z.of_nat p))
    n 0 (fun i A => arr_set A i (SIZE - 1 - i)) A) as (A' & HA & HL & HV).
  - split; [done|]. intros p Hp. cbn in Hp. lia.
  - intros i B Hi [HL HV]. rewrite arr_set_lt by lia. eexists; split; [done|].
    split; [by unfold zlen in *; rewrite length_insert|]. intros p Hp. destruct (decide (p = Z.to_nat i)) as [->|Hne].
    + rewrite list_lookup_insert_eq by (unfold zlen in HL; lia). f_equal. lia.
    + rewrite list_lookup_insert_ne by done. apply HV. lia.
  - exists A'. split; [done|]. split; [done|]. replace A' with (reverse (seqZ 0 SIZE)); [apply reverse_Permutation|].
    apply list_eq_same_length with n; [by unfold zlen in HL; lia|by rewrite length_reverse, length_seqZ|].
    intros p x y Hp Hx Hy. rewrite HV in Hy by lia. rewrite reverse_lookup, length_seqZ in Hx by (rewrite length_seqZ; lia).
    apply lookup_seqZ in Hx as [-> _]. injection Hy as <-. lia.
Qed.

Lemma seqZ_Sorted m k : Sorted Z.le (seqZ m k).
Proof.
  apply settled_Sorted. intros p q x y Hpq _ [-> _]%lookup_seqZ [-> _]%lookup_seqZ. lia.
Qed.

Lemma check_ok : check (seqZ 0 SIZE) = Ok 0.
Proof.
  unfold check. destruct (for_return_rule (fun _ A => A = seqZ 0 SIZE) (fun _ : Z => False) n 0 (fun i A =>
        x ← arr_get A i; Ok (if x =? i then inl A else inr 1)) (seqZ 0 SIZE)) as [(A' & -> & _)|(v & _ & [])]; [done| |done].
  intros i A Hi ->. left. rewrite (arr_get_Some _ _ i); [|lia|by apply lookup_seqZ; lia]. cbn [rbind].
  rewrite Z.eqb_refl. by eexists.
Qed.

Lemma main_ok : main = Ok 0.
Proof.
  unfold main. destruct (fill_ok (replicate n 0)) as (A & -> & HL & HP); [unfold zlen; rewrite length_replicate; lia|].
  cbn [rbind]. destruct (sort_ok A HL) as (A' & -> & HP' & HS). cbn [rbind].
  rewrite (Sorted_unique Z.le A' (seqZ 0 SIZE)); [apply check_ok|done|apply seqZ_Sorted|by rewrite HP'].
Qed.
End program.

(** C39. [sort.c] sorts: its loops turn any array of [SIZE] integers into a sorted
    array of the same integers, so the program finds every element of its own
    array in place and calls [Exit(0)]. *)
Theorem sort_sorts A : zlen A = 1024 ->
  (exists A', sort 1024 A = Ok A' /\ Permutation A' A /\ Sorted Z.le A') /\ main 1024 = Ok 0.
Proof. intros HA. split; [by apply sort_ok|by apply main_ok]. Qed.

Lemma sort_sorts_witness : (exists A', sort 1024 (replicate 1024 7) = Ok A' /\
  Permutation A' (replicate 1024 7) /\ Sorted Z.le A') /\ main 1024 = Ok 0.
Proof. apply (sort_sorts (replicate 1024 7)). vm_compute. reflexivity. Defined.
End Sort.

(** ** [test/matmult.c] *)

Module Matmult.
Definition Dim : Z := 20.
Abbreviation matrix := (list (list Z)).

Definition get2 (m : matrix) (i j : Z) : res Z := row ← arr_get m i; arr_get row j.
Definition set2 (m : matrix) (i j v : Z) : res matrix :=
  row ← arr_get m i; row ← arr_set row j v; arr_set m i row.
Definition globals : matrix := replicate (Z.to_nat Dim) (replicate (Z.to_nat Dim) 0).

Definition for2 {S} (f : Z -> Z -> S -> res S) : S -> res S :=
  for_range (Z.to_nat Dim) 0 (fun i => for_range (Z.to_nat Dim) 0 (fun j => f i j)).

Definition initialise (ms : matrix * matrix * matrix) : res (matrix * matrix * matrix) :=
  for2 (fun i j '(A, B, C) =>
    A ← set2 A i j i; B ← set2 B i j j; C ← set2 C i j 0; Ok (A, B, C)) ms.
Definition multiply (A B C : matrix) : res matrix :=
  for2 (fun i j => for_range (Z.to_nat Dim) 0 (fun k C =>
    c ← get2 C i j; a ← get2 A i k; b ← get2 B k j; set2 C i j (s32 (c + s32 (a * b))))) C.

Definition main : res Z :=
  '(A, B, C) ← initialise (globals, globals, globals);
  C ← multiply A B C;
  get2 C (Dim - 1) (Dim - 1).

(** Its status is 20 times 19 times 19. *)
Lemma matmult_status : main = Ok 7220.
Proof. vm_compute. reflexivity. Qed.
End Matmult.
