(* ===== verification/Stacks.v ===== *)
(** The stacks of [c++example/]: the array stack of [templatestack.cc] (of which
    [stack.cc] is the instance at [int]), the linked list of [list.cc], and the
    abstract class of [inheritstack.h] with its two implementations. *)

From S2P Require Import Prelude.

(** What a test prints. *)
Inductive event (T : Type) := Pushing (t : T) | Popping (t : T).
Arguments Pushing {T} t.
Arguments Popping {T} t.

(** ** The array stack ([templatestack.cc], [stack.cc]) *)

Module ArrayStack.
Section T.
Context {T : Type}.

(** [new T[size]] leaves the elements unset. *)
Record Stack := mkStack { size : Z; top : Z; stack : list (option T) }.
Implicit Types (s : Stack).

Definition new_Stack (sz : Z) : res Stack :=
  ASSERT (1 <=? sz) ;;
  Ok (mkStack sz 0 (replicate (Z.to_nat sz) None)).
Definition Full s : bool := top s =? size s.
Definition Empty s : bool := top s =? 0.
Definition Push (value : T) s : res Stack :=
  ASSERT (negb (Full s)) ;;
  stack ← arr_set (stack s) (top s) (Some value);
  Ok (mkStack (size s) (top s + 1) stack).
Definition Pop s : res (T * Stack) :=
  ASSERT (negb (Empty s)) ;;
  let top := top s - 1 in
  v ← arr_get (stack s) top;
  match v with
  | Some v => Ok (v, mkStack (size s) top (stack s))
  | None => Fault Uninitialised
  end.

(** [count++] on a [T]. *)
Definition push_all (succ : T -> T) (fuel : nat) (count : T) s : res (list (event T) * Stack) :=
  loop fuel (fun '(count, out, s) =>
    if negb (Full s) then s ← Push count s; Ok (inl (succ count, out ++ [Pushing count], s))
    else Ok (inr (out, s))) (count, [], s).
Definition pop_all (fuel : nat) s : res (list (event T) * Stack) :=
  loop fuel (fun '(out, s) =>
    if negb (Empty s) then '(v, s) ← Pop s; Ok (inl (out ++ [Popping v], s))
    else Ok (inr (out, s))) ([], s).
Definition SelfTest (succ : T -> T) (start : T) s : res (list (event T) * Stack) :=
  let fuel := Datatypes.S (Z.to_nat (size s)) in
  '(out1, s) ← push_all succ fuel start s;
  '(out2, s) ← pop_all fuel s;
  Ok (out1 ++ out2, s).

(** *** What a stack holds *)

(** The elements, the last pushed first. *)
Definition holds s (l : list T) : Prop :=
  zlen (stack s) = size s /\ top s = zlen l /\ zlen l <= size s /\
  take (length l) (stack s) = Some <$> reverse l.

Lemma new_Stack_holds sz : 1 <= sz -> exists s, new_Stack sz = Ok s /\ size s = sz /\ holds s [].
Proof.
  intros Hsz. unfold new_Stack. rewrite ASSERT_true by (apply Z.leb_le; lia). eexists; split; [done|]. split; [done|].
  split_and!; [|done|unfold zlen; cbn; lia|done]. unfold zlen. cbn. rewrite length_replicate. lia.
Qed.

Lemma Full_holds s l : holds s l -> Full s = (zlen l =? size s).
Proof. intros (_ & Ht & _). unfold Full. by rewrite Ht. Qed.
Lemma Empty_holds s l : holds s l -> Empty s = (zlen l =? 0).
Proof. intros (_ & Ht & _). unfold Empty. by rewrite Ht. Qed.

Lemma Push_holds s l v : holds s l -> zlen l < size s ->
  exists s', Push v s = Ok s' /\ size s' = size s /\ holds s' (v :: l).
Proof.
  intros Hh Hlt. pose proof Hh as (Hs & Ht & Hle & Hk). unfold Push. rewrite (Full_holds s l Hh).
  rewrite ASSERT_true by (apply negb_true_iff, Z.eqb_neq; lia).
  rewrite arr_set_lt by (unfold zlen in *; lia). cbn [rbind]. eexists; split; [done|]. split; [done|].
  unfold holds. cbn [stack top size length]. split_and!; [unfold zlen in *; by rewrite length_insert|unfold zlen in *; cbn; lia|unfold zlen in *; cbn; lia|].
  rewrite Ht. unfold zlen. rewrite Nat2Z.id, reverse_cons, fmap_app, <- Hk.
  rewrite (take_S_r _ _ (Some v)), take_insert_ge by (rewrite ?list_lookup_insert_eq; unfold zlen in *; done || lia). done.
Qed.

Lemma Push_full s l v : holds s l -> zlen l = size s -> Push v s = Fault AssertFailed.
Proof. intros Hh Hf. unfold Push. by rewrite (Full_holds s l Hh), Hf, Z.eqb_refl. Qed.

Lemma Pop_holds s l v : holds s (v :: l) -> exists s', Pop s = Ok (v, s') /\ size s' = size s /\ holds s' l.
Proof.
  intros Hh. pose proof Hh as (Hs & Ht & Hle & Hk). unfold Pop. rewrite (Empty_holds s _ Hh).
  rewrite ASSERT_true by (apply negb_true_iff, Z.eqb_neq; unfold zlen; cbn; lia).
  assert (E : top s - 1 = zlen l) by (rewrite Ht; unfold zlen; cbn; lia). rewrite E.
  rewrite reverse_cons, fmap_app in Hk. cbn [length fmap list_fmap] in Hk.
  assert (El : stack s !! length l = Some (Some v)).
  { rewrite <- (lookup_take_lt _ (Datatypes.S (length l))), Hk by lia. rewrite lookup_app_r by (by rewrite length_fmap, length_reverse).
    by rewrite length_fmap, length_reverse, Nat.sub_diag. }
  rewrite (arr_get_Some _ _ (Some v)) by (unfold zlen; rewrite ?Nat2Z.id; done || lia). cbn [rbind].
  eexists; split; [done|]. split; [done|]. unfold holds. cbn [stack top size length]. split_and!; [done|done|unfold zlen in *; cbn in *; lia|].
  rewrite (take_S_r _ _ _ El) in Hk. by apply app_inj_tail in Hk as [? _].
Qed.

Lemma Pop_empty s : holds s [] -> Pop s = Fault AssertFailed.
Proof. intros Hh. unfold Pop. by rewrite (Empty_holds s _ Hh). Qed.

(** *** The self test *)

(** [n] values counted from [count]. *)
Fixpoint counted (succ : T -> T) (n : nat) (count : T) : list T :=
  match n with O => [] | Datatypes.S n => count :: counted succ n (succ count) end.

Lemma push_all_ok succ n : forall fuel count out s l, holds s l -> zlen l + Z.of_nat n = size s -> (n < fuel)%nat ->
  exists s', loop fuel (fun '(count, out, s) =>
    if negb (Full s) then s ← Push count s; Ok (inl (succ count, out ++ [Pushing count], s))
    else Ok (inr (out, s))) (count, out, s) = Ok (out ++ (Pushing <$> counted succ n count), s') /\
    size s' = size s /\ holds s' (reverse (counted succ n count) ++ l).
Proof.
  induction n as [|n IH]; intros [|fuel] count out s l Hh Hn Hf; [lia| |lia|]; cbn [loop]; rewrite (Full_holds s l Hh).
  - rewrite (proj2 (Z.eqb_eq _ _)) by lia. cbn [negb rbind]. exists s. by rewrite app_nil_r.
  - rewrite (proj2 (Z.eqb_neq _ _)) by lia. cbn [negb].
    destruct (Push_holds s l count Hh ltac:(lia)) as (s1 & -> & Hs1 & Hh1). cbn [rbind].
    destruct (IH fuel (succ count) (out ++ [Pushing count]) s1 (count :: l) Hh1) as (s' & -> & Hs' & Hh'); [|lia|].
    { unfold zlen in *. cbn [length]. lia. }
    exists s'. cbn [counted]. rewrite reverse_cons, fmap_cons, <- !app_assoc. split; [done|]. split; [congruence|done].
Qed.

Lemma pop_all_ok l : forall fuel out s, holds s l -> (length l < fuel)%nat ->
  exists s', loop fuel (fun '(out, s) =>
    if negb (Empty s) then '(v, s) ← Pop s; Ok (inl (out ++ [Popping v], s))
    else Ok (inr (out, s))) (out, s) = Ok (out ++ (Popping <$> l), s') /\ holds s' [].
Proof.
  induction l as [|v l IH]; intros [|fuel] out s Hh Hf; cbn in Hf; [lia| |lia|]; cbn [loop]; rewrite (Empty_holds s _ Hh).
  - cbn. exists s. by rewrite app_nil_r.
  - rewrite (proj2 (Z.eqb_neq _ _)) by (unfold zlen; cbn; lia). cbn [negb].
    destruct (Pop_holds s l v Hh) as (s1 & -> & _ & Hh1). cbn [rbind].
    destruct (IH fuel (out ++ [Popping v]) s1 Hh1 ltac:(lia)) as (s' & -> & Hh'). exists s'.
    by rewrite fmap_cons, <- app_assoc.
Qed.

(** The self test fills the stack it has made, whatever its size and its
    element type, and empties it: it prints the values pushed, then the same
    values popped in reverse order. *)
Lemma SelfTest_prints succ start sz : 1 <= sz ->
  exists s', (s ← new_Stack sz; SelfTest succ start s)
    = Ok ((Pushing <$> counted succ (Z.to_nat sz) start) ++
          (Popping <$> reverse (counted succ (Z.to_nat sz) start)), s') /\ Empty s' = true.
Proof.
  intros Hsz. destruct (new_Stack_holds sz Hsz) as (s & -> & Hs & Hh). cbn [rbind].
  destruct (push_all_ok succ (Z.to_nat sz) (Datatypes.S (Z.to_nat (size s))) start [] s [] Hh) as (s1 & E1 & Hs1 & Hh1);
    [unfold zlen; cbn; lia|lia|]. rewrite app_nil_r in Hh1. pose proof Hh1 as (_ & _ & Hle & _).
  destruct (pop_all_ok _ (Datatypes.S (Z.to_nat (size s))) [] s1 Hh1) as (s2 & E2 & Hh2); [unfold zlen in Hle; lia|].
  exists s2. unfold SelfTest, push_all, pop_all. rewrite E1. cbn [rbind app]. rewrite E2. cbn [rbind app].
  split; [done|]. by rewrite (Empty_holds s2 _ Hh2).
Qed.
End T.
Arguments Stack : clear implicits.

(** [stack.cc]'s [SelfTest]: integers from 17. *)
Definition int_SelfTest (s : Stack Z) : res (list (event Z) * Stack Z) := SelfTest (fun c => s32 (c + 1)) 17 s.
(** [Stack<char>]: [count++] wraps around at 127. *)
Definition char_SelfTest (s : Stack Z) : res (list (event Z) * Stack Z) :=
  SelfTest (fun c => if c =? 127 then -128 else c + 1) 97 s.
(** [main] of [templatestack.cc]: what the two tests print. *)
Definition main : res (list (event Z) * list (event Z)) :=
  s1 ← new_Stack 10;
  s2 ← new_Stack 10;
  '(out1, s1) ← int_SelfTest s1;
  '(out2, s2) ← char_SelfTest s2;
  Ok (out1, out2).

Lemma SelfTest_prints_witness : exists s', (s ← new_Stack 3; SelfTest (fun c => s32 (c + 1)) 17 s)
  = Ok ([Pushing 17; Pushing 18; Pushing 19; Popping 19; Popping 18; Popping 17], s') /\ Empty s' = true.
Proof. apply (SelfTest_prints (fun c => s32 (c + 1)) 17 3). done. Defined.
End ArrayStack.

(** ** The linked list ([list.cc]) *)

Module LinkedList.
Abbreviation loc := positive.
Record ListElement := mkElement { next : option loc; item : Z }.
Record List := mkList { first : option loc; last : option loc }.
(** The elements allocated, and the next address. *)
Record Heap := mkHeap { cells : gmap loc ListElement; brk : loc }.
Implicit Types (h : Heap) (x : List).

Definition deref (p : option loc) h : res (loc * ListElement) :=
  match p with
  | None => Fault NullPointer
  | Some p => match cells h !! p with Some e => Ok (p, e) | None => Fault UseAfterFree end
  end.
Definition new_ListElement (value : Z) h : loc * Heap :=
  (brk h, mkHeap (<[brk h := mkElement None value]> (cells h)) (Pos.succ (brk h))).
Definition delete_ (p : loc) h : Heap := mkHeap (delete p (cells h)) (brk h).

Definition new_List : List := mkList None None.
Definition Empty x : bool := bool_decide (first x = None).
Definition Prepend (value : Z) x h : res (List * Heap) :=
  let '(element, h) := new_ListElement value h in
  if Empty x then Ok (mkList (Some element) (Some element), h)
  else
    '(_, e) ← deref (Some element) h;
    let h := mkHeap (<[element := mkElement (first x) (item e)]> (cells h)) (brk h) in
    Ok (mkList (Some element) (last x), h).
Definition Remove x h : res (Z * List * Heap) :=
  ASSERT (negb (Empty x)) ;;
  '(element, e) ← deref (first x) h;
  let value := item e in
  let x := if bool_decide (first x = last x) then mkList None None else mkList (next e) (last x) in
  Ok (value, x, delete_ element h).
(** [~List]: the loop runs once for each element there is. *)
Definition delete_List x h : res Heap :=
  loop (Datatypes.S (size (cells h))) (fun '(x, h) =>
    if Empty x then Ok (inr h) else '(_, x, h) ← Remove x h; Ok (inl (x, h))) (x, h).

(** *** Chains *)

(** The elements [ps] hold [l] in order, each pointing to the one after it. *)
Fixpoint chain (m : gmap loc ListElement) (ps : list loc) (l : list Z) : Prop :=
  match ps, l with
  | [], [] => True
  | p :: ps, v :: l => m !! p = Some (mkElement (head ps) v) /\ chain m ps l
  | _, _ => False
  end.

Definition holds x h (base : gmap loc ListElement) (l : list Z) : Prop :=
  exists ps, chain (cells h) ps l /\ NoDup ps /\ first x = head ps /\ last x = list.last ps /\
    (forall p, p ∈ ps -> base !! p = None /\ (p < brk h)%positive) /\
    (forall p, p ∉ ps -> cells h !! p = base !! p) /\
    (forall p, (brk h <= p)%positive -> cells h !! p = None).

Lemma chain_ext m m' ps l : (forall p, p ∈ ps -> m' !! p = m !! p) -> chain m ps l -> chain m' ps l.
Proof.
  revert l. induction ps as [|p ps IH]; intros [|v l] Hm; [done..|]. intros [Hp Hc]. split.
  - rewrite Hm; [done|by left].
  - apply IH; [|done]. intros q Hq. apply Hm. by right.
Qed.

Lemma new_List_holds h : (forall p, (brk h <= p)%positive -> cells h !! p = None) -> holds new_List h (cells h) [].
Proof. intros Hb. exists []. split_and!; [done|constructor|done|done|by intros p ?%elem_of_nil|done|done]. Qed.

Lemma Empty_chain x h base l : holds x h base l -> Empty x = (zlen l =? 0).
Proof. intros (ps & Hc & _ & Hf & _). unfold Empty. rewrite Hf. by destruct ps, l. Qed.

Lemma Prepend_holds x h base l v : holds x h base l ->
  exists x' h', Prepend v x h = Ok (x', h') /\ holds x' h' base (v :: l).
Proof.
  intros (ps & Hc & Hnd & Hf & Hl & Hps & Hout & Hbrk). set (b := brk h).
  assert (Hb : b ∉ ps) by (intros Hin; destruct (Hps _ Hin); lia).
  assert (Hbase : base !! b = None) by (rewrite <- Hout by done; apply Hbrk; lia).
  assert (HP : exists x' h', Prepend v x h = Ok (x', h') /\ first x' = Some b /\ last x' = list.last (b :: ps) /\
    cells h' = <[b := mkElement (head ps) v]> (cells h) /\ brk h' = Pos.succ b).
  { unfold Prepend, new_ListElement, Empty. rewrite Hf. destruct ps as [|p ps].
    - eexists _, _. split; [done|]. done.
    - cbn. rewrite lookup_insert_eq. cbn. eexists _, _. split; [done|]. cbn. rewrite insert_insert_eq, Hl. done. }
  destruct HP as (x' & h' & E & Hf' & Hl' & Hcells & Hbrk'). exists x', h'. split; [done|]. exists (b :: ps).
  rewrite Hcells, Hf', Hl', Hbrk'. split_and!; [| |done|done| | |].
  - split; [by rewrite lookup_insert_eq|]. apply (chain_ext (cells h)); [|done].
    intros p Hp. rewrite lookup_insert_ne; [done|]. intros ->. done.
  - by constructor.
  - intros p [->|Hp]%elem_of_cons; [split; [done|lia]|]. destruct (Hps _ Hp). split; [done|]. subst b. lia.
  - intros p Hp. apply not_elem_of_cons in Hp as [Hne Hp]. rewrite lookup_insert_ne by done. by apply Hout.
  - intros p Hp. rewrite lookup_insert_ne by lia. apply Hbrk. subst b. lia.
Qed.

Lemma last_ne (p : loc) ps : p ∉ ps -> ps <> [] -> Some p <> list.last ps.
Proof. intros Hp Hne E. apply Hp. symmetry in E. by apply last_Some_elem_of in E. Qed.

Lemma Remove_holds x h base l v : holds x h base (v :: l) ->
  exists x' h', Remove x h = Ok (v, x', h') /\ holds x' h' base l.
Proof.
  intros Hh. pose proof (Empty_chain _ _ _ _ Hh) as He. destruct Hh as ([|p ps] & Hc & Hnd & Hf & Hl & Hps & Hout & Hbrk); [done|].
  destruct Hc as [Hp Hc]. apply NoDup_cons in Hnd as [Hpn Hnd]. cbn in Hf.
  unfold Remove. rewrite He, ASSERT_true by (apply negb_true_iff, Z.eqb_neq; unfold zlen; cbn; lia).
  unfold deref. rewrite Hf, Hp. cbn [rbind next item]. eexists _, _. split; [done|]. exists ps. cbn.
  split_and!; [|done| | | | |].
  - apply (chain_ext (cells h)); [|done]. intros q Hq. rewrite lookup_delete_ne; [done|]. by intros ->.
  - rewrite Hl. destruct ps as [|q ps]; [by rewrite bool_decide_eq_true_2|]. rewrite bool_decide_eq_false_2; [done|].
    by apply (last_ne p (q :: ps)).
  - rewrite Hl. destruct ps as [|q ps]; [by rewrite bool_decide_eq_true_2|]. rewrite bool_decide_eq_false_2; [done|].
    by apply (last_ne p (q :: ps)).
  - intros q Hq. apply Hps. by right.
  - intros q Hq. destruct (decide (q = p)) as [->|Hne].
    + rewrite lookup_delete_eq. symmetry. apply Hps. by left.
    + rewrite lookup_delete_ne by done. apply Hout. by apply not_elem_of_cons.
  - intros q Hq. rewrite lookup_delete_None. right. by apply Hbrk.
Qed.

Lemma Remove_empty x h base : holds x h base [] -> Remove x h = Fault AssertFailed.
Proof. intros Hh. unfold Remove. by rewrite (Empty_chain _ _ _ _ Hh). Qed.

Lemma holds_empty x h base : holds x h base [] -> cells h = base.
Proof. intros ([|] & Hc & _ & _ & _ & _ & Hout & _); [|done]. apply map_eq. intros p. apply Hout, not_elem_of_nil. Qed.

Lemma holds_size x h base l : holds x h base l -> (length l <= size (cells h))%nat.
Proof.
  intros (ps & Hc & Hnd & _). assert (E : length l = length ps).
  { clear Hnd. revert l Hc. induction ps as [|p ps IH]; intros [|v l]; [done..|]. intros [_ Hc]. cbn. by rewrite (IH l). }
  rewrite E, <- size_dom, <- (size_list_to_set (C := gset loc)) by done. apply subseteq_size. intros p Hp%elem_of_list_to_set.
  clear - Hc Hp. revert l Hc. induction Hp as [p ps|p q ps _ IH]; intros [|v l] Hc; try done; destruct Hc as [Hc Hcs].
  - apply elem_of_dom. by eexists.
  - by eapply IH.
Qed.

(** The destructor gives back every element, and only those. *)
Lemma delete_List_holds x h base l : holds x h base l -> exists h', delete_List x h = Ok h' /\ cells h' = base.
Proof.
  intros Hh. pose proof (holds_size _ _ _ _ Hh) as Hs. unfold delete_List.
  assert (Hf : (length l < Datatypes.S (size (cells h)))%nat) by lia. revert Hf. generalize (Datatypes.S (size (cells h))) as fuel.
  clear Hs. revert x h Hh. induction l as [|v l IH]; intros x h Hh [|fuel] Hf; cbn in Hf; try lia; cbn [loop];
    rewrite (Empty_chain _ _ _ _ Hh).
  - cbn. exists h. split; [done|]. by eapply holds_empty.
  - rewrite (proj2 (Z.eqb_neq _ _)) by (unfold zlen; cbn; lia).
    destruct (Remove_holds _ _ _ _ _ Hh) as (x' & h' & -> & Hh'). cbn [rbind]. apply IH; [done|lia].
Qed.
End LinkedList.

(** ** The abstract class ([inheritstack.h], [inheritstack.cc]) *)

Module InheritStack.
(** [Stack]'s virtual methods. *)
Class Stack (S : Type) := {
  Push : Z -> S -> res S;
  Pop : S -> res (Z * S);
  Full : S -> bool;
  Empty : S -> bool;
}.

(** What they promise: a state holds a list of integers, at most [capacity] of
    them if there is a capacity, and the methods are a stack's on it. *)
Class StackLaws (S : Type) `{Stack S} (capacity : option Z) (holds : S -> list Z -> Prop) := {
  full_law s l : holds s l -> Full s = match capacity with Some c => zlen l =? c | None => false end;
  empty_law s l : holds s l -> Empty s = (zlen l =? 0);
  room_law s l : holds s l -> match capacity with Some c => zlen l <= c | None => True end;
  push_law s l v : holds s l -> Full s = false -> exists s', Push v s = Ok s' /\ holds s' (v :: l);
  push_full_law s l v : holds s l -> Full s = true -> Push v s = Fault AssertFailed;
  pop_law s l v : holds s (v :: l) -> exists s', Pop s = Ok (v, s') /\ holds s' l;
  pop_empty_law s : holds s [] -> Pop s = Fault AssertFailed;
}.

(** [ArrayStack]: the routines of [stack.cc] again. *)
Abbreviation ArrayStack := (ArrayStack.Stack Z).
#[global] Instance array_stack : Stack ArrayStack := {|
  Push := ArrayStack.Push; Pop := ArrayStack.Pop; Full := ArrayStack.Full; Empty := ArrayStack.Empty;
|}.

(** [ListStack]: a list, and the heap its elements are in. *)
Record ListStack := mkListStack { stack : LinkedList.List; heap : LinkedList.Heap }.
Definition new_ListStack (h : LinkedList.Heap) : ListStack := mkListStack LinkedList.new_List h.
Definition delete_ListStack (s : ListStack) : res LinkedList.Heap := LinkedList.delete_List (stack s) (heap s).
Definition list_Push (value : Z) (s : ListStack) : res ListStack :=
  '(x, h) ← LinkedList.Prepend value (stack s) (heap s); Ok (mkListStack x h).
Definition list_Empty (s : ListStack) : bool := LinkedList.Empty (stack s).
Definition list_Full (s : ListStack) : bool := false.
Definition list_Pop (s : ListStack) : res (Z * ListStack) :=
  ASSERT (negb (list_Empty s)) ;;
  '(v, x, h) ← LinkedList.Remove (stack s) (heap s); Ok (v, mkListStack x h).
#[global] Instance list_stack : Stack ListStack := {|
  Push := list_Push; Pop := list_Pop; Full := list_Full; Empty := list_Empty;
|}.

#[global] Instance array_stack_laws sz :
  StackLaws ArrayStack (Some sz) (fun s l => ArrayStack.size s = sz /\ ArrayStack.holds s l).
Proof.
  constructor; cbn.
  - intros s l [<- Hh]. by apply ArrayStack.Full_holds.
  - intros s l [_ Hh]. by apply ArrayStack.Empty_holds.
  - intros s l [<- (_ & _ & Hle & _)]. done.
  - intros s l v [<- Hh] Hf. rewrite (ArrayStack.Full_holds s l Hh) in Hf. apply Z.eqb_neq in Hf.
    destruct (ArrayStack.Push_holds s l v Hh) as (s' & ? & ? & ?); [|by exists s'].
    destruct Hh as (_ & _ & ? & _). lia.
  - intros s l v [<- Hh] Hf. rewrite (ArrayStack.Full_holds s l Hh) in Hf. apply Z.eqb_eq in Hf. by eapply ArrayStack.Push_full.
  - intros s l v [<- Hh]. destruct (ArrayStack.Pop_holds s l v Hh) as (s' & ? & ? & ?). by exists s'.
  - intros s [<- Hh]. by apply ArrayStack.Pop_empty.
Qed.

#[global] Instance list_stack_laws base :
  StackLaws ListStack None (fun s l => LinkedList.holds (stack s) (heap s) base l).
Proof.
  constructor; cbn; try done.
  - intros s l. apply LinkedList.Empty_chain.
  - intros s l v Hh _. destruct (LinkedList.Prepend_holds _ _ _ _ v Hh) as (x & h & E & Hh').
    unfold list_Push. rewrite E. by exists (mkListStack x h).
  - intros s l v Hh. destruct (LinkedList.Remove_holds _ _ _ _ _ Hh) as (x & h & E & Hh'). unfold list_Pop, list_Empty.
    rewrite (LinkedList.Empty_chain _ _ _ _ Hh), E. by exists (mkListStack x h).
  - intros s Hh. unfold list_Pop, list_Empty. by rewrite (LinkedList.Empty_chain _ _ _ _ Hh).
Qed.

Section client.
Context {S : Type} `{Stack S}.
Implicit Types (s : S).

(** [while (!Empty())] for at most [fuel] turns. *)
Definition pop_all (fuel : nat) s : res (list (event Z) * S) :=
  loop fuel (fun '(out, s) =>
    if negb (Empty s) then '(v, s) ← Pop s; Ok (inl (out ++ [Popping v], s)) else Ok (inr (out, s))) ([], s).
(** [Stack::SelfTest], on an empty stack. *)
Definition SelfTest (numToPush : Z) s : res (list (event Z) * S) :=
  '(count, out, s) ← for_range (Z.to_nat numToPush) 0 (fun i '(count, out, s) =>
      ASSERT (negb (Full s)) ;;
      s ← Push count s; Ok (s32 (count + 1), out ++ [Pushing count], s)) (17, [], s);
  '(popped, s) ← pop_all (Datatypes.S (Z.to_nat numToPush)) s;
  Ok (out ++ popped, s).

(** *** Any sequence of calls *)

Inductive call := PushCall (v : Z) | PopCall.
(** The values popped. *)
Fixpoint run (cs : list call) s : res (list Z) :=
  match cs with
  | [] => Ok []
  | PushCall v :: cs => s ← Push v s; run cs s
  | PopCall :: cs => '(v, s) ← Pop s; vs ← run cs s; Ok (v :: vs)
  end.
End client.

(** The reference stack: a list. *)
Fixpoint reference (capacity : option Z) (cs : list call) (l : list Z) : res (list Z) :=
  match cs, l with
  | [], _ => Ok []
  | PushCall v :: cs, l =>
      if match capacity with Some c => zlen l =? c | None => false end then Fault AssertFailed
      else reference capacity cs (v :: l)
  | PopCall :: cs, [] => Fault AssertFailed
  | PopCall :: cs, v :: l => vs ← reference capacity cs l; Ok (v :: vs)
  end.

Lemma run_reference {S} `{HS : Stack S} capacity holds `{!StackLaws S capacity holds} cs :
  forall s l, holds s l -> run cs s = reference capacity cs l.
Proof.
  induction cs as [|[v|] cs IH]; intros s l Hh; [done| |]; cbn.
  - rewrite <- (full_law s l Hh). destruct (Full s) eqn:E.
    + by rewrite (push_full_law s l v Hh E).
    + destruct (push_law s l v Hh E) as (s' & -> & Hh'). cbn. by apply IH.
  - destruct l as [|v l]; [by rewrite (pop_empty_law s Hh)|].
    destruct (pop_law s l v Hh) as (s' & -> & Hh'). cbn. by rewrite (IH s' l Hh').
Qed.

(** C40. Both implementations of the abstract class are the stack it describes:
    any sequence of calls pops the same values as a list does, and stops at the
    same failed assertion: a [Pop] of the empty stack or, for the array, a [Push]
    on the full one. *)
Theorem stacks_refine_list sz h cs : 1 <= sz ->
  (forall p, (LinkedList.brk h <= p)%positive -> LinkedList.cells h !! p = None) ->
  (s ← ArrayStack.new_Stack sz; run (S := ArrayStack) cs s) = reference (Some sz) cs [] /\
  run cs (new_ListStack h) = reference None cs [].
Proof.
  intros Hsz Hb. split.
  - destruct (ArrayStack.new_Stack_holds (T := Z) sz Hsz) as (s & -> & Hs & Hh). cbn [rbind].
    by apply (run_reference _ _ (StackLaws0 := array_stack_laws sz)).
  - apply (run_reference _ _ (StackLaws0 := list_stack_laws (LinkedList.cells h))). by apply LinkedList.new_List_holds.
Qed.

Lemma stacks_refine_list_witness :
  (s ← ArrayStack.new_Stack 1; run (S := ArrayStack) [PushCall 4; PopCall; PushCall 5; PushCall 6] s) = Fault AssertFailed /\
  run [PushCall 4; PushCall 5; PopCall; PopCall] (new_ListStack (LinkedList.mkHeap ∅ 1)) = Ok [5; 4].
Proof.
  split.
  - apply (stacks_refine_list 1 (LinkedList.mkHeap ∅ 1) [PushCall 4; PopCall; PushCall 5; PushCall 6]); [done|].
    intros p _. apply lookup_empty.
  - apply (stacks_refine_list 1 (LinkedList.mkHeap ∅ 1) [PushCall 4; PushCall 5; PopCall; PopCall]); [done|].
    intros p _. apply lookup_empty.
Defined.

(** [main] of [inheritstack.cc]: what the two tests print, and the heap it
    leaves. *)
Definition main (h : LinkedList.Heap) : res (list (event Z) * list (event Z) * LinkedList.Heap) :=
  s1 ← ArrayStack.new_Stack 10;
  let s2 := new_ListStack h in
  '(out1, s1) ← SelfTest (S := ArrayStack) 10 s1;
  '(out2, s2) ← SelfTest 10 s2;
  h ← delete_ListStack s2;
  Ok (out1, out2, h).

Lemma main_prints : exists out h, main (LinkedList.mkHeap ∅ 1) = Ok (out, out, h) /\ LinkedList.cells h = ∅.
Proof. vm_compute. eexists _, _. split; reflexivity. Qed.
End InheritStack.
