(* ===== verification/SelfTests.v ===== *)
(** The kernel's self test ([Kernel::ThreadSelfTest] of [threads/kernel.cc] with
    the tests of [threads/thread.cc], [threads/synch.cc] and
    [threads/synchlist.cc]) as a client of the thread machine, with the alarm's
    timer as the only device, and its run to completion. *)

From stdpp Require Import relations.
From S2P Require Import Prelude Bitmap Lists Hash Machine Interrupt HostFS AddrSpace Threads Synch Kernel.
Import Stats Interrupt Threads Synch Kernel.

Module SelfTests.

(** *** [LibSelfTest] of [lib/libtest.cc] *)

(** A string of digits, as its characters. *)
Definition HashKey (str : Datatypes.list Z) : Z := foldl (fun n c => n * 10 + (c - 48)) 0 str.

Definition listTestVector : Datatypes.list Z := [9; 5; 7].
Definition hashTestVector : Datatypes.list (Datatypes.list Z) :=
  [[48]; [49]; [50]; [51]; [52]; [53]; [54]; [55]; [56]; [57]; [49; 48]; [49; 49]; [49; 50]; [49; 51]; [49; 52]].

(** [junk] is what [new unsigned int[]] finds in memory. *)
Definition LibSelfTest (junk : nat -> Z) : res () :=
  map ← Bitmap.new_Bitmap junk 200;
  let list := Lists.new_List in
  let sortList := Lists.new_List in
  let hashTable := Hash.new_HashTable (L := Lists.List (Datatypes.list Z)) in
  _b ← Bitmap.SelfTest map;
  _l ← Lists.SelfTest list listTestVector 3;
  _s ← Lists.SortedSelfTest Lists.IntCompare 0 sortList listTestVector 3;
  t ← Hash.SelfTest HashKey Hash.HashInt [] hashTable hashTestVector 15;
  Hash.delete_HashTable t.

(** *** The tests of threads *)

(** What the tests keep in static variables and what they print. *)
Record Globals := mkGlobals {
  ping : ptr;
  semaphore_ : ptr;
  selfTestPing : ptr;
  synchList : ptr;
  output : Datatypes.list (Z * Z);
}.

(** The tests, cut at their calls into the kernel. *)
Inductive prog : Set :=
| SimpleThread (which num : Z)
| Thread_SelfTest
| SelfTestHelper (i : Z)
| Semaphore_SelfTest
| Semaphore_pinged
| Semaphore_loop (i : Z)
| ListHelper (i : Z)
| ListHelper_got (i : Z)
| SynchList_SelfTest (val : Z)
| SynchList_pinged (val : Z)
| SynchList_loop (val i : Z)
| SynchList_got (val i : Z)
| ThreadSelfTest
| ThreadSelfTest_sem
| ThreadSelfTest_list.

(** A system that holds the tests: where its code has them and where it keeps
    their variables. *)
Class Tests (U D : Type) := {
  test : prog -> U;
  getTests : D -> Globals;
  putTests : Globals -> D -> D;
}.

Definition print (line : Z * Z) (g : Globals) : Globals :=
  mkGlobals (ping g) (semaphore_ g) (selfTestPing g) (synchList g) (output g ++ [line]).
Definition set_ping p (g : Globals) : Globals :=
  mkGlobals p (semaphore_ g) (selfTestPing g) (synchList g) (output g).
Definition set_semaphore p (g : Globals) : Globals :=
  mkGlobals (ping g) p (selfTestPing g) (synchList g) (output g).
Definition set_selfTestPing p (g : Globals) : Globals :=
  mkGlobals (ping g) (semaphore_ g) p (synchList g) (output g).
Definition set_synchList p (g : Globals) : Globals :=
  mkGlobals (ping g) (semaphore_ g) (selfTestPing g) p (output g).

Definition thread_name : Datatypes.list Z := [112; 105; 110; 103].
Definition forked_name : Datatypes.list Z := [102; 111; 114; 107; 101; 100].

Section tests.
Context {C U D : Type} `{Tests U D}.
Abbreviation state := (Sim C (World U D)).

Definition the_globals (s : state) : Globals := getTests (dev (rest s)).
Definition set_globals (g : Globals) (s : state) : state :=
  mkSim (interrupt s) (stats s) (machine s) (mkWorld (kern (rest s)) (putTests g (dev (rest s)))).

Definition returned_ptr (s : state) : res ptr :=
  r ← returned s; match r with Zpos p => Ok p | _ => Fault NullPointer end.

(** Each test, piece by piece: what it does and the calls it makes next.  A test's
    [new Thread] is made where it forks it. *)
Abbreviation pieces := (res (Datatypes.list (instr U) * state)).

Definition SimpleThread_ (which num : Z) (s : state) : pieces :=
  if num <? 5 then Ok ([Yield; User (test (SimpleThread which (num + 1)))], set_globals (print (which, num) (the_globals s)) s)
  else Ok ([], s).

Definition Thread_SelfTest_ (s : state) : pieces :=
  Ok ([NewFork forked_name 0 (test (SimpleThread 1 0)); Yield; User (test (SimpleThread 0 0))], s).

Definition SelfTestHelper_ (i : Z) (s : state) : pieces :=
  let g := the_globals s in
  if i <? 10 then Ok ([P (ping g); V (semaphore_ g); User (test (SelfTestHelper (i + 1)))], s) else Ok ([], s).

Definition Semaphore_SelfTest_ (s : state) : pieces :=
  x ← live (sems (the_kern s)) (semaphore_ (the_globals s));
  ASSERT (value x =? 0) ;;
  Ok ([NewSemaphore 0; User (test Semaphore_pinged)], s).

Definition Semaphore_pinged_ (s : state) : pieces :=
  p ← returned_ptr s;
  Ok ([NewFork thread_name 0 (test (SelfTestHelper 0)); User (test (Semaphore_loop 0))], set_globals (set_ping p (the_globals s)) s).

Definition Semaphore_loop_ (i : Z) (s : state) : pieces :=
  let g := the_globals s in
  if i <? 10 then Ok ([V (ping g); P (semaphore_ g); User (test (Semaphore_loop (i + 1)))], s)
  else Ok ([DeleteSemaphore (ping g)], s).

Definition ListHelper_ (i : Z) (s : state) : pieces :=
  if i <? 10 then Ok ([ListRemoveFront (selfTestPing (the_globals s)); User (test (ListHelper_got i))], s) else Ok ([], s).

Definition ListHelper_got_ (i : Z) (s : state) : pieces :=
  item ← returned s; Ok ([ListAppend (synchList (the_globals s)) item; User (test (ListHelper (i + 1)))], s).

Definition SynchList_SelfTest_ (val : Z) (s : state) : pieces :=
  x ← live (slists (the_kern s)) (synchList (the_globals s));
  ASSERT (Lists.IsEmpty (list x)) ;;
  Ok ([NewSynchList; User (test (SynchList_pinged val))], s).

Definition SynchList_pinged_ (val : Z) (s : state) : pieces :=
  p ← returned_ptr s;
  Ok ([NewFork thread_name 0 (test (ListHelper 0)); User (test (SynchList_loop val 0))],
      set_globals (set_selfTestPing p (the_globals s)) s).

Definition SynchList_loop_ (val i : Z) (s : state) : pieces :=
  let g := the_globals s in
  if i <? 10 then Ok ([ListAppend (selfTestPing g) val; ListRemoveFront (synchList g);
                       User (test (SynchList_got val i))], s)
  else Ok ([DeleteSynchList (selfTestPing g)], s).

Definition SynchList_got_ (val i : Z) (s : state) : pieces :=
  item ← returned s; ASSERT (val =? item) ;; Ok ([User (test (SynchList_loop val (i + 1)))], s).

Definition ThreadSelfTest_ (s : state) : pieces :=
  LibSelfTest (fun _ => 0) ;; Ok ([User (test Thread_SelfTest); NewSemaphore 0; User (test ThreadSelfTest_sem)], s).

Definition ThreadSelfTest_sem_ (s : state) : pieces :=
  p ← returned_ptr s;
  Ok ([User (test Semaphore_SelfTest); DeleteSemaphore p; NewSynchList; User (test ThreadSelfTest_list)],
      set_globals (set_semaphore p (the_globals s)) s).

Definition ThreadSelfTest_list_ (s : state) : pieces :=
  p ← returned_ptr s;
  Ok ([User (test (SynchList_SelfTest 9)); DeleteSynchList p], set_globals (set_synchList p (the_globals s)) s).

Definition ustep_ (u : prog) (s : state) : pieces :=
  match u with
  | SimpleThread which num => SimpleThread_ which num s
  | Thread_SelfTest => Thread_SelfTest_ s
  | SelfTestHelper i => SelfTestHelper_ i s
  | Semaphore_SelfTest => Semaphore_SelfTest_ s
  | Semaphore_pinged => Semaphore_pinged_ s
  | Semaphore_loop i => Semaphore_loop_ i s
  | ListHelper i => ListHelper_ i s
  | ListHelper_got i => ListHelper_got_ i s
  | SynchList_SelfTest val => SynchList_SelfTest_ val s
  | SynchList_pinged val => SynchList_pinged_ val s
  | SynchList_loop val i => SynchList_loop_ val i s
  | SynchList_got val i => SynchList_got_ val i s
  | ThreadSelfTest => ThreadSelfTest_ s
  | ThreadSelfTest_sem => ThreadSelfTest_sem_ s
  | ThreadSelfTest_list => ThreadSelfTest_list_ s
  end.
(** The tests make plain calls and change their variables only. *)
Lemma ustep_plain u (s s' : state) calls : ustep_ u s = Ok (calls, s') ->
  Forall plain calls /\ (s' = s \/ exists g, s' = set_globals g s).
Proof.
  intros E. destruct u; cbn [ustep_] in E;
    unfold SimpleThread_, Thread_SelfTest_, SelfTestHelper_, Semaphore_SelfTest_, Semaphore_pinged_,
      Semaphore_loop_, ListHelper_, ListHelper_got_, SynchList_SelfTest_, SynchList_pinged_,
      SynchList_loop_, SynchList_got_, ThreadSelfTest_, ThreadSelfTest_sem_, ThreadSelfTest_list_ in E;
    repeat match type of E with
    | rbind _ _ = Ok _ => let x := fresh in let Ex := fresh in apply bind_Ok_inv in E as (x & Ex & E)
    | (if ?b then _ else _) = _ => destruct b
    end; injection E as <- <-; (split; [repeat constructor; simpl; lia|eauto]).
Qed.
End tests.

(** *** The tests with the alarm's timer as the only device *)

Record Alone := mkAlone { timer : Timer; random : Z; globals : Globals }.

#[global] Instance tests_alone : Tests prog Alone := {|
  test u := u;
  getTests := globals;
  putTests g d := mkAlone (timer d) (random d) g;
|}.
Abbreviation state := (Sim () (World prog Alone)).

Definition getTimer (s : state) : Timer := timer (dev (rest s)).

#[global] Instance self_tests : Client () prog Alone := {|
  handler self s := Timer_CallBack getTimer self (u32 (random (dev (rest s)))) Alarm_CallBack s;
  ustep := ustep_;
  shutdown _ := Halted;
|}.

(** [Kernel::Initialize], as far as the tests need it: the main thread, which
    runs [main_], the alarm with its timer and the machine. *)
Definition Initialize (randomSlice : bool) (rnd : Z) (main_ : prog) : res state :=
  let alone := mkAlone (mkTimer randomSlice false) rnd (mkGlobals 1%positive 1%positive 1%positive 1%positive []) in
  let k := mkKern ∅ ∅ 1%positive Lists.new_List None ∅ ∅ ∅ ∅ 1%positive in
  let s := mkSim new_Interrupt new_Statistics None (mkWorld k alone) in
  let '(currentThread, s) := new_Thread [109; 97; 105; 110] 0 s in
  let s := on_kern (fun k => set_current (set_stacks k (<[currentThread := [SetLevelTo IntOn; User main_]]> (stacks k)))
                       currentThread) s in
  let s := Threads.setStatus currentThread RUNNING s in
  '(_, s) ← new_Timer randomSlice () (u32 rnd) s;
  m ← Machine.new_Machine (fun _ => 0) 0 false;
  Ok (set_machine m s).

(** Runs until the main thread's function has returned. *)
Fixpoint finish (fuel : nat) (s : state) : res state :=
  match fuel with
  | O => Fault OutOfFuel
  | Datatypes.S fuel =>
      match stacks (the_kern s) !! 1%positive with
      | Some [] => Ok s
      | _ => s ← step s; finish fuel s
      end
  end.

(** *** The tests keep the kernel's rules *)

#[global] Instance self_tests_laws : ClientLaws () prog Alone.
Proof.
  constructor.
  - intros c s s' E Hl. cbn [handler self_tests] in E. unfold Timer_CallBack in E.
    apply bind_Ok_inv in E as (s1 & EA & E). unfold SetInterrupt in E.
    assert (H1 : rest s1 = rest s /\ level (interrupt s1) = level (interrupt s) /\
      inHandler (interrupt s1) = inHandler (interrupt s)).
    { unfold Alarm_CallBack, YieldOnReturn in EA. case_decide; [|by injection EA as <-].
      apply ASSERT_inv in EA as [_ EA]. by injection EA as <-. }
    assert (H2 : rest s' = rest s1 /\ level (interrupt s') = level (interrupt s1) /\
      inHandler (interrupt s') = inHandler (interrupt s1)).
    { destruct (negb _); [|by injection E as <-]. by eapply Schedule_frame. }
    destruct H1 as (R1 & L1 & I1), H2 as (R2 & L2 & I2). split_and!; try congruence.
    unfold the_kern. rewrite R2, R1. constructor.
  - intros u s s' calls E Hl Hh.
    pose proof (ustep_plain u s s' calls E) as HE.
    destruct HE as [Hc [->|(g & ->)]]; split_and!; try done; by apply touch_same.
Qed.

(** *** The kernel at its start *)

Lemma Initialize_good main_ : exists s, Initialize false 0 main_ = Ok s /\ good s /\
  stacks (the_kern s) !! cur s = Some [SetLevelTo IntOn; User main_] /\ room s.
Proof.
  assert (E : exists s, Initialize false 0 main_ = Ok s /\
    the_kern s = mkKern {[1%positive := mkThread [109; 97; 105; 110] 0 None RUNNING
        (replicate (Z.to_nat Machine.NumTotalRegs) 0) None 0]}
      {[1%positive := [SetLevelTo IntOn; User main_]]} 1%positive Lists.new_List None ∅ ∅ ∅ ∅ 2%positive /\
    level (interrupt s) = IntOff /\ inHandler (interrupt s) = false) by (eexists; vm_compute; done).
  destruct E as (s & E & Ek & El & Eh). exists s. split; [exact E|]. clear E. split.
  - eapply (single_thread_good s 1%positive); rewrite ?Ek; try done.
  - unfold cur, room. rewrite Ek. split; [done|]. cbn [threads]. rewrite map_size_singleton. lia.
Qed.

(** The kernel's self test runs to its end: started on the main thread with
    the alarm cutting time slices, the tests of the library, of thread
    switching, of semaphores and of synchronised lists return within 1500 steps
    without a failed assertion, deadlock or access to a deleted object; both
    threads print their five lines in order; no semaphore, lock, condition or
    list is left. *)
Example ThreadSelfTest_completes (rnd : Z) :
  match (s ← Initialize false rnd ThreadSelfTest; finish 1500 s) with
  | Ok s =>
      output (the_globals s) = [(1, 0); (0, 0); (1, 1); (0, 1); (1, 2); (0, 2); (1, 3); (1, 4); (0, 3); (0, 4)] /\
      sems (the_kern s) = ∅ /\ locks (the_kern s) = ∅ /\ conds (the_kern s) = ∅ /\
      slists (the_kern s) = ∅ /\ cur s = 1%positive /\ balanced (stats s)
  | Fault _ => False
  end.
Proof. vm_compute. split_and!; congruence. Qed.

(** *** The properties of the kernel on the tests *)

Definition someone_waits (s : state) : bool :=
  existsb (fun px : ptr * Semaphore => negb (Lists.IsEmpty (queue px.2))) (map_to_list (sems (the_kern s))).

(** What the tests reach within 1500 steps. *)
Lemma tests_reach (stop : state -> bool) :
  match (s ← Initialize false 0 ThreadSelfTest; run_until 1500 stop s) with Ok _ => true | Fault _ => false end = true ->
  exists s0 n s, good s0 /\ Kernel.run n s0 s /\ stop s = true.
Proof.
  intros Hb. destruct (Initialize_good ThreadSelfTest) as (s0 & E & Hg & _). rewrite E in Hb. cbn [rbind] in Hb.
  destruct (run_until _ _ s0) as [s|] eqn:HR; [|discriminate Hb]. clear E. apply run_until_run in HR as (Hst & n & Hn).
  by exists s0, n, s.
Qed.

Lemma someone_waits_queue (s : state) : good s -> someone_waits s = true ->
  exists p x t q, sems (the_kern s) !! p = Some x /\ Lists.rep (queue x) (t :: q).
Proof.
  intros Hg Hw. apply existsb_exists in Hw as ([p x] & Hin & Hne). cbn [snd] in Hne.
  apply list_elem_of_In, elem_of_map_to_list in Hin.
  destruct (pl_sem _ (ca_placed _ (go_calm _ Hg)) p x Hin) as (q & Hq & _).
  rewrite (Lists.IsEmpty_law _ _ Hq) in Hne. destruct q as [|t q]; [done|]. by exists p, x, t, q.
Qed.

Lemma step_keeps_kernel_witness : exists s : state,
  stacks (the_kern s) !! cur s = Some [SetLevelTo IntOn; User ThreadSelfTest] /\
  match step s with
  | Ok s' => good s'
  | Fault f => stacks (the_kern s) !! cur s = Some [] \/
      exists i fs, stacks (the_kern s) !! cur s = Some (i :: fs) /\ may_fail (set_stack (cur s) fs s) i f
  end.
Proof.
  destruct (Initialize_good ThreadSelfTest) as (s & _ & Hg & Hst & Hroom). exists s.
  split; [exact Hst|]. exact (step_keeps_kernel s Hg Hroom).
Defined.

Lemma no_lost_wakeup_witness : exists (s : state) p x t q (W : Datatypes.list ptr), sems (the_kern s) !! p = Some x /\
  Lists.rep (queue x) (t :: q) /\ NoDup W /\ 0 <= value x <= zlen W.
Proof.
  destruct (tests_reach someone_waits) as (s0 & n & s & Hg & Hn & Hw); [vm_compute; reflexivity|].
  destruct (someone_waits_queue s (run_good n s0 s Hg Hn) Hw) as (p & x & t & q & Hx & Hq).
  destruct (no_lost_wakeup n s0 s p x t q Hg Hn Hx Hq) as (Hv & _ & _ & W & rl & Hnd & Hle & _).
  exists s, p, x, t, q, W. split_and!; done.
Defined.

Lemma ready_thread_runs_witness : exists (s s1 : state) t, Kernel.run 1 s s1 /\ cur s1 = t /\
  has_status (the_kern s) t READY.
Proof.
  destruct (tests_reach (fun s => dispatches s && has_room s &&
    match step s with Ok _ => true | Fault _ => false end)) as (s0 & n & s & Hg0 & Hn & Hs); [vm_compute; reflexivity|].
  apply andb_true_iff in Hs as [[Hd Hroom]%andb_true_iff Hs]. destruct (step s) as [s2|] eqn:Es; [|done].
  pose proof (run_good n s0 s Hg0 Hn) as Hg.
  destruct (pl_ready _ (ca_placed _ (go_calm _ Hg))) as (rl & Hrl & _ & Hiff).
  destruct rl as [|t rl].
  { exfalso. unfold dispatches in Hd. rewrite (Lists.IsEmpty_law _ _ Hrl) in Hd.
    rewrite bool_decide_eq_true_2 in Hd by done. by destruct (_ !! _) as [[|[] ?]|]. }
  assert (Hrun : Kernel.run 1 s s2).
  { pose proof (run_step 0 s s2 s2 (has_room_room s Hroom) Es (run_refl s2)) as Hr. by rewrite Hd in Hr. }
  destruct (ready_thread_runs 1 s s2 t [] rl Hg Hrl Hrun) as (s1 & Hr1 & Hc); [simpl; lia|].
  exists s, s1, t. split_and!; try done. apply Hiff. by left.
Defined.

Lemma V_wakes_longest_waiting_witness : exists (s s' : state) p t, exec (V p) s = Ok ([SetLevelTo (level (interrupt s))], s') /\
  has_status (the_kern s) t BLOCKED /\ has_status (the_kern s') t READY.
Proof.
  destruct (tests_reach someone_waits) as (s0 & n & s & Hg0 & Hn & Hs);
    [vm_compute; reflexivity|]. rename Hs into Hw.
  pose proof (run_good n s0 s Hg0 Hn) as Hg.
  destruct (someone_waits_queue s Hg Hw) as (p & x & t & q & Hx & Hq).
  pose proof (ca_placed _ (go_calm _ Hg)) as Hpl. destruct (pl_ready _ Hpl) as (rl & Hrl & _).
  destruct (V_wakes_longest_waiting s p x (t :: q) rl Hg Hx Hq Hrl)
    as (s' & E & _ & _ & _ & _ & x' & _ & _ & _ & _ & Hth).
  destruct (pl_wait _ Hpl p (t :: q) t) as [(th & Hth0 & Hb) _]; [by exists x|by left|].
  exists s, s', p, t. split_and!; [done|by exists th|].
  exists (with_status READY th). split; [|done]. rewrite (Hth t), decide_True by (simpl; by left). by rewrite Hth0.
Defined.
End SelfTests.
