(* ===== verification/System.v ===== *)
(** The kernel's data ([threads/kernel.h]): the process table and its control
    blocks ([threads/pcb.h], [threads/ptable.h], [threads/ProcessArg.h]), the
    table of named semaphores ([threads/sem.h], [threads/stable.h]), the console
    ([machine/console.h], [userprog/synchconsole.h]) and the file system, with
    the places where the kernel's functions are cut by calls of the thread
    machine. *)

From Stdlib Require Import QArith_base.
From S2P Require Import Prelude Bitmap Lists Machine Interrupt Disk HostFS AddrSpace Threads SelfTests.
Import Stats Interrupt Threads.

(** What is outside the simulation and not a file: the random numbers of the C
    library, the streams the terminal is, and the UNIX sockets of the machines
    on the network: what [recvfrom] and [sendto] return, and the bytes read. *)
Class Outside (N : Type) := {
  RandomInit : Z -> N -> N;
  RandomNumber : N -> Z * N;
  poll : Z -> N -> bool * N;
  read_char : Z -> N -> option Z * N;
  write_char : Z -> Z -> N -> N;
  recvfrom : Z -> Z -> N -> Datatypes.list Z * N;
  sendto : Z -> Datatypes.list Z -> Unix.path -> N -> Z * N;
}.

Module System.

(** A pointer to an array of characters, or to a control block. *)
Abbreviation loc := StubFS.loc.

(** [argc] is the length of [argv]. *)
Record ProcessArg := mkProcessArg { arg_pid : Z; argv : Datatypes.list loc }.

Record PCB := mkPCB {
  joinsem : ptr;
  exitsem : ptr;
  multex : ptr;
  exitcode : Z;
  numwait : Z;
  filename : option loc;
  isJoined : bool;
  parentID : Z;
  pid : Z;
}.

Definition MAX_PROCESS : Z := 10.
Record PTable := mkPTable {
  psize : Z;
  bm : Bitmap.Bitmap;
  pcb : Datatypes.list (option loc);
  bmsem : ptr;
}.

(** The string in [name] and the semaphore. *)
Record Sem := mkSem { sem_name : Unix.path; sem : ptr }.

Definition MAX_SEMAPHORE : Z := 10.
Record STable := mkSTable { st_bm : Bitmap.Bitmap; semTab : Datatypes.list (option Sem) }.

Record ConsoleInput := mkConsoleInput { readFileNo : Z; incoming : Z }.
Record ConsoleOutput := mkConsoleOutput { writeFileNo : Z; putBusy : bool }.
Record SynchConsoleInput := mkSynchIn { consoleInput : ConsoleInput; in_lock : ptr; in_waitFor : ptr }.
Record SynchConsoleOutput := mkSynchOut { consoleOutput : ConsoleOutput; out_lock : ptr; out_waitFor : ptr }.

(** *** The network *)

Record PacketHeader := mkPacketHeader { pkt_to : Z; pkt_from : Z; pkt_length : Z }.
Definition MaxWireSize : Z := 64.
Definition MaxPacketSize : Z := MaxWireSize - 12.
Record MailHeader := mkMailHeader { mail_to : Z; mail_from : Z; mail_length : Z }.
Definition MaxMailSize : Z := MaxPacketSize - 12.

Record Mail := mkMail { pktHdr : PacketHeader; mailHdr : MailHeader; mail_data : Datatypes.list Z }.

(** [chanceToWork] is a [double] in the code. *)
Record NetworkInput := mkNetworkInput { in_sock : Z; packetAvail : bool; inHdr : PacketHeader; inbox : Datatypes.list Z }.
Record NetworkOutput := mkNetworkOutput { out_sock : Z; chanceToWork : Q; sendBusy : bool }.

(** A mailbox is its [SynchList] of pointers to [Mail]. *)
Record PostOfficeInput := mkPostIn { in_network : NetworkInput; boxes : Datatypes.list ptr; messageAvailable : ptr }.
Record PostOfficeOutput := mkPostOut { out_network : NetworkOutput; messageSent : ptr; sendLock : ptr }.

(** [disk_fd] is the descriptor of the file the disk is in. *)
Record SynchDisk := mkSynchDisk { disk : Disk.Disk; disk_fd : Z; disk_sem : ptr; disk_lock : ptr }.

(** What the global [kernel] points to, apart from the thread machine and the
    simulation.  [pcbs] and [mails] are the control blocks and the messages in
    memory, [letters] and [sectors] what [Receive] and [ReadSector] last stored
    through the pointers each thread gave them, [tests] the variables of the
    self test. *)
Record Sys (N : Type) := mkSys {
  alarm_timer : Timer;
  synchConsoleIn : SynchConsoleInput;
  synchConsoleOut : SynchConsoleOutput;
  fileSystem : StubFS.FS N;
  pTable : PTable;
  sTable : STable;
  pcbs : gmap loc PCB;
  hostName : Z;
  synchDisk : SynchDisk;
  postOfficeIn : PostOfficeInput;
  postOfficeOut : PostOfficeOutput;
  mails : gmap loc Mail;
  letters : gmap ptr Mail;
  sectors : gmap ptr (Datatypes.list Z);
  tests : SelfTests.Globals;
}.
Arguments mkSys {N} alarm_timer synchConsoleIn synchConsoleOut fileSystem pTable sTable pcbs
  hostName synchDisk postOfficeIn postOfficeOut mails letters sectors tests.
Arguments hostName {N} s.
Arguments synchDisk {N} s.
Arguments postOfficeIn {N} s.
Arguments postOfficeOut {N} s.
Arguments mails {N} s.
Arguments letters {N} s.
Arguments sectors {N} s.
Arguments tests {N} s.
Arguments alarm_timer {N} s.
Arguments synchConsoleIn {N} s.
Arguments synchConsoleOut {N} s.
Arguments fileSystem {N} s.
Arguments pTable {N} s.
Arguments sTable {N} s.
Arguments pcbs {N} s.

(** The objects interrupts call: the alarm's timer and the devices. *)
Inductive device : Set := AlarmTimer | Keyboard | Display | DiskDrive | NetworkIn | NetworkOut.
#[global] Instance device_eq_dec : EqDecision device.
Proof. solve_decision. Defined.

(** What [Exec] and [ExecV] are given: a name, or the array of the arguments. *)
Inductive command : Type := Program (name : loc) | Command (argv : Datatypes.list loc).

(** The functions of the kernel that other calls of the thread machine interrupt,
    each with its arguments, and what is left of them after such a call, with
    the local variables it needs. *)
Inductive code : Type :=
| Return (r : Z)
| GetChar
| GetChar_got
| PutChar (ch : Z)
| PutChar_put (ch : Z)
| ExecUpdate (c : command)
| ExecUpdate_in (c : command)
| ExecUpdate_exec (pid : Z) (c : command)
| PCB_Exec (p : loc) (c : command)
| PCB_Exec_in (p : loc) (c : command)
| RunProcess (arg : ProcessArg)
| RunUser
| IncNumWait (p : loc)
| IncNumWait_in (p : loc)
| DecNumWait (p : loc)
| DecNumWait_in (p : loc)
| JoinUpdate (pid : Z)
| JoinUpdate_joined (parentID : Z)
| JoinUpdate_counted (parentID : Z)
| ExitUpdate (ec : Z)
| ExitUpdate_released (parentID : Z)
| ExitUpdate_counted (parentID : Z)
| STable_Wait (name : Unix.path)
| STable_Signal (name : Unix.path)
| ExceptionHandler (which : Machine.ExceptionType)
| Read_loop (virAddr charCnt : Z) (tmp : Datatypes.list Z)
| Read_got (virAddr charCnt : Z) (tmp : Datatypes.list Z)
| Write_loop (charCnt : Z) (buf : Datatypes.list Z) (i : Z)
| Write_done (i : Z)
| Exec_done (name : loc)
| SetResult
| Exit_done
| PCIncrease
| Main (userProgName : option Unix.path) (args : Datatypes.list Unix.path)
| ConsoleTest
| ConsoleTest_got
| ReadSector (sectorNumber : Z)
| ReadSector_locked (sectorNumber : Z)
| WriteSector (sectorNumber : Z) (data : Datatypes.list Z)
| WriteSector_locked (sectorNumber : Z) (data : Datatypes.list Z)
| PostalDelivery (buffer : Datatypes.list Z)
| PostalDelivery_got (buffer : Datatypes.list Z)
| PostReceive (box : Z)
| PostReceive_got
| PostSend (pkt : PacketHeader) (mail : MailHeader) (data : Datatypes.list Z)
| PostSend_locked (pkt : PacketHeader) (buffer : Datatypes.list Z)
| NetworkTest
| NetworkTest_got
| NetworkTest_acked
| SelfTest (p : SelfTests.prog).

Section access.
Context {N : Type}.
Abbreviation state := (Sim device (World code (Sys N))).
Implicit Types (s : state) (y : Sys N).

Definition the_sys s : Sys N := dev (rest s).
Definition on_sys (f : Sys N -> Sys N) s : state :=
  mkSim (interrupt s) (stats s) (machine s) (mkWorld (kern (rest s)) (f (dev (rest s)))).

Definition set_in c y : Sys N := mkSys (alarm_timer y) c (synchConsoleOut y) (fileSystem y) (pTable y)
  (sTable y) (pcbs y) (hostName y) (synchDisk y) (postOfficeIn y) (postOfficeOut y) (mails y) (letters y)
  (sectors y) (tests y).
Definition set_out c y : Sys N := mkSys (alarm_timer y) (synchConsoleIn y) c (fileSystem y) (pTable y)
  (sTable y) (pcbs y) (hostName y) (synchDisk y) (postOfficeIn y) (postOfficeOut y) (mails y) (letters y)
  (sectors y) (tests y).
Definition set_fs f y : Sys N := mkSys (alarm_timer y) (synchConsoleIn y) (synchConsoleOut y) f (pTable y)
  (sTable y) (pcbs y) (hostName y) (synchDisk y) (postOfficeIn y) (postOfficeOut y) (mails y) (letters y)
  (sectors y) (tests y).
Definition set_ptable t y : Sys N := mkSys (alarm_timer y) (synchConsoleIn y) (synchConsoleOut y)
  (fileSystem y) t (sTable y) (pcbs y) (hostName y) (synchDisk y) (postOfficeIn y) (postOfficeOut y)
  (mails y) (letters y) (sectors y) (tests y).
Definition set_stable t y : Sys N := mkSys (alarm_timer y) (synchConsoleIn y) (synchConsoleOut y)
  (fileSystem y) (pTable y) t (pcbs y) (hostName y) (synchDisk y) (postOfficeIn y) (postOfficeOut y)
  (mails y) (letters y) (sectors y) (tests y).
Definition set_pcbs p y : Sys N := mkSys (alarm_timer y) (synchConsoleIn y) (synchConsoleOut y)
  (fileSystem y) (pTable y) (sTable y) p (hostName y) (synchDisk y) (postOfficeIn y) (postOfficeOut y)
  (mails y) (letters y) (sectors y) (tests y).
Definition set_synchDisk d y : Sys N := mkSys (alarm_timer y) (synchConsoleIn y) (synchConsoleOut y)
  (fileSystem y) (pTable y) (sTable y) (pcbs y) (hostName y) d (postOfficeIn y) (postOfficeOut y) (mails y)
  (letters y) (sectors y) (tests y).
Definition set_postIn p y : Sys N := mkSys (alarm_timer y) (synchConsoleIn y) (synchConsoleOut y)
  (fileSystem y) (pTable y) (sTable y) (pcbs y) (hostName y) (synchDisk y) p (postOfficeOut y) (mails y)
  (letters y) (sectors y) (tests y).
Definition set_postOut p y : Sys N := mkSys (alarm_timer y) (synchConsoleIn y) (synchConsoleOut y)
  (fileSystem y) (pTable y) (sTable y) (pcbs y) (hostName y) (synchDisk y) (postOfficeIn y) p (mails y)
  (letters y) (sectors y) (tests y).
Definition set_mails m y : Sys N := mkSys (alarm_timer y) (synchConsoleIn y) (synchConsoleOut y)
  (fileSystem y) (pTable y) (sTable y) (pcbs y) (hostName y) (synchDisk y) (postOfficeIn y)
  (postOfficeOut y) m (letters y) (sectors y) (tests y).
Definition set_letters l y : Sys N := mkSys (alarm_timer y) (synchConsoleIn y) (synchConsoleOut y)
  (fileSystem y) (pTable y) (sTable y) (pcbs y) (hostName y) (synchDisk y) (postOfficeIn y)
  (postOfficeOut y) (mails y) l (sectors y) (tests y).
Definition set_sectors d y : Sys N := mkSys (alarm_timer y) (synchConsoleIn y) (synchConsoleOut y)
  (fileSystem y) (pTable y) (sTable y) (pcbs y) (hostName y) (synchDisk y) (postOfficeIn y)
  (postOfficeOut y) (mails y) (letters y) d (tests y).
Definition set_tests g y : Sys N := mkSys (alarm_timer y) (synchConsoleIn y) (synchConsoleOut y)
  (fileSystem y) (pTable y) (sTable y) (pcbs y) (hostName y) (synchDisk y) (postOfficeIn y)
  (postOfficeOut y) (mails y) (letters y) (sectors y) g.

Definition the_fs s : StubFS.FS N := fileSystem (the_sys s).
Definition put_fs (f : StubFS.FS N) s : state := on_sys (set_fs f) s.
Definition put_net (n : N) s : state := put_fs (StubFS.set_net (the_fs s) n) s.

(** [kernel->currentThread->processID] *)
Definition current_pid s : res Z := th ← live (threads (the_kern s)) (cur s); Ok (processID th).

#[global] Instance system_tests : SelfTests.Tests code (Sys N) :=
  {| SelfTests.test := SelfTest; SelfTests.getTests := tests; SelfTests.putTests := set_tests |}.
End access.
End System.
