(* ===== verification/Console.v ===== *)
(** The console: the keyboard and the display ([machine/console.h],
    [machine/console.cc]) and their synchronous interface
    ([userprog/synchconsole.h], [userprog/synchconsole.cc]), on the UNIX calls of
    [lib/sysdep.cc]. *)

From S2P Require Import Prelude Bitmap Lists Machine Interrupt HostFS AddrSpace Threads System.
Import Stats Interrupt Threads System.

Module Console.

(** A [char] is signed; [EOF] is -1, which the character 255 equals. *)
Definition EOF : Z := -1.
Definition to_char (b : Z) : Z := if b <? 128 then b else b - 256.
Definition of_char (c : Z) : Z := c mod 256.

Section code.
Context {N : Type} `{Outside N}.
Abbreviation state := (Sim device (World code (Sys N))).
Abbreviation frames := (Datatypes.list (instr code)).
Implicit Types (s : state).

(** *** [lib/sysdep.cc], on a file or on a stream *)

(** [select] fails on a descriptor that is not open. *)
Definition PollFile (fd : Z) s : res (bool * state) :=
  match Unix.fds (StubFS.host (the_fs s)) !! fd with
  | Some (Unix.File _ _) => Ok (true, s)
  | Some Unix.Stream => let '(b, n) := poll fd (StubFS.net (the_fs s)) in Ok (b, put_net n s)
  | None => Fault AssertFailed
  end.

(** [ReadPartial(fd, &c, 1)]: what it returns, and the byte. *)
Definition ReadChar (fd : Z) s : res (Z * Z * state) :=
  match Unix.fds (StubFS.host (the_fs s)) !! fd with
  | Some Unix.Stream =>
      let '(c, n) := read_char fd (StubFS.net (the_fs s)) in
      Ok (match c with Some c => (1, c) | None => (0, 0) end, put_net n s)
  | _ =>
      '(r, h) ← Unix.ReadPartial fd 1 (StubFS.host (the_fs s));
      Ok (match r with Some [c] => (1, c) | Some _ => (0, 0) | None => (-1, 0) end,
          put_fs (StubFS.set_host (the_fs s) h) s)
  end.

(** [WriteFile(fd, &ch, 1)] *)
Definition WriteChar (fd ch : Z) s : res state :=
  match Unix.fds (StubFS.host (the_fs s)) !! fd with
  | Some Unix.Stream => Ok (put_net (write_char fd (of_char ch) (StubFS.net (the_fs s))) s)
  | _ =>
      h ← Unix.WriteFile fd [of_char ch] (StubFS.host (the_fs s));
      Ok (put_fs (StubFS.set_host (the_fs s) h) s)
  end.

(** *** The devices *)

Definition keyboard s : ConsoleInput := consoleInput (synchConsoleIn (the_sys s)).
Definition display s : ConsoleOutput := consoleOutput (synchConsoleOut (the_sys s)).
Definition set_incoming (c : Z) s : state :=
  on_sys (fun y => let i := synchConsoleIn y in
    set_in (mkSynchIn (mkConsoleInput (readFileNo (consoleInput i)) c) (in_lock i) (in_waitFor i)) y) s.
Definition set_putBusy (b : bool) s : state :=
  on_sys (fun y => let o := synchConsoleOut y in
    set_out (mkSynchOut (mkConsoleOutput (writeFileNo (consoleOutput o)) b) (out_lock o) (out_waitFor o)) y) s.

Definition char_read (st : Statistics) : Statistics :=
  mkStatistics (totalTicks st) (idleTicks st) (systemTicks st) (userTicks st)
    (numDiskReads st) (numDiskWrites st) (s32 (numConsoleCharsRead st + 1)) (numConsoleCharsWritten st)
    (numPageFaults st) (numPacketsSent st) (numPacketsRecvd st).
Definition char_written (st : Statistics) : Statistics :=
  mkStatistics (totalTicks st) (idleTicks st) (systemTicks st) (userTicks st)
    (numDiskReads st) (numDiskWrites st) (numConsoleCharsRead st) (s32 (numConsoleCharsWritten st + 1))
    (numPageFaults st) (numPacketsSent st) (numPacketsRecvd st).

(** The name of the file, or [NULL] for standard input. *)
Definition new_ConsoleInput (readFile : option Unix.path) s : res (ConsoleInput * state) :=
  '(fd, s) ← match readFile with
             | None => Ok (0, s)
             | Some name =>
                 '(fd, h) ← Unix.OpenForReadWrite name true (StubFS.host (the_fs s));
                 Ok (fd, put_fs (StubFS.set_host (the_fs s) h) s)
             end;
  s ← Schedule Keyboard ConsoleTime ConsoleReadInt s;
  Ok (mkConsoleInput fd EOF, s).

(** [callWhenAvail->CallBack()]: the synchronous console's. *)
Definition SynchIn_CallBack s : res state := V_in_handler (in_waitFor (synchConsoleIn (the_sys s))) s.

Definition ConsoleInput_CallBack s : res state :=
  ASSERT (incoming (keyboard s) =? EOF) ;;
  '(ready, s) ← PollFile (readFileNo (keyboard s)) s;
  if negb ready then Schedule Keyboard ConsoleTime ConsoleReadInt s
  else
    '(readCount, c, s) ← ReadChar (readFileNo (keyboard s)) s;
    s ← (if readCount =? 0 then Ok s
         else ASSERT (readCount =? 1) ;;
              let s := set_incoming (to_char c) s in
              Ok (with_stats s (char_read (stats s))));
    SynchIn_CallBack s.

Definition ConsoleInput_GetChar s : res (Z * state) :=
  let ch := incoming (keyboard s) in
  s ← (if negb (ch =? EOF) then Schedule Keyboard ConsoleTime ConsoleReadInt s else Ok s);
  Ok (ch, set_incoming EOF s).

Definition new_ConsoleOutput (writeFile : option Unix.path) s : res (ConsoleOutput * state) :=
  '(fd, s) ← match writeFile with
             | None => Ok (1, s)
             | Some name =>
                 '(fd, h) ← Unix.OpenForWrite name (StubFS.host (the_fs s));
                 Ok (fd, put_fs (StubFS.set_host (the_fs s) h) s)
             end;
  Ok (mkConsoleOutput fd false, s).

Definition SynchOut_CallBack s : res state := V_in_handler (out_waitFor (synchConsoleOut (the_sys s))) s.

Definition ConsoleOutput_CallBack s : res state :=
  let s := set_putBusy false s in
  SynchOut_CallBack (with_stats s (char_written (stats s))).

Definition ConsoleOutput_PutChar (ch : Z) s : res state :=
  ASSERT (negb (putBusy (display s))) ;;
  s ← WriteChar (writeFileNo (display s)) ch s;
  Schedule Display ConsoleTime ConsoleWriteInt (set_putBusy true s).

(** The destructors close what is not a standard stream. *)
Definition delete_ConsoleInput s : res state :=
  if negb (readFileNo (keyboard s) =? 0) then
    h ← Unix.Close (readFileNo (keyboard s)) (StubFS.host (the_fs s));
    Ok (put_fs (StubFS.set_host (the_fs s) h) s)
  else Ok s.
Definition delete_ConsoleOutput s : res state :=
  if negb (writeFileNo (display s) =? 1) then
    h ← Unix.Close (writeFileNo (display s)) (StubFS.host (the_fs s));
    Ok (put_fs (StubFS.set_host (the_fs s) h) s)
  else Ok s.

(** *** The synchronous console *)

Definition new_SynchConsoleInput (inputFile : option Unix.path) s : res state :=
  '(c, s) ← new_ConsoleInput inputFile s;
  let '(l, s) := new_Lock s in
  let '(w, s) := new_Semaphore 0 s in
  Ok (on_sys (set_in (mkSynchIn c l w)) s).

Definition new_SynchConsoleOutput (outputFile : option Unix.path) s : res state :=
  '(c, s) ← new_ConsoleOutput outputFile s;
  let '(l, s) := new_Lock s in
  let '(w, s) := new_Semaphore 0 s in
  Ok (on_sys (set_out (mkSynchOut c l w)) s).

Definition delete_SynchConsoleInput s : res state :=
  s ← delete_ConsoleInput s;
  s ← delete_Lock (in_lock (synchConsoleIn (the_sys s))) s;
  delete_Semaphore (in_waitFor (synchConsoleIn (the_sys s))) s.
Definition delete_SynchConsoleOutput s : res state :=
  s ← delete_ConsoleOutput s;
  s ← delete_Lock (out_lock (synchConsoleOut (the_sys s))) s;
  delete_Semaphore (out_waitFor (synchConsoleOut (the_sys s))) s.

(** The character is the result of the call once the lock is released. *)
Definition GetChar_ s : res (frames * state) :=
  let c := synchConsoleIn (the_sys s) in
  Ok ([Acquire (in_lock c); P (in_waitFor c); User GetChar_got], s).
Definition GetChar_got_ s : res (frames * state) :=
  '(ch, s) ← ConsoleInput_GetChar s;
  Ok ([Release (in_lock (synchConsoleIn (the_sys s)))], return_ ch s).

Definition PutChar_ (ch : Z) s : res (frames * state) :=
  Ok ([Acquire (out_lock (synchConsoleOut (the_sys s))); User (PutChar_put ch)], s).
Definition PutChar_put_ (ch : Z) s : res (frames * state) :=
  s ← ConsoleOutput_PutChar ch s;
  let c := synchConsoleOut (the_sys s) in
  Ok ([P (out_waitFor c); Release (out_lock c)], s).

(** *** [Kernel::ConsoleTest], which echoes what is typed *)

Definition ConsoleTest_ s : res (frames * state) := Ok ([User GetChar; User ConsoleTest_got], s).
Definition ConsoleTest_got_ s : res (frames * state) :=
  ch ← returned s;
  if ch =? EOF then Ok ([], s) else Ok ([User (PutChar ch); User ConsoleTest], s).
End code.
End Console.
