(* ===== verification/Network.v ===== *)
(** The network devices ([machine/network.h], [machine/network.cc]), the post
    office that sends messages over them ([network/post.h], [network/post.cc]),
    the synchronous disk ([filesys/synchdisk.h], [filesys/synchdisk.cc]) and the
    destructor of the kernel; and that mail arrives as it was sent. *)

From Stdlib Require Import QArith_base.
From S2P Require Import Prelude Bitmap Lists Machine Interrupt Disk HostFS AddrSpace Threads System Console.
Import Stats Interrupt Threads System Console.
Open Scope Z_scope.

Module Network.

(** The digits of [sprintf] with [%d], and the name of a machine's socket. *)
Fixpoint digits (fuel : nat) (n : Z) : Unix.path :=
  match fuel with
  | O => []
  | Datatypes.S fuel => (if n <? 10 then [] else digits fuel (n / 10)) ++ [48 + n mod 10]
  end.
Definition decimal (n : Z) : Unix.path := if n <? 0 then 45 :: digits 10 (- n) else digits 10 n.
Definition socket_name (host : Z) : Unix.path := [83; 79; 67; 75; 69; 84; 95] ++ decimal host.
Definition disk_name (host : Z) : Unix.path := [68; 73; 83; 75; 95] ++ decimal host.

(** Three words: a header in the first bytes of a packet. *)
Definition words (a b c : Z) : Datatypes.list Z := le_split 4 a ++ le_split 4 b ++ le_split 4 c.
Definition word_at (i : nat) (bs : Datatypes.list Z) : Z := le_combine (slice i 4 bs).
Definition packet_bytes (h : PacketHeader) : Datatypes.list Z := words (pkt_to h) (pkt_from h) (pkt_length h).
Definition mail_bytes (h : MailHeader) : Datatypes.list Z := words (mail_to h) (mail_from h) (mail_length h).
Definition packet_of (bs : Datatypes.list Z) : PacketHeader :=
  mkPacketHeader (s32 (word_at 0 bs)) (s32 (word_at 4 bs)) (word_at 8 bs).
Definition mail_of (bs : Datatypes.list Z) : MailHeader :=
  mkMailHeader (s32 (word_at 0 bs)) (s32 (word_at 4 bs)) (word_at 8 bs).

Section code.
Context {N : Type} `{Outside N}.
Abbreviation state := (Sim device (World code (Sys N))).
Abbreviation frames := (Datatypes.list (instr code)).
Implicit Types (s : state).

Definition on_host (op : Unix.Host -> Unix.Host) s : state :=
  put_fs (StubFS.set_host (the_fs s) (op (StubFS.host (the_fs s)))) s.

(** *** [lib/sysdep.cc]: sockets with a name in the file system *)

Definition OpenSocket s : res (Z * state) :=
  '(fd, h) ← Unix.OpenSocketInternet (StubFS.host (the_fs s));
  Ok (fd, put_fs (StubFS.set_host (the_fs s) h) s).

(** [bind] fails when the name cannot be removed. *)
Definition AssignNameToSocket (name : Unix.path) s : res state :=
  let s := on_host (fun h => (Unix.Unlink name h).2) s in
  ASSERT (negb (bool_decide (is_Some (Unix.dir (StubFS.host (the_fs s)) !! name)))) ;;
  Ok s.
Definition DeAssignNameToSocket (name : Unix.path) s : state := on_host (fun h => (Unix.Unlink name h).2) s.

Definition PollSocket (sock : Z) s : res (bool * state) := PollFile sock s.

Definition ReadFromSocket (sock packetSize : Z) s : res (Datatypes.list Z * state) :=
  let '(bs, n) := recvfrom sock packetSize (StubFS.net (the_fs s)) in
  ASSERT (zlen bs =? packetSize) ;; Ok (bs, put_net n s).

(** Ten attempts, after which the packet is dropped. *)
Definition SendToSocket (sock : Z) (buffer : Datatypes.list Z) (toName : Unix.path) s : res state :=
  r ← for_return 10 0 (fun _ s =>
        let '(r, n) := sendto sock buffer toName (StubFS.net (the_fs s)) in
        let s := put_net n s in
        if r =? zlen buffer then Ok (inr s) else ASSERT (r <? 0) ;; Ok (inl s)) s;
  match r with inl s => Ok s | inr s => Ok s end.

(** *** The devices *)

Definition the_input s : NetworkInput := in_network (postOfficeIn (the_sys s)).
Definition the_output s : NetworkOutput := out_network (postOfficeOut (the_sys s)).
Definition set_input (i : NetworkInput) s : state :=
  on_sys (fun y => let p := postOfficeIn y in set_postIn (mkPostIn i (boxes p) (messageAvailable p)) y) s.
Definition set_output (o : NetworkOutput) s : state :=
  on_sys (fun y => let p := postOfficeOut y in set_postOut (mkPostOut o (messageSent p) (sendLock p)) y) s.
Definition set_inHdr (h : PacketHeader) (i : NetworkInput) : NetworkInput :=
  mkNetworkInput (in_sock i) (packetAvail i) h (inbox i).

(** [hdr] and [box] are what the header and the inbox hold uninitialised. *)
Definition new_NetworkInput (hdr : PacketHeader) (box : Datatypes.list Z) s : res (NetworkInput * state) :=
  '(sock, s) ← OpenSocket s;
  s ← AssignNameToSocket (socket_name (hostName (the_sys s))) s;
  s ← Schedule NetworkIn NetworkTime NetworkRecvInt s;
  Ok (mkNetworkInput sock false (mkPacketHeader (pkt_to hdr) (pkt_from hdr) 0) box, s).

Definition delete_NetworkInput s : state :=
  DeAssignNameToSocket (socket_name (hostName (the_sys s)))
    (on_host (Unix.CloseSocket (in_sock (the_input s))) s).

Definition packet_received (st : Statistics) : Statistics :=
  mkStatistics (totalTicks st) (idleTicks st) (systemTicks st) (userTicks st)
    (numDiskReads st) (numDiskWrites st) (numConsoleCharsRead st) (numConsoleCharsWritten st)
    (numPageFaults st) (numPacketsSent st) (s32 (numPacketsRecvd st + 1)).
Definition packet_sent (st : Statistics) : Statistics :=
  mkStatistics (totalTicks st) (idleTicks st) (systemTicks st) (userTicks st)
    (numDiskReads st) (numDiskWrites st) (numConsoleCharsRead st) (numConsoleCharsWritten st)
    (numPageFaults st) (s32 (numPacketsSent st + 1)) (numPacketsRecvd st).

Definition PostIn_CallBack s : res state := V_in_handler (messageAvailable (postOfficeIn (the_sys s))) s.

(** The lengths in headers are unsigned. *)
Definition NetworkInput_CallBack s : res state :=
  s ← Schedule NetworkIn NetworkTime NetworkRecvInt s;
  if negb (pkt_length (inHdr (the_input s)) =? 0) then Ok s
  else
    '(ready, s) ← PollSocket (in_sock (the_input s)) s;
    if negb ready then Ok s
    else
      '(buffer, s) ← ReadFromSocket (in_sock (the_input s)) MaxWireSize s;
      let hdr := packet_of buffer in
      ASSERT ((pkt_to hdr =? hostName (the_sys s)) && (pkt_length hdr <=? MaxPacketSize)) ;;
      let i := the_input s in
      let box := splice 0 (slice 12 (Z.to_nat (pkt_length hdr)) buffer) (inbox i) in
      let s := set_input (mkNetworkInput (in_sock i) (packetAvail i) hdr box) s in
      PostIn_CallBack (with_stats s (packet_received (stats s))).

(** The header, and the data with the bytes of the packet in front. *)
Definition NetworkInput_Receive (data : Datatypes.list Z) s : PacketHeader * Datatypes.list Z * state :=
  let i := the_input s in
  let hdr := inHdr i in
  (hdr, splice 0 (take (Z.to_nat (pkt_length hdr)) (inbox i)) data,
   set_input (set_inHdr (mkPacketHeader (pkt_to hdr) (pkt_from hdr) 0) i) s).

Definition new_NetworkOutput (reliability : Q) s : res (NetworkOutput * state) :=
  let chance := if negb (Qle_bool 0 reliability) then 0%Q
                else if negb (Qle_bool reliability 1) then 1%Q else reliability in
  '(sock, s) ← OpenSocket s;
  Ok (mkNetworkOutput sock chance false, s).

Definition delete_NetworkOutput s : state := on_host (Unix.CloseSocket (out_sock (the_output s))) s.

Definition PostOut_CallBack s : res state := V_in_handler (messageSent (postOfficeOut (the_sys s))) s.

Definition NetworkOutput_CallBack s : res state :=
  let o := the_output s in
  let s := set_output (mkNetworkOutput (out_sock o) (chanceToWork o) false) s in
  PostOut_CallBack (with_stats s (packet_sent (stats s))).

(** [junk] is the uninitialised rest of the buffer.  [sendBusy] is tested, but
    never set. *)
Definition NetworkOutput_Send (junk : nat -> Z) (hdr : PacketHeader) (data : Datatypes.list Z) s : res state :=
  let o := the_output s in
  ASSERT (negb (sendBusy o) && (0 <? pkt_length hdr) && (pkt_length hdr <=? MaxPacketSize) &&
          (pkt_from hdr =? hostName (the_sys s))) ;;
  s ← Schedule NetworkOut NetworkTime NetworkSendInt s;
  let '(r, n) := RandomNumber (StubFS.net (the_fs s)) in
  let s := put_net n s in
  if Qle_bool (chanceToWork o * inject_Z 100) (inject_Z (u32 r mod 100)) then Ok s
  else
    let payload := take (Z.to_nat (pkt_length hdr)) data in
    let buffer := splice 0 (packet_bytes hdr ++ payload) (map junk (seq 0 (Z.to_nat MaxWireSize))) in
    SendToSocket (out_sock o) buffer (socket_name (pkt_to hdr)) s.

(** *** Mail *)

Definition new_Mail (pktH : PacketHeader) (mailH : MailHeader) (msgData : Datatypes.list Z) s : res (loc * state) :=
  ASSERT (mail_length mailH <=? MaxMailSize) ;;
  let p := StubFS.brk (the_fs s) in
  Ok (p, on_sys (fun y =>
        set_mails (<[p := mkMail pktH mailH (take (Z.to_nat (mail_length mailH)) msgData)]> (mails y))
          (set_fs (StubFS.set_brk (fileSystem y) (Pos.succ p)) y)) s).

(** [box] is the mailbox's list. *)
Definition MailBox_Put (box : ptr) (pktH : PacketHeader) (mailH : MailHeader) (data : Datatypes.list Z) s
    : res (frames * state) :=
  '(p, s) ← new_Mail pktH mailH data s; Ok ([ListAppend box (Zpos p)], s).

(** The caller's variables receive the message, which is deleted. *)
Definition MailBox_got s : res (Mail * state) :=
  r ← returned s;
  match r with
  | Zpos p =>
      x ← StubFS.live (mails (the_sys s)) p;
      Ok (x, on_sys (fun y => set_mails (delete p (mails y)) (set_letters (<[cur s := x]> (letters y)) y)) s)
  | _ => Fault NullPointer
  end.

(** *** The post office *)

(** The boxes, one after another. *)
Definition new_boxes (n : nat) s : Datatypes.list ptr * state :=
  Nat.iter n (fun '(bs, s) => let '(b, s) := new_SynchList s in (bs ++ [b], s)) ([], s).

(** [Fork] with interrupts off: the level it puts back is the level it finds. *)
Definition postal_worker : Unix.path := [112; 111; 115; 116; 97; 108; 32; 119; 111; 114; 107; 101; 114].
Definition fork_now (nm : Unix.path) (u : code) s : res state :=
  let '(t, s) := new_Thread nm 0 s in
  '(_, s) ← Fork t u s; Ok s.

Definition new_PostOfficeInput (hdr : PacketHeader) (box buffer : Datatypes.list Z) (nBoxes : Z) s : res state :=
  let '(sem, s) := new_Semaphore 0 s in
  let '(bs, s) := new_boxes (Z.to_nat nBoxes) s in
  '(i, s) ← new_NetworkInput hdr box s;
  let s := on_sys (set_postIn (mkPostIn i bs sem)) s in
  fork_now postal_worker (PostalDelivery buffer) s.

Definition delete_PostOfficeInput s : res state :=
  let bs := boxes (postOfficeIn (the_sys s)) in
  for_range (length bs) 0 (fun i s => b ← arr_get bs (zlen bs - 1 - i); delete_SynchList b s)
    (delete_NetworkInput s).

Definition PostalDelivery_ (buffer : Datatypes.list Z) s : res (frames * state) :=
  Ok ([P (messageAvailable (postOfficeIn (the_sys s))); User (PostalDelivery_got buffer)], s).
Definition PostalDelivery_got_ (buffer : Datatypes.list Z) s : res (frames * state) :=
  let '(pktHdr, buffer, s) := NetworkInput_Receive buffer s in
  let mailHdr := mail_of buffer in
  let bs := boxes (postOfficeIn (the_sys s)) in
  ASSERT ((0 <=? mail_to mailHdr) && (mail_to mailHdr <? zlen bs)) ;;
  ASSERT (mail_length mailHdr <=? MaxMailSize) ;;
  box ← arr_get bs (mail_to mailHdr);
  '(calls, s) ← MailBox_Put box pktHdr mailHdr (drop 12 buffer) s;
  Ok (calls ++ [User (PostalDelivery buffer)], s).

Definition PostReceive_ (box : Z) s : res (frames * state) :=
  let bs := boxes (postOfficeIn (the_sys s)) in
  ASSERT ((0 <=? box) && (box <? zlen bs)) ;;
  b ← arr_get bs box;
  Ok ([ListRemoveFront b; User PostReceive_got], s).
Definition PostReceive_got_ s : res (frames * state) :=
  '(x, s) ← MailBox_got s;
  ASSERT (mail_length (mailHdr x) <=? MaxMailSize) ;; Ok ([], s).

Definition new_PostOfficeOutput (reliability : Q) s : res state :=
  let '(sem, s) := new_Semaphore 0 s in
  let '(l, s) := new_Lock s in
  '(o, s) ← new_NetworkOutput reliability s;
  Ok (on_sys (set_postOut (mkPostOut o sem l)) s).

Definition delete_PostOfficeOutput s : res state :=
  let p := postOfficeOut (the_sys s) in
  s ← delete_Semaphore (messageSent p) (delete_NetworkOutput s);
  delete_Lock (sendLock p) s.

Definition PostSend_ (pkt : PacketHeader) (mail : MailHeader) (data : Datatypes.list Z) s : res (frames * state) :=
  ASSERT (mail_length mail <=? MaxMailSize) ;;
  ASSERT (0 <=? mail_to mail) ;;
  let pkt := mkPacketHeader (pkt_to pkt) (hostName (the_sys s)) (mail_length mail + 12) in
  let buffer := mail_bytes mail ++ take (Z.to_nat (mail_length mail)) data in
  Ok ([Acquire (sendLock (postOfficeOut (the_sys s))); User (PostSend_locked pkt buffer)], s).
Definition PostSend_locked_ (junk : nat -> Z) (pkt : PacketHeader) (buffer : Datatypes.list Z) s
    : res (frames * state) :=
  s ← NetworkOutput_Send junk pkt buffer s;
  let p := postOfficeOut (the_sys s) in
  Ok ([P (messageSent p); Release (sendLock p)], s).

(** *** [Kernel::NetworkTest]: a message to the other machine, and back *)

Definition hello : Datatypes.list Z := [72; 101; 108; 108; 111; 32; 116; 104; 101; 114; 101; 33; 0].
Definition got_it : Datatypes.list Z := [71; 111; 116; 32; 105; 116; 33; 0].

Definition NetworkTest_ s : res (frames * state) :=
  let host := hostName (the_sys s) in
  if (host =? 0) || (host =? 1) then
    let farHost := if host =? 0 then 1 else 0 in
    Ok ([User (PostSend (mkPacketHeader farHost 0 0) (mkMailHeader 0 1 (zlen hello)) hello);
         User (PostReceive 0); User NetworkTest_got], s)
  else Ok ([], s).
Definition NetworkTest_got_ s : res (frames * state) :=
  match letters (the_sys s) !! cur s with
  | Some x =>
      Ok ([User (PostSend (mkPacketHeader (pkt_from (pktHdr x)) 0 0)
                   (mkMailHeader (mail_from (mailHdr x)) 1 (zlen got_it)) got_it);
           User (PostReceive 1); User NetworkTest_acked], s)
  | None => Fault Uninitialised
  end.
Definition NetworkTest_acked_ s : res (frames * state) := Ok ([], s).

(** *** The synchronous disk *)

(** The disk with what its file holds, and back into the file. *)
Definition the_disk s : res Disk.Disk :=
  let y := synchDisk (the_sys s) in
  match Unix.file_at (StubFS.host (the_fs s)) (disk_fd y) with
  | Some (_, bs, off) =>
      Ok (Disk.mkDisk (UnixFile.mkUFile bs off) (Disk.active (disk y)) (Disk.lastSector (disk y)) (Disk.bufferInit (disk y)))
  | None => Fault AssertFailed
  end.
Definition put_file (fd : Z) (f : UnixFile.UFile) (h : Unix.Host) : Unix.Host :=
  match Unix.file_at h fd with
  | Some (i, _, _) =>
      Unix.set_fds (Unix.set_inode h i (UnixFile.content f)) (<[fd := Unix.File i (UnixFile.offset f)]> (Unix.fds h))
  | None => h
  end.
Definition put_disk (d : Disk.Disk) s : state :=
  let y := synchDisk (the_sys s) in
  on_sys (set_synchDisk (mkSynchDisk d (disk_fd y) (disk_sem y) (disk_lock y)))
    (on_host (put_file (disk_fd y) (Disk.fileno d)) s).

(** The file of the disk, made if it is not there. *)
Definition new_SynchDisk s : res state :=
  let '(sem, s) := new_Semaphore 0 s in
  let '(l, s) := new_Lock s in
  let name := disk_name (hostName (the_sys s)) in
  '(fd, h) ← Unix.OpenForReadWrite name false (StubFS.host (the_fs s));
  '(fd, h, file) ← (if 0 <=? fd then
                      Ok (fd, h, match Unix.file_at h fd with Some (_, bs, _) => Some bs | None => None end)
                    else '(fd, h) ← Unix.OpenForWrite name h; Ok (fd, h, None));
  d ← Disk.new_Disk file;
  let s := put_fs (StubFS.set_host (the_fs s) h) s in
  Ok (put_disk d (on_sys (set_synchDisk (mkSynchDisk d fd sem l)) s)).

Definition delete_SynchDisk s : res state :=
  let y := synchDisk (the_sys s) in
  h ← Unix.Close (disk_fd y) (StubFS.host (the_fs s));
  s ← delete_Lock (disk_lock y) (put_fs (StubFS.set_host (the_fs s) h) s);
  delete_Semaphore (disk_sem y) s.

Definition ReadSector_ (n : Z) s : res (frames * state) :=
  Ok ([Acquire (disk_lock (synchDisk (the_sys s))); User (ReadSector_locked n)], s).
Definition ReadSector_locked_ (n : Z) s : res (frames * state) :=
  d ← the_disk s;
  '(data, d, s) ← Disk.ReadRequest DiskDrive n d s;
  let s := on_sys (fun y => set_sectors (<[cur s := data]> (sectors y)) y) (put_disk d s) in
  let y := synchDisk (the_sys s) in
  Ok ([P (disk_sem y); Release (disk_lock y)], s).

Definition WriteSector_ (n : Z) (data : Datatypes.list Z) s : res (frames * state) :=
  Ok ([Acquire (disk_lock (synchDisk (the_sys s))); User (WriteSector_locked n data)], s).
Definition WriteSector_locked_ (n : Z) (data : Datatypes.list Z) s : res (frames * state) :=
  d ← the_disk s;
  '(d, s) ← Disk.WriteRequest DiskDrive n data d s;
  let s := put_disk d s in
  let y := synchDisk (the_sys s) in
  Ok ([P (disk_sem y); Release (disk_lock y)], s).

Definition SynchDisk_CallBack s : res state := V_in_handler (disk_sem (synchDisk (the_sys s))) s.
Definition Disk_CallBack s : res state :=
  let y := synchDisk (the_sys s) in
  '(d, s) ← Disk.CallBack SynchDisk_CallBack (disk y) s;
  Ok (on_sys (set_synchDisk (mkSynchDisk d (disk_fd y) (disk_sem y) (disk_lock y))) s).

(** *** [Kernel::~Kernel] of [threads/kernel.cc] *)

(** The devices and the file system are deleted one after the other, and then the
    process exits, unless one of the destructors uses what is already deleted.
    Those of the statistics, the interrupts, the scheduler, the alarm and the
    machine, which come first, only free memory. *)
Definition delete_Kernel s : fault :=
  match
    (s ← delete_SynchConsoleInput s;
     s ← delete_SynchConsoleOutput s;
     s ← delete_SynchDisk s;
     f ← StubFS.delete_FileSystem (the_fs s);
     s ← delete_PostOfficeInput (put_fs f s);
     delete_PostOfficeOutput s)
  with
  | Ok _ => Halted
  | Fault f => f
  end.
End code.
(** ** What is sent arrives *)

Section mail.
Context {N : Type} `{Outside N}.
Abbreviation state := (Sim device (World code (Sys N))).
Implicit Types (s : state).

Lemma word_range (v : Z) : le_combine (le_split 4 v) = u32 v.
Proof. by rewrite le_combine_split. Qed.

(** A header is read back from the twelve bytes it was written to. *)
Lemma words_read a b c bs :
  word_at 0 (words a b c ++ bs) = u32 a /\ word_at 4 (words a b c ++ bs) = u32 b /\
  word_at 8 (words a b c ++ bs) = u32 c.
Proof. unfold word_at, slice, words. cbn. split_and!; by rewrite <- word_range. Qed.
Lemma length_words a b c : length (words a b c) = 12%nat.
Proof. done. Qed.

Lemma packet_of_bytes h bs : is_s32 (pkt_to h) -> is_s32 (pkt_from h) -> 0 <= pkt_length h < 2 ^ 32 ->
  packet_of (packet_bytes h ++ bs) = h.
Proof.
  intros Ht Hf Hl. unfold packet_of, packet_bytes. destruct (words_read (pkt_to h) (pkt_from h) (pkt_length h) bs) as (-> & -> & ->).
  rewrite !s32_u32, (s32_id (pkt_to h)), (s32_id (pkt_from h)), u32_id by done. by destruct h.
Qed.
Lemma mail_of_bytes h bs : is_s32 (mail_to h) -> is_s32 (mail_from h) -> 0 <= mail_length h < 2 ^ 32 ->
  mail_of (mail_bytes h ++ bs) = h.
Proof.
  intros Ht Hf Hl. unfold mail_of, mail_bytes. destruct (words_read (mail_to h) (mail_from h) (mail_length h) bs) as (-> & -> & ->).
  rewrite !s32_u32, (s32_id (mail_to h)), (s32_id (mail_from h)), u32_id by done. by destruct h.
Qed.

Lemma take_splice0 (a l : Datatypes.list Z) n : n = length a -> take n (splice 0 a l) = a.
Proof. intros ->. change (splice 0 a l) with (a ++ drop (length a) l). apply take_app_length. Qed.

Lemma PollFile_same fd s : post (PollFile fd s) (fun '(_, s') => the_input s' = the_input s /\
  hostName (the_sys s') = hostName (the_sys s)).
Proof. unfold PollFile. destruct (_ !! fd) as [[]|]; try done. by destruct (poll _ _). Qed.

(** The packet on the wire, and the sender's part. *)
Definition wire_packet (junk : nat -> Z) (hdr : PacketHeader) (buffer : Datatypes.list Z) : Datatypes.list Z :=
  splice 0 (packet_bytes hdr ++ buffer) (map junk (seq 0 (Z.to_nat MaxWireSize))).
Lemma wire_packet_size junk hdr buffer : zlen buffer <= MaxPacketSize -> zlen (wire_packet junk hdr buffer) = MaxWireSize.
Proof.
  intros Hb. unfold zlen, wire_packet in *. rewrite length_splice; rewrite length_map, length_seq; [done|].
  rewrite length_app. change (length (packet_bytes hdr)) with 12%nat. unfold MaxPacketSize, MaxWireSize in *. lia.
Qed.

Lemma PostSend_locked_puts junk hdr buffer s s1 n :
  hostName (the_sys s) = pkt_from hdr -> sendBusy (the_output s) = false -> (chanceToWork (the_output s) == 1)%Q ->
  pkt_length hdr = zlen buffer -> 0 < zlen buffer <= MaxPacketSize ->
  Schedule NetworkOut NetworkTime NetworkSendInt s = Ok s1 ->
  sendto (out_sock (the_output s)) (wire_packet junk hdr buffer) (socket_name (pkt_to hdr))
    (RandomNumber (StubFS.net (the_fs s))).2 = (MaxWireSize, n) ->
  PostSend_locked_ junk hdr buffer s =
    Ok ([P (messageSent (postOfficeOut (the_sys s))); Release (sendLock (postOfficeOut (the_sys s)))], put_net n s1).
Proof.
  intros Hh Hb Hc Hl Hz ES Hsend. destruct (Schedule_frame _ _ _ _ _ ES) as (R & _).
  unfold PostSend_locked_, NetworkOutput_Send. rewrite Hb, Hh, Hl, Z.eqb_refl.
  rewrite (proj2 (Z.ltb_lt 0 (zlen buffer))), (proj2 (Z.leb_le (zlen buffer) MaxPacketSize)) by lia. cbn [negb andb ASSERT].
  rewrite ES. cbn [rbind]. replace (the_fs s1) with (the_fs s) by (unfold the_fs, the_sys; by rewrite R).
  destruct (RandomNumber _) as [r n0]. cbn [snd] in Hsend. destruct (Qle_bool _ _) eqn:EQ.
  { exfalso. apply Qle_bool_iff in EQ. rewrite Hc in EQ. rewrite Qmult_1_l in EQ. rewrite <- Zle_Qle in EQ.
    pose proof (Z.mod_pos_bound (u32 r) 100). lia. }
  fold (wire_packet junk hdr (take (Z.to_nat (zlen buffer)) buffer)).
  replace (take (Z.to_nat (zlen buffer)) buffer) with buffer by (unfold zlen; by rewrite Nat2Z.id, firstn_all).
  unfold SendToSocket. cbn [for_return]. change (StubFS.net (the_fs (put_net n0 s1))) with n0. rewrite Hsend.
  rewrite wire_packet_size by lia. cbn. unfold put_net, the_fs, the_sys. cbn. by rewrite R.
Qed.

(** The receiver's device takes the packet in. *)
Lemma NetworkInput_takes junk hdr buffer s s1 s2 n :
  is_s32 (pkt_to hdr) -> is_s32 (pkt_from hdr) -> pkt_length hdr = zlen buffer -> zlen buffer <= MaxPacketSize ->
  hostName (the_sys s) = pkt_to hdr -> pkt_length (inHdr (the_input s)) = 0 ->
  Schedule NetworkIn NetworkTime NetworkRecvInt s = Ok s1 ->
  PollSocket (in_sock (the_input s)) s1 = Ok (true, s2) ->
  recvfrom (in_sock (the_input s)) MaxWireSize (StubFS.net (the_fs s2)) = (wire_packet junk hdr buffer, n) ->
  exists s3, NetworkInput_CallBack s = PostIn_CallBack s3 /\ inHdr (the_input s3) = hdr /\
    take (length buffer) (inbox (the_input s3)) = buffer.
Proof.
  intros Ht Hf Hl Hz Hh He ES EP ER. destruct (Schedule_frame _ _ _ _ _ ES) as (R & _).
  assert (Ei : the_input s1 = the_input s) by (unfold the_input, the_sys; by rewrite R).
  assert (Eh : hostName (the_sys s1) = hostName (the_sys s)) by (unfold the_sys; by rewrite R).
  destruct (post_elim _ _ _ (PollFile_same _ s1) EP) as [Ei2 Eh2].
  unfold NetworkInput_CallBack. rewrite ES. cbn [rbind]. rewrite Ei, He. cbn [negb Z.eqb]. rewrite EP. cbn [rbind].
  unfold ReadFromSocket. rewrite Ei2, Ei, ER, wire_packet_size, Z.eqb_refl by done. cbn [ASSERT rbind].
  assert (Ew : wire_packet junk hdr buffer = packet_bytes hdr ++ buffer ++ drop (length (packet_bytes hdr ++ buffer)) (map junk (seq 0 (Z.to_nat MaxWireSize))))
    by (unfold wire_packet, splice; cbn [take app Nat.add]; by rewrite <- app_assoc).
  assert (Ep : packet_of (wire_packet junk hdr buffer) = hdr).
  { rewrite Ew. apply packet_of_bytes; [done..|]. rewrite Hl. unfold MaxPacketSize, MaxWireSize, zlen in *. lia. }
  rewrite Ep. change (hostName (the_sys (put_net n s2))) with (hostName (the_sys s2)).
  rewrite Eh2, Eh, Hh, Z.eqb_refl, Hl, (proj2 (Z.leb_le _ _) Hz). cbn [andb ASSERT rbind].
  change (the_input (put_net n s2)) with (the_input s2). eexists. split; [reflexivity|]. split; [done|].
  cbn [the_input set_input on_sys the_sys rest dev set_postIn postOfficeIn in_network inbox with_stats].
  rewrite Ew. unfold slice. rewrite drop_app_length' by done.
  unfold zlen. rewrite Nat2Z.id, take_app_length. by apply take_splice0.
Qed.

(** The postal worker puts it into the mailbox. *)
Lemma PostalDelivery_delivers hdr mail text old s box :
  is_s32 (mail_to mail) -> is_s32 (mail_from mail) -> mail_length mail = zlen text -> zlen text <= MaxMailSize ->
  0 <= mail_to mail -> boxes (postOfficeIn (the_sys s)) !! Z.to_nat (mail_to mail) = Some box ->
  inHdr (the_input s) = hdr -> pkt_length hdr = 12 + zlen text ->
  take (length (mail_bytes mail ++ text)) (inbox (the_input s)) = mail_bytes mail ++ text ->
  exists (p : loc) old' s', PostalDelivery_got_ old s = Ok ([ListAppend box (Zpos p); User (PostalDelivery old')], s') /\
    mails (the_sys s') !! p = Some (mkMail hdr mail text) /\ pkt_length (inHdr (the_input s')) = 0.
Proof.
  intros Ht Hf Hl Hz H0 Hbox Hh Hp Hin. apply lookup_lt_Some in Hbox as Hlt.
  unfold PostalDelivery_got_, NetworkInput_Receive. cbn zeta. rewrite Hh, Hp.
  assert (Hn : Z.to_nat (12 + zlen text) = length (mail_bytes mail ++ text)).
  { rewrite length_app. change (length (mail_bytes mail)) with 12%nat. unfold zlen. lia. }
  rewrite Hn, Hin. change (splice 0 (mail_bytes mail ++ text) old) with ((mail_bytes mail ++ text) ++ drop (length (mail_bytes mail ++ text)) old).
  set (rest_ := drop _ old). rewrite <- app_assoc, mail_of_bytes; [|done..|unfold MaxMailSize, MaxPacketSize, MaxWireSize, zlen in *; lia].
  change (postOfficeIn (the_sys (set_input _ s))) with (mkPostIn (set_inHdr (mkPacketHeader (pkt_to hdr) (pkt_from hdr) 0) (the_input s)) (boxes (postOfficeIn (the_sys s))) (messageAvailable (postOfficeIn (the_sys s)))).
  cbn [boxes].
  rewrite (proj2 (Z.leb_le _ _) H0), (proj2 (Z.ltb_lt (mail_to mail) _)) by (unfold zlen; lia).
  rewrite (proj2 (Z.leb_le (mail_length mail) _)) by lia. cbn [andb ASSERT rbind].
  unfold arr_get. rewrite (proj2 (Z.leb_le _ _) H0), Hbox. cbn [rbind].
  unfold MailBox_Put, new_Mail. rewrite (proj2 (Z.leb_le (mail_length mail) _)) by lia. cbn [ASSERT rbind].
  replace (take (Z.to_nat (mail_length mail)) (drop 12 (mail_bytes mail ++ text ++ rest_))) with text.
  2: { change (drop 12 (mail_bytes mail ++ text ++ rest_)) with (text ++ rest_). rewrite Hl. unfold zlen. by rewrite Nat2Z.id, take_app_length. }
  eexists _, _, _. split; [reflexivity|]. split; [|done].
  cbn. apply lookup_insert_eq.
Qed.

End mail.
End Network.
