(* ===== verification/Process.v ===== *)
(** Processes ([threads/pcb.cc], [threads/ptable.cc]) and named semaphores
    ([threads/sem.cc], [threads/stable.cc]): control blocks with their three
    semaphores, the table that hands out process numbers, [Exec], [Join] and
    [Exit], and the table of semaphores user programs name. *)

From S2P Require Import Prelude Bitmap Lists Machine Interrupt HostFS AddrSpace Threads System.
Import Stats Interrupt Threads System.

Module Process.

Section code.
Context {N : Type}.
Abbreviation state := (Sim device (World code (Sys N))).
Abbreviation frames := (Datatypes.list (instr code)).
Implicit Types (s : state).

(** *** [PCB] *)

(** [new PCB(parentID, pid)], with its semaphores. *)
Definition new_PCB (parentID pid : Z) s : loc * state :=
  let '(joinsem, s) := new_Semaphore 0 s in
  let '(exitsem, s) := new_Semaphore 0 s in
  let '(multex, s) := new_Semaphore 1 s in
  let p := StubFS.brk (the_fs s) in
  (p, on_sys (fun y => set_pcbs (<[p := mkPCB joinsem exitsem multex 0 0 None false parentID pid]> (pcbs y))
        (set_fs (StubFS.set_brk (fileSystem y) (Pos.succ p)) y)) s).

Definition the_pcb (p : loc) s : res PCB := StubFS.live (pcbs (the_sys s)) p.
Definition put_pcb (p : loc) (x : PCB) s : state := on_sys (fun y => set_pcbs (<[p := x]> (pcbs y)) y) s.

Definition with_numwait (x : PCB) (n : Z) : PCB :=
  mkPCB (joinsem x) (exitsem x) (multex x) (exitcode x) n (filename x) (isJoined x) (parentID x) (pid x).
Definition with_exitcode (x : PCB) (ec : Z) : PCB :=
  mkPCB (joinsem x) (exitsem x) (multex x) ec (numwait x) (filename x) (isJoined x) (parentID x) (pid x).
Definition with_filename (x : PCB) (fn : option loc) : PCB :=
  mkPCB (joinsem x) (exitsem x) (multex x) (exitcode x) (numwait x) fn (isJoined x) (parentID x) (pid x).

Definition delete_PCB (p : loc) s : res state :=
  x ← the_pcb p s;
  s ← delete_Semaphore (joinsem x) s;
  s ← delete_Semaphore (exitsem x) s;
  s ← delete_Semaphore (multex x) s;
  s ← match filename x with
      | Some fn => f ← StubFS.delete_chars fn (the_fs s); Ok (put_fs f s)
      | None => Ok s
      end;
  Ok (on_sys (fun y => set_pcbs (delete p (pcbs y)) y) s).

(** The string a command is called by, and the arguments it is run with:
    [Exec] with a name alone passes none. *)
Definition command_name (c : command) : res loc :=
  match c with Program name => Ok name | Command argv => arr_get argv 0 end.
Definition command_args (c : command) : Datatypes.list loc :=
  match c with Program _ => [] | Command argv => argv end.

(** [new char[strlen(fn) + 1]] with [strcpy]. *)
Definition copy_string (fn : loc) s : res (loc * state) :=
  str ← StubFS.string_at fn (the_fs s);
  let '(p, f) := StubFS.new_chars (str ++ [0]) (the_fs s) in
  Ok (p, put_fs f s).

(** Both versions of [Exec]: up to [multex->P()], and after it. *)
Definition PCB_Exec_ (p : loc) (c : command) s : res (frames * state) :=
  x ← the_pcb p s; Ok ([P (multex x); User (PCB_Exec_in p c)], s).
Definition PCB_Exec_in_ (p : loc) (c : command) s : res (frames * state) :=
  x ← the_pcb p s;
  if bool_decide (filename x <> None) then Ok ([V (multex x); User (Return (-1))], s)
  else
    name ← command_name c;
    '(fn, s) ← copy_string name s;
    let s := put_pcb p (with_filename x (Some fn)) s in
    str ← StubFS.string_at fn (the_fs s);
    let arg := mkProcessArg (pid x) (command_args c) in
    Ok ([NewFork str (pid x) (RunProcess arg); V (multex x); User (Return 0)], s).

Definition GetNumWait (p : loc) s : res Z := x ← the_pcb p s; Ok (numwait x).
Definition JoinWait (p : loc) s : res frames := x ← the_pcb p s; Ok [P (joinsem x)].
Definition ExitWait (p : loc) s : res frames := x ← the_pcb p s; Ok [P (exitsem x)].
Definition JoinRelease (p : loc) s : res frames := x ← the_pcb p s; Ok [V (joinsem x)].
Definition ExitRelease (p : loc) s : res frames := x ← the_pcb p s; Ok [V (exitsem x)].

Definition IncNumWait_ (p : loc) s : res (frames * state) :=
  x ← the_pcb p s; Ok ([P (multex x); User (IncNumWait_in p)], s).
Definition IncNumWait_in_ (p : loc) s : res (frames * state) :=
  x ← the_pcb p s; Ok ([V (multex x)], put_pcb p (with_numwait x (s32 (numwait x + 1))) s).
Definition DecNumWait_ (p : loc) s : res (frames * state) :=
  x ← the_pcb p s; Ok ([P (multex x); User (DecNumWait_in p)], s).
Definition DecNumWait_in_ (p : loc) s : res (frames * state) :=
  x ← the_pcb p s; Ok ([V (multex x)], put_pcb p (with_numwait x (s32 (numwait x - 1))) s).

Definition SetExitCode (p : loc) (ec : Z) s : res state :=
  x ← the_pcb p s; Ok (put_pcb p (with_exitcode x ec) s).
Definition GetExitCode (p : loc) s : res Z := x ← the_pcb p s; Ok (exitcode x).

Definition SetFileName (p : loc) (fn : loc) s : res state :=
  x ← the_pcb p s;
  s ← match filename x with
      | Some old => f ← StubFS.delete_chars old (the_fs s); Ok (put_fs f s)
      | None => Ok s
      end;
  '(new, s) ← copy_string fn s;
  Ok (put_pcb p (with_filename x (Some new)) s).
Definition PCB_GetFileName (p : loc) s : res (option loc) := x ← the_pcb p s; Ok (filename x).

(** *** [PTable] *)

Definition set_pcb (i : Z) (p : option loc) s : res state :=
  let t := pTable (the_sys s) in
  tab ← arr_set (pcb t) i p;
  Ok (on_sys (set_ptable (mkPTable (psize t) (bm t) tab (bmsem t))) s).
Definition set_bm (b : Bitmap.Bitmap) s : state :=
  let t := pTable (the_sys s) in on_sys (set_ptable (mkPTable (psize t) b (pcb t) (bmsem t))) s.

(** [junkb] and [junkp] are what [new] finds in the bitmap's words and in the
    table before the constructors fill them. *)
Definition new_PTable (junkb : nat -> Z) (junkp : nat -> option loc) (size : Z) s : res state :=
  b ← Bitmap.new_Bitmap junkb size;
  let '(sem, s) := new_Semaphore 1 s in
  tab ← for_range (Z.to_nat size) 0 (fun i tab => arr_set tab i None)
          (map junkp (seq 0 (Z.to_nat MAX_PROCESS)));
  let s := on_sys (set_ptable (mkPTable size b tab sem)) s in
  let '(p, s) := new_PCB 0 0 s in
  s ← set_pcb 0 (Some p) s;
  b ← Bitmap.Mark (bm (pTable (the_sys s))) 0;
  Ok (set_bm b s).

Definition delete_PTable s : res state :=
  let t := pTable (the_sys s) in
  s ← delete_Semaphore (bmsem t) s;
  for_range (Z.to_nat (psize t)) 0 (fun i s =>
    p ← arr_get (pcb t) i;
    match p with Some p => delete_PCB p s | None => Ok s end) s.

(** Both versions of [ExecUpdate]: up to [bmsem->P()], the new control block,
    and the call of [Exec] on it. *)
Definition ExecUpdate_ (c : command) s : res (frames * state) :=
  Ok ([P (bmsem (pTable (the_sys s))); User (ExecUpdate_in c)], s).
Definition ExecUpdate_in_ (c : command) s : res (frames * state) :=
  let t := pTable (the_sys s) in
  '(pid, b) ← Bitmap.FindAndSet (bm t);
  let s := set_bm b s in
  if pid =? -1 then Ok ([V (bmsem t); User (Return (-1))], s)
  else
    parent ← current_pid s;
    let '(p, s) := new_PCB parent pid s in
    s ← set_pcb pid (Some p) s;
    Ok ([V (bmsem t); User (ExecUpdate_exec pid c)], s).
Definition ExecUpdate_exec_ (pid : Z) (c : command) s : res (frames * state) :=
  p ← arr_get (pcb (pTable (the_sys s))) pid;
  match p with
  | Some p => Ok ([User (PCB_Exec p c); User (Return pid)], s)
  | None => Fault NullPointer
  end.

(** [pcb[i]], not checked against [NULL]; the index is not checked either. *)
Definition pcb_at (i : Z) s : res loc :=
  p ← arr_get (pcb (pTable (the_sys s))) i;
  match p with Some p => Ok p | None => Fault NullPointer end.

(** [JoinUpdate] up to [JoinWait], then [IncNumWait], then [ExitRelease]. *)
Definition JoinUpdate_ (pid : Z) s : res (frames * state) :=
  parent ← current_pid s;
  p ← arr_get (pcb (pTable (the_sys s))) pid;
  match p with
  | None => Ok ([User (Return (-1))], s)
  | Some p =>
      x ← the_pcb p s;
      if negb (parentID x =? parent) then Ok ([User (Return (-1))], s)
      else
        wait ← JoinWait p s;
        Ok (wait ++ [User (JoinUpdate_joined parent)], s)
  end.
Definition JoinUpdate_joined_ (parent : Z) s : res (frames * state) :=
  p ← pcb_at parent s; Ok ([User (IncNumWait p); User (JoinUpdate_counted parent)], s).
Definition JoinUpdate_counted_ (parent : Z) s : res (frames * state) :=
  p ← pcb_at parent s; release ← ExitRelease p s; Ok (release ++ [User (Return 0)], s).

(** [ExitUpdate] up to [JoinRelease], then [DecNumWait], then [ExitWait]. *)
Definition ExitUpdate_ (ec : Z) s : res (frames * state) :=
  pid ← current_pid s;
  if pid =? 0 then Ok ([User (Return (-1))], s)
  else
    p ← pcb_at pid s;
    s ← SetExitCode p ec s;
    x ← the_pcb p s;
    release ← JoinRelease p s;
    Ok (release ++ [User (ExitUpdate_released (parentID x))], s).
Definition ExitUpdate_released_ (parent : Z) s : res (frames * state) :=
  p ← pcb_at parent s; Ok ([User (DecNumWait p); User (ExitUpdate_counted parent)], s).
Definition ExitUpdate_counted_ (parent : Z) s : res (frames * state) :=
  p ← pcb_at parent s; wait ← ExitWait p s; Ok (wait ++ [User (Return 0)], s).

Definition GetFileName (id : Z) s : res (option loc) :=
  p ← arr_get (pcb (pTable (the_sys s))) id;
  match p with None => Ok None | Some p => PCB_GetFileName p s end.

(** *** [Sem] and [STable] *)

(** [strcpy] into the fifty characters of [name]. *)
Definition new_Sem (na : Unix.path) (i : Z) s : res (Sem * state) :=
  if zlen na <? 50 then let '(p, s) := new_Semaphore i s in Ok (mkSem na p, s)
  else Fault OutOfBounds.

Definition delete_Sem (x : Sem) s : res state := delete_Semaphore (sem x) s.
Definition Sem_wait (x : Sem) : frames := [P (sem x)].
Definition Sem_signal (x : Sem) : frames := [V (sem x)].

Definition new_STable (junkb : nat -> Z) (junkt : nat -> option Sem) s : res state :=
  b ← Bitmap.new_Bitmap junkb MAX_SEMAPHORE;
  tab ← for_range (Z.to_nat MAX_SEMAPHORE) 0 (fun i tab => arr_set tab i None)
          (map junkt (seq 0 (Z.to_nat MAX_SEMAPHORE)));
  Ok (on_sys (set_stable (mkSTable b tab)) s).

Definition delete_STable s : res state :=
  let t := sTable (the_sys s) in
  for_range (Z.to_nat MAX_SEMAPHORE) 0 (fun i s =>
    x ← arr_get (semTab t) i;
    match x with Some x => delete_Sem x s | None => Ok s end) s.

Definition STable_FindFreeSlot s : res (Z * state) :=
  let t := sTable (the_sys s) in
  '(id, b) ← Bitmap.FindAndSet (st_bm t);
  Ok (id, on_sys (set_stable (mkSTable b (semTab t))) s).

Definition STable_Create (name : Unix.path) (init : Z) s : res (Z * state) :=
  '(id, s) ← STable_FindFreeSlot s;
  if id =? -1 then Ok (-1, s)
  else
    '(x, s) ← new_Sem name init s;
    let t := sTable (the_sys s) in
    tab ← arr_set (semTab t) id (Some x);
    Ok (id, on_sys (set_stable (mkSTable (st_bm t) tab)) s).

(** The first semaphore of that name. *)
Definition find_sem (name : Unix.path) s : res (option Sem) :=
  r ← for_return (Z.to_nat MAX_SEMAPHORE) 0 (fun i (_ : ()) =>
        x ← arr_get (semTab (sTable (the_sys s))) i;
        match x with
        | Some x => if bool_decide (sem_name x = name) then Ok (inr x) else Ok (inl ())
        | None => Ok (inl ())
        end) ();
  match r with inr x => Ok (Some x) | inl _ => Ok None end.

Definition STable_Wait_ (name : Unix.path) s : res (frames * state) :=
  x ← find_sem name s;
  match x with
  | Some x => Ok (Sem_wait x ++ [User (Return 0)], s)
  | None => Ok ([User (Return (-1))], s)
  end.
Definition STable_Signal_ (name : Unix.path) s : res (frames * state) :=
  x ← find_sem name s;
  match x with
  | Some x => Ok (Sem_signal x ++ [User (Return 0)], s)
  | None => Ok ([User (Return (-1))], s)
  end.
End code.
End Process.
