(* ===== verification/SysCall.v ===== *)
(** System calls ([userprog/exception.cc], [userprog/ksyscall.h],
    [userprog/syscall.h]): the trap handler with its twenty calls, on the
    registers and the memory of the machine, the file table, the process table
    and the console.  A call that may sleep is cut there. *)

From S2P Require Import Prelude Bitmap Lists Machine Interrupt HostFS AddrSpace Threads System Console Network Process.
Import Stats Interrupt Threads System Console Process.

Module SysCall.

Definition SC_Halt : Z := 0.
Definition SC_Exit : Z := 1.
Definition SC_Exec : Z := 2.
Definition SC_Join : Z := 3.
Definition SC_Create : Z := 4.
Definition SC_Remove : Z := 5.
Definition SC_Open : Z := 6.
Definition SC_Read : Z := 7.
Definition SC_Write : Z := 8.
Definition SC_Seek : Z := 9.
Definition SC_Close : Z := 10.
Definition SC_ExecV : Z := 13.
Definition SC_SocketTCP_Open : Z := 16.
Definition SC_SocketTCP_Connect : Z := 17.
Definition SC_SocketTCP_Send : Z := 18.
Definition SC_SocketTCP_Receive : Z := 19.
Definition SC_SocketTCP_Close : Z := 20.
Definition SC_Wait : Z := 21.
Definition SC_Signal : Z := 22.
Definition SC_CreateSemaphore : Z := 23.
Definition SC_Add : Z := 42.

Definition MaxFileLength : Z := 32.
Definition MAXIpAddressLength : Z := 15.
Definition ReadWrite_ : Z := 0.
Definition ReadOnly_ : Z := 1.
Definition WriteNEW_ : Z := 4.

(** The machine's calls back while the kernel runs: an address that does not
    translate raises an exception, which [ExceptionHandler] does not expect. *)
Definition in_kernel : Machine.Kernel () := {|
  Machine.setStatus _ k := k;
  Machine.ExceptionHandler _ _ _ := Fault AssertFailed;
  Machine.OneTick m k := Ok (m, k);
  Machine.totalTicks _ := 0;
|}.

Section code.
Context {N : Type} `{Outside N} `{TCP N}.
Abbreviation state := (Sim device (World code (Sys N))).
Abbreviation frames := (Datatypes.list (instr code)).
Implicit Types (s : state).

(** *** Registers and memory *)

Definition ReadRegister (r : Z) s : res Z := m ← the_machine s; Machine.ReadRegister m r.
(** The value is passed as an [int]. *)
Definition WriteRegister (r v : Z) s : res state :=
  m ← the_machine s; m ← Machine.WriteRegister m r (s32 v); Ok (set_machine m s).

Definition ReadMem (addr : Z) s : res (Z * state) :=
  m ← the_machine s;
  '(v, m, _) ← Machine.ReadMem (H := in_kernel) addr 1 m ();
  match v with
  | Some v => Ok (v, set_machine m s)
  | None => Fault Uninitialised
  end.
Definition WriteMem (addr value : Z) s : res state :=
  m ← the_machine s;
  '(_, m, _) ← Machine.WriteMem (H := in_kernel) addr 1 value m ();
  Ok (set_machine m s).

(** [new char[n]], which throws when [n] is negative. *)
Definition new_array (n : Z) (junk : Z) : res (Datatypes.list Z) :=
  ASSERT (0 <=? n) ;; Ok (replicate (Z.to_nat n) junk).

(** The bytes of [kernelBuf]. *)
Definition User2System (virtAddr limit : Z) s : res (Datatypes.list Z * state) :=
  kernelBuf ← new_array (s32 (limit + 1)) 0;
  r ← for_return (Z.to_nat limit) 0 (fun i '(kernelBuf, s) =>
        '(oneChar, s) ← ReadMem (s32 (virtAddr + i)) s;
        kernelBuf ← arr_set kernelBuf i (of_char oneChar);
        Ok (if oneChar =? 0 then inr (kernelBuf, s) else inl (kernelBuf, s))) (kernelBuf, s);
  match r with inl r => Ok r | inr r => Ok r end.

(** [buffer] holds bytes, which the loop reads as [char]s. *)
Definition System2User (virtAddr len : Z) (buffer : Datatypes.list Z) s : res (Z * state) :=
  if len <? 0 then Ok (-1, s)
  else if len =? 0 then Ok (len, s)
  else
    r ← for_return (Z.to_nat len) 0 (fun i s =>
          b ← arr_get buffer i;
          let oneChar := to_char b in
          s ← WriteMem (s32 (virtAddr + i)) oneChar s;
          Ok (if oneChar =? 0 then inr (i + 1, s) else inl s)) s;
    match r with inr (i, s) => Ok (i, s) | inl s => Ok (len, s) end.

Definition PCIncrease_ s : res (frames * state) :=
  pc ← ReadRegister Machine.PCReg s;
  s ← WriteRegister Machine.PrevPCReg pc s;
  pc ← ReadRegister Machine.PCReg s;
  s ← WriteRegister Machine.PCReg (s32 (pc + 4)) s;
  pc ← ReadRegister Machine.PCReg s;
  s ← WriteRegister Machine.NextPCReg (s32 (pc + 4)) s;
  Ok ([], s).

(** [WriteRegister(2, r)] and [return PCIncrease()]. *)
Definition return_to_user (r : Z) s : res (frames * state) :=
  s ← WriteRegister 2 r s; PCIncrease_ s.

Definition SysAdd (op1 op2 : Z) : Z := s32 (op1 + op2).

(** *** Files *)

Definition handle_SC_Add s : res (frames * state) :=
  op1 ← ReadRegister 4 s;
  op2 ← ReadRegister 5 s;
  return_to_user (SysAdd op1 op2) s.

Definition handle_SC_Create s : res (frames * state) :=
  virtAddr ← ReadRegister 4 s;
  '(filename, s) ← User2System virtAddr (MaxFileLength + 1) s;
  name ← StubFS.cstr filename;
  '(ok, f) ← StubFS.Create name (the_fs s);
  let s := put_fs f s in
  return_to_user (if (ok : bool) then 0 else -1) s.

(** The slot is made of whatever [Open] returns; the name it keeps a pointer to
    is deleted. *)
Definition handle_SC_Open s : res (frames * state) :=
  virAddr ← ReadRegister 4 s;
  type ← ReadRegister 5 s;
  '(buf, s) ← User2System virAddr MaxFileLength s;
  let '(filename, f) := StubFS.new_chars buf (the_fs s) in
  freeSlot ← StubFS.FindFreeSlot f;
  if negb (freeSlot =? -1) then
    '(r, f) ← (if (type =? ReadWrite_) || (type =? ReadOnly_) || (type =? WriteNEW_) then
                 '(o, f) ← StubFS.Open_type filename type freeSlot f;
                 let '(sl, f) := StubFS.new_Slot (StubFS.FileSlot_file o) f in
                 f ← StubFS.put_slot freeSlot (Some sl) f;
                 Ok (freeSlot, f)
               else if type =? 2 then Ok (0, f)
               else Ok (1, f));
    f ← StubFS.delete_chars filename f;
    return_to_user r (put_fs f s)
  else
    f ← StubFS.delete_chars filename f;
    return_to_user (-1) (put_fs f s).

(** [fileSlot[id]] *)
Definition slot (id : Z) s : res (option loc) := arr_get (StubFS.fileSlot (the_fs s)) id.
(** [fileSlot[id]->type] and [fileSlot[id]->fileOpen], through the pointer. *)
Definition slot_type (id : Z) s : res Z :=
  '(_, sl) ← StubFS.slot_at id (the_fs s); Ok (StubFS.slot_type sl).
Definition fileOpen (id : Z) s : res loc :=
  '(_, sl) ← StubFS.slot_at id (the_fs s);
  '(f, _) ← StubFS.deref (StubFS.files (the_fs s)) (StubFS.fileOpen sl);
  Ok f.
Definition open_type (id : Z) s : res Z :=
  f ← fileOpen id s;
  o ← StubFS.live (StubFS.files (the_fs s)) f;
  StubFS.init (StubFS.type o).

(** An operation of the file system, on the state. *)
Definition on_fs {A} (op : StubFS.FS N -> res (A * StubFS.FS N)) s : res (A * state) :=
  '(r, f) ← op (the_fs s); Ok (r, put_fs f s).

Definition handle_SC_Close s : res (frames * state) :=
  fileID ← ReadRegister 4 s;
  if (2 <=? fileID) && (fileID <? StubFS.MaxFileOpen) then
    p ← slot fileID s;
    match p with
    | Some p =>
        type ← slot_type fileID s;
        if type =? 1 then
          '(rVal, s) ← on_fs (StubFS.closeTCP fileID) s; return_to_user rVal s
        else
          f ← StubFS.delete_Slot p (the_fs s);
          f ← StubFS.put_slot fileID None f;
          return_to_user 0 (put_fs f s)
    | None => return_to_user (-1) s
    end
  else return_to_user (-1) s.

(** What [recv] stored goes to the user's buffer of [charCnt] bytes. *)
Definition receive (id virAddr charCnt : Z) s : res (frames * state) :=
  buffer ← new_array charCnt 0;
  '(rVal, bs, f) ← StubFS.receiveTCP id charCnt (the_fs s);
  let s := put_fs f s in
  if (rVal =? -1) || (rVal =? 0) then return_to_user rVal s
  else
    '(rVal, s) ← System2User virAddr rVal (splice 0 bs buffer) s;
    return_to_user rVal s.

Definition handle_SC_Read s : res (frames * state) :=
  virAddr ← ReadRegister 4 s;
  charCnt ← ReadRegister 5 s;
  id ← ReadRegister 6 s;
  if (id <? 0) || (StubFS.MaxFileOpen <=? id) then return_to_user (-1) s
  else
    p ← slot id s;
    if bool_decide (p = None) then return_to_user (-1) s
    else
      type ← slot_type id s;
      if type =? 1 then receive id virAddr charCnt s
      else
        t ← open_type id s;
        if t =? 3 then return_to_user (-1) s
        else
          f ← fileOpen id s;
          '(oldPosition, s) ← on_fs (StubFS.GetCurrentPos f) s;
          '(buf, s) ← User2System virAddr charCnt s;
          if t =? 2 then
            tmp ← new_array (s32 (charCnt + 1)) 0;
            Ok ([User (Read_loop virAddr charCnt [])], s)
          else
            '(got, s) ← on_fs (StubFS.Read f charCnt) s;
            if 0 <? StubFS.count got then
              '(newPosition, s) ← on_fs (StubFS.GetCurrentPos f) s;
              let n := s32 (newPosition - oldPosition) in
              '(_, s) ← System2User virAddr n (splice 0 (default [] got) buf) s;
              return_to_user n s
            else return_to_user 0 s.

(** The loop on the keyboard; [tmp] holds what was read, its length is [size],
    of the [charCnt + 1] characters there is room for. *)
Definition Read_end (virAddr charCnt : Z) (tmp : Datatypes.list Z) s : res (frames * state) :=
  if charCnt <? zlen tmp then Fault OutOfBounds else
  '(_, s) ← System2User virAddr (zlen tmp + 1) (tmp ++ [0]) s;
  return_to_user (zlen tmp) s.
Definition Read_loop_ (virAddr charCnt : Z) (tmp : Datatypes.list Z) s : res (frames * state) :=
  if zlen tmp <? charCnt then Ok ([User GetChar; User (Read_got virAddr charCnt tmp)], s)
  else Read_end virAddr charCnt tmp s.
Definition Read_got_ (virAddr charCnt : Z) (tmp : Datatypes.list Z) s : res (frames * state) :=
  t ← returned s;
  if (t =? EOF) || (t =? 10) || (t =? 0) then Read_end virAddr charCnt tmp s
  else Ok ([User (Read_loop virAddr charCnt (tmp ++ [of_char t]))], s).

Definition handle_SC_Write s : res (frames * state) :=
  virAddr ← ReadRegister 4 s;
  charCnt ← ReadRegister 5 s;
  id ← ReadRegister 6 s;
  if (id <? 0) || (StubFS.MaxFileOpen <=? id) then return_to_user (-1) s
  else
    p ← slot id s;
    if bool_decide (p = None) then return_to_user (-1) s
    else
      type ← slot_type id s;
      if type =? 1 then
        '(buf, s) ← User2System virAddr charCnt s;
        '(rVal, s) ← on_fs (StubFS.sendTCP id buf charCnt) s;
        return_to_user rVal s
      else
        t ← open_type id s;
        if (t =? 1) || (t =? 2) then return_to_user (-1) s
        else
          f ← fileOpen id s;
          '(oldPosition, s) ← on_fs (StubFS.GetCurrentPos f) s;
          '(buf, s) ← User2System virAddr charCnt s;
          if (t =? 0) || (t =? WriteNEW_) then
            '(n, s) ← on_fs (StubFS.Write f buf charCnt) s;
            if 0 <? n then
              '(newPosition, s) ← on_fs (StubFS.GetCurrentPos f) s;
              return_to_user (s32 (newPosition - oldPosition)) s
            else PCIncrease_ s
          else if t =? 3 then Ok ([User (Write_loop charCnt buf 0)], s)
          else PCIncrease_ s.

(** The loop on the display, and the character that ends it. *)
Definition Write_loop_ (charCnt : Z) (buf : Datatypes.list Z) (i : Z) s : res (frames * state) :=
  b ← (if i <? charCnt then arr_get buf i else Ok 0);
  if (i <? charCnt) && negb (b =? 0)
  then Ok ([User (PutChar (to_char b)); User (Write_loop charCnt buf (i + 1))], s)
  else
    buf ← arr_set buf i 0;
    Ok ([User (PutChar 0); User (Write_done i)], s).
Definition Write_done_ (i : Z) s : res (frames * state) := return_to_user i s.

Definition handle_SC_Seek s : res (frames * state) :=
  position ← ReadRegister 4 s;
  id ← ReadRegister 5 s;
  if (id <? 0) || (StubFS.MaxFileOpen <=? id) then return_to_user (-1) s
  else
    p ← slot id s;
    if bool_decide (p = None) then return_to_user (-1) s
    else if (id =? 0) || (id =? 1) then return_to_user (-1) s
    else
      '(position, s) ← (if position =? -1 then f ← fileOpen id s; on_fs (StubFS.Length f) s
                        else Ok (position, s));
      f ← fileOpen id s;
      '(length, s) ← on_fs (StubFS.Length f) s;
      if (length <? position) || (position <? 0) then return_to_user (-1) s
      else
        '(_, s) ← on_fs (StubFS.Seek f position) s;
        return_to_user position s.

(** The name of the open file of a slot, through three pointers. *)
Definition open_name (id : Z) s : res Unix.path :=
  f ← fileOpen id s;
  o ← StubFS.live (StubFS.files (the_fs s)) f;
  p ← StubFS.init (StubFS.fName o);
  StubFS.string_at p (the_fs s).

Definition handle_SC_Remove s : res (frames * state) :=
  virtAdr ← ReadRegister 4 s;
  '(buf, s) ← User2System virtAdr (MaxFileLength + 1) s;
  filename ← StubFS.cstr buf;
  r ← for_return (Z.to_nat StubFS.MaxFileOpen) 0 (fun i (_ : ()) =>
        p ← slot i s;
        if bool_decide (p = None) then Ok (inl ())
        else
          name ← open_name i s;
          Ok (if bool_decide (name = filename) then inr () else inl ())) ();
  match r with
  | inr _ => return_to_user (-1) s
  | inl _ =>
      let '(ans, f) := StubFS.Remove filename (the_fs s) in
      return_to_user (if negb ans then -1 else 0) (put_fs f s)
  end.

(** *** Sockets *)

Definition handle_SC_SocketTCP_Open s : res (frames * state) :=
  '(socketID, s) ← on_fs StubFS.createTCP s; return_to_user socketID s.

Definition handle_SC_SocketTCP_Connect s : res (frames * state) :=
  socketID ← ReadRegister 4 s;
  vAddress ← ReadRegister 5 s;
  '(ip, s) ← User2System vAddress MAXIpAddressLength s;
  port ← ReadRegister 6 s;
  ip ← StubFS.cstr ip;
  '(r, s) ← on_fs (StubFS.connectTCP socketID ip port) s;
  return_to_user (if r =? -1 then -1 else 0) s.

(** [leng] is passed before it is read from its register. *)
Definition handle_SC_SocketTCP_Send s : res (frames * state) :=
  socketID ← ReadRegister 4 s;
  vAddress ← ReadRegister 5 s;
  leng ← StubFS.init (None : option Z);
  '(buff, s) ← User2System vAddress leng s;
  leng ← ReadRegister 6 s;
  '(rVal, s) ← on_fs (StubFS.sendTCP socketID buff leng) s;
  return_to_user rVal s.

Definition handle_SC_SocketTCP_Receive s : res (frames * state) :=
  socketID ← ReadRegister 4 s;
  vAddress ← ReadRegister 5 s;
  len ← ReadRegister 6 s;
  receive socketID vAddress len s.

Definition handle_SC_SocketTCP_Close s : res (frames * state) :=
  socketID ← ReadRegister 4 s;
  '(rVal, s) ← on_fs (StubFS.closeTCP socketID) s;
  return_to_user rVal s.

(** *** Processes and semaphores *)

Definition handle_SC_Exec s : res (frames * state) :=
  vAddr ← ReadRegister 4 s;
  '(buf, s) ← User2System vAddr (MaxFileLength + 1) s;
  let '(name, f) := StubFS.new_chars buf (the_fs s) in
  '(file1, f) ← StubFS.Open name f;
  match file1 with
  | None => return_to_user (-1) (put_fs f s)
  | Some file1 =>
      f ← StubFS.delete_OpenFile file1 f;
      Ok ([User (ExecUpdate (Program name)); User (Exec_done name)], put_fs f s)
  end.
Definition Exec_done_ (name : loc) s : res (frames * state) :=
  n ← returned s;
  s ← WriteRegister 2 n s;
  f ← StubFS.delete_chars name (the_fs s);
  PCIncrease_ (put_fs f s).

(** Without the line that prints [argv], which lacks its semicolon. *)
Definition handle_SC_ExecV s : res (frames * state) :=
  argc ← ReadRegister 4 s;
  virtAddr ← ReadRegister 5 s;
  ASSERT (0 <=? argc) ;;
  '(_, argv, s) ← for_range (Z.to_nat argc) 0 (fun i '(virtAddr, argv, s) =>
      '(buf, s) ← User2System virtAddr (MaxFileLength + 1) s;
      let '(p, f) := StubFS.new_chars buf (the_fs s) in
      Ok (s32 (virtAddr + 100), argv ++ [p], put_fs f s)) (virtAddr, [], s);
  Ok ([User (ExecUpdate (Command argv)); User SetResult], s).

(** [WriteRegister(2, result)] after a call that may sleep. *)
Definition SetResult_ s : res (frames * state) := r ← returned s; return_to_user r s.

Definition handle_SC_Wait s : res (frames * state) :=
  vAddr ← ReadRegister 4 s;
  '(buf, s) ← User2System vAddr (MaxFileLength + 1) s;
  name ← StubFS.cstr buf;
  Ok ([User (STable_Wait name); User SetResult], s).
Definition handle_SC_Signal s : res (frames * state) :=
  vAddr ← ReadRegister 4 s;
  '(buf, s) ← User2System vAddr (MaxFileLength + 1) s;
  name ← StubFS.cstr buf;
  Ok ([User (STable_Signal name); User SetResult], s).

Definition handle_SC_Join s : res (frames * state) :=
  n ← ReadRegister 4 s; Ok ([User (JoinUpdate n); User SetResult], s).

Definition SysHalt s : res (frames * state) := s ← Halt Network.delete_Kernel s; Ok ([], s).

Definition handle_SC_Exit s : res (frames * state) :=
  ec ← ReadRegister 4 s; Ok ([User (ExitUpdate ec); User Exit_done], s).
Definition Exit_done_ s : res (frames * state) :=
  r ← returned s;
  s ← WriteRegister 2 r s;
  pid ← current_pid s;
  if pid =? 0 then '(calls, s) ← SysHalt s; Ok (calls ++ [User PCIncrease], s)
  else Ok ([Finish; User PCIncrease], s).

Definition handle_SC_CreateSemaphore s : res (frames * state) :=
  vAddr ← ReadRegister 4 s;
  sVal ← ReadRegister 5 s;
  '(buf, s) ← User2System vAddr (MaxFileLength + 1) s;
  name ← StubFS.cstr buf;
  '(result, s) ← STable_Create name sVal s;
  return_to_user result s.

(** *** The trap *)

Definition syscall (type : Z) s : res (frames * state) :=
  if type =? SC_Halt then '(_, s) ← SysHalt s; Fault AssertFailed
  else if type =? SC_Add then handle_SC_Add s
  else if type =? SC_Create then handle_SC_Create s
  else if type =? SC_Open then handle_SC_Open s
  else if type =? SC_Close then handle_SC_Close s
  else if type =? SC_Read then handle_SC_Read s
  else if type =? SC_Write then handle_SC_Write s
  else if type =? SC_Seek then handle_SC_Seek s
  else if type =? SC_Remove then handle_SC_Remove s
  else if type =? SC_SocketTCP_Open then handle_SC_SocketTCP_Open s
  else if type =? SC_SocketTCP_Connect then handle_SC_SocketTCP_Connect s
  else if type =? SC_SocketTCP_Send then handle_SC_SocketTCP_Send s
  else if type =? SC_SocketTCP_Receive then handle_SC_SocketTCP_Receive s
  else if type =? SC_SocketTCP_Close then handle_SC_SocketTCP_Close s
  else if type =? SC_Exec then handle_SC_Exec s
  else if type =? SC_ExecV then handle_SC_ExecV s
  else if type =? SC_Join then handle_SC_Join s
  else if type =? SC_Exit then handle_SC_Exit s
  else if type =? SC_Wait then handle_SC_Wait s
  else if type =? SC_Signal then handle_SC_Signal s
  else if type =? SC_CreateSemaphore then handle_SC_CreateSemaphore s
  else Fault AssertFailed.

Definition ExceptionHandler_ (which : Machine.ExceptionType) s : res (frames * state) :=
  type ← ReadRegister 2 s;
  match which with
  | Machine.SyscallException => syscall type s
  | _ => Fault AssertFailed
  end.
End code.
End SysCall.
