(* ===== verification/UserMemory.v ===== *)
(** User memory as system calls see it: [User2System] and [System2User] of
    [userprog/exception.cc] on the address space that is installed. *)

From S2P Require Import Prelude Bitmap Lists Machine Interrupt HostFS AddrSpace Threads System Console Process SysCall.
Import Stats Interrupt Threads System Console Process SysCall.

Module UserMemory.
#[local] Abbreviation page := AddrSpace.page.
#[local] Abbreviation phys := AddrSpace.phys.
#[local] Abbreviation view := AddrSpace.view.

(** The user sees the bytes [vm] from address 0 on, on the frames [fr], and may
    write them. *)
Record user_sees (fr : Datatypes.list nat) (vm : Datatypes.list Z) (m : Machine.Machine) : Prop := {
  us_memory : Machine.wf_mem (Machine.mainMemory m);
  us_tables : Machine.wf_tables m;
  us_frames : AddrSpace.good_frames fr;
  us_view : view fr (Machine.mainMemory m) = vm;
  us_pages vpn f : fr !! vpn = Some f ->
    (fun e => (Machine.physicalPage e, Machine.valid e, Machine.readOnly e)) <$> Machine.pte m (Z.of_nat vpn)
    = Some (Z.of_nat f, true, false);
}.

Section access.
Context (fr : Datatypes.list nat) (vm : Datatypes.list Z) (m : Machine.Machine).
Hypothesis (Hu : user_sees fr vm m).

Lemma user_access va writing : 0 <= va < zlen vm -> is_s32 va ->
  Machine.access_error m va 1 writing = None /\
  Machine.phys_addr m va = Some (Z.of_nat (phys fr (Z.to_nat va))).
Proof.
  intros Hva Hs. destruct Hu as [_ _ [_ Hf] Hv Hp]. assert (Hl : zlen vm = Z.of_nat (page * length fr)).
  { rewrite <- Hv. unfold zlen. by rewrite AddrSpace.length_view. }
  assert (E : u32 va = va) by (apply u32_id; unfold is_u32, is_s32 in *; lia).
  destruct (AddrSpace.phys_frame fr (Z.to_nat va)) as (_ & Hfr & _); [lia|].
  specialize (Hp _ _ Hfr). rewrite Forall_lookup in Hf. specialize (Hf _ _ Hfr).
  assert (Ed : Z.of_nat (Z.to_nat va / page) = va / Machine.PageSize).
  { rewrite Nat2Z.inj_div, Z2Nat.id by lia. done. }
  rewrite Ed in Hp. unfold Machine.access_error, Machine.phys_addr. rewrite E, Z.mod_1_r. cbn [negb Z.eqb].
  destruct (Machine.pte m (va / Machine.PageSize)) as [e|]; [|done]. cbn in Hp. injection Hp as Hpp Hval Hro.
  rewrite Hval, Hro, Hpp. cbn [negb andb]. unfold Machine.NumPhysPages.
  rewrite (proj2 (Z.leb_le _ _)), (proj2 (Z.ltb_lt _ _)) by lia. split; [done|].
  cbn [fmap option_fmap option_map]. f_equal. rewrite Hpp. unfold phys, AddrSpace.phys, page, AddrSpace.page, Machine.PageSize in *.
  rewrite Nat2Z.inj_add, Nat2Z.inj_mul, Nat2Z.inj_mod, Z2Nat.id by lia. lia.
Qed.

Lemma mark_page_sees va writing : user_sees fr vm (Machine.mark_page m va writing).
Proof.
  destruct Hu. destruct (Machine.mark_page_frame m va writing) as (_ & EM & _). constructor; rewrite ?EM; try done.
  - by apply Machine.mark_page_tables.
  - intros vpn f Hf. rewrite <- (Machine.mark_page_map m va writing us_tables0). by apply us_pages0.
Qed.

Lemma user_byte va : 0 <= va < zlen vm -> exists b, vm !! Z.to_nat va = Some b /\ is_byte b /\
  Machine.mainMemory m !! phys fr (Z.to_nat va) = Some b.
Proof.
  intros Hva. destruct Hu as [[Hlen Hb] _ Hg Hv _].
  assert (Hl : (Z.to_nat va < page * length fr)%nat).
  { rewrite <- Hv in Hva. unfold zlen in Hva. rewrite AddrSpace.length_view in Hva. lia. }
  pose proof (AddrSpace.phys_lt fr _ Hg Hl) as Hp.
  destruct (lookup_lt_is_Some_2 (Machine.mainMemory m) (phys fr (Z.to_nat va))) as [b E].
  { unfold zlen, Machine.MemorySize, Machine.NumPhysPages, Machine.PageSize, page, AddrSpace.page in *. lia. }
  exists b. rewrite <- Hv, AddrSpace.view_lookup by done. rewrite (list_lookup_total_correct _ _ _ E).
  split; [done|]. split; [|done]. rewrite Forall_lookup in Hb. by eapply Hb.
Qed.

Lemma extend_byte b : is_byte b -> Machine.extend 1 (le_combine [b]) = to_char b.
Proof.
  unfold is_byte. intros Hb. unfold Machine.extend, to_char. cbn [Z.eqb Pos.eqb le_combine].
  change (2 ^ 8) with 256. by rewrite Z.mul_0_r, Z.add_0_r, Z.mod_small by lia.
Qed.

Section code.
Context {N : Type}.
Abbreviation state := (Sim device (World code (Sys N))).
Implicit Types (s : state).

(** A byte is read as a [char], and its page marked. *)
Lemma ReadMem_sees va s b : machine s = Some m -> 0 <= va < zlen vm -> is_s32 va -> vm !! Z.to_nat va = Some b ->
  ReadMem va s = Ok (to_char b, set_machine (Machine.mark_page m va false) s).
Proof using Hu.
  intros Em Hva Hs Hb. destruct (user_byte va Hva) as (b' & Hb' & Hbyte & Hmem). simplify_eq.
  destruct (user_access va false Hva Hs) as [Ha Hp]. pose proof Hu as [Hm Ht _ _ _].
  unfold ReadMem, the_machine. rewrite Em. cbn [rbind].
  rewrite Machine.ReadMem_eq by (done || (unfold Machine.access_size; by left)). rewrite Ha, Hp. cbn [default from_option id rbind].
  rewrite Nat2Z.id. do 3 f_equal. rewrite <- extend_byte by done. f_equal. f_equal.
  change (Z.to_nat 1) with 1%nat. by apply AddrSpace.slice_one.
Qed.

(** The byte is stored and the page marked dirty. *)
Lemma WriteMem_sees va v s : machine s = Some m -> 0 <= va < zlen vm -> is_s32 va ->
  WriteMem va v s = Ok (set_machine (Machine.store m va 1 v) s) /\
  user_sees fr (<[Z.to_nat va := v mod 256]> vm) (Machine.store m va 1 v).
Proof using Hu.
  intros Em Hva Hs. destruct (user_access va true Hva Hs) as [Ha Hp]. pose proof Hu as [Hm Ht Hg Hv Hpg].
  split.
  - unfold WriteMem, the_machine. rewrite Em. cbn [rbind].
    rewrite Machine.WriteMem_eq by (done || (unfold Machine.access_size; by left)). by rewrite Ha.
  - assert (Has : Machine.access_size 1) by by left.
    pose proof (mark_page_sees va true) as [_ _ _ _ Hpg'].
    assert (Hl : zlen vm = Z.of_nat (page * length fr)) by (rewrite <- Hv; unfold zlen; by rewrite AddrSpace.length_view).
    constructor.
    + by apply Machine.store_wf.
    + by apply Machine.store_tables.
    + done.
    + cbn [Machine.store Machine.set_memory Machine.mainMemory]. rewrite Hp. cbn [default from_option id]. rewrite Nat2Z.id.
      destruct (AddrSpace.shows_splice fr (Machine.mainMemory m) (Machine.mainMemory m) vm (Z.to_nat va) (le_split (Z.to_nat 1) v) Hg)
        as (_ & -> & _).
      * split; [apply Hm|done].
      * lia.
      * change (le_split (Z.to_nat 1) v) with [v mod 256]. simpl. unfold page, AddrSpace.page.
        pose proof (Nat.mod_upper_bound (Z.to_nat va) 128). lia.
      * change (le_split (Z.to_nat 1) v) with [v mod 256]. unfold splice. rewrite insert_take_drop by (unfold zlen in *; lia).
        f_equal. simpl. do 2 f_equal. lia.
    + exact Hpg'.
Qed.
End code.
End access.

(** ** Strings in user memory *)

(** The characters before the first zero. *)
Fixpoint chars_of (bs : Datatypes.list Z) : Datatypes.list Z :=
  match bs with
  | [] => []
  | b :: bs => if b =? 0 then [] else b :: chars_of bs
  end.

Lemma chars_of_app cs bs : Forall (fun b => b <> 0) cs -> chars_of (cs ++ 0 :: bs) = cs.
Proof. induction 1 as [|b cs Hb _ IH]; [done|]. cbn. rewrite IH. by rewrite (proj2 (Z.eqb_neq _ _) Hb). Qed.
Lemma chars_of_nonzero bs : Forall (fun b => b <> 0) (chars_of bs).
Proof. induction bs as [|b bs IH]; cbn; [done|]. destruct (Z.eqb_spec b 0); by try constructor. Qed.
Lemma chars_of_le bs : (length (chars_of bs) <= length bs)%nat.
Proof. induction bs as [|b bs IH]; cbn; [done|]. destruct (b =? 0); cbn; lia. Qed.
Lemma cstr_zeros cs n : Forall (fun b => b <> 0) cs -> (0 < n)%nat -> StubFS.cstr (cs ++ replicate n 0) = Ok cs.
Proof.
  intros Hcs Hn. unfold StubFS.cstr. rewrite (proj2 (find_index_Some _ _ (length cs))); [by rewrite take_app_length|].
  exists 0. destruct n as [|n]; [lia|]. rewrite lookup_app_r, Nat.sub_diag by lia. split_and!; [done|done|].
  intros j y Hj Hlt. rewrite lookup_app_l in Hj by done. rewrite Forall_lookup in Hcs. apply Z.eqb_neq. by eapply Hcs.
Qed.

(** Registers and memory as before: only [use] bits were set. *)
Definition only_marked (m m' : Machine.Machine) : Prop :=
  Machine.registers m' = Machine.registers m /\ Machine.mainMemory m' = Machine.mainMemory m.
(** Only memory changed. *)
Definition only_stored (m m' : Machine.Machine) : Prop := Machine.registers m' = Machine.registers m.

Lemma to_char_zero b : is_byte b -> (to_char b =? 0) = (b =? 0).
Proof. unfold to_char, is_byte. intros Hb. destruct (Z.ltb_spec b 128); [done|]. apply eq_true_iff_eq. rewrite !Z.eqb_eq. lia. Qed.
Lemma of_to_char b : is_byte b -> of_char (to_char b) = b.
Proof. unfold to_char, of_char, is_byte. intros Hb. destruct (Z.ltb_spec b 128); zlia. Qed.
Lemma to_char_mod b : is_byte b -> to_char b mod 256 = b.
Proof. apply of_to_char. Qed.

Section code.
Context {N : Type}.
Abbreviation state := (Sim device (World code (Sys N))).
Implicit Types (s : state).

Lemma good_frames_length fr : AddrSpace.good_frames fr -> (length fr <= 128)%nat.
Proof.
  intros [Hnd Hf]. pose proof (submseteq_length fr (seq 0 128)) as Hle. rewrite length_seq in Hle.
  apply Hle, NoDup_submseteq; [done|].
  intros f Hin. rewrite Forall_forall in Hf. apply elem_of_seq. specialize (Hf f Hin). lia.
Qed.

Lemma user_sees_small fr vm m : user_sees fr vm m -> zlen vm <= 16384.
Proof.
  intros [_ _ Hg <- _]. unfold zlen. rewrite AddrSpace.length_view.
  pose proof (good_frames_length fr Hg). unfold AddrSpace.page. lia.
Qed.

Lemma set_machine_same m s : machine s = Some m -> set_machine m s = s.
Proof. destruct s; unfold set_machine; cbn. by intros ->. Qed.

(** The loop of [User2System], from character [length pre] on. *)
Lemma copy_in_loop fr vm va n : forall pre s m,
  machine s = Some m -> user_sees fr vm m -> 0 <= va -> va + zlen pre <= zlen vm ->
  let bs := take n (drop (Z.to_nat (va + zlen pre)) vm) in
  length bs = n \/ 0 ∈ bs ->
  exists m', only_marked m m' /\ user_sees fr vm m' /\
    (r ← for_return n (zlen pre) (fun i '(kernelBuf, s) =>
        '(oneChar, s) ← ReadMem (s32 (va + i)) s;
        kernelBuf ← arr_set kernelBuf i (of_char oneChar);
        Ok (if oneChar =? 0 then inr (kernelBuf, s) else inl (kernelBuf, s))) (pre ++ replicate (Datatypes.S n) 0, s);
     match r with inl r => Ok r | inr r => Ok r end)
    = Ok (pre ++ chars_of bs ++ replicate (Datatypes.S n - length (chars_of bs)) 0, set_machine m' s).
Proof.
  induction n as [|n IH]; intros pre s m Em Hu Hva Hle bs Hbs.
  { exists m. split; [done|]. split; [done|]. by rewrite (set_machine_same m s Em). }
  pose proof (user_sees_small _ _ _ Hu) as Hsm.
  destruct (drop (Z.to_nat (va + zlen pre)) vm) as [|b rest] eqn:Hd.
  { subst bs. cbn in Hbs. destruct Hbs as [?|?%elem_of_nil]; done. }
  assert (Hb : vm !! Z.to_nat (va + zlen pre) = Some b).
  { rewrite <- (Nat.add_0_r (Z.to_nat (va + zlen pre))), <- lookup_drop, Hd. done. }
  pose proof (lookup_lt_Some _ _ _ Hb) as Hlt.
  assert (Hr : 0 <= va + zlen pre < zlen vm) by (unfold zlen in *; lia).
  assert (Hs : is_s32 (va + zlen pre)) by (unfold is_s32; lia).
  destruct (user_byte _ _ _ Hu _ Hr) as (b' & Hb' & Hbyte & _). rewrite Hb in Hb'. injection Hb' as <-.
  cbn [for_return]. rewrite s32_id by done. rewrite (ReadMem_sees _ _ _ Hu _ _ b Em Hr Hs Hb). cbn [rbind].
  rewrite arr_set_lt by (unfold zlen; rewrite length_app; cbn; lia). cbn [rbind].
  rewrite of_to_char, to_char_zero by done.
  assert (E : <[Z.to_nat (zlen pre) := b]> (pre ++ replicate (Datatypes.S (Datatypes.S n)) 0) = (pre ++ [b]) ++ replicate (Datatypes.S n) 0).
  { unfold zlen. rewrite Nat2Z.id, <- (Nat.add_0_r (length pre)), insert_app_r. cbn. by rewrite <- app_assoc. }
  rewrite E. subst bs. cbn [take chars_of]. pose proof (mark_page_sees _ _ _ Hu (va + zlen pre) false) as Hu1.
  destruct (Machine.mark_page_frame m (va + zlen pre) false) as (ER & EM & _).
  destruct (Z.eqb_spec b 0) as [->|Hnz].
  - exists (Machine.mark_page m (va + zlen pre) false). split; [done|]. split; [done|]. cbn [rbind].
    cbn [app length]. rewrite Nat.sub_0_r. cbn. by rewrite <- app_assoc.
  - cbn [rbind].
    assert (Hz : zlen (pre ++ [b]) = zlen pre + 1) by (unfold zlen; rewrite length_app; cbn; lia).
    assert (Hd' : drop (Z.to_nat (va + zlen (pre ++ [b]))) vm = rest).
    { rewrite Hz. replace (Z.to_nat (va + (zlen pre + 1))) with (Z.to_nat (va + zlen pre) + 1)%nat by lia.
      by rewrite <- drop_drop, Hd. }
    destruct (IH (pre ++ [b]) (set_machine (Machine.mark_page m (va + zlen pre) false) s) _ eq_refl Hu1 Hva)
      as (m' & [ER' EM'] & Hu' & Hrun).
    + rewrite Hz. lia.
    + rewrite Hd'. cbn in Hbs. destruct Hbs as [Hl|Hin]; [left; lia|right].
      apply elem_of_cons in Hin as [<-|?]; done.
    + exists m'. split; [unfold only_marked; rewrite ER', EM', ER, EM; done|]. split; [done|].
      rewrite Hd', Hz in Hrun. rewrite Hrun. f_equal. f_equal. rewrite <- app_assoc. done.
Qed.

(** [User2System] gives the characters at [virtAddr], up to the first zero
    and at most [limit] of them, in an array of [limit + 1] bytes whose rest is
    zero.  Registers and memory stay. *)
Lemma User2System_eq fr vm s m virtAddr limit :
  machine s = Some m -> user_sees fr vm m -> 0 <= virtAddr <= zlen vm -> 0 <= limit < 2 ^ 31 - 1 ->
  let bs := take (Z.to_nat limit) (drop (Z.to_nat virtAddr) vm) in
  zlen bs = limit \/ 0 ∈ bs ->
  exists m', only_marked m m' /\ user_sees fr vm m' /\
    User2System virtAddr limit s
    = Ok (chars_of bs ++ replicate (Z.to_nat (limit + 1) - length (chars_of bs)) 0, set_machine m' s) /\
    StubFS.cstr (chars_of bs ++ replicate (Z.to_nat (limit + 1) - length (chars_of bs)) 0) = Ok (chars_of bs).
Proof.
  intros Em Hu Hva Hl bs Hbs. destruct (copy_in_loop fr vm virtAddr (Z.to_nat limit) [] s m Em Hu) as (m' & Hm & Hu' & Hrun).
  - lia.
  - unfold zlen in *. cbn [length]. lia.
  - change (zlen []) with 0. rewrite Z.add_0_r. subst bs. unfold zlen in Hbs. destruct Hbs; [left; lia|by right].
  - exists m'. split; [done|]. split; [done|]. change (zlen []) with 0 in Hrun. cbn [app] in Hrun. rewrite Z.add_0_r in Hrun. fold bs in Hrun.
    unfold User2System, new_array. rewrite s32_id by (unfold is_s32; lia).
    rewrite (proj2 (Z.leb_le 0 (limit + 1))) by lia. cbn [rbind].
    replace (Z.to_nat (limit + 1)) with (Datatypes.S (Z.to_nat limit)) by lia. split; [exact Hrun|].
    apply cstr_zeros; [apply chars_of_nonzero|]. pose proof (chars_of_le bs). subst bs. rewrite length_take in *. lia.
Qed.

(** *** No overrun *)

(** The characters [ReadMem] gives one after the other from [virtAddr + i] on,
    each in the state the read before it left: up to the first zero, [n] at
    most, or until a read faults. *)
Fixpoint read_chars (virtAddr i : Z) (n : nat) s : Datatypes.list Z * option fault * state :=
  match n with
  | O => ([], None, s)
  | Datatypes.S n =>
      match ReadMem (s32 (virtAddr + i)) s with
      | Fault f => ([], Some f, s)
      | Ok (c, s) =>
          if c =? 0 then ([], None, s)
          else let '(cs, e, s) := read_chars virtAddr (i + 1) n s in (c :: cs, e, s)
      end
  end.

Lemma read_chars_length virtAddr n : forall i s, (length (read_chars virtAddr i n s).1.1 <= n)%nat.
Proof.
  induction n as [|n IH]; intros i s; cbn [read_chars]; [done|].
  destruct (ReadMem _ s) as [[c s1]|f]; [|cbn; lia]. destruct (c =? 0); [cbn; lia|].
  specialize (IH (i + 1) s1). destruct (read_chars _ _ _ _) as [[cs e] s2]. cbn in *. lia.
Qed.

(** The loop of [User2System] puts them in its array, which starts as zeros. *)
Lemma copy_in_chars virtAddr n : forall pre k s, (n < k)%nat ->
  (r ← for_return n (zlen pre) (fun i '(kernelBuf, s) =>
        '(oneChar, s) ← ReadMem (s32 (virtAddr + i)) s;
        kernelBuf ← arr_set kernelBuf i (of_char oneChar);
        Ok (if oneChar =? 0 then inr (kernelBuf, s) else inl (kernelBuf, s))) (pre ++ replicate k 0, s);
   match r with inl r => Ok r | inr r => Ok r end) =
  match read_chars virtAddr (zlen pre) n s with
  | (cs, None, s') => Ok (pre ++ (of_char <$> cs) ++ replicate (k - length cs) 0, s')
  | (_, Some f, _) => Fault f
  end.
Proof.
  induction n as [|n IH]; intros pre k s Hk; cbn [for_return read_chars].
  { cbn. by rewrite Nat.sub_0_r. }
  destruct (ReadMem (s32 (virtAddr + zlen pre)) s) as [[c s1]|f]; cbn [rbind]; [|done].
  rewrite arr_set_lt by (unfold zlen; rewrite length_app, length_replicate; lia). cbn [rbind].
  assert (E : <[Z.to_nat (zlen pre) := of_char c]> (pre ++ replicate k 0) = (pre ++ [of_char c]) ++ replicate (k - 1) 0).
  { destruct k as [|k]; [lia|]. unfold zlen.
    rewrite Nat2Z.id, <- (Nat.add_0_r (length pre)), insert_app_r. cbn. by rewrite Nat.sub_0_r, <- app_assoc. }
  rewrite E. destruct (Z.eqb_spec c 0) as [->|Hc].
  - cbn. destruct k as [|k]; [lia|]. by rewrite <- app_assoc; cbn; rewrite Nat.sub_0_r.
  - cbn [rbind]. specialize (IH (pre ++ [of_char c]) (k - 1)%nat s1 ltac:(lia)).
    replace (zlen (pre ++ [of_char c])) with (zlen pre + 1) in IH by (unfold zlen; rewrite length_app; cbn; lia).
    rewrite IH. destruct (read_chars _ _ _ _) as [[cs [f|]] s2]; [done|].
    rewrite <- app_assoc. cbn. by replace (k - 1 - length cs)%nat with (k - Datatypes.S (length cs))%nat by lia.
Qed.

Lemma cstr_padded cs n : (0 < n)%nat -> StubFS.cstr (cs ++ replicate n 0) = Ok (chars_of cs).
Proof.
  intros Hn. induction cs as [|c cs IH].
  - by apply (cstr_zeros [] n).
  - unfold StubFS.cstr in *. cbn [app chars_of]. rewrite find_index_cons. destruct (c =? 0); [done|].
    destruct (find_index _ (cs ++ replicate n 0)) as [i|]; [|done]. injection IH as IH. cbn. by rewrite IH.
Qed.

(** C15. [User2System] gives exactly the characters the address space shows at
    the address, up to the first zero and at most [limit] of them, in an array
    of [limit + 1] bytes whose rest is zero, whatever the user's registers and
    memory hold: it never writes outside that array, and the string in it has at
    most [limit] characters.  A limit of -1 gives an empty array, no string; a
    smaller one, and [INT_MAX], whose [limit + 1] overflows, makes [new] throw.
    The only other fault is that of the first read in this sequence that the
    address space refuses. *)
Theorem User2System_bounds s virtAddr limit : is_s32 limit ->
  let '(cs, refused, s') := read_chars virtAddr 0 (Z.to_nat limit) s in
  let buf := (of_char <$> cs) ++ replicate (Z.to_nat (limit + 1) - length cs) 0 in
  User2System virtAddr limit s =
    (if (limit <? -1) || (limit =? 2 ^ 31 - 1) then Fault AssertFailed
     else match refused with Some f => Fault f | None => Ok (buf, s') end) /\
  (-1 <= limit -> zlen buf = limit + 1) /\
  (if 0 <=? limit then zlen cs <= limit /\ StubFS.cstr buf = Ok (chars_of (of_char <$> cs))
   else StubFS.cstr buf = Fault OutOfBounds).
Proof.
  intros Hl. unfold is_s32 in Hl. pose proof (read_chars_length virtAddr (Z.to_nat limit) 0 s) as Hlen.
  pose proof (copy_in_chars virtAddr (Z.to_nat limit) [] (Z.to_nat (limit + 1)) s) as Hrun. change (zlen []) with 0 in Hrun.
  destruct (read_chars virtAddr 0 (Z.to_nat limit) s) as [[cs e] s'] eqn:Ecs. cbn [fst snd] in Hlen. cbv zeta.
  split; [|split].
  - unfold User2System, new_array. destruct (Z.eqb_spec limit (2 ^ 31 - 1)) as [->|Hmax]; [by rewrite orb_true_r|].
    rewrite orb_false_r, s32_id by (unfold is_s32; lia). destruct (Z.ltb_spec limit (-1)) as [Hlt|Hge].
    + by rewrite (proj2 (Z.leb_gt 0 (limit + 1))) by lia.
    + rewrite (proj2 (Z.leb_le 0 (limit + 1))) by lia. cbn [ASSERT rbind].
      destruct (decide (limit = -1)) as [->|Hm]; [by injection Ecs as <- <- <-|].
      cbn [app] in Hrun. rewrite Hrun by lia. by destruct e.
  - intros Hge. unfold zlen. rewrite length_app, length_fmap, length_replicate. lia.
  - destruct (Z.leb_spec 0 limit) as [Hge|Hlt].
    + split; [unfold zlen; lia|]. apply cstr_padded. lia.
    + replace (Z.to_nat limit) with 0%nat in Ecs by lia. injection Ecs as <- _ _.
      by replace (Z.to_nat (limit + 1)) with 0%nat by lia.
Qed.

(** *** To the user *)

Lemma splice_one (l : Datatypes.list Z) k b : (k < length l)%nat -> <[k := b]> l = splice k [b] l.
Proof. intros Hk. unfold splice. rewrite insert_take_drop by done. cbn. by rewrite Nat.add_1_r. Qed.

Lemma copy_out_loop fr va len buf n : forall vm i s m,
  machine s = Some m -> user_sees fr vm m -> 0 <= va -> 0 <= i -> i + Z.of_nat n = len -> len <= zlen buf -> Forall is_byte buf ->
  let bs := take n (drop (Z.to_nat i) buf) in
  let k := Nat.min n (Datatypes.S (length (chars_of bs))) in
  va + i + Z.of_nat k <= zlen vm ->
  exists m', only_stored m m' /\ user_sees fr (splice (Z.to_nat (va + i)) (take k bs) vm) m' /\
    (r ← for_return n i (fun i s =>
          b ← arr_get buf i;
          let oneChar := to_char b in
          s ← WriteMem (s32 (va + i)) oneChar s;
          Ok (if oneChar =? 0 then inr (i + 1, s) else inl s)) s;
     match r with inr (j, s) => Ok (j, s) | inl s => Ok (len, s) end)
    = Ok (i + Z.of_nat k, set_machine m' s).
Proof.
  induction n as [|n IH]; intros vm i s m Em Hu Hva Hi Hn Hlen Hb bs k Hk.
  { exists m. split; [done|]. subst k bs. rewrite Nat.min_0_l, take_0, AddrSpace.splice_nil. split; [done|].
    cbn. rewrite (set_machine_same m s Em). by replace len with (i + 0) by lia. }
  pose proof (user_sees_small _ _ _ Hu) as Hsm.
  destruct (lookup_lt_is_Some_2 buf (Z.to_nat i)) as [b Hbi]; [unfold zlen in *; lia|].
  assert (Hbyte : is_byte b) by (rewrite Forall_lookup in Hb; by eapply Hb).
  assert (Ebs : bs = b :: take n (drop (Z.to_nat (i + 1)) buf)).
  { subst bs. rewrite (drop_S _ b) by done. by replace (Z.to_nat (i + 1)) with (Datatypes.S (Z.to_nat i)) by lia. }
  clearbody bs. subst bs. cbn [chars_of] in k. cbn [for_return].
  rewrite (arr_get_Some _ _ b) by done. cbn [rbind]. rewrite s32_id by (unfold is_s32; lia).
  destruct (WriteMem_sees _ _ _ Hu (va + i) (to_char b) s Em) as [-> Hu1]; [lia|unfold is_s32; lia|]. cbn [rbind].
  rewrite to_char_mod in Hu1 by done. rewrite splice_one in Hu1 by (unfold zlen in *; lia). rewrite to_char_zero by done.
  assert (Hreg : only_stored m (Machine.store m (va + i) 1 (to_char b))).
  { apply (Machine.mark_page_frame m (va + i) true). }
  destruct (b =? 0) eqn:Eb.
  - exists (Machine.store m (va + i) 1 (to_char b)). split; [done|].
    replace k with 1%nat by (subst k; cbn; lia). done.
  - subst k. cbn [length] in *. set (k := Nat.min n (Datatypes.S (length (chars_of (take n (drop (Z.to_nat (i + 1)) buf)))))).
    replace (Nat.min (Datatypes.S n) _) with (Datatypes.S k) in * by lia.
    assert (Hz : length (splice (Z.to_nat (va + i)) [b] vm) = length vm) by (apply length_splice; unfold zlen in *; cbn; lia).
    destruct (IH (splice (Z.to_nat (va + i)) [b] vm) (i + 1) (set_machine (Machine.store m (va + i) 1 (to_char b)) s) _ eq_refl Hu1 Hva)
      as (m' & Hm' & Hu' & Hrun); [lia|lia|done|done|fold k; unfold zlen in *; lia|]. fold k in Hu', Hrun.
    exists m'. split; [unfold only_stored in *; by rewrite Hm'|]. split.
    + replace (Z.to_nat (va + (i + 1))) with (Z.to_nat (va + i) + length [b])%nat in Hu' by (cbn; lia).
      rewrite splice_splice_next in Hu'; [done|]. rewrite length_take. unfold zlen in *. cbn. lia.
    + cbn [rbind]. rewrite Hrun. do 2 f_equal. lia.
Qed.

(** [System2User] stores the bytes of the buffer up to and with the first
    zero, at most [len] of them, at [virtAddr], and returns how many; registers
    and the other bytes of the space stay. *)
Lemma System2User_eq fr vm s m virtAddr len buf :
  machine s = Some m -> user_sees fr vm m -> 0 <= virtAddr -> 0 <= len <= zlen buf -> Forall is_byte buf ->
  let bs := take (Z.to_nat len) buf in
  let k := Z.min len (zlen (chars_of bs) + 1) in
  virtAddr + k <= zlen vm ->
  exists m', only_stored m m' /\ user_sees fr (splice (Z.to_nat virtAddr) (take (Z.to_nat k) bs) vm) m' /\
    System2User virtAddr len buf s = Ok (k, set_machine m' s).
Proof.
  intros Em Hu Hva Hl Hb bs k Hk.
  assert (Ek : Nat.min (Z.to_nat len) (Datatypes.S (length (chars_of bs))) = Z.to_nat k) by (unfold zlen in *; lia).
  destruct (copy_out_loop fr virtAddr len buf (Z.to_nat len) vm 0 s m Em Hu Hva) as (m' & Hm & Hu' & Hrun).
  - lia.
  - lia.
  - lia.
  - done.
  - change (drop (Z.to_nat 0) buf) with buf. fold bs. rewrite Ek. unfold zlen in *. lia.
  - change (drop (Z.to_nat 0) buf) with buf in Hu', Hrun. fold bs in Hu', Hrun. rewrite Ek, Z.add_0_r in *.
    exists m'. split; [done|]. split; [done|]. unfold System2User.
    destruct (Z.ltb_spec len 0); [lia|]. destruct (Z.eqb_spec len 0) as [->|Hne].
    + injection Hrun as Hs. rewrite <- Hs. by do 2 f_equal.
    + etransitivity; [exact Hrun|]. do 2 f_equal. unfold zlen in *. lia.
Qed.

(** *** A string to the user and back *)

Lemma chars_of_take n str bs : Forall (fun b => b <> 0) str ->
  chars_of (take n (str ++ 0 :: bs)) = take n str.
Proof.
  intros Hs. revert n. induction Hs as [|b str Hb _ IH]; intros [|n]; [done|done|done|]. cbn.
  rewrite IH. by rewrite (proj2 (Z.eqb_neq _ _) Hb).
Qed.

Lemma take_has_zero n (str bs : Datatypes.list Z) : length (take n (str ++ 0 :: bs)) = n \/ 0 ∈ take n (str ++ 0 :: bs).
Proof.
  destruct (decide (n <= length str)%nat) as [Hn|Hn].
  - left. rewrite length_take, length_app. lia.
  - right. rewrite take_app_ge by lia. apply elem_of_app. right.
    destruct (n - length str)%nat eqn:E; [lia|]. by left.
Qed.

(** C14. A string the kernel writes at a user address is what it reads back there,
    cut to the reader's limit: [System2User] stores it with its zero and nothing
    else, whichever frames the pages are in, and [User2System] then gives it in
    an array of [limit + 1] bytes.  The two calls change the machine's memory
    and page marks, no register and no other part of the system. *)
Theorem string_round_trip fr vm s m virtAddr limit str :
  machine s = Some m -> user_sees fr vm m -> 0 <= virtAddr -> virtAddr + zlen str + 1 <= zlen vm ->
  Forall (fun b => is_byte b /\ b <> 0) str -> 0 <= limit < 2 ^ 31 - 1 ->
  exists m1 m2 buf,
    System2User virtAddr (zlen str + 1) (str ++ [0]) s = Ok (zlen str + 1, set_machine m1 s) /\
    User2System virtAddr limit (set_machine m1 s) = Ok (buf, set_machine m2 s) /\
    zlen buf = limit + 1 /\ StubFS.cstr buf = Ok (take (Z.to_nat limit) str) /\
    user_sees fr (splice (Z.to_nat virtAddr) (str ++ [0]) vm) m2 /\
    Machine.registers m2 = Machine.registers m.
Proof.
  intros Em Hu Hva Hvm Hstr Hl.
  assert (Hnz : Forall (fun b => b <> 0) str) by (eapply Forall_impl; [exact Hstr|]; by intros b []).
  assert (Hz : zlen (str ++ [0]) = zlen str + 1) by (unfold zlen; rewrite length_app; cbn; lia).
  assert (Et : take (Z.to_nat (zlen str + 1)) (str ++ [0]) = str ++ [0]) by (apply take_ge; unfold zlen in *; lia).
  pose proof (System2User_eq fr vm s m virtAddr (zlen str + 1) (str ++ [0]) Em Hu Hva) as Hout.
  cbv zeta in Hout. rewrite Et, (chars_of_app str []), Z.min_id, Et in Hout by done.
  destruct Hout as (m1 & Hm1 & Hu1 & Hout); [unfold zlen in *; lia| |lia|].
  { apply Forall_app. split; [|by constructor]. eapply Forall_impl; [exact Hstr|]. by intros b []. }
  assert (Hsp : zlen (splice (Z.to_nat virtAddr) (str ++ [0]) vm) = zlen vm).
  { unfold zlen in *. rewrite length_splice; [done|]. rewrite length_app in *. cbn in *. lia. }
  pose proof (User2System_eq fr _ (set_machine m1 s) m1 virtAddr limit eq_refl Hu1) as Hin. cbv zeta in Hin.
  replace (drop (Z.to_nat virtAddr) (splice _ (str ++ [0]) vm))
    with (str ++ 0 :: drop (Z.to_nat virtAddr + length (str ++ [0])) vm) in Hin.
  2: { unfold splice. rewrite drop_app_ge, length_take_le, Nat.sub_diag, drop_0 by (rewrite ?length_take; unfold zlen in *; lia).
       by rewrite <- app_assoc. }
  rewrite chars_of_take in Hin by done. destruct Hin as (m2 & [ER _] & Hu2 & Hin & Hc);
    [rewrite Hsp; unfold zlen; unfold zlen in Hvm; lia|done| |].
  { destruct (take_has_zero (Z.to_nat limit) str (drop (Z.to_nat virtAddr + length (str ++ [0])) vm)) as [E|E];
      [left; unfold zlen; rewrite E; lia|by right]. }
  exists m1, m2. eexists. split; [exact Hout|]. split; [exact Hin|]. split; [|split; [exact Hc|]].
  - unfold zlen. rewrite length_app, length_replicate, length_take. lia.
  - split; [done|]. unfold only_stored in Hm1. congruence.
Qed.
End code.
End UserMemory.
