(* ===== verification/Nachos.v ===== *)
(** The whole kernel: running a process ([RunProcess] of [threads/pcb.cc],
    [Machine::Run] of [machine/mipssim.cc]), the interrupt handlers and every
    function cut by a call of the thread machine as one [Client], the command
    line, the start of the system ([Kernel::Kernel] and [Kernel::Initialize] of
    [threads/kernel.cc]) and [main] of [threads/main.cc]. *)

From Stdlib Require Import QArith_base.
From S2P Require Import Prelude Bitmap Lists Machine Mips Interrupt Disk HostFS AddrSpace Threads SelfTests System Console Network Process SysCall.
Import Stats Interrupt Threads System Console Network Process SysCall.
Open Scope Z_scope.

(** What the program finds in memory it has not initialised. *)
Class Garbage := {
  header_junk : Datatypes.list Z;
  entry_junk : nat -> Machine.TranslationEntry;
  word_junk : nat -> Z;
  pointer_junk : nat -> option StubFS.loc;
  sem_junk : nat -> option System.Sem;
  packet_junk : PacketHeader;
  byte_junk : nat -> Z;
  header_junk_length : length header_junk = 52%nat;
}.

Module Nachos.

(** The machine's calls back during one instruction: the trap is left to the
    call the instruction makes. *)
Definition recorder : Machine.Kernel (option Machine.ExceptionType) := {|
  Machine.setStatus _ k := k;
  Machine.ExceptionHandler which m _ := Ok (m, Some which);
  Machine.OneTick m k := Ok (m, k);
  Machine.totalTicks _ := 0;
|}.

(** *** The command line, as data *)

(** The flags of the kernel ([-rs], [-s], [-ci], [-co], [-n], [-m]). *)
Record options := mkOptions {
  randomSlice : bool;
  debugUserProg : bool;
  consoleIn : option Unix.path;
  consoleOut : option Unix.path;
  reliability : Q;
  host_name : Z;
}.
Definition default_options : options := mkOptions false false None None 1%Q 0.

Definition flag_rs : Unix.path := [45; 114; 115].
Definition flag_s : Unix.path := [45; 115].
Definition flag_ci : Unix.path := [45; 99; 105].
Definition flag_co : Unix.path := [45; 99; 111].
Definition flag_n : Unix.path := [45; 110].
Definition flag_m : Unix.path := [45; 109].
Definition flag_d : Unix.path := [45; 100].
Definition flag_x : Unix.path := [45; 120].
Definition flag_K : Unix.path := [45; 75].
Definition flag_C : Unix.path := [45; 67].
Definition flag_N : Unix.path := [45; 78].

(** [atoi] and [atof] of the C library: space, a sign, digits; a number out of
    range becomes the nearest [int].  [atof] reads a decimal fraction exactly
    (exponents, hexadecimal numbers, infinities are not read). *)
Definition is_digit (c : Z) : bool := (48 <=? c) && (c <=? 57).
Fixpoint read_digits (str : Unix.path) (acc : Z) : Z * Unix.path :=
  match str with
  | c :: rest => if is_digit c then read_digits rest (acc * 10 + (c - 48)) else (acc, str)
  | [] => (acc, [])
  end.
Fixpoint skip_space (str : Unix.path) : Unix.path :=
  match str with
  | c :: rest => if (c =? 32) || ((9 <=? c) && (c <=? 13)) then skip_space rest else str
  | [] => []
  end.
Definition read_sign (str : Unix.path) : Z * Unix.path :=
  match str with
  | c :: rest => if c =? 45 then (-1, rest) else if c =? 43 then (1, rest) else (1, str)
  | [] => (1, [])
  end.
Definition atoi (str : Unix.path) : Z :=
  let '(sign, str) := read_sign (skip_space str) in
  Z.max (- 2 ^ 31) (Z.min (2 ^ 31 - 1) (sign * (read_digits str 0).1)).
Definition atof (str : Unix.path) : Q :=
  let '(sign, str) := read_sign (skip_space str) in
  let '(whole, str) := read_digits str 0 in
  match str with
  | c :: frac => if c =? 46 then
      let '(n, rest) := read_digits frac whole in
      Qmake (sign * n) (Z.to_pos (10 ^ (zlen frac - zlen rest)))
      else inject_Z (sign * whole)
  | [] => inject_Z (sign * whole)
  end.

(** What [main] is asked to do. *)
Record work := mkWork {
  userProgName : option Unix.path;
  args : Datatypes.list Unix.path;
  threadTestFlag : bool;
  consoleTestFlag : bool;
  networkTestFlag : bool;
}.

(** The flags of [main]; [args] has room for ten names of ninety-nine
    characters. *)
Fixpoint main_args (argv : Datatypes.list Unix.path) (w : work) : res work :=
  match argv with
  | [] => Ok w
  | arg :: rest =>
      if bool_decide (arg = flag_d) then
        match rest with _ :: rest => main_args rest w | [] => Fault AssertFailed end
      else if bool_decide (arg = flag_x) then
        match rest with
        | x :: rest =>
            if (zlen x <? 100) && (zlen (args w) <? 10)
            then main_args rest (mkWork (Some x) (args w ++ [x]) (threadTestFlag w) (consoleTestFlag w) (networkTestFlag w))
            else Fault OutOfBounds
        | [] => Fault AssertFailed
        end
      else if bool_decide (arg = flag_K) then
        main_args rest (mkWork (userProgName w) (args w) true (consoleTestFlag w) (networkTestFlag w))
      else if bool_decide (arg = flag_C) then
        main_args rest (mkWork (userProgName w) (args w) (threadTestFlag w) true (networkTestFlag w))
      else if bool_decide (arg = flag_N) then
        main_args rest (mkWork (userProgName w) (args w) (threadTestFlag w) (consoleTestFlag w) true)
      else main_args rest w
  end.

(** What [main] does once the kernel is initialised. *)
Definition main_calls (w : work) : Datatypes.list (instr code) :=
  (if threadTestFlag w then [User (SelfTest SelfTests.ThreadSelfTest)] else []) ++
  (if consoleTestFlag w then [User ConsoleTest] else []) ++
  (if networkTestFlag w then [User NetworkTest] else []) ++
  [User (Main (userProgName w) (args w))].

Section code.
Context {N : Type} `{Outside N} `{TCP N} `{Garbage}.
Abbreviation state := (Sim device (World code (Sys N))).
Abbreviation frames := (Datatypes.list (instr code)).
Implicit Types (s : state).

(** *** User programs *)

(** One round of the loop of [Machine::Run]; the machine does not single-step. *)
Definition RunUser_ s : res (frames * state) :=
  m ← the_machine s;
  '(m, trap) ← Mips.OneInstruction (H := recorder) m None;
  let s := set_machine m s in
  match trap with
  | None => Ok ([Tick; User RunUser], s)
  | Some which =>
      Ok ([User (ExceptionHandler which); SetStatusTo Machine.UserMode; Tick; User RunUser],
          Interrupt.setStatus Machine.SystemMode s)
  end.

(** [AddrSpace::Execute] on the space of the current thread. *)
Definition Execute (a : AddrSpace.AddrSpace) s : res (frames * state) :=
  let s := set_thread (cur s) (with_space (Some a)) s in
  m ← the_machine s;
  m ← AddrSpace.Execute a m;
  Ok ([User RunUser], Interrupt.setStatus Machine.UserMode (set_machine m s)).

(** [AddrSpace::Load] on the machine and the file system. *)
Definition Load (name : loc) (args : Datatypes.list loc) (a : AddrSpace.AddrSpace) s
    : res (bool * AddrSpace.AddrSpace * state) :=
  m ← the_machine s;
  '(ok, a, m, f) ← AddrSpace.Load header_junk entry_junk name args a m (the_fs s);
  Ok (ok, a, put_fs f (set_machine m s)).

(** The space belongs to the thread before it is loaded. *)
Definition RunProcess_ (arg : ProcessArg) s : res (frames * state) :=
  filename ← GetFileName (arg_pid arg) s;
  let s := set_thread (cur s) (with_space (Some AddrSpace.new_AddrSpace)) s in
  match filename with
  | None => Fault NullPointer
  | Some filename =>
      '(ok, a, s) ← Load filename (argv arg) AddrSpace.new_AddrSpace s;
      if negb ok then Ok ([], s) else Execute a s
  end.

(** The end of [main]: the program named after [-x], with the arguments [args],
    each copied into a hundred characters of its own. *)
Definition Main_ (userProgName : option Unix.path) (args : Datatypes.list Unix.path) s : res (frames * state) :=
  match userProgName with
  | None => SysHalt s
  | Some name =>
      let '(p, f) := StubFS.new_chars (name ++ [0]) (the_fs s) in
      let '(argv, f) := foldl (fun '(argv, f) arg =>
        let '(q, f) := StubFS.new_chars (arg ++ replicate (100 - length arg) 0) f in (argv ++ [q], f)) ([], f) args in
      '(ok, a, s) ← Load p argv AddrSpace.new_AddrSpace (put_fs f s);
      if (ok : bool) then Execute a s else SysHalt s
  end.

(** *** The client of the thread machine *)

Definition ustep_ (u : code) s : res (frames * state) :=
  match u with
  | Return r => Ok ([], return_ r s)
  | GetChar => GetChar_ s
  | GetChar_got => GetChar_got_ s
  | PutChar ch => PutChar_ ch s
  | PutChar_put ch => PutChar_put_ ch s
  | ExecUpdate c => ExecUpdate_ c s
  | ExecUpdate_in c => ExecUpdate_in_ c s
  | ExecUpdate_exec pid c => ExecUpdate_exec_ pid c s
  | PCB_Exec p c => PCB_Exec_ p c s
  | PCB_Exec_in p c => PCB_Exec_in_ p c s
  | RunProcess arg => RunProcess_ arg s
  | RunUser => RunUser_ s
  | IncNumWait p => IncNumWait_ p s
  | IncNumWait_in p => IncNumWait_in_ p s
  | DecNumWait p => DecNumWait_ p s
  | DecNumWait_in p => DecNumWait_in_ p s
  | JoinUpdate pid => JoinUpdate_ pid s
  | JoinUpdate_joined parent => JoinUpdate_joined_ parent s
  | JoinUpdate_counted parent => JoinUpdate_counted_ parent s
  | ExitUpdate ec => ExitUpdate_ ec s
  | ExitUpdate_released parent => ExitUpdate_released_ parent s
  | ExitUpdate_counted parent => ExitUpdate_counted_ parent s
  | STable_Wait name => STable_Wait_ name s
  | STable_Signal name => STable_Signal_ name s
  | ExceptionHandler which => ExceptionHandler_ which s
  | Read_loop virAddr charCnt tmp => Read_loop_ virAddr charCnt tmp s
  | Read_got virAddr charCnt tmp => Read_got_ virAddr charCnt tmp s
  | Write_loop charCnt buf i => Write_loop_ charCnt buf i s
  | Write_done i => Write_done_ i s
  | Exec_done name => Exec_done_ name s
  | SetResult => SetResult_ s
  | Exit_done => Exit_done_ s
  | PCIncrease => PCIncrease_ s
  | Main userProgName args => Main_ userProgName args s
  | ConsoleTest => ConsoleTest_ s
  | ConsoleTest_got => ConsoleTest_got_ s
  | ReadSector n => ReadSector_ n s
  | ReadSector_locked n => ReadSector_locked_ n s
  | WriteSector n data => WriteSector_ n data s
  | WriteSector_locked n data => WriteSector_locked_ n data s
  | PostalDelivery buffer => PostalDelivery_ buffer s
  | PostalDelivery_got buffer => PostalDelivery_got_ buffer s
  | PostReceive box => PostReceive_ box s
  | PostReceive_got => PostReceive_got_ s
  | PostSend pkt mail data => PostSend_ pkt mail data s
  | PostSend_locked pkt buffer => PostSend_locked_ byte_junk pkt buffer s
  | NetworkTest => NetworkTest_ s
  | NetworkTest_got => NetworkTest_got_ s
  | NetworkTest_acked => NetworkTest_acked_ s
  | SelfTest p => SelfTests.ustep_ p s
  end.

(** The timer draws a number only to choose a random delay. *)
Definition Alarm_timer_CallBack s : res state :=
  let t := alarm_timer (the_sys s) in
  let '(r, s) := if randomize t && negb (disable t)
                 then let '(r, n) := RandomNumber (StubFS.net (the_fs s)) in (r, put_net n s)
                 else (0, s) in
  Timer_CallBack (fun s => alarm_timer (the_sys s)) AlarmTimer (u32 r) Alarm_CallBack s.

Definition handler_ (d : device) s : res state :=
  match d with
  | AlarmTimer => Alarm_timer_CallBack s
  | Keyboard => ConsoleInput_CallBack s
  | Display => ConsoleOutput_CallBack s
  | DiskDrive => Disk_CallBack s
  | NetworkIn => NetworkInput_CallBack s
  | NetworkOut => NetworkOutput_CallBack s
  end.

#[global] Instance nachos : Client device code (Sys N) := {|
  handler := handler_; ustep := ustep_; shutdown := delete_Kernel |}.

(** *** The start *)

(** [new Thread("main")], which is the one that runs. *)
Definition new_main_thread (calls : frames) s : state :=
  let '(currentThread, s) := new_Thread [109; 97; 105; 110] 0 s in
  Threads.setStatus currentThread RUNNING
    (on_kern (fun k => set_current (set_stacks k (<[currentThread := calls]> (stacks k))) currentThread) s).

(** [new Alarm(randomSlice)]: the first delay may be a random one. *)
Definition new_Alarm (doRandom : bool) s : res state :=
  let '(r, s) := if doRandom
                 then let '(r, n) := RandomNumber (StubFS.net (the_fs s)) in (r, put_net n s)
                 else (0, s) in
  '(_, s) ← new_Timer doRandom AlarmTimer (u32 r) s; Ok s.

Definition new_FileSystem s : res state :=
  f ← StubFS.new_FileSystem pointer_junk (StubFS.host (the_fs s)) (StubFS.net (the_fs s)); Ok (put_fs f s).

(** [kernel] before [Initialize]. *)
Definition new_Kernel (o : options) (h : Unix.Host) (n : N) : state :=
  let hdr := mkPacketHeader 0 0 0 in
  let y := mkSys (mkTimer (randomSlice o) false) (mkSynchIn (mkConsoleInput 0 EOF) 1%positive 1%positive)
    (mkSynchOut (mkConsoleOutput 1 false) 1%positive 1%positive) (StubFS.mkFS h n ∅ ∅ ∅ [] 1%positive)
    (mkPTable 0 (Bitmap.mkBitmap 0 0 []) [] 1%positive) (mkSTable (Bitmap.mkBitmap 0 0 []) []) ∅ (host_name o)
    (mkSynchDisk (Disk.mkDisk (UnixFile.mkUFile [] 0) false 0 0) 0 1%positive 1%positive)
    (mkPostIn (mkNetworkInput 0 false hdr []) [] 1%positive) (mkPostOut (mkNetworkOutput 0 0%Q false) 1%positive 1%positive)
    ∅ ∅ ∅ (SelfTests.mkGlobals 1%positive 1%positive 1%positive 1%positive []) in
  mkSim new_Interrupt new_Statistics None
    (mkWorld (mkKern ∅ ∅ 1%positive Lists.new_List None ∅ ∅ ∅ ∅ 1%positive) y).

(** [calls] is what the main thread does next; it first enables interrupts. *)
Definition Initialize (o : options) (calls : frames) s : res state :=
  let s := new_main_thread (SetLevelTo IntOn :: calls) s in
  s ← new_Alarm (randomSlice o) s;
  m ← Machine.new_Machine word_junk 0 (debugUserProg o);
  let s := set_machine m s in
  s ← new_SynchConsoleInput (consoleIn o) s;
  s ← new_SynchConsoleOutput (consoleOut o) s;
  s ← new_SynchDisk s;
  s ← new_FileSystem s;
  let junk n := map byte_junk (seq 0 n) in
  s ← new_PostOfficeInput packet_junk (junk (Z.to_nat MaxPacketSize)) (junk (Z.to_nat MaxPacketSize)) 10 s;
  s ← new_PostOfficeOutput (reliability o) s;
  s ← new_PTable word_junk pointer_junk MAX_PROCESS s;
  new_STable word_junk sem_junk s.

(** *** From the command line *)

(** The flags of [Kernel::Kernel], from the second element of [argv]; [n] is the
    state of the random numbers. *)
Fixpoint Kernel_args (args : Datatypes.list Unix.path) (o : options) (n : N) : res (options * N) :=
  match args with
  | [] => Ok (o, n)
  | arg :: rest =>
      if bool_decide (arg = flag_rs) then
        match rest with
        | x :: rest => Kernel_args rest (mkOptions true (debugUserProg o) (consoleIn o) (consoleOut o) (reliability o) (host_name o))
                         (RandomInit (u32 (atoi x)) n)
        | [] => Fault AssertFailed
        end
      else if bool_decide (arg = flag_s) then
        Kernel_args rest (mkOptions (randomSlice o) true (consoleIn o) (consoleOut o) (reliability o) (host_name o)) n
      else if bool_decide (arg = flag_ci) then
        match rest with
        | x :: rest => Kernel_args rest (mkOptions (randomSlice o) (debugUserProg o) (Some x) (consoleOut o) (reliability o) (host_name o)) n
        | [] => Fault AssertFailed
        end
      else if bool_decide (arg = flag_co) then
        match rest with
        | x :: rest => Kernel_args rest (mkOptions (randomSlice o) (debugUserProg o) (consoleIn o) (Some x) (reliability o) (host_name o)) n
        | [] => Fault AssertFailed
        end
      else if bool_decide (arg = flag_n) then
        match rest with
        | x :: rest => Kernel_args rest (mkOptions (randomSlice o) (debugUserProg o) (consoleIn o) (consoleOut o) (atof x) (host_name o)) n
        | [] => Fault AssertFailed
        end
      else if bool_decide (arg = flag_m) then
        match rest with
        | x :: rest => Kernel_args rest (mkOptions (randomSlice o) (debugUserProg o) (consoleIn o) (consoleOut o) (reliability o) (atoi x)) n
        | [] => Fault AssertFailed
        end
      else Kernel_args rest o n
  end.

(** [main]: its own flags, then the kernel, its tests and the user program. *)
Definition main (argv : Datatypes.list Unix.path) (h : Unix.Host) (n : N) : res state :=
  w ← main_args (tail argv) (mkWork None [] false false false);
  '(o, n) ← Kernel_args (tail argv) default_options n;
  Initialize o (main_calls w) (new_Kernel o h n).
End code.
End Nachos.
