(* ===== verification/UserSpaces.v ===== *)
(** Processes do not share memory: which pieces of the kernel use the machine,
    and that each keeps to the rules of [Spaces]. *)

From S2P Require Import Prelude Bitmap Lists Machine Mips Interrupt Disk HostFS AddrSpace Isolation Threads Synch Kernel Spaces SelfTests System Console Network Process SysCall Nachos.
Import Stats Interrupt Isolation Threads Synch Kernel Spaces System Console Network Process SysCall Nachos.

Module UserSpaces.

(** The pieces that read or write registers or user memory, and those that load a
    program. *)
#[export] Instance code_needs : Needs code := fun u =>
  match u with
  | RunUser | ExceptionHandler _ | Read_loop _ _ _ | Read_got _ _ _ | Write_loop _ _ _ | Write_done _
  | Exec_done _ | SetResult | Exit_done | PCIncrease => Uses
  | RunProcess _ | Main _ _ => Starts
  | _ => Plain
  end.

Section ops.
Context {N : Type} `{Outside N} `{TCP N} `{Garbage}.
Abbreviation state := (Sim device (World code (Sys N))).
Abbreviation frames := (Datatypes.list (instr code)).
Implicit Types (s : state).

(** *** Pieces that leave the machine alone *)

Lemma Schedule_quiet c t k s : post (Schedule c t k s) (quiet s).
Proof.
  unfold Schedule. apply post_any. intros _ _. apply post_any. intros p _. by apply quiet_eq.
Qed.
Lemma on_fs_quiet {A} (op : StubFS.FS N -> res (A * StubFS.FS N)) s : post (on_fs op s) (fun '(_, s') => quiet s s').
Proof. unfold on_fs. repeat quiet_step. quieting. Qed.
#[local] Hint Resolve Schedule_quiet on_fs_quiet : quiet.

Lemma new_Semaphore_quiet v s : quiet s (new_Semaphore v s).2.
Proof. unfold new_Semaphore. simpl. quieting. Qed.
Lemma new_PCB_quiet a b s : quiet s (new_PCB a b s).2.
Proof.
  unfold new_PCB. pose proof (new_Semaphore_quiet 0 s) as K1. destruct (new_Semaphore 0 s) as [p1 s1].
  pose proof (new_Semaphore_quiet 0 s1) as K2. destruct (new_Semaphore 0 s1) as [p2 s2].
  pose proof (new_Semaphore_quiet 1 s2) as K3. destruct (new_Semaphore 1 s2) as [p3 s3]. cbn [snd] in *.
  apply (quiet_trans _ s3); [|by apply quiet_eq]. apply (quiet_trans _ s2); [|done]. by apply (quiet_trans _ s1).
Qed.

Ltac run_quiet :=
  match goal with
  | |- post (let '(_, _) := new_PCB ?a ?b ?s in _) _ =>
      let K := fresh in pose proof (new_PCB_quiet a b s) as K; destruct (new_PCB a b s); cbn [snd] in K
  | |- post (let '(_, _) := new_Semaphore ?a ?s in _) _ =>
      let K := fresh in pose proof (new_Semaphore_quiet a s) as K; destruct (new_Semaphore a s); cbn [snd] in K
  | |- _ => quiet_step
  end; cbn beta iota zeta in *.

(** *** Devices *)

Lemma PollFile_quiet fd s : post (PollFile fd s) (fun '(_, s') => quiet s s').
Proof. unfold PollFile. repeat quiet_step; quieting. Qed.
Lemma ReadChar_quiet fd s : post (ReadChar fd s) (fun '(_, s') => quiet s s').
Proof. unfold ReadChar. repeat quiet_step; quieting. Qed.
Lemma WriteChar_quiet fd c s : post (WriteChar fd c s) (quiet s).
Proof. unfold WriteChar. repeat quiet_step; quieting. Qed.
#[local] Hint Resolve PollFile_quiet ReadChar_quiet WriteChar_quiet : quiet.
Lemma ConsoleInput_GetChar_quiet s : post (ConsoleInput_GetChar s) (fun '(_, s') => quiet s s').
Proof. unfold ConsoleInput_GetChar. destruct (negb _); repeat quiet_step; quieting. Qed.
Lemma ConsoleOutput_PutChar_quiet c s : post (ConsoleOutput_PutChar c s) (quiet s).
Proof. unfold ConsoleOutput_PutChar. repeat quiet_step. quieting. Qed.
Lemma ReadFromSocket_quiet k n s : post (ReadFromSocket k n s) (fun '(_, s') => quiet s s').
Proof. unfold ReadFromSocket. destruct (recvfrom _ _ _). repeat quiet_step. quieting. Qed.
Lemma SendToSocket_quiet k bs nm s : post (SendToSocket k bs nm s) (quiet s).
Proof.
  unfold SendToSocket. eapply post_bind_mono.
  - apply (post_for_return (quiet s) (quiet s)); [apply quiet_refl|]. intros j t Ht. repeat quiet_step; quieting.
  - intros [t|t]; done.
Qed.
#[local] Hint Resolve ReadFromSocket_quiet SendToSocket_quiet : quiet.
Lemma NetworkOutput_Send_quiet junk h bs s : post (NetworkOutput_Send junk h bs s) (quiet s).
Proof. unfold NetworkOutput_Send. repeat quiet_step; quieting. Qed.
Lemma ReadRequest_quiet n d s : post (Disk.ReadRequest DiskDrive n d s) (fun '(_, s') => quiet s s').
Proof. unfold Disk.ReadRequest. repeat quiet_step. quieting. Qed.
Lemma WriteRequest_quiet n bs d s : post (Disk.WriteRequest DiskDrive n bs d s) (fun '(_, s') => quiet s s').
Proof. unfold Disk.WriteRequest. repeat quiet_step; quieting. Qed.
#[local] Hint Resolve ConsoleInput_GetChar_quiet ConsoleOutput_PutChar_quiet NetworkOutput_Send_quiet
  ReadRequest_quiet WriteRequest_quiet : quiet.

#[local] Hint Resolve V_in_handler_quiet : quiet.

Lemma Alarm_quiet s : post (Alarm_timer_CallBack s) (quiet s).
Proof.
  unfold Alarm_timer_CallBack, Timer_CallBack, SetInterrupt, Alarm_CallBack, YieldOnReturn.
  destruct (randomize _ && _); [destruct (RandomNumber _)|]; cbn beta iota zeta; repeat quiet_step; quieting.
Qed.

(** Every interrupt handler. *)
Lemma handler_is_quiet d s : post (handler_ d s) (quiet s).
Proof.
  destruct d; cbn [handler_]; [apply Alarm_quiet|..];
    unfold ConsoleInput_CallBack, SynchIn_CallBack, ConsoleOutput_CallBack, SynchOut_CallBack, Disk_CallBack,
      Disk.CallBack, SynchDisk_CallBack, NetworkInput_CallBack, PostIn_CallBack, NetworkOutput_CallBack, PostOut_CallBack;
    repeat quiet_step; quieting.
Qed.

(** *** Processes and mail *)

Lemma copy_string_quiet p s : post (copy_string p s) (fun '(_, s') => quiet s s').
Proof. unfold copy_string. repeat quiet_step. quieting. Qed.
Lemma set_pcb_quiet i p s : post (set_pcb i p s) (quiet s).
Proof. unfold set_pcb. repeat quiet_step. quieting. Qed.
Lemma SetExitCode_quiet p ec s : post (SetExitCode p ec s) (quiet s).
Proof. unfold SetExitCode. repeat quiet_step. quieting. Qed.
Lemma STable_FindFreeSlot_quiet s : post (STable_FindFreeSlot s) (fun '(_, s') => quiet s s').
Proof. unfold STable_FindFreeSlot. repeat quiet_step. quieting. Qed.
Lemma new_Sem_quiet nm i s : post (new_Sem nm i s) (fun '(_, s') => quiet s s').
Proof.
  unfold new_Sem. pose proof (new_Semaphore_quiet i s) as K. destruct (new_Semaphore i s).
  destruct (_ <? _); [exact K|exact I].
Qed.
#[local] Hint Resolve copy_string_quiet set_pcb_quiet SetExitCode_quiet STable_FindFreeSlot_quiet new_Sem_quiet : quiet.
Lemma STable_Create_quiet nm i s : post (STable_Create nm i s) (fun '(_, s') => quiet s s').
Proof. unfold STable_Create. repeat quiet_step; quieting. Qed.
Lemma MailBox_got_quiet s : post (MailBox_got s) (fun '(_, s') => quiet s s').
Proof. unfold MailBox_got. repeat quiet_step. quieting. Qed.
Lemma new_Mail_quiet p m bs s : post (new_Mail p m bs s) (fun '(_, s') => quiet s s').
Proof. unfold new_Mail. repeat quiet_step. quieting. Qed.
#[local] Hint Resolve STable_Create_quiet MailBox_got_quiet new_Mail_quiet : quiet.

(** A piece that is quiet and makes calm calls. *)
Ltac calm_piece :=
  repeat run_quiet; try done; (split; [quieting|repeat constructor; done]).

Lemma console_calm s :
  calmly s (GetChar_ s) /\ calmly s (GetChar_got_ s) /\ (forall c, calmly s (PutChar_ c s)) /\
  (forall c, calmly s (PutChar_put_ c s)) /\ calmly s (ConsoleTest_ s) /\ calmly s (ConsoleTest_got_ s).
Proof.
  unfold GetChar_, GetChar_got_, PutChar_, PutChar_put_, ConsoleTest_, ConsoleTest_got_, calmly.
  split_and!; intros; calm_piece.
Qed.

Lemma network_calm s :
  (forall b, calmly s (PostalDelivery_ b s)) /\ (forall b, calmly s (PostalDelivery_got_ b s)) /\
  (forall b, calmly s (PostReceive_ b s)) /\ calmly s (PostReceive_got_ s) /\
  (forall p m d, calmly s (PostSend_ p m d s)) /\ (forall j p b, calmly s (PostSend_locked_ j p b s)) /\
  calmly s (NetworkTest_ s) /\ calmly s (NetworkTest_got_ s) /\ calmly s (NetworkTest_acked_ s) /\
  (forall n, calmly s (ReadSector_ n s)) /\ (forall n, calmly s (ReadSector_locked_ n s)) /\
  (forall n d, calmly s (WriteSector_ n d s)) /\ (forall n d, calmly s (WriteSector_locked_ n d s)).
Proof.
  unfold PostalDelivery_, PostalDelivery_got_, PostReceive_, PostReceive_got_, PostSend_, PostSend_locked_,
    NetworkTest_, NetworkTest_got_, NetworkTest_acked_, ReadSector_, ReadSector_locked_, WriteSector_,
    WriteSector_locked_, MailBox_Put, NetworkInput_Receive, calmly.
  split_and!; intros; calm_piece.
Qed.

Lemma process_calm s :
  (forall p c, calmly s (PCB_Exec_ p c s)) /\ (forall p c, calmly s (PCB_Exec_in_ p c s)) /\
  (forall p, calmly s (IncNumWait_ p s)) /\ (forall p, calmly s (IncNumWait_in_ p s)) /\
  (forall p, calmly s (DecNumWait_ p s)) /\ (forall p, calmly s (DecNumWait_in_ p s)) /\
  (forall c, calmly s (ExecUpdate_ c s)) /\ (forall c, calmly s (ExecUpdate_in_ c s)) /\
  (forall i c, calmly s (ExecUpdate_exec_ i c s)) /\ (forall i, calmly s (JoinUpdate_ i s)) /\
  (forall i, calmly s (JoinUpdate_joined_ i s)) /\ (forall i, calmly s (JoinUpdate_counted_ i s)) /\
  (forall i, calmly s (ExitUpdate_ i s)) /\ (forall i, calmly s (ExitUpdate_released_ i s)) /\
  (forall i, calmly s (ExitUpdate_counted_ i s)) /\ (forall nm, calmly s (STable_Wait_ nm s)) /\
  (forall nm, calmly s (STable_Signal_ nm s)).
Proof.
  unfold PCB_Exec_, PCB_Exec_in_, IncNumWait_, IncNumWait_in_, DecNumWait_, DecNumWait_in_, ExecUpdate_,
    ExecUpdate_in_, ExecUpdate_exec_, JoinUpdate_, JoinUpdate_joined_, JoinUpdate_counted_, ExitUpdate_,
    ExitUpdate_released_, ExitUpdate_counted_, STable_Wait_, STable_Signal_, JoinWait, ExitWait, JoinRelease,
    ExitRelease, Sem_wait, Sem_signal, calmly.
  split_and!; intros; calm_piece.
Qed.

(** *** Pieces that run in the space of the thread *)

Lemma WriteRegister_within r v s : post (WriteRegister r v s) (within s).
Proof.
  unfold WriteRegister. eapply post_bind_mono; [apply the_machine_is|]. intros m E.
  eapply post_bind_mono; [apply WriteRegister_moves|]. intros m' Hm. by apply (set_machine_within s m).
Qed.

(** The handler of a fault in the kernel does not return. *)
Lemma in_kernel_moves which m k :
  post (Machine.ExceptionHandler (Kernel := in_kernel) which m k) (fun '(m', _) => moves m m').
Proof. exact I. Qed.
#[local] Hint Resolve in_kernel_moves : core.

Lemma ReadMem_within addr s : post (ReadMem addr s) (fun '(_, s') => within s s').
Proof.
  unfold ReadMem. eapply post_bind_mono; [apply the_machine_is|]. intros m E.
  eapply post_bind_mono; [apply ReadMem_moves; [done|apply access_sizes]|]. intros [[[v|] m'] k] Hm; [|exact I].
  by apply (set_machine_within s m).
Qed.
Lemma WriteMem_within addr v s : post (WriteMem addr v s) (within s).
Proof.
  unfold WriteMem. eapply post_bind_mono; [apply the_machine_is|]. intros m E.
  eapply post_bind_mono; [apply WriteMem_moves; [done|apply access_sizes]|]. intros [[b m'] k] Hm.
  by apply (set_machine_within s m).
Qed.
#[local] Hint Resolve WriteRegister_within ReadMem_within WriteMem_within : within.

Lemma User2System_within a n s : post (User2System a n s) (fun '(_, s') => within s s').
Proof.
  unfold User2System. apply post_any. intros buf _. eapply post_bind_mono.
  - apply (post_for_return (fun '(_, s') => within s s') (fun '(_, s') => within s s')); [apply within_refl|].
    intros j [b t] Ht. repeat within_step; within_.
  - intros [[]|[]] Hs; exact Hs.
Qed.
Lemma System2User_within a n bs s : post (System2User a n bs s) (fun '(_, s') => within s s').
Proof.
  unfold System2User. destruct (n <? 0); [apply within_refl|]. destruct (n =? 0); [apply within_refl|].
  eapply post_bind_mono.
  - apply (post_for_return (within s) (fun '(_, s') => within s s')); [apply within_refl|].
    intros j t Ht. repeat within_step; within_.
  - intros [|[]] Hs; exact Hs.
Qed.
#[local] Hint Resolve User2System_within System2User_within : within.

(** A piece of code of a thread that runs in its space. *)
Definition safely s (r : res (frames * state)) : Prop :=
  post r (fun '(calls, s') => within s s' /\ Forall safe_call calls).

(** Goals of the form [safely s r]. *)
Ltac safe_end :=
  repeat match goal with K : within _ _ /\ Forall safe_call _ |- _ => destruct K end;
  try done; (split; [within_|]);
  repeat first [assumption | apply Forall_nil | apply Forall_cons_2 | apply Forall_app_2]; first [discriminate | done].
Ltac safe_piece := unfold safely; repeat within_step; safe_end.

Lemma PCIncrease_safe s : safely s (PCIncrease_ s).
Proof. unfold PCIncrease_. safe_piece. Qed.
#[local] Hint Extern 1 (post (PCIncrease_ _) _) => apply PCIncrease_safe : within.
Lemma return_safe r s : safely s (return_to_user r s).
Proof. unfold return_to_user. safe_piece. Qed.
#[local] Hint Extern 1 (post (return_to_user _ _) _) => apply return_safe : within.

Lemma on_fs_within {A} (op : StubFS.FS N -> res (A * StubFS.FS N)) s :
  post (SysCall.on_fs op s) (fun '(_, s') => within s s').
Proof. unfold SysCall.on_fs. repeat within_step. within_. Qed.
Lemma receive_safe id a n s : safely s (receive id a n s).
Proof. unfold receive. safe_piece. Qed.
#[local] Hint Resolve on_fs_within : within.
#[local] Hint Extern 1 (post (receive _ _ _ _) _) => apply receive_safe : within.

Lemma Read_end_safe a n tmp s : safely s (Read_end a n tmp s).
Proof. unfold Read_end. safe_piece. Qed.
#[local] Hint Extern 1 (post (Read_end _ _ _ _) _) => apply Read_end_safe : within.

(** The system calls on files. *)
Lemma file_calls_safe s :
  safely s (handle_SC_Add s) /\ safely s (handle_SC_Create s) /\ safely s (handle_SC_Open s) /\
  safely s (handle_SC_Close s) /\ safely s (handle_SC_Read s) /\ safely s (handle_SC_Write s) /\
  safely s (handle_SC_Seek s) /\ safely s (handle_SC_Remove s).
Proof.
  unfold handle_SC_Add, handle_SC_Create, handle_SC_Open, handle_SC_Close, handle_SC_Read, handle_SC_Write,
    handle_SC_Seek, handle_SC_Remove.
  split_and!; safe_piece.
Qed.

(** The other system calls. *)
Lemma ExecV_safe s : safely s (handle_SC_ExecV s).
Proof.
  unfold handle_SC_ExecV, safely. do 3 (apply post_any; intros ? _). eapply post_bind_mono.
  - apply (post_for_range (fun '(_, _, s') => within s s')); [apply within_refl|].
    intros j [[a args] t] Ht. repeat within_step. within_.
  - intros [[a args] t] Ht. safe_end.
Qed.

Lemma other_calls_safe s :
  safely s (handle_SC_SocketTCP_Open s) /\ safely s (handle_SC_SocketTCP_Connect s) /\
  safely s (handle_SC_SocketTCP_Send s) /\ safely s (handle_SC_SocketTCP_Receive s) /\
  safely s (handle_SC_SocketTCP_Close s) /\ safely s (handle_SC_Exec s) /\ safely s (handle_SC_ExecV s) /\
  safely s (handle_SC_Join s) /\ safely s (handle_SC_Exit s) /\ safely s (handle_SC_Wait s) /\
  safely s (handle_SC_Signal s) /\ safely s (handle_SC_CreateSemaphore s).
Proof.
  unfold handle_SC_SocketTCP_Open, handle_SC_SocketTCP_Connect, handle_SC_SocketTCP_Send,
    handle_SC_SocketTCP_Receive, handle_SC_SocketTCP_Close, handle_SC_Exec, handle_SC_Join,
    handle_SC_Exit, handle_SC_Wait, handle_SC_Signal, handle_SC_CreateSemaphore.
  split_and!; try apply ExecV_safe; safe_piece.
Qed.

Lemma SysHalt_safe s : safely s (SysHalt s).
Proof. unfold SysHalt. safe_piece. Qed.
#[local] Hint Extern 1 (post (SysHalt _) _) => apply SysHalt_safe : within.

(** The calls cut where they sleep. *)
Lemma resumed_calls_safe s :
  (forall a n tmp, safely s (Read_loop_ a n tmp s)) /\ (forall a n tmp, safely s (Read_got_ a n tmp s)) /\
  (forall n b i, safely s (Write_loop_ n b i s)) /\ (forall i, safely s (Write_done_ i s)) /\
  (forall nm, safely s (Exec_done_ nm s)) /\ safely s (SetResult_ s) /\ safely s (Exit_done_ s).
Proof.
  unfold Read_loop_, Read_got_, Write_loop_, Write_done_, Exec_done_, SetResult_, Exit_done_.
  split_and!; intros; safe_piece.
Qed.

Lemma syscall_safe type s : safely s (syscall type s).
Proof.
  destruct (file_calls_safe s) as (?&?&?&?&?&?&?&?).
  destruct (other_calls_safe s) as (?&?&?&?&?&?&?&?&?&?&?&?).
  unfold syscall. destruct (type =? SC_Halt); [by apply post_any; intros [] _|].
  repeat (destruct (type =? _); [assumption|]). exact I.
Qed.

Lemma ExceptionHandler_safe which s : safely s (ExceptionHandler_ which s).
Proof. unfold ExceptionHandler_, safely. apply post_any. intros type _. destruct which; try exact I. apply syscall_safe. Qed.

(** One instruction of the user program. *)
Lemma recorder_moves which m k :
  post (Machine.ExceptionHandler (Kernel := recorder) which m k) (fun '(m', _) => moves m m').
Proof. apply moves_refl. Qed.
Lemma RunUser_safe s : safely s (RunUser_ s).
Proof.
  unfold RunUser_, safely. eapply post_bind_mono; [apply the_machine_is|]. intros m E.
  eapply post_bind_mono; [apply OneInstruction_moves, recorder_moves|]. intros [m' trap] Hm.
  pose proof (set_machine_within s m m' E Hm) as K. destruct trap; safe_end.
Qed.

(** *** Pieces that give the thread a space *)

Lemma InitRegisters_regs a m : post (AddrSpace.InitRegisters a m) (regs m).
Proof.
  unfold AddrSpace.InitRegisters. eapply post_bind_mono.
  { apply (post_for_range (regs m)); [apply regs_refl|]. intros j t Ht.
    eapply post_mono; [apply WriteRegister_regs|]. intros t' Ht'. moving. }
  intros m1 K1. do 2 (eapply post_bind_mono; [apply WriteRegister_regs|]; intros ? ?).
  do 2 (apply post_any; intros ? _; eapply post_bind_mono; [apply WriteRegister_regs|]; intros ? ?).
  apply post_any. intros ? _. eapply post_mono; [apply WriteRegister_regs|]. intros ? ?. moving.
Qed.

(** Giving the thread a space, again if it has one. *)
Lemma space_profiles t a s :
  profiles (set_thread t (with_space (Some a)) s) = alter (fun p => (Some a, p.2)) t (profiles s).
Proof.
  unfold profiles. cbn. apply map_eq. intros t'. rewrite lookup_fmap. destruct (decide (t = t')) as [->|Hn].
  - rewrite !lookup_alter_eq, lookup_fmap. by destruct (threads (the_kern s) !! t').
  - by rewrite !lookup_alter_ne, lookup_fmap.
Qed.
Lemma space_again (t : ptr) (a a' : AddrSpace.AddrSpace) (p : gmap ptr (option AddrSpace.AddrSpace * Datatypes.list Z)) :
  alter (fun p => (Some a, p.2)) t (alter (fun p => (Some a', p.2)) t p) = alter (fun p => (Some a, p.2)) t p.
Proof.
  apply map_eq. intros t'. destruct (decide (t = t')) as [->|Hn]; [|by rewrite !lookup_alter_ne].
  rewrite !lookup_alter_eq. by destruct (p !! t').
Qed.

(** [Execute] on the space that was just loaded, at a state [s1] later than [s]. *)
Lemma Execute_gives s s1 m l a m1 fr :
  stacks (the_kern s1) = stacks (the_kern s) -> cur s1 = cur s ->
  alter (fun p => (Some a, p.2)) (cur s) (profiles s1) = alter (fun p => (Some a, p.2)) (cur s) (profiles s) ->
  machine s1 = Some m1 -> zlen (Machine.mainMemory m) = Machine.MemorySize -> Machine.tlb m = None ->
  length (Machine.registers m) = Z.to_nat Machine.NumTotalRegs ->
  loaded a fr -> AddrSpace.fresh_frames fr l -> Bitmap.rep (Machine.pageTableMap m1) (AddrSpace.taken fr l) ->
  outside fr (Machine.mainMemory m) (Machine.mainMemory m1) -> same_cpu m m1 ->
  post (Execute a s1) (fun '(calls, s') => starts s s' m l calls).
Proof.
  intros Es Ec Ep E1 Hmem Ht Hreg Hl Hff Hr HO (R1 & R2 & _ & _). unfold Execute, the_machine.
  cbn [set_thread on_kern machine]. rewrite E1, bind_Ok. unfold AddrSpace.Execute. apply post_bind.
  eapply post_bind_mono; [apply InitRegisters_regs|]. intros m2 (L2 & M2 & B2 & T2 & _ & _).
  destruct (RestoreState_runs a fr m2 Hl) as (m3 & -> & Hrun & M3 & R3 & B3 & _).
  { rewrite M2. unfold zlen in *. destruct HO as [-> _]. done. }
  { by rewrite T2, R2. }
  split; [done|]. split; [done|]. exists a, m3. split; [|split; [done|right]].
  { rewrite <- Ep, <- Ec. apply space_profiles. }
  exists fr. split_and!; try done; [by rewrite B3, B2|by rewrite M3, M2|by rewrite R3, L2, R1|].
  by repeat constructor.
Qed.

(** [Load], on the state. *)
Lemma Load_state nm args s m l : machine s = Some m -> zlen (Machine.mainMemory m) = Machine.MemorySize ->
  Bitmap.rep (Machine.pageTableMap m) l -> zlen l = Machine.NumPhysPages ->
  post (Load nm args AddrSpace.new_AddrSpace s) (fun '(ok, a, s') =>
    the_kern s' = the_kern s /\ exists m', machine s' = Some m' /\
    if (ok : bool) then exists fr, loaded a fr /\ AddrSpace.fresh_frames fr l /\
      Bitmap.rep (Machine.pageTableMap m') (AddrSpace.taken fr l) /\
      outside fr (Machine.mainMemory m) (Machine.mainMemory m') /\ same_cpu m m'
    else a = AddrSpace.new_AddrSpace /\ m' = m).
Proof.
  intros Em Hm Hr Hl. unfold Load, the_machine. rewrite Em, bind_Ok.
  eapply post_bind_mono; [by apply Load_frames|]. intros [[[ok a] m'] f] HL. split; [done|]. by exists m'.
Qed.

Section starting.
Context (s : state) (m : Machine.Machine) (l : Datatypes.list bool) (Em : machine s = Some m)
  (Hmem : zlen (Machine.mainMemory m) = Machine.MemorySize) (Ht : Machine.tlb m = None)
  (Hreg : length (Machine.registers m) = Z.to_nat Machine.NumTotalRegs)
  (Hr : Bitmap.rep (Machine.pageTableMap m) l) (Hl : zlen l = Machine.NumPhysPages).

Lemma RunProcess_starts arg : post (RunProcess_ arg s) (fun '(calls, s') => starts s s' m l calls).
Proof.
  unfold RunProcess_. apply post_any. intros [nm|] _; [|done].
  set (s1 := set_thread _ _ s). eapply post_bind_mono; [by apply (Load_state nm (argv arg) s1 m l)|].
  assert (E1 : profiles s1 = alter (fun p => (Some AddrSpace.new_AddrSpace, p.2)) (cur s) (profiles s)) by apply space_profiles.
  intros [[[] a] s2] (Ek & m2 & E2 & HL); cbn [negb].
  - destruct HL as (fr & ?&?&?&?&?). apply (Execute_gives s s2 m l a m2 fr); try done.
    + by rewrite Ek.
    + unfold cur. by rewrite Ek.
    + unfold profiles at 1. rewrite Ek. change (threads (the_kern s1)) with (threads (the_kern s1)).
      fold (profiles s1). rewrite E1. apply space_again.
  - destruct HL as [-> ->]. split; [by rewrite Ek|]. split; [unfold cur; by rewrite Ek|].
    exists AddrSpace.new_AddrSpace, m. split; [|split; [done|by left]]. unfold profiles at 1. rewrite Ek. exact E1.
Qed.

Lemma Main_starts nm args : post (Main_ nm args s) (fun '(calls, s') => starts s s' m l calls).
Proof.
  unfold Main_, SysHalt. destruct nm as [nm|]; [|done]. destruct (StubFS.new_chars _ _) as [p f].
  destruct (foldl _ _ _) as [argv f']. eapply post_bind_mono; [by apply (Load_state p argv (put_fs f' s) m l)|].
  intros [[[] a] s2] (Ek & m2 & E2 & HL); [|done].
  destruct HL as (fr & ?&?&?&?&?). apply (Execute_gives s s2 m l a m2 fr); try done.
  - by rewrite Ek.
  - unfold cur. by rewrite Ek.
  - unfold profiles at 1. by rewrite Ek.
Qed.
End starting.

(** *** The client *)

Lemma tests_calm p s : calmly s (SelfTests.ustep_ p s).
Proof.
  apply post_intro. intros [calls s'] E. split.
  - destruct (SelfTests.ustep_plain p s s' calls E) as [_ [-> |[g ->]]]; [apply quiet_refl|by apply quiet_eq].
  - destruct p; cbn [SelfTests.ustep_] in E;
      unfold SelfTests.SimpleThread_, SelfTests.Thread_SelfTest_, SelfTests.SelfTestHelper_,
        SelfTests.Semaphore_SelfTest_, SelfTests.Semaphore_pinged_, SelfTests.Semaphore_loop_, SelfTests.ListHelper_,
        SelfTests.ListHelper_got_, SelfTests.SynchList_SelfTest_, SelfTests.SynchList_pinged_,
        SelfTests.SynchList_loop_, SelfTests.SynchList_got_, SelfTests.ThreadSelfTest_, SelfTests.ThreadSelfTest_sem_,
        SelfTests.ThreadSelfTest_list_ in E;
      repeat match type of E with
      | rbind _ _ = Ok _ => let x := fresh in let Ex := fresh in apply bind_Ok_inv in E as (x & Ex & E)
      | (if ?b then _ else _) = _ => destruct b
      end; injection E as <- _; repeat constructor; done.
Qed.

Lemma plain_code u s : needs u = Plain -> calmly s (ustep u s).
Proof.
  destruct (console_calm s) as (?&?&?&?&?&?). destruct (network_calm s) as (?&?&?&?&?&?&?&?&?&?&?&?&?).
  destruct (process_calm s) as (?&?&?&?&?&?&?&?&?&?&?&?&?&?&?&?&?).
  destruct u; try done; intros _; cbn [ustep nachos ustep_]; first [by auto | apply tests_calm | idtac].
  split; [quieting|constructor].
Qed.

Lemma uses_code u s : needs u = Uses -> safely s (ustep u s).
Proof.
  destruct (resumed_calls_safe s) as (?&?&?&?&?&?&?).
  destruct u; try done; intros _; cbn [ustep nachos ustep_]; first [by auto | apply RunUser_safe
    | apply ExceptionHandler_safe | apply PCIncrease_safe].
Qed.

#[export] Instance nachos_spaces : SpaceLaws device code (Sys N).
Proof.
  constructor.
  - intros d s. apply handler_is_quiet.
  - intros u s. apply plain_code.
  - intros u s. apply uses_code.
  - intros u s m l Hu Em Hmem Ht Hreg Hr Hl. destruct u; try done; [by apply RunProcess_starts|by apply Main_starts].
Qed.
End ops.
End UserSpaces.
