(* ===== verification/Safety.v ===== *)
(** The whole kernel keeps the rules of the thread machine: what the functions
    of [Console], [Network], [Process], [SysCall] and [Nachos] leave as it was,
    that the start makes a well-formed kernel, and so that everything [Kernel]
    proves holds of every run of the system. *)

From stdpp Require Import relations.
From S2P Require Import Prelude Bitmap Lists Machine Mips Interrupt Disk HostFS AddrSpace Threads Synch Kernel SelfTests System Console Network Process SysCall Nachos.
Import Stats Interrupt Threads Synch Kernel System Console Network Process SysCall Nachos.

Module Safety.

Section frame.
Context {N : Type}.
Abbreviation state := (Sim device (World code (Sys N))).
Implicit Types (s : state).

(** Nothing of the kernel changes, nor the state of interrupts. *)
Definition still s s' : Prop :=
  the_kern s' = the_kern s /\ level (interrupt s') = level (interrupt s) /\
  inHandler (interrupt s') = inHandler (interrupt s).

(** Only what client code may change does. *)
Definition keeps s s' : Prop := touch s s' /\ level (interrupt s') = level (interrupt s).

Lemma still_refl s : still s s.
Proof. done. Qed.
Lemma still_trans s1 s2 s3 : still s1 s2 -> still s2 s3 -> still s1 s3.
Proof. unfold still. intuition congruence. Qed.
Lemma keeps_refl s : keeps s s.
Proof. split; [by apply touch_same|done]. Qed.
Lemma keeps_trans s1 s2 s3 : keeps s1 s2 -> keeps s2 s3 -> keeps s1 s3.
Proof. intros [T1 L1] [T2 L2]. split; [by eapply touch_trans|congruence]. Qed.
Lemma still_keeps s s' : still s s' -> keeps s s'.
Proof. intros (E & L & I). split; [by apply touch_same|done]. Qed.

(** *** State functions *)

Lemma set_machine_still m s : still s (set_machine m s). Proof. done. Qed.
Lemma on_sys_still f s : still s (on_sys f s). Proof. done. Qed.
Lemma put_fs_still f s : still s (put_fs f s). Proof. done. Qed.
Lemma put_net_still n s : still s (put_net n s). Proof. done. Qed.
Lemma put_pcb_still p x s : still s (put_pcb p x s). Proof. done. Qed.
Lemma set_bm_still b s : still s (set_bm b s). Proof. done. Qed.
Lemma with_stats_still st s : still s (with_stats s st). Proof. done. Qed.
Lemma setStatus_still st s : still s (Interrupt.setStatus st s). Proof. done. Qed.
Lemma set_incoming_still c s : still s (set_incoming c s). Proof. done. Qed.
Lemma set_putBusy_still b s : still s (set_putBusy b s). Proof. done. Qed.
Lemma on_host_still f s : still s (on_host f s). Proof. done. Qed.
Lemma set_input_still i s : still s (set_input i s). Proof. done. Qed.
Lemma set_output_still o s : still s (set_output o s). Proof. done. Qed.
Lemma put_disk_still d s : still s (put_disk d s). Proof. done. Qed.

Lemma touch_keeps s s' : touch s s' -> level (interrupt s') = level (interrupt s) -> keeps s s'.
Proof. by split. Qed.

Lemma return_keeps r s : keeps s (return_ r s).
Proof. apply touch_keeps; [apply touch_return|done]. Qed.

Lemma with_space_keeps t a s : keeps s (set_thread t (with_space a) s).
Proof. split; [|done]. constructor; try done; [|by left]. eapply same_threads_alter; [|done]. done. Qed.

Lemma new_Semaphore_keeps v s : keeps s (new_Semaphore v s).2.
Proof. apply touch_keeps; [apply touch_new_Semaphore|done]. Qed.

Lemma new_Lock_keeps s : keeps s (new_Lock s).2.
Proof. apply touch_keeps; [apply touch_new_Lock|done]. Qed.
Lemma new_SynchList_keeps s : keeps s (new_SynchList s).2.
Proof. apply touch_keeps; [apply touch_new_SynchList|done]. Qed.

Lemma new_PCB_keeps a b s : keeps s (new_PCB a b s).2.
Proof.
  unfold new_PCB. pose proof (new_Semaphore_keeps 0 s) as K1. destruct (new_Semaphore 0 s) as [p1 s1].
  pose proof (new_Semaphore_keeps 0 s1) as K2. destruct (new_Semaphore 0 s1) as [p2 s2].
  pose proof (new_Semaphore_keeps 1 s2) as K3. destruct (new_Semaphore 1 s2) as [p3 s3]. cbn [snd] in *.
  apply (keeps_trans _ s3); [|apply still_keeps, on_sys_still].
  apply (keeps_trans _ s2); [|done]. by apply (keeps_trans _ s1).
Qed.

Lemma Schedule_still c t k s : post (Schedule c t k s) (still s).
Proof.
  apply post_intro. intros s' E. destruct (Schedule_frame _ _ _ _ _ E) as (R & L & I).
  unfold still, the_kern. by rewrite R.
Qed.
End frame.
Create HintDb frame.
#[export] Hint Resolve set_machine_still on_sys_still put_fs_still put_net_still put_pcb_still set_bm_still
  with_stats_still setStatus_still set_incoming_still set_putBusy_still on_host_still set_input_still
  set_output_still put_disk_still : frame.
#[export] Hint Resolve return_keeps with_space_keeps new_Semaphore_keeps new_PCB_keeps Schedule_still : frame.

(** Goals of the form [still s s'] and [keeps s s'], by the steps from [s] to [s']. *)
Ltac frame :=
  cbn beta iota in *;
  match goal with
  | |- still ?s ?s => apply still_refl
  | |- keeps ?s ?s => apply keeps_refl
  | |- _ => done
  | H : still ?s1 ?s2 |- still ?s0 ?s2 => apply (still_trans s0 s1 s2); [frame|exact H]
  | H : keeps ?s1 ?s2 |- keeps ?s0 ?s2 => apply (keeps_trans s0 s1 s2); [frame|exact H]
  | H : still ?s1 ?s2 |- keeps ?s0 ?s2 => apply (keeps_trans s0 s1 s2); [frame|apply still_keeps; exact H]
  | |- still _ (_ ?s) => eapply still_trans; [|solve [auto with frame]]; frame
  | |- keeps _ (_ ?s) => eapply keeps_trans; [|first [solve [auto with frame]|apply still_keeps; solve [auto with frame]]]; frame
  end.

(** A run of a definition, one step at a time. *)
Ltac run_step :=
  match goal with
  | |- post (let '(_, _) := new_PCB ?a ?b ?s in _) _ =>
      let K := fresh in pose proof (new_PCB_keeps a b s) as K; destruct (new_PCB a b s); cbn [snd] in K
  | |- post (let '(_, _) := new_Semaphore ?a ?s in _) _ =>
      let K := fresh in pose proof (new_Semaphore_keeps a s) as K; destruct (new_Semaphore a s); cbn [snd] in K
  | |- post (let '(_, _) := new_Lock ?s in _) _ =>
      let K := fresh in pose proof (new_Lock_keeps s) as K; destruct (new_Lock s); cbn [snd] in K
  | |- _ => run_with ltac:(eauto 2 with frame)
  end; cbn beta iota zeta in *.

Ltac split_ands := repeat match goal with H : _ /\ _ |- _ => destruct H end.

Section ops.
Context {N : Type} `{Outside N} `{TCP N} `{Garbage}.
Abbreviation state := (Sim device (World code (Sys N))).
Abbreviation frames := (Datatypes.list (instr code)).
Implicit Types (s : state).

(** *** Registers and memory *)

Lemma WriteRegister_still r v s : post (WriteRegister r v s) (still s).
Proof. unfold WriteRegister. repeat run_step. frame. Qed.
Lemma ReadMem_still a s : post (ReadMem a s) (fun '(_, s') => still s s').
Proof. unfold ReadMem. repeat run_step. frame. Qed.
Lemma WriteMem_still a v s : post (WriteMem a v s) (still s).
Proof. unfold WriteMem. repeat run_step. frame. Qed.
#[local] Hint Resolve WriteRegister_still ReadMem_still WriteMem_still : frame.

Lemma User2System_still a l s : post (User2System a l s) (fun '(_, s') => still s s').
Proof.
  unfold User2System. apply post_any. intros buf _. eapply post_bind_mono.
  - apply (post_for_return (fun '(_, t) => still s t) (fun '(_, t) => still s t)); [apply still_refl|].
    intros j [b t] Ht. repeat run_step; frame.
  - intros [[b t]|[b t]]; done.
Qed.
Lemma System2User_still a l bs s : post (System2User a l bs s) (fun '(_, s') => still s s').
Proof.
  unfold System2User. do 2 (run_step; [simpl; frame|]). eapply post_bind_mono.
  - apply (post_for_return (fun t => still s t) (fun '(_, t) => still s t)); [apply still_refl|].
    intros j t Ht. repeat run_step; frame.
  - intros [t|[b t]]; done.
Qed.
Lemma on_fs_still {A} (op : StubFS.FS N -> res (A * StubFS.FS N)) s :
  post (on_fs op s) (fun '(_, s') => still s s').
Proof. unfold on_fs. repeat run_step. frame. Qed.
#[local] Hint Resolve User2System_still System2User_still on_fs_still : frame.

(** *** Devices *)

Lemma PollFile_still fd s : post (PollFile fd s) (fun '(_, s') => still s s').
Proof. unfold PollFile. repeat run_step; frame. Qed.
Lemma ReadChar_still fd s : post (ReadChar fd s) (fun '(_, s') => still s s').
Proof. unfold ReadChar. repeat run_step; frame. Qed.
Lemma WriteChar_still fd c s : post (WriteChar fd c s) (still s).
Proof. unfold WriteChar. repeat run_step; frame. Qed.
#[local] Hint Resolve PollFile_still ReadChar_still WriteChar_still : frame.
Lemma ConsoleInput_GetChar_still s : post (ConsoleInput_GetChar s) (fun '(_, s') => still s s').
Proof. unfold ConsoleInput_GetChar. destruct (negb _); repeat run_step; frame. Qed.
Lemma ConsoleOutput_PutChar_still c s : post (ConsoleOutput_PutChar c s) (still s).
Proof.
  unfold ConsoleOutput_PutChar. repeat run_step. frame.
Qed.
Lemma ReadFromSocket_still k n s : post (ReadFromSocket k n s) (fun '(_, s') => still s s').
Proof. unfold ReadFromSocket. destruct (recvfrom _ _ _). repeat run_step. frame. Qed.
Lemma SendToSocket_still k bs nm s : post (SendToSocket k bs nm s) (still s).
Proof.
  unfold SendToSocket. eapply post_bind_mono.
  - apply (post_for_return (still s) (still s)); [apply still_refl|].
    intros j t Ht. repeat run_step; frame.
  - intros [t|t]; done.
Qed.
#[local] Hint Resolve ReadFromSocket_still SendToSocket_still : frame.
Lemma NetworkOutput_Send_still junk h bs s : post (NetworkOutput_Send junk h bs s) (still s).
Proof.
  unfold NetworkOutput_Send. repeat run_step; frame.
Qed.
Lemma ReadRequest_still n d s : post (Disk.ReadRequest DiskDrive n d s) (fun '(_, s') => still s s').
Proof. unfold Disk.ReadRequest. repeat run_step. frame. Qed.
Lemma WriteRequest_still n bs d s : post (Disk.WriteRequest DiskDrive n bs d s) (fun '(_, s') => still s s').
Proof. unfold Disk.WriteRequest. repeat run_step; frame. Qed.
#[local] Hint Resolve ConsoleInput_GetChar_still ConsoleOutput_PutChar_still NetworkOutput_Send_still
  ReadRequest_still WriteRequest_still : frame.

(** *** Processes and mail *)

Lemma copy_string_still p s : post (copy_string p s) (fun '(_, s') => still s s').
Proof. unfold copy_string. repeat run_step. frame. Qed.
Lemma set_pcb_still i p s : post (set_pcb i p s) (still s).
Proof. unfold set_pcb. repeat run_step. frame. Qed.
Lemma SetExitCode_still p ec s : post (SetExitCode p ec s) (still s).
Proof. unfold SetExitCode. repeat run_step. frame. Qed.
Lemma STable_FindFreeSlot_still s : post (STable_FindFreeSlot s) (fun '(_, s') => still s s').
Proof. unfold STable_FindFreeSlot. repeat run_step. frame. Qed.
Lemma new_Sem_keeps nm i s : post (new_Sem nm i s) (fun '(_, s') => keeps s s').
Proof.
  unfold new_Sem. pose proof (new_Semaphore_keeps i s) as K. destruct (new_Semaphore i s).
  destruct (_ <? _); [exact K|exact I].
Qed.
#[local] Hint Resolve copy_string_still set_pcb_still SetExitCode_still STable_FindFreeSlot_still new_Sem_keeps : frame.
Lemma STable_Create_keeps nm i s : post (STable_Create nm i s) (fun '(_, s') => keeps s s').
Proof. unfold STable_Create. repeat run_step; frame. Qed.
Lemma MailBox_got_still s : post (MailBox_got s) (fun '(_, s') => still s s').
Proof. unfold MailBox_got. repeat run_step. frame. Qed.
Lemma new_Mail_still p m bs s : post (new_Mail p m bs s) (fun '(_, s') => still s s').
Proof. unfold new_Mail. repeat run_step. frame. Qed.
Lemma Load_still nm args a s : post (Load nm args a s) (fun '(_, s') => still s s').
Proof. unfold Load. repeat run_step. frame. Qed.
#[local] Hint Resolve STable_Create_keeps MailBox_got_still new_Mail_still Load_still : frame.

(** *** Every piece of the kernel makes plain calls and keeps the kernel's state *)

Definition pieces s (r : res (frames * state)) : Prop :=
  post r (fun '(calls, s') => Forall plain calls /\ keeps s s').

Lemma PCIncrease_still s : post (PCIncrease_ s) (fun '(calls, s') => calls = [] /\ still s s').
Proof. unfold PCIncrease_. repeat run_step. split; [done|]. frame. Qed.
#[local] Hint Resolve PCIncrease_still : frame.
Lemma return_to_user_still r s : post (return_to_user r s) (fun '(calls, s') => calls = [] /\ still s s').
Proof. unfold return_to_user. repeat run_step. split_ands. split; [done|]. frame. Qed.
#[local] Hint Resolve return_to_user_still : frame.

Ltac pieces :=
  repeat run_step; split_ands; subst;
  try (split; [first [assumption|repeat constructor]|frame]).

Lemma console_pieces s :
  pieces s (GetChar_ s) /\ pieces s (GetChar_got_ s) /\ (forall c, pieces s (PutChar_ c s)) /\
  (forall c, pieces s (PutChar_put_ c s)) /\ pieces s (ConsoleTest_ s) /\ pieces s (ConsoleTest_got_ s).
Proof.
  unfold GetChar_, GetChar_got_, PutChar_, PutChar_put_, ConsoleTest_, ConsoleTest_got_, pieces.
  split_and!; intros; pieces.
Qed.

Lemma network_pieces s :
  (forall b, pieces s (PostalDelivery_ b s)) /\ (forall b, pieces s (PostalDelivery_got_ b s)) /\
  (forall b, pieces s (PostReceive_ b s)) /\ pieces s (PostReceive_got_ s) /\
  (forall p m d, pieces s (PostSend_ p m d s)) /\ (forall j p b, pieces s (PostSend_locked_ j p b s)) /\
  pieces s (NetworkTest_ s) /\ pieces s (NetworkTest_got_ s) /\ pieces s (NetworkTest_acked_ s) /\
  (forall n, pieces s (ReadSector_ n s)) /\ (forall n, pieces s (ReadSector_locked_ n s)) /\
  (forall n d, pieces s (WriteSector_ n d s)) /\ (forall n d, pieces s (WriteSector_locked_ n d s)).
Proof.
  unfold PostalDelivery_, PostalDelivery_got_, PostReceive_, PostReceive_got_, PostSend_, PostSend_locked_,
    NetworkTest_, NetworkTest_got_, NetworkTest_acked_, ReadSector_, ReadSector_locked_, WriteSector_,
    WriteSector_locked_, MailBox_Put, NetworkInput_Receive, pieces.
  split_and!; intros; pieces.
Qed.

Lemma process_pieces s :
  (forall p c, pieces s (PCB_Exec_ p c s)) /\ (forall p c, pieces s (PCB_Exec_in_ p c s)) /\
  (forall p, pieces s (IncNumWait_ p s)) /\ (forall p, pieces s (IncNumWait_in_ p s)) /\
  (forall p, pieces s (DecNumWait_ p s)) /\ (forall p, pieces s (DecNumWait_in_ p s)) /\
  (forall c, pieces s (ExecUpdate_ c s)) /\ (forall c, pieces s (ExecUpdate_in_ c s)) /\
  (forall i c, pieces s (ExecUpdate_exec_ i c s)) /\ (forall i, pieces s (JoinUpdate_ i s)) /\
  (forall i, pieces s (JoinUpdate_joined_ i s)) /\ (forall i, pieces s (JoinUpdate_counted_ i s)) /\
  (forall i, pieces s (ExitUpdate_ i s)) /\ (forall i, pieces s (ExitUpdate_released_ i s)) /\
  (forall i, pieces s (ExitUpdate_counted_ i s)) /\ (forall nm, pieces s (STable_Wait_ nm s)) /\
  (forall nm, pieces s (STable_Signal_ nm s)).
Proof.
  unfold PCB_Exec_, PCB_Exec_in_, IncNumWait_, IncNumWait_in_, DecNumWait_, DecNumWait_in_, ExecUpdate_,
    ExecUpdate_in_, ExecUpdate_exec_, JoinUpdate_, JoinUpdate_joined_, JoinUpdate_counted_, ExitUpdate_,
    ExitUpdate_released_, ExitUpdate_counted_, STable_Wait_, STable_Signal_, JoinWait, ExitWait, JoinRelease,
    ExitRelease, Sem_wait, Sem_signal, pieces.
  split_and!; intros; pieces.
Qed.

Lemma file_pieces s :
  pieces s (handle_SC_Add s) /\ pieces s (handle_SC_Create s) /\ pieces s (handle_SC_Open s) /\
  pieces s (handle_SC_Close s) /\ pieces s (handle_SC_Read s) /\ pieces s (handle_SC_Write s) /\
  pieces s (handle_SC_Seek s) /\ pieces s (handle_SC_Remove s).
Proof.
  unfold handle_SC_Add, handle_SC_Create, handle_SC_Open, handle_SC_Close, handle_SC_Read, handle_SC_Write,
    handle_SC_Seek, handle_SC_Remove, receive, pieces.
  split_and!; intros; pieces.
Qed.

Lemma socket_pieces s :
  pieces s (handle_SC_SocketTCP_Open s) /\ pieces s (handle_SC_SocketTCP_Connect s) /\
  pieces s (handle_SC_SocketTCP_Send s) /\ pieces s (handle_SC_SocketTCP_Receive s) /\
  pieces s (handle_SC_SocketTCP_Close s).
Proof.
  unfold handle_SC_SocketTCP_Open, handle_SC_SocketTCP_Connect, handle_SC_SocketTCP_Send,
    handle_SC_SocketTCP_Receive, handle_SC_SocketTCP_Close, receive, pieces.
  split_and!; intros; pieces.
Qed.

Lemma ExecV_pieces s : pieces s (handle_SC_ExecV s).
Proof.
  unfold handle_SC_ExecV, pieces. do 3 run_step. eapply post_bind_mono.
  - apply (post_for_range (fun '(_, _, t) => still s t)); [apply still_refl|].
    intros j [[v argv] t] Ht. repeat run_step. frame.
  - intros [[v argv] t] Ht. pieces.
Qed.

Lemma exec_pieces s :
  pieces s (handle_SC_Exec s) /\ pieces s (handle_SC_Wait s) /\ pieces s (handle_SC_Signal s) /\
  pieces s (handle_SC_Join s) /\ pieces s (handle_SC_Exit s) /\ pieces s (handle_SC_CreateSemaphore s).
Proof.
  unfold handle_SC_Exec, handle_SC_Wait, handle_SC_Signal, handle_SC_Join, handle_SC_Exit,
    handle_SC_CreateSemaphore, pieces.
  split_and!; intros; pieces.
Qed.

Lemma rest_pieces s :
  (forall v n b, pieces s (Read_loop_ v n b s)) /\ (forall v n b, pieces s (Read_got_ v n b s)) /\
  (forall n b i, pieces s (Write_loop_ n b i s)) /\ (forall i, pieces s (Write_done_ i s)) /\
  (forall nm, pieces s (Exec_done_ nm s)) /\ pieces s (SetResult_ s) /\ pieces s (Exit_done_ s) /\
  pieces s (PCIncrease_ s).
Proof.
  unfold Read_loop_, Read_got_, Read_end, Write_loop_, Write_done_, Exec_done_, SetResult_, Exit_done_, SysHalt,
    Halt, pieces.
  split_and!; intros; pieces.
Qed.

Lemma ExceptionHandler_pieces which s : pieces s (ExceptionHandler_ which s).
Proof.
  destruct (file_pieces s) as (? & ? & ? & ? & ? & ? & ? & ?). destruct (socket_pieces s) as (? & ? & ? & ? & ?).
  destruct (exec_pieces s) as (? & ? & ? & ? & ? & ?). pose proof (ExecV_pieces s).
  unfold ExceptionHandler_, pieces. do 2 run_step; try done. unfold syscall.
  repeat (destruct (_ =? _); [done|]). done.
Qed.

Lemma Execute_pieces a s : post (Nachos.Execute a s) (fun '(calls, s') => Forall plain calls /\ keeps s s').
Proof. unfold Nachos.Execute. pieces. Qed.
#[local] Hint Resolve Execute_pieces : frame.

Lemma run_pieces s :
  pieces s (RunUser_ s) /\ (forall arg, pieces s (RunProcess_ arg s)) /\
  (forall nm args, pieces s (Main_ nm args s)).
Proof.
  unfold RunUser_, RunProcess_, Main_, SysHalt, Halt, pieces.
  split_and!; intros; pieces.
Qed.

Lemma ustep_pieces u s : pieces s (Nachos.ustep_ u s).
Proof.
  destruct (console_pieces s) as (? & ? & ? & ? & ? & ?).
  destruct (network_pieces s) as (? & ? & ? & ? & ? & ? & ? & ? & ? & ? & ? & ? & ?).
  destruct (process_pieces s) as (? & ? & ? & ? & ? & ? & ? & ? & ? & ? & ? & ? & ? & ? & ? & ? & ?).
  destruct (rest_pieces s) as (? & ? & ? & ? & ? & ? & ? & ?). destruct (run_pieces s) as (? & ? & ?).
  pose proof (ExceptionHandler_pieces). destruct u; cbn [ustep_]; try match goal with K : _ |- _ => apply K end.
  - split; [constructor|]. apply return_keeps.
  - apply post_intro. intros [calls s'] E. apply SelfTests.ustep_plain in E as [Hc [->|(g & ->)]];
      (split; [exact Hc|]); [apply keeps_refl|apply still_keeps; by split_and!].
Qed.

(** *** Every handler calls [V] at most once *)

Definition handled s s' : Prop :=
  level (interrupt s') = level (interrupt s) /\ inHandler (interrupt s') = inHandler (interrupt s) /\
  rtc (V_step (C := device) (D := Sys N)) (the_kern s) (the_kern s').

Lemma still_handled s s' : still s s' -> handled s s'.
Proof. intros (E & L & I). split_and!; [done|done|]. rewrite E. constructor. Qed.

Lemma handled_trans s1 s2 s3 : handled s1 s2 -> handled s2 s3 -> handled s1 s3.
Proof. intros (? & ? & R1) (? & ? & R2). split_and!; [congruence..|]. by etransitivity. Qed.

Lemma V_interrupt p s : post (V_ p s) (fun '(_, s') => interrupt s' = set_level (interrupt s) IntOff).
Proof.
  unfold V_. cbn [SetLevelOff]. apply post_any. intros x _.
  eapply (post_bind_mono (fun s' : state => interrupt s' = set_level (interrupt s) IntOff)).
  - destruct (negb _); [|done]. apply post_any. intros [t q] _. unfold ReadyToRun.
    do 2 (apply post_any; intros ? _). done.
  - intros s1 E. apply post_any. intros y _. exact E.
Qed.

Lemma V_handled p s : post (V_in_handler p s) (handled s).
Proof.
  apply post_intro. intros s' E. unfold handled. pose proof E as E0. unfold V_in_handler in E.
  apply ASSERT_inv in E as [Hoff E]. apply bind_Ok_inv in E as ([calls s1] & EV & E). injection E as ->.
  pose proof (post_elim _ _ _ (V_interrupt p s) EV) as Hi. cbn beta iota in Hi. rewrite Hi.
  apply bool_decide_eq_true_1 in Hoff. split_and!; [done..|].
  apply rtc_once. by exists p, s, s'.
Qed.
#[local] Hint Resolve V_handled : frame.

Lemma Alarm_handled s : post (Alarm_timer_CallBack s) (handled s).
Proof.
  unfold Alarm_timer_CallBack, Timer_CallBack, SetInterrupt, Alarm_CallBack, YieldOnReturn.
  apply (post_mono _ (still s)); [|apply still_handled].
  destruct (randomize _ && _); [destruct (RandomNumber _)|]; cbn beta iota zeta; repeat run_step; frame.
Qed.

Lemma handler_handled d s : post (handler_ d s) (handled s).
Proof.
  destruct d; cbn [handler_]; [apply Alarm_handled|..];
    unfold ConsoleInput_CallBack, SynchIn_CallBack, ConsoleOutput_CallBack, SynchOut_CallBack, Disk_CallBack,
      Disk.CallBack, SynchDisk_CallBack, NetworkInput_CallBack, PostIn_CallBack, NetworkOutput_CallBack, PostOut_CallBack;
    repeat run_step; try (apply still_handled; frame);
    try (eapply handled_trans; [apply still_handled|eassumption]; frame).
Qed.

#[export] Instance nachos_laws : ClientLaws device code (Sys N).
Proof.
  constructor.
  - intros d s s' E Hl. pose proof (post_elim _ _ _ (handler_handled d s) E) as (L & I & V).
    by rewrite L, Hl.
  - intros u s s' calls E Hl Hh. pose proof (post_elim _ _ _ (ustep_pieces u s) E) as (Hc & Ht & L).
    rewrite L, Hl. split_and!; try done. by rewrite (to_handler _ _ Ht).
Qed.

(** *** The start *)

Lemma OpenSocket_still s : post (OpenSocket s) (fun '(_, s') => still s s').
Proof. unfold OpenSocket. repeat run_step. frame. Qed.
Lemma AssignNameToSocket_still nm s : post (AssignNameToSocket nm s) (still s).
Proof. unfold AssignNameToSocket. repeat run_step. frame. Qed.
#[local] Hint Resolve OpenSocket_still AssignNameToSocket_still : frame.

Lemma new_Alarm_still b s : post (new_Alarm b s) (still s).
Proof.
  unfold new_Alarm, new_Timer, SetInterrupt.
  destruct b; [destruct (RandomNumber _)|]; cbn beta iota zeta; repeat run_step; frame.
Qed.
Lemma new_ConsoleInput_still f s : post (new_ConsoleInput f s) (fun '(_, s') => still s s').
Proof. unfold new_ConsoleInput. repeat run_step; frame. Qed.
Lemma new_ConsoleOutput_still f s : post (new_ConsoleOutput f s) (fun '(_, s') => still s s').
Proof. unfold new_ConsoleOutput. repeat run_step; frame. Qed.
Lemma new_NetworkInput_still h b s : post (new_NetworkInput h b s) (fun '(_, s') => still s s').
Proof. unfold new_NetworkInput. repeat run_step; frame. Qed.
Lemma new_NetworkOutput_still q s : post (new_NetworkOutput q s) (fun '(_, s') => still s s').
Proof. unfold new_NetworkOutput. repeat run_step; frame. Qed.
#[local] Hint Resolve new_Alarm_still new_ConsoleInput_still new_ConsoleOutput_still new_NetworkInput_still
  new_NetworkOutput_still : frame.

Lemma consoles_keep f s : post (new_SynchConsoleInput f s) (keeps s) /\ post (new_SynchConsoleOutput f s) (keeps s).
Proof.
  unfold new_SynchConsoleInput, new_SynchConsoleOutput. split; repeat run_step; frame.
Qed.
#[local] Opaque Disk.new_Disk.
Lemma new_SynchDisk_keeps s : post (new_SynchDisk s) (keeps s).
Proof. unfold new_SynchDisk. repeat run_step; frame. Qed.
Lemma new_FileSystem_still s : post (new_FileSystem s) (still s).
Proof. unfold new_FileSystem. repeat run_step; frame. Qed.
Lemma new_PostOfficeOutput_keeps q s : post (new_PostOfficeOutput q s) (keeps s).
Proof. unfold new_PostOfficeOutput. repeat run_step; frame. Qed.
Lemma new_PTable_keeps jb jp n s : post (new_PTable jb jp n s) (keeps s).
Proof. unfold new_PTable. repeat run_step; frame. Qed.
Lemma new_STable_still jb jt s : post (new_STable jb jt s) (still s).
Proof. unfold new_STable. repeat run_step; frame. Qed.

Lemma new_boxes_keeps n s : keeps s (new_boxes n s).2.
Proof.
  induction n as [|n IH]; [apply keeps_refl|].
  change (new_boxes (S n) s) with (let '(bs, s) := new_boxes n s in let '(b, s) := new_SynchList s in (bs ++ [b], s)).
  destruct (new_boxes n s) as [bs s1]. pose proof (new_SynchList_keeps s1) as K.
  destruct (new_SynchList s1) as [b s2]. by eapply keeps_trans.
Qed.

(** While the kernel starts, the main thread runs with interrupts off. *)
Definition booting (fs : frames) s : Prop := on_cpu s IntOff fs /\ cur s = 1%positive.

Lemma keeps_booting fs s s' : booting fs s -> keeps s s' -> booting fs s'.
Proof.
  intros [Hs Hc] [T L]. pose proof T as []. pose proof (oc_calm _ _ _ Hs) as [Hp _ Hco Hli].
  split; [|unfold cur in *; congruence].
  eapply on_cpu_objects; try done; auto.
  - split; [done|]. apply to_fresh0. exact (pl_brk_s _ Hp).
  - rewrite L. apply Hs.
  - rewrite to_handler0. apply Hs.
Qed.

Lemma keeps_room s s' : room s -> keeps s s' -> room s'.
Proof.
  intros Hr [[] _]. unfold room. replace (base.size (threads (the_kern s'))) with (base.size (threads (the_kern s))); [done|].
  rewrite <- !size_dom. f_equal. apply set_eq. intros t. rewrite !elem_of_dom. symmetry.
  by apply same_threads_dom.
Qed.

Lemma new_main_thread_booting calls o h n : Forall plain calls ->
  let s := new_main_thread (SetLevelTo IntOn :: calls) (new_Kernel o h n) in
  booting (SetLevelTo IntOn :: calls) s /\ room s.
Proof.
  intros Hp s.
  assert (Ek : the_kern s = mkKern {[1%positive := mkThread [109; 97; 105; 110] 0 None RUNNING
      (replicate (Z.to_nat Machine.NumTotalRegs) 0) None 0]}
    {[1%positive := SetLevelTo IntOn :: calls]} 1%positive Lists.new_List None ∅ ∅ ∅ ∅ 2%positive) by done.
  assert (Hg : good s).
  { eapply (single_thread_good s 1%positive); rewrite ?Ek; try done.
    rewrite <- (app_nil_r calls). by apply (typed_plain 1%positive calls []). }
  unfold booting, room, cur. rewrite Ek. cbn [currentThread threads]. rewrite map_size_singleton. split_and!; [|done|lia].
  constructor; unfold cur; rewrite ?Ek; try done; [by rewrite <- Ek; apply Hg|].
  eexists. by split.
Qed.

Lemma fork_booting nm u fs s : booting fs s -> room s -> post (fork_now nm u s) (booting fs).
Proof.
  intros [Hs Hc] Hr. destruct (NewFork_spec s IntOff nm 0 u fs Hs Hr) as (s' & E & Hs' & [Hc' _]).
  cbn [exec] in E. unfold fork_now. destruct (new_Thread nm 0 s) as [t s1]. rewrite E.
  split; [done|congruence].
Qed.

Lemma new_PostOfficeInput_booting h b buf n fs s : booting fs s -> room s ->
  post (new_PostOfficeInput h b buf n s) (booting fs).
Proof.
  intros Hs Hr. unfold new_PostOfficeInput. pose proof (new_Semaphore_keeps 0 s) as K1.
  destruct (new_Semaphore 0 s) as [p s1]. pose proof (new_boxes_keeps (Z.to_nat n) s1) as K2.
  destruct (new_boxes _ s1) as [bs s2]. run_step.
  assert (K : keeps s (on_sys (set_postIn (mkPostIn n0 bs p)) s0)) by frame.
  apply fork_booting; [by eapply keeps_booting|by eapply keeps_room].
Qed.

Lemma on_cpu_cur fs s : booting fs s -> stacks (the_kern s) !! 1%positive = Some fs.
Proof. intros [Hs Hc]. pose proof (oc_stack _ _ _ Hs) as E. by rewrite Hc in E. Qed.

(** The kernel starts well formed, and the main thread first enables interrupts. *)
Lemma boot_good o calls h n : Forall plain calls ->
  post (Nachos.Initialize o calls (new_Kernel o h n)) (fun s => good s /\ cur s = 1%positive /\
    stacks (the_kern s) !! 1%positive = Some (SetLevelTo IntOn :: calls)).
Proof.
  intros Hp. destruct (new_main_thread_booting calls o h n Hp) as [Hb Hr]. unfold Nachos.Initialize.
  set (s := new_main_thread _ _) in *. clearbody s. cbn zeta.
  set (fs := SetLevelTo IntOn :: calls) in *.
  eapply post_bind_mono; [apply new_Alarm_still|]. intros s1 K1.
  apply post_any. intros m _.
  eapply post_bind_mono; [apply consoles_keep|]. intros s2 K2.
  eapply post_bind_mono; [apply consoles_keep|]. intros s3 K3.
  eapply post_bind_mono; [apply new_SynchDisk_keeps|]. intros s4 K4.
  eapply post_bind_mono; [apply new_FileSystem_still|]. intros s5 K5.
  assert (K : keeps s s5) by frame.
  eapply post_bind_mono; [apply (new_PostOfficeInput_booting _ _ _ _ fs); [by eapply keeps_booting|by eapply keeps_room]|].
  intros s6 Hb6. eapply post_bind_mono; [apply new_PostOfficeOutput_keeps|]. intros s7 K7.
  eapply post_bind_mono; [apply new_PTable_keeps|]. intros s8 K8.
  eapply post_mono; [apply new_STable_still|]. intros s9 K9.
  assert (Hb9 : booting fs s9) by (eapply keeps_booting; [exact Hb6|frame]).
  split_and!; [|apply Hb9|by apply on_cpu_cur]. eapply on_cpu_good; [apply Hb9|].
  unfold fs. cbn [typed]. rewrite <- (app_nil_r calls). by apply typed_plain.
Qed.

Lemma main_calls_plain w : Forall plain (main_calls w).
Proof. unfold main_calls. repeat case_match; repeat constructor. Qed.

Lemma main_good argv h n : post (main argv h n) good.
Proof.
  unfold main. apply post_any. intros w _. apply post_any. intros [o m] _.
  eapply post_mono; [apply boot_good, main_calls_plain|]. by intros s (Hg & _).
Qed.

(** C3. The whole kernel is safe whatever it runs: started by any command line, on
    any files of the host, any terminal and network, and whatever the user
    programs do, every state it reaches (while fewer threads than an [int]
    counts exist) is well formed: interrupts at the level the code on the
    current stack expects, every thread in exactly one place, no wakeup lost;
    and if the next step fails, then only because the main function is over or
    for one of the causes [may_fail] lists: user code or a device handler
    faults, time runs out, an object was deleted, a lock is released by another
    thread, an item is put on a list twice, a user program's state cannot be
    saved, restored or given back. *)
Theorem system_stays_good argv h n k s s' (Hstart : main argv h n = Ok s) (Hrun : Kernel.run k s s') :
  good s' /\ forall f, room s' -> step s' = Fault f -> stacks (the_kern s') !! cur s' = Some [] \/
    exists i fs, stacks (the_kern s') !! cur s' = Some (i :: fs) /\ may_fail (set_stack (cur s') fs s') i f.
Proof.
  pose proof (post_elim _ _ _ (main_good argv h n) Hstart) as Hg. pose proof (run_good k s s' Hg Hrun) as Hg'.
  split; [done|]. intros f Hroom E. pose proof (step_good s' Hg' Hroom) as HS.
  destruct (go_runs _ Hg') as (fs & Hr). pose proof (ru_stack _ _ _ Hr : stacks (the_kern s') !! cur s' = Some fs) as Hst.
  rewrite Hst in *. destruct fs as [|i fs]; [by left|right]. rewrite E in HS. by exists i, fs.
Qed.
End ops.
End Safety.
