(* ===== verification/Protection.v ===== *)
(** Protection of processes from each other, for the kernel that [main] starts:
    every state it reaches keeps the rules of [Spaces], so no step of a thread
    reaches the memory or the saved registers of another, and a thread that
    gives the CPU away finds its own back. *)

From S2P Require Import Prelude Bitmap Lists Machine Interrupt Disk HostFS AddrSpace Isolation Threads Synch Kernel Spaces SelfTests System Console Network Process SysCall Nachos UserSpaces Safety.
Import Stats Interrupt Isolation Threads Synch Kernel Spaces System Console Network Process SysCall Nachos UserSpaces Safety.

Module Protection.
Section ops.
Context {N : Type} `{Outside N} `{TCP N} `{Garbage}.
Abbreviation state := (Sim device (World code (Sys N))).
Abbreviation frames := (Datatypes.list (instr code)).
Implicit Types (s : state) (t : ptr) (fr : Datatypes.list nat).

(** *** The constructors of [Kernel::Initialize] *)

#[local] Hint Resolve Schedule_quiet set_pcb_quiet : quiet.

Lemma new_Lock_quiet s : quiet s (new_Lock s).2.
Proof. unfold new_Lock, new_Semaphore. simpl. quieting. Qed.
Lemma new_SynchList_quiet s : quiet s (new_SynchList s).2.
Proof. unfold new_SynchList, new_Lock, new_Semaphore, new_Condition. simpl. quieting. Qed.

Ltac boot_step :=
  match goal with
  | |- post (let '(_, _) := ?c in _) _ =>
      let K := fresh in
      first [ pose proof (new_Semaphore_quiet 0 _ : quiet _ c.2) as K
            | pose proof (new_Semaphore_quiet 1 _ : quiet _ c.2) as K
            | pose proof (new_Lock_quiet _ : quiet _ c.2) as K
            | pose proof (new_PCB_quiet 0 0 _ : quiet _ c.2) as K ];
      destruct c; cbn [snd] in K
  | |- _ => quiet_step
  end; cbn beta iota zeta in *.

Lemma OpenSocket_quiet s : post (OpenSocket s) (fun '(_, s') => quiet s s').
Proof. unfold OpenSocket. repeat quiet_step. quieting. Qed.
Lemma AssignNameToSocket_quiet nm s : post (AssignNameToSocket nm s) (quiet s).
Proof. unfold AssignNameToSocket. repeat quiet_step. quieting. Qed.
#[local] Hint Resolve OpenSocket_quiet AssignNameToSocket_quiet : quiet.

Lemma new_Alarm_quiet b s : post (new_Alarm b s) (quiet s).
Proof.
  unfold new_Alarm, new_Timer, SetInterrupt.
  destruct b; [destruct (RandomNumber _)|]; cbn beta iota zeta; repeat quiet_step; quieting.
Qed.
Lemma new_ConsoleInput_quiet f s : post (new_ConsoleInput f s) (fun '(_, s') => quiet s s').
Proof. unfold new_ConsoleInput. repeat quiet_step; quieting. Qed.
Lemma new_ConsoleOutput_quiet f s : post (new_ConsoleOutput f s) (fun '(_, s') => quiet s s').
Proof. unfold new_ConsoleOutput. repeat quiet_step; quieting. Qed.
Lemma new_NetworkInput_quiet h b s : post (new_NetworkInput h b s) (fun '(_, s') => quiet s s').
Proof. unfold new_NetworkInput. repeat quiet_step; quieting. Qed.
Lemma new_NetworkOutput_quiet q s : post (new_NetworkOutput q s) (fun '(_, s') => quiet s s').
Proof. unfold new_NetworkOutput. repeat quiet_step; quieting. Qed.
#[local] Hint Resolve new_ConsoleInput_quiet new_ConsoleOutput_quiet new_NetworkInput_quiet
  new_NetworkOutput_quiet : quiet.

Lemma consoles_quiet f s : post (new_SynchConsoleInput f s) (quiet s) /\ post (new_SynchConsoleOutput f s) (quiet s).
Proof. unfold new_SynchConsoleInput, new_SynchConsoleOutput. split; repeat boot_step; quieting. Qed.
#[local] Opaque Disk.new_Disk.
Lemma new_SynchDisk_quiet s : post (new_SynchDisk s) (quiet s).
Proof. unfold new_SynchDisk. repeat boot_step; quieting. Qed.
Lemma new_FileSystem_quiet s : post (new_FileSystem s) (quiet s).
Proof. unfold new_FileSystem. repeat quiet_step; quieting. Qed.
Lemma new_PostOfficeOutput_quiet q s : post (new_PostOfficeOutput q s) (quiet s).
Proof. unfold new_PostOfficeOutput. repeat boot_step; quieting. Qed.
Lemma new_PTable_quiet jb jp n s : post (new_PTable jb jp n s) (quiet s).
Proof. unfold new_PTable. repeat boot_step; quieting. Qed.
Lemma new_STable_quiet jb jt s : post (new_STable jb jt s) (quiet s).
Proof. unfold new_STable. repeat quiet_step; quieting. Qed.
Lemma new_boxes_quiet n s : quiet s (new_boxes n s).2.
Proof.
  induction n as [|n IH]; [apply quiet_refl|].
  change (new_boxes (S n) s) with (let '(bs, s) := new_boxes n s in let '(b, s) := new_SynchList s in (bs ++ [b], s)).
  destruct (new_boxes n s) as [bs s1]. pose proof (new_SynchList_quiet s1) as K.
  destruct (new_SynchList s1) as [b s2]. by apply (quiet_trans _ s1).
Qed.

(** *** The start *)

(** The main thread and the machine, before any other thread exists. *)
Lemma first_on_space s m l rs fs : profiles s = {[1%positive := (None, rs)]} ->
  stacks (the_kern s) = {[1%positive := fs]} -> cur s = 1%positive -> length rs = Z.to_nat Machine.NumTotalRegs ->
  code_ok None fs -> machine s = Some m -> zlen (Machine.mainMemory m) = Machine.MemorySize -> Machine.tlb m = None ->
  length (Machine.registers m) = Z.to_nat Machine.NumTotalRegs -> Bitmap.rep (Machine.pageTableMap m) l ->
  zlen l = Machine.NumPhysPages -> on_space s fs.
Proof.
  intros Ep Es Ec Hrs Hc Em Hm Ht Hr Hl Hn.
  assert (Hp : forall t sp r, profiles s !! t = Some (sp, r) -> sp = None /\ r = rs).
  { intros t sp r. rewrite Ep, lookup_singleton. case_decide; [|done]. by intros [= <- <-]. }
  assert (Hno : forall t fr, ~ owns s t fr) by (intros t fr (a & r & E & _); by destruct (Hp _ _ _ E)).
  constructor.
  - constructor.
    + exists m, l. constructor; try done. intros t fr f Ho. by destruct (Hno t fr).
    + intros t a r E. by destruct (Hp _ _ _ E).
    + intros t sp r E. by destruct (Hp _ _ _ E) as [_ ->].
    + intros t t' fr fr' f Ho. by destruct (Hno t fr).
  - intros t fs' sp r Hst E. destruct (Hp _ _ _ E) as [-> _]. rewrite Es, lookup_singleton in Hst.
    case_decide; [|done]. by injection Hst as <-.
  - by rewrite Es, Ec, lookup_singleton_eq.
  - intros fr Ho. by destruct (Hno _ fr Ho).
Qed.

Lemma new_Machine_is junk time0 debug m : Machine.new_Machine junk time0 debug = Ok m ->
  zlen (Machine.mainMemory m) = Machine.MemorySize /\ Machine.tlb m = None /\
  length (Machine.registers m) = Z.to_nat Machine.NumTotalRegs /\
  exists l, Bitmap.rep (Machine.pageTableMap m) l /\ zlen l = Machine.NumPhysPages.
Proof.
  unfold Machine.new_Machine. destruct (Bitmap.new_Bitmap_ok junk Machine.NumPhysPages) as (b & -> & Hb); [done|].
  rewrite bind_Ok. intros E. apply bind_Ok_inv in E as ([] & _ & E).
  assert (HM : forall x, Ok x = Ok m -> m = x) by by intros x [=].
  apply HM in E. rewrite E. unfold zlen. cbn [Machine.mainMemory Machine.tlb Machine.registers Machine.pageTableMap].
  split_and!; [by rewrite length_replicate, Z2Nat.id|done|apply length_replicate|].
  eexists. split; [exact Hb|]. by rewrite length_replicate, Z2Nat.id.
Qed.

Lemma fork_on_space nm u fs s : needs u <> Uses -> booting fs s -> on_space s fs ->
  post (fork_now nm u s) (fun s' => on_space s' fs).
Proof.
  intros Hu [Hb _] Hs. pose proof (ca_placed _ (oc_calm _ _ _ Hb)) as Hpl.
  assert (Ht : threads (the_kern s) !! brk (the_kern s) = None) by (apply (pl_brk_t _ Hpl); lia).
  assert (Hst : stacks (the_kern s) !! brk (the_kern s) = None).
  { apply eq_None_not_Some. intros Hn%(pl_dom _ Hpl). rewrite Ht in Hn. by destruct Hn. }
  pose proof (NewFork_on_space nm 0 u s fs Hu Hs Ht Hst) as HF. unfold fork_now. cbn [exec] in HF.
  destruct (new_Thread nm 0 s) as [t s1]. eapply post_bind_mono; [exact HF|]. by intros [calls s2] [? _].
Qed.

Lemma new_PostOfficeInput_on_space h b buf n fs s : booting fs s -> room s -> on_space s fs ->
  post (new_PostOfficeInput h b buf n s) (fun s' => on_space s' fs).
Proof.
  intros Hb Hr Hs. unfold new_PostOfficeInput.
  pose proof (new_Semaphore_keeps 0 s) as K1. pose proof (UserSpaces.new_Semaphore_quiet 0 s) as Q1.
  destruct (new_Semaphore 0 s) as [p s1]. pose proof (new_boxes_keeps (Z.to_nat n) s1) as K2.
  pose proof (new_boxes_quiet (Z.to_nat n) s1) as Q2. destruct (new_boxes _ s1) as [bs s2]. cbn [snd] in *.
  apply post_any. intros [i s3] E. pose proof (post_elim _ _ _ (new_NetworkInput_still _ _ _) E) as K3.
  pose proof (post_elim _ _ _ (new_NetworkInput_quiet _ _ _) E) as Q3. cbn beta iota in K3, Q3.
  apply fork_on_space; [done| |].
  - apply (keeps_booting fs s); [done|]. eapply keeps_trans; [exact K1|]. eapply keeps_trans; [exact K2|].
    by apply still_keeps.
  - apply (on_space_quiet s); [done|]. apply (quiet_trans _ s3); [|by apply quiet_eq].
    exact (quiet_trans _ _ _ Q1 (quiet_trans _ _ _ Q2 Q3)).
Qed.

(** The state after [new Alarm] and [new Machine]. *)
Lemma machine_on_space o calls h n s1 m : Forall plain calls -> code_ok None (SetLevelTo IntOn :: calls) ->
  new_Alarm (randomSlice o) (new_main_thread (SetLevelTo IntOn :: calls) (new_Kernel o h n)) = Ok s1 ->
  Machine.new_Machine word_junk 0 (debugUserProg o) = Ok m ->
  let s := set_machine m s1 in let fs := SetLevelTo IntOn :: calls in booting fs s /\ room s /\ on_space s fs.
Proof.
  intros Hp Hc E Em s fs. destruct (new_main_thread_booting calls o h n Hp) as [Hb Hr]. cbn zeta in Hb, Hr.
  set (s0 := new_main_thread _ _) in *.
  pose proof (post_elim _ _ _ (new_Alarm_still _ _) E) as K. pose proof (post_elim _ _ _ (new_Alarm_quiet _ _) E) as Q.
  cbn beta in K, Q. assert (K' : keeps s0 s) by (eapply keeps_trans; [by apply still_keeps|by apply still_keeps, set_machine_still]).
  split; [by apply (keeps_booting fs s0)|]. split; [by apply (keeps_room s0)|].
  destruct (new_Machine_is _ _ _ _ Em) as (Hm & Ht & Hreg & l & Hrep & Hl). destruct Q as (Ep & Es & Ec & _).
  apply (first_on_space s m l (replicate (Z.to_nat Machine.NumTotalRegs) 0) fs); done.
Qed.

Lemma boot_settled o calls h n : Forall plain calls -> code_ok None (SetLevelTo IntOn :: calls) ->
  post (Nachos.Initialize o calls (new_Kernel o h n)) settled.
Proof.
  intros Hp Hc. unfold Nachos.Initialize. cbn zeta. set (fs := SetLevelTo IntOn :: calls) in *.
  apply post_any. intros s1 E1. apply post_any. intros m Em.
  destruct (machine_on_space o calls h n s1 m Hp Hc E1 Em) as (Hb & Hr & Hs). fold fs in Hb, Hs.
  set (s := set_machine m s1) in *. clearbody s. clear E1 Em.
  apply post_any. intros s2 E2. pose proof (post_elim _ _ _ (proj1 (consoles_keep _ _)) E2) as K2.
  pose proof (post_elim _ _ _ (proj1 (consoles_quiet _ _)) E2) as Q2.
  apply post_any. intros s3 E3. pose proof (post_elim _ _ _ (proj2 (consoles_keep _ _)) E3) as K3.
  pose proof (post_elim _ _ _ (proj2 (consoles_quiet _ _)) E3) as Q3.
  apply post_any. intros s4 E4. pose proof (post_elim _ _ _ (new_SynchDisk_keeps _) E4) as K4.
  pose proof (post_elim _ _ _ (new_SynchDisk_quiet _) E4) as Q4.
  apply post_any. intros s5 E5. pose proof (post_elim _ _ _ (new_FileSystem_still _) E5) as K5.
  pose proof (post_elim _ _ _ (new_FileSystem_quiet _) E5) as Q5. cbn beta in *.
  pose proof (keeps_trans _ _ _ K2 (keeps_trans _ _ _ K3 (keeps_trans _ _ _ K4 (still_keeps _ _ K5)))) as K.
  pose proof (quiet_trans _ _ _ Q2 (quiet_trans _ _ _ Q3 (quiet_trans _ _ _ Q4 Q5))) as Q.
  eapply post_bind_mono; [apply (new_PostOfficeInput_on_space _ _ _ _ fs); [by eapply keeps_booting|by eapply keeps_room|by eapply on_space_quiet]|].
  intros s6 Hs6. eapply post_bind_mono; [apply new_PostOfficeOutput_quiet|]. intros s7 Q7.
  eapply post_bind_mono; [apply new_PTable_quiet|]. intros s8 Q8. eapply post_mono; [apply new_STable_quiet|]. intros s9 Q9.
  apply (on_space_settled s9 fs). eapply on_space_quiet; [exact Hs6|]. exact (quiet_trans _ _ _ Q7 (quiet_trans _ _ _ Q8 Q9)).
Qed.

Lemma main_calls_ok w : code_ok None (SetLevelTo IntOn :: main_calls w).
Proof. split; [done|]. unfold main_calls. repeat (apply calm_app; [repeat case_match; repeat constructor|]). by repeat constructor. Qed.

Lemma main_settled argv h n : post (main argv h n) settled.
Proof.
  unfold main. apply post_any. intros w _. apply post_any. intros [o m] _.
  apply boot_settled; [apply main_calls_plain|apply main_calls_ok].
Qed.

Lemma reached argv h n k s s1 : main argv h n = Ok s -> Kernel.run k s s1 -> good s1 /\ settled s1.
Proof.
  intros Hm Hr. pose proof (post_elim _ _ _ (main_good argv h n) Hm) as Hg.
  pose proof (post_elim _ _ _ (main_settled argv h n) Hm) as Hs. by apply (run_settled k s s1).
Qed.

(** *** The theorems *)

(** C4. Processes are protected from each other, whatever programs they run, on
    any host, terminal and network.  In every state the kernel reaches no frame
    of memory belongs to the spaces of two threads, and the thread that runs has
    its own space installed, or is about to restore it; and no step changes the
    saved registers, the space or a byte of the memory of a thread other than
    the one that makes it, unless it deletes that thread. *)
Theorem processes_isolated argv h n k s s1 (Hstart : main argv h n = Ok s) (Hrun : Kernel.run k s s1) :
  (forall t t' fr fr' f, owns s1 t fr -> owns s1 t' fr' -> f ∈ fr -> f ∈ fr' -> t = t') /\
  (forall fr, owns s1 (cur s1) fr ->
    (exists fs, stacks (the_kern s1) !! cur s1 = Some (RunReturn (cur s1) :: fs)) \/ installed fr s1) /\
  forall s2 t fr, step s1 = Ok s2 -> t <> cur s1 -> owns s1 t fr ->
    profiles s2 !! t = None \/
    profiles s2 !! t = profiles s1 !! t /\
    exists m1 m2, machine s1 = Some m1 /\ machine s2 = Some m2 /\ forall b, (b / AddrSpace.page)%nat ∈ fr ->
      Machine.mainMemory m2 !! b = Machine.mainMemory m1 !! b.
Proof.
  destruct (reached argv h n k s s1 Hstart Hrun) as [Hg Hs]. pose proof (ap_disjoint _ (se_apart _ Hs)) as Hd.
  split; [done|]. split; [apply (se_installed _ Hs)|]. intros s2 t fr E Ht Ho.
  pose proof (post_elim _ _ _ (step_settled s1 Hg Hs) E) as (Hs2 & HS & _).
  destruct (HS t Ht fr Ho) as [|[Ep HB]]; [by left|right]. split; [done|].
  destruct (ap_frames _ (se_apart _ Hs)) as (m1 & l1 & Hf1). destruct (ap_frames _ (se_apart _ Hs2)) as (m2 & l2 & Hf2).
  exists m1, m2. pose proof (fo_machine _ _ _ Hf1). pose proof (fo_machine _ _ _ Hf2). split_and!; auto.
Qed.

(** C5. Multiprogramming is transparent: when a thread with a space gives the CPU
    away, by a yield, a sleep or a time slice, and whatever the other threads
    do meanwhile, once it has the CPU back and [SWITCH] has returned the machine
    has the registers and the page table it had, and every byte of the memory of
    the space is as it was left. *)
Theorem context_switch_transparent argv h n k s s1 s2 s3 s4 m fr (Hstart : main argv h n = Ok s)
    (Hrun : Kernel.run k s s1) (Hroom : room s1) (Hm : machine s1 = Some m) (Hown : owns s1 (cur s1) fr)
    (Hleave : step s1 = Ok s2) (Hne : cur s2 <> cur s1) (Haway : away (cur s1) s2 s3) (Hback : cur s3 = cur s1)
    (Hresume : step s3 = Ok s4) :
  cur s4 = cur s1 /\ exists m', machine s4 = Some m' /\ Machine.registers m' = Machine.registers m /\
    Machine.pageTable m' = Machine.pageTable m /\ runs_space fr m' /\
    forall b, (b / AddrSpace.page)%nat ∈ fr -> Machine.mainMemory m' !! b = Machine.mainMemory m !! b.
Proof.
  destruct (reached argv h n k s s1 Hstart Hrun) as [Hg Hs]. by apply (switch_transparent s1 s2 s3 s4).
Qed.
End ops.
End Protection.
