(* ===== verification/Halting.v ===== *)
(** Halting: [Interrupt::Halt] deletes the kernel, and [Kernel::~Kernel] of
    [threads/kernel.cc] deletes the file system, whose destructor deletes what
    the file table points to.  A table with a stale entry, one that points to
    what is already deleted, stays so through everything the kernel does, and
    the machine can then only end with a fault.  [Exec] leaves such an entry. *)

From S2P Require Import Prelude Bitmap Lists Machine Interrupt Disk HostFS AddrSpace Threads SelfTests Kernel System Console Network Process SysCall Nachos Safety.
Import Stats Interrupt Threads Kernel System Console Network Process SysCall Nachos Safety.

Module Halting.

(** ** The file table *)

Section table.
Context {N : Type} `{TCP N}.
Import StubFS.
Abbreviation FS := (StubFS.FS N).
Implicit Types (f : FS).

(** Entry [i] points to a slot that was deleted, or whose file was.  Addresses
    are not used again. *)
Definition stale_at f (i : nat) (p : loc) : Prop :=
  (i < Z.to_nat MaxFileOpen)%nat /\ fileSlot f !! i = Some (Some p) /\ (p < brk f)%positive /\
  match slots f !! p with
  | None => True
  | Some sl => exists g, fileOpen sl = Some g /\ (g < brk f)%positive /\ files f !! g = None
  end.
Definition stale f : Prop := exists i p, stale_at f i p.
(** Every stale entry stays one. *)
Definition keep f f' : Prop := forall i p, stale_at f i p -> stale_at f' i p.

Lemma keep_refl f : keep f f.
Proof. by intros i p. Qed.
Lemma keep_trans f1 f2 f3 : keep f1 f2 -> keep f2 f3 -> keep f1 f3.
Proof. unfold keep. auto. Qed.

(** The table is the same and nothing dead comes back to life. *)
Lemma keep_heap f f' : fileSlot f' = fileSlot f -> (brk f <= brk f')%positive ->
  (forall p : loc, (p < brk f)%positive -> slots f' !! p = slots f !! p \/ slots f' !! p = None) ->
  (forall g : loc, (g < brk f)%positive -> files f !! g = None -> files f' !! g = None) -> keep f f'.
Proof.
  intros Et Hb Hs Hf i p (Hi & Hp & Hpb & Hd). split; [done|]. rewrite Et. split; [done|].
  split; [lia|]. destruct (Hs p Hpb) as [-> | ->]; [|done].
  destruct (slots f !! p) as [sl|]; [|done]. destruct Hd as (g & Hg & Hgb & Hnone). exists g.
  split; [done|]. split; [lia|by apply Hf].
Qed.

Lemma set_host_keep f h : keep f (set_host f h).
Proof. apply keep_heap; auto; cbn; lia. Qed.
Lemma set_net_keep f n : keep f (set_net f n).
Proof. apply keep_heap; auto; cbn; lia. Qed.
Lemma set_brk_keep f : keep f (set_brk f (Pos.succ (brk f))).
Proof. apply keep_heap; auto; cbn; lia. Qed.
Lemma new_chars_keep bs f : keep f (new_chars bs f).2.
Proof. apply keep_heap; auto; cbn; lia. Qed.
Lemma delete_chars_keep p f : post (delete_chars p f) (keep f).
Proof. unfold delete_chars. apply post_any. intros _ _. apply keep_heap; auto; cbn; lia. Qed.

Lemma new_OpenFile_keep o f : keep f (new_OpenFile o f).2.
Proof.
  apply keep_heap; cbn; auto; [lia|]. intros g Hg. by rewrite lookup_insert_ne by lia.
Qed.
Lemma new_Slot_keep sl f : keep f (new_Slot sl f).2.
Proof.
  apply keep_heap; cbn; auto; [lia|]. intros p Hp. left. by rewrite lookup_insert_ne by lia.
Qed.
Lemma set_file_keep p o f : is_Some (files f !! p) -> keep f (set_file p o f).
Proof.
  intros [x Hx]. apply keep_heap; cbn; auto; [lia|]. intros g _ Hg. rewrite lookup_insert_ne; [done|congruence].
Qed.
Lemma live_is {A} (m : gmap loc A) p : post (live m p) (fun x => m !! p = Some x).
Proof. unfold live. by destruct (m !! p). Qed.

Lemma delete_OpenFile_keep p f : post (delete_OpenFile p f) (keep f).
Proof.
  unfold delete_OpenFile. do 2 (apply post_any; intros ? _). apply keep_heap; cbn; auto; [lia|].
  intros g _ Hg. by apply lookup_delete_None; right.
Qed.
Lemma delete_Slot_keep p f : post (delete_Slot p f) (keep f).
Proof.
  unfold delete_Slot. apply post_any. intros sl _. eapply (post_bind_mono (keep f)).
  - destruct (fileOpen sl); [apply delete_OpenFile_keep|apply keep_refl].
  - intros f1 K. eapply keep_trans; [exact K|]. destruct (fileSocket sl); apply keep_heap; cbn; auto; try lia;
      intros q _; rewrite lookup_delete; case_decide; auto.
Qed.

(** What a stale entry points to cannot be deleted. *)
Lemma delete_Slot_stale i p f : stale_at f i p -> delete_Slot p f = Fault UseAfterFree.
Proof.
  intros (_ & _ & _ & Hd). unfold delete_Slot, live. destruct (slots f !! p) as [sl|]; [|done]. cbn [rbind].
  destruct Hd as (g & -> & _ & Hg). unfold delete_OpenFile, live. by rewrite Hg.
Qed.

Lemma FindFreeSlot_free f : post (FindFreeSlot f) (fun id => id = -1 \/ arr_get (fileSlot f) id = Ok None).
Proof.
  unfold FindFreeSlot. eapply post_bind_mono.
  - apply (post_for_return (fun _ => True) (fun id => arr_get (fileSlot f) id = Ok None)); [done|].
    intros j t _. apply post_any. intros p E. case_bool_decide as Hp; [simpl; congruence|done].
  - intros [[]|id] Hid; [by left|by right].
Qed.

(** A free entry takes another slot, or an entry that is not stale is emptied. *)
Lemma put_slot_keep id sl f : arr_get (fileSlot f) id = Ok None -> post (put_slot id sl f) (keep f).
Proof.
  intros Hid. apply arr_get_inv in Hid as [Hid Hn]. unfold put_slot. apply post_any. intros t Ht.
  apply arr_set_inv in Ht as [_ ->]. intros i p (Hi & Hp & Hd). split; [done|]. cbn.
  split; [|done]. rewrite list_lookup_insert_ne; [done|]. intros E. rewrite <- E in Hp. by simplify_eq.
Qed.

Lemma Create_keep nm f : post (Create nm f) (fun '(_, f') => keep f f').
Proof. unfold Create. apply post_any. intros [fd h] _. destruct (fd =? -1); [apply set_host_keep|]. apply post_any. intros h' _. apply set_host_keep. Qed.
Lemma Remove_keep nm f : keep f (Remove nm f).2.
Proof. unfold Remove. destruct (Unix.Unlink _ _). apply set_host_keep. Qed.

Lemma Open_keep nm f : post (Open nm f) (fun '(_, f') => keep f f').
Proof.
  unfold Open. do 2 (apply post_any; intros ? _). destruct x0 as [fd h].
  destruct (fd =? -1); [apply set_host_keep|].
  eapply post_bind_mono; [apply FindFreeSlot_free|]. intros id Hid. destruct (Z.eqb_spec id (-1)); [apply set_host_keep|].
  destruct Hid as [?|Hid]; [done|]. pose proof (set_host_keep f h) as K0.
  pose proof (new_OpenFile_keep (OpenFile_n fd nm id) (set_host f h)) as K1.
  destruct (new_OpenFile _ _) as [g f1] eqn:E1. pose proof (new_Slot_keep (FileSlot_file (Some g)) f1) as K2.
  destruct (new_Slot _ _) as [sl f2] eqn:E2. injection E1 as _ <-. injection E2 as _ <-. cbn [snd] in *.
  eapply post_bind_mono; [by apply put_slot_keep|]. intros f3 K3. simpl.
  eapply keep_trans; [exact K0|]. eapply keep_trans; [exact K1|]. by eapply keep_trans.
Qed.
Lemma Open_type_keep nm type id f :
  post (Open_type nm type id f) (fun '(_, f') => keep f f' /\ fileSlot f' = fileSlot f).
Proof.
  unfold Open_type. do 2 (apply post_any; intros ? _). destruct x0 as [fd h].
  destruct (fd =? -1); (split; [|done]); [apply set_host_keep|]. eapply keep_trans; [apply set_host_keep|apply new_OpenFile_keep].
Qed.

Lemma createTCP_keep f : post (createTCP f) (fun '(_, f') => keep f f').
Proof.
  unfold createTCP. eapply post_bind_mono; [apply FindFreeSlot_free|]. intros id Hid.
  destruct (Z.eqb_spec id (-1)); [apply keep_refl|]. destruct Hid as [?|Hid]; [done|].
  apply post_any. intros [fd h] _. destruct (fd <? -1); [apply set_host_keep|].
  pose proof (set_host_keep f h) as K0. pose proof (new_Slot_keep (FileSlot_socket fd) (set_host f h)) as K2.
  destruct (new_Slot _ _) as [sl f2] eqn:E2. injection E2 as _ <-. cbn [snd] in *.
  eapply post_bind_mono; [by apply put_slot_keep|]. intros f3 K3. simpl. eapply keep_trans; [exact K0|]. by eapply keep_trans.
Qed.
Lemma connectTCP_keep id ip port f : post (connectTCP id ip port f) (fun '(_, f') => keep f f').
Proof.
  unfold connectTCP. destruct (bad_slot id); [apply keep_refl|]. apply post_any. intros p _.
  case_bool_decide; [apply keep_refl|]. apply post_any. intros fd _. destruct (ConnectTCP _ _ _ _). apply set_net_keep.
Qed.
Lemma sendTCP_keep id bs len f : post (sendTCP id bs len f) (fun '(_, f') => keep f f').
Proof.
  unfold sendTCP. destruct (bad_slot id); [apply keep_refl|]. apply post_any. intros p _.
  case_bool_decide; [apply keep_refl|]. apply post_any. intros fd _. destruct (_ && _); [|done].
  destruct (Send _ _ _). apply set_net_keep.
Qed.
Lemma receiveTCP_keep id len f : post (receiveTCP id len f) (fun '(_, _, f') => keep f f').
Proof.
  unfold receiveTCP. destruct (bad_slot id); [apply keep_refl|]. apply post_any. intros p _.
  case_bool_decide; [apply keep_refl|]. apply post_any. intros fd _. destruct (Receive _ _ _). apply set_net_keep.
Qed.
Lemma closeTCP_keep id f : post (closeTCP id f) (fun '(_, f') => keep f f').
Proof.
  unfold closeTCP. destruct (bad_slot id); [apply keep_refl|]. apply post_any. intros [p|] _; [|apply keep_refl].
  apply post_any. intros fd _. cbn zeta. eapply post_bind_mono; [apply delete_Slot_keep|]. intros f1 K. simpl.
  eapply keep_trans; [apply set_host_keep|exact K].
Qed.

(** An entry that is not stale is emptied. *)
Lemma delete_put_keep id p f f1 : arr_get (fileSlot f) id = Ok (Some p) -> delete_Slot p f = Ok f1 ->
  post (put_slot id None f1) (keep f).
Proof.
  intros Ep E1. apply arr_get_inv in Ep as [Hid Ep]. pose proof (post_elim _ _ _ (delete_Slot_keep p f) E1) as K1.
  unfold put_slot. apply post_any. intros t Et. apply arr_set_inv in Et as [_ ->]. simpl.
  intros i q Hst. assert (Hne : q <> p) by (intros ->; by rewrite (delete_Slot_stale i p f Hst) in E1).
  destruct (K1 i q Hst) as (Hi' & Hq & Hd). destruct Hst as (_ & Hq0 & _). split; [done|]. cbn. split; [|done].
  rewrite list_lookup_insert_ne; [done|]. intros E. rewrite E in Ep. by simplify_eq.
Qed.
Lemma CloseFile_keep id f : post (CloseFile id f) (fun '(_, f') => keep f f').
Proof.
  unfold CloseFile. destruct (_ || _); [apply keep_refl|]. apply post_any. intros [p|] Ep; [|apply keep_refl].
  apply post_any. intros f1 E1. eapply post_bind_mono; [by eapply delete_put_keep|]. by intros f2 K.
Qed.

(** The slot [Open] fills outlives the file it points to. *)
Lemma FindFreeSlot_below f : post (FindFreeSlot f) (fun id => id < MaxFileOpen).
Proof.
  unfold FindFreeSlot. eapply post_bind_mono.
  - apply (post_for_return_range (fun _ => True) (fun id => id < MaxFileOpen)); [done|].
    intros j t Hj _. apply post_any. intros p E. case_bool_decide as Hp; [simpl|done].
    unfold MaxFileOpen, reverseFD in *. lia.
  - intros [[]|id] Hid; [simpl; unfold MaxFileOpen; lia|done].
Qed.
Lemma Open_then_delete nm f : post (Open nm f) (fun '(r, f1) => forall g, r = Some g ->
  post (delete_OpenFile g f1) stale).
Proof.
  unfold Open. do 2 (apply post_any; intros ? _). destruct x0 as [fd h]. destruct (fd =? -1); [by intros g [=]|].
  apply post_any. intros id Eid. pose proof (post_elim _ _ _ (FindFreeSlot_below _) Eid) as Hlt. cbn beta in Hlt.
  destruct (Z.eqb_spec id (-1)); [by intros g [=]|]. cbn [new_OpenFile new_Slot].
  apply post_any. intros f3 E3. simpl. intros g [= <-]. unfold put_slot in E3.
  apply bind_Ok_inv in E3 as (t & Et & E3). injection E3 as <-. apply arr_set_inv in Et as [Hid ->].
  unfold delete_OpenFile. do 2 (apply post_any; intros ? _). simpl.
  exists (Z.to_nat id), (Pos.succ (brk f)). split; [lia|]. cbn in *. split; [apply list_lookup_insert_eq; unfold zlen in *; cbn in *; lia|].
  split; [lia|]. rewrite lookup_insert_eq. exists (brk f). split; [done|]. split; [lia|]. by rewrite lookup_delete_eq.
Qed.

(** *** Open files *)

Lemma ReadAt_keep p n pos f : post (ReadAt p n pos f) (fun '(_, f') => keep f f' /\ files f' = files f).
Proof. unfold ReadAt. do 2 (apply post_any; intros ? _). apply post_any. intros [r h] _. split; [apply set_host_keep|done]. Qed.
Lemma WriteAt_keep p bs n pos f : post (WriteAt p bs n pos f) (fun '(_, f') => keep f f' /\ files f' = files f).
Proof.
  unfold WriteAt. do 2 (apply post_any; intros ? _). destruct (_ && _); [|done].
  apply post_any. intros h _. split; [apply set_host_keep|done].
Qed.
Lemma Read_keep p n f : post (Read p n f) (fun '(_, f') => keep f f').
Proof.
  unfold Read. eapply post_bind_mono; [apply live_is|]. intros o Ho.
  eapply post_bind_mono; [apply ReadAt_keep|]. intros [r f1] [K E]. simpl.
  eapply keep_trans; [exact K|]. apply set_file_keep. by rewrite E, Ho.
Qed.
Lemma Write_keep p bs n f : post (Write p bs n f) (fun '(_, f') => keep f f').
Proof.
  unfold Write. eapply post_bind_mono; [apply live_is|]. intros o Ho.
  eapply post_bind_mono; [apply WriteAt_keep|]. intros [r f1] [K E]. simpl.
  eapply keep_trans; [exact K|]. apply set_file_keep. by rewrite E, Ho.
Qed.
Lemma Length_keep p f : post (Length p f) (fun '(_, f') => keep f f').
Proof. unfold Length. do 2 (apply post_any; intros ? _). apply set_host_keep. Qed.
Lemma GetCurrentPos_keep p f : post (GetCurrentPos p f) (fun '(_, f') => keep f f').
Proof. unfold GetCurrentPos. eapply post_bind_mono; [apply live_is|]. intros o Ho. apply set_file_keep. by rewrite Ho. Qed.
Lemma Seek_keep p pos f : post (Seek p pos f) (fun '(_, f') => keep f f').
Proof.
  unfold Seek. eapply post_bind_mono; [apply live_is|]. intros o Ho. apply post_any. intros h _. simpl.
  eapply keep_trans; [apply set_host_keep|]. apply set_file_keep. cbn. by rewrite Ho.
Qed.

(** *** The destructor *)

Lemma Close_fault fd h e : Unix.Close fd h = Fault e -> e = AssertFailed.
Proof. unfold Unix.Close. destruct (bool_decide _); [done|]. by intros [= <-]. Qed.

(** The faults of the destructors; none of them ends the process. *)
Definition crash (e : fault) : Prop := e = UseAfterFree \/ e = AssertFailed \/ e = OutOfBounds.

Lemma delete_Slot_crash p f e : delete_Slot p f = Fault e -> crash e.
Proof.
  unfold delete_Slot, live, crash. destruct (slots f !! p) as [sl|]; [|intros [= <-]; by left]. cbn [rbind].
  destruct (fileOpen sl) as [g|]; [|done]. unfold delete_OpenFile, live.
  destruct (files f !! g) as [o|]; [|intros [= <-]; by left]. cbn [rbind].
  destruct (Unix.Close _ _) eqn:E; [done|]. cbn. intros [= <-]. apply Close_fault in E. auto.
Qed.

(** Deleting the file system reaches every entry. *)
Lemma delete_FileSystem_stale f : stale f -> exists e, delete_FileSystem f = Fault e /\ crash e.
Proof.
  intros (i & p & Hst). unfold delete_FileSystem.
  assert (Hrun : forall n j f, stale_at f i p -> (Z.to_nat j <= i < Z.to_nat j + n)%nat -> 0 <= j ->
    exists e, for_range n j (fun i s => p ← arr_get (fileSlot s) i;
      match p with Some p => delete_Slot p s | None => Ok s end) f = Fault e /\ crash e).
  { clear f Hst. intros n. induction n as [|n IH]; intros j f Hst Hi Hj; [lia|]. cbn [for_range].
    destruct (arr_get (fileSlot f) j) as [[q|]|e] eqn:Eq; cbn [rbind].
    - destruct (delete_Slot q f) as [f1|e] eqn:Ed; cbn [rbind]; [|by eauto using delete_Slot_crash].
      apply IH; [|destruct (decide (i = Z.to_nat j)) as [E|]; [|lia]|lia].
      + by apply (post_elim _ _ _ (delete_Slot_keep q f) Ed).
      + apply arr_get_inv in Eq as [_ Eq]. destruct Hst as (Hi' & Hp & Hr). rewrite E, Eq in Hp. injection Hp as ->.
        rewrite (delete_Slot_stale i p f) in Ed; [done|]. split; [done|]. by rewrite E.
    - apply IH; [done|destruct (decide (i = Z.to_nat j)) as [E|]; [|lia]|lia].
      apply arr_get_inv in Eq as [_ Eq]. destruct Hst as (_ & Hp & _). by rewrite E, Eq in Hp.
    - exists e. split; [done|]. unfold arr_get in Eq. right. right.
      destruct (0 <=? j); [|congruence]. destruct (fileSlot f !! Z.to_nat j); congruence. }
  apply Hrun; [exact Hst| |done]. destruct Hst as (Hi & _). change (Z.to_nat 0) with 0%nat. lia.
Qed.
End table.

(** ** The thread machine *)

(** The instructions of the threads touch the rest of the system only through
    the handlers and the client code they call. *)
Section lift.
Context {C U D : Type} `{EqDecision C} `{Client C U D} (K : D -> D -> Prop) `{!PreOrder K}.
Abbreviation state := (Sim C (World U D)).
Implicit Types (s : state).

Definition below s s' : Prop := K (dev (rest s)) (dev (rest s')).

Context (handler_below : forall (c : C) s, post (handler c s) (below s)).
Context (ustep_below : forall (u : U) s, post (ustep u s) (fun '(_, s') => below s s')).

Lemma below_refl s : below s s.
Proof using PreOrder0. unfold below. reflexivity. Qed.
Lemma below_trans s1 s2 s3 : below s1 s2 -> below s2 s3 -> below s1 s3.
Proof using PreOrder0. unfold below. intros ? ?. by etransitivity. Qed.

Create HintDb below.
#[local] Hint Resolve handler_below ustep_below : below.
Ltac belows :=
  repeat match goal with H : _ /\ _ |- _ => destruct H end; cbn beta iota in *;
  first
  [ match goal with |- below ?a _ => exact (below_refl a) end
  | match goal with B : below ?c ?d |- below ?a ?b =>
      apply (below_trans a c b); [clear B; belows|exact B] end ].
Ltac below_run := repeat (run_with ltac:(eauto 2 with below)); belows.

Lemma fire_below s : post (fire s) (fun '(_, s') => below s s').
Proof using handler_below PreOrder0. unfold fire. cbn [CallBack client_devices]. below_run. Qed.
Lemma fire_loop_below n s : post (fire_loop n s) (below s).
Proof using handler_below PreOrder0.
  apply post_intro. intros s' E. revert E. unfold fire_loop. apply (loop_inv (below s)); [apply below_refl|].
  intros r x Hr E. apply bind_Ok_inv in E as ([again r1] & E & E'). injection E' as <-.
  pose proof (post_elim _ _ _ (fire_below r) E) as Hq. destruct again; by eapply below_trans.
Qed.
#[local] Hint Resolve fire_loop_below : below.
Lemma CheckIfDue_below b s : post (CheckIfDue b s) (fun '(_, s') => below s s').
Proof using handler_below PreOrder0.
  unfold CheckIfDue. apply post_any. intros _ _. destruct (Lists.IsEmpty _); [apply below_refl|].
  apply post_any. intros next _. destruct (_ && _); [apply below_refl|]. cbn zeta. set (s1 := if _ <? _ then _ else s).
  assert (B1 : below s s1) by (unfold s1; repeat case_match; exact (below_refl s)). clearbody s1. below_run.
Qed.
#[local] Hint Resolve CheckIfDue_below : below.
Lemma tick_below s : post (tick s) (below s).
Proof using handler_below PreOrder0. unfold tick. below_run. Qed.
Lemma Idle_below s : post (Idle s) (below s).
Proof using handler_below PreOrder0. unfold Idle, Halt. below_run. Qed.
#[local] Hint Resolve tick_below Idle_below : below.

(** *** The machine's own calls *)

Lemma ReadyToRun_below t s : post (ReadyToRun t s) (below s).
Proof using PreOrder0. unfold ReadyToRun. below_run. Qed.
Lemma FindNextToRun_below s : post (FindNextToRun s) (fun '(_, s') => below s s').
Proof using PreOrder0. unfold FindNextToRun. below_run. Qed.
Lemma user_state_below t s : post (SaveUserState t s) (below s) /\ post (RestoreUserState t s) (below s).
Proof using PreOrder0. unfold SaveUserState, RestoreUserState. split; below_run. Qed.
Lemma delete_Thread_below t s : post (delete_Thread t s) (below s).
Proof using PreOrder0. unfold delete_Thread. below_run. Qed.
#[local] Hint Resolve ReadyToRun_below FindNextToRun_below delete_Thread_below : below.
#[local] Hint Extern 1 (post (SaveUserState _ _) _) => apply user_state_below : below.
#[local] Hint Extern 1 (post (RestoreUserState _ _) _) => apply user_state_below : below.
Lemma CheckToBeDestroyed_below s : post (CheckToBeDestroyed s) (below s).
Proof using PreOrder0. unfold CheckToBeDestroyed. below_run. Qed.
#[local] Hint Resolve CheckToBeDestroyed_below : below.
Lemma Run_below t fin s : post (Run t fin s) (fun '(_, s') => below s s').
Proof using PreOrder0. unfold Run. below_run. Qed.
Lemma deletes_below p s : post (delete_Semaphore p s) (below s) /\ post (delete_Lock p s) (below s) /\
  post (delete_Condition p s) (below s) /\ post (delete_SynchList p s) (below s).
Proof using PreOrder0. unfold delete_SynchList, delete_Lock, delete_Condition, delete_Semaphore. split_and!; below_run. Qed.
Lemma V_below p s : post (V_ p s) (fun '(_, s') => below s s').
Proof using PreOrder0. unfold V_. cbn [SetLevelOff]. below_run. Qed.
Lemma Sleep_below t fin s : post (Sleep_ t fin s) (fun '(_, s') => below s s').
Proof using PreOrder0. unfold Sleep_. below_run. Qed.
#[local] Hint Resolve Run_below V_below Sleep_below : below.
#[local] Hint Extern 1 (post (delete_Semaphore _ _) _) => apply deletes_below : below.
#[local] Hint Extern 1 (post (delete_Lock _ _) _) => apply deletes_below : below.
#[local] Hint Extern 1 (post (delete_Condition _ _) _) => apply deletes_below : below.
#[local] Hint Extern 1 (post (delete_SynchList _ _) _) => apply deletes_below : below.

Lemma exec_below i s : post (exec i s) (fun '(_, s') => below s s').
Proof using handler_below ustep_below PreOrder0.
  destruct i; cbn [exec].
  all: unfold SetLevel_, OneTick_, Begin_, Finish_, Yield_, SleepLoop_, RunReturn_, P_, PLoop_, Acquire_, Acquired_,
    Release_, Wait_, Signal_, Broadcast_, ListAppend_, ListAppended_, ListRemoveFront_, ListRemoveLoop_, ListApply_,
    ListApplied_, Fork, new_Thread, StackAllocate, new_SynchList, new_Lock, new_Condition, new_Semaphore; cbn [SetLevelOff].
  all: below_run.
Qed.

Lemma step_below s : post (step s) (below s).
Proof using handler_below ustep_below PreOrder0.
  unfold step. cbn zeta. destruct (stacks (the_kern s) !! cur s) as [[|i fs]|]; [done| |done].
  eapply post_bind_mono; [apply exec_below|]. intros [calls s'] B. exact B.
Qed.

(** So what holds of the rest of the system and is kept by [K] holds for good. *)
Lemma run_below k s s' : run k s s' -> below s s'.
Proof using handler_below ustep_below PreOrder0.
  induction 1 as [s|k s1 s2 s3 _ E R IH]; [apply below_refl|].
  eapply below_trans; [|exact IH]. by apply (post_elim _ _ _ (step_below s1)).
Qed.
End lift.

(** ** The kernel *)

Create HintDb kept.
#[export] Hint Resolve new_chars_keep delete_chars_keep Create_keep Remove_keep Open_keep Open_type_keep
  createTCP_keep connectTCP_keep sendTCP_keep receiveTCP_keep closeTCP_keep CloseFile_keep Read_keep Write_keep
  ReadAt_keep Length_keep GetCurrentPos_keep Seek_keep delete_OpenFile_keep : kept.

Section ops.
Context {N : Type} `{Outside N} `{TCP N} `{Garbage}.
Abbreviation state := (Sim device (World code (Sys N))).
Abbreviation frames := (Datatypes.list (instr code)).
Implicit Types (s : state).

Definition kept s s' : Prop := keep (the_fs s) (the_fs s').

Lemma kept_refl s : kept s s.
Proof. apply keep_refl. Qed.
Lemma kept_trans s1 s2 s3 : kept s1 s2 -> kept s2 s3 -> kept s1 s3.
Proof. apply keep_trans. Qed.
Lemma put_fs_kept f s : keep (the_fs s) f -> kept s (put_fs f s).
Proof. done. Qed.

(** Goals [keep f f'], by the steps from [f] to [f']. *)
Ltac keeping :=
  repeat match goal with H : _ /\ _ |- _ => destruct H end; unfold kept in *; cbn beta iota in *;
  first
  [ match goal with |- keep ?a _ => exact (keep_refl a) end
  | match goal with B : keep ?c ?d |- keep ?a ?b =>
      apply (keep_trans a c b); [clear B; keeping|exact B] end
  | match goal with |- keep ?a (StubFS.set_host ?f ?h) => apply (keep_trans a f); [keeping|apply set_host_keep] end
  | match goal with |- keep ?a (StubFS.set_net ?f ?h) => apply (keep_trans a f); [keeping|apply set_net_keep] end
  | match goal with |- keep ?a (StubFS.set_brk ?f _) => apply (keep_trans a f); [keeping|apply set_brk_keep] end
  | match goal with |- keep _ (the_fs _) => progress cbn [the_fs the_sys put_fs put_net on_sys on_host rest dev set_fs set_pcbs set_mails fileSystem]; keeping end ].
Ltac keep_step :=
  match goal with
  | |- post (let '(_, _) := StubFS.new_chars ?bs ?f in _) _ =>
      let K := fresh in pose proof (new_chars_keep bs f) as K; destruct (StubFS.new_chars bs f); cbn [snd] in K
  | |- post (let '(_, _) := StubFS.Remove ?bs ?f in _) _ =>
      let K := fresh in pose proof (Remove_keep bs f) as K; destruct (StubFS.Remove bs f); cbn [snd] in K
  | |- _ => run_with ltac:(eauto 2 with kept)
  end.
Ltac keeps := repeat keep_step; keeping.

Lemma new_PCB_kept a b s : kept s (new_PCB a b s).2.
Proof. unfold new_PCB, new_Semaphore. cbn beta iota. cbn [snd]. keeping. Qed.
Lemma on_fs_kept {A} (op : StubFS.FS N -> res (A * StubFS.FS N)) s :
  post (op (the_fs s)) (fun '(_, f') => keep (the_fs s) f') -> post (on_fs op s) (fun '(_, s') => kept s s').
Proof. intros Hop. unfold on_fs. eapply post_bind_mono; [exact Hop|]. by intros [r f] K. Qed.
#[local] Hint Resolve on_fs_kept : kept.

(** *** Registers and memory *)

Lemma WriteRegister_kept r v s : post (WriteRegister r v s) (kept s).
Proof. unfold WriteRegister. keeps. Qed.
Lemma ReadMem_kept a s : post (ReadMem a s) (fun '(_, s') => kept s s').
Proof. unfold ReadMem. keeps. Qed.
Lemma WriteMem_kept a v s : post (WriteMem a v s) (kept s).
Proof. unfold WriteMem. keeps. Qed.
#[local] Hint Resolve WriteRegister_kept ReadMem_kept WriteMem_kept : kept.

Lemma User2System_kept a l s : post (User2System a l s) (fun '(_, s') => kept s s').
Proof.
  unfold User2System. apply post_any. intros buf _. eapply post_bind_mono.
  - apply (post_for_return (fun '(_, t) => kept s t) (fun '(_, t) => kept s t)); [apply kept_refl|].
    intros j [b t] Ht. keeps.
  - intros [[b t]|[b t]]; done.
Qed.
Lemma System2User_kept a l bs s : post (System2User a l bs s) (fun '(_, s') => kept s s').
Proof.
  unfold System2User. do 2 (keep_step; [simpl; keeping|]). eapply post_bind_mono.
  - apply (post_for_return (fun t => kept s t) (fun '(_, t) => kept s t)); [apply kept_refl|].
    intros j t Ht. keeps.
  - intros [t|[b t]]; done.
Qed.
#[local] Hint Resolve User2System_kept System2User_kept : kept.

(** *** Devices *)

Lemma PollFile_kept fd s : post (PollFile fd s) (fun '(_, s') => kept s s').
Proof. unfold PollFile, put_net. keeps. Qed.
Lemma ReadChar_kept fd s : post (ReadChar fd s) (fun '(_, s') => kept s s').
Proof. unfold ReadChar, put_net. keeps. Qed.
Lemma WriteChar_kept fd c s : post (WriteChar fd c s) (kept s).
Proof. unfold WriteChar, put_net. keeps. Qed.
Lemma Schedule_kept c t k s : post (Schedule c t k s) (kept s).
Proof.
  apply post_intro. intros s' E. destruct (Schedule_frame _ _ _ _ _ E) as (R & _). unfold kept, the_fs, the_sys.
  rewrite R. apply keep_refl.
Qed.
#[local] Hint Resolve PollFile_kept ReadChar_kept WriteChar_kept Schedule_kept : kept.
Lemma ConsoleInput_GetChar_kept s : post (ConsoleInput_GetChar s) (fun '(_, s') => kept s s').
Proof. unfold ConsoleInput_GetChar. destruct (negb _); keeps. Qed.
Lemma ConsoleOutput_PutChar_kept c s : post (ConsoleOutput_PutChar c s) (kept s).
Proof. unfold ConsoleOutput_PutChar. keeps. Qed.
Lemma ReadFromSocket_kept k n s : post (ReadFromSocket k n s) (fun '(_, s') => kept s s').
Proof. unfold ReadFromSocket, put_net. destruct (recvfrom _ _ _). keeps. Qed.
Lemma SendToSocket_kept k bs nm s : post (SendToSocket k bs nm s) (kept s).
Proof.
  unfold SendToSocket. eapply post_bind_mono.
  - apply (post_for_return (kept s) (kept s)); [apply kept_refl|].
    intros j t Ht. unfold put_net. destruct (sendto _ _ _ _). keeps.
  - intros [t|t]; done.
Qed.
#[local] Hint Resolve ReadFromSocket_kept SendToSocket_kept : kept.
Lemma NetworkOutput_Send_kept junk h bs s : post (NetworkOutput_Send junk h bs s) (kept s).
Proof. unfold NetworkOutput_Send, put_net. keeps. Qed.
Lemma ReadRequest_kept n d s : post (Disk.ReadRequest DiskDrive n d s) (fun '(_, s') => kept s s').
Proof. unfold Disk.ReadRequest. keeps. Qed.
Lemma WriteRequest_kept n bs d s : post (Disk.WriteRequest DiskDrive n bs d s) (fun '(_, s') => kept s s').
Proof. unfold Disk.WriteRequest. keeps. Qed.
#[local] Hint Resolve ConsoleInput_GetChar_kept ConsoleOutput_PutChar_kept NetworkOutput_Send_kept
  ReadRequest_kept WriteRequest_kept : kept.

(** *** Processes, mail and programs *)

Lemma copy_string_kept p s : post (copy_string p s) (fun '(_, s') => kept s s').
Proof. unfold copy_string. keeps. Qed.
Lemma new_Mail_kept p m bs s : post (new_Mail p m bs s) (fun '(_, s') => kept s s').
Proof. unfold new_Mail. keeps. Qed.
Lemma load_segment_keep pt x sg n st :
  post (AddrSpace.load_segment pt x sg n st) (fun st' => keep (N := N) st.2 st'.2).
Proof.
  unfold AddrSpace.load_segment. apply (post_for_range (fun st' => keep st.2 st'.2)); [apply keep_refl|].
  intros j [mem f] Hf. unfold AddrSpace.load_byte. repeat keep_step; simpl in *; keeping.
Qed.
Lemma load_segments_keep pt x h mem f :
  post (AddrSpace.load_segments pt x h (mem, f)) (fun '(_, f') => keep (N := N) f f').
Proof.
  unfold AddrSpace.load_segments. eapply (post_bind_mono (fun st => keep f st.2)).
  { destruct (0 <? _); [apply load_segment_keep|apply keep_refl]. }
  intros [mem1 f1] K1. apply post_any. intros mem2 _. cbn [snd] in K1.
  eapply (post_bind_mono (fun st => keep f st.2)).
  { destruct (0 <? _); [|exact K1]. eapply post_mono; [apply load_segment_keep|]. intros st K. by eapply keep_trans. }
  intros [mem3 f3] K3. cbn [snd] in K3. destruct (0 <? _); [|exact K3].
  eapply post_mono; [apply load_segment_keep|]. intros [mem4 f4] K. by eapply keep_trans.
Qed.
#[local] Hint Resolve load_segments_keep copy_string_kept new_Mail_kept : kept.
Lemma Load_kept nm args a s : post (Load nm args a s) (fun '(_, s') => kept s s').
Proof. unfold Load, AddrSpace.Load. keeps. Qed.
#[local] Hint Resolve Load_kept : kept.

(** *** Every piece of the kernel *)

Abbreviation keeps_all s r := (post r (fun '(_, s') => kept s s')).

Lemma PCIncrease_kept s : keeps_all s (PCIncrease_ s).
Proof. unfold PCIncrease_. keeps. Qed.
#[local] Hint Resolve PCIncrease_kept : kept.
Lemma return_to_user_kept r s : keeps_all s (return_to_user r s).
Proof. unfold return_to_user. keeps. Qed.
#[local] Hint Resolve return_to_user_kept : kept.

Lemma console_kept s :
  keeps_all s (GetChar_ s) /\ keeps_all s (GetChar_got_ s) /\ (forall c, keeps_all s (PutChar_ c s)) /\
  (forall c, keeps_all s (PutChar_put_ c s)) /\ keeps_all s (ConsoleTest_ s) /\ keeps_all s (ConsoleTest_got_ s).
Proof.
  unfold GetChar_, GetChar_got_, PutChar_, PutChar_put_, ConsoleTest_, ConsoleTest_got_.
  split_and!; intros; keeps.
Qed.

Lemma network_kept s :
  (forall b, keeps_all s (PostalDelivery_ b s)) /\ (forall b, keeps_all s (PostalDelivery_got_ b s)) /\
  (forall b, keeps_all s (PostReceive_ b s)) /\ keeps_all s (PostReceive_got_ s) /\
  (forall p m d, keeps_all s (PostSend_ p m d s)) /\ (forall j p b, keeps_all s (PostSend_locked_ j p b s)) /\
  keeps_all s (NetworkTest_ s) /\ keeps_all s (NetworkTest_got_ s) /\ keeps_all s (NetworkTest_acked_ s) /\
  (forall n, keeps_all s (ReadSector_ n s)) /\ (forall n, keeps_all s (ReadSector_locked_ n s)) /\
  (forall n d, keeps_all s (WriteSector_ n d s)) /\ (forall n d, keeps_all s (WriteSector_locked_ n d s)).
Proof.
  unfold PostalDelivery_, PostalDelivery_got_, PostReceive_, PostReceive_got_, PostSend_, PostSend_locked_,
    NetworkTest_, NetworkTest_got_, NetworkTest_acked_, ReadSector_, ReadSector_locked_, WriteSector_,
    WriteSector_locked_, MailBox_Put, NetworkInput_Receive, MailBox_got.
  split_and!; intros; keeps.
Qed.
Lemma ustep_pieces_kept s :
  (forall p c, keeps_all s (PCB_Exec_ p c s)) /\ (forall p c, keeps_all s (PCB_Exec_in_ p c s)) /\
  (forall p, keeps_all s (IncNumWait_ p s)) /\ (forall p, keeps_all s (IncNumWait_in_ p s)) /\
  (forall p, keeps_all s (DecNumWait_ p s)) /\ (forall p, keeps_all s (DecNumWait_in_ p s)) /\
  (forall c, keeps_all s (ExecUpdate_ c s)) /\ (forall c, keeps_all s (ExecUpdate_in_ c s)) /\
  (forall i c, keeps_all s (ExecUpdate_exec_ i c s)) /\ (forall i, keeps_all s (JoinUpdate_ i s)) /\
  (forall i, keeps_all s (JoinUpdate_joined_ i s)) /\ (forall i, keeps_all s (JoinUpdate_counted_ i s)) /\
  (forall i, keeps_all s (ExitUpdate_ i s)) /\ (forall i, keeps_all s (ExitUpdate_released_ i s)) /\
  (forall i, keeps_all s (ExitUpdate_counted_ i s)) /\ (forall nm, keeps_all s (STable_Wait_ nm s)) /\
  (forall nm, keeps_all s (STable_Signal_ nm s)).
Proof.
  unfold PCB_Exec_, PCB_Exec_in_, IncNumWait_, IncNumWait_in_, DecNumWait_, DecNumWait_in_, ExecUpdate_,
    ExecUpdate_exec_, JoinUpdate_, JoinUpdate_joined_, JoinUpdate_counted_, ExitUpdate_,
    ExitUpdate_released_, ExitUpdate_counted_, STable_Wait_, STable_Signal_, JoinWait, ExitWait, JoinRelease,
    ExitRelease, Sem_wait, Sem_signal, SetExitCode, put_pcb.
  split_and!; intros; try solve [keeps].
  unfold ExecUpdate_in_. apply post_any. intros [pid b] _. destruct (_ =? _); [simpl; keeping|].
  apply post_any. intros parent _. pose proof (new_PCB_kept parent pid (set_bm b s)) as K1.
  destruct (new_PCB _ _ _) as [p s1]. unfold set_pcb. cbn [snd] in K1. keeps.
Qed.

Lemma files_kept s :
  keeps_all s (handle_SC_Add s) /\ keeps_all s (handle_SC_Create s) /\
  keeps_all s (handle_SC_Read s) /\ keeps_all s (handle_SC_Write s) /\
  keeps_all s (handle_SC_Seek s) /\ keeps_all s (handle_SC_Remove s).
Proof.
  unfold handle_SC_Add, handle_SC_Create, handle_SC_Read, handle_SC_Write, handle_SC_Seek, handle_SC_Remove, receive.
  split_and!; intros; keeps.
Qed.
Lemma Open_kept s : keeps_all s (handle_SC_Open s).
Proof.
  unfold handle_SC_Open. do 3 keep_step. pose proof (new_chars_keep l (the_fs s0)) as K0.
  destruct (StubFS.new_chars l (the_fs s0)) as [nm f] eqn:E0. cbn [snd] in K0.
  eapply post_bind_mono; [apply FindFreeSlot_free|]. intros id Hid.
  destruct (Z.eqb_spec id (-1)) as [|Hne]; cbn [negb]; [keeps|].
  destruct Hid as [?|Hid]; [done|]. eapply (post_bind_mono (fun '(_, f') => keep f f')).
  - destruct (_ || _); [|destruct (_ =? _); apply keep_refl].
    eapply post_bind_mono; [apply Open_type_keep|]. intros [o f1] [K1 E1].
    pose proof (new_Slot_keep (StubFS.FileSlot_file o) f1) as K2.
    assert (E2 : StubFS.fileSlot (StubFS.new_Slot (StubFS.FileSlot_file o) f1).2 = StubFS.fileSlot f1) by done.
    destruct (StubFS.new_Slot _ f1) as [sl f2]. cbn [snd] in *.
    eapply post_bind_mono; [apply put_slot_keep; by rewrite E2, E1|]. intros f3 K3. simpl.
    eapply keep_trans; [exact K1|]. by eapply keep_trans.
  - intros [r f1] K1. keeps.
Qed.

Lemma Close_kept s : keeps_all s (handle_SC_Close s).
Proof.
  unfold handle_SC_Close, slot. apply post_any. intros id _. destruct (_ && _); [|keeps].
  apply post_any. intros [p|] Ep; [|keeps]. apply post_any. intros type _. destruct (_ =? _); [keeps|].
  apply post_any. intros f1 E1. eapply post_bind_mono; [by eapply delete_put_keep|]. intros f2 K. keeps.
Qed.

Lemma socket_kept s :
  keeps_all s (handle_SC_SocketTCP_Open s) /\ keeps_all s (handle_SC_SocketTCP_Connect s) /\
  keeps_all s (handle_SC_SocketTCP_Send s) /\ keeps_all s (handle_SC_SocketTCP_Receive s) /\
  keeps_all s (handle_SC_SocketTCP_Close s).
Proof.
  unfold handle_SC_SocketTCP_Open, handle_SC_SocketTCP_Connect, handle_SC_SocketTCP_Send,
    handle_SC_SocketTCP_Receive, handle_SC_SocketTCP_Close, receive.
  split_and!; intros; keeps.
Qed.

Lemma ExecV_kept s : keeps_all s (handle_SC_ExecV s).
Proof.
  unfold handle_SC_ExecV. do 3 keep_step. eapply post_bind_mono.
  - apply (post_for_range (fun '(_, _, t) => kept s t)); [keeping|].
    intros j [[v argv] t] Ht. keeps.
  - intros [[v argv] t] Ht. keeps.
Qed.

Lemma exec_kept s :
  keeps_all s (handle_SC_Exec s) /\ keeps_all s (handle_SC_Wait s) /\ keeps_all s (handle_SC_Signal s) /\
  keeps_all s (handle_SC_Join s) /\ keeps_all s (handle_SC_Exit s) /\ keeps_all s (handle_SC_CreateSemaphore s).
Proof.
  unfold handle_SC_Exec, handle_SC_Wait, handle_SC_Signal, handle_SC_Join, handle_SC_Exit,
    handle_SC_CreateSemaphore, STable_Create, STable_FindFreeSlot, new_Sem, new_Semaphore.
  split_and!; intros; keeps.
Qed.

Lemma rest_kept s :
  (forall v n b, keeps_all s (Read_loop_ v n b s)) /\ (forall v n b, keeps_all s (Read_got_ v n b s)) /\
  (forall n b i, keeps_all s (Write_loop_ n b i s)) /\ (forall i, keeps_all s (Write_done_ i s)) /\
  (forall nm, keeps_all s (Exec_done_ nm s)) /\ keeps_all s (SetResult_ s) /\ keeps_all s (Exit_done_ s) /\
  keeps_all s (PCIncrease_ s).
Proof.
  unfold Read_loop_, Read_got_, Read_end, Write_loop_, Write_done_, Exec_done_, SetResult_, Exit_done_, SysHalt, Halt.
  split_and!; intros; keeps.
Qed.
Lemma ExceptionHandler_kept which s : keeps_all s (ExceptionHandler_ which s).
Proof.
  destruct (files_kept s) as (? & ? & ? & ? & ? & ?). destruct (socket_kept s) as (? & ? & ? & ? & ?).
  destruct (exec_kept s) as (? & ? & ? & ? & ? & ?). pose proof (ExecV_kept s).
  pose proof (Open_kept s). pose proof (Close_kept s).
  unfold ExceptionHandler_. do 2 keep_step; try done. unfold syscall.
  repeat (destruct (_ =? _); [done|]). done.
Qed.

Lemma new_args_keep (args : Datatypes.list Unix.path) (argv : Datatypes.list loc) (f : StubFS.FS N) : keep f (foldl (fun '(argv, f) arg =>
  let '(q, f) := StubFS.new_chars (arg ++ replicate (100 - length arg) 0) f in (argv ++ [q], f)) (argv, f) args).2.
Proof.
  revert argv f. induction args as [|x args IH]; intros argv f; cbn [foldl]; [apply keep_refl|].
  pose proof (new_chars_keep (x ++ replicate (100 - length x) 0) f) as K1.
  destruct (StubFS.new_chars _ f) as [q f1]. eapply keep_trans; [exact K1|apply IH].
Qed.

Lemma run_kept s :
  keeps_all s (RunUser_ s) /\ (forall arg, keeps_all s (RunProcess_ arg s)) /\
  (forall nm args, keeps_all s (Main_ nm args s)).
Proof.
  unfold RunUser_, RunProcess_, Main_, SysHalt, Halt, Nachos.Execute.
  split_and!; [keeps|intros arg; keeps|intros [nm|] strs; [|done]].
  pose proof (new_chars_keep (nm ++ [0]) (the_fs s)) as K1. destruct (StubFS.new_chars _ _) as [p f1].
  pose proof (new_args_keep strs [] f1) as K2. destruct (foldl _ _ strs) as [av f2]. cbn [snd] in *. keeps.
Qed.

Lemma ustep_kept u s : keeps_all s (Nachos.ustep_ u s).
Proof.
  destruct (console_kept s) as (? & ? & ? & ? & ? & ?).
  destruct (network_kept s) as (? & ? & ? & ? & ? & ? & ? & ? & ? & ? & ? & ? & ?).
  destruct (ustep_pieces_kept s) as (? & ? & ? & ? & ? & ? & ? & ? & ? & ? & ? & ? & ? & ? & ? & ? & ?).
  destruct (rest_kept s) as (? & ? & ? & ? & ? & ? & ? & ?). destruct (run_kept s) as (? & ? & ?).
  pose proof (ExceptionHandler_kept). destruct u; cbn [ustep_]; try match goal with K : _ |- _ => solve [apply K] end.
  apply post_intro. intros [calls s'] E. apply SelfTests.ustep_plain in E as [Hc [->|(g & ->)]]; exact (kept_refl s).
Qed.

Lemma V_in_handler_kept p s : post (V_in_handler p s) (kept s).
Proof. unfold V_in_handler, V_, ReadyToRun. cbn [SetLevelOff]. keeps. Qed.
#[local] Hint Resolve V_in_handler_kept : kept.

Lemma handler_kept d s : post (handler_ d s) (kept s).
Proof.
  destruct d; cbn [handler_];
    unfold Alarm_timer_CallBack, Timer_CallBack, SetInterrupt, Alarm_CallBack, YieldOnReturn,
      ConsoleInput_CallBack, SynchIn_CallBack, ConsoleOutput_CallBack, SynchOut_CallBack, Disk_CallBack,
      Disk.CallBack, SynchDisk_CallBack, NetworkInput_CallBack, PostIn_CallBack, NetworkOutput_CallBack, PostOut_CallBack.
  1: destruct (randomize _ && _); [destruct (RandomNumber _)|]; unfold put_net; cbn beta iota zeta; keeps.
  all: keeps.
Qed.

#[local] Instance keep_preorder : PreOrder (fun d d' : Sys N => keep (fileSystem d) (fileSystem d')).
Proof. split; [intros d; apply keep_refl|intros d1 d2 d3; apply keep_trans]. Qed.

(** A stale entry is there for good. *)
Lemma run_kept_stale k s s' : Kernel.run k s s' -> stale (the_fs s) -> stale (the_fs s').
Proof.
  intros Hrun (i & p & Hst). exists i, p.
  exact (run_below (fun d d' => keep (fileSystem d) (fileSystem d')) handler_kept ustep_kept k s s' Hrun i p Hst).
Qed.
(** *** The destructor of the kernel *)

(** What ends well ends in [Q]; what does not crashes. *)
Definition falls {A} (r : res A) (Q : A -> Prop) : Prop :=
  match r with Ok x => Q x | Fault e => crash e end.
Lemma falls_bind {A B} (r : res A) (k : A -> res B) (Q : A -> Prop) R :
  falls r Q -> (forall x, Q x -> falls (k x) R) -> falls (rbind r k) R.
Proof. destruct r as [x|e]; simpl; auto. Qed.
Lemma live_falls {A} (m : gmap ptr A) p : falls (live m p) (fun _ => True).
Proof. unfold live. destruct (m !! p); [done|by left]. Qed.
Lemma Close_falls fd s : falls (h ← Unix.Close fd (StubFS.host (the_fs s)); Ok (put_fs (StubFS.set_host (the_fs s) h) s)) (kept s).
Proof.
  destruct (Unix.Close _ _) as [h|e] eqn:E; cbn [rbind falls]; [apply set_host_keep|]. right. left. by eapply Close_fault.
Qed.
Lemma delete_Semaphore_falls p s : falls (delete_Semaphore p s) (kept s).
Proof. unfold delete_Semaphore. eapply falls_bind; [apply live_falls|]. intros x _. exact (kept_refl s). Qed.
Lemma delete_Lock_falls l s : falls (delete_Lock l s) (kept s).
Proof.
  unfold delete_Lock. eapply falls_bind; [apply live_falls|]. intros x _.
  eapply falls_bind; [apply delete_Semaphore_falls|]. intros s1 K. exact K.
Qed.
Lemma consoles_fall s : falls (delete_SynchConsoleInput s) (kept s) /\ falls (delete_SynchConsoleOutput s) (kept s).
Proof.
  unfold delete_SynchConsoleInput, delete_SynchConsoleOutput, delete_ConsoleInput, delete_ConsoleOutput. split.
  all: eapply (falls_bind _ _ (kept s)); [destruct (negb _); [apply Close_falls|apply kept_refl]|]; intros s1 K1.
  all: eapply falls_bind; [apply delete_Lock_falls|]; intros s2 K2.
  all: pose proof (delete_Semaphore_falls) as HS.
  - specialize (HS (in_waitFor (synchConsoleIn (the_sys s2))) s2). destruct (delete_Semaphore _ s2); [|done].
    eapply kept_trans; [exact K1|]. by eapply kept_trans.
  - specialize (HS (out_waitFor (synchConsoleOut (the_sys s2))) s2). destruct (delete_Semaphore _ s2); [|done].
    eapply kept_trans; [exact K1|]. by eapply kept_trans.
Qed.
Lemma delete_SynchDisk_falls s : falls (delete_SynchDisk s) (kept s).
Proof.
  unfold delete_SynchDisk. destruct (Unix.Close _ _) as [h|e] eqn:E; cbn [rbind]; [|right; left; by eapply Close_fault].
  eapply falls_bind; [apply delete_Lock_falls|]. intros s1 K1.
  pose proof (delete_Semaphore_falls (disk_sem (synchDisk (the_sys s))) s1) as HS. destruct (delete_Semaphore _ s1); [|done].
  eapply kept_trans; [|exact HS]. eapply kept_trans; [|exact K1]. keeping.
Qed.

(** With a stale entry the kernel cannot be deleted. *)
Lemma delete_Kernel_stale s : stale (the_fs s) -> crash (delete_Kernel s).
Proof.
  intros (i & p & Hst). unfold delete_Kernel.
  destruct (consoles_fall s) as [K1 _]. destruct (delete_SynchConsoleInput s) as [s1|e]; [|exact K1]. cbn [rbind falls] in *.
  destruct (consoles_fall s1) as [_ K2]. destruct (delete_SynchConsoleOutput s1) as [s2|e]; [|exact K2]. cbn [rbind falls] in *.
  pose proof (delete_SynchDisk_falls s2) as K3. destruct (delete_SynchDisk s2) as [s3|e]; [|exact K3]. cbn [rbind falls] in *.
  destruct (delete_FileSystem_stale (the_fs s3)) as (e & -> & He); [|exact He].
  exists i, p. by apply K3, K2, K1.
Qed.
(** *** [Exec] *)

Lemma Exec_leaves_stale s : post (handle_SC_Exec s) (fun '(calls, s') => calls = [] \/ stale (the_fs s')).
Proof.
  unfold handle_SC_Exec. do 2 (apply post_any; intros ? _). destruct x0 as [buf s1].
  destruct (StubFS.new_chars buf (the_fs s1)) as [nm f]. eapply post_bind_mono; [apply Open_then_delete|].
  intros [[g|] f1] Hg.
  - eapply post_bind_mono; [by apply Hg|]. intros f2 Hst. by right.
  - eapply post_mono; [apply return_to_user_still|]. intros [calls s2] [Ec _]. by left.
Qed.

Lemma exec_step_stale s s1 c fs gs :
  stacks (the_kern s) !! cur s = Some (User (ExceptionHandler Machine.SyscallException) :: SetStatusTo Machine.UserMode :: fs) ->
  ReadRegister 2 s = Ok SC_Exec -> step s = Ok s1 ->
  stacks (the_kern s1) !! cur s1 = Some (User (ExecUpdate c) :: gs) -> stale (the_fs s1).
Proof.
  intros Hst Hr E Htop. unfold step in E. rewrite Hst in E. cbn zeta in E.
  apply bind_Ok_inv in E as ([calls s'] & E & E'). injection E' as <-. set (s0 := set_stack _ _ s) in *.
  assert (Ex : handle_SC_Exec s0 = Ok (calls, s')).
  { rewrite <- E. cbn [exec ustep nachos]. cbn [ustep_]. unfold ExceptionHandler_.
    change (ReadRegister 2 s0) with (ReadRegister 2 s). by rewrite Hr. }
  destruct (post_elim _ _ _ (Exec_leaves_stale s0) Ex) as [->|Hs]; [|exact Hs].
  destruct (exec_pieces s0) as (HP & _). destruct (post_elim _ _ _ HP Ex) as (_ & T & _).
  exfalso. unfold push, cur in Htop. cbn [the_kern on_kern rest kern set_stacks currentThread stacks] in Htop.
  pose proof (to_stacks _ _ T) as Es. pose proof (to_cur _ _ T) as Ec. rewrite Es, Ec in Htop. unfold s0, cur in Htop. cbn in Htop.
  by rewrite lookup_alter_eq, lookup_insert_eq in Htop.
Qed.

(** C6. [Exec] of a file that is there dooms the end of the machine: the handler
    opens the file to see that it can be read and deletes it, but leaves in the
    file table a slot that points to it.  Whatever then runs, the entry stays,
    and the machine does not halt cleanly any more: neither the system call
    [Halt] nor the idle machine ends the process, since [Kernel::~Kernel]
    deletes the file a second time (or a destructor before that crashes). *)
Theorem Exec_dooms_halt (k : nat) s s1 s2 c fs gs
  (Htrap : stacks (the_kern s) !! cur s =
    Some (User (ExceptionHandler Machine.SyscallException) :: SetStatusTo Machine.UserMode :: fs))
  (Hexec : ReadRegister 2 s = Ok SC_Exec) (Hstep : step s = Ok s1)
  (Hopened : stacks (the_kern s1) !! cur s1 = Some (User (ExecUpdate c) :: gs)) (Hrun : Kernel.run k s1 s2) :
  stale (the_fs s2) /\
  (forall fs', stacks (the_kern s2) !! cur s2 = Some (User (ExceptionHandler Machine.SyscallException) :: fs') ->
     ReadRegister 2 s2 = Ok SC_Halt -> exists f, step s2 = Fault f /\ crash f) /\
  (level (interrupt s2) = IntOff -> Lists.IsEmpty (pending (interrupt s2)) = true ->
     exists f, Idle s2 = Fault f /\ crash f).
Proof.
  pose proof (run_kept_stale k s1 s2 Hrun (exec_step_stale s s1 c fs gs Htrap Hexec Hstep Hopened)) as Hst.
  split; [exact Hst|]. split.
  - intros fs' Htop Hr. exists (delete_Kernel (set_stack (cur s2) fs' s2)). split; [|by apply delete_Kernel_stale].
    unfold step. rewrite Htop. cbn zeta. set (s0 := set_stack _ _ s2). cbn [exec ustep nachos]. cbn [ustep_].
    unfold ExceptionHandler_. change (ReadRegister 2 s0) with (ReadRegister 2 s2). by rewrite Hr.
  - intros Hl Hp. exists (delete_Kernel (on_interrupt (fun i => set_status i Machine.IdleMode) s2)).
    split; [|by apply delete_Kernel_stale]. unfold Idle, CheckIfDue. cbn [on_interrupt with_interrupt interrupt level pending set_status].
    by rewrite Hl, Hp.
Qed.
End ops.
End Halting.
