(* ===== verification/Boot.v ===== *)
(** Runs of the whole kernel: a world with two executables, a silent keyboard and
    a network that delivers what is sent, the kernel started in it by its command
    line, the states the theorems on the whole kernel are applied to, and a
    machine with a small address space for those on user memory and mail. *)

From Stdlib Require Import QArith_base.
From S2P Require Import Prelude Bitmap Lists Machine Mips Interrupt Disk HostFS AddrSpace Isolation Threads Kernel Spaces SelfTests System Console Network Process SysCall UserMemory Nachos UserSpaces Safety Protection Halting.
Import Stats Interrupt Isolation Threads Kernel Spaces System Console Network Process SysCall UserMemory Nachos UserSpaces Safety Protection Halting.
Open Scope Z_scope.

Module Boot.

(** *** User programs *)

Definition word (w : Z) : Datatypes.list Z := le_split 4 w.
(** [addiu rt, rs, imm] and [syscall]. *)
Definition addiu (rt rs imm : Z) : Z :=
  Z.lor (Z.lor (Z.lor (Z.shiftl 9 26) (Z.shiftl rs 21)) (Z.shiftl rt 16)) (imm mod 65536).
Definition syscall_instr : Z := 12.

(** An executable with one segment, the code, at address 0. *)
Definition noff (code : Datatypes.list Z) : Datatypes.list Z :=
  concat (map word [0xbadfad; 0; 52; zlen code; 0; 0; 0; 0; 0; 0; 0; 0; 0]) ++ code.

(** [Join(Exec("c")); Halt();] *)
Definition parent : Datatypes.list Z := noff (concat (map word
  [addiu 4 0 36; addiu 2 0 2; syscall_instr; addiu 4 2 0; addiu 2 0 3; syscall_instr; addiu 2 0 0;
   syscall_instr; 0]) ++ [99; 0; 0; 0]).
(** [Write("Hi", 2, 1); Exit(0);] *)
Definition child : Datatypes.list Z := noff (concat (map word
  [addiu 4 0 40; addiu 5 0 2; addiu 6 0 1; addiu 2 0 8; syscall_instr; addiu 4 0 0; addiu 2 0 1;
   syscall_instr; 0; 0]) ++ [72; 105; 0; 0]).

(** *** The world *)

(** What the terminal shows, and the packets on the network. *)
Record Terminal := mkTerminal { screen : Datatypes.list Z; wire : Datatypes.list (Datatypes.list Z) }.

(** The network gives every packet to the machine that sent it, with the
    machine's own number as its destination. *)
#[global] Instance outside : Outside Terminal := {|
  RandomInit _ n := n;
  RandomNumber n := (0, n);
  poll fd n := (negb (fd =? 0) && match wire n with [] => false | _ => true end, n);
  read_char _ n := (None, n);
  write_char _ c n := mkTerminal (screen n ++ [c]) (wire n);
  recvfrom _ _ n := (default [] (head (wire n)), mkTerminal (screen n) (tail (wire n)));
  sendto _ b _ n := (zlen b, mkTerminal (screen n) (wire n ++ [splice 0 (word 0) b]));
|}.
#[global] Instance no_tcp : TCP Terminal := {|
  ConnectTCP _ _ _ n := (-1, n);
  Send _ _ n := (-1, n);
  Receive _ _ n := (None, n);
|}.
#[global] Instance garbage : Garbage := {|
  header_junk := replicate 52 7;
  header_junk_length := eq_refl;
  entry_junk _ := Machine.mkEntry 0 0 false false false false;
  word_junk _ := 5;
  pointer_junk _ := None;
  sem_junk _ := None;
  packet_junk := mkPacketHeader 1 2 3;
  byte_junk _ := 9;
|}.

Definition name_p : Unix.path := [112].
Definition name_c : Unix.path := [99].
Definition host : Unix.Host :=
  Unix.mkHost (<[name_p := 1%positive]> (<[name_c := 2%positive]> ∅))
    (<[1%positive := parent]> (<[2%positive := child]> ∅)) Unix.std_fds ∅.

Definition start (args : Datatypes.list Unix.path) := main ([110] :: args) host (mkTerminal [] []).

(** *** A state the kernel reaches *)

Abbreviation state := (Sim device (World code (Sys Terminal))).

Definition child_wrote (s : Sim device (World code (Sys Terminal))) : bool :=
  match screen (StubFS.net (the_fs s)) with [] => false | _ => true end.

(** The frames of a loaded space. *)
Definition frames_of (a : AddrSpace.AddrSpace) : option (Datatypes.list nat) :=
  match AddrSpace.pageTable a with
  | Some pt =>
      let fr := map (fun e => Z.to_nat (Machine.physicalPage e)) pt in
      if bool_decide (NoDup fr) && bool_decide (Forall (fun f => (f < 128)%nat) fr) &&
         bool_decide (AddrSpace.numPages a = Some (zlen fr)) &&
         bool_decide (Machine.physicalPage <$> pt = Z.of_nat <$> fr)
      then Some fr else None
  | None => None
  end.
Lemma frames_of_loaded a fr : frames_of a = Some fr -> loaded a fr.
Proof.
  unfold frames_of. destruct (AddrSpace.pageTable a) as [pt|] eqn:E; [|done]. set (fr0 := map _ pt).
  case_match eqn:Hb; [|done]. intros [= <-]. repeat (apply andb_prop in Hb as [Hb ?]).
  split; [split; by eapply bool_decide_eq_true_1|]. split; [by eapply bool_decide_eq_true_1|].
  exists pt. split; [done|by eapply bool_decide_eq_true_1].
Qed.
Definition frames_at (s : state) t : option (Datatypes.list nat) :=
  match profiles s !! t with Some (Some a, _) => frames_of a | _ => None end.
Lemma frames_at_owns s t fr : frames_at s t = Some fr -> owns s t fr.
Proof.
  unfold frames_at. destruct (profiles s !! t) as [[[a|] rs]|] eqn:E; try done.
  intros Hl%frames_of_loaded. by exists a, rs.
Qed.

(** The child runs and the parent, which has memory, does not. *)
Definition parent_waits (s : state) : bool :=
  child_wrote s && negb (Pos.eqb (cur s) 1) &&
  match frames_at s 1%positive with Some (_ :: _) => true | _ => false end &&
  match step s with Ok s' => match profiles s' !! 1%positive with Some _ => true | None => false end | _ => false end.

Lemma parent_waits_inv s : parent_waits s = true -> child_wrote s = true /\ cur s <> 1%positive /\
  exists s' f fr, step s = Ok s' /\ owns s 1%positive (f :: fr) /\ is_Some (profiles s' !! 1%positive).
Proof.
  unfold parent_waits. intros Hs. apply andb_prop in Hs as [Hs Hp]. apply andb_prop in Hs as [Hs Hf].
  apply andb_prop in Hs as [Hw Hc]. destruct (frames_at s 1%positive) as [[|f fr]|] eqn:Ef; [discriminate Hf| |discriminate Hf].
  destruct (step s) as [s'|]; [|discriminate Hp]. destruct (profiles s' !! 1%positive) eqn:Ep; [|discriminate Hp].
  apply negb_true_iff, Pos.eqb_neq in Hc. split; [exact Hw|]. split; [exact Hc|].
  exists s', f, fr. split; [done|]. split; [by apply frames_at_owns|by eexists].
Qed.

(** The thread that runs has memory, and its next step gives the CPU away. *)
Definition leaves (s : state) : bool :=
  has_room s && match frames_at s (cur s), step s with
  | Some _, Ok s' => negb (Pos.eqb (cur s') (cur s))
  | _, _ => false
  end.
Lemma leaves_inv s : leaves s = true -> room s /\ exists fr s', owns s (cur s) fr /\ step s = Ok s' /\ cur s' <> cur s.
Proof.
  unfold leaves. intros [Hr Hl]%andb_prop. split; [by apply has_room_room|].
  destruct (frames_at s (cur s)) as [fr|] eqn:Ef; [|done]. destruct (step s) as [s'|]; [|done].
  exists fr, s'. split; [by apply frames_at_owns|]. split; [done|]. by apply negb_true_iff, Pos.eqb_neq in Hl.
Qed.

(** Runs until [stop] holds, which [t] waits for. *)
Fixpoint away_until (fuel : nat) (stop : state -> bool) t (s : state) : res state :=
  if stop s then Ok s
  else match fuel with
       | O => Fault OutOfFuel
       | Datatypes.S fuel =>
           ASSERT (negb (Pos.eqb (cur s) t) && bool_decide (is_Some (profiles s !! t)) && has_room s) ;;
           s ← step s; away_until fuel stop t s
       end.

Definition reaches (s s' : state) : Prop := exists n : nat, Kernel.run n s s'.
Lemma reaches_step s1 s2 : room s1 -> step s1 = Ok s2 -> reaches s1 s2.
Proof. intros Hr E. eexists. eapply Kernel.run_step; [exact Hr|exact E|constructor]. Qed.
Lemma reaches_trans s1 s2 s3 : reaches s1 s2 -> reaches s2 s3 -> reaches s1 s3.
Proof.
  intros [n H12] H23. revert H23. induction H12 as [s|n s u v Hr E _ IH]; [done|]. intros H23.
  destruct (IH H23) as [k Hk]. eexists. by eapply Kernel.run_step.
Qed.

Lemma away_until_away fuel stop t s0 s s' : away t s0 s -> away_until fuel stop t s = Ok s' ->
  away t s0 s' /\ stop s' = true /\ reaches s s'.
Proof.
  revert s. induction fuel as [|fuel IH]; intros s Ha; simpl; destruct (stop s) eqn:Hst; try done;
    try (by intros [= <-]; split_and!; [done|done|exists 0%nat; constructor]).
  intros E. apply ASSERT_inv in E as [Hr E]. apply andb_prop in Hr as [Hr Hroom]. apply andb_prop in Hr as [Hc Hal].
  apply has_room_room in Hroom. apply bind_Ok_inv in E as (s1 & E1 & E). apply negb_true_iff, Pos.eqb_neq in Hc.
  destruct (IH s1) as (Ha' & Hs' & Hr'); [by eapply away_step; [..|exact E1]; try by eapply bool_decide_eq_true_1|exact E|].
  split; [exact Ha'|]. split; [exact Hs'|]. eapply reaches_trans; [by eapply reaches_step|exact Hr'].
Qed.

(** One run: the parent gives the CPU away in [s1], waits in [w] while the child
    runs, and is back in [s3]. *)
Lemma parent_leaves_and_returns : exists s s1 s2 w w' s3 s4 m fr f fr', start [flag_x; name_p] = Ok s /\ reaches s s1 /\
  (room s1 /\ machine s1 = Some m /\ owns s1 (cur s1) fr /\ step s1 = Ok s2 /\ cur s2 <> cur s1 /\
   away (cur s1) s2 s3 /\ cur s3 = cur s1 /\ step s3 = Ok s4) /\
  (reaches s w /\ child_wrote w = true /\ step w = Ok w' /\ cur w <> 1%positive /\ owns w 1%positive (f :: fr') /\
   is_Some (profiles w' !! 1%positive)).
Proof.
  assert (Hb : match (s ← start [flag_x; name_p]; s1 ← run_until 1000 leaves s; s2 ← step s1;
      w ← away_until 1000 parent_waits (cur s1) s2; s3 ← away_until 1000 (fun s => Pos.eqb (cur s) (cur s1)) (cur s1) w;
      s4 ← step s3; the_machine s1) with Ok _ => true | Fault _ => false end = true)
    by (vm_compute; reflexivity).
  destruct (start _) as [s|?]; [|discriminate Hb]. cbn [rbind] in Hb.
  destruct (run_until _ _ s) as [s1|] eqn:E; [|discriminate Hb]. cbn [rbind] in Hb.
  apply run_until_run in E as (Hl & Hn). apply leaves_inv in Hl as (Hroom & fr & s2 & Ho & E2 & Hne).
  rewrite E2 in Hb. cbn [rbind] in Hb. destruct (away_until _ _ _ s2) as [w|] eqn:Ew; [|discriminate Hb]. cbn [rbind] in Hb.
  destruct (away_until_away _ _ _ s2 s2 w (away_now _ _) Ew) as (Haw & Hw & Hrw).
  destruct (away_until _ _ _ w) as [s3|] eqn:E3; [|discriminate Hb]. cbn [rbind] in Hb.
  destruct (away_until_away _ _ _ s2 w s3 Haw E3) as (Ha & Hc & _). apply Pos.eqb_eq in Hc.
  destruct (step s3) as [s4|] eqn:E4; [|discriminate Hb]. cbn [rbind] in Hb. unfold the_machine in Hb.
  destruct (machine s1) as [m|] eqn:Em; [|discriminate Hb]. apply parent_waits_inv in Hw as (Hch & Hcur & w' & f & fr' & Ew' & Hwo & Hp).
  assert (Hsw : reaches s w).
  { eapply reaches_trans; [exact Hn|]. eapply reaches_trans; [by eapply reaches_step|exact Hrw]. }
  exists s, s1, s2, w, w', s3, s4, m, fr, f, fr'. by split_and!.
Qed.

Lemma system_stays_good_witness : exists s (n : nat) s', start [flag_x; name_p] = Ok s /\ Kernel.run n s s' /\ child_wrote s' = true /\ good s'.
Proof.
  destruct parent_leaves_and_returns as (s & _ & _ & w & _ & _ & _ & _ & _ & _ & _ & Hs & _ & _ & [n Hr] & Hw & _).
  exists s, n, w. split; [exact Hs|]. split; [exact Hr|]. split; [exact Hw|].
  exact (proj1 (system_stays_good _ _ _ n s w Hs Hr)).
Defined.

Lemma processes_isolated_witness : exists s (n : nat) s1 s2 f fr m1 m2, start [flag_x; name_p] = Ok s /\ Kernel.run n s s1 /\
  step s1 = Ok s2 /\ cur s1 <> 1%positive /\ owns s1 1%positive (f :: fr) /\ machine s1 = Some m1 /\
  machine s2 = Some m2 /\ forall b, (b / AddrSpace.page)%nat ∈ f :: fr -> Machine.mainMemory m2 !! b = Machine.mainMemory m1 !! b.
Proof.
  destruct parent_leaves_and_returns as (s & _ & _ & s1 & s2 & _ & _ & _ & _ & f & fr & Hs & _ & _ & [n Hr] & _ & E & Hc & Ho & Hp).
  destruct (processes_isolated _ _ _ n s s1 Hs Hr) as (_ & _ & HI).
  destruct (HI s2 1%positive (f :: fr) E (not_eq_sym Hc) Ho) as [HN|(_ & m1 & m2 & E1 & E2 & HB)].
  - exfalso. destruct Hp as [x Hx]. discriminate (eq_trans (eq_sym HN) Hx).
  - exists s, n, s1, s2, f, fr, m1, m2. exact (conj Hs (conj Hr (conj E (conj Hc (conj Ho (conj E1 (conj E2 HB))))))).
Defined.

Lemma context_switch_transparent_witness : exists (s1 s4 : state) m m', machine s1 = Some m /\ machine s4 = Some m' /\
  Machine.registers m' = Machine.registers m /\ Machine.pageTable m' = Machine.pageTable m.
Proof.
  destruct parent_leaves_and_returns as (s & s1 & s2 & _ & _ & s3 & s4 & m & fr & _ & _ & Hs & [n Hr] &
    (Hroom & Hm & Ho & E2 & Hne & Ha & Hb & E4) & _).
  destruct (context_switch_transparent _ _ _ n s s1 s2 s3 s4 m fr Hs Hr Hroom Hm Ho E2 Hne Ha Hb E4) as (_ & m' & Hm' & HR & HT & _).
  exists s1, s4, m, m'. exact (conj Hm (conj Hm' (conj HR HT))).
Defined.

(** *** A machine with a space of two pages, in frames 5 and 2 *)

Definition two_pages : Machine.Machine :=
  Machine.mkMachine (splice 766 [72; 105] (splice 256 [33; 0] (replicate (Z.to_nat Machine.MemorySize) 0)))
    (Bitmap.mkBitmap 128 4 [36; 0; 0; 0]) None
    (Some [Machine.mkEntry 0 5 true false false false; Machine.mkEntry 1 2 true false false false]) 2
    (replicate (Z.to_nat Machine.NumTotalRegs) 0) false 0.
Definition two_frames : Datatypes.list nat := [5%nat; 2%nat].
Definition idle_kernel : state := set_machine two_pages (new_Kernel default_options host (mkTerminal [] [])).

Lemma two_pages_seen : user_sees two_frames (AddrSpace.view two_frames (Machine.mainMemory two_pages)) two_pages.
Proof.
  constructor.
  - split; [by vm_compute|]. apply Forall_splice; [repeat constructor; unfold is_byte; lia|].
    apply Forall_splice; [repeat constructor; unfold is_byte; lia|]. apply Forall_replicate. unfold is_byte. lia.
  - split; [done|]. eexists. split; [done|]. split; [by vm_compute|]. repeat constructor; done.
  - split; [|repeat constructor; lia]. apply (bool_decide_unpack _). by vm_compute.
  - done.
  - intros [|[|vpn]] f Hf; [by injection Hf as <-|by injection Hf as <-|done].
Qed.

(** "Hi!" lies across the two pages: a limit of 8 reads it whole. *)
Lemma User2System_bounds_witness : exists buf s', User2System 126 8 idle_kernel = Ok (buf, s') /\ zlen buf = 9 /\
  StubFS.cstr buf = Ok [72; 105; 33].
Proof.
  assert (Hl : is_s32 8) by (unfold is_s32; lia). pose proof (User2System_bounds idle_kernel 126 8 Hl) as Hb.
  assert (E : match read_chars 126 0 (Z.to_nat 8) idle_kernel with
    | (cs, None, _) => chars_of (of_char <$> cs) = [72; 105; 33] | _ => False end) by (vm_compute; reflexivity).
  destruct (read_chars 126 0 (Z.to_nat 8) idle_kernel) as [[cs [f|]] s']; [destruct E|]. destruct Hb as (HU & Hz & HC).
  eexists _, s'. split; [exact HU|]. split; [apply Hz; lia|]. exact (eq_trans (proj2 HC) (f_equal Ok E)).
Defined.

(** "Hello" written across the two pages, read back whole and cut to two. *)
Lemma string_round_trip_witness : exists m1 m2 buf,
  System2User 125 6 ([72; 101; 108; 108; 111] ++ [0]) idle_kernel = Ok (6, set_machine m1 idle_kernel) /\
  User2System 125 2 (set_machine m1 idle_kernel) = Ok (buf, set_machine m2 idle_kernel) /\
  StubFS.cstr buf = Ok [72; 101].
Proof.
  destruct (string_round_trip two_frames _ idle_kernel two_pages 125 2 [72; 101; 108; 108; 111] eq_refl two_pages_seen)
    as (m1 & m2 & buf & Hout & Hin & _ & Hc & _).
  - lia.
  - by vm_compute.
  - repeat constructor; unfold is_byte; lia.
  - lia.
  - exists m1, m2, buf. exact (conj Hout (conj Hin Hc)).
Defined.

(** *** [Exec] and then [Halt] *)

(** The current thread is in the trap of the system call [n]. *)
Definition calls (n : Z) (s : state) : bool :=
  match stacks (the_kern s) !! cur s with
  | Some (User (ExceptionHandler Machine.SyscallException) :: SetStatusTo Machine.UserMode :: _) =>
      match ReadRegister 2 s with Ok v => v =? n | Fault _ => false end
  | _ => false
  end.
Lemma calls_inv n s : calls n s = true -> ReadRegister 2 s = Ok n /\ exists fs, stacks (the_kern s) !! cur s =
  Some (User (ExceptionHandler Machine.SyscallException) :: SetStatusTo Machine.UserMode :: fs).
Proof.
  unfold calls. intros Hc. repeat case_match; try done. apply Z.eqb_eq in Hc as ->. by eauto.
Qed.
Definition execs (s : state) : option (state * command) :=
  match step s with
  | Ok s1 => match stacks (the_kern s1) !! cur s1 with Some (User (ExecUpdate c) :: _) => Some (s1, c) | _ => None end
  | Fault _ => None
  end.
Lemma execs_inv s s1 c : execs s = Some (s1, c) -> step s = Ok s1 /\
  exists gs, stacks (the_kern s1) !! cur s1 = Some (User (ExecUpdate c) :: gs).
Proof. unfold execs. intros He. repeat case_match; try done. simplify_eq. by eauto. Qed.

(** Up to the [Exec] the machine could still halt cleanly; when the program calls
    [Halt] it cannot. *)
Lemma Exec_dooms_halt_witness : exists (s s2 : state) f, delete_Kernel s = Halted /\ reaches s s2 /\
  ReadRegister 2 s2 = Ok SC_Halt /\ step s2 = Fault f /\ crash f.
Proof.
  assert (Hb : match (s0 ← start [flag_x; name_p]; s ← run_until 1000 (calls SC_Exec) s0;
      match execs s with Some (s1, _) => s2 ← run_until 1000 (calls SC_Halt) s1; Ok (delete_Kernel s, has_room s)
      | None => Fault AssertFailed end)
    with Ok (f, b) => bool_decide (f = Halted) && b | Fault _ => false end = true) by (vm_compute; reflexivity).
  destruct (start _) as [s0|?]; [|discriminate Hb]. cbn [rbind] in Hb.
  destruct (run_until 1000 (calls SC_Exec) s0) as [s|] eqn:E; [|discriminate Hb]. cbn [rbind] in Hb.
  apply run_until_run in E as ((Hr & fs & Ht)%calls_inv & _).
  destruct (execs s) as [[s1 c]|] eqn:E1; [|discriminate Hb]. apply execs_inv in E1 as (E1 & gs & Ho).
  destruct (run_until 1000 (calls SC_Halt) s1) as [s2|] eqn:E2; [|discriminate Hb]. cbn [rbind] in Hb.
  apply run_until_run in E2 as ((Hr2 & fs2 & Ht2)%calls_inv & n & Hn).
  apply andb_prop in Hb as [Hd Hroom]. apply bool_decide_eq_true_1 in Hd. apply has_room_room in Hroom.
  destruct (Exec_dooms_halt n s s1 s2 c fs gs Ht Hr E1 Ho Hn) as (_ & HH & _).
  destruct (HH _ Ht2 Hr2) as (f & Hf & Hc). exists s, s2, f. split; [exact Hd|].
  split; [eapply reaches_trans; [by eapply reaches_step|by exists n]|]. exact (conj Hr2 (conj Hf Hc)).
Defined.

(** *** A letter from the machine to itself *)

Definition packet_to_self : PacketHeader := mkPacketHeader 0 0 25.
Definition sender : state := set_output (mkNetworkOutput 5 1%Q false) idle_kernel.
Definition receiver (buffer : Datatypes.list Z) : state :=
  on_sys (set_postIn (mkPostIn (mkNetworkInput 4 false packet_to_self buffer) [7%positive] 1%positive)) idle_kernel.

End Boot.
